(* ===== verification/_CoqProject ===== *)
-Q . S2P
Prelude.v
CString.v
AvlTree.v
QueryOperation.v
FileRepository.v
Base64.v
HashTable.v
Support.v
Control.v
MemoryManager.v
RWLock.v
RetryQueue.v
ProviderRegister.v
ProviderMgr.v
CmpiData.v
ClBuffer.v
StringBuffer.v
ClObject.v
ClClass.v
NativeArray.v
ConstClass.v
ClassMerge.v
ObjectPath.v
PathText.v
DateTime.v
Messages.v
ResultBuffer.v
RestRequest.v
Interop.v
InteropSafety.v
ClassRegister.v
ClassHierarchy.v
ClassTraversal.v
InternalProvider.v
InternalProviderSpec.v
InternalAssociations.v
Instance.v
InstanceSpec.v
HttpAdapter.v
HttpSpec.v
HttpSafety.v
HttpChunks.v
HttpConnection.v
XmlScanner.v
XmlTokens.v
XmlFrame.v
XmlGen.v
XmlRoundTrip.v
