(* ===== verification/Prelude.v ===== *)
(** * Verification of the small-footprint CIM broker (sfcb)

    sfcb is a CIM object manager.  A request arrives over HTTP (httpAdapter.c),
    is parsed (cimXmlParser.c, cimXmlOps.y, cimRsRequest.c) and handled
    (cimRequest.c); the provider manager (providerMgr.c) finds the providers of a
    class in the registration file (providerRegister.c) and passes the request
    over a socket (msgqueue.c) to the process that runs the provider
    (providerDrv.c).  Instances without a provider are kept by the internal
    provider (internalProvider.c) in the file repository (fileRepository.c);
    queries and indication filters are evaluated by queryOperation.c, undelivered
    indications are repeated by indCIMXMLHandler.c.  support.c, control.c,
    avltree.c and mrwlock.c carry the rest.

    ** Conventions

    A C function is a function on the state it reads and writes; its result is an
    [option], and [None] always means that the C code has undefined behaviour: it
    follows a null or released pointer, or leaves an array.  A theorem that says
    [= Some ...] therefore excludes this.  C strings are lists of bytes as
    integers ([CString.bytes]), machine integers are [Z] with the wrap-around of
    their width written out ([u8] .. [u64], [s8] .. [s64] below).  Code of other
    packages (sfcCommon's hash table, the CMPI objects of providers, the clock,
    the files) is a parameter: a class with the laws the code relies on, an
    argument, or an explicit list of answers.  Recursion is structural, or takes a
    fuel: the definition sets it itself to the length of what it consumes, or it is an
    argument and the theorems are about every fuel that is large enough (the loops of
    the class provider, the selection of providers); they show that it is not used up.

    ** The files

    - [Prelude] (this file): machine integers, list and boolean lemmas, tactics.
    - [CString]: the libc string functions the broker uses, and their laws.
    - [HashTable]: the hash table of sfcCommon as a class, with one implementation.
    - [AvlTree] (avltree.c): the tree is inductive, the arrays [stack] and
      [pathInfo] are a path of frames.  [insertAvl], [deleteAvl], [deleteMinAvl]
      and [findAvl] refine insertion, deletion and lookup in a sorted list and
      keep the tree balanced; the arrays are never overrun; [freeAvl] frees
      every node once.
    - [QueryOperation] (queryOperation.c, actions of queryParser.y): operands and
      operations.  Evaluation is the two-valued logic of the predicates with the
      NOTs left out (the code's [_notEvaluate] does not negate); the normal forms
      given to providers are equivalent to the condition; comparisons of
      integers, strings and patterns; the buffers of printing.
    - [FileRepository] (fileRepository.c, enumeration loop of internalProvider.c):
      byte-level model of index and data file.  Adding, deleting, reading and
      enumerating refine operations on the list of entries the files represent.
    - [Base64] (encode64, decode64 of support.c): round trip of the text the loop
      writes, overrun of the buffer for some short texts.
    - [Support] (cntl... and buildArgList of support.c): the scanner of
      configuration lines; the words of an argument list.
    - [Control] (control.c): reading the configuration and the getters.  What is set
      by a file of blank lines, comments and settings, of one word or of the whole
      rest of a line.
    - [MemoryManager] (memory management of support.c): everything tracked between
      [markHeap] and [releaseHeap] is freed exactly once, unless it was tracked
      twice, which the code does not notice: then it is freed twice.
    - [RWLock] (mrwlock.c): a step relation over any number of threads, with the
      reader count as an unsigned int that wraps; exclusion, unless 2^32 read locks
      are held at once, and no lost wake-up by rule induction.
    - [RetryQueue] (retry queue of indCIMXMLHandler.c): the ring of elements in a
      store refines a list; [retryExport] empties the queue within its budget, as
      long as no lookup fails whose null pointer the code follows.

    - [ProviderRegister] (providerRegister.c): reading the registration file over
      [Support], [Control] and [HashTable]; objects in a store, chained by class.
      Registration refines an operation on a map from classes to chains; what a
      well-formed file is read into, conflicts and the special providers; resetting
      process ids over the whole table.
    - [ProviderMgr] (selection in providerMgr.c): the search along the superclasses
      for instance, association and method providers with its tables, and the list
      of the providers of a class and its subclasses.  The class provider is a
      parameter; the fuel is the length of the lineage or the height of the class
      tree.

    - [CmpiData] (value.c): CMPI types, values and data items; their comparison and
      the copy of a value to its aligned place.
    - [ClBuffer] (the common part of the string and array buffers of objectImpl.c):
      an index of offsets into a buffer, which are a block of their own or belong
      to the block of the object.  [represents] relates them to a list of entries,
      and growing, adding, removing and compacting refine operations on that list.
    - [StringBuffer], [ClObject], [ClClass] (objectImpl.c): the strings, arrays and
      properties of an object; qualifiers, methods and parameters of classes; the
      size of an object and its copy into one block.
    - [NativeArray] (array.c): CMPI arrays and their growth.
    - [ConstClass] (constClass.c, the readers of objectImpl.c): reading a class by
      position and by name; a property that was added is what is read.
    - [ObjectPath] (objectpath.c): object paths as lists of keys; [getObjectPath]
      parses the text that [sfcb_pathToChars] prints, and references are texts that
      are parsed again, with the length of the text as fuel.  [PathText]: a printed
      path is parsed as itself, and which paths [objectpathCompare] takes for equal.
    - [DateTime] (datetime.c): the texts of dates and intervals and their
      microseconds, over a model of [mktime] and [localtime_r]; intervals are kept,
      times are shifted by the zone.

    - [Messages] (providerMgr.c, providerDrv.c, msgqueue.c): the segments of requests
      and responses; what is put into a message is what the other side finds in it.
    - [ResultBuffer] (result.c): what a provider returns is sent in chunks; the broker
      that puts them together has the instances in their order.

    - [RestRequest] (cimRsRequest.c): paths of resources are parsed as the resources
      they are printed from, with the fields of their kind; the keys of an instance.
    - [Interop] (interopProvider.c): filters, handlers and subscriptions in stores, with
      hash tables of their places; every request is a function of the state and of what
      the others answer.  [InteropSafety]: use counts are right and nothing released is
      used, by induction over requests; the limit of active subscriptions, by a relation
      of the changes a request can make; where the counts of the code go wrong.  The
      answers of the source name spaces must not be mixed: the answers of one are
      freed a second time when a later one has no provider.

    - [ClassMerge], [ClassRegister] (classProvider.c): the copy of a class into another
      one; the register of a name space with its table of derived classes and its file,
      the class requests and the methods.  Names and keys of the table of derived
      classes that belong to a request are pointers with the request they belong to, and
      following one after its request has ended is undefined.  [ClassHierarchy]: the table
      agrees with the classes after reading the file and after every request.
      [ClassTraversal]: while the names of the table can be followed, as they can after
      reading the file, the recursive requests end and return the descendants.
    - [InternalProvider] (internalProvider.c): the requests for instances without a
      provider, over [FileRepository]; instances are a class of their serialized form,
      properties and path.  [InternalProviderSpec]: any sequence of requests answers as
      a map from classes to lists of instances does.  [InternalAssociations]: references
      and associators in terms of that map; the code takes objects for the same when their
      keys are, whatever their classes.

    - [Instance] (instance.c, the instances of objectImpl.c): the handle of an instance
      over its serialized object: reading and storing properties, the path, filters,
      default values, copies, texts.  [InstanceSpec]: what is set is read; a filter
      projects the properties and keeps the path; copies read alike; the buffer of the
      text is large enough.

    - [HttpAdapter] (httpAdapter.c, httpComm.c): the requests of a connection, from what
      [read] and [select] meet to the handler and back.  [HttpSpec]: an accepted request
      reaches the handler as it was sent, in whatever pieces it arrives.  [HttpSafety]:
      nothing is handled without the consent of the authentication plug-in; every request
      ends within the buffers.  [HttpChunks]: a reader of the chunked transfer coding gets
      what was written.  [HttpConnection]: the requests of a connection, accepted and
      refused ones, are answered in their order, in one piece or in chunks, as long as no
      piece that arrives has bytes of two of them.

    - [XmlScanner] (cimXmlParser.c): the lexical layer over the copy of the request,
      which it changes in place: blanks, tags, attributes, contents, escapes.  Its
      monad has an outcome for the exit through [Throw] and one for undefined
      behaviour.
    - [XmlTokens] (cimXmlParser.c): the function of every element and [yylex].
    - [XmlFrame]: the scanner comes to an end, and leaves the texts it has handed out
      as they are.
    - [XmlGen] (cimXmlGen.c): the XML of values, paths, instances, classes,
      enumerations and qualifier declarations, over trees of what the accessors of
      the objects return.
    - [XmlRoundTrip]: a printed instance, without references and embedded instances, or
      path is scanned as the tokens of the same names, types and values.

    ** What is not modelled

    Allocation failure, failing system calls and I/O errors; tracing and logging;
    the release of memory, except where it is the point (memory manager, freeAvl,
    sunsetControl, dqRetry). The parts of the broker without a file above are not
    modelled: the start of the HTTP server, its processes and SSL, the grammar of
    requests (compiled by bison) and the request handlers, the processes of
    providers and the sockets between them (providerDrv.c, msgqueue.c), qualifier
    declarations, the class providers over other stores and the other interop
    providers. *)

From stdpp Require Export base tactics numbers list gmap strings sorting.
From Stdlib Require Export ZArith Lia.

#[global] Open Scope Z_scope.

(** ** Automation *)

(** Case analysis on the comparisons of integers in the goal. *)
Ltac case_zbool :=
  repeat match goal with
    | |- context [?a <=? ?b] => destruct (Z.leb_spec a b)
    | |- context [?a <? ?b] => destruct (Z.ltb_spec a b)
    | |- context [?a =? ?b] => destruct (Z.eqb_spec a b)
    end.

(** ** Machine integers *)

Definition wrapu (w : Z) (x : Z) : Z := x mod 2 ^ w.
Definition wraps (w : Z) (x : Z) : Z :=
  let u := x mod 2 ^ w in if u <? 2 ^ (w - 1) then u else u - 2 ^ w.

Abbreviation u8 := (wrapu 8).
Abbreviation u16 := (wrapu 16).
Abbreviation u32 := (wrapu 32).
Abbreviation u64 := (wrapu 64).
Abbreviation s8 := (wraps 8).
Abbreviation s16 := (wraps 16).
Abbreviation s32 := (wraps 32).
Abbreviation s64 := (wraps 64).

Lemma wrapu_small w x : 0 <= x < 2 ^ w -> wrapu w x = x.
Proof. intros. unfold wrapu. by rewrite Z.mod_small. Qed.

Lemma wrapu_bound w x : 0 <= w -> 0 <= wrapu w x < 2 ^ w.
Proof. intros. unfold wrapu. apply Z.mod_pos_bound. lia. Qed.

Lemma wraps_small w x : 0 < w -> - 2 ^ (w - 1) <= x < 2 ^ (w - 1) -> wraps w x = x.
Proof.
  intros Hw Hx. unfold wraps.
  assert (Hp : 2 ^ w = 2 * 2 ^ (w - 1)) by (rewrite <- Z.pow_succ_r by lia; f_equal; lia).
  destruct (decide (0 <= x)) as [Hn|Hn].
  - rewrite Z.mod_small by lia. destruct (Z.ltb_spec x (2 ^ (w - 1))); lia.
  - replace (x mod 2 ^ w) with (x + 2 ^ w).
    + destruct (Z.ltb_spec (x + 2 ^ w) (2 ^ (w - 1))); lia.
    + apply (Z.mod_unique_pos _ _ (-1)); lia.
Qed.

Lemma wraps_bound w x : 0 < w -> - 2 ^ (w - 1) <= wraps w x < 2 ^ (w - 1).
Proof.
  intros Hw. unfold wraps.
  assert (Hp : 2 ^ w = 2 * 2 ^ (w - 1)) by (rewrite <- Z.pow_succ_r by lia; f_equal; lia).
  pose proof (Z.mod_pos_bound x (2 ^ w) ltac:(lia)).
  destruct (Z.ltb_spec (x mod 2 ^ w) (2 ^ (w - 1))); lia.
Qed.

Lemma wraps_mod w x : 0 < w -> wraps w x mod 2 ^ w = x mod 2 ^ w.
Proof.
  intros Hw. unfold wraps. pose proof (Z.mod_pos_bound x (2 ^ w) ltac:(lia)).
  destruct (x mod 2 ^ w <? 2 ^ (w - 1)); [by apply Z.mod_small|].
  rewrite <- (Z_mod_plus_full _ 1). replace (_ - _ + 1 * _) with (x mod 2 ^ w) by lia.
  by apply Z.mod_small.
Qed.

Lemma wraps_idemp w x : 0 < w -> wraps w (wraps w x) = wraps w x.
Proof. intros. apply wraps_small; [done|]. by apply wraps_bound. Qed.

Lemma wraps_zero w x : 0 < w -> wraps w x = 0 <-> x mod 2 ^ w = 0.
Proof.
  intros Hw. split.
  - intros H. rewrite <- wraps_mod, H by done. apply Z.mod_0_l. lia.
  - intros H. unfold wraps. rewrite H.
    assert (0 < 2 ^ (w - 1)) by (apply Z.pow_pos_nonneg; lia).
    destruct (Z.ltb_spec 0 (2 ^ (w - 1))); lia.
Qed.

(** ** Booleans and lists *)

Lemma existsb_fmap {A B} (f : A -> B) (t : B -> bool) (l : list A) :
  existsb t (f <$> l) = existsb (fun x => t (f x)) l.
Proof. induction l as [|x l IH]; [done|]. rewrite fmap_cons. cbn [existsb]. by rewrite IH. Qed.

Lemma forallb_fmap {A B} (f : A -> B) (t : B -> bool) (l : list A) :
  forallb t (f <$> l) = forallb (fun x => t (f x)) l.
Proof. induction l as [|x l IH]; [done|]. rewrite fmap_cons. cbn [forallb]. by rewrite IH. Qed.
