(* ===== verification/CString.v ===== *)
(** * C strings and the libc functions the broker uses on them

    A C string is the list of its bytes (0..255) without the terminating NUL;
    a pointer into a string is the suffix it points at.  The functions follow
    the C standard for the C locale; [char] is signed on the supported targets,
    so comparisons of a plain [char] go through [schar]. *)

From S2P Require Import Prelude.

Abbreviation bytes := (list Z).

Definition byte_of_ascii (a : Ascii.ascii) : Z := Z.of_N (Ascii.N_of_ascii a).

(** String literals of the source. *)
Fixpoint cstr (s : string) : bytes :=
  match s with
  | EmptyString => []
  | String a s' => byte_of_ascii a :: cstr s'
  end.

Definition is_byte (b : Z) : Prop := 0 <= b < 256.

(** No NUL inside: what a C string can hold. *)
Definition c_string (s : bytes) : Prop := Forall (fun b => 0 < b < 256) s.

Definition schar (b : Z) : Z := if b <? 128 then b else b - 256.

Definition strlen (s : bytes) : Z := Z.of_nat (length s).

(** The byte a pointer points at: NUL at the end of the string. *)
Definition at0 (s : bytes) : Z := match s with [] => 0 | b :: _ => b end.

Definition tolower (b : Z) : Z := if (65 <=? b) && (b <=? 90) then b + 32 else b.
Definition isdigit (b : Z) : bool := (48 <=? b) && (b <=? 57).
Definition isalpha (b : Z) : bool :=
  ((65 <=? b) && (b <=? 90)) || ((97 <=? b) && (b <=? 122)).
Definition isalnum (b : Z) : bool := isdigit b || isalpha b.
Definition isspace (b : Z) : bool := (b =? 32) || ((9 <=? b) && (b <=? 13)).

(** Only the sign of the result is specified, so it is -1, 0 or 1. *)
Fixpoint strcmp (s t : bytes) : Z :=
  match s, t with
  | [], [] => 0
  | [], _ :: _ => -1
  | _ :: _, [] => 1
  | a :: s', b :: t' =>
      if a <? b then -1 else if b <? a then 1 else strcmp s' t'
  end.

Definition strcasecmp (s t : bytes) : Z := strcmp (tolower <$> s) (tolower <$> t).

Definition strncmp (s t : bytes) (k : Z) : Z :=
  strcmp (take (Z.to_nat k) s) (take (Z.to_nat k) t).
Definition strncasecmp (s t : bytes) (k : Z) : Z :=
  strcasecmp (take (Z.to_nat k) s) (take (Z.to_nat k) t).

Fixpoint is_prefix (p s : bytes) : bool :=
  match p, s with
  | [], _ => true
  | a :: p', b :: s' => (a =? b) && is_prefix p' s'
  | _ :: _, [] => false
  end.

(** [strstr]: the suffix of [h] at the first occurrence of [needle]. *)
Fixpoint strstr (h needle : bytes) : option bytes :=
  if is_prefix needle h then Some h
  else match h with [] => None | _ :: h' => strstr h' needle end.

(** [strchr] for a non-NUL character and [strpbrk]: the suffix found. *)
Fixpoint strchr (s : bytes) (c : Z) : option bytes :=
  match s with
  | [] => None
  | b :: s' => if b =? c then Some s else strchr s' c
  end.

Fixpoint strpbrk (s : bytes) (accept : bytes) : option bytes :=
  match s with
  | [] => None
  | b :: s' => if existsb (Z.eqb b) accept then Some s else strpbrk s' accept
  end.

(** The part of [s] before a suffix found in it: what is left of [s] when a NUL
    is written at the place found. *)
Definition cut (s suffix : bytes) : bytes := take (length s - length suffix) s.

Fixpoint strspn (s : bytes) (accept : Z -> bool) : nat :=
  match s with
  | [] => O
  | b :: s' => if accept b then S (strspn s' accept) else O
  end.

(** The C string at the start of some cells. *)
Fixpoint until_nul (l : bytes) : bytes :=
  match l with [] => [] | b :: l => if b =? 0 then [] else b :: until_nul l end.

(** ** Decimal numbers *)

Definition digits_val (ds : bytes) : Z := fold_left (fun acc d => acc * 10 + (d - 48)) ds 0.

Fixpoint take_digits (s : bytes) : bytes :=
  match s with
  | b :: s' => if isdigit b then b :: take_digits s' else []
  | [] => []
  end.

Fixpoint skip_space (s : bytes) : bytes :=
  match s with
  | b :: s' => if isspace b then skip_space s' else s
  | [] => []
  end.

(** Sign and digits after leading white space. *)
Definition scan_number (s : bytes) : bool * Z :=
  match skip_space s with
  | 45 :: s' => (true, digits_val (take_digits s'))
  | 43 :: s' => (false, digits_val (take_digits s'))
  | s' => (false, digits_val (take_digits s'))
  end.

(** [strtol] saturates; [atoi] is its conversion to [int]; [strtoull] negates
    modulo 2^64 after a minus sign. *)
Definition strtol (s : bytes) : Z :=
  let '(neg, v) := scan_number s in
  if neg then Z.max (- v) (- 2 ^ 63) else Z.min v (2 ^ 63 - 1).
Definition atoi (s : bytes) : Z := s32 (strtol s).
Definition strtoull (s : bytes) : Z :=
  let '(neg, v) := scan_number s in
  if 2 ^ 64 <=? v then 2 ^ 64 - 1 else if neg then u64 (- v) else v.

(** [printf] of a number: [%d]/[%u], and with a minimum number of digits. *)
Fixpoint udec (fuel : nat) (v : Z) : bytes :=
  match fuel with
  | O => []
  | S fuel => if v <? 10 then [48 + v] else udec fuel (v / 10) ++ [48 + v mod 10]
  end.

Definition dec_fuel (v : Z) : nat := S (Z.to_nat (Z.log2 v)).
Definition print_dec (v : Z) : bytes :=
  if v <? 0 then 45 :: udec (dec_fuel (- v)) (- v) else udec (dec_fuel v) v.

(** [%w.wllu]: at least [w] digits. *)
Definition print_dec_pad (w : nat) (v : Z) : bytes :=
  let ds := print_dec v in replicate (w - length ds) 48 ++ ds.

(** ** Lemmas *)

Lemma strcmp_refl s : strcmp s s = 0.
Proof. induction s as [|a s IH]; simpl; [done|]. by rewrite Z.ltb_irrefl. Qed.

Lemma strcmp_eq s t : strcmp s t = 0 <-> s = t.
Proof.
  split; [|intros ->; apply strcmp_refl].
  revert t. induction s as [|a s IH]; intros [|b t]; simpl; try done.
  destruct (Z.ltb_spec a b); [done|]. destruct (Z.ltb_spec b a); [done|].
  intros H'. f_equal; [lia|]. by apply IH.
Qed.

Lemma strcmp_anti s t : strcmp s t = - strcmp t s.
Proof.
  revert t. induction s as [|a s IH]; intros [|b t]; simpl; try done.
  destruct (Z.ltb_spec a b), (Z.ltb_spec b a); try lia. apply IH.
Qed.

Lemma strcmp_range s t : strcmp s t = -1 \/ strcmp s t = 0 \/ strcmp s t = 1.
Proof.
  revert t. induction s as [|a s IH]; intros [|b t]; simpl; auto.
  destruct (a <? b); auto. destruct (b <? a); auto.
Qed.

Lemma strcmp_lt_trans s t u : strcmp s t < 0 -> strcmp t u < 0 -> strcmp s u < 0.
Proof.
  revert t u. induction s as [|a s IH]; intros [|b t] [|c u]; simpl; try lia.
  destruct (Z.ltb_spec a b), (Z.ltb_spec b c), (Z.ltb_spec a c),
    (Z.ltb_spec b a), (Z.ltb_spec c b), (Z.ltb_spec c a); try lia. apply IH.
Qed.

Lemma is_prefix_spec p s : is_prefix p s = true <-> exists r, s = p ++ r.
Proof.
  revert s. induction p as [|a p IH]; intros s; simpl.
  - split; [by exists s|done].
  - destruct s as [|b s]; [split; [done|intros [? ?]; done]|].
    rewrite andb_true_iff, Z.eqb_eq, IH. split.
    + intros [-> [r ->]]. by exists r.
    + intros [r [= -> ->]]. split; [done|by exists r].
Qed.

Lemma strstr_spec h needle :
  match strstr h needle with
  | Some r => exists pre post, h = pre ++ needle ++ post /\ r = needle ++ post /\
      forall pre' post', h = pre' ++ needle ++ post' -> (length pre <= length pre')%nat
  | None => forall pre post, h <> pre ++ needle ++ post
  end.
Proof.
  induction h as [|b h IH]; simpl.
  - destruct (is_prefix needle []) eqn:Hp.
    + apply is_prefix_spec in Hp as [r Hr]. destruct needle; [|done]. simpl in Hr. subst.
      exists [], []. split_and!; try done. intros. simpl. lia.
    + intros [|? ?] post Heq; [|done]. assert (is_prefix needle [] = true); [|congruence].
      apply is_prefix_spec. by exists post.
  - destruct (is_prefix needle (b :: h)) eqn:Hp.
    + apply is_prefix_spec in Hp as [r Hr]. exists [], r. rewrite Hr.
      split_and!; try done. intros. simpl. lia.
    + assert (Hn : forall post, b :: h <> needle ++ post).
      { intros post Heq. assert (is_prefix needle (b :: h) = true); [|congruence].
        apply is_prefix_spec. by exists post. }
      destruct (strstr h needle) as [r|].
      * destruct IH as (pre & post & -> & -> & Hmin). exists (b :: pre), post.
        split_and!; try done. intros [|c pre'] post' Heq; [by apply Hn in Heq|].
        injection Heq as -> Heq. apply Hmin in Heq. simpl. lia.
      * intros [|c pre] post Heq; [by apply Hn in Heq|].
        injection Heq as -> Heq. by apply IH in Heq.
Qed.

(** [udec] with enough fuel writes the decimal digits of a number. *)
Lemma digits_val_app a b :
  digits_val (a ++ b) = fold_left (fun acc d => acc * 10 + (d - 48)) b (digits_val a).
Proof. unfold digits_val. by rewrite fold_left_app. Qed.

Lemma udec_ok fuel v :
  0 <= v < 10 ^ Z.of_nat fuel -> (0 < fuel)%nat ->
  digits_val (udec fuel v) = v /\ Forall (fun d => 48 <= d <= 57) (udec fuel v) /\
  udec fuel v <> [].
Proof.
  revert v. induction fuel as [|fuel IH]; intros v Hv Hf; [lia|].
  cbn [udec]. destruct (Z.ltb_spec v 10) as [Hlt|Hge].
  - split_and!; [unfold digits_val; simpl; lia| |done]. repeat constructor; lia.
  - assert (Hpow : 10 ^ Z.of_nat (S fuel) = 10 * 10 ^ Z.of_nat fuel).
    { rewrite Nat2Z.inj_succ, Z.pow_succ_r by lia. done. }
    assert (0 < fuel)%nat by (destruct fuel; [simpl in *; lia|lia]).
    destruct (IH (v / 10)) as (H1 & H2 & H3); [|lia|].
    { split; [apply Z.div_pos; lia|]. apply Z.div_lt_upper_bound; lia. }
    pose proof (Z.div_mod v 10). pose proof (Z.mod_pos_bound v 10).
    split_and!.
    + rewrite digits_val_app, H1. simpl. lia.
    + apply Forall_app. split; [done|]. repeat constructor; lia.
    + by destruct (udec fuel (v / 10)).
Qed.

Lemma dec_fuel_enough v : 0 <= v -> v < 10 ^ Z.of_nat (dec_fuel v).
Proof.
  intros Hv. unfold dec_fuel. destruct (decide (v = 0)) as [->|Hn]; [simpl; lia|].
  pose proof (Z.log2_spec v ltac:(lia)) as [_ Hl].
  pose proof (Z.log2_nonneg v).
  rewrite Nat2Z.inj_succ, Z2Nat.id by done.
  eapply Z.lt_le_trans; [exact Hl|]. apply Z.pow_le_mono_l. lia.
Qed.

Lemma print_dec_ok v :
  0 <= v ->
  digits_val (print_dec v) = v /\ Forall (fun d => 48 <= d <= 57) (print_dec v) /\
  print_dec v <> [].
Proof.
  intros Hv. unfold print_dec. destruct (Z.ltb_spec v 0); [lia|].
  apply udec_ok; [split; [done|by apply dec_fuel_enough]|]. unfold dec_fuel. lia.
Qed.

Lemma isdigit_true d : 48 <= d <= 57 -> isdigit d = true.
Proof. intros. unfold isdigit. apply andb_true_iff. split; apply Z.leb_le; lia. Qed.

Lemma isspace_digit d : 48 <= d <= 57 -> isspace d = false.
Proof.
  intros. unfold isspace. apply orb_false_iff. split; [apply Z.eqb_neq; lia|].
  apply andb_false_iff. right. apply Z.leb_gt. lia.
Qed.

(** Digits followed by something that is not a digit are read back. *)
Lemma take_digits_app ds rest :
  Forall (fun d => 48 <= d <= 57) ds -> isdigit (at0 rest) = false ->
  take_digits (ds ++ rest) = ds.
Proof.
  intros Hd Hr. induction Hd as [|d ds Hd _ IH]; simpl.
  - destruct rest as [|b rest]; simpl in *; [done|]. by rewrite Hr.
  - rewrite isdigit_true by lia. by rewrite IH.
Qed.

Lemma scan_number_digits ds rest :
  Forall (fun d => 48 <= d <= 57) ds -> ds <> [] -> isdigit (at0 rest) = false ->
  scan_number (ds ++ rest) = (false, digits_val ds).
Proof.
  intros Hd Hne Hr. unfold scan_number.
  pose proof (take_digits_app ds rest Hd Hr) as Ht.
  destruct ds as [|d ds]; [done|].
  assert (Hd0 : 48 <= d <= 57) by (inversion Hd; auto).
  assert (Hs : skip_space ((d :: ds) ++ rest) = (d :: ds) ++ rest).
  { simpl. by rewrite isspace_digit. }
  rewrite Hs. rewrite <- app_comm_cons in *. revert Ht.
  destruct d as [|p|p]; try lia.
  do 6 (destruct p as [p|p|]; try lia); by intros ->.
Qed.

Lemma scan_number_spaces k s : scan_number (replicate k 32 ++ s) = scan_number s.
Proof. unfold scan_number. by induction k. Qed.

(** Reading a printed number back, whatever non-digit follows. *)
Lemma atoi_print v rest :
  0 <= v < 2 ^ 31 -> isdigit (at0 rest) = false -> atoi (print_dec v ++ rest) = v.
Proof.
  intros Hv Hr. destruct (print_dec_ok v) as (H1 & H2 & H3); [lia|].
  unfold atoi, strtol. rewrite scan_number_digits, H1 by done.
  rewrite Z.min_l by lia. by apply wraps_small; lia.
Qed.

Lemma strspn_app s rest accept :
  Forall (fun b => accept b = true) s -> (rest = [] \/ accept (at0 rest) = false) ->
  strspn (s ++ rest) accept = length s.
Proof.
  intros Hs Hr. induction Hs as [|b s Hb _ IH]; simpl.
  - destruct rest as [|b rest]; [done|]. destruct Hr as [|Hr]; [done|]. simpl in *. by rewrite Hr.
  - by rewrite Hb, IH.
Qed.

(** The number of digits printed. *)
Lemma udec_length fuel v :
  0 <= v < 10 ^ Z.of_nat fuel -> (0 < fuel)%nat ->
  v < 10 ^ strlen (udec fuel v) /\
  (strlen (udec fuel v) = 1 \/ 10 ^ (strlen (udec fuel v) - 1) <= v).
Proof.
  revert v. induction fuel as [|fuel IH]; intros v Hv Hf; [lia|].
  cbn [udec]. destruct (Z.ltb_spec v 10) as [Hlt|Hge].
  - unfold strlen. simpl. split; [lia|by left].
  - assert (Hpow : 10 ^ Z.of_nat (S fuel) = 10 * 10 ^ Z.of_nat fuel).
    { rewrite Nat2Z.inj_succ, Z.pow_succ_r by lia. done. }
    assert (0 < fuel)%nat by (destruct fuel; [simpl in *; lia|lia]).
    assert (Hdiv : 0 <= v / 10 < 10 ^ Z.of_nat fuel).
    { split; [apply Z.div_pos; lia|]. apply Z.div_lt_upper_bound; lia. }
    destruct (IH (v / 10)) as [H1 H2]; [done|lia|].
    destruct (udec_ok fuel (v / 10)) as (_ & _ & H3); [done|lia|].
    assert (Hn : 0 < strlen (udec fuel (v / 10))).
    { unfold strlen. destruct (udec fuel (v / 10)); [done|simpl; lia]. }
    assert (E : strlen (udec fuel (v / 10) ++ [48 + v mod 10])
                = Z.succ (strlen (udec fuel (v / 10)))).
    { unfold strlen. rewrite length_app. simpl. lia. }
    rewrite E, Z.pow_succ_r by lia.
    pose proof (Z.div_mod v 10 ltac:(lia)). pose proof (Z.mod_pos_bound v 10 ltac:(lia)).
    split; [lia|right]. replace (Z.succ _ - 1) with (strlen (udec fuel (v / 10))) by lia.
    destruct H2 as [H2|H2]; [rewrite H2; lia|].
    replace (strlen (udec fuel (v / 10))) with (Z.succ (strlen (udec fuel (v / 10)) - 1)) by lia.
    rewrite Z.pow_succ_r by lia. lia.
Qed.

Lemma print_dec_length v :
  0 <= v -> v < 10 ^ strlen (print_dec v) /\
  (strlen (print_dec v) = 1 \/ 10 ^ (strlen (print_dec v) - 1) <= v).
Proof.
  intros Hv. unfold print_dec. destruct (Z.ltb_spec v 0); [lia|].
  apply udec_length; [split; [done|by apply dec_fuel_enough]|unfold dec_fuel; lia].
Qed.

Lemma print_dec_length_lt v k : 0 <= v < 10 ^ k -> 1 <= k -> strlen (print_dec v) <= k.
Proof.
  intros Hv Hk. destruct (print_dec_length v) as [_ [->|H]]; [lia|done|].
  destruct (decide (strlen (print_dec v) <= k)) as [|Hn]; [done|].
  assert (10 ^ k <= 10 ^ (strlen (print_dec v) - 1)) by (apply Z.pow_le_mono_r; lia). lia.
Qed.

Lemma print_dec_length_mono a b : 0 <= a <= b -> strlen (print_dec a) <= strlen (print_dec b).
Proof.
  intros Hab. destruct (print_dec_length b) as [Hb _]; [lia|].
  apply print_dec_length_lt; [lia|].
  destruct (print_dec_ok b) as (_ & _ & H); [lia|].
  unfold strlen. destruct (print_dec b); [done|simpl; lia].
Qed.

Lemma strlen_app s t : strlen (s ++ t) = strlen s + strlen t.
Proof. unfold strlen. rewrite length_app. lia. Qed.

Lemma strlen_cons b s : strlen (b :: s) = 1 + strlen s.
Proof. unfold strlen. simpl. lia. Qed.

Lemma strlen_nonneg s : 0 <= strlen s.
Proof. unfold strlen. lia. Qed.

Lemma strlen_nil : strlen [] = 0.
Proof. done. Qed.

Lemma strlen_replicate n b : strlen (replicate n b) = Z.of_nat n.
Proof. unfold strlen. by rewrite length_replicate. Qed.

Lemma strlen_nonempty s : s <> [] -> 0 < strlen s.
Proof. unfold strlen. destruct s; [done|simpl; lia]. Qed.

Lemma take_strlen s t : take (Z.to_nat (strlen s)) (s ++ t) = s.
Proof. unfold strlen. by rewrite Nat2Z.id, take_app_length. Qed.

Lemma take_strlen_self s : take (Z.to_nat (strlen s)) s = s.
Proof. by rewrite <- (app_nil_r s) at 2; rewrite take_strlen. Qed.

Lemma drop_strlen s t : drop (Z.to_nat (strlen s)) (s ++ t) = t.
Proof. unfold strlen. by rewrite Nat2Z.id, drop_app_length. Qed.

Create Rewrite HintDb strlen.
#[export] Hint Rewrite strlen_app strlen_cons strlen_nil strlen_replicate : strlen.

(** ** [strtol] and [strtoul] with base 0: hexadecimal, octal or decimal *)

Definition digit_value (b : Z) : Z :=
  if isdigit b then b - 48
  else if (97 <=? tolower b) && (tolower b <=? 122) then tolower b - 87 else 99.

Fixpoint base_value (base : Z) (s : bytes) (acc : Z) : Z :=
  match s with
  | b :: s => if digit_value b <? base then base_value base s (acc * base + digit_value b) else acc
  | [] => acc
  end.

Definition unsigned_base0 (s : bytes) : Z :=
  match s with
  | 48 :: x :: b :: _ =>
      if (tolower x =? 120) && (digit_value b <? 16) then base_value 16 (drop 2 s) 0
      else base_value 8 s 0
  | 48 :: _ => base_value 8 s 0
  | _ => base_value 10 s 0
  end.

Definition scan_base0 (s : bytes) : bool * Z :=
  match skip_space s with
  | 45 :: s' => (true, unsigned_base0 s')
  | 43 :: s' => (false, unsigned_base0 s')
  | s' => (false, unsigned_base0 s')
  end.

Definition strtol0 (s : bytes) : Z :=
  let '(neg, v) := scan_base0 s in
  if neg then Z.max (- v) (- 2 ^ 63) else Z.min v (2 ^ 63 - 1).
Definition strtoul0 (s : bytes) : Z :=
  let '(neg, v) := scan_base0 s in
  if 2 ^ 64 <=? v then 2 ^ 64 - 1 else if neg then u64 (- v) else v.

(** Scanning for a set of characters that first occurs behind [s]. *)
Lemma strpbrk_app s c rest accept :
  Forall (fun b => existsb (Z.eqb b) accept = false) s -> existsb (Z.eqb c) accept = true ->
  strpbrk (s ++ c :: rest) accept = Some (c :: rest).
Proof. induction 1 as [|b s Hb _ IH]; intros Hc; simpl; [by rewrite Hc|]. rewrite Hb. auto. Qed.

Lemma cut_app s rest : cut (s ++ rest) rest = s.
Proof. unfold cut. rewrite length_app, Nat.add_sub. apply take_app_length. Qed.

Lemma digit_value_nonneg b : 0 <= digit_value b.
Proof.
  unfold digit_value, isdigit. destruct (_ && _) eqn:E1.
  - apply andb_true_iff in E1 as [E _]. apply Z.leb_le in E. lia.
  - destruct ((97 <=? tolower b) && _) eqn:E2; [|lia].
    apply andb_true_iff in E2 as [E _]. apply Z.leb_le in E. lia.
Qed.

Lemma base_value_nonneg base s acc : 0 <= base -> 0 <= acc -> 0 <= base_value base s acc.
Proof.
  intros Hb. revert acc. induction s as [|b s IH]; intros acc Ha; [done|]. simpl.
  destruct (digit_value b <? base); [|done]. apply IH. pose proof (digit_value_nonneg b). nia.
Qed.

Lemma unsigned_base0_nonneg s : 0 <= unsigned_base0 s.
Proof.
  assert (H10 : 0 <= base_value 10 s 0) by (by apply base_value_nonneg).
  assert (H8 : 0 <= base_value 8 s 0) by (by apply base_value_nonneg).
  assert (H16 : 0 <= base_value 16 (drop 2 s) 0) by (by apply base_value_nonneg).
  unfold unsigned_base0. repeat case_match; done.
Qed.

Lemma scan_base0_nonneg s neg v : scan_base0 s = (neg, v) -> 0 <= v.
Proof.
  intros E. assert (H : 0 <= (scan_base0 s).2); [|by rewrite E in H].
  clear E. unfold scan_base0. repeat case_match; cbn [snd]; apply unsigned_base0_nonneg.
Qed.

(** ** Scanning through a prefix *)

Lemma strspn_through f (s t : bytes) : Forall (fun c => f c = true) s -> strspn (s ++ t) f = (length s + strspn t f)%nat.
Proof. induction 1 as [|c s Hc _ IH]; [done|]. cbn. by rewrite Hc, IH. Qed.
Lemma strspn_stop f (s t : bytes) c : Forall (fun c => f c = true) s -> f c = false -> strspn (s ++ c :: t) f = length s.
Proof. intros Hs Hc. rewrite strspn_through by done. cbn. rewrite Hc. lia. Qed.

Lemma until_nul_app (s t : bytes) : Forall (fun c => c <> 0) s -> until_nul (s ++ t) = s ++ until_nul t.
Proof. induction 1 as [|c s Hc _ IH]; [done|]. cbn. rewrite (proj2 (Z.eqb_neq c 0)) by done. by rewrite IH. Qed.
Lemma until_nul_end (s t : bytes) : Forall (fun c => c <> 0) s -> until_nul (s ++ 0 :: t) = s.
Proof. intros. rewrite until_nul_app by done. cbn. apply app_nil_r. Qed.

Lemma strncmp_prefix (s t : bytes) : strncmp (s ++ t) s (strlen s) = 0.
Proof.
  unfold strncmp, strlen. rewrite Nat2Z.id, take_app_length, firstn_all. apply strcmp_refl.
Qed.
