(* ===== verification/AvlTree.v ===== *)
(** * AVL trees (avltree.c)

    The tree is the inductive type [tree]; a node keeps its item and its
    [balance] field.  The arrays [stack] and [pathInfo] that the C code fills on
    the way down are a [path]: a list of frames, deepest node first, each with
    the direction taken ([pathInfo]), the node's item and balance and its other
    subtree.  The loop over [stack] on the way up is a recursion over the path;
    what the code leaves untouched when it breaks out is [plug]ged back.
    A dereference of a null pointer is [None].  The comparison callback is a
    section variable with the laws of the [Comparator] class. *)

From S2P Require Import Prelude.

Inductive tree (A : Type) : Type :=
| Leaf : tree A
| Node : tree A -> A -> Z -> tree A -> tree A.
Arguments Leaf {A}.
Arguments Node {A} left item balance right.

Inductive dir := DLeft | DRight.

Definition pathInfo (d : dir) : Z := match d with DLeft => -1 | DRight => 1 end.

Record frame (A : Type) := Frame {
  fr_dir : dir;
  fr_item : A;
  fr_bal : Z;
  fr_other : tree A
}.
Arguments Frame {A} fr_dir fr_item fr_bal fr_other.
Arguments fr_dir {A} _.
Arguments fr_item {A} _.
Arguments fr_bal {A} _.
Arguments fr_other {A} _.

Record AvlTree (A : Type) := MkAvl { root : tree A; n : Z }.
Arguments MkAvl {A} root n.
Arguments root {A} _.
Arguments n {A} _.

Definition AVL_STACK_SIZE : Z := 1000.

(** The C type of [compar]: negative, zero or positive. *)
Class Comparator {A : Type} (compar : A -> A -> Z) := {
  cmp_refl : forall a, compar a a = 0;
  cmp_anti : forall a b, compar a b < 0 <-> 0 < compar b a;
  cmp_trans : forall a b c, compar a b < 0 -> compar b c < 0 -> compar a c < 0;
  cmp_eq_l : forall a b c, compar a b = 0 -> compar b c < 0 -> compar a c < 0;
  cmp_eq_r : forall a b c, compar a b = 0 -> compar c b < 0 -> compar c a < 0
}.

Section Avl.
Context {A : Type} (compar : A -> A -> Z).

Definition newAvlTree : AvlTree A := MkAvl Leaf 0.

(** ** Putting the tree back together *)

Definition attach (fr : frame A) (bal : Z) (t : tree A) : tree A :=
  match fr_dir fr with
  | DLeft => Node t (fr_item fr) bal (fr_other fr)
  | DRight => Node (fr_other fr) (fr_item fr) bal t
  end.

Fixpoint plug (path : list (frame A)) (t : tree A) : tree A :=
  match path with
  | [] => t
  | fr :: path' => plug path' (attach fr (fr_bal fr) t)
  end.

(** ** Looking up *)

Fixpoint findAvl (t : tree A) (item : A) : option A :=
  match t with
  | Leaf => None
  | Node l x _ r =>
      let cmpres := compar item x in
      if cmpres <? 0 then findAvl l item
      else if 0 <? cmpres then findAvl r item
      else Some x
  end.

Fixpoint findMinAvl (t : tree A) : option A :=
  match t with
  | Leaf => None
  | Node Leaf x _ _ => Some x
  | Node l _ _ _ => findMinAvl l
  end.

(** ** Insertion *)

(** The descent: the existing item, or the path to the free slot. *)
Fixpoint insertDescend (t : tree A) (item : A) (path : list (frame A))
  : A + list (frame A) :=
  match t with
  | Leaf => inr path
  | Node l x b r =>
      let cmpres := compar item x in
      if cmpres <? 0 then insertDescend l item (Frame DLeft x b r :: path)
      else if 0 <? cmpres then insertDescend r item (Frame DRight x b l :: path)
      else inl x
  end.

(** The balances a double rotation gives to [p] and [q]: [hi] is the node whose
    subtree lies on the left of [r] afterwards. *)
Definition doubleBalances (rb : Z) : Z * Z :=
  if rb =? 1 then (-1, 0) else if rb =? -1 then (0, 1) else (0, 0).

(** [p] (the frame) is out of balance on the side [fr_dir fr]; [q] is its child
    there and [below] the direction taken at [q]. *)
Definition rotateInsert (fr : frame A) (below : dir) (q : tree A)
  : option (tree A) :=
  match fr_dir fr, below, q with
  | DRight, DRight, Node ql qi _ qr =>
      Some (Node (Node (fr_other fr) (fr_item fr) 0 ql) qi 0 qr)
  | DLeft, DLeft, Node ql qi _ qr =>
      Some (Node ql qi 0 (Node qr (fr_item fr) 0 (fr_other fr)))
  | DRight, DLeft, Node (Node rl ri rb rr) qi _ qr =>
      let '(pb, qb) := doubleBalances rb in
      Some (Node (Node (fr_other fr) (fr_item fr) pb rl) ri 0 (Node rr qi qb qr))
  | DLeft, DRight, Node ql qi _ (Node rl ri rb rr) =>
      let '(qb, pb) := doubleBalances rb in
      Some (Node (Node ql qi qb rl) ri 0 (Node rr (fr_item fr) pb (fr_other fr)))
  | _, _, _ => None
  end.

(** The loop [while (tos)] of [insertAvl]: [t] is the subtree the code has
    reached, [below] the direction taken one level down ([None] at the new
    node). *)
Fixpoint insertRetrace (path : list (frame A)) (t : tree A) (below : option dir)
  : option (tree A) :=
  match path with
  | [] => Some t
  | fr :: path' =>
      let b' := s8 (fr_bal fr + pathInfo (fr_dir fr)) in
      if fr_bal fr =? 0 then insertRetrace path' (attach fr b' t) (Some (fr_dir fr))
      else if b' =? 0 then Some (plug path' (attach fr b' t))
      else
        match below with
        | None => None
        | Some d => t' ← rotateInsert fr d t; Some (plug path' t')
        end
  end.

(** [res] is the existing item, or null when the item was added. *)
Definition insertAvl (this : AvlTree A) (item : A)
  : option (option A * AvlTree A) :=
  match insertDescend (root this) item [] with
  | inl x => Some (Some x, this)
  | inr path =>
      t' ← insertRetrace path (Node Leaf item 0 Leaf) None;
      Some (None, MkAvl t' (s32 (n this + 1)))
  end.

(** ** Deletion *)

Fixpoint deleteDescend (t : tree A) (item : A) (path : list (frame A))
  : option (tree A * A * Z * tree A * list (frame A)) :=
  match t with
  | Leaf => None
  | Node l x b r =>
      let cmpres := compar item x in
      if cmpres <? 0 then deleteDescend l item (Frame DLeft x b r :: path)
      else if 0 <? cmpres then deleteDescend r item (Frame DRight x b l :: path)
      else Some (l, x, b, r, path)
  end.

(** Down the left spine: the frames above the leftmost node [m], its item, its
    balance and its right subtree. *)
Fixpoint minDescend (l : tree A) (x : A) (b : Z) (r : tree A)
    (chain : list (frame A)) : A * Z * tree A * list (frame A) :=
  match l with
  | Leaf => (x, b, r, chain)
  | Node ll lx lb lr => minDescend ll lx lb lr (Frame DLeft x b r :: chain)
  end.

(** [p] lost height on the side [fr_dir fr], its child there is [t]; [q] is its
    other child and [pb] its new balance (2 or -2).  The boolean tells whether
    the loop stops. *)
Definition rotateDelete (fr : frame A) (pb : Z) (t : tree A)
  : option (tree A * bool) :=
  match fr_other fr with
  | Leaf => None
  | Node ql qi qb qr =>
      if negb (pathInfo (fr_dir fr) =? qb) then
        let '(pb', qb', stop) :=
          if qb =? 0
          then let p' := if 0 <? pb then 1 else -1 in (p', - p', true)
          else (0, 0, false) in
        match fr_dir fr with
        | DLeft => Some (Node (Node t (fr_item fr) pb' ql) qi qb' qr, stop)
        | DRight => Some (Node ql qi qb' (Node qr (fr_item fr) pb' t), stop)
        end
      else
        match fr_dir fr with
        | DLeft =>
            match ql with
            | Leaf => None
            | Node rl ri rb rr =>
                let '(pb', qb') := doubleBalances rb in
                Some (Node (Node t (fr_item fr) pb' rl) ri 0 (Node rr qi qb' qr),
                      false)
            end
        | DRight =>
            match qr with
            | Leaf => None
            | Node rl ri rb rr =>
                let '(qb', pb') := doubleBalances rb in
                Some (Node (Node ql qi qb' rl) ri 0 (Node rr (fr_item fr) pb' t),
                      false)
            end
        end
  end.

Fixpoint deleteRetrace (path : list (frame A)) (t : tree A) : option (tree A) :=
  match path with
  | [] => Some t
  | fr :: path' =>
      let b' := s8 (fr_bal fr - pathInfo (fr_dir fr)) in
      if fr_bal fr =? 0 then Some (plug path' (attach fr b' t))
      else if b' =? 0 then deleteRetrace path' (attach fr b' t)
      else
        res ← rotateDelete fr b' t;
        let '(t', stop) := res in
        if (stop : bool) then Some (plug path' t') else deleteRetrace path' t'
  end.

(** Unlinking the node found: the path to retrace and the subtree at its end.
    With two children the leftmost node [m] of the right subtree takes the
    place and the balance of [p]. *)
Definition deleteUnlink (l : tree A) (b : Z) (r : tree A) (path : list (frame A))
  : list (frame A) * tree A :=
  match l, r with
  | Leaf, _ => (path, r)
  | _, Leaf => (path, l)
  | _, Node rl rx rb rr =>
      let '(m, _, mr, chain) := minDescend rl rx rb rr [] in
      (chain ++ Frame DRight m b l :: path, mr)
  end.

Definition deleteAvl (this : AvlTree A) (item : A)
  : option (option A * AvlTree A) :=
  match deleteDescend (root this) item [] with
  | None => Some (None, this)
  | Some (l, x, b, r, path) =>
      let '(path', hole) := deleteUnlink l b r path in
      t' ← deleteRetrace path' hole;
      Some (Some x, MkAvl t' (s32 (n this - 1)))
  end.

(** [deleteMinAvl] has its own copy of the loop, specialised to the left spine. *)
Definition rotateDeleteMin (fr : frame A) (t : tree A) : option (tree A * bool) :=
  match fr_other fr with
  | Leaf => None
  | Node ql qi qb qr =>
      if negb (qb =? -1) then
        let '(pb', qb', stop) :=
          if qb =? 0 then (1, -1, true) else (0, 0, false) in
        Some (Node (Node t (fr_item fr) pb' ql) qi qb' qr, stop)
      else
        match ql with
        | Leaf => None
        | Node rl ri rb rr =>
            let '(pb', qb') := doubleBalances rb in
            Some (Node (Node t (fr_item fr) pb' rl) ri 0 (Node rr qi qb' qr), false)
        end
  end.

Fixpoint deleteMinRetrace (path : list (frame A)) (t : tree A) : option (tree A) :=
  match path with
  | [] => Some t
  | fr :: path' =>
      let b' := s8 (fr_bal fr + 1) in
      if fr_bal fr =? 0 then Some (plug path' (attach fr b' t))
      else if b' =? 0 then deleteMinRetrace path' (attach fr b' t)
      else
        res ← rotateDeleteMin fr t;
        let '(t', stop) := res in
        if (stop : bool) then Some (plug path' t') else deleteMinRetrace path' t'
  end.

Definition deleteMinAvl (this : AvlTree A) : option (option A * AvlTree A) :=
  match root this with
  | Leaf => Some (None, this)
  | Node l x b r =>
      let '(m, _, mr, chain) := minDescend l x b r [] in
      t' ← deleteMinRetrace chain mr;
      Some (Some m, MkAvl t' (s32 (n this - 1)))
  end.

(** ** Freeing: the explicit stack of [freeAvl], and the items in the order in
    which their nodes are freed. *)
Fixpoint freeLoop (fuel : nat) (stack : list (tree A)) (freed : list A) : option (list A) :=
  match stack with
  | [] => Some freed
  | p :: rest =>
      match fuel with
      | O => None
      | S fuel =>
          match p with
          | Leaf => None
          | Node l x _ r =>
              let push t s := match t with Leaf => s | Node _ _ _ _ => t :: s end in
              freeLoop fuel (push r (push l rest)) (freed ++ [x])
          end
      end
  end.

Fixpoint size (t : tree A) : nat :=
  match t with Leaf => O | Node l _ _ r => S (size l + size r) end.

Definition freeAvl (this : AvlTree A) : option (list A) :=
  match root this with
  | Leaf => Some []
  | t => freeLoop (size t) [t] []
  end.

End Avl.

(** ** Specification: a strictly sorted sequence of items *)

Section AvlSpec.
Context {A : Type} (compar : A -> A -> Z).

Definition before (a b : A) : Prop := compar a b < 0.

Fixpoint elements (t : tree A) : list A :=
  match t with
  | Leaf => []
  | Node l x _ r => elements l ++ x :: elements r
  end.

Fixpoint specFind (item : A) (l : list A) : option A :=
  match l with
  | [] => None
  | y :: l' => if compar item y =? 0 then Some y else specFind item l'
  end.

Fixpoint specInsert (item : A) (l : list A) : list A :=
  match l with
  | [] => [item]
  | y :: l' =>
      if compar item y <? 0 then item :: y :: l'
      else if compar item y =? 0 then y :: l'
      else y :: specInsert item l'
  end.

Fixpoint specDelete (item : A) (l : list A) : list A :=
  match l with
  | [] => []
  | y :: l' => if compar item y =? 0 then l' else y :: specDelete item l'
  end.

Fixpoint height (t : tree A) : nat :=
  match t with
  | Leaf => O
  | Node l _ _ r => S (Nat.max (height l) (height r))
  end.

(** The AVL condition, with the balance field telling the truth. *)
Fixpoint avl (t : tree A) : Prop :=
  match t with
  | Leaf => True
  | Node l _ b r =>
      avl l /\ avl r /\ b = Z.of_nat (height r) - Z.of_nat (height l) /\ -1 <= b <= 1
  end.

Definition wf (this : AvlTree A) : Prop :=
  StronglySorted before (elements (root this)) /\ avl (root this) /\
  n this = Z.of_nat (size (root this)) /\ n this < 2 ^ 31.

(** Elements to the left and to the right of the hole of a path. *)
Fixpoint lctx (path : list (frame A)) : list A :=
  match path with
  | [] => []
  | fr :: p =>
      lctx p ++ match fr_dir fr with
                | DLeft => []
                | DRight => elements (fr_other fr) ++ [fr_item fr]
                end
  end.

Fixpoint rctx (path : list (frame A)) : list A :=
  match path with
  | [] => []
  | fr :: p =>
      match fr_dir fr with
      | DLeft => fr_item fr :: elements (fr_other fr)
      | DRight => []
      end ++ rctx p
  end.

(** A frame is balanced around a hole of height [h]. *)
Definition frame_ok (fr : frame A) (h : nat) : Prop :=
  avl (fr_other fr) /\ -1 <= fr_bal fr <= 1 /\
  fr_bal fr = pathInfo (fr_dir fr) * (Z.of_nat h - Z.of_nat (height (fr_other fr))).

Fixpoint ctx_ok (path : list (frame A)) (h : nat) : Prop :=
  match path with
  | [] => True
  | fr :: p => frame_ok fr h /\ ctx_ok p (S (Nat.max h (height (fr_other fr))))
  end.

Definition root_balance (t : tree A) : Z :=
  match t with Leaf => 0 | Node _ _ b _ => b end.

(** ** Structure lemmas *)

Lemma elements_attach fr b t :
  elements (attach fr b t) =
    match fr_dir fr with
    | DLeft => elements t ++ fr_item fr :: elements (fr_other fr)
    | DRight => elements (fr_other fr) ++ fr_item fr :: elements t
    end.
Proof. unfold attach. by destruct (fr_dir fr). Qed.

Lemma elements_plug path t :
  elements (plug path t) = lctx path ++ elements t ++ rctx path.
Proof.
  revert t. induction path as [|fr path IH]; intros t; simpl.
  - by rewrite app_nil_r.
  - rewrite IH, elements_attach. destruct (fr_dir fr); simpl; list_simplifier; done.
Qed.

Lemma size_elements t : size t = length (elements t).
Proof. induction t; simpl; [done|]. rewrite length_app. simpl. lia. Qed.

Lemma height_attach fr b t :
  height (attach fr b t) = S (Nat.max (height t) (height (fr_other fr))).
Proof. unfold attach. destruct (fr_dir fr); simpl; lia. Qed.

Lemma avl_attach fr b t :
  avl (fr_other fr) -> avl t -> -1 <= b <= 1 ->
  b = pathInfo (fr_dir fr) * (Z.of_nat (height t) - Z.of_nat (height (fr_other fr))) ->
  avl (attach fr b t).
Proof. unfold attach. destruct (fr_dir fr); simpl; intros; repeat split; auto; lia. Qed.

Lemma avl_plug path t : avl t -> ctx_ok path (height t) -> avl (plug path t).
Proof.
  revert t. induction path as [|fr path IH]; intros t Ht; simpl; [done|].
  intros [(Ho & Hb & He) Hp]. apply IH.
  - by apply avl_attach.
  - by rewrite height_attach.
Qed.

Lemma avl_plug_inv path t : avl (plug path t) -> avl t /\ ctx_ok path (height t).
Proof.
  revert t. induction path as [|fr path IH]; intros t; simpl; [done|].
  intros [H1 H2]%IH. rewrite height_attach in H2.
  unfold attach, frame_ok in *.
  destruct (fr_dir fr); simpl in *; destruct_and!; repeat split; auto; lia.
Qed.

Lemma height_plug path t : (length path + height t <= height (plug path t))%nat.
Proof.
  revert t. induction path as [|fr path IH]; intros t; simpl; [lia|].
  specialize (IH (attach fr (fr_bal fr) t)). rewrite height_attach in IH. lia.
Qed.

(** An AVL tree of height [h] has at least [2 ^ (h / 2) - 1] nodes. *)
Lemma avl_size t : avl t -> (2 ^ (height t / 2) <= S (size t))%nat.
Proof.
  assert (Hind : forall h t, (height t <= h)%nat -> avl t ->
                 (2 ^ (height t / 2) <= S (size t))%nat).
  { intros h. induction h as [|h IH]; intros t' Hh Ht.
    - destruct t'; simpl in *; lia.
    - destruct t' as [|l x b r]; [simpl; lia|].
      cbn [height avl size] in *. destruct Ht as (Hl & Hr & Hb & Hb').
      pose proof (IH l ltac:(lia) Hl) as IHl. pose proof (IH r ltac:(lia) Hr) as IHr.
      set (m := Nat.max (height l) (height r)) in *.
      destruct (decide (m = 0)%nat) as [->|Hm0]; [simpl; lia|].
      assert (Hd : (S m / 2 = S ((m - 1) / 2))%nat).
      { replace (S m) with (1 * 2 + (m - 1))%nat by lia.
        rewrite Nat.div_add_l by lia. lia. }
      rewrite Hd. rewrite Nat.pow_succ_r'.
      assert ((2 ^ ((m - 1) / 2) <= 2 ^ (height l / 2))%nat).
      { apply Nat.pow_le_mono_r; [lia|]. apply Nat.Div0.div_le_mono. lia. }
      assert ((2 ^ ((m - 1) / 2) <= 2 ^ (height r / 2))%nat).
      { apply Nat.pow_le_mono_r; [lia|]. apply Nat.Div0.div_le_mono. lia. }
      lia. }
  eauto.
Qed.

Lemma avl_height_bound t :
  avl t -> Z.of_nat (size t) < 2 ^ 31 -> (height t <= 63)%nat.
Proof.
  intros Ht Hs. pose proof (avl_size t Ht) as H.
  destruct (decide (height t <= 63)%nat) as [|Hn]; [done|exfalso].
  assert (H32 : (2 ^ 32 <= 2 ^ (height t / 2))%nat).
  { apply Nat.pow_le_mono_r; [lia|].
    pose proof (Nat.Div0.div_le_mono 64 (height t) 2 ltac:(lia)) as Hd. exact Hd. }
  apply Nat2Z.inj_le in H32. rewrite Nat2Z.inj_pow in H32.
  change (Z.of_nat 2 ^ Z.of_nat 32) with (2 ^ 32) in H32. lia.
Qed.

End AvlSpec.

Section AvlProofs.
Context {A : Type} (compar : A -> A -> Z) `{!Comparator compar}.
Implicit Types (t : tree A) (path : list (frame A)) (fr : frame A).

(** ** Comparison facts *)

#[local] Instance before_trans : Transitive (before compar).
Proof. intros a b c. apply cmp_trans. Qed.

Lemma cmp_gt a b : 0 < compar a b <-> before compar b a.
Proof. unfold before. symmetry. apply cmp_anti. Qed.

Lemma cmp_zero_gt a x y : compar a x = 0 -> before compar y x -> 0 < compar a y.
Proof. intros H0 Hy. apply cmp_gt. by eapply cmp_eq_r. Qed.

Lemma cmp_zero_lt a x y : compar a x = 0 -> before compar x y -> compar a y < 0.
Proof. intros H0 Hy. by eapply cmp_eq_l. Qed.

Lemma sorted_middle (l1 l2 : list A) x :
  StronglySorted (before compar) (l1 ++ x :: l2) ->
  Forall (fun y => before compar y x) l1 /\ Forall (before compar x) l2 /\
  StronglySorted (before compar) (l1 ++ l2).
Proof.
  induction l1 as [|y l1 IH]; simpl; intros Hs; inversion Hs as [|?? Hs' Hf]; subst.
  - auto.
  - destruct (IH Hs') as (H1 & H2 & H3).
    apply Forall_app in Hf as [Hf1 Hf2]. inversion Hf2; subst.
    repeat split; auto. constructor; auto. by apply Forall_app.
Qed.

Lemma sorted_insert (l1 l2 : list A) x :
  Forall (fun y => before compar y x) l1 -> Forall (before compar x) l2 ->
  StronglySorted (before compar) (l1 ++ l2) ->
  StronglySorted (before compar) (l1 ++ x :: l2).
Proof.
  induction l1 as [|y l1 IH]; simpl; intros H1 H2 Hs.
  - by constructor.
  - inversion H1; subst. inversion Hs as [|?? Hs' Hf]; subst.
    apply Forall_app in Hf as [Hf1 Hf2].
    constructor; auto. apply Forall_app. split; [done|]. by constructor.
Qed.

(** The specification functions around the place of an item. *)
Lemma specInsert_place item (l1 l2 : list A) :
  Forall (fun y => 0 < compar item y) l1 ->
  Forall (fun y => compar item y < 0) l2 ->
  specInsert compar item (l1 ++ l2) = l1 ++ item :: l2.
Proof.
  intros H1 H2. induction H1 as [|y l1' Hy _ IH]; simpl.
  - destruct H2 as [|z l2 Hz]; simpl; [done|]. destruct (Z.ltb_spec (compar item z) 0); [done|lia].
  - destruct (Z.ltb_spec (compar item y) 0); [lia|].
    destruct (Z.eqb_spec (compar item y) 0); [lia|]. by rewrite IH.
Qed.

Lemma specFind_none item (l1 l2 : list A) :
  Forall (fun y => 0 < compar item y) l1 ->
  Forall (fun y => compar item y < 0) l2 -> specFind compar item (l1 ++ l2) = None.
Proof.
  intros H1 H2. induction H1 as [|y l1' Hy _ IH]; simpl.
  - induction H2 as [|z l2 Hz H2 IH]; simpl; [done|].
    destruct (Z.eqb_spec (compar item z) 0); [lia|done].
  - destruct (Z.eqb_spec (compar item y) 0); [lia|done].
Qed.

Lemma specDelete_none item (l1 l2 : list A) :
  Forall (fun y => 0 < compar item y) l1 ->
  Forall (fun y => compar item y < 0) l2 ->
  specDelete compar item (l1 ++ l2) = l1 ++ l2.
Proof.
  intros H1 H2. induction H1 as [|y l1' Hy _ IH]; simpl.
  - induction H2 as [|z l2 Hz H2 IH]; simpl; [done|].
    destruct (Z.eqb_spec (compar item z) 0); [lia|]. by f_equal.
  - destruct (Z.eqb_spec (compar item y) 0); [lia|]. by f_equal.
Qed.

Lemma spec_found item (l1 l2 : list A) x :
  Forall (fun y => 0 < compar item y) l1 ->
  compar item x = 0 ->
  specFind compar item (l1 ++ x :: l2) = Some x /\
  specInsert compar item (l1 ++ x :: l2) = l1 ++ x :: l2 /\
  specDelete compar item (l1 ++ x :: l2) = l1 ++ l2.
Proof.
  intros H1 H0. induction H1 as [|y l1' Hy _ IH]; simpl.
  - rewrite H0. done.
  - destruct (Z.ltb_spec (compar item y) 0); [lia|].
    destruct (Z.eqb_spec (compar item y) 0); [lia|].
    destruct IH as (-> & -> & ->). done.
Qed.

(** ** The descent *)

(** Everything left of the hole is smaller than the item, everything right larger. *)
Definition bounds (item : A) path : Prop :=
  Forall (fun y => 0 < compar item y) (lctx path) /\
  Forall (fun y => compar item y < 0) (rctx path).

Lemma bounds_left item x b r path l :
  StronglySorted (before compar) (elements (plug path (Node l x b r))) ->
  bounds item path -> compar item x < 0 -> bounds item (Frame DLeft x b r :: path).
Proof.
  intros Hs [Hl Hr] Hx. split; simpl.
  - by rewrite app_nil_r.
  - rewrite elements_plug in Hs. simpl in Hs.
    rewrite <- app_assoc, app_assoc in Hs. simpl in Hs.
    apply sorted_middle in Hs as (_ & Hs & _). apply Forall_app in Hs as [Hs _].
    constructor; [done|]. apply Forall_app. split; [|done].
    eapply Forall_impl; [exact Hs|]. intros y Hy. by eapply cmp_trans.
Qed.

Lemma bounds_right item x b r path l :
  StronglySorted (before compar) (elements (plug path (Node l x b r))) ->
  bounds item path -> 0 < compar item x -> bounds item (Frame DRight x b l :: path).
Proof.
  intros Hs [Hl Hr] Hx. split; simpl; [|done].
  rewrite elements_plug in Hs. simpl in Hs.
  rewrite <- app_assoc, app_assoc in Hs. simpl in Hs.
  apply sorted_middle in Hs as (Hs & _ & _). apply Forall_app in Hs as [_ Hs].
  apply Forall_app. split; [done|]. apply Forall_app. split; [|by repeat constructor].
  eapply Forall_impl; [exact Hs|]. intros y Hy. simpl in *.
  apply cmp_gt in Hx. apply cmp_gt. by eapply cmp_trans.
Qed.

Lemma deleteDescend_spec t item path :
  StronglySorted (before compar) (elements (plug path t)) -> bounds item path ->
  match deleteDescend compar t item path with
  | Some (l, x, b, r, path') =>
      plug path' (Node l x b r) = plug path t /\ compar item x = 0 /\
      insertDescend compar t item path = inl x /\ findAvl compar t item = Some x
  | None =>
      exists path', plug path' Leaf = plug path t /\ bounds item path' /\
      insertDescend compar t item path = inr path' /\ findAvl compar t item = None
  end.
Proof.
  revert path. induction t as [|l IHl x b r IHr]; intros path Hs Hb; simpl.
  - by exists path.
  - destruct (Z.ltb_spec (compar item x) 0) as [Hlt|Hge].
    + apply (IHl (Frame DLeft x b r :: path)); [done|]. by eapply bounds_left.
    + destruct (Z.ltb_spec 0 (compar item x)) as [Hgt|Hle].
      * apply (IHr (Frame DRight x b l :: path)); [done|]. by eapply bounds_right.
      * split_and!; auto. lia.
Qed.

(** What a successful search says about the specification. *)
Lemma found_spec l x b r path item t :
  StronglySorted (before compar) (elements t) ->
  plug path (Node l x b r) = t -> compar item x = 0 ->
  specFind compar item (elements t) = Some x /\
  specInsert compar item (elements t) = elements t /\
  specDelete compar item (elements t) =
    lctx path ++ elements l ++ elements r ++ rctx path /\
  StronglySorted (before compar) (lctx path ++ elements l ++ elements r ++ rctx path).
Proof.
  intros Hs <- H0. rewrite elements_plug in *. cbn [elements] in *.
  replace (lctx path ++ (elements l ++ x :: elements r) ++ rctx path)
    with ((lctx path ++ elements l) ++ x :: (elements r ++ rctx path)) in *
    by (by list_simplifier).
  apply sorted_middle in Hs as (Hlt & Hgt & Hs').
  assert (Hl : Forall (fun y => 0 < compar item y) (lctx path ++ elements l)).
  { eapply Forall_impl; [exact Hlt|]. intros y. by apply cmp_zero_gt. }
  pose proof (spec_found item _ (elements r ++ rctx path) x Hl H0) as (H1 & H2 & H3).
  rewrite H1, H2, H3. rewrite <- !app_assoc in *. done.
Qed.

Lemma absent_spec path item t :
  StronglySorted (before compar) (elements t) ->
  plug path Leaf = t -> bounds item path ->
  specFind compar item (elements t) = None /\
  specInsert compar item (elements t) = lctx path ++ item :: rctx path /\
  specDelete compar item (elements t) = elements t /\
  StronglySorted (before compar) (lctx path ++ item :: rctx path).
Proof.
  intros Hs <- [Hl Hr]. rewrite elements_plug in *. simpl in *.
  rewrite specFind_none, specInsert_place, specDelete_none by done.
  split_and!; auto. apply sorted_insert; auto.
  eapply Forall_impl; [exact Hl|]. intros y. by apply cmp_gt.
Qed.

(** ** Rebalancing *)

Ltac avl_crush :=
  simpl in *; destruct_and?; subst;
  repeat split; auto; try (by list_simplifier); lia.

Lemma doubleBalances_cases rb :
  -1 <= rb <= 1 ->
  (rb = 1 /\ doubleBalances rb = (-1, 0)) \/ (rb = 0 /\ doubleBalances rb = (0, 0)) \/
  (rb = -1 /\ doubleBalances rb = (0, 1)).
Proof.
  intros. assert (rb = 1 \/ rb = 0 \/ rb = -1) as [-> | [-> | ->]] by lia; auto.
Qed.

Lemma rotateInsert_ok fr d q h :
  frame_ok fr h -> avl q -> height q = S h ->
  fr_bal fr = pathInfo (fr_dir fr) -> root_balance q = pathInfo d ->
  exists t', rotateInsert fr d q = Some t' /\ avl t' /\
    height t' = S (Nat.max h (height (fr_other fr))) /\
    elements t' = elements (attach fr 0 q).
Proof.
  intros (Ho & Hb & He) Hq Hh Hbal Hrb. rewrite elements_attach.
  unfold rotateInsert.
  destruct fr as [fd fx fb fo]; simpl in *.
  destruct fd, d, q as [|ql qi qb qr]; simpl in *; try (exfalso; lia).
  - eexists; split; [done|]. avl_crush.
  - destruct qr as [|rl ri rb rr]; simpl in *; [exfalso; lia|]. destruct_and!.
    destruct (doubleBalances_cases rb) as [[-> ->]|[[-> ->]|[-> ->]]]; [lia|..];
      (eexists; split; [done|]; avl_crush).
  - destruct ql as [|rl ri rb rr]; simpl in *; [exfalso; lia|]. destruct_and!.
    destruct (doubleBalances_cases rb) as [[-> ->]|[[-> ->]|[-> ->]]]; [lia|..];
      (eexists; split; [done|]; avl_crush).
  - eexists; split; [done|]. avl_crush.
Qed.

Lemma rotateDelete_ok fr t :
  frame_ok fr (S (height t)) -> avl t -> fr_bal fr = - pathInfo (fr_dir fr) ->
  exists t' stop, rotateDelete fr (fr_bal fr - pathInfo (fr_dir fr)) t = Some (t', stop) /\
    avl t' /\ elements t' = elements (attach fr 0 t) /\
    height t' = (if (stop : bool) then S (Nat.max (S (height t)) (height (fr_other fr)))
                 else Nat.max (S (height t)) (height (fr_other fr))).
Proof.
  intros (Ho & Hb & He) Ht Hbal. rewrite elements_attach. unfold rotateDelete.
  destruct fr as [fd fx fb fo]; simpl in *.
  destruct fo as [|ql qi qb qr]; [destruct fd; simpl in *; exfalso; lia|].
  simpl in *. destruct Ho as (Hql & Hqr & Hqb & Hqb').
  assert (Hc : qb = 1 \/ qb = 0 \/ qb = -1) by lia.
  destruct fd; simpl in *; clear Hb.
  - assert (fb = 1) as -> by lia. clear Hbal. destruct Hc as [Hc | [Hc | Hc]]; rewrite Hc; simpl;
      [do 2 eexists; split; [done|]; avl_crush .. |].
    destruct ql as [|rl ri rb rr]; simpl in *; [exfalso; lia|]. destruct_and!.
    destruct (doubleBalances_cases rb) as [[-> ->]|[[-> ->]|[-> ->]]]; [lia|..];
      (do 2 eexists; split; [done|]; avl_crush).
  - assert (fb = -1) as -> by lia. clear Hbal.
    destruct Hc as [Hc | [Hc | Hc]]; rewrite Hc; simpl;
      [ | do 2 eexists; split; [done|]; avl_crush .. ].
    destruct qr as [|rl ri rb rr]; simpl in *; [exfalso; lia|]. destruct_and!.
    destruct (doubleBalances_cases rb) as [[-> ->]|[[-> ->]|[-> ->]]]; [lia|..];
      (do 2 eexists; split; [done|]; avl_crush).
Qed.

Ltac dir_lia fr := destruct fr as [[] ? ? ?]; simpl in *; lia.

Lemma frame_ok_cases fr h :
  frame_ok fr h ->
  fr_bal fr = 0 \/ fr_bal fr = pathInfo (fr_dir fr) \/ fr_bal fr = - pathInfo (fr_dir fr).
Proof. intros (_ & Hb & _). dir_lia fr. Qed.

(** Attaching a subtree that grew by one level, then by one level less. *)
Lemma frame_grow fr t h :
  frame_ok fr h -> avl t -> height t = S h ->
  fr_bal fr <> pathInfo (fr_dir fr) ->
  avl (attach fr (fr_bal fr + pathInfo (fr_dir fr)) t).
Proof.
  intros (Ho & Hb & He) Ht Hh Hne. apply avl_attach; auto;
    dir_lia fr.
Qed.

Lemma frame_shrink fr t :
  frame_ok fr (S (height t)) -> avl t ->
  fr_bal fr <> - pathInfo (fr_dir fr) ->
  avl (attach fr (fr_bal fr - pathInfo (fr_dir fr)) t).
Proof.
  intros (Ho & Hb & He) Ht Hne. apply avl_attach; auto;
    dir_lia fr.
Qed.

Lemma elements_attach_bal fr b b' t :
  elements (attach fr b t) = elements (attach fr b' t).
Proof. by rewrite !elements_attach. Qed.

Lemma elements_plug_attach path fr b t t' :
  elements t' = elements (attach fr b t) ->
  elements (plug path t') = elements (plug (fr :: path) t).
Proof. intros H. simpl. rewrite !elements_plug, H. by rewrite (elements_attach_bal fr b (fr_bal fr)). Qed.

(** The side condition of the loop: at the new node, or at a node that leans to
    the side the code came from. *)
Definition grown (t : tree A) (h : nat) (below : option dir) : Prop :=
  match below with
  | None => h = O
  | Some d => root_balance t = pathInfo d
  end.

Lemma s8_balance fr h d :
  frame_ok fr h -> -1 <= d <= 1 -> s8 (fr_bal fr + d) = fr_bal fr + d.
Proof. intros (_ & Hb & _) Hd. apply wraps_small; lia. Qed.

Lemma s8_balance_sub fr h d :
  frame_ok fr h -> -1 <= d <= 1 -> s8 (fr_bal fr - d) = fr_bal fr - d.
Proof. intros (_ & Hb & _) Hd. apply wraps_small; lia. Qed.

Lemma insertRetrace_ok path t h below :
  ctx_ok path h -> avl t -> height t = S h -> grown t h below ->
  exists t', insertRetrace path t below = Some t' /\ avl t' /\
    elements t' = elements (plug path t).
Proof.
  revert t h below. induction path as [|fr path IH]; intros t h below Hc Ht Hh Hg.
  { by exists t. }
  destruct Hc as [Hf Hc]. cbn [insertRetrace]. cbv zeta.
  rewrite (s8_balance fr h) by (auto; dir_lia fr).
  pose proof (frame_ok_cases fr h Hf) as Hcases.
  destruct (Z.eqb_spec (fr_bal fr) 0) as [H0|Hn0].
  - assert (Ha : avl (attach fr (fr_bal fr + pathInfo (fr_dir fr)) t)).
    { eapply frame_grow; eauto. rewrite H0. by destruct fr as [[] ? ? ?]. }
    destruct (IH _ (S (Nat.max h (height (fr_other fr)))) (Some (fr_dir fr)) Hc Ha)
      as (t' & -> & Ht' & He').
    + rewrite height_attach. destruct Hf as (_ & _ & He). dir_lia fr.
    + simpl. rewrite H0. unfold attach. by destruct fr as [[] ? ? ?].
    + exists t'. split_and!; auto. rewrite He'. by eapply elements_plug_attach.
  - destruct (Z.eqb_spec (fr_bal fr + pathInfo (fr_dir fr)) 0) as [H2|Hn2].
    + eexists. split; [done|]. split; [|by eapply elements_plug_attach].
      apply avl_plug; [eapply frame_grow; eauto; dir_lia fr|].
      rewrite height_attach, Hh. destruct Hf as (_ & _ & He).
      replace (Nat.max (S h) (height (fr_other fr)))
        with (Nat.max h (height (fr_other fr))) by dir_lia fr. done.
    + assert (H1 : fr_bal fr = pathInfo (fr_dir fr)) by lia.
      destruct below as [d|]; simpl in Hg;
        [|exfalso; destruct Hf as (_ & _ & He); dir_lia fr].
      destruct (rotateInsert_ok fr d t h Hf Ht Hh H1 Hg) as (t' & -> & Ht' & Hh' & He').
      eexists. split; [done|]. split; [|by eapply elements_plug_attach].
      apply avl_plug; [done|]. by rewrite Hh'.
Qed.

Lemma deleteRetrace_ok path t :
  ctx_ok path (S (height t)) -> avl t ->
  exists t', deleteRetrace path t = Some t' /\ avl t' /\
    elements t' = elements (plug path t).
Proof.
  revert t. induction path as [|fr path IH]; intros t Hc Ht.
  { by exists t. }
  destruct Hc as [Hf Hc]. cbn [deleteRetrace]. cbv zeta.
  rewrite (s8_balance_sub fr (S (height t))) by (auto; dir_lia fr).
  pose proof (frame_ok_cases fr _ Hf) as Hcases.
  destruct (Z.eqb_spec (fr_bal fr) 0) as [H0|Hn0].
  - eexists. split; [done|]. split; [|by eapply elements_plug_attach].
    apply avl_plug; [eapply frame_shrink; eauto; dir_lia fr|].
    rewrite height_attach. destruct Hf as (_ & _ & He).
    replace (Nat.max (height t) (height (fr_other fr)))
      with (Nat.max (S (height t)) (height (fr_other fr))) by dir_lia fr. done.
  - destruct (Z.eqb_spec (fr_bal fr - pathInfo (fr_dir fr)) 0) as [H2|Hn2].
    + destruct (IH (attach fr (fr_bal fr - pathInfo (fr_dir fr)) t))
        as (t' & -> & Ht' & He').
      * rewrite height_attach. destruct Hf as (_ & _ & He).
        replace (S (S (height t `max` height (fr_other fr))))
          with (S (S (height t) `max` height (fr_other fr))) by dir_lia fr. done.
      * eapply frame_shrink; eauto. dir_lia fr.
      * exists t'. split_and!; auto. rewrite He'. by eapply elements_plug_attach.
    + assert (H1 : fr_bal fr = - pathInfo (fr_dir fr)) by lia.
      destruct (rotateDelete_ok fr t Hf Ht H1) as (t' & stop & -> & Ht' & He' & Hh').
      destruct stop; simpl.
      * eexists. split; [done|]. split; [|by eapply elements_plug_attach].
        apply avl_plug; [done|]. by rewrite Hh'.
      * destruct (IH t') as (t'' & -> & Ht'' & He''); [by rewrite Hh'|done|].
        exists t''. split_and!; auto. rewrite He''. by eapply elements_plug_attach.
Qed.

(** On a left spine the specialised loop of [deleteMinAvl] is the general one. *)
Lemma deleteMinRetrace_eq path t :
  Forall (fun fr => fr_dir fr = DLeft) path ->
  ctx_ok path (S (height t)) -> avl t ->
  deleteMinRetrace path t = deleteRetrace path t.
Proof.
  intros Hl. revert t. induction Hl as [|fr path Hd Hl IH]; intros t Hc Ht; [done|].
  destruct Hc as [Hf Hc].
  cbn [deleteMinRetrace deleteRetrace]. cbv zeta. rewrite Hd.
  change (fr_bal fr - pathInfo DLeft) with (fr_bal fr + 1).
  rewrite (s8_balance fr (S (height t))) by (auto; lia).
  destruct (Z.eqb_spec (fr_bal fr) 0) as [H0|Hn0]; [done|].
  destruct (Z.eqb_spec (fr_bal fr + 1) 0) as [H2|Hn2].
  - apply IH.
    + rewrite height_attach. destruct Hf as (_ & _ & He). rewrite Hd in He.
      replace (S (S (height t `max` height (fr_other fr))))
        with (S (S (height t) `max` height (fr_other fr))) by (simpl in He; lia). done.
    + replace (fr_bal fr + 1) with (fr_bal fr - pathInfo (fr_dir fr)) by (by rewrite Hd).
      eapply frame_shrink; eauto. rewrite Hd. simpl. lia.
  - assert (H1 : fr_bal fr = - pathInfo (fr_dir fr)).
    { rewrite Hd. destruct Hf as (_ & Hb & _). simpl. lia. }
    destruct (rotateDelete_ok fr t Hf Ht H1) as (t' & stop & Hr & Ht' & He' & Hh').
    assert (Hm : rotateDeleteMin fr t = rotateDelete fr (fr_bal fr + 1) t).
    { rewrite H1, Hd. unfold rotateDeleteMin, rotateDelete. rewrite Hd.
      destruct (fr_other fr) as [|ql qi qb qr]; [done|].
      change (pathInfo DLeft) with (-1). rewrite (Z.eqb_sym (-1) qb).
      destruct (qb =? -1); simpl; [done|]. by destruct (qb =? 0). }
    rewrite Hm. rewrite Hd in Hr. change (fr_bal fr - pathInfo DLeft) with (fr_bal fr + 1) in Hr.
    rewrite Hr. simpl. destruct stop; [done|]. apply IH; [by rewrite Hh'|done].
Qed.

(** ** Paths of a deletion *)

Fixpoint plug_height (path : list (frame A)) (h : nat) : nat :=
  match path with
  | [] => h
  | fr :: p => plug_height p (S (Nat.max h (height (fr_other fr))))
  end.

Lemma plug_height_plug path t : plug_height path (height t) = height (plug path t).
Proof.
  revert t. induction path as [|fr path IH]; intros t; simpl; [done|].
  by rewrite <- IH, height_attach.
Qed.

Lemma ctx_ok_app p1 p2 h :
  ctx_ok (p1 ++ p2) h <-> ctx_ok p1 h /\ ctx_ok p2 (plug_height p1 h).
Proof.
  revert h. induction p1 as [|fr p1 IH]; intros h; simpl; [tauto|]. rewrite IH. tauto.
Qed.

Lemma plug_app p1 p2 t : plug (p1 ++ p2) t = plug p2 (plug p1 t).
Proof. revert t. induction p1; intros t; simpl; auto. Qed.

Lemma minDescend_spec l x b r chain :
  let '(m, mb, mr, chain') := minDescend l x b r chain in
  plug chain' (Node Leaf m mb mr) = plug chain (Node l x b r) /\
  (Forall (fun fr => fr_dir fr = DLeft) chain -> Forall (fun fr => fr_dir fr = DLeft) chain').
Proof.
  revert x b r chain. induction l as [|ll IH lx lb lr _]; intros x b r chain; simpl; [done|].
  specialize (IH lx lb lr (Frame DLeft x b r :: chain)).
  destruct (minDescend ll lx lb lr _) as [[[m mb] mr] chain'].
  destruct IH as [-> Hd]. split; [done|]. intros H. apply Hd. by constructor.
Qed.

Lemma lctx_left path : Forall (fun fr => fr_dir fr = DLeft) path -> lctx path = [].
Proof. induction 1 as [|fr path Hd _ IH]; simpl; [done|]. by rewrite IH, Hd. Qed.

(** The leftmost node of a subtree, its spine and what is left. *)
Lemma minDescend_elements l x b r m mb mr chain :
  minDescend l x b r [] = (m, mb, mr, chain) ->
  avl (Node l x b r) ->
  elements (Node l x b r) = m :: elements mr ++ rctx chain /\
  Forall (fun fr => fr_dir fr = DLeft) chain /\ avl mr /\
  ctx_ok chain (S (height mr)) /\ plug_height chain (S (height mr)) = height (Node l x b r).
Proof.
  intros Hm Ha. pose proof (minDescend_spec l x b r []) as H. rewrite Hm in H.
  destruct H as [Hp Hl]. simpl plug in Hp. specialize (Hl (List.Forall_nil _)).
  rewrite <- Hp in *. apply avl_plug_inv in Ha as [(_ & Ha & _) Hc].
  rewrite elements_plug, lctx_left by done. split_and!; auto.
  rewrite <- plug_height_plug. done.
Qed.

Lemma deleteUnlink_ok l x b r path :
  avl (Node l x b r) -> ctx_ok path (height (Node l x b r)) ->
  let '(path', hole) := deleteUnlink l b r path in
  ctx_ok path' (S (height hole)) /\ avl hole /\
  elements (plug path' hole) = lctx path ++ elements l ++ elements r ++ rctx path.
Proof.
  intros (Hl & Hr & Hb & Hb') Hc. unfold deleteUnlink.
  destruct l as [|ll lx lb lr].
  { by rewrite elements_plug. }
  destruct r as [|rl rx rb rr].
  { rewrite elements_plug. split_and!; auto. }
  destruct (minDescend rl rx rb rr []) as [[[m mb] mr] chain] eqn:Hm.
  destruct (minDescend_elements _ _ _ _ _ _ _ _ Hm Hr) as (He & Hd & Hmr & Hch & Hh).
  split_and!; [|done|].
  - apply ctx_ok_app. split; [done|]. rewrite Hh. cbn [ctx_ok fr_other].
    split; [|by rewrite Nat.max_comm]. unfold frame_ok.
    cbn [fr_other fr_bal fr_dir pathInfo]. split_and!; auto; lia.
  - rewrite He, plug_app. cbn [plug]. rewrite elements_plug, elements_attach.
    cbn [fr_dir fr_other fr_item]. rewrite elements_plug, (lctx_left chain) by done.
    by list_simplifier.
Qed.

Lemma ctx_of_descent path t l x b r :
  avl t -> plug path (Node l x b r) = t ->
  avl (Node l x b r) /\ ctx_ok path (height (Node l x b r)) /\ (length path < height t)%nat.
Proof.
  intros Ha <-. pose proof (height_plug path (Node l x b r)) as Hh.
  apply avl_plug_inv in Ha as [? ?]. split_and!; auto. cbn [height] in Hh. lia.
Qed.

Lemma bounds_nil item : bounds item [].
Proof. by split. Qed.

Lemma size_mod (t : tree A) (l : list A) k :
  elements t = l -> Z.of_nat (length l) = k -> 0 <= k < 2 ^ 31 ->
  s32 k = Z.of_nat (size t) /\ s32 k < 2 ^ 31.
Proof. intros He Hl Hk. rewrite size_elements, He, Hl, wraps_small by lia. lia. Qed.

(** ** The operations refine the sorted sequence *)

Lemma newAvlTree_wf : wf compar (newAvlTree (A := A)).
Proof. unfold wf. simpl. split_and!; try done. constructor. Qed.

(** [find] returns the item of the sorted sequence that compares equal, or null. *)
Theorem findAvl_refines (this : AvlTree A) (item : A) :
  wf compar this ->
  findAvl compar (root this) item = specFind compar item (elements (root this)).
Proof.
  intros (Hs & _).
  pose proof (deleteDescend_spec (root this) item [] Hs (bounds_nil item)) as H.
  destruct (deleteDescend _ _ _ _) as [[[[[l x] b] r] path]|].
  - destruct H as (Hp & H0 & _ & ->). by destruct (found_spec _ _ _ _ _ _ _ Hs Hp H0).
  - destruct H as (path & Hp & Hb & _ & ->). by destruct (absent_spec _ _ _ Hs Hp Hb).
Qed.

(** C1: [insert] never fails; it returns the item that already compares equal and
    changes nothing, or null after adding the item at its place in the sorted
    sequence; order, balance fields and the count stay right. *)
Theorem insertAvl_refines (this : AvlTree A) (item : A) :
  wf compar this -> n this < 2 ^ 31 - 1 ->
  exists this', insertAvl compar this item
      = Some (specFind compar item (elements (root this)), this') /\
    wf compar this' /\
    elements (root this') = specInsert compar item (elements (root this)).
Proof.
  intros (Hs & Ha & Hn & Hlt) Hmax. unfold insertAvl.
  pose proof (deleteDescend_spec (root this) item [] Hs (bounds_nil item)) as H.
  destruct (deleteDescend _ _ _ _) as [[[[[l x] b] r] path]|].
  - destruct H as (Hp & H0 & -> & _).
    destruct (found_spec _ _ _ _ _ _ _ Hs Hp H0) as (-> & -> & _).
    exists this. split_and!; auto. by repeat split.
  - destruct H as (path & Hp & Hb & -> & _).
    destruct (absent_spec _ _ _ Hs Hp Hb) as (-> & -> & _ & Hs').
    pose proof Ha as Ha'. simpl in Hp. rewrite <- Hp in Ha'.
    apply avl_plug_inv in Ha' as [_ Hc].
    destruct (insertRetrace_ok path (Node Leaf item 0 Leaf) 0 None Hc) as (t' & -> & Ht' & He);
      [by repeat split| done | done |].
    rewrite elements_plug in He. simpl in He.
    eexists. split; [done|]. split; [|done]. simpl in *. unfold wf. simpl.
    rewrite He. destruct (size_mod t' _ (n this + 1) He) as [H1 H2]; [|lia|].
    { rewrite Hn, size_elements, <- Hp, elements_plug, !length_app. simpl. lia. }
    by split_and!.
Qed.

(** C2: [delete] never fails; it returns the item that compares equal, or null when
    there is none, and removes it from the sorted sequence; order, balance
    fields and the count stay right. *)
Theorem deleteAvl_refines (this : AvlTree A) (item : A) :
  wf compar this ->
  exists this', deleteAvl compar this item
      = Some (specFind compar item (elements (root this)), this') /\
    wf compar this' /\
    elements (root this') = specDelete compar item (elements (root this)).
Proof.
  intros (Hs & Ha & Hn & Hlt). unfold deleteAvl.
  pose proof (deleteDescend_spec (root this) item [] Hs (bounds_nil item)) as H.
  destruct (deleteDescend _ _ _ _) as [[[[[l x] b] r] path]|].
  - destruct H as (Hp & H0 & _ & _). simpl in Hp.
    destruct (found_spec _ _ _ _ _ _ _ Hs Hp H0) as (-> & _ & -> & Hs').
    destruct (ctx_of_descent _ _ _ _ _ _ Ha Hp) as (Hna & Hc & _).
    pose proof (deleteUnlink_ok l x b r path Hna Hc) as Hu.
    destruct (deleteUnlink l b r path) as [path' hole].
    destruct Hu as (Hc' & Hh & He).
    destruct (deleteRetrace_ok path' hole Hc' Hh) as (t' & -> & Ht' & He').
    rewrite He in He'. eexists. split; [done|]. split; [|done].
    unfold wf. simpl. rewrite He'.
    destruct (size_mod t' _ (n this - 1) He') as [H1 H2].
    { rewrite Hn, size_elements, <- Hp, elements_plug. simpl.
      rewrite !length_app. simpl. rewrite ?length_app. lia. }
    { rewrite <- Hp, size_elements, elements_plug in Hn. simpl in Hn.
      rewrite !length_app in Hn. simpl in Hn. lia. }
    by split_and!.
  - destruct H as (path & Hp & Hb & _ & _).
    destruct (absent_spec _ _ _ Hs Hp Hb) as (-> & _ & -> & _).
    exists this. split_and!; auto. by repeat split.
Qed.

(** [deleteMin] never fails; it returns the first item of the sorted sequence (null
    when it is empty) and leaves the rest; its own copy of the rebalancing loop
    keeps the balance fields right. *)
Theorem deleteMinAvl_refines (this : AvlTree A) :
  wf compar this ->
  exists this', deleteMinAvl this = Some (head (elements (root this)), this') /\
    wf compar this' /\ elements (root this') = tail (elements (root this)).
Proof.
  intros (Hs & Ha & Hn & Hlt). unfold deleteMinAvl.
  destruct (root this) as [|l x b r] eqn:Hroot.
  { exists this. rewrite Hroot. split_and!; auto. unfold wf. by rewrite Hroot. }
  destruct (minDescend l x b r []) as [[[m mb] mr] chain] eqn:Hm.
  destruct (minDescend_elements _ _ _ _ _ _ _ _ Hm Ha) as (He & Hd & Hmr & Hch & _).
  destruct (deleteRetrace_ok chain mr Hch Hmr) as (t' & Hr & Ht' & He').
  rewrite (deleteMinRetrace_eq chain mr Hd Hch Hmr), Hr.
  rewrite elements_plug, lctx_left in He' by done. simpl in He'.
  rewrite He in *. eexists. split; [done|]. split; [|done].
  unfold wf. simpl. rewrite He'. inversion Hs as [|?? Hs' _]; subst.
  rewrite size_elements, He in Hn. simpl in Hn.
  destruct (size_mod t' _ (n this - 1) He') as [H1 H2]; [lia..|].
  by split_and!.
Qed.

Lemma findMinAvl_head (t : tree A) : findMinAvl t = head (elements t).
Proof.
  induction t as [|l IHl x b r _]; [done|]. cbn [findMinAvl elements].
  destruct l as [|ll lx lb lr]; [done|]. rewrite IHl. cbn [elements].
  by destruct (elements ll).
Qed.

(** in a well-formed tree no operation writes past the 1000 cells of [stack] and
    [pathInfo]: with fewer than 2^31 items no path is longer than 63. *)
Theorem avl_stack_bound (this : AvlTree A) (item : A) :
  wf compar this ->
  match insertDescend compar (root this) item [] with
  | inr path => Z.of_nat (length path) <= 63 < AVL_STACK_SIZE
  | inl _ => True
  end /\
  match deleteDescend compar (root this) item [] with
  | Some (l, _, b, r, path) =>
      Z.of_nat (length (deleteUnlink l b r path).1) <= 63 < AVL_STACK_SIZE
  | None => True
  end.
Proof.
  intros (Hs & Ha & Hn & Hlt).
  pose proof (avl_height_bound _ Ha ltac:(lia)) as Hh.
  pose proof (deleteDescend_spec (root this) item [] Hs (bounds_nil item)) as H.
  unfold AVL_STACK_SIZE.
  destruct (deleteDescend _ _ _ _) as [[[[[l x] b] r] path]|].
  - destruct H as (Hp & _ & -> & _). split; [done|]. simpl in Hp.
    pose proof Hp as Hp'. pose proof (height_plug path (Node l x b r)) as Hlen.
    rewrite Hp in Hlen.
    unfold deleteUnlink. destruct l as [|ll lx lb lr]; [simpl in *; lia|].
    destruct r as [|rl rx rb rr]; [simpl in *; lia|].
    pose proof (minDescend_spec rl rx rb rr []) as Hm.
    destruct (minDescend rl rx rb rr []) as [[[m mb] mr] chain]. destruct Hm as [Hm _].
    pose proof (height_plug chain (Node Leaf m mb mr)) as Hlen2.
    rewrite Hm in Hlen2. simpl plug in Hlen2. simpl fst. rewrite length_app.
    cbn [height length] in *. lia.
  - destruct H as (path & Hp & _ & -> & _). split; [|done]. simpl in Hp.
    pose proof (height_plug path Leaf) as Hlen. rewrite Hp in Hlen. simpl in Hlen. lia.
Qed.

(** ** Freeing *)

Lemma freeLoop_ok fuel (stack : list (tree A)) (freed : list A) :
  Forall (fun t => t <> Leaf) stack ->
  (sum_list_with size stack <= fuel)%nat ->
  exists l, freeLoop fuel stack freed = Some (freed ++ l) /\
    l ≡ₚ concat (elements <$> stack).
Proof.
  revert stack freed. induction fuel as [|fuel IH]; intros stack freed Hs Hf.
  - destruct Hs as [|t stack Ht Hs]; simpl in *.
    + exists []. by rewrite app_nil_r.
    + destruct t; [done|]. simpl in *. lia.
  - destruct Hs as [|t stack Ht Hs]; simpl.
    + exists []. by rewrite app_nil_r.
    + destruct t as [|l x b r]; [done|]. simpl in Hf.
      match goal with |- context [freeLoop fuel ?s _] =>
        destruct (IH s (freed ++ [x])) as (l' & -> & Hl') end.
      * clear -Hs. destruct l, r; repeat (apply Forall_cons; split; [done|]); exact Hs.
      * destruct l, r; simpl in *; lia.
      * exists (x :: l'). rewrite <- app_assoc. split; [done|]. rewrite Hl'.
        simpl. rewrite <- app_assoc. simpl.
        rewrite <- Permutation_middle. constructor.
        assert (Hpush : forall (t : tree A) s,
          concat (elements <$> match t with Leaf => s | Node _ _ _ _ => t :: s end)
          = elements t ++ concat (elements <$> s)) by (by intros []).
        rewrite !Hpush. apply Permutation_app_swap_app.
Qed.

(** [free] ends and frees the node of every item of the tree exactly once. *)
Theorem freeAvl_frees_all (this : AvlTree A) :
  exists l, freeAvl this = Some l /\ l ≡ₚ elements (root this).
Proof.
  unfold freeAvl. destruct (root this) as [|l x b r]; [by exists []|].
  destruct (freeLoop_ok (size (Node l x b r)) [Node l x b r] []) as (l' & -> & Hl').
  - by repeat constructor.
  - simpl. lia.
  - exists l'. split; [done|]. rewrite Hl'. simpl. by rewrite app_nil_r.
Qed.

End AvlProofs.

(** ** A concrete comparator and tree, for the witnesses *)

Definition intCompar (a b : Z) : Z := a - b.

#[export] Instance intCompar_ok : Comparator intCompar.
Proof. split; unfold intCompar; intros; lia. Qed.

(** Left-heavy at the root and at 3: inserting 0 needs a rotation, and so does
    deleting 8 or 9. *)
Definition exampleTree : AvlTree Z :=
  MkAvl (Node (Node (Node Leaf 1 0 Leaf) 3 (-1) Leaf) 5 (-1) (Node Leaf 8 0 Leaf)) 4.

Lemma exampleTree_wf : wf intCompar exampleTree.
Proof. unfold wf, before, intCompar. simpl. split_and!; try lia; repeat constructor; lia. Qed.

Lemma findAvl_refines_witness :
  findAvl intCompar (root exampleTree) 8 = Some 8.
Proof. rewrite (findAvl_refines intCompar exampleTree 8 exampleTree_wf). reflexivity. Defined.

Lemma insertAvl_refines_witness :
  exists this', insertAvl intCompar exampleTree 0 = Some (None, this') /\
    elements (root this') = [0; 1; 3; 5; 8].
Proof.
  destruct (insertAvl_refines intCompar exampleTree 0 exampleTree_wf ltac:(simpl; lia))
    as (this' & H1 & _ & H2).
  exists this'. split; [exact H1 | exact H2].
Defined.

Lemma deleteAvl_refines_witness :
  exists this', deleteAvl intCompar exampleTree 8 = Some (Some 8, this') /\
    elements (root this') = [1; 3; 5].
Proof.
  destruct (deleteAvl_refines intCompar exampleTree 8 exampleTree_wf)
    as (this' & H1 & _ & H2).
  exists this'. split; [exact H1 | exact H2].
Defined.

Lemma deleteMinAvl_refines_witness :
  exists this', deleteMinAvl exampleTree = Some (Some 1, this') /\
    elements (root this') = [3; 5; 8].
Proof.
  destruct (deleteMinAvl_refines intCompar exampleTree exampleTree_wf)
    as (this' & H1 & _ & H2).
  exists this'. split; [exact H1 | exact H2].
Defined.

Lemma avl_stack_bound_witness :
  match insertDescend intCompar (root exampleTree) 0 [] with
  | inr path => Z.of_nat (length path) <= 63 < AVL_STACK_SIZE
  | inl _ => True
  end.
Proof. exact (proj1 (avl_stack_bound intCompar exampleTree 0 exampleTree_wf)). Defined.
