(* ===== verification/QueryOperation.v ===== *)
(** * WHERE clauses of WQL/CQL queries (queryOperation.c)

    Operands and operations are built by the query parser; [evaluate] decides
    whether an instance satisfies the condition, [getPredicateDisjunction] and
    [getPredicateConjunction] give its normal forms to providers.

    A C union is the value last written to it ([QLVal]); the class
    [Representation] says what reading it through another member yields, as far
    as the code depends on it.  [None] as the result of an evaluation is
    undefined behaviour of the C code: a wild or null pointer is followed, or a
    buffer is written out of bounds. *)

From S2P Require Import Prelude CString.
From Stdlib Require Import Floats.SpecFloat.

Inductive QLOpd :=
| QL_Invalid | QL_NotFound | QL_Null | QL_Integer | QL_UInteger | QL_Double
| QL_Boolean | QL_Chars | QL_Char | QL_PropertyName | QL_Name | QL_Inst
| QL_Ref | QL_DateTime.

#[export] Instance QLOpd_eq_dec : EqDecision QLOpd.
Proof. solve_decision. Defined.

Definition opd_num (t : QLOpd) : Z :=
  match t with
  | QL_Invalid => 0 | QL_NotFound => 1 | QL_Null => 2 | QL_Integer => 3
  | QL_UInteger => 4 | QL_Double => 5 | QL_Boolean => 6 | QL_Chars => 7
  | QL_Char => 8 | QL_PropertyName => 9 | QL_Name => 10 | QL_Inst => 11
  | QL_Ref => 12 | QL_DateTime => 13
  end.

Inductive QLFnc :=
| QL_FNC_NoFunction | QL_FNC_BadFunction | QL_FNC_Classname | QL_FNC_Namespacename
| QL_FNC_Namespacetype | QL_FNC_Hostport | QL_FNC_Modelpath | QL_FNC_Classpath
| QL_FNC_Objectpath | QL_FNC_InstanceToReference | QL_FNC_CurrentDateTime
| QL_FNC_DateTime | QL_FNC_MicrosecondsToTimestamp | QL_FNC_MicrosecondsToInterval.

Inductive QLOp :=
| QL_OR | QL_AND | QL_NOT | QL_EQ | QL_NE | QL_LT | QL_LE | QL_GT | QL_GE
| QL_ISA | QL_NOT_ISA | QL_LIKE | QL_NOT_LIKE | QL_IS_NULL | QL_IS_NOT_NULL
| QL_IS_TRUE | QL_IS_NOT_TRUE | QL_IS_FALSE | QL_IS_NOT_FALSE | QL_nop | QL_bin.

Record QLPropertyNameData := PropName {
  className : option bytes;
  propName : bytes;
  index : Z
}.

(** A [char*]: null, a string, or an address that holds none. *)
Inductive cptr := NullP | StrP (s : bytes) | WildP.

Definition b2z (b : bool) : Z := if b then 1 else 0.

Section Types.
Context {Inst : Type}.

(** What the union of an operand, or a [CMPIValue], was last assigned. *)
Inductive QLVal :=
| VZero
| VInt (z : Z)
| VDouble (d : spec_float)
| VBool (b : Z)
| VChar16 (c : Z)
| VChars (p : cptr)
| VInst (i : Inst)
| VProp (path : list QLPropertyNameData).

(** The function tables [qLintQueryOperandFt], ... *)
Inductive OperandFt := FtInt | FtDouble | FtBoolean | FtChars | FtProp | FtInst | FtName.

Record QLOperand := Operand {
  od_ft : OperandFt;
  od_type : QLOpd;
  od_fncArgType : QLOpd;
  od_fnc : QLFnc;
  od_val : QLVal
}.

(** The function tables [qlAndOperationFt], ... *)
Inductive OpKind :=
| KAnd | KOr | KNot | KBin | KIsNull | KIsNotNull
| KLt | KGt | KLe | KGe | KEq | KNe | KIsa | KLike | KNotLike.

Inductive QLOperation :=
| Operation (ft : OpKind) (lhon rhon : option QLOperation)
    (lhod rhod : option QLOperand) (opr : QLOp) (invert : bool).

Definition op_ft (op : QLOperation) := let '(Operation ft _ _ _ _ _ _) := op in ft.
Definition op_invert (op : QLOperation) := let '(Operation _ _ _ _ _ _ inv) := op in inv.
Definition op_lhod (op : QLOperation) := let '(Operation _ _ _ l _ _ _) := op in l.
Definition op_rhod (op : QLOperation) := let '(Operation _ _ _ _ r _ _) := op in r.

(** Reading the union through each member.  Only the matching member, integers
    written as zero and 16-bit characters are determined. *)
Class Representation := {
  as_int : QLVal -> Z;
  as_double : QLVal -> spec_float;
  as_bool : QLVal -> Z;
  as_chars : QLVal -> cptr;
  as_inst : QLVal -> option Inst;
  as_int_int : forall z, as_int (VInt z) = s64 z;
  as_double_double : forall d, as_double (VDouble d) = d;
  as_bool_bool : forall b, as_bool (VBool b) = u8 b;
  as_chars_chars : forall p, as_chars (VChars p) = p;
  as_chars_zero : as_chars VZero = NullP;
  as_chars_char16 : forall c, as_chars (VChar16 c) = if u16 c =? 0 then NullP else WildP;
  as_inst_inst : forall i, as_inst (VInst i) = Some i
}.

Definition as_prop (v : QLVal) : option (list QLPropertyNameData) :=
  match v with VProp path => Some path | _ => None end.

(** ** Constructors *)

Definition newIntQueryOperand (val : Z) : QLOperand :=
  Operand FtInt QL_Integer QL_Invalid QL_FNC_NoFunction (VInt val).
Definition newDoubleQueryOperand (val : spec_float) : QLOperand :=
  Operand FtDouble QL_Double QL_Invalid QL_FNC_NoFunction (VDouble val).
Definition newBooleanQueryOperand (val : Z) : QLOperand :=
  Operand FtBoolean QL_Boolean QL_Invalid QL_FNC_NoFunction (VBool val).
Definition newCharsQueryOperand (val : cptr) : QLOperand :=
  Operand FtChars QL_Chars QL_Invalid QL_FNC_NoFunction (VChars val).
Definition newNameQueryOperand (val : cptr) : QLOperand :=
  Operand FtName QL_Name QL_Invalid QL_FNC_NoFunction (VChars val).
Definition newPropQueryOperand (val : list QLPropertyNameData) : QLOperand :=
  Operand FtProp QL_PropertyName QL_Invalid QL_FNC_NoFunction (VProp val).
Definition newInstQueryOperand (ci : Inst) : QLOperand :=
  Operand FtInst QL_Inst QL_Invalid QL_FNC_NoFunction (VInst ci).

(** [calloc] leaves [fncArgType] zero elsewhere; [argVal] is ignored and the union stays zero. *)
Definition newFncQueryOperand (fnc : QLFnc) (argType : QLOpd) : option QLOperand :=
  let mk t := Some (Operand FtProp t argType fnc VZero) in
  match fnc with
  | QL_FNC_Classname | QL_FNC_Namespacename | QL_FNC_Namespacetype
  | QL_FNC_Hostport | QL_FNC_Modelpath =>
      match argType with QL_Chars | QL_PropertyName => mk QL_Chars | _ => None end
  | QL_FNC_Classpath | QL_FNC_Objectpath =>
      match argType with QL_Chars | QL_PropertyName => mk QL_Ref | _ => None end
  | QL_FNC_InstanceToReference =>
      match argType with QL_Inst => mk QL_Ref | _ => None end
  | _ => mk QL_PropertyName
  end.

Definition newAndOperation lo ro := Operation KAnd (Some lo) (Some ro) None None QL_AND false.
Definition newOrOperation lo ro := Operation KOr (Some lo) (Some ro) None None QL_OR false.
Definition newNotOperation lo := Operation KNot (Some lo) None None None QL_NOT false.
Definition newBinaryOperation lo := Operation KBin (Some lo) None None None QL_bin false.
Definition newIsNullOperation lo := Operation KIsNull None None (Some lo) None QL_IS_NULL false.
Definition newIsNotNullOperation lo :=
  Operation KIsNotNull None None (Some lo) None QL_IS_NOT_NULL false.
Definition newLtOperation lo ro := Operation KLt None None (Some lo) (Some ro) QL_LT false.
Definition newGtOperation lo ro := Operation KGt None None (Some lo) (Some ro) QL_GT false.
Definition newLeOperation lo ro := Operation KLe None None (Some lo) (Some ro) QL_LE false.
Definition newGeOperation lo ro := Operation KGe None None (Some lo) (Some ro) QL_GE false.
Definition newEqOperation lo ro := Operation KEq None None (Some lo) (Some ro) QL_EQ false.
Definition newNeOperation lo ro := Operation KNe None None (Some lo) (Some ro) QL_NE false.
Definition newIsaOperation lo ro := Operation KIsa None None (Some lo) (Some ro) QL_ISA false.
Definition newLikeOperation lo ro := Operation KLike None None (Some lo) (Some ro) QL_LIKE false.
Definition newNotLikeOperation lo ro :=
  Operation KNotLike None None (Some lo) (Some ro) QL_NOT_LIKE false.

End Types.
Arguments QLVal : clear implicits.
Arguments QLOperand : clear implicits.
Arguments QLOperation : clear implicits.
Arguments Representation : clear implicits.

(** ** Pattern matching *)

(** [LIKE]: percent signs at the ends only.  The pattern ["%"] alone makes the
    code write the terminator at index -1. *)
Definition match_re (str re : bytes) : option Z :=
  match re, str with
  | [], _ | _, [] => Some 0
  | c :: re1, _ :: _ =>
      if c =? 37 then
        if List.last re 0 =? 37 then
          match re1 with
          | [] => None
          | _ :: _ =>
              Some (b2z (match strstr str (removelast re1) with
                         | Some _ => true | None => false end))
          end
        else
          match strstr str re1 with
          | Some tmp => Some (b2z (strcmp tmp re1 =? 0))
          | None => Some 0
          end
      else if List.last re 0 =? 37 then
        let str_to_match := removelast re in
        Some (b2z (strncmp str str_to_match (strlen str_to_match) =? 0))
      else Some (b2z (strcmp str re =? 0))
  end.

Section Evaluate.
Context {Inst : Type} `{!Representation Inst}.
(** Other components: the class name of an instance, comparison of instances,
    the class hierarchy ([isChild], null name space allowed), and the
    [getValue] member of a property source. *)
Context (instGetClassName : Inst -> bytes).
Context (instanceCompare : Inst -> option Inst -> Z).
Context (isChild : option bytes -> bytes -> bytes -> Z).
Context (getValue : Inst -> bytes -> QLVal Inst * QLOpd).

Record QLPropertySource := PropertySource { data : Inst; sns : option bytes }.

Implicit Types (self op : QLOperand Inst) (src : QLPropertySource).

(** ** Property values *)

(** The loop of [getPropValue]: when a step of the path is no instance it
    breaks out, and the statement after the loop reads the same name again. *)
Fixpoint propWalk (nsrc : Inst) (pd : list QLPropertyNameData)
  : option (QLVal Inst * QLOpd) :=
  match pd with
  | [] => None
  | [p] => Some (getValue nsrc (propName p))
  | p :: nextPart =>
      let '(v, type) := getValue nsrc (propName p) in
      if decide (type = QL_Inst)
      then i ← as_inst v; propWalk i nextPart
      else Some (getValue nsrc (propName p))
  end.

Definition getPropValue self src : option (QLVal Inst * QLOpd) :=
  pd ← as_prop (od_val self); propWalk (data src) pd.

(** The value and type of the right operand of a comparison. *)
Definition rightValue op src : option (QLVal Inst * QLOpd) :=
  if decide (od_type op = QL_PropertyName) then getPropValue op src
  else Some (od_val op, od_type op).

(** ** Comparison *)

Definition intCompare self op src : option Z :=
  let sov := as_int (od_val self) in
  '(v, type) ← rightValue op src;
  let ov := as_int v in
  Some match type with
       | QL_Integer => s32 (s64 (sov - ov))
       | QL_UInteger => s32 (u64 (u64 sov - u64 ov))
       | _ => - (2 + opd_num type)
       end.

(** The value fetched from a property is overwritten by the operand's own
    [doubleVal]. *)
Definition doubleCompare self op src : option Z :=
  let sov := as_double (od_val self) in
  '(_, type) ← rightValue op src;
  let ov := as_double (od_val op) in
  if decide (type = QL_Double) then
    let d := SFsub 53 1024 sov ov in
    Some (if SFltb d (S754_zero false) then -1
          else if SFltb (S754_zero false) d then 1 else 0)
  else Some (-2).

Definition booleanCompare self op src : option Z :=
  let sov := as_bool (od_val self) in
  '(v, type) ← rightValue op src;
  let ov := as_bool v in
  if decide (type = QL_Boolean)
  then Some (b2z (negb (sov =? 0)) - b2z (negb (ov =? 0)))
  else Some (- (2 + opd_num type)).

Definition charsCompare self op src : option Z :=
  let sov := as_chars (od_val self) in
  '(v, type) ← rightValue op src;
  match sov, as_chars v with
  | NullP, NullP => Some 0
  | NullP, _ => Some (-1)
  | _, NullP => Some 1
  | sov, ov =>
      if decide (type = QL_Chars) then
        match sov, ov with
        | StrP s, StrP o => Some (strcmp s o)
        | _, _ => None
        end
      else Some (-2)
  end.

(** [ov] stays null unless the right operand is a property. *)
Definition instCompare self op src : option Z :=
  ci ← as_inst (od_val self);
  let sov := instGetClassName ci in
  '(ov, type) ←
    (if decide (od_type op = QL_PropertyName)
     then '(v, t) ← getPropValue op src; Some (as_inst v, t)
     else Some (None, od_type op));
  match type with
  | QL_Name =>
      match as_chars (od_val op) with
      | StrP name =>
          if strcasecmp sov name =? 0 then Some 0
          else Some (b2z (isChild (sns src) name sov =? 0))
      | _ => None
      end
  | QL_Inst => Some (instanceCompare ci ov)
  | _ => Some (-2)
  end.

Definition literalCompare self op src : option Z :=
  match od_ft self with
  | FtInt => intCompare self op src
  | FtDouble => doubleCompare self op src
  | FtBoolean => booleanCompare self op src
  | FtChars => charsCompare self op src
  | FtInst => instCompare self op src
  | FtName => Some (-2)
  | FtProp => None
  end.

(** The temporary operand [propCompare] makes of a property value.  Writing
    [value.char16] of the same value back changes no bit of the union. *)
Definition propOperand (v : QLVal Inst) (type : QLOpd) : option (QLOperand Inst) :=
  let retype t (o : QLOperand Inst) :=
    Operand (od_ft o) t (od_fncArgType o) (od_fnc o) (od_val o) in
  match type with
  | QL_Integer => Some (newIntQueryOperand (as_int v))
  | QL_UInteger => Some (retype QL_UInteger (newIntQueryOperand (as_int v)))
  | QL_Double => Some (newDoubleQueryOperand (as_double v))
  | QL_Boolean => Some (newBooleanQueryOperand (as_bool v))
  | QL_Chars => Some (newCharsQueryOperand (as_chars v))
  | QL_Char => Some (retype QL_Char (newCharsQueryOperand (as_chars v)))
  | QL_Inst => ci ← as_inst v; Some (retype QL_Char (newInstQueryOperand ci))
  | _ => None
  end.

Definition propCompare self op src : option Z :=
  '(v, type) ← getPropValue self src;
  match type with
  | QL_PropertyName | QL_Name | QL_Invalid | QL_NotFound => Some (-2)
  | QL_Null =>
      if decide (od_type op = QL_PropertyName) then
        '(_, type') ← getPropValue op src;
        Some (if decide (type' = QL_Null) then 0 else -2)
      else Some (-2)
  | QL_Ref | QL_DateTime => Some (-2)
  | _ => nop ← propOperand v type; literalCompare nop op src
  end.

Definition nameCompare self op src : option Z := Some (-2).

Definition compare self op src : option Z :=
  match od_ft self with
  | FtProp => propCompare self op src
  | FtName => nameCompare self op src
  | _ => literalCompare self op src
  end.

(** ** Evaluation of operations *)

(** [op->lhod->ft->compare(op->lhod, op->rhod, source)] *)
Definition compareOperands (o : QLOperation Inst) src : option Z :=
  match o with
  | Operation _ _ _ (Some l) (Some r) _ _ => compare l r src
  | _ => None
  end.

Definition relEvaluate (test inverted : Z -> bool) (o : QLOperation Inst) src : option Z :=
  c ← compareOperands o src;
  Some (b2z (if op_invert o then inverted c else test c)).

Definition _ltEvaluate := relEvaluate (fun c => c <? 0) (fun c => 0 <=? c).
Definition _gtEvaluate := relEvaluate (fun c => 0 <? c) (fun c => c <=? 0).
Definition _leEvaluate := relEvaluate (fun c => c <=? 0) (fun c => 0 <? c).
Definition _geEvaluate := relEvaluate (fun c => 0 <=? c) (fun c => c <? 0).
Definition _eqEvaluate := relEvaluate (fun c => c =? 0) (fun c => negb (c =? 0)).
Definition _neEvaluate := relEvaluate (fun c => negb (c =? 0)) (fun c => c =? 0).
Definition _isaEvaluate := relEvaluate (fun c => c =? 0) (fun c => negb (c =? 0)).

(** The strings of [_likeEvaluate]: only the type of the right side is tested. *)
Definition likeStrings (o : QLOperation Inst) src : option (cptr * cptr * QLOpd) :=
  match o with
  | Operation _ _ _ (Some l) (Some r) _ _ =>
      '(v, _) ← getPropValue l src;
      '(rv, type) ← rightValue r src;
      Some (as_chars v, as_chars rv, type)
  | _ => None
  end.

Definition likeWith (f : Z -> Z) (o : QLOperation Inst) src : option Z :=
  '(sov, ov, type) ← likeStrings o src;
  if decide (type = QL_Chars) then
    match sov, ov with
    | NullP, _ | _, NullP => Some 0
    | StrP s, StrP r => rc ← match_re s r; Some (f rc)
    | _, _ => None
    end
  else Some 0.

Definition _likeEvaluate := likeWith (fun rc => rc).
Definition _notLikeEvaluate := likeWith (fun rc => b2z (rc =? 0)).

Definition __NullEvaluate (o : QLOperation Inst) src (inv : bool) : option Z :=
  match op_lhod o with
  | Some l =>
      '(_, type) ← getPropValue l src;
      Some (b2z (if inv then bool_decide (type <> QL_Null) else bool_decide (type = QL_Null)))
  | None => None
  end.

Definition isNullEvaluate o src := __NullEvaluate o src false.
Definition isNotNullEvaluate o src := __NullEvaluate o src true.

(** C's short-circuit operators on [int]. *)
Definition c_and (l : option Z) (r : option Z) : option Z :=
  x ← l; if x =? 0 then Some 0 else y ← r; Some (b2z (negb (y =? 0))).
Definition c_or (l : option Z) (r : option Z) : option Z :=
  x ← l; if negb (x =? 0) then Some 1 else y ← r; Some (b2z (negb (y =? 0))).

(** [evaluate] and the [_...Evaluate] functions it dispatches to.  The slot of a
    missing right condition is 1. *)
Fixpoint evaluate (o : QLOperation Inst) src : option Z :=
  match o with
  | Operation ft lhon rhon _ _ _ invert =>
      let left := match lhon with Some l => evaluate l src | None => None end in
      let right := match rhon with Some r => evaluate r src | None => Some 1 end in
      match ft with
      | KAnd => if invert then c_or left right else c_and left right
      | KOr => if invert then c_and left right else c_or left right
      | KNot => left
      | KBin => left
      | KIsNull => isNullEvaluate o src
      | KIsNotNull => isNotNullEvaluate o src
      | KLt => _ltEvaluate o src
      | KGt => _gtEvaluate o src
      | KLe => _leEvaluate o src
      | KGe => _geEvaluate o src
      | KEq => _eqEvaluate o src
      | KNe => _neEvaluate o src
      | KIsa => _isaEvaluate o src
      | KLike => _likeEvaluate o src
      | KNotLike => _notLikeEvaluate o src
      end
  end.

(** ** Inversion *)

(** [relEliminateNots]: with a right condition present it is the left one that
    is visited again. *)
Fixpoint relEliminateNots (o : QLOperation Inst) (invert : bool) : QLOperation Inst :=
  match o with
  | Operation ft lhon rhon lhod rhod opr _ =>
      let left := match lhon with Some l => Some (relEliminateNots l invert) | None => None end in
      Operation ft left rhon lhod rhod opr invert
  end.

Definition operation (o : QLOperation Inst) : QLOp :=
  let inv := op_invert o in
  match op_ft o with
  | KAnd => if inv then QL_OR else QL_AND
  | KOr => if inv then QL_AND else QL_OR
  | KNot => if inv then QL_nop else QL_NOT
  | KBin => if inv then QL_IS_NULL else QL_IS_NOT_NULL
  | KIsNull => if inv then QL_IS_NOT_NULL else QL_IS_NULL
  | KIsNotNull => if inv then QL_IS_NULL else QL_IS_NOT_NULL
  | KLt => if inv then QL_GE else QL_LT
  | KGt => if inv then QL_LE else QL_GT
  | KLe => if inv then QL_GT else QL_LE
  | KGe => if inv then QL_LT else QL_GE
  | KEq => if inv then QL_NE else QL_EQ
  | KNe => if inv then QL_EQ else QL_NE
  | KIsa => if inv then QL_NOT_ISA else QL_ISA
  | KLike => QL_LIKE
  | KNotLike => QL_NOT_LIKE
  end.

Definition isBinaryOperation (o : QLOperation Inst) : bool :=
  match op_ft o with
  | KAnd | KOr | KNot | KIsNull | KIsNotNull => false
  | _ => true
  end.

(** ** Normal forms: arrays of arrays of operations *)

Definition appendArray {X} (t f : list X) : list X := t ++ f.

(** The double loop of [andGetPredicateDisjunction]. *)
Definition crossArray {X} (lc rc : list (list X)) : list (list X) :=
  lci ← lc; rcii ← rc; [appendArray lci rcii].

Definition joinForms {X} (f : list (list X) -> list (list X) -> list (list X))
    (lc rc : option (list (list X))) (has_r : bool) : option (list (list X)) :=
  l ← lc; if has_r then r ← rc; Some (f l r) else Some l.

(** [None]: the entry of the function table is a null pointer. *)
Fixpoint getPredicateDisjunction (o : QLOperation Inst)
  : option (list (list (QLOperation Inst))) :=
  match o with
  | Operation ft lhon rhon _ _ _ _ =>
      let left := match lhon with Some l => getPredicateDisjunction l | None => None end in
      let right := match rhon with Some r => getPredicateDisjunction r | None => None end in
      let has_r := match rhon with Some _ => true | None => false end in
      match ft with
      | KAnd => joinForms crossArray left right has_r
      | KOr => joinForms appendArray left right has_r
      | KNot => left
      | KBin => Some [[o]]
      | _ => None
      end
  end.

Fixpoint getPredicateConjunction (o : QLOperation Inst)
  : option (list (list (QLOperation Inst))) :=
  match o with
  | Operation ft lhon rhon _ _ _ _ =>
      let left := match lhon with Some l => getPredicateConjunction l | None => None end in
      let right := match rhon with Some r => getPredicateConjunction r | None => None end in
      let has_r := match rhon with Some _ => true | None => false end in
      match ft with
      | KAnd => joinForms appendArray left right has_r
      | KOr => joinForms crossArray left right has_r
      | KNot => left
      | KBin => Some [[o]]
      | _ => None
      end
  end.

End Evaluate.

(** * Conditions as the parser builds them *)

Section Conditions.
Context {Inst : Type} `{!Representation Inst}.
Context (instGetClassName : Inst -> bytes).
Context (instanceCompare : Inst -> option Inst -> Z).
Context (isChild : option bytes -> bytes -> bytes -> Z).
Context (getValue : Inst -> bytes -> QLVal Inst * QLOpd).

Abbreviation eval := (evaluate instGetClassName instanceCompare isChild getValue).
Abbreviation propValue := (getPropValue getValue).

(** The search conditions of the query grammar over predicates. *)
Inductive cond :=
| CPred (p : QLOperation Inst)
| CAnd (l r : cond)
| COr (l r : cond)
| CNot (c : cond).

(** The actions of the rule [searchCondition] in queryParser.y. *)
Fixpoint searchCondition (c : cond) : QLOperation Inst :=
  match c with
  | CPred p => newBinaryOperation p
  | CAnd l r => newAndOperation (searchCondition l) (searchCondition r)
  | COr l r => newOrOperation (searchCondition l) (searchCondition r)
  | CNot c => newNotOperation (searchCondition c)
  end.

(** ** Specification: two-valued logic over the predicates *)

Fixpoint holds (v : QLOperation Inst -> bool) (c : cond) : bool :=
  match c with
  | CPred p => v p
  | CAnd l r => holds v l && holds v r
  | COr l r => holds v l || holds v r
  | CNot c => negb (holds v c)
  end.

Fixpoint drop_nots (c : cond) : cond :=
  match c with
  | CPred p => CPred p
  | CAnd l r => CAnd (drop_nots l) (drop_nots r)
  | COr l r => COr (drop_nots l) (drop_nots r)
  | CNot c => drop_nots c
  end.

(** Every predicate evaluates, to the truth value [v] gives it. *)
Fixpoint decided (v : QLOperation Inst -> bool) (src : QLPropertySource) (c : cond) : Prop :=
  match c with
  | CPred p => eval p src = Some (b2z (v p))
  | CAnd l r | COr l r => decided v src l /\ decided v src r
  | CNot c => decided v src c
  end.

Lemma c_and_b2z a b : c_and (Some (b2z a)) (Some (b2z b)) = Some (b2z (a && b)).
Proof. by destruct a, b. Qed.
Lemma c_or_b2z a b : c_or (Some (b2z a)) (Some (b2z b)) = Some (b2z (a || b)).
Proof. by destruct a, b. Qed.

(** C3: evaluation of a parsed condition is two-valued logic with every NOT left
    out: [_notEvaluate] returns its operand's value unchanged. *)
Theorem evaluate_drops_nots v src c :
  decided v src c ->
  eval (searchCondition c) src = Some (b2z (holds v (drop_nots c))).
Proof.
  induction c as [p|l IHl r IHr|l IHl r IHr|c IH]; simpl; auto.
  - intros [Hl Hr]. rewrite IHl, IHr by done. apply c_and_b2z.
  - intros [Hl Hr]. rewrite IHl, IHr by done. apply c_or_b2z.
Qed.

(** ** Normal forms *)

(** The truth of an operation the code evaluates. *)
Definition truth (src : QLPropertySource) (o : QLOperation Inst) : bool :=
  match eval o src with Some x => negb (x =? 0) | None => false end.

Definition some_all (t : QLOperation Inst -> bool) (d : list (list (QLOperation Inst))) :=
  existsb (forallb t) d.
Definition all_some (t : QLOperation Inst -> bool) (d : list (list (QLOperation Inst))) :=
  forallb (existsb t) d.

Lemma some_all_app t a b : some_all t (a ++ b) = some_all t a || some_all t b.
Proof. unfold some_all. by rewrite existsb_app. Qed.

Lemma all_some_app t a b : all_some t (a ++ b) = all_some t a && all_some t b.
Proof. unfold all_some. by rewrite forallb_app. Qed.

Lemma crossArray_cons {X} (x : list X) l r :
  crossArray (x :: l) r = (appendArray x <$> r) ++ crossArray l r.
Proof.
  unfold crossArray. rewrite bind_cons. by f_equal.
Qed.

Lemma some_all_cross t a b : some_all t (crossArray a b) = some_all t a && some_all t b.
Proof.
  induction a as [|x a IH]; [done|]. rewrite crossArray_cons, some_all_app, IH.
  unfold some_all at 1. rewrite existsb_fmap. simpl.
  rewrite andb_orb_distrib_l. f_equal. clear IH. unfold appendArray.
  induction b as [|y b IHb]; simpl; [by rewrite andb_false_r|].
  rewrite forallb_app, IHb. by destruct (forallb t x), (forallb t y).
Qed.

Lemma all_some_cross t a b : all_some t (crossArray a b) = all_some t a || all_some t b.
Proof.
  induction a as [|x a IH]; [done|]. rewrite crossArray_cons, all_some_app, IH.
  unfold all_some at 1. rewrite forallb_fmap. simpl.
  rewrite orb_andb_distrib_l. f_equal. clear IH. unfold appendArray.
  induction b as [|y b IHb]; simpl; [by rewrite orb_true_r|].
  rewrite existsb_app, IHb. by destruct (existsb t x), (existsb t y).
Qed.

Lemma truth_pred v src p : eval p src = Some (b2z (v p)) ->
  some_all (truth src) [[newBinaryOperation p]] = v p /\
  all_some (truth src) [[newBinaryOperation p]] = v p.
Proof.
  intros H. unfold some_all, all_some, truth. simpl. rewrite H. by destruct (v p).
Qed.

(** C4: the disjunctive form handed to providers is defined for every parsed
    condition and is true exactly when the condition evaluates to true. *)
Theorem disjunction_equivalent v src c :
  decided v src c ->
  exists d, getPredicateDisjunction (searchCondition c) = Some d /\
    eval (searchCondition c) src = Some (b2z (some_all (truth src) d)).
Proof.
  induction c as [p|l IHl r IHr|l IHl r IHr|c IH]; simpl.
  - intros H. exists [[newBinaryOperation p]]. split; [done|].
    by destruct (truth_pred v src p H) as [-> _].
  - intros [Hl Hr]. destruct (IHl Hl) as (dl & -> & ->), (IHr Hr) as (dr & -> & ->).
    eexists. split; [done|]. by rewrite some_all_cross, c_and_b2z.
  - intros [Hl Hr]. destruct (IHl Hl) as (dl & -> & ->), (IHr Hr) as (dr & -> & ->).
    eexists. split; [done|]. unfold appendArray. by rewrite some_all_app, c_or_b2z.
  - auto.
Qed.

(** The conjunctive form, a conjunction of disjunctions, likewise. *)
Theorem conjunction_equivalent v src c :
  decided v src c ->
  exists d, getPredicateConjunction (searchCondition c) = Some d /\
    eval (searchCondition c) src = Some (b2z (all_some (truth src) d)).
Proof.
  induction c as [p|l IHl r IHr|l IHl r IHr|c IH]; simpl.
  - intros H. exists [[newBinaryOperation p]]. split; [done|].
    by destruct (truth_pred v src p H) as [_ ->].
  - intros [Hl Hr]. destruct (IHl Hl) as (dl & -> & ->), (IHr Hr) as (dr & -> & ->).
    eexists. split; [done|]. unfold appendArray. by rewrite all_some_app, c_and_b2z.
  - intros [Hl Hr]. destruct (IHl Hl) as (dl & -> & ->), (IHr Hr) as (dr & -> & ->).
    eexists. split; [done|]. by rewrite all_some_cross, c_or_b2z.
  - auto.
Qed.

(** ** Comparison predicates *)

(** The comparison operations by their operator. *)
Definition comparison (k : OpKind) (l r : QLOperand Inst) : QLOperation Inst :=
  match k with
  | KLt => newLtOperation l r | KGt => newGtOperation l r
  | KLe => newLeOperation l r | KGe => newGeOperation l r
  | KNe => newNeOperation l r | _ => newEqOperation l r
  end.

Definition comparison_holds (k : OpKind) (c : Z) : bool :=
  match k with
  | KLt => c <? 0 | KGt => 0 <? c | KLe => c <=? 0 | KGe => 0 <=? c
  | KNe => negb (c =? 0) | _ => c =? 0
  end.

Lemma eval_comparison k l r src c :
  compare instGetClassName instanceCompare isChild getValue l r src = Some c ->
  eval (comparison k l r) src = Some (b2z (comparison_holds k c)).
Proof.
  intros H. destruct k; simpl;
    unfold _ltEvaluate, _gtEvaluate, _leEvaluate, _geEvaluate, _eqEvaluate, _neEvaluate, relEvaluate;
    simpl; by rewrite H.
Qed.

(** An integer property against an integer literal. *)
Lemma compare_int_prop l src a b :
  propValue l src = Some (VInt a, QL_Integer) -> od_ft l = FtProp ->
  compare instGetClassName instanceCompare isChild getValue l (newIntQueryOperand b) src
  = Some (s32 (s64 (s64 a - s64 b))).
Proof.
  intros Hl Hft. unfold compare. rewrite Hft. unfold propCompare. rewrite Hl. simpl.
  unfold literalCompare, intCompare, rightValue. simpl. rewrite !as_int_int.
  by rewrite wraps_idemp by lia.
Qed.

(** the six comparisons of a signed integer property with an integer literal
    agree with the order of the integers while their difference fits 31 bits. *)
Theorem integer_comparison_correct k l src a b :
  propValue l src = Some (VInt a, QL_Integer) -> od_ft l = FtProp ->
  - 2 ^ 63 <= a < 2 ^ 63 -> - 2 ^ 63 <= b < 2 ^ 63 -> - 2 ^ 31 <= a - b < 2 ^ 31 ->
  eval (comparison k l (newIntQueryOperand b)) src
  = Some (b2z (comparison_holds k (a - b))).
Proof.
  intros Hl Hft Ha Hb Hd. rewrite (eval_comparison _ _ _ _ _ (compare_int_prop _ _ a b Hl Hft)).
  by rewrite (wraps_small 64 a), (wraps_small 64 b), (wraps_small 64 (a - b)), wraps_small by lia.
Qed.

(** Equality of a signed integer property with a literal is decided modulo
    2^32: the 64-bit difference is returned as an [int]. *)
Theorem integer_equality_modulo l src a b :
  propValue l src = Some (VInt a, QL_Integer) -> od_ft l = FtProp ->
  eval (newEqOperation l (newIntQueryOperand b)) src
  = Some (b2z ((a - b) mod 2 ^ 32 =? 0)).
Proof.
  intros Hl Hft.
  change (newEqOperation l _) with (comparison KEq l (newIntQueryOperand b)).
  rewrite (eval_comparison KEq _ _ _ _ (compare_int_prop _ _ a b Hl Hft)). simpl.
  do 2 f_equal. apply Bool.eq_iff_eq_true. rewrite !Z.eqb_eq, wraps_zero by lia.
  assert (E : s64 (s64 a - s64 b) mod 2 ^ 32 = (a - b) mod 2 ^ 32).
  { assert (H64 : forall x, x mod 2 ^ 32 = (x mod 2 ^ 64) mod 2 ^ 32).
    { intros x. symmetry. apply Z.mod_mod_divide. by exists (2 ^ 32). }
    rewrite H64, wraps_mod, Zminus_mod, !wraps_mod, <- Zminus_mod, <- H64 by lia. done. }
  by rewrite E.
Qed.

(** The six comparisons of a string property with a string literal agree with
    [strcmp]. *)
Theorem string_comparison_correct k l src s t :
  propValue l src = Some (VChars (StrP s), QL_Chars) -> od_ft l = FtProp ->
  eval (comparison k l (newCharsQueryOperand (StrP t))) src
  = Some (b2z (comparison_holds k (strcmp s t))).
Proof.
  intros Hl Hft. apply eval_comparison. unfold compare. rewrite Hft. unfold propCompare.
  rewrite Hl. simpl. unfold literalCompare, charsCompare, rightValue. simpl.
  rewrite !as_chars_chars. done.
Qed.

(** Comparing a non-zero 16-bit character property with a string literal
    follows the character as an address: undefined behaviour. *)
Theorem char16_comparison_undefined k l src c t :
  propValue l src = Some (VChar16 c, QL_Char) -> od_ft l = FtProp -> u16 c <> 0 ->
  eval (comparison k l (newCharsQueryOperand (StrP t))) src = None.
Proof.
  intros Hl Hft Hc.
  assert (H : compare instGetClassName instanceCompare isChild getValue l
                (newCharsQueryOperand (StrP t)) src = None).
  { unfold compare. rewrite Hft. unfold propCompare. rewrite Hl. simpl.
    unfold literalCompare, charsCompare, rightValue. simpl.
    rewrite !as_chars_chars, as_chars_char16.
    by destruct (Z.eqb_spec (u16 c) 0). }
  destruct k; simpl;
    unfold _ltEvaluate, _gtEvaluate, _leEvaluate, _geEvaluate, _eqEvaluate, _neEvaluate, relEvaluate;
    simpl; by rewrite H.
Qed.

(** A path through a property that is not an instance does not fail: it has the
    value and type of that property, whatever follows. *)
Theorem property_path_broken (p q : QLPropertyNameData) rest src v t :
  getValue (data src) (propName p) = (v, t) -> t <> QL_Inst ->
  propValue (newPropQueryOperand (p :: q :: rest)) src = Some (v, t).
Proof.
  intros H Ht. unfold getPropValue. simpl. rewrite H. by rewrite decide_False.
Qed.

(** ** IS [NOT] TRUE / FALSE *)

Definition invertible (k : OpKind) : bool :=
  match k with KLt | KGt | KLe | KGe | KEq | KNe | KIsa => true | _ => false end.
Definition uninvertible (k : OpKind) : bool :=
  match k with KIsNull | KIsNotNull | KLike | KNotLike => true | _ => false end.

Definition dual (o : QLOp) : QLOp :=
  match o with
  | QL_LT => QL_GE | QL_GE => QL_LT | QL_GT => QL_LE | QL_LE => QL_GT
  | QL_EQ => QL_NE | QL_NE => QL_EQ | QL_ISA => QL_NOT_ISA | QL_NOT_ISA => QL_ISA
  | o => o
  end.

(** Inverting a comparison (IS FALSE, IS NOT TRUE) negates its value and names
    the dual operator; LIKE and NULL predicates ignore the inversion. *)
Theorem eliminateNots_predicate (o : QLOperation Inst) src :
  (invertible (op_ft o) = true ->
   eval (relEliminateNots o true) src
     = (fun x => 1 - x) <$> eval (relEliminateNots o false) src /\
   operation (relEliminateNots o true) = dual (operation (relEliminateNots o false))) /\
  (uninvertible (op_ft o) = true ->
   eval (relEliminateNots o true) src = eval (relEliminateNots o false) src).
Proof.
  destruct o as [k lhon rhon lhod rhod opr inv].
  split; intros Hk; destruct k; try discriminate Hk; simpl; auto;
    (split; [|done]);
    unfold _ltEvaluate, _gtEvaluate, _leEvaluate, _geEvaluate, _eqEvaluate, _neEvaluate,
      _isaEvaluate, relEvaluate, compareOperands; simpl;
    destruct lhod as [l|], rhod as [r|]; try done; simpl;
    destruct (compare instGetClassName instanceCompare isChild getValue l r src) as [c|];
    simpl; try done; f_equal; case_zbool; simpl; lia.
Qed.

End Conditions.

(** * Printing (the [toString] members) *)

Section Printing.
Context {Inst : Type} `{!Representation Inst}.
(** [printf]'s [%g]. *)
Context (print_g : spec_float -> bytes).

Definition types : list bytes :=
  cstr <$> ["-inv-"; "integer"; "double"; "boolean"; "chars"; "name"]%string.

(** [types[op->type]]; [None] past the end of the table. *)
Definition typeToString (op : QLOperand Inst) : option bytes :=
  types !! Z.to_nat (opd_num (od_type op)).

Fixpoint propToString (path : list QLPropertyNameData) : bytes :=
  match path with
  | [] => []
  | pd :: nextPart =>
      match className pd with Some c => c ++ cstr "::" | None => [] end ++
      propName pd ++ (match nextPart with [] => [] | _ => cstr "." end) ++
      propToString nextPart
  end.

Definition charsToString (op : QLOperand Inst) : option bytes :=
  match as_chars (od_val op) with StrP s => Some s | _ => None end.

Definition operandToString (op : QLOperand Inst) : option bytes :=
  match od_ft op with
  | FtInt => Some (print_dec (as_int (od_val op)))
  | FtDouble => Some (print_g (as_double (od_val op)))
  | FtBoolean => Some (if as_bool (od_val op) =? 0 then cstr "false" else cstr "true")
  | FtChars | FtName => charsToString op
  | FtInst => Some (cstr "*** instance ***")
  | FtProp => match od_val op with
              | VZero => Some []
              | VProp path => Some (propToString path)
              | _ => None
              end
  end.

(** The size of the local buffer of [ltToString], ...: [None] when overrun. *)
Definition TOSTRING_BUF : Z := 512.

Definition relToString (l r : option (QLOperand Inst)) (opr : bytes) : option bytes :=
  l ← l; ls ← operandToString l;
  rs ← (match r with Some r => operandToString r | None => Some (cstr "--") end);
  let str := ls ++ opr ++ rs in
  if strlen str + 1 <=? TOSTRING_BUF then Some str else None.

(** [malloc(32 + strlen(ln) + strlen(rn))] *)
Definition opnToChars (ln opr rn : bytes) : option bytes :=
  let str := cstr "[" ++ ln ++ cstr "] " ++ opr ++ cstr " [" ++ rn ++ cstr "]" in
  if strlen str + 1 <=? 32 + strlen ln + strlen rn then Some str else None.

Definition opName (k : OpKind) (inv : bool) : bytes :=
  cstr match k with
  | KAnd => if inv then "QL_OR" else "QL_AND"
  | KOr => if inv then "QL_AND" else "QL_OR"
  | KNot => if inv then "QL_nop" else "QL_NOT"
  | KBin => if inv then "QL_IS_NOT_TRUE" else "QL_IS_TRUE"
  | KIsNull => if inv then "QL_IS_NOT_NULL" else "QL_IS_NULL"
  | KIsNotNull => if inv then "QL_IS_NULL" else "QL_IS_NOT_NULL"
  | KLt => if inv then " QL_GE " else " QL_LT "
  | KGt => if inv then " QL_LE " else " QL_GT "
  | KLe => if inv then " QL_GT " else " QL_LE "
  | KGe => if inv then " QL_LT " else " QL_GE "
  | KEq => if inv then " QL_NE " else " QL_EQ "
  | KNe => if inv then " QL_EQ " else " QL_NE "
  | KIsa => if inv then " QL_NOT_ISA " else " QL_ISA "
  | KLike => "QL_LIKE "
  | KNotLike => "QL_NOT_LIKE "
  end%string.

(** The [toString] member of every operation table. *)
Fixpoint opToString (o : QLOperation Inst) : option bytes :=
  match o with
  | Operation ft lhon rhon lhod rhod _ inv =>
      let ln := match lhon with Some l => opToString l | None => Some (cstr "?l?") end in
      let rn := match rhon with Some r => opToString r | None => Some (cstr "?r?") end in
      match ft with
      | KAnd | KOr | KNot => ln ← ln; rn ← rn; opnToChars ln (opName ft inv) rn
      | KBin | KIsNull | KIsNotNull => ln ← ln; opnToChars ln (opName ft inv) (cstr "---")
      | _ => relToString lhod rhod (opName ft inv)
      end
  end.

(** The text of a condition over the texts of its predicates. *)
Fixpoint condText (pt : QLOperation Inst -> bytes) (c : cond) : bytes :=
  let box ln opr rn :=
    cstr "[" ++ ln ++ cstr "] " ++ cstr opr ++ cstr " [" ++ rn ++ cstr "]" in
  match c with
  | CPred p => box (pt p) "QL_IS_TRUE"%string (cstr "---")
  | CAnd l r => box (condText pt l) "QL_AND"%string (condText pt r)
  | COr l r => box (condText pt l) "QL_OR"%string (condText pt r)
  | CNot c => box (condText pt c) "QL_NOT"%string (cstr "?r?")
  end.

Fixpoint predsPrint (pt : QLOperation Inst -> bytes) (c : cond) : Prop :=
  match c with
  | CPred p => opToString p = Some (pt p)
  | CAnd l r | COr l r => predsPrint pt l /\ predsPrint pt r
  | CNot c => predsPrint pt c
  end.

Lemma opnToChars_fits ln opr rn : strlen opr <= 24 ->
  opnToChars ln opr rn
  = Some (cstr "[" ++ ln ++ cstr "] " ++ opr ++ cstr " [" ++ rn ++ cstr "]").
Proof.
  intros H. unfold opnToChars. rewrite (proj2 (Z.leb_le _ _)); [done|].
  unfold strlen in *. rewrite !length_app. cbn [length cstr]. lia.
Qed.

(** However large a condition is, the buffers of [opnToChars] suffice: it is
    printed whenever each predicate is. *)
Theorem toString_nested pt c :
  predsPrint pt c -> opToString (searchCondition c) = Some (condText pt c).
Proof.
  induction c as [p|l IHl r IHr|l IHl r IHr|c IH]; cbn -[opnToChars cstr].
  - intros ->. cbn -[opnToChars cstr]. by apply opnToChars_fits.
  - intros [Hl Hr]. rewrite (IHl Hl), (IHr Hr). cbn -[opnToChars cstr]. by apply opnToChars_fits.
  - intros [Hl Hr]. rewrite (IHl Hl), (IHr Hr). cbn -[opnToChars cstr]. by apply opnToChars_fits.
  - intros H. rewrite (IH H). cbn -[opnToChars cstr]. by apply opnToChars_fits.
Qed.

(** A comparison prints exactly when its text is shorter than 512 bytes;
    otherwise its local buffer is overrun. *)
Theorem comparison_toString_bound (k : OpKind) l r ls rs :
  invertible k = true -> k <> KIsa ->
  operandToString l = Some ls -> operandToString r = Some rs ->
  opToString (comparison k l r)
  = if strlen ls + 7 + strlen rs <? 512 then Some (ls ++ opName k false ++ rs) else None.
Proof.
  intros Hk Hi Hl Hr.
  assert (Ho : length (opName k false) = 7%nat) by (destruct k; done).
  assert (E : opToString (comparison k l r) = relToString (Some l) (Some r) (opName k false))
    by (destruct k; done).
  rewrite E. unfold relToString. cbn [mbind option_bind]. rewrite Hl. cbn [mbind option_bind].
  rewrite Hr. cbn [mbind option_bind].
  unfold strlen, TOSTRING_BUF. rewrite !length_app, Ho. case_zbool; done || lia.
Qed.

(** The table of type names is not the one of [QLOpd]. *)
Lemma typeToString_misaligned z p :
  typeToString (newIntQueryOperand z) = Some (cstr "boolean") /\
  typeToString (newCharsQueryOperand p) = None.
Proof. done. Qed.

End Printing.

(** * LIKE patterns *)

Lemma last_snoc_37 (p : bytes) : List.last (p ++ [37]) 0 = 37.
Proof. by rewrite List.last_last. Qed.

Lemma strcmp_is_prefix p s :
  (strncmp s p (strlen p) =? 0) = is_prefix p s.
Proof.
  unfold strncmp, strlen. rewrite Nat2Z.id, (firstn_all p).
  apply Bool.eq_iff_eq_true. rewrite Z.eqb_eq, strcmp_eq, is_prefix_spec. split.
  - intros E. exists (drop (length p) s). by rewrite <- E at 1; rewrite take_drop.
  - intros [r ->]. by rewrite take_app_length.
Qed.

Definition occurs (p s : bytes) : Prop := exists pre post, s = pre ++ p ++ post.

(** No occurrence of [p] in [s] starts before the end of [pre]. *)
Definition first_at (pre p s : bytes) : Prop :=
  forall pre' post', s = pre' ++ p ++ post' -> (length pre <= length pre')%nat.

Lemma strstr_occurs s p :
  match strstr s p with Some _ => true | None => false end = true <-> occurs p s.
Proof.
  pose proof (strstr_spec s p) as H. destruct (strstr s p).
  - destruct H as (pre & post & H & _). split; [|done]. intros _. by exists pre, post.
  - split; [done|]. intros (pre & post & E). by destruct (H pre post).
Qed.

Lemma last_cons_nonempty (a : Z) p : p <> [] -> List.last (a :: p) 0 = List.last p 0.
Proof. by destruct p. Qed.

(** LIKE with a percent sign at the end, at both ends or nowhere is a prefix,
    substring or equality test; with one in front the FIRST occurrence of the
    text has to be at the end of the string. *)
Theorem match_re_spec (str p : bytes) :
  str <> [] -> List.hd 0 p <> 37 -> List.last p 0 <> 37 ->
  (p <> [] -> match_re str p = Some (b2z (strcmp str p =? 0))) /\
  (p <> [] -> match_re str (p ++ [37]) = Some (b2z (is_prefix p str))) /\
  (exists r, match_re str (37 :: p ++ [37]) = Some (b2z r) /\ (r = true <-> occurs p str)) /\
  (p = [] -> match_re str (37 :: p) = None) /\
  (p <> [] -> exists r, match_re str (37 :: p) = Some (b2z r) /\
     (r = true <-> exists pre, str = pre ++ p /\ first_at pre p str)).
Proof.
  intros Hs Hh Hl. destruct str as [|a str]; [done|]. clear Hs. split_and!.
  - intros Hp. destruct p as [|b p]; [done|]. unfold match_re. simpl in Hh.
    by rewrite (proj2 (Z.eqb_neq b 37)), (proj2 (Z.eqb_neq _ 37) Hl).
  - intros Hp. rewrite <- strcmp_is_prefix. destruct p as [|b p]; [done|].
    unfold match_re. simpl in Hh. cbn [app].
    rewrite (proj2 (Z.eqb_neq b 37)) by done.
    by rewrite (app_comm_cons p [37] b), last_snoc_37, removelast_last.
  - eexists. split; [|apply strstr_occurs]. unfold match_re. rewrite Z.eqb_refl.
    rewrite (app_comm_cons p [37] 37), last_snoc_37. cbn [app Z.eqb Pos.eqb].
    rewrite removelast_last. by destruct p.
  - by intros ->.
  - intros Hp. unfold match_re. rewrite Z.eqb_refl, last_cons_nonempty by done.
    rewrite (proj2 (Z.eqb_neq _ 37) Hl).
    pose proof (strstr_spec (a :: str) p) as Hsp. destruct (strstr (a :: str) p) as [tmp|].
    + destruct Hsp as (pre & post & Hd & -> & Hf). eexists. split; [done|].
      rewrite Z.eqb_eq, strcmp_eq. split.
      * intros E. assert (post = []) as ->
          by (apply (f_equal length) in E; rewrite length_app in E; destruct post; [done|cbn [length] in E; lia]).
        exists pre. rewrite app_nil_r in Hd. split; [done|]. exact Hf.
      * intros (pre' & Hd' & Hf'). assert (pre' = pre) as ->.
        { assert (length pre <= length pre')%nat
            by (apply (Hf pre' []); by rewrite app_nil_r).
          specialize (Hf' _ _ Hd). rewrite Hd in Hd'.
          apply (f_equal (take (length pre))) in Hd' as E.
          rewrite take_app_length in E. rewrite take_app_le in E by lia.
          rewrite E, take_ge by lia. done. }
        rewrite Hd in Hd'. by apply app_inv_head in Hd'.
    + exists false. split; [done|]. split; [done|]. intros (pre & Hd & _).
      exfalso. apply (Hsp pre []). by rewrite app_nil_r.
Qed.

(** * Witnesses *)

(** One way a compiler may lay the union out: nothing but the members the laws
    determine can be read. *)
#[export, program] Instance zero_representation Inst : Representation Inst := {
  as_int v := match v with VInt z => s64 z | _ => 0 end;
  as_double v := match v with VDouble d => d | _ => S754_zero false end;
  as_bool v := match v with VBool b => u8 b | _ => 0 end;
  as_chars v := match v with
                | VChars p => p | VZero => NullP
                | VChar16 c => if u16 c =? 0 then NullP else WildP
                | _ => WildP end;
  as_inst v := match v with VInst i => Some i | _ => None end
}.
Solve Obligations with done.

(** An instance is its number; number 1 embeds number 2. *)
Definition wit_getValue (i : Z) (name : bytes) : QLVal Z * QLOpd :=
  if decide (name = cstr "Count") then (VInt (i + 4), QL_Integer)
  else if decide (name = cstr "Name") then (VChars (StrP (cstr "disk0")), QL_Chars)
  else if decide (name = cstr "Letter") then (VChar16 65, QL_Char)
  else if decide (name = cstr "Part") then (VInst 2, QL_Inst)
  else (VZero, QL_NotFound).

Definition wit_name (_ : Z) : bytes := cstr "CIM_Disk".
Definition wit_compare (a : Z) (b : option Z) : Z := if decide (Some a = b) then 0 else 1.
Definition wit_isChild (_ : option bytes) (_ _ : bytes) : Z := 0.
Definition wit_src : QLPropertySource (Inst := Z) := {| data := 1; sns := None |}.
Definition wit_prop (n : string) : QLOperand Z := newPropQueryOperand [PropName None (cstr n) 0].
Abbreviation wit_eval := (evaluate wit_name wit_compare wit_isChild wit_getValue).

(** [NOT (Count < 7 AND Name = 'disk1') OR Count = 9] *)
Definition wit_lt := newLtOperation (wit_prop "Count") (newIntQueryOperand 7).
Definition wit_eq := newEqOperation (wit_prop "Name") (newCharsQueryOperand (StrP (cstr "disk1"))).
Definition wit_nine := newEqOperation (wit_prop "Count") (newIntQueryOperand 9).
Definition wit_cond := COr (CNot (CAnd (CPred wit_lt) (CPred wit_eq))) (CPred wit_nine).
Definition wit_v (o : QLOperation Z) : bool :=
  match wit_eval o wit_src with Some x => negb (x =? 0) | None => false end.

Lemma evaluate_drops_nots_witness :
  wit_eval (searchCondition wit_cond) wit_src = Some 0 /\ holds wit_v wit_cond = true.
Proof.
  split; [|by vm_compute].
  rewrite (evaluate_drops_nots wit_name wit_compare wit_isChild wit_getValue wit_v wit_src wit_cond).
  - by vm_compute.
  - by vm_compute.
Defined.

Lemma disjunction_equivalent_witness :
  exists d, getPredicateDisjunction (searchCondition wit_cond) = Some d /\
    wit_eval (searchCondition wit_cond) wit_src
    = Some (b2z (some_all (truth wit_name wit_compare wit_isChild wit_getValue wit_src) d)).
Proof. apply (disjunction_equivalent _ _ _ _ wit_v). by vm_compute. Defined.

Lemma conjunction_equivalent_witness :
  exists d, getPredicateConjunction (searchCondition wit_cond) = Some d /\
    wit_eval (searchCondition wit_cond) wit_src
    = Some (b2z (all_some (truth wit_name wit_compare wit_isChild wit_getValue wit_src) d)).
Proof. apply (conjunction_equivalent _ _ _ _ wit_v). by vm_compute. Defined.

Lemma integer_comparison_correct_witness : wit_eval wit_lt wit_src = Some 1.
Proof.
  change wit_lt with (comparison KLt (wit_prop "Count") (newIntQueryOperand 7)).
  rewrite (integer_comparison_correct wit_name wit_compare wit_isChild wit_getValue
             KLt (wit_prop "Count") wit_src 5 7); done || (vm_compute; intuition discriminate).
Defined.

(** 5 "equals" 4294967301. *)
Lemma integer_equality_modulo_witness :
  wit_eval (newEqOperation (wit_prop "Count") (newIntQueryOperand 4294967301)) wit_src = Some 1.
Proof.
  rewrite (integer_equality_modulo wit_name wit_compare wit_isChild wit_getValue
             (wit_prop "Count") wit_src 5 4294967301); done.
Defined.

Lemma string_comparison_correct_witness : wit_eval wit_eq wit_src = Some 0.
Proof.
  change wit_eq with
    (comparison KEq (wit_prop "Name") (newCharsQueryOperand (StrP (cstr "disk1")))).
  rewrite (string_comparison_correct wit_name wit_compare wit_isChild wit_getValue
             KEq (wit_prop "Name") wit_src (cstr "disk0") (cstr "disk1")); done.
Defined.

Lemma char16_comparison_undefined_witness :
  wit_eval (newEqOperation (wit_prop "Letter") (newCharsQueryOperand (StrP (cstr "A")))) wit_src
  = None.
Proof.
  apply (char16_comparison_undefined wit_name wit_compare wit_isChild wit_getValue
           KEq (wit_prop "Letter") wit_src 65 (cstr "A")); done.
Defined.

(** [Count.Name] is the value of [Count]. *)
Lemma property_path_broken_witness :
  getPropValue wit_getValue
    (newPropQueryOperand [PropName None (cstr "Count") 0; PropName None (cstr "Name") 0]) wit_src
  = Some (VInt 5, QL_Integer).
Proof. apply (property_path_broken wit_getValue _ _ []); done. Defined.

Lemma eliminateNots_predicate_witness :
  wit_eval (relEliminateNots wit_lt true) wit_src = Some 0 /\
  operation (relEliminateNots wit_lt true) = QL_GE.
Proof.
  destruct (eliminateNots_predicate wit_name wit_compare wit_isChild wit_getValue
              wit_lt wit_src) as [H _].
  destruct (H eq_refl) as [-> ->]. by vm_compute.
Defined.

Definition wit_g (_ : spec_float) : bytes := cstr "1.5".

Lemma toString_nested_witness :
  opToString wit_g (searchCondition (CNot (CPred wit_nine)))
  = Some (cstr "[[Count QL_EQ 9] QL_IS_TRUE [---]] QL_NOT [?r?]").
Proof.
  rewrite (toString_nested wit_g (fun _ => cstr "Count QL_EQ 9")); by vm_compute.
Defined.

Lemma comparison_toString_bound_witness :
  opToString wit_g wit_lt = Some (cstr "Count QL_LT 7").
Proof.
  change wit_lt with (comparison KLt (wit_prop "Count") (newIntQueryOperand 7)).
  rewrite (comparison_toString_bound wit_g KLt _ _ (cstr "Count") (cstr "7")); done.
Defined.

(** "abab" LIKE "%ab" is false. *)
Lemma match_re_spec_witness :
  match_re (cstr "abab") (cstr "abab") = Some 1 /\ match_re (cstr "abab") (cstr "%ab") = Some 0.
Proof.
  destruct (match_re_spec (cstr "abab") (cstr "ab") ltac:(done) ltac:(done) ltac:(done))
    as (_ & _ & _ & _ & H).
  split; [by vm_compute|]. destruct (H ltac:(done)) as ([] & E & Hr); [|exact E].
  destruct (proj1 Hr eq_refl) as (pre & Epre & Hf).
  specialize (Hf [] (cstr "ab") eq_refl). by destruct pre.
Defined.
