(* ===== verification/FileRepository.v ===== *)
(** * The instance repository (fileRepository.c)

    The instances of a class live in two files of the directory of their name
    space: [<class>], the serialized instances one after the other, and
    [<class>.idx], one text record per instance

      <record length> <key length> <key> <blob length> <blob offset> CR LF

    A file is the list of its bytes in the map of the file system; an open
    handle is the content the file had when it was opened.  Writes, renames and
    removals succeed; a file can be created where [creatable] says so.  [None]
    is undefined behaviour of the C code. *)

From S2P Require Import Prelude CString.

Abbreviation files := (gmap bytes bytes).

Definition BASE : bytes := cstr "repository".

(** [pos] .. [next] as in the C record; [index] has [dSize] bytes and [fd] is
    what the handle of the data file reads.  [fx_open]: the index file could be
    opened. *)
Record BlobIndex := {
  fnx : bytes; fnd : bytes; dir : bytes;
  fx_open : bool; fd : option bytes;
  index : bytes;
  pos : Z; len : Z; blen : Z; bofs : Z; next : Z
}.

Definition dSize (bi : BlobIndex) : Z := strlen (index bi).

Definition set_next bi n := {|
  fnx := fnx bi; fnd := fnd bi; dir := dir bi; fx_open := fx_open bi; fd := fd bi;
  index := index bi; pos := pos bi; len := len bi; blen := blen bi; bofs := bofs bi;
  next := n |}.
Definition set_record bi p l b o := {|
  fnx := fnx bi; fnd := fnd bi; dir := dir bi; fx_open := fx_open bi; fd := fd bi;
  index := index bi; pos := p; len := l; blen := b; bofs := o; next := next bi + l |}.
Definition set_fd bi h := {|
  fnx := fnx bi; fnd := fnd bi; dir := dir bi; fx_open := fx_open bi; fd := h;
  index := index bi; pos := pos bi; len := len bi; blen := blen bi; bofs := bofs bi;
  next := next bi |}.
Definition set_index bi x := {|
  fnx := fnx bi; fnd := fnd bi; dir := dir bi; fx_open := fx_open bi; fd := fd bi;
  index := x; pos := pos bi; len := len bi; blen := blen bi; bofs := bofs bi;
  next := next bi |}.

(** ** Reading index records *)

Definition is_delim (b : Z) : bool := (b =? 32) || (b =? 9).

Definition skip_delims (s : bytes) : bytes := drop (strspn s is_delim) s.

(** Trim white space, read the digits: the number and what follows it. *)
Definition scan_field (s : bytes) : option (Z * bytes) :=
  let t := skip_delims s in
  match strspn t isdigit with
  | O => None
  | slen => Some (atoi t, drop slen t)
  end.

(** The loop-free body of [getIndexRecordCase] up to the update of [bi]:
    -1 as [inl], or record, key and blob lengths, offset, and the key. *)
Definition parse_record (s : bytes) : option (option (Z * Z * Z * Z * bytes)) :=
  match scan_field s with
  | None => Some None
  | Some (elen, t) =>
    if elen <=? 0 then Some None else
    match scan_field t with
    | None => Some None
    | Some (ekl, t) =>
      if ekl <=? 0 then Some None else
      let kbptr := skip_delims t in
      if strlen kbptr <? ekl then None else
      match scan_field (drop (Z.to_nat ekl) kbptr) with
      | None => Some None
      | Some (blen, t) =>
        if blen <=? 0 then Some None else
        match scan_field t with
        | None => Some None
        | Some (bofs, t) =>
          if bofs <? 0 then Some None else Some (Some (elen, ekl, blen, bofs, kbptr))
        end
      end
    end
  end.

(** The result -1, 0 or 1, the updated index, and the key found (when 0). *)
Definition getIndexRecordCase (bi : BlobIndex) (key : bytes) (keyl : Z) (ignorecase : bool)
  : option (Z * BlobIndex * bytes) :=
  if dSize bi <=? next bi then Some (-1, bi, []) else
  r ← parse_record (drop (Z.to_nat (next bi)) (index bi));
  match r with
  | None => Some (-1, bi, [])
  | Some (elen, ekl, bl, bo, kbptr) =>
      if 2 ^ 31 <=? next bi + elen then None else
      let bi' := set_record bi (next bi) elen bl bo in
      if (0 <? keyl) &&
         (negb (keyl =? ekl) ||
          negb ((if ignorecase then strncasecmp kbptr key keyl else strncmp kbptr key keyl) =? 0))
      then Some (1, bi', [])
      else Some (0, bi', take (Z.to_nat ekl) kbptr)
  end.

Definition getIndexRecord (bi : BlobIndex) : option (Z * BlobIndex * bytes) :=
  getIndexRecordCase bi [] 0 false.

(** Every record is at least one byte long, so [dSize] rounds are enough. *)
Fixpoint locateLoop (fuel : nat) (bi : BlobIndex) (key : bytes) (ignorecase : bool)
  : option (bool * BlobIndex) :=
  match fuel with
  | O => None
  | S fuel =>
      if next bi <? dSize bi then
        '(loc, bi', _) ← getIndexRecordCase bi key (strlen key) ignorecase;
        if loc <? 0 then Some (false, bi')
        else if loc =? 0 then Some (true, bi')
        else locateLoop fuel bi' key ignorecase
      else Some (false, bi)
  end.

Definition indxLocateCase (bi : BlobIndex) (key : bytes) (ignorecase : bool) :=
  locateLoop (S (length (index bi))) (set_next bi 0) key ignorecase.

Definition indxLocate (bi : BlobIndex) (key : bytes) := indxLocateCase bi key false.

(** [fseek] and [fread] of a blob that lies inside the file. *)
Definition read_at (content : bytes) (ofs n : Z) : option bytes :=
  if (0 <=? ofs) && (0 <=? n) && (ofs + n <=? strlen content)
  then Some (take (Z.to_nat n) (drop (Z.to_nat ofs) content)) else None.

(** The blob and its key, or the null pointer at the end. *)
Definition getFirst (fs : files) (bi : BlobIndex)
  : option (option (bytes * bytes) * BlobIndex) :=
  '(rc, bi, key) ← getIndexRecord (set_next bi 0);
  if rc =? 0 then
    match fs !! fnd bi with
    | None => Some (None, bi)
    | Some content =>
        buf ← read_at content (bofs bi) (blen bi);
        Some (Some (key, buf), set_fd bi (Some content))
    end
  else Some (None, bi).

Definition getNext (bi : BlobIndex) : option (option (bytes * bytes) * BlobIndex) :=
  '(rc, bi, key) ← getIndexRecord bi;
  content ← fd bi;
  if rc =? 0 then
    buf ← read_at content (bofs bi) (blen bi);
    Some (Some (key, buf), bi)
  else Some (None, set_fd bi None).

(** The loop over [getFirst] and [getNext] of the enumerations in
    internalProvider.c: every record is at least a byte long. *)
Fixpoint collect (fuel : nat) (r : option (option (bytes * bytes) * BlobIndex))
  : option (list (bytes * bytes)) :=
  match fuel with
  | O => None
  | S fuel =>
      '(found, bi) ← r;
      match found with
      | None => Some []
      | Some e => l ← collect fuel (getNext bi); Some (e :: l)
      end
  end.

Definition enumerate (fs : files) (bi : BlobIndex) : option (list (bytes * bytes)) :=
  collect (S (length (index bi))) (getFirst fs bi).

(** ** Rebuilding *)

(** [for (p = ...; *p != ' '; p--) if ( *p == '\r') r = p;] *)
Fixpoint scanBack (ix : bytes) (p : nat) (r : option nat) : option (nat * option nat) :=
  match ix !! p with
  | None => None
  | Some b =>
      if b =? 32 then Some (p, r)
      else
        let r := if b =? 13 then Some p else r in
        match p with O => None | S p' => scanBack ix p' r end
  end.

(** The offset of the record at [dp] is rewritten in place, right-aligned in the
    field [p, r) by way of a buffer of 32 bytes; [l] is the record length. *)
Definition adjustRecord (ix : bytes) (dp l adj : Z) (r : option nat) : option (bytes * option nat) :=
  if dp + l - 2 <? 0 then None else
  '(p, r) ← scanBack ix (Z.to_nat (dp + l - 2)) r;
  rp ← r;
  let p := S p in
  if (rp <? p)%nat then None else
  let w := (rp - p)%nat in
  let o := atoi (drop p ix) - adj in
  let ds := print_dec o in
  if (32 <? w + length ds + 1)%nat then None else
  let str := replicate w 32 ++ ds in
  Some (take p ix ++ take w (drop (length ds) str) ++ drop (p + w) ix, r).

Fixpoint adjustLoop (fuel : nat) (ix : bytes) (dp adj : Z) (r : option nat) : option bytes :=
  match fuel with
  | O => None
  | S fuel =>
      if dp <? strlen ix then
        let l := atoi (drop (Z.to_nat dp) ix) in
        '(ix', r') ← adjustRecord ix dp l adj r;
        adjustLoop fuel ix' (dp + l) adj r'
      else Some ix
  end.

(** [None] also when the record lengths are not positive and the loop stays. *)
Definition adjust (ix : bytes) (pos adj : Z) : option bytes :=
  adjustLoop (S (length ix)) ix pos adj None.

(** ** The directory of the repository *)

(** The static [repfn]: set once, from the option or from the configuration. *)
Definition useAlternateRepository (inAltRepos : bytes) : option bytes := Some inAltRepos.

Definition getRepDir (repfn registrationDir : option bytes) : bytes * option bytes :=
  match repfn with
  | Some d => (d, repfn)
  | None =>
      let dir := default (cstr "/var/lib/sfcb/registration") registrationDir in
      let d := dir ++ cstr "/" ++ BASE ++ cstr "/" in
      (d, Some d)
  end.

(** [is_dir]: [opendir] succeeds. *)
Definition existingNameSpace (is_dir : bytes -> bool) (repDir ns : bytes) : bool :=
  is_dir (repDir ++ (tolower <$> ns)).

Section Repository.
Context (creatable : bytes -> bool).

Definition can_write (fs : files) (p : bytes) : bool :=
  bool_decide (is_Some (fs !! p)) || creatable p.

(** The last steps of [rebuild]: the temporary file becomes the file, or neither stays. *)
Definition replace_file (fs : files) (tmp target content : bytes) (n : Z) : files :=
  if n =? 0 then delete tmp (delete target fs)
  else <[target := content]> (delete tmp fs).

(** Both new files are written under temporary names; when one of these is the
    name of the data file, that file is truncated while it is read, which is
    not followed further. *)
Definition rebuild (fs : files) (bi : BlobIndex) (blob : bytes) : option (Z * files) :=
  let xn := dir bi ++ cstr "idx" in
  let dn := dir bi ++ cstr "inst" in
  if negb (can_write fs xn && can_write fs dn) then None else
  if bool_decide (fnd bi = xn \/ fnd bi = dn) then None else
  content ← fd bi;
  let dlen := strlen content in
  part1 ← read_at content 0 (bofs bi);
  part2 ← read_at content (bofs bi + blen bi) (dlen - (bofs bi + blen bi));
  let data := part1 ++ part2 ++ blob in
  ix ← adjust (index bi) (pos bi) (blen bi);
  let ofs := pos bi + len bi in
  ixa ← read_at ix 0 (pos bi);
  ixb ← read_at ix ofs (strlen ix - ofs);
  let fs := replace_file fs dn (fnd bi) data (strlen data) in
  let fs := replace_file fs xn (fnx bi) (ixa ++ ixb) (strlen (ixa ++ ixb)) in
  Some (0, fs).

(** ** Operations *)

Context (repDir : bytes).

(** The record as [getIndex] fills it. *)
Definition newIndex (ns cls : bytes) (opened : bool) (ix : bytes) : BlobIndex :=
  let dir := repDir ++ (tolower <$> ns ++ cstr "/") in
  let fnd := dir ++ (tolower <$> cls) in
  {| fnx := fnd ++ cstr ".idx"; fnd := fnd; dir := dir; fx_open := opened; fd := None;
     index := ix; pos := 0; len := 0; blen := 0; bofs := 0; next := 0 |}.

Definition getIndex (fs : files) (ns cls : bytes) (mki : bool) : option BlobIndex * files :=
  let x := fnx (newIndex ns cls false []) in
  match fs !! x with
  | Some content => (Some (newIndex ns cls true content), fs)
  | None =>
      if mki then
        if creatable x then (Some (newIndex ns cls true []), <[x := []]> fs)
        else (Some (newIndex ns cls false []), fs)
      else (None, fs)
  end.

(** The text of an index record: the record length is printed over the four
    leading spaces, and the byte after its digits becomes a space.  [bufsize]
    is the size of the buffer it is printed into and of the room in the index. *)
Definition indexEntry (bufsize : Z) (id : bytes) (len ofs : Z) : option bytes :=
  let idxe := cstr "    " ++ print_dec (strlen id) ++ cstr " " ++ id ++ cstr " "
              ++ print_dec len ++ cstr " " ++ print_dec ofs ++ [13; 10] in
  let es := strlen idxe in
  let ep := print_dec es in
  if bufsize <? es + 1 then None
  else Some (ep ++ 32 :: drop (S (length ep)) idxe).

(** [fwrite] of [n] items of one blob each is 1 - or 0 when the blob is empty. *)
Definition write_rc (blob : bytes) : Z := match blob with [] => -1 | _ => 0 end.

Definition addBlob (fs : files) (ns cls id blob : bytes) : option (Z * files) :=
  let keyl := strlen ns + strlen cls + strlen id + strlen BASE in
  let room := keyl + 64 in
  let '(bi, fs) := getIndex fs ns cls true in
  match bi with
  | None => Some (1, fs)
  | Some bi =>
      if dSize bi =? 0 then
        if negb (can_write fs (fnd bi)) then Some (-1, fs) else
        let fs := <[fnd bi := blob]> fs in
        if write_rc blob =? -1 then Some (-1, fs) else
        e ← indexEntry room id (strlen blob) 0;
        if negb (fx_open bi) then None else
        Some (0, <[fnx bi := e]> fs)
      else
        '(found, bi) ← indxLocate bi id;
        if (found : bool) then
          match fs !! fnd bi with
          | None => Some (-1, fs)
          | Some content =>
              e ← indexEntry room id (strlen blob) (strlen content);
              let bi := set_index (set_fd bi (Some content)) (index bi ++ e) in
              rebuild fs bi blob
          end
        else
          let old := fs !! fnd bi in
          if negb (can_write fs (fnd bi)) then None else
          let content := default [] old in
          let fs := <[fnd bi := content ++ blob]> fs in
          if write_rc blob =? -1 then Some (-1, fs) else
          e ← indexEntry room id (strlen blob) (strlen content);
          Some (0, <[fnx bi := index bi ++ e]> fs)
  end.

Definition deleteBlob (fs : files) (ns cls id : bytes) : option (Z * files) :=
  let '(bi, fs) := getIndex fs ns cls false in
  match bi with
  | None => Some (1, fs)
  | Some bi =>
      '(found, bi) ← indxLocate bi id;
      if (found : bool) then
        match fs !! fnd bi with
        | None => Some (-1, fs)
        | Some content => rebuild fs (set_fd bi (Some content)) []
        end
      else Some (1, fs)
  end.

Definition existingBlob (fs : files) (ns cls id : bytes) : option bool :=
  match fst (getIndex fs ns cls false) with
  | None => Some false
  | Some bi => fst <$> indxLocate bi id
  end.

(** [Some None]: the null pointer.  A missing data file ends the process. *)
Definition getBlob (fs : files) (ns cls id : bytes) : option (option bytes) :=
  let ignorecase := strcmp (cstr "qualifiers") cls =? 0 in
  match fst (getIndex fs ns cls false) with
  | None => Some None
  | Some bi =>
      '(found, bi) ← indxLocateCase bi id ignorecase;
      if (found : bool) then
        content ← fs !! fnd bi;
        buf ← read_at content (bofs bi) (blen bi);
        Some (Some buf)
      else Some None
  end.

End Repository.

(** * Specification: an ordered list of blobs with their keys *)

Definition entry : Type := bytes * bytes.
Implicit Types (es : list entry).

Definition data_of es : bytes := concat (snd <$> es).
Definition size_of es : Z := strlen (data_of es).

(** Keys the record format can hold. *)
Definition valid_id (id : bytes) : Prop := id <> [] /\ is_delim (at0 id) = false.

(** One record: the offset may be preceded by any number of spaces. *)
Definition record_bytes (es : Z) (id : bytes) (blen ofs : Z) (k : nat) : bytes :=
  print_dec es ++ replicate (4 - length (print_dec es)) 32 ++ print_dec (strlen id) ++ [32]
  ++ id ++ [32] ++ print_dec blen ++ 32 :: replicate k 32 ++ print_dec ofs ++ [13; 10].

Definition is_record (id : bytes) (blen ofs : Z) (r : bytes) : Prop :=
  valid_id id /\ 0 < blen /\ 0 <= ofs /\ ofs + blen < 2 ^ 31 /\ strlen r < 1000 /\
  exists k, r = record_bytes (strlen r) id blen ofs k.

(** The records of consecutive blobs from offset [ofs] on. *)
Inductive records : Z -> list entry -> bytes -> Prop :=
| records_nil ofs : records ofs [] []
| records_cons ofs id blob es r rs :
    is_record id (strlen blob) ofs r -> records (ofs + strlen blob) es rs ->
    records ofs ((id, blob) :: es) (r ++ rs).

(** ** Fields *)

Lemma isdigit_bounds d : 48 <= d <= 57 -> is_delim d = false.
Proof. intros. unfold is_delim. apply orb_false_iff. split; apply Z.eqb_neq; lia. Qed.

Lemma print_dec_digits v : 0 <= v ->
  Forall (fun d => 48 <= d <= 57) (print_dec v) /\ print_dec v <> [].
Proof. intros Hv. destruct (print_dec_ok v Hv) as (_ & ? & ?). done. Qed.

Lemma print_dec_pos v : 0 <= v -> 1 <= strlen (print_dec v).
Proof. intros Hv. destruct (print_dec_digits v Hv) as [_ H]. apply strlen_nonempty in H. lia. Qed.

Lemma skip_delims_spaces k s : is_delim (at0 s) = false -> skip_delims (replicate k 32 ++ s) = s.
Proof.
  intros H. unfold skip_delims. rewrite strspn_app; [|by apply Forall_replicate|by right].
  by rewrite drop_app_length.
Qed.

(** A number between spaces and something that is not a digit. *)
Lemma scan_field_print k v rest :
  0 <= v < 2 ^ 31 -> isdigit (at0 rest) = false ->
  scan_field (replicate k 32 ++ print_dec v ++ rest) = Some (v, rest).
Proof.
  intros Hv Hr. destruct (print_dec_digits v) as [Hd Hn]; [lia|].
  unfold scan_field. rewrite skip_delims_spaces.
  - rewrite strspn_app; [|eapply Forall_impl; [exact Hd|]; intros; by apply isdigit_true|by right].
    rewrite atoi_print by done. destruct (length (print_dec v)) as [|n] eqn:E.
    + by destruct (print_dec v).
    + f_equal. f_equal. rewrite <- E. by rewrite drop_app_length.
  - destruct (print_dec v) as [|d ds]; [done|]. simpl. apply isdigit_bounds.
    by inversion Hd.
Qed.

Lemma scan_field_print' v rest :
  0 <= v < 2 ^ 31 -> isdigit (at0 rest) = false ->
  scan_field (print_dec v ++ rest) = Some (v, rest).
Proof. intros. by rewrite <- (scan_field_print 0 v rest). Qed.

Lemma is_record_length id blen ofs r : is_record id blen ofs r ->
  strlen id + 11 <= strlen r.
Proof.
  intros (_ & Hb & Ho & _ & _ & k & Hr).
  pose proof (print_dec_pos (strlen id) (strlen_nonneg _)) as H1.
  pose proof (print_dec_pos blen ltac:(lia)) as H2. pose proof (print_dec_pos ofs Ho) as H3.
  apply (f_equal strlen) in Hr. revert Hr. generalize (strlen r) at 2. intros n ->.
  unfold record_bytes. autorewrite with strlen.
  assert (4 <= strlen (print_dec n) + Z.of_nat (4 - length (print_dec n))) by (unfold strlen; lia).
  lia.
Qed.

(** ** Parsing a record *)

Lemma parse_record_ok id blen ofs r rest :
  is_record id blen ofs r ->
  exists tail, parse_record (r ++ rest) = Some (Some (strlen r, strlen id, blen, ofs, id ++ tail)).
Proof.
  intros Hrec. pose proof (is_record_length _ _ _ _ Hrec) as Hlen.
  destruct Hrec as ([Hne Hdl] & Hb & Ho & Hob & Hlt & k & Hr).
  pose proof (strlen_nonempty id Hne) as Hid. pose proof (strlen_nonneg r) as Hr0.
  remember (strlen r) as es eqn:Hes. clear Hes. subst r.
  assert (Hj : (4 - length (print_dec es))%nat <> O).
  { pose proof (print_dec_length_lt es 3 ltac:(lia) ltac:(lia)) as H. unfold strlen in H. lia. }
  destruct (4 - length (print_dec es))%nat as [|j] eqn:Ej; [done|]. clear Hj.
  set (tail := [32] ++ print_dec blen ++ replicate (S k) 32 ++ print_dec ofs ++ 13 :: 10 :: rest).
  exists tail.
  assert (E : record_bytes es id blen ofs k ++ rest
    = print_dec es ++ replicate (S j) 32 ++ print_dec (strlen id) ++ replicate 1 32 ++ id ++ tail).
  { unfold record_bytes, tail. rewrite Ej, <- !app_assoc. cbn [replicate app].
    rewrite <- !app_assoc. done. }
  rewrite E. unfold parse_record.
  rewrite (scan_field_print' es) by (done || lia).
  rewrite (proj2 (Z.leb_gt _ _)) by lia.
  rewrite (scan_field_print (S j) (strlen id)) by (done || lia).
  rewrite (proj2 (Z.leb_gt _ _)) by lia.
  rewrite skip_delims_spaces by (by destruct id).
  rewrite (proj2 (Z.ltb_ge _ _)) by (autorewrite with strlen; pose proof (strlen_nonneg tail); lia).
  rewrite drop_strlen. unfold tail at 1.
  change ([32] ++ print_dec blen ++ ?x) with (replicate 1 32 ++ print_dec blen ++ x).
  rewrite (scan_field_print 1 blen) by (done || lia).
  rewrite (proj2 (Z.leb_gt _ _)) by lia.
  rewrite (scan_field_print (S k) ofs) by (done || lia).
  by rewrite (proj2 (Z.ltb_ge _ _)) by lia.
Qed.

(** ** Locating a key *)

Definition key_matches (ic : bool) (key id : bytes) : bool :=
  if ic then bool_decide (tolower <$> id = tolower <$> key) else bool_decide (id = key).

Lemma key_test (ic : bool) (key id tail : bytes) :
  (negb (strlen key =? strlen id) ||
   negb ((if ic then strncasecmp (id ++ tail) key (strlen key)
          else strncmp (id ++ tail) key (strlen key)) =? 0))
  = negb (key_matches ic key id).
Proof.
  unfold key_matches. destruct (Z.eqb_spec (strlen key) (strlen id)) as [E|E]; simpl.
  - f_equal. unfold strncasecmp, strncmp, strcasecmp. rewrite take_strlen_self, E, take_strlen.
    apply Bool.eq_iff_eq_true. destruct ic;
      by rewrite Z.eqb_eq, strcmp_eq, bool_decide_eq_true.
  - symmetry. apply negb_true_iff. destruct ic; apply bool_decide_eq_false; intros H.
    + apply E. apply (f_equal length) in H. rewrite !length_fmap in H. unfold strlen. lia.
    + by subst.
Qed.

(** The record at [next], and what is left after it. *)
Lemma getIndexRecordCase_ok bi (pre id : bytes) bl o (r rest key : bytes) ic :
  index bi = pre ++ r ++ rest -> next bi = strlen pre -> strlen (index bi) < 2 ^ 31 ->
  is_record id bl o r ->
  exists k, getIndexRecordCase bi key (strlen key) ic
    = Some (if (0 <? strlen key) && negb (key_matches ic key id) then (1, k, [])
            else (0, k, id)) /\ k = set_record bi (strlen pre) (strlen r) bl o.
Proof.
  intros Hix Hn Hlt Hrec. pose proof (is_record_length _ _ _ _ Hrec) as Hl.
  pose proof (strlen_nonneg id). pose proof (strlen_nonneg rest).
  pose proof (strlen_nonneg pre).
  unfold getIndexRecordCase. unfold dSize. rewrite Hix, Hn in *. autorewrite with strlen in Hlt |- *.
  rewrite (proj2 (Z.leb_gt _ _)) by lia. rewrite drop_strlen.
  destruct (parse_record_ok _ _ _ _ rest Hrec) as [tail ->]. cbn [mbind option_bind].
  rewrite (proj2 (Z.leb_gt _ _)) by lia. rewrite key_test, take_strlen.
  eexists. split; [|done]. by destruct (_ && _).
Qed.

Definition same_file (a b : BlobIndex) : Prop :=
  fnx a = fnx b /\ fnd a = fnd b /\ dir a = dir b /\ fx_open a = fx_open b /\
  fd a = fd b /\ index a = index b.

Lemma size_of_cons id blob es : size_of ((id, blob) :: es) = strlen blob + size_of es.
Proof. unfold size_of, data_of. rewrite fmap_cons. cbn [concat]. by rewrite strlen_app. Qed.

Lemma size_of_nonneg es : 0 <= size_of es.
Proof. apply strlen_nonneg. Qed.

Lemma data_of_app es1 es2 : data_of (es1 ++ es2) = data_of es1 ++ data_of es2.
Proof. unfold data_of. by rewrite fmap_app, concat_app. Qed.

Lemma size_of_app es1 es2 : size_of (es1 ++ es2) = size_of es1 + size_of es2.
Proof. unfold size_of. by rewrite data_of_app, strlen_app. Qed.

Lemma records_join o es1 rs1 es2 rs2 :
  records o es1 rs1 -> records (o + size_of es1) es2 rs2 -> records o (es1 ++ es2) (rs1 ++ rs2).
Proof.
  induction 1 as [o|o id blob es r rs Hr _ IH]; intros H2; simpl.
  - by rewrite Z.add_0_r in H2.
  - rewrite <- app_assoc. constructor; [done|]. apply IH.
    by rewrite size_of_cons, Z.add_assoc in H2.
Qed.

(** Where the first matching record of an index is. *)
Definition located (ic : bool) (key : bytes) (o : Z) es (rs : bytes)
    es1 (id blob : bytes) es2 (rs1 r rs2 : bytes) : Prop :=
  es = es1 ++ (id, blob) :: es2 /\ rs = rs1 ++ r ++ rs2 /\
  Forall (fun e => key_matches ic key e.1 = false) es1 /\ key_matches ic key id = true /\
  records o es1 rs1 /\ is_record id (strlen blob) (o + size_of es1) r /\
  records (o + size_of es1 + strlen blob) es2 rs2.

Definition at_record (bi : BlobIndex) (p : Z) (id blob : bytes) (o : Z) (r : bytes) : Prop :=
  pos bi = p /\ len bi = strlen r /\ blen bi = strlen blob /\ bofs bi = o.

Lemma locateLoop_ok fuel es o pre rs bi key ic :
  records o es rs -> index bi = pre ++ rs -> next bi = strlen pre ->
  strlen (index bi) < 2 ^ 31 -> key <> [] -> (length rs < fuel)%nat ->
  exists found bi', locateLoop fuel bi key ic = Some (found, bi') /\ same_file bi' bi /\
    if found then
      exists es1 id blob es2 rs1 r rs2, located ic key o es rs es1 id blob es2 rs1 r rs2 /\
        at_record bi' (strlen pre + strlen rs1) id blob (o + size_of es1) r
    else Forall (fun e => key_matches ic key e.1 = false) es.
Proof.
  intros Hrs. revert fuel pre bi.
  induction Hrs as [o|o id blob es r rs Hr Hrs IH]; intros fuel pre bi Hix Hn Hlt Hk Hf;
    destruct fuel as [|fuel]; try lia; cbn [locateLoop].
  - assert (E : (next bi <? dSize bi) = false)
      by (unfold dSize; rewrite Hix, app_nil_r, Hn; apply Z.ltb_irrefl).
    rewrite E. by exists false, bi.
  - pose proof (is_record_length _ _ _ _ Hr) as Hl. pose proof (strlen_nonneg id).
    pose proof (strlen_nonneg rs).
    assert (E : (next bi <? dSize bi) = true)
      by (unfold dSize; rewrite Hix, Hn; autorewrite with strlen; apply Z.ltb_lt; lia).
    rewrite E. clear E.
    destruct (getIndexRecordCase_ok bi pre id _ _ r rs key ic Hix Hn Hlt Hr) as (k & -> & Hkd).
    pose proof (strlen_nonempty key Hk) as Hkp. rewrite (proj2 (Z.ltb_lt 0 _) Hkp).
    assert (Hsf : same_file k bi) by (by subst k).
    destruct (key_matches ic key id) eqn:Hm; cbn -[locateLoop is_record].
    + exists true, k. split_and!; [done|done|].
      exists [], id, blob, es, [], r, rs. unfold located, at_record.
      change (size_of []) with 0. rewrite strlen_nil, !Z.add_0_r. subst k.
      split_and!; done || constructor.
    + destruct (IH fuel (pre ++ r) k) as (found & bi' & -> & Hs' & Hres).
      * destruct Hsf as (_ & _ & _ & _ & _ & ->). by rewrite <- app_assoc.
      * subst k. simpl. rewrite Hn. by rewrite strlen_app.
      * by destruct Hsf as (_ & _ & _ & _ & _ & ->).
      * done.
      * rewrite length_app in Hf. unfold strlen in Hl. lia.
      * exists found, bi'. split; [done|]. split.
        { unfold same_file in *. intuition congruence. }
        destruct found; [|by constructor].
        destruct Hres as (es1 & id' & blob' & es2 & rs1 & r' & rs2 & (-> & -> & H1 & H2 & H3 & H4 & H5) & H6).
        exists ((id, blob) :: es1), id', blob', es2, (r ++ rs1), r', rs2.
        unfold located. rewrite <- app_assoc, size_of_cons, !Z.add_assoc, strlen_app.
        rewrite strlen_app, <- Z.add_assoc, (Z.add_comm (strlen r)), Z.add_assoc in H6.
        rewrite (Z.add_comm (strlen r)), Z.add_assoc.
        split_and!; try done; by constructor.
Qed.

Lemma indxLocateCase_ok es rs bi key ic :
  records 0 es rs -> index bi = rs -> strlen rs < 2 ^ 31 -> key <> [] ->
  exists found bi', indxLocateCase bi key ic = Some (found, bi') /\ same_file bi' bi /\
    if found then
      exists es1 id blob es2 rs1 r rs2, located ic key 0 es rs es1 id blob es2 rs1 r rs2 /\
        at_record bi' (strlen rs1) id blob (size_of es1) r
    else Forall (fun e => key_matches ic key e.1 = false) es.
Proof.
  intros Hrs Hix Hlt Hk. subst rs.
  apply (locateLoop_ok (S (length (index bi))) es 0 [] _ (set_next bi 0)); try done; simpl; lia.
Qed.

(** ** Adjusting offsets *)

Lemma scanBack_digits (ds A B : bytes) r :
  Forall (fun d => 48 <= d <= 57) ds ->
  scanBack (A ++ 32 :: ds ++ B) (length A + length ds) r = Some (length A, r).
Proof.
  revert B r. induction ds as [|d ds IH] using rev_ind; intros B r Hd.
  - rewrite Nat.add_0_r. destruct (length A) eqn:E; cbn [scanBack];
      rewrite <- E, list_lookup_middle by done; by rewrite Z.eqb_refl.
  - apply Forall_app in Hd as [Hd Hd1]. apply Forall_inv in Hd1.
    rewrite length_app. simpl. rewrite Nat.add_1_r, Nat.add_succ_r. cbn [scanBack].
    assert (E : (A ++ 32 :: (ds ++ [d]) ++ B) !! S (length A + length ds) = Some d).
    { rewrite <- app_assoc. change (A ++ 32 :: ds ++ [d] ++ B) with (A ++ (32 :: ds) ++ d :: B).
      rewrite app_assoc. apply list_lookup_middle. rewrite length_app. simpl. lia. }
    rewrite E. rewrite (proj2 (Z.eqb_neq d 32)), (proj2 (Z.eqb_neq d 13)) by lia.
    rewrite <- app_assoc. by apply IH.
Qed.

Lemma replicate_cons_comm n (b : Z) s : b :: replicate n b ++ s = replicate n b ++ b :: s.
Proof. induction n as [|n IH]; [done|]. simpl. by rewrite IH. Qed.

(** The offset field of a record, from the space before it. *)
Lemma record_bytes_split n id bl o k :
  record_bytes n id bl o k
  = (print_dec n ++ replicate (4 - length (print_dec n)) 32 ++ print_dec (strlen id) ++ [32]
     ++ id ++ [32] ++ print_dec bl ++ replicate k 32) ++ 32 :: print_dec o ++ [13; 10].
Proof.
  unfold record_bytes. rewrite <- !app_assoc. do 7 f_equal.
  rewrite app_comm_cons, app_comm_cons. change (32 :: replicate k 32) with (replicate (S k) 32).
  rewrite replicate_S_end, <- app_assoc. done.
Qed.

(** What is written over a field of [w] bytes holding [o]. *)
Definition new_field (w : nat) (o : Z) : bytes :=
  take w (drop (length (print_dec o)) (replicate w 32 ++ print_dec o)).

Lemma new_field_length w o : length (new_field w o) = w.
Proof. unfold new_field. rewrite length_take, length_drop, length_app, length_replicate. lia. Qed.

Lemma new_field_fits w o : (length (print_dec o) <= w)%nat ->
  new_field w o = replicate (w - length (print_dec o)) 32 ++ print_dec o.
Proof.
  intros H. unfold new_field. rewrite drop_app_le, drop_replicate by (rewrite length_replicate; lia).
  apply take_ge. rewrite length_app, length_replicate. lia.
Qed.

Lemma print_dec_length_any v : - 10 ^ 10 < v < 10 ^ 10 -> (length (print_dec v) <= 11)%nat.
Proof.
  intros Hv. destruct (decide (0 <= v)) as [Hp|Hn].
  - pose proof (print_dec_length_lt v 10 ltac:(lia) ltac:(lia)) as H. unfold strlen in H. lia.
  - pose proof (print_dec_length_lt (- v) 10 ltac:(lia) ltac:(lia)) as H. revert H.
    unfold print_dec, strlen. rewrite (proj2 (Z.ltb_lt v 0)), (proj2 (Z.ltb_ge (- v) 0)) by lia.
    simpl. lia.
Qed.

(** Writing the field leaves a record; it is the same one with the new offset
    when the offset does not get negative. *)
Lemma new_field_record id bl o adj r :
  is_record id bl o r -> 0 <= adj ->
  exists hd, r = hd ++ 32 :: print_dec o ++ [13; 10] /\
    (adj <= o ->
     is_record id bl (o - adj)
       (hd ++ 32 :: new_field (length (print_dec o)) (o - adj) ++ [13; 10])).
Proof.
  intros (Hv & Hb & Ho & Hob & Hlt & k & Hr) Ha.
  set (hd := print_dec (strlen r) ++ replicate (4 - length (print_dec (strlen r))) 32
     ++ print_dec (strlen id) ++ [32] ++ id ++ [32] ++ print_dec bl ++ replicate k 32).
  exists hd. assert (E : r = hd ++ 32 :: print_dec o ++ [13; 10])
    by (rewrite Hr at 1; apply record_bytes_split).
  split; [done|]. intros Hle.
  pose proof (print_dec_length_mono (o - adj) o ltac:(lia)) as Hm. unfold strlen in Hm.
  set (r' := hd ++ _).
  assert (El : strlen r' = strlen r).
  { rewrite E. unfold r', strlen. rewrite !length_app. simpl. rewrite !length_app, new_field_length. done. }
  split_and!; try done; try lia. rewrite El.
  exists (k + (length (print_dec o) - length (print_dec (o - adj))))%nat.
  rewrite record_bytes_split. unfold r', hd.
  rewrite new_field_fits by lia. rewrite replicate_add, <- !app_assoc. do 8 f_equal.
  rewrite replicate_cons_comm. done.
Qed.

Lemma adjustRecord_ok (pre post : bytes) id bl o r adj rr :
  is_record id bl o r -> 0 <= adj < 2 ^ 31 ->
  exists r' rr', adjustRecord (pre ++ r ++ post) (strlen pre) (strlen r) adj rr
      = Some (pre ++ r' ++ post, rr') /\ strlen r' = strlen r /\
    (adj <= o -> is_record id bl (o - adj) r').
Proof.
  intros Hrec Ha. destruct (new_field_record id bl o adj r Hrec ltac:(lia)) as (hd & Er & Hnew).
  destruct Hrec as (_ & Hb & Ho & Hob & _). destruct (print_dec_digits o Ho) as [Hd Hne].
  set (ds := print_dec o) in *. set (w := length ds).
  exists (hd ++ 32 :: new_field w (o - adj) ++ [13; 10]), (Some (length pre + length hd + S w)%nat).
  assert (El : strlen r = strlen hd + 3 + Z.of_nat w)
    by (rewrite Er; autorewrite with strlen; unfold strlen, w; lia).
  assert (Hw : (w <= 10)%nat).
  { pose proof (print_dec_length_lt o 10 ltac:(lia) ltac:(lia)) as H. unfold strlen in H.
    unfold w, ds. lia. }
  assert (Hn : (length (print_dec (o - adj)) <= 11)%nat) by (apply print_dec_length_any; lia).
  split_and!.
  - unfold adjustRecord. pose proof (strlen_nonneg pre). pose proof (strlen_nonneg hd).
    rewrite (proj2 (Z.ltb_ge _ _)) by lia.
    replace (Z.to_nat (strlen pre + strlen r - 2)) with (S (length (pre ++ hd) + length ds))
      by (rewrite length_app; fold w; unfold strlen in *; lia).
    assert (Ex : pre ++ r ++ post = (pre ++ hd) ++ 32 :: ds ++ 13 :: 10 :: post)
      by (rewrite Er, <- !app_assoc; cbn [app]; by rewrite <- !app_assoc).
    rewrite Ex. cbn [scanBack].
    assert (E13 : ((pre ++ hd) ++ 32 :: ds ++ 13 :: 10 :: post) !! S (length (pre ++ hd) + length ds)
                  = Some 13).
    { rewrite app_comm_cons, app_assoc. apply list_lookup_middle. rewrite !length_app. simpl. lia. }
    rewrite E13. cbn [Z.eqb Pos.eqb]. rewrite scanBack_digits by done. cbn [mbind option_bind].
    fold w. rewrite (proj2 (Nat.ltb_ge _ _)) by lia.
    replace (S (length (pre ++ hd) + w) - S (length (pre ++ hd)))%nat with w by lia.
    assert (Ed : drop (S (length (pre ++ hd))) ((pre ++ hd) ++ 32 :: ds ++ 13 :: 10 :: post)
                 = ds ++ 13 :: 10 :: post)
      by (rewrite cons_middle, app_assoc; apply drop_app_length'; rewrite !length_app; simpl; lia).
    assert (Eo : atoi (ds ++ 13 :: 10 :: post) = o) by (apply atoi_print; [lia|done]).
    rewrite Ed, Eo.
    rewrite (proj2 (Nat.ltb_ge _ _)) by lia. fold (new_field w (o - adj)).
    do 2 f_equal; [|do 3 f_equal; rewrite !length_app; lia].
    assert (Ex2 : (pre ++ hd) ++ 32 :: ds ++ 13 :: 10 :: post
                  = ((pre ++ hd) ++ [32]) ++ ds ++ 13 :: 10 :: post)
      by (by rewrite <- (app_assoc (pre ++ hd) [32])).
    assert (El2 : S (length (pre ++ hd)) = length ((pre ++ hd) ++ [32]))
      by (rewrite (length_app _ [32]); simpl; lia).
    rewrite Ex2, El2. rewrite take_app_length, <- drop_drop, drop_app_length.
    unfold w. rewrite drop_app_length, <- !app_assoc. cbn [app]. by rewrite <- !app_assoc.
  - rewrite El. autorewrite with strlen. unfold strlen at 2. rewrite new_field_length. lia.
  - exact Hnew.
Qed.

Lemma atoi_record (pre post : bytes) id bl o r : is_record id bl o r ->
  atoi (drop (Z.to_nat (strlen pre)) (pre ++ r ++ post)) = strlen r.
Proof.
  intros (_ & _ & _ & _ & Hlt & k & Hr). pose proof (strlen_nonneg r) as H0.
  rewrite drop_strlen. remember (strlen r) as n eqn:E. clear E. subst r.
  unfold record_bytes. rewrite <- app_assoc. apply atoi_print; [lia|].
  pose proof (print_dec_length_lt n 3 ltac:(lia) ltac:(lia)) as H. unfold strlen in H.
  by destruct (4 - length (print_dec n))%nat eqn:?; [lia|].
Qed.

Lemma adjustLoop_ok fuel es o (pre rs : bytes) adj rr :
  records o es rs -> 0 <= adj <= o -> adj < 2 ^ 31 -> (length rs < fuel)%nat ->
  exists rs', adjustLoop fuel (pre ++ rs) (strlen pre) adj rr = Some (pre ++ rs') /\
    records (o - adj) es rs' /\ strlen rs' = strlen rs.
Proof.
  intros Hrs. revert fuel pre rr.
  induction Hrs as [o|o id blob es r rs Hr Hrs IH]; intros fuel pre rr Ha Hb Hf;
    destruct fuel as [|fuel]; try lia; cbn [adjustLoop].
  - rewrite app_nil_r, Z.ltb_irrefl. exists []. rewrite app_nil_r. split_and!; done || constructor.
  - pose proof (is_record_length _ _ _ _ Hr) as Hl. pose proof (strlen_nonneg id).
    pose proof (strlen_nonneg rs). pose proof (strlen_nonneg blob).
    rewrite (proj2 (Z.ltb_lt _ _)) by (autorewrite with strlen; lia).
    rewrite (atoi_record pre rs _ _ _ _ Hr).
    destruct (adjustRecord_ok pre rs id _ o r adj rr Hr ltac:(lia)) as (r' & rr' & -> & Hlen & Hr').
    cbn [mbind option_bind]. rewrite <- Hlen, <- strlen_app, app_assoc.
    destruct (IH fuel (pre ++ r') rr') as (rs' & -> & Hrs' & Hlen'); [lia|lia| |].
    { rewrite length_app in Hf. unfold strlen in *. lia. }
    exists (r' ++ rs'). rewrite app_assoc. split_and!; [done| |by rewrite !strlen_app; lia].
    constructor; [apply Hr'; lia|].
    by replace (o - adj + strlen blob) with (o + strlen blob - adj) by lia.
Qed.

(** The record of the blob to drop and all after it. *)
Lemma adjust_ok es o (pre r rs : bytes) id blob :
  is_record id (strlen blob) o r -> records (o + strlen blob) es rs ->
  exists r' rs', adjust (pre ++ r ++ rs) (strlen pre) (strlen blob) = Some (pre ++ r' ++ rs') /\
    strlen r' = strlen r /\ records o es rs' /\ strlen rs' = strlen rs.
Proof.
  intros Hr Hrs. unfold adjust. pose proof (is_record_length _ _ _ _ Hr) as Hl.
  pose proof (strlen_nonneg id). pose proof (strlen_nonneg rs). pose proof (strlen_nonneg blob).
  assert (Hob : 0 <= o /\ o + strlen blob < 2 ^ 31) by (destruct Hr as (_ & _ & ? & ? & _); lia).
  cbn [adjustLoop]. rewrite (proj2 (Z.ltb_lt _ _)) by (autorewrite with strlen; lia).
  rewrite (atoi_record pre rs _ _ _ _ Hr).
  destruct (adjustRecord_ok pre rs id _ o r (strlen blob) None Hr ltac:(lia))
    as (r' & rr' & -> & Hlen & _).
  cbn [mbind option_bind]. rewrite <- Hlen, <- strlen_app, (app_assoc pre r').
  destruct (adjustLoop_ok (length (pre ++ r ++ rs)) es (o + strlen blob) (pre ++ r') rs
              (strlen blob) rr' Hrs) as (rs' & -> & Hrs' & Hlen').
  - lia.
  - lia.
  - rewrite !length_app. unfold strlen in Hl. lia.
  - exists r', rs'. rewrite <- app_assoc. split_and!; try done.
    by replace o with (o + strlen blob - strlen blob) by lia.
Qed.

(** ** The records that are written *)

Lemma indexEntry_ok (id : bytes) n ofs room :
  valid_id id -> strlen id <= 960 -> 0 < n -> 0 <= ofs -> ofs + n < 2 ^ 31 ->
  strlen id + 74 <= room ->
  exists r, indexEntry room id n ofs = Some r /\ is_record id n ofs r.
Proof.
  intros Hv Hid Hn Ho Hon Hroom. unfold indexEntry.
  set (body := print_dec (strlen id) ++ cstr " " ++ id ++ cstr " " ++ print_dec n ++ cstr " "
               ++ print_dec ofs ++ [13; 10]).
  change (cstr "    " ++ body) with (replicate 4 32 ++ body).
  pose proof (strlen_nonneg id).
  pose proof (print_dec_length_lt (strlen id) 3 ltac:(lia) ltac:(lia)) as L1.
  pose proof (print_dec_length_lt n 10 ltac:(lia) ltac:(lia)) as L2.
  pose proof (print_dec_length_lt ofs 10 ltac:(lia) ltac:(lia)) as L3.
  assert (Hb : strlen body <= strlen id + 28).
  { unfold body. autorewrite with strlen. cbn [cstr]. autorewrite with strlen. lia. }
  pose proof (strlen_nonneg body).
  assert (He : strlen (replicate 4 32 ++ body) = 4 + strlen body)
    by (autorewrite with strlen; lia).
  rewrite He, (proj2 (Z.ltb_ge _ _)) by lia.
  pose proof (print_dec_length_lt (4 + strlen body) 3 ltac:(lia) ltac:(lia)) as L4.
  pose proof (print_dec_pos (4 + strlen body) ltac:(lia)) as L5.
  unfold strlen in L4, L5. fold (strlen body) in L4, L5.
  set (ep := print_dec (4 + strlen body)) in *.
  assert (Er : ep ++ 32 :: drop (S (length ep)) (replicate 4 32 ++ body)
               = ep ++ replicate (4 - length ep) 32 ++ body).
  { f_equal. rewrite drop_app_le, drop_replicate by (rewrite length_replicate; lia).
    change (32 :: replicate (4 - S (length ep)) 32 ++ body)
      with (replicate (S (4 - S (length ep))) 32 ++ body). do 2 f_equal. lia. }
  rewrite Er. eexists. split; [done|].
  assert (Es : strlen (ep ++ replicate (4 - length ep) 32 ++ body) = 4 + strlen body).
  { autorewrite with strlen. unfold strlen at 1. lia. }
  unfold is_record. rewrite Es. split_and!; try done; try lia.
  exists O. unfold record_bytes, body. fold body. fold ep. done.
Qed.

Lemma records_nonempty o es rs : records o es rs -> es <> [] ->
  0 < strlen rs /\ 0 < size_of es.
Proof.
  intros H. destruct H as [|o id blob es r rs Hr _]; [done|]. intros _.
  pose proof (is_record_length _ _ _ _ Hr). destruct Hr as (_ & Hb & _).
  pose proof (strlen_nonneg rs). pose proof (strlen_nonneg id). pose proof (size_of_nonneg es).
  rewrite size_of_cons, strlen_app. lia.
Qed.

Lemma records_length o es rs : records o es rs -> strlen rs <= 1000 * Z.of_nat (length es).
Proof.
  induction 1 as [|o id blob es r rs (_ & _ & _ & _ & Hr & _) _ IH]; [done|].
  rewrite strlen_app. cbn [length]. lia.
Qed.

Lemma read_at_app (a b c : bytes) : read_at (a ++ b ++ c) (strlen a) (strlen b) = Some b.
Proof.
  unfold read_at. pose proof (strlen_nonneg a). pose proof (strlen_nonneg b).
  pose proof (strlen_nonneg c).
  rewrite !(proj2 (Z.leb_le _ _)) by (autorewrite with strlen; lia).
  cbn [andb]. by rewrite drop_strlen, take_strlen.
Qed.

Lemma read_at_prefix (a b : bytes) : read_at (a ++ b) 0 (strlen a) = Some a.
Proof. exact (read_at_app [] a b). Qed.

Lemma read_at_suffix (a b : bytes) p n :
  p = strlen a -> n = strlen b -> read_at (a ++ b) p n = Some b.
Proof. intros -> ->. rewrite <- (app_nil_r b) at 1. apply read_at_app. Qed.

(** * Refinement *)

Section Refinement.
Context (creatable : bytes -> bool) (repDir : bytes).

Definition nsDir (ns : bytes) : bytes := repDir ++ (tolower <$> ns ++ cstr "/").
Definition dataFile (ns cls : bytes) : bytes := nsDir ns ++ (tolower <$> cls).
Definition indexFile (ns cls : bytes) : bytes := dataFile ns cls ++ cstr ".idx".
Definition tmpIndex (ns : bytes) : bytes := nsDir ns ++ cstr "idx".
Definition tmpData (ns : bytes) : bytes := nsDir ns ++ cstr "inst".

(** The directory of the name space is there, and the class has not the name of
    a temporary file. *)
Definition usable (ns cls : bytes) : Prop :=
  creatable (dataFile ns cls) = true /\ creatable (indexFile ns cls) = true /\
  creatable (tmpIndex ns) = true /\ creatable (tmpData ns) = true /\
  (tolower <$> cls) <> cstr "idx" /\ (tolower <$> cls) <> cstr "inst".

(** The files of a class hold the entries [es]. *)
Definition stored (fs : files) (ns cls : bytes) (es : list entry) : Prop :=
  NoDup (fst <$> es) /\ 1000 * Z.of_nat (length es) < 2 ^ 31 /\
  match es with
  | [] => fs !! indexFile ns cls = None \/ fs !! indexFile ns cls = Some []
  | _ => exists rs, fs !! indexFile ns cls = Some rs /\ records 0 es rs /\
           fs !! dataFile ns cls = Some (data_of es)
  end.

Definition spec_remove (id : bytes) (es : list entry) : list entry :=
  filter (fun e => e.1 <> id) es.
Definition spec_add (id blob : bytes) (es : list entry) : list entry :=
  spec_remove id es ++ [(id, blob)].
Fixpoint spec_get (ic : bool) (key : bytes) (es : list entry) : option bytes :=
  match es with
  | [] => None
  | (id, blob) :: es => if key_matches ic key id then Some blob else spec_get ic key es
  end.

Definition others_kept (fs fs' : files) (ns cls : bytes) : Prop :=
  forall p, p <> dataFile ns cls -> p <> indexFile ns cls -> p <> tmpIndex ns ->
    p <> tmpData ns -> fs' !! p = fs !! p.

Lemma names_distinct ns cls : usable ns cls ->
  dataFile ns cls <> indexFile ns cls /\ tmpIndex ns <> indexFile ns cls /\
  tmpData ns <> indexFile ns cls /\ dataFile ns cls <> tmpIndex ns /\
  dataFile ns cls <> tmpData ns /\ tmpIndex ns <> tmpData ns.
Proof.
  intros (_ & _ & _ & _ & Hx & Hi). unfold indexFile, tmpIndex, tmpData, dataFile.
  rewrite <- !app_assoc. split_and!; intros E; apply app_inv_head in E; try done.
  - apply (f_equal length) in E. rewrite length_app in E. simpl in E. lia.
  - apply (f_equal length) in E. rewrite length_app in E. simpl in E. lia.
  - apply (f_equal length) in E as El. rewrite length_app in El. simpl in El.
    destruct (tolower <$> cls); [done|simpl in El; lia].
Qed.

(** ** Splitting at the entry found *)

Lemma filter_keep id es : (forall e, e ∈ es -> e.1 <> id) -> spec_remove id es = es.
Proof.
  unfold spec_remove. induction es as [|e es IH]; intros H; [done|].
  rewrite filter_cons_True by (apply H, list_elem_of_here).
  f_equal. apply IH. intros e' He. by apply H, list_elem_of_further.
Qed.

Lemma spec_remove_app id es1 es2 :
  spec_remove id (es1 ++ es2) = spec_remove id es1 ++ spec_remove id es2.
Proof. apply filter_app. Qed.

Lemma spec_remove_split id blob es1 es2 :
  NoDup (fst <$> es1 ++ (id, blob) :: es2) ->
  spec_remove id (es1 ++ (id, blob) :: es2) = es1 ++ es2.
Proof.
  rewrite fmap_app, fmap_cons. intros (_ & Hd & Hnd)%NoDup_app.
  apply NoDup_cons in Hnd as [Hn2 _].
  assert (H1 : spec_remove id es1 = es1).
  { apply filter_keep. intros e He Heq. apply (Hd e.1).
    - apply list_elem_of_fmap. by exists e.
    - rewrite Heq. simpl. apply list_elem_of_here. }
  assert (H2 : spec_remove id es2 = es2).
  { apply filter_keep. intros e He Heq. apply Hn2. simpl. rewrite <- Heq.
    apply list_elem_of_fmap. by exists e. }
  rewrite spec_remove_app, H1. f_equal. etrans; [|exact H2].
  unfold spec_remove. apply filter_cons_False. simpl. intros H. by apply H.
Qed.

Lemma spec_remove_none id es :
  Forall (fun e => key_matches false id e.1 = false) es -> spec_remove id es = es.
Proof.
  intros H. apply filter_keep. intros e He Heq. rewrite Forall_forall in H.
  specialize (H e He). simpl in H. by apply bool_decide_eq_false in H.
Qed.

Lemma spec_get_none ic key es :
  Forall (fun e => key_matches ic key e.1 = false) es -> spec_get ic key es = None.
Proof. induction 1 as [|[i b] es H _ IH]; [done|]. simpl in *. by rewrite H. Qed.

Lemma spec_get_split ic key id blob es1 es2 :
  Forall (fun e => key_matches ic key e.1 = false) es1 -> key_matches ic key id = true ->
  spec_get ic key (es1 ++ (id, blob) :: es2) = Some blob.
Proof.
  intros H Hk. induction H as [|[i b] es H _ IH]; simpl; [by rewrite Hk|]. simpl in H. by rewrite H.
Qed.

(** ** Rebuilding *)

Lemma replace_file_lookup (fs : files) (tmp target c p : bytes) : tmp <> target ->
  replace_file fs tmp target c (strlen c) !! p
  = if decide (p = target) then match c with [] => None | _ => Some c end
    else if decide (p = tmp) then None else fs !! p.
Proof.
  intros Hne. unfold replace_file. destruct c as [|b c].
  - rewrite strlen_nil. cbn [Z.eqb]. destruct (decide (p = tmp)) as [->|Hp].
    + rewrite lookup_delete_eq. by rewrite decide_False.
    + rewrite lookup_delete_ne by done. destruct (decide (p = target)) as [->|Ht].
      * by rewrite lookup_delete_eq.
      * by rewrite lookup_delete_ne.
  - pose proof (strlen_nonempty (b :: c) ltac:(done)).
    rewrite (proj2 (Z.eqb_neq _ _)) by lia.
    destruct (decide (p = target)) as [->|Ht]; [by rewrite lookup_insert_eq|].
    rewrite lookup_insert_ne by done. destruct (decide (p = tmp)) as [->|Hp].
    + by rewrite lookup_delete_eq.
    + by rewrite lookup_delete_ne.
Qed.

Lemma stored_intro (fs : files) ns cls es (rs : bytes) :
  NoDup (fst <$> es) -> 1000 * Z.of_nat (length es) < 2 ^ 31 -> records 0 es rs ->
  fs !! indexFile ns cls = match rs with [] => None | _ => Some rs end ->
  fs !! dataFile ns cls = match data_of es with [] => None | d => Some d end ->
  stored fs ns cls es.
Proof.
  intros Hnd Hl Hrs Hx Hd. split_and!; [done|done|].
  destruct es as [|e es]; [inversion Hrs; subst; by left|].
  destruct (records_nonempty _ _ _ Hrs) as [H1 H2]; [done|].
  exists rs. destruct rs; [done|]. split_and!; [done|done|]. rewrite Hd.
  unfold size_of in H2. by destruct (data_of (e :: es)).
Qed.

Definition of_class (bi : BlobIndex) (ns cls : bytes) : Prop :=
  fnd bi = dataFile ns cls /\ fnx bi = indexFile ns cls /\ dir bi = nsDir ns.

Lemma rebuild_ok fs ns cls bi es1 id blob es2 es2' (rs1 r rs2' new : bytes) :
  usable ns cls -> of_class bi ns cls ->
  fd bi = Some (data_of (es1 ++ (id, blob) :: es2)) -> index bi = rs1 ++ r ++ rs2' ->
  records 0 es1 rs1 -> is_record id (strlen blob) (size_of es1) r ->
  records (size_of es1 + strlen blob) es2' rs2' -> data_of es2' = data_of es2 ++ new ->
  at_record bi (strlen rs1) id blob (size_of es1) r ->
  NoDup (fst <$> es1 ++ es2') -> 1000 * Z.of_nat (length (es1 ++ es2')) < 2 ^ 31 ->
  exists fs', rebuild creatable fs bi new = Some (0, fs') /\
    stored fs' ns cls (es1 ++ es2') /\ others_kept fs fs' ns cls.
Proof.
  intros Hu (Hfnd & Hfnx & Hdir) Hfd Hix Hrs1 Hr Hrs2 Hdata (Hp & Hl & Hb & Ho) Hnd Hlen.
  destruct (names_distinct ns cls Hu) as (N1 & N2 & N3 & N4 & N5 & N6).
  destruct Hu as (_ & _ & Hcx & Hcd & _).
  destruct (adjust_ok es2' (size_of es1) rs1 r rs2' id blob Hr Hrs2) as (r' & rs2 & Hadj & Hr' & Hrs2' & _).
  unfold rebuild. rewrite Hfnd, Hfnx, Hdir, Hfd, Hix, Hp, Hl, Hb, Ho, Hadj.
  fold (tmpIndex ns) (tmpData ns). unfold can_write. rewrite Hcx, Hcd, !orb_true_r.
  cbn [andb negb]. rewrite bool_decide_eq_false_2 by (intros [?|?]; done).
  assert (Hd : data_of (es1 ++ (id, blob) :: es2) = data_of es1 ++ blob ++ data_of es2)
    by (by rewrite data_of_app).
  rewrite Hd. cbn [mbind option_bind].
  assert (E1 : read_at (data_of es1 ++ blob ++ data_of es2) 0 (size_of es1) = Some (data_of es1))
    by apply read_at_prefix.
  rewrite E1. cbn [mbind option_bind].
  rewrite (app_assoc (data_of es1) blob), (read_at_suffix (data_of es1 ++ blob) (data_of es2))
    by (rewrite ?strlen_app; unfold size_of; lia). cbn [mbind option_bind].
  rewrite read_at_prefix. cbn [mbind option_bind].
  rewrite (app_assoc rs1 r'), (read_at_suffix (rs1 ++ r') rs2) by (rewrite ?strlen_app; lia).
  cbn [mbind option_bind]. rewrite <- Hdata, <- data_of_app.
  eexists. split; [done|]. split.
  - apply (stored_intro _ _ _ _ (rs1 ++ rs2)); [done|done| | |].
    + by apply records_join.
    + rewrite replace_file_lookup by done. by rewrite decide_True.
    + rewrite !replace_file_lookup by congruence. repeat case_decide; try done.
      by destruct (data_of (es1 ++ es2')).
  - intros p P1 P2 P3 P4. rewrite !replace_file_lookup by congruence. repeat case_decide; try done.
Qed.

(** ** The operations on a class *)

Lemma getIndex_opens fs ns cls mki content :
  fs !! indexFile ns cls = Some content ->
  getIndex creatable repDir fs ns cls mki = (Some (newIndex repDir ns cls true content), fs).
Proof. intros H. unfold getIndex. cbv zeta.
  change (fnx (newIndex repDir ns cls false [])) with (indexFile ns cls). by rewrite H. Qed.

Lemma getIndex_creates fs ns cls :
  usable ns cls -> fs !! indexFile ns cls = None ->
  getIndex creatable repDir fs ns cls true
  = (Some (newIndex repDir ns cls true []), <[indexFile ns cls := []]> fs).
Proof.
  intros (_ & Hc & _) H. unfold getIndex. cbv zeta.
  change (fnx (newIndex repDir ns cls false [])) with (indexFile ns cls). by rewrite H, Hc.
Qed.

Lemma getIndex_absent fs ns cls : fs !! indexFile ns cls = None ->
  getIndex creatable repDir fs ns cls false = (None, fs).
Proof. intros H. unfold getIndex. cbv zeta.
  change (fnx (newIndex repDir ns cls false [])) with (indexFile ns cls). by rewrite H. Qed.

Lemma newIndex_class ns cls opened ix : of_class (newIndex repDir ns cls opened ix) ns cls.
Proof. done. Qed.

Lemma same_file_class a b ns cls : same_file a b -> of_class b ns cls -> of_class a ns cls.
Proof. unfold same_file, of_class. intuition congruence. Qed.

(** Looking a key up in the index of a stored class: nothing, or the entry and
    where it is. *)
Lemma locate_stored fs ns cls es rs key ic :
  stored fs ns cls es -> fs !! indexFile ns cls = Some rs -> key <> [] ->
  exists found bi, indxLocateCase (newIndex repDir ns cls true rs) key ic = Some (found, bi) /\
    same_file bi (newIndex repDir ns cls true rs) /\ of_class bi ns cls /\ strlen rs < 2 ^ 31 /\
    records 0 es rs /\
    if found then
      fs !! dataFile ns cls = Some (data_of es) /\
      exists es1 id blob es2 rs1 r rs2, located ic key 0 es rs es1 id blob es2 rs1 r rs2 /\
        at_record bi (strlen rs1) id blob (size_of es1) r
    else Forall (fun e => key_matches ic key e.1 = false) es.
Proof.
  intros (_ & Hlen & Hst) Hix Hk.
  assert (H : records 0 es rs /\ (es <> [] -> fs !! dataFile ns cls = Some (data_of es))).
  { destruct es as [|e es].
    - destruct Hst as [Hst|Hst]; rewrite Hst in Hix; [done|]. injection Hix as <-.
      split; [constructor|done].
    - destruct Hst as (rs' & Hx & Hrs & Hd). rewrite Hx in Hix. by injection Hix as <-. }
  destruct H as [Hrs Hd]. pose proof (records_length _ _ _ Hrs).
  destruct (indxLocateCase_ok es rs (newIndex repDir ns cls true rs) key ic)
    as (found & bi & E & Hs & Hres); [done|done|lia|done|].
  exists found, bi. split; [done|]. split; [done|]. split; [by eapply same_file_class|].
  split; [lia|]. split; [done|]. destruct found; [|done]. split; [|done]. apply Hd.
  destruct Hres as (? & ? & ? & ? & ? & ? & ? & (-> & _) & _). by destruct x.
Qed.

(** The spec of adding depends on the key being there. *)
Lemma spec_add_present (id blob new : bytes) es1 es2 :
  NoDup (fst <$> es1 ++ (id, blob) :: es2) ->
  spec_add id new (es1 ++ (id, blob) :: es2) = es1 ++ es2 ++ [(id, new)].
Proof. intros H. unfold spec_add. by rewrite spec_remove_split, <- app_assoc. Qed.

Lemma NoDup_keys_move (id blob new : bytes) es1 es2 :
  NoDup (fst <$> es1 ++ (id, blob) :: es2) ->
  NoDup (fst <$> es1 ++ es2) /\ NoDup (fst <$> es1 ++ es2 ++ [(id, new)]).
Proof.
  rewrite !fmap_app, fmap_cons. intros H.
  assert (Hp : fst (id, blob) :: ((fst <$> es1) ++ (fst <$> es2)) ≡ₚ
               (fst <$> es1) ++ fst (id, blob) :: (fst <$> es2)) by apply Permutation_middle.
  rewrite <- Hp in H. split; [by apply NoDup_cons in H as [_ H]|].
  assert (Hq : (fst <$> es1) ++ (fst <$> es2) ++ [id] ≡ₚ
               id :: ((fst <$> es1) ++ (fst <$> es2)))
    by (rewrite app_assoc, Permutation_app_comm; done).
  simpl in *. by rewrite Hq.
Qed.

Lemma key_matches_exact (key id : bytes) : key_matches false key id = true -> id = key.
Proof. simpl. by intros H%bool_decide_eq_true. Qed.

Lemma nomatch_not_in key es :
  Forall (fun e => key_matches false key e.1 = false) es -> key ∉ fst <$> es.
Proof.
  intros H Hin. apply list_elem_of_fmap in Hin as (e & -> & He).
  rewrite Forall_forall in H. specialize (H e He). simpl in H. by apply bool_decide_eq_false in H.
Qed.

(** Writing the entry into the first, or at the end of, the files of a class. *)
Lemma stored_append fs fs' ns cls es (rs r id blob : bytes) :
  records 0 es rs -> is_record id (strlen blob) (size_of es) r ->
  NoDup (fst <$> es) -> id ∉ fst <$> es -> 1000 * (Z.of_nat (length es) + 1) < 2 ^ 31 ->
  fs' = <[indexFile ns cls := rs ++ r]> (<[dataFile ns cls := data_of es ++ blob]> fs) ->
  dataFile ns cls <> indexFile ns cls ->
  stored fs' ns cls (es ++ [(id, blob)]).
Proof.
  intros Hrs Hr Hnd Hni Hlen -> Hne.
  assert (Hrs' : records 0 (es ++ [(id, blob)]) (rs ++ r)).
  { apply records_join; [done|]. rewrite <- (app_nil_r r). constructor; [done|constructor]. }
  assert (Hn : es ++ [(id, blob)] <> []) by (by destruct es).
  destruct (records_nonempty _ _ _ Hrs' Hn) as [H1 H2].
  assert (Ed : data_of (es ++ [(id, blob)]) = data_of es ++ blob)
    by (rewrite data_of_app; unfold data_of at 2; simpl; by rewrite app_nil_r).
  unfold size_of in H2. rewrite Ed in H2.
  apply (stored_intro _ _ _ _ (rs ++ r)); try done.
  - rewrite fmap_app. apply NoDup_app. split_and!; [done| |apply NoDup_singleton].
    intros x Hx Hx2. apply list_elem_of_singleton in Hx2. by subst.
  - rewrite length_app. simpl. lia.
  - rewrite lookup_insert_eq. by destruct (rs ++ r).
  - rewrite Ed, lookup_insert_ne, lookup_insert_eq by congruence. by destruct (data_of es ++ blob).
Qed.

(** What a blob must be to fit the format. *)
Definition addable (id blob : bytes) es : Prop :=
  valid_id id /\ strlen id <= 960 /\ blob <> [] /\ size_of es + strlen blob < 2 ^ 31 /\
  1000 * (Z.of_nat (length es) + 1) < 2 ^ 31.

Lemma write_rc_ok blob : blob <> [] -> (write_rc blob =? -1) = false.
Proof. by destruct blob. Qed.

Lemma entry_room (ns cls id : bytes) :
  strlen id + 74 <= strlen ns + strlen cls + strlen id + strlen BASE + 64.
Proof.
  change (strlen BASE) with 10. pose proof (strlen_nonneg ns). pose proof (strlen_nonneg cls). lia.
Qed.

Lemma can_write_data fs ns cls : usable ns cls -> can_write creatable fs (dataFile ns cls) = true.
Proof. intros (Hc & _). unfold can_write. by rewrite Hc, orb_true_r. Qed.

Lemma can_write_new fs ns cls opened ix : usable ns cls ->
  can_write creatable fs (fnd (newIndex repDir ns cls opened ix)) = true.
Proof. apply can_write_data. Qed.

(** The first entry of a class. *)
Lemma addBlob_first fs ns cls id blob :
  usable ns cls -> addable id blob [] ->
  fs !! indexFile ns cls = None \/ fs !! indexFile ns cls = Some [] ->
  exists fs', addBlob creatable repDir fs ns cls id blob = Some (0, fs') /\
    stored fs' ns cls [(id, blob)] /\ others_kept fs fs' ns cls.
Proof.
  intros Hu (Hv & Hid & Hb & Hsz & Hlen) Hfs. pose proof (names_distinct _ _ Hu) as (N1 & _).
  change (size_of []) with 0 in Hsz.
  destruct (indexEntry_ok id (strlen blob) 0 _ Hv Hid (strlen_nonempty _ Hb) ltac:(lia) ltac:(lia)
              (entry_room ns cls id)) as (r & Er & Hr).
  assert (Hgi : exists fs1, getIndex creatable repDir fs ns cls true
            = (Some (newIndex repDir ns cls true []), fs1) /\ others_kept fs fs1 ns cls).
  { destruct Hfs as [H|H].
    - eexists. split; [by apply getIndex_creates|]. intros p _ ? _ _. by rewrite lookup_insert_ne.
    - exists fs. split; [by apply getIndex_opens|]. by intros p. }
  destruct Hgi as (fs1 & Hgi & Hoth). unfold addBlob. rewrite Hgi.
  change (dSize (newIndex repDir ns cls true []) =? 0) with true. cbv iota.
  rewrite can_write_new, write_rc_ok, Er by done. cbn [negb mbind option_bind].
  eexists. split; [done|].
  change (fnx (newIndex repDir ns cls true [])) with (indexFile ns cls).
  change (fnd (newIndex repDir ns cls true [])) with (dataFile ns cls). split.
  - eapply (stored_append fs1 _ ns cls [] [] r); try done; [constructor|constructor|].
    by intros ?%elem_of_nil.
  - intros p P1 P2 P3 P4. rewrite !lookup_insert_ne by done. by apply Hoth.
Qed.

(** adding a blob to the files of a class succeeds and makes it the last entry,
    in place of an older entry with its key; every other entry keeps its bytes,
    key and order, and every other file its content. *)
Theorem addBlob_refines fs ns cls es id blob :
  usable ns cls -> stored fs ns cls es -> addable id blob es ->
  exists fs', addBlob creatable repDir fs ns cls id blob = Some (0, fs') /\
    stored fs' ns cls (spec_add id blob es) /\ others_kept fs fs' ns cls.
Proof.
  intros Hu Hst Hadd. pose proof Hst as (Hnd & Hlen & Hcase).
  destruct es as [|e es0]; [by apply addBlob_first|].
  destruct Hcase as (rs & Hix & Hrs & Hdata). remember (e :: es0) as es eqn:Ees.
  assert (Hne : es <> []) by (by subst). clear Ees.
  pose proof (names_distinct _ _ Hu) as (N1 & _).
  destruct Hadd as (Hv & Hid & Hb & Hsz & Hlen').
  destruct (records_nonempty _ _ _ Hrs Hne) as [Hrp _].
  destruct (indexEntry_ok id (strlen blob) (size_of es) _ Hv Hid (strlen_nonempty _ Hb)
              (size_of_nonneg es) ltac:(lia) (entry_room ns cls id)) as (r & Er & Hr).
  destruct (locate_stored fs ns cls es rs id false Hst Hix (proj1 Hv))
    as (found & bi & Hloc & Hsame & Hcls & _ & _ & Hres).
  assert (Hd0 : (dSize (newIndex repDir ns cls true rs) =? 0) = false)
    by (apply Z.eqb_neq; unfold dSize; simpl; lia).
  unfold addBlob. rewrite (getIndex_opens _ _ _ _ _ Hix), Hd0. unfold indxLocate. rewrite Hloc.
  cbn [mbind option_bind]. pose proof Hcls as (Hfd & Hfx & _).
  assert (Hbix : index bi = rs) by (by destruct Hsame as (_ & _ & _ & _ & _ & ->)).
  destruct found; rewrite Hfd.
  - destruct Hres as (_ & es1 & id' & old & es2 & rs1 & r1 & rs2 & (-> & -> & Hno & Hm & H1 & H2 & H3) & Hat).
    apply key_matches_exact in Hm as ->.
    rewrite Hdata. change (strlen (data_of ?x)) with (size_of x). rewrite Er. cbn [mbind option_bind].
    rewrite spec_add_present by done.
    pose proof (proj2 (NoDup_keys_move id old blob es1 es2 Hnd)) as Hnd2.
    eapply (rebuild_ok fs ns cls _ es1 id old es2 (es2 ++ [(id, blob)]) rs1 r1 (rs2 ++ r));
      try done.
    + simpl. by rewrite Hbix, <- !app_assoc.
    + apply records_join; [done|]. rewrite <- (app_nil_r r). constructor; [|constructor].
      replace (size_of es1 + strlen old + size_of es2) with (size_of (es1 ++ (id, old) :: es2))
        by (rewrite size_of_app, size_of_cons; lia). done.
    + rewrite data_of_app. unfold data_of at 2. simpl. by rewrite app_nil_r.
    + rewrite !length_app in *. simpl in *. lia.
  - rewrite can_write_data, Hdata, write_rc_ok by done. cbn [negb].
    change (default [] (Some (data_of es))) with (data_of es).
    change (strlen (data_of es)) with (size_of es). rewrite Er. cbn [mbind option_bind].
    eexists. split; [done|]. rewrite Hfx, Hbix. split.
    + unfold spec_add. rewrite spec_remove_none by done.
      eapply (stored_append fs _ ns cls es rs r); try done. by apply nomatch_not_in.
    + intros p P1 P2 P3 P4. by rewrite !lookup_insert_ne by done.
Qed.

(** deleting a key removes exactly its entry and returns 0, or returns 1 and
    changes nothing when there is none. *)
Theorem deleteBlob_refines fs ns cls es id :
  usable ns cls -> stored fs ns cls es -> id <> [] ->
  exists fs', deleteBlob creatable repDir fs ns cls id
      = Some (if bool_decide (id ∈ fst <$> es) then 0 else 1, fs') /\
    stored fs' ns cls (spec_remove id es) /\ others_kept fs fs' ns cls.
Proof.
  intros Hu Hst Hid. pose proof Hst as (Hnd & Hlen & _). unfold deleteBlob.
  destruct (fs !! indexFile ns cls) as [rs|] eqn:Hix.
  - destruct (locate_stored fs ns cls es rs id false Hst Hix Hid)
      as (found & bi & Hloc & Hsame & Hcls & _ & _ & Hres).
    rewrite (getIndex_opens _ _ _ _ _ Hix). unfold indxLocate. rewrite Hloc. cbn [mbind option_bind].
    assert (Hbix : index bi = rs) by (by destruct Hsame as (_ & _ & _ & _ & _ & ->)).
    pose proof Hcls as (Hfd & Hfx & _). destruct found; [rewrite Hfd|].
    + destruct Hres as (Hdata & es1 & id' & old & es2 & rs1 & r1 & rs2 & (-> & -> & Hno & Hm & H1 & H2 & H3) & Hat).
      apply key_matches_exact in Hm as ->. rewrite Hdata.
      rewrite bool_decide_eq_true_2
        by (rewrite fmap_app, fmap_cons; apply elem_of_app; right; apply list_elem_of_here).
      rewrite spec_remove_split by done.
      eapply (rebuild_ok fs ns cls _ es1 id old es2 es2 rs1 r1 rs2); try done.
      * by rewrite app_nil_r.
      * apply (proj1 (NoDup_keys_move id old old es1 es2 Hnd)).
      * rewrite !length_app in *. simpl in *. lia.
    + exists fs. rewrite bool_decide_eq_false_2 by (by apply nomatch_not_in).
      rewrite spec_remove_none by done. done.
  - rewrite (getIndex_absent _ _ _ Hix). destruct es as [|e es].
    + exists fs. by rewrite bool_decide_eq_false_2 by (by intros ?%elem_of_nil).
    + destruct Hst as (_ & _ & rs & Hx & _). congruence.
Qed.

(** [getBlob] returns the bytes last stored under the key - for qualifiers under
    the first key equal up to case - and [existingBlob] says whether there are any. *)
Theorem getBlob_refines fs ns cls es id :
  stored fs ns cls es -> id <> [] ->
  getBlob creatable repDir fs ns cls id
  = Some (spec_get (bool_decide (cls = cstr "qualifiers")) id es) /\
  existingBlob creatable repDir fs ns cls id = Some (bool_decide (id ∈ fst <$> es)).
Proof.
  intros Hst Hid. unfold getBlob, existingBlob.
  assert (Hq : (strcmp (cstr "qualifiers") cls =? 0) = bool_decide (cls = cstr "qualifiers")).
  { apply Bool.eq_iff_eq_true. rewrite Z.eqb_eq, strcmp_eq, bool_decide_eq_true. by split. }
  rewrite Hq. destruct (fs !! indexFile ns cls) as [rs|] eqn:Hix.
  - rewrite (getIndex_opens _ _ _ _ _ Hix). cbn [fst]. split.
    + destruct (locate_stored fs ns cls es rs id (bool_decide (cls = cstr "qualifiers")) Hst Hix Hid)
        as (found & bi & -> & Hsame & (Hfd & _ & _) & _ & _ & Hres). cbn [mbind option_bind].
      destruct found; [|by rewrite spec_get_none].
      destruct Hres as (Hdata & es1 & id' & old & es2 & rs1 & r1 & rs2 & (-> & -> & Hno & Hm & _) & Hat).
      destruct Hat as (_ & _ & -> & ->). rewrite Hfd, Hdata. cbn [mbind option_bind].
      rewrite data_of_app. change (data_of ((id', old) :: es2)) with (old ++ data_of es2).
      unfold size_of. rewrite read_at_app. cbn [mbind option_bind].
      by rewrite (spec_get_split _ _ id' old).
    + unfold indxLocate. destruct (locate_stored fs ns cls es rs id false Hst Hix Hid)
        as (found & bi & -> & _ & _ & _ & _ & Hres). simpl. f_equal.
      destruct found; symmetry.
      * destruct Hres as (_ & es1 & id' & old & es2 & ? & ? & ? & (-> & -> & Hno & Hm & _) & _).
        apply key_matches_exact in Hm as ->. apply bool_decide_eq_true_2.
        rewrite fmap_app, fmap_cons. apply elem_of_app. right. apply list_elem_of_here.
      * apply bool_decide_eq_false_2. by apply nomatch_not_in.
  - rewrite (getIndex_absent _ _ _ Hix). cbn [fst].
    destruct es as [|e es]; [|destruct Hst as (_ & _ & rs & Hx & _); congruence].
    by rewrite (bool_decide_eq_false_2 (id ∈ _)) by (by intros ?%elem_of_nil).
Qed.

Lemma getNext_end bi content (rs : bytes) :
  fd bi = Some content -> index bi = rs -> next bi = strlen rs ->
  exists bi', getNext bi = Some (None, bi').
Proof.
  intros Hfd Hix Hn. unfold getNext, getIndexRecord, getIndexRecordCase, dSize.
  rewrite Hix, Hn, Z.leb_refl. cbn [mbind option_bind]. rewrite Hfd. by eexists.
Qed.

(** Reading the entry at [next]. *)
Lemma read_entry bi (pre rs : bytes) id blob es1 es2 r :
  index bi = pre ++ r ++ rs -> next bi = strlen pre -> strlen (index bi) < 2 ^ 31 ->
  is_record id (strlen blob) (size_of es1) r ->
  getIndexRecord bi
    = Some (0, set_record bi (strlen pre) (strlen r) (strlen blob) (size_of es1), id) /\
  read_at (data_of (es1 ++ (id, blob) :: es2)) (size_of es1) (strlen blob) = Some blob.
Proof.
  intros Hix Hn Hlt Hr. split.
  - destruct (getIndexRecordCase_ok bi pre id _ _ r rs [] false Hix Hn Hlt Hr) as (k & E & ->).
    exact E.
  - rewrite data_of_app. change (data_of ((id, blob) :: es2)) with (blob ++ data_of es2).
    apply read_at_app.
Qed.

Lemma collect_next fuel es1 es2 bi (pre rs : bytes) :
  records (size_of es1) es2 rs -> index bi = pre ++ rs -> next bi = strlen pre ->
  strlen (index bi) < 2 ^ 31 -> fd bi = Some (data_of (es1 ++ es2)) ->
  (length rs < fuel)%nat -> collect fuel (getNext bi) = Some es2.
Proof.
  intros Hrs. remember (size_of es1) as o eqn:Ho. revert es1 Ho fuel bi pre.
  induction Hrs as [o|o id blob es r rs Hr Hrs IH]; intros es1 -> fuel bi pre Hix Hn Hlt Hfd Hf;
    destruct fuel as [|fuel]; try lia; cbn [collect].
  - destruct (getNext_end bi _ _ Hfd Hix) as [bi' ->]; [by rewrite app_nil_r|done].
  - destruct (read_entry bi pre rs id blob es1 es r Hix Hn Hlt Hr) as [Hg Hread].
    pose proof (is_record_length _ _ _ _ Hr) as Hl. pose proof (strlen_nonneg id).
    assert (E : getNext bi = Some (Some (id, blob),
                  set_record bi (strlen pre) (strlen r) (strlen blob) (size_of es1))).
    { unfold getNext. rewrite Hg. cbn [mbind option_bind].
      change (fd (set_record bi ?p ?l ?b ?o)) with (fd bi). rewrite Hfd. simpl. by rewrite Hread. }
    rewrite E. cbn [mbind option_bind].
    rewrite (IH (es1 ++ [(id, blob)])) with (pre := pre ++ r); [done| | | |done| |].
    + rewrite size_of_app, size_of_cons. change (size_of []) with 0. lia.
    + simpl. by rewrite <- app_assoc.
    + simpl. rewrite Hn. by rewrite strlen_app.
    + simpl. by rewrite <- app_assoc.
    + rewrite length_app in Hf. unfold strlen in *. lia.
Qed.

(** an enumeration yields the entries of the class, each with its bytes, in
    order, and then the null pointer. *)
Theorem enumerate_refines fs ns cls es :
  stored fs ns cls es ->
  match fst (getIndex creatable repDir fs ns cls false) with
  | Some bi => enumerate fs bi = Some es
  | None => es = []
  end.
Proof.
  intros (Hnd & Hlen & Hst). destruct (fs !! indexFile ns cls) as [rs|] eqn:Hix.
  - rewrite (getIndex_opens _ _ _ _ _ Hix). cbn [fst].
    assert (H : records 0 es rs /\ (es <> [] -> fs !! dataFile ns cls = Some (data_of es))).
    { destruct es as [|e es].
      - destruct Hst as [Hst|Hst]; [done|]. injection Hst as ->. split; [constructor|done].
      - destruct Hst as (rs' & [= <-] & Hrs & Hd). done. }
    destruct H as [Hrs Hd]. pose proof (records_length _ _ _ Hrs) as Hl.
    inversion Hrs as [o|o id blob es' r rs' Hr Hrs']; subst; [done|].
    specialize (Hd ltac:(done)). pose proof (is_record_length _ _ _ _ Hr) as Hr0.
    pose proof (strlen_nonneg id).
    set (bi := set_next (newIndex repDir ns cls true (r ++ rs')) 0).
    destruct (read_entry bi [] rs' id blob [] es' r) as [Hg Hread];
      [done|done|simpl in *; lia|exact Hr|].
    set (bi' := set_record bi (strlen []) (strlen r) (strlen blob) (size_of [])) in *.
    assert (Hread' : read_at (data_of ((id, blob) :: es')) (bofs bi') (blen bi') = Some blob)
      by exact Hread.
    assert (E : getFirst fs (newIndex repDir ns cls true (r ++ rs'))
                = Some (Some (id, blob), set_fd bi' (Some (data_of ((id, blob) :: es'))))).
    { unfold getFirst. fold bi. rewrite Hg. cbn [mbind option_bind Z.eqb].
      change (fnd bi') with (dataFile ns cls). by rewrite Hd, Hread'. }
    unfold enumerate. rewrite E. cbn [collect mbind option_bind].
    rewrite (collect_next _ [(id, blob)] es' _ r rs'); [done| |done|done| |done|].
    + rewrite size_of_cons. change (size_of []) with 0. by rewrite Z.add_0_r.
    + simpl in *. lia.
    + simpl. rewrite length_app. unfold strlen in Hr0. simpl in *. lia.
  - rewrite (getIndex_absent _ _ _ Hix). destruct es as [|e es]; [done|].
    by destruct Hst as (rs & Hx & _).
Qed.
End Refinement.

(** * Records of a thousand bytes and more *)

Lemma digits_val_bound ds : Forall (fun d => 48 <= d <= 57) ds ->
  0 <= digits_val ds < 10 ^ strlen ds.
Proof.
  induction ds as [|d ds IH] using rev_ind; intros Hd; [done|].
  apply Forall_app in Hd as [Hd Hd1]. apply Forall_inv in Hd1. specialize (IH Hd).
  rewrite digits_val_app, strlen_app. change (strlen [d]) with 1.
  rewrite Z.pow_add_r by (apply strlen_nonneg || lia). simpl. lia.
Qed.

(** A number without its first digit is a smaller one. *)
Lemma print_dec_tail v : 10 <= v ->
  exists d ds, print_dec v = d :: ds /\ ds <> [] /\ Forall (fun d => 48 <= d <= 57) ds /\
    0 <= digits_val ds < v.
Proof.
  intros Hv. destruct (print_dec_digits v) as [Hd Hn]; [lia|].
  destruct (print_dec_length v) as [Hu Hl]; [lia|].
  destruct (print_dec v) as [|d ds]; [done|]. exists d, ds.
  apply Forall_cons in Hd as [_ Hd]. pose proof (digits_val_bound ds Hd) as Hb.
  rewrite strlen_cons in *. destruct Hl as [Hl|Hl].
  - assert (strlen ds = 0) by lia. rewrite H, Z.add_0_r in Hu. lia.
  - replace (1 + strlen ds - 1) with (strlen ds) in Hl by lia.
    split_and!; try done; try lia. intros ->. rewrite strlen_nil in *. lia.
Qed.

Lemma scan_field_digits (ds rest : bytes) :
  Forall (fun d => 48 <= d <= 57) ds -> ds <> [] -> digits_val ds < 2 ^ 31 ->
  isdigit (at0 rest) = false -> scan_field (32 :: ds ++ rest) = Some (digits_val ds, rest).
Proof.
  intros Hd Hn Hb Hr. pose proof (digits_val_bound ds Hd) as [H0 _].
  unfold scan_field. change (32 :: ds ++ rest) with (replicate 1 32 ++ ds ++ rest).
  rewrite skip_delims_spaces.
  - rewrite strspn_app; [|eapply Forall_impl; [exact Hd|]; intros; by apply isdigit_true|by right].
    assert (Ea : atoi (ds ++ rest) = digits_val ds).
    { unfold atoi, strtol. rewrite scan_number_digits by done.
      rewrite Z.min_l by lia. by apply wraps_small; lia. }
    rewrite Ea. destruct (length ds) as [|n] eqn:E; [by destruct ds|].
    do 2 f_equal. rewrite <- E. by rewrite drop_app_length.
  - destruct ds as [|d ds]; [done|]. simpl. apply isdigit_bounds. by inversion Hd.
Qed.

(** The record written: the first digit of the key length has become a space. *)
Lemma indexEntry_long (id : bytes) n room : 1000 <= strlen id < 9000 -> 0 < n < 2 ^ 31 ->
  strlen id + 74 <= room ->
  exists ds tail e, indexEntry room id n 0 = Some e /\
    e = print_dec (strlen e) ++ 32 :: ds ++ 32 :: id ++ 32 :: tail /\
    1000 <= strlen e < 10000 /\
    ds <> [] /\ Forall (fun d => 48 <= d <= 57) ds /\ 0 <= digits_val ds < strlen id.
Proof.
  intros Hid Hn Hroom. destruct (print_dec_tail (strlen id)) as (d & ds & Ed & Hne & Hds & Hv); [lia|].
  set (tail := print_dec n ++ 32 :: print_dec 0 ++ [13; 10]).
  unfold indexEntry. rewrite Ed.
  assert (Ei : cstr "    " ++ (d :: ds) ++ cstr " " ++ id ++ cstr " " ++ print_dec n ++ cstr " "
               ++ print_dec 0 ++ [13; 10]
               = replicate 4 32 ++ d :: ds ++ 32 :: id ++ 32 :: tail) by done.
  rewrite Ei. set (idxe := replicate 4 32 ++ d :: ds ++ 32 :: id ++ 32 :: tail).
  pose proof (print_dec_length_lt n 10 ltac:(lia) ltac:(lia)) as Ln.
  pose proof (print_dec_length_lt (strlen id) 4 ltac:(lia) ltac:(lia)) as Ld.
  rewrite Ed, strlen_cons in Ld. pose proof (strlen_nonneg ds).
  pose proof (strlen_nonneg (print_dec n)).
  assert (Hes : 1000 <= strlen idxe <= strlen id + 40).
  { unfold idxe, tail. autorewrite with strlen. change (strlen (print_dec 0)) with 1. lia. }
  rewrite (proj2 (Z.ltb_ge _ _)) by lia.
  assert (Lep : length (print_dec (strlen idxe)) = 4%nat).
  { pose proof (print_dec_length_lt (strlen idxe) 4 ltac:(lia) ltac:(lia)) as H4.
    pose proof (print_dec_length_mono 1000 (strlen idxe) ltac:(lia)) as H5.
    change (strlen (print_dec 1000)) with 4 in H5. unfold strlen in H4, H5.
    fold (strlen idxe) in H4, H5. lia. }
  rewrite Lep. change (drop 5 idxe) with (ds ++ 32 :: id ++ 32 :: tail).
  exists ds, tail. eexists. split; [done|].
  assert (El : strlen (print_dec (strlen idxe) ++ 32 :: ds ++ 32 :: id ++ 32 :: tail) = strlen idxe).
  { rewrite strlen_app. unfold strlen at 1. rewrite Lep. unfold idxe. autorewrite with strlen. lia. }
  rewrite El. split_and!; try done; lia.
Qed.

(** A key of a thousand bytes or more is accepted, but the record written for it
    hides the first digit of the key length: the entry is never found again. *)
Theorem long_key_lost creatable repDir fs ns cls (id blob : bytes) :
  usable creatable repDir ns cls -> stored repDir fs ns cls [] ->
  valid_id id -> 1000 <= strlen id < 9000 -> 0 < strlen blob < 2 ^ 31 ->
  exists fs', addBlob creatable repDir fs ns cls id blob = Some (0, fs') /\
    existingBlob creatable repDir fs' ns cls id = Some false.
Proof.
  intros Hu (_ & _ & Hfs) [Hidn Hidd] Hid Hb.
  destruct (indexEntry_long id (strlen blob) _ Hid Hb (entry_room ns cls id))
    as (ds & tail & e & He & Eq & Hle & Hne & Hds & Hv).
  assert (Hgi : exists fs1, getIndex creatable repDir fs ns cls true
            = (Some (newIndex repDir ns cls true []), fs1)).
  { destruct Hfs as [H|H]; eexists; [by apply getIndex_creates|by apply getIndex_opens]. }
  destruct Hgi as [fs1 Hgi]. unfold addBlob. rewrite Hgi.
  change (dSize (newIndex repDir ns cls true []) =? 0) with true. cbv iota.
  assert (Hbn : blob <> []) by (intros ->; rewrite strlen_nil in Hb; lia).
  rewrite can_write_new, write_rc_ok, He by done. cbn [negb mbind option_bind].
  eexists. split; [done|]. unfold existingBlob.
  change (fnx (newIndex repDir ns cls true [])) with (indexFile repDir ns cls).
  rewrite (getIndex_opens _ _ _ _ _ _ e) by apply lookup_insert_eq. cbn [fst].
  set (bi := newIndex repDir ns cls true e). unfold indxLocate, indxLocateCase.
  change (index bi) with e. destruct (length e) as [|n] eqn:El; [unfold strlen in Hle; lia|].
  assert (Hd : dSize (set_next bi 0) = strlen e) by done.
  cbn [locateLoop]. rewrite Hd. change (next (set_next bi 0)) with 0.
  rewrite (proj2 (Z.ltb_lt _ _)) by lia. unfold getIndexRecordCase.
  rewrite Hd. change (next (set_next bi 0)) with 0. rewrite (proj2 (Z.leb_gt _ _)) by lia.
  change (drop (Z.to_nat 0) (index (set_next bi 0))) with e.
  assert (Hp : exists r, parse_record e = Some r /\
            match r with Some (elen, ekl, _, _, _) => elen = strlen e /\ ekl <> strlen id
                       | None => True end).
  { clear - Eq Hle Hne Hds Hv Hidd Hidn Hid. revert Eq Hle. generalize (strlen e).
    intros es -> Hle. unfold parse_record.
    rewrite scan_field_print' by (done || lia). rewrite (proj2 (Z.leb_gt _ _)) by lia.
    rewrite (scan_field_digits ds) by (done || lia).
    destruct (digits_val ds <=? 0); [by eexists|].
    change (32 :: id ++ 32 :: tail) with (replicate 1 32 ++ id ++ 32 :: tail).
    rewrite skip_delims_spaces by (by destruct id).
    rewrite (proj2 (Z.ltb_ge _ _))
      by (autorewrite with strlen; pose proof (strlen_nonneg tail); lia).
    destruct (scan_field _) as [[bl t]|]; [|by eexists]. destruct (bl <=? 0); [by eexists|].
    destruct (scan_field t) as [[bo t']|]; [|by eexists]. destruct (bo <? 0); [by eexists|].
    eexists. split; [done|]. simpl. split; [done|lia]. }
  destruct Hp as (r & -> & Hr). cbn [mbind option_bind].
  destruct r as [[[[[elen ekl] bl] bo] kb]|]; [|done]. destruct Hr as [-> Hr].
  rewrite (proj2 (Z.leb_gt _ _)) by lia.
  rewrite (proj2 (Z.eqb_neq (strlen id) ekl)) by congruence.
  rewrite (proj2 (Z.ltb_lt 0 (strlen id))) by lia. cbn [andb negb orb mbind option_bind Z.ltb Z.eqb].
  change (0 <? 0) with false.
  set (k := set_record _ _ _ _ _). assert (Hk : (next k <? dSize k) = false).
  { apply Z.ltb_ge. unfold k, dSize. simpl. lia. }
  destruct n as [|n]; [unfold strlen in Hle; lia|]. cbn [locateLoop]. by rewrite Hk.
Qed.

(** * Witnesses *)

Definition wit_all : bytes -> bool := fun _ => true.
Definition wit_dir : bytes := cstr "/var/lib/sfcb/registration/repository/".
Definition wit_ns : bytes := cstr "root/cimv2".
Definition wit_cls : bytes := cstr "CIM_Disk".
Definition wit_es : list entry :=
  [(cstr "Name=a", cstr "first blob"); (cstr "Name=b", cstr "2nd")].
Definition wit_ix : bytes :=
  record_bytes 19 (cstr "Name=a") 10 0 0 ++ record_bytes 19 (cstr "Name=b") 3 10 0.
Definition wit_fs : files :=
  <[indexFile wit_dir wit_ns wit_cls := wit_ix]>
    (<[dataFile wit_dir wit_ns wit_cls := data_of wit_es]> ∅).

Lemma wit_usable : usable wit_all wit_dir wit_ns wit_cls.
Proof. by split_and!. Qed.

Lemma wit_record n id bl o : valid_id id -> 0 < bl -> 0 <= o -> o + bl < 2 ^ 31 ->
  strlen (record_bytes n id bl o 0) = n -> n < 1000 -> is_record id bl o (record_bytes n id bl o 0).
Proof. intros Hv H1 H2 H3 Hn H4. unfold is_record. rewrite Hn. split_and!; try done. by exists O. Qed.

Lemma wit_stored : stored wit_dir wit_fs wit_ns wit_cls wit_es.
Proof.
  apply (stored_intro _ _ _ _ _ wit_ix); [|done| |by vm_compute|by vm_compute].
  - by apply (bool_decide_eq_true_1 (NoDup (fst <$> wit_es))); vm_compute.
  - unfold wit_ix. rewrite <- (app_nil_r (record_bytes 19 (cstr "Name=b") _ _ _)).
    apply records_cons; [apply wit_record; (by vm_compute) || by split|]. apply records_cons; [apply wit_record; (by vm_compute) || by split|].
    apply records_nil.
Qed.

(** The blob of the first key is replaced; it is the last entry then. *)
Lemma addBlob_refines_witness : exists fs',
  addBlob wit_all wit_dir wit_fs wit_ns wit_cls (cstr "Name=a") (cstr "x") = Some (0, fs') /\
  stored wit_dir fs' wit_ns wit_cls [(cstr "Name=b", cstr "2nd"); (cstr "Name=a", cstr "x")].
Proof.
  destruct (addBlob_refines wit_all wit_dir wit_fs wit_ns wit_cls wit_es (cstr "Name=a") (cstr "x")
              wit_usable wit_stored) as (fs' & H & Hs & _); [by repeat split|].
  exists fs'. split; [exact H|].
  assert (E : spec_add (cstr "Name=a") (cstr "x") wit_es
              = [(cstr "Name=b", cstr "2nd"); (cstr "Name=a", cstr "x")]) by (by vm_compute).
  rewrite E in Hs. exact Hs.
Defined.

Lemma deleteBlob_refines_witness : exists fs',
  deleteBlob wit_all wit_dir wit_fs wit_ns wit_cls (cstr "Name=a") = Some (0, fs') /\
  stored wit_dir fs' wit_ns wit_cls [(cstr "Name=b", cstr "2nd")].
Proof.
  destruct (deleteBlob_refines wit_all wit_dir wit_fs wit_ns wit_cls wit_es (cstr "Name=a")
              wit_usable wit_stored) as (fs' & H & Hs & _); [done|].
  exists fs'. assert (E : bool_decide (cstr "Name=a" ∈ fst <$> wit_es) = true) by (by vm_compute).
  rewrite E in H. split; [exact H|].
  assert (E2 : spec_remove (cstr "Name=a") wit_es = [(cstr "Name=b", cstr "2nd")])
    by (by vm_compute).
  rewrite E2 in Hs. exact Hs.
Defined.

Lemma getBlob_refines_witness :
  getBlob wit_all wit_dir wit_fs wit_ns wit_cls (cstr "Name=b") = Some (Some (cstr "2nd")).
Proof.
  destruct (getBlob_refines wit_all wit_dir wit_fs wit_ns wit_cls wit_es (cstr "Name=b")
              wit_stored) as [-> _]; [done|]. by vm_compute.
Defined.

Lemma enumerate_refines_witness :
  enumerate wit_fs (newIndex wit_dir wit_ns wit_cls true wit_ix) = Some wit_es.
Proof. exact (enumerate_refines wit_all wit_dir wit_fs wit_ns wit_cls wit_es wit_stored). Defined.

Lemma long_key_lost_witness : exists fs',
  addBlob wit_all wit_dir ∅ wit_ns wit_cls (replicate 1000 97) [120] = Some (0, fs') /\
  existingBlob wit_all wit_dir fs' wit_ns wit_cls (replicate 1000 97) = Some false.
Proof.
  apply long_key_lost.
  - exact wit_usable.
  - split_and!; [constructor|done|by left].
  - by split.
  - by vm_compute.
  - by vm_compute.
Defined.
