(* ===== verification/Base64.v ===== *)
(** * Base 64 (encode64 and decode64 of support.c)

    [encode64_text] is what the loop of [encode64] writes, [encode64] checks it
    against the buffer of twice the length of the input.  [None] is undefined
    behaviour: a write past the buffer, or a character outside the alphabet, for
    which [find] subtracts pointers of different objects. *)

From S2P Require Import Prelude CString.

Definition cvt : bytes :=
  cstr "ABCDEFGHIJKLMNOPQRSTUVWXYZabcdefghijklmnopqrstuvwxyz0123456789+/".

Definition cvt_at (c : Z) : Z := nth (Z.to_nat c) cvt 0.

(** [(data[i] >> k) & m] and [(data[i] << k) & m] of a signed [char]. *)
Definition shr_and (b k m : Z) : Z := Z.land (Z.shiftr (schar b) k) m.
Definition shl_and (b k m : Z) : Z := Z.land (Z.shiftl (schar b) k) m.

Definition EQUALS : Z := 61.

(** The loop of [encode64]: one round takes up to three characters. *)
Fixpoint encode64_text (data : bytes) : bytes :=
  match data with
  | [] => []
  | [a] =>
      [cvt_at (shr_and a 2 63); cvt_at (shl_and a 4 63); EQUALS; EQUALS]
  | [a; b] =>
      [cvt_at (shr_and a 2 63); cvt_at (Z.lor (shl_and a 4 63) (shr_and b 4 15));
       cvt_at (shl_and b 2 63); EQUALS]
  | a :: b :: c :: data =>
      cvt_at (shr_and a 2 63) :: cvt_at (Z.lor (shl_and a 4 63) (shr_and b 4 15))
      :: cvt_at (Z.lor (shl_and b 2 63) (shr_and c 6 3))
      :: cvt_at (Z.land (schar c) 63) :: encode64_text data
  end.

(** [malloc(len * 2)], and the terminator is written too. *)
Definition encode64 (data : bytes) : option bytes :=
  let ret := encode64_text data in
  if strlen ret + 1 <=? strlen data * 2 then Some ret else None.

(** The position of a character; the terminator is found too. *)
Definition find (c : Z) : option Z :=
  if c =? 0 then Some (strlen cvt)
  else match strchr cvt c with
       | Some p => Some (strlen cvt - strlen p)
       | None => None
       end.

(** The bytes of one round from the first two sextets on. *)
Definition out1 (c c1 : Z) : Z := u8 (Z.lor (Z.shiftl c 2) (Z.land (Z.shiftr c1 4) 3)).
Definition out2 (c1 c : Z) : Z :=
  u8 (Z.lor (Z.land (Z.shiftl c1 4) 240) (Z.land (Z.shiftr c 2) 15)).
Definition out3 (c c1 : Z) : Z := u8 (Z.lor (Z.land (Z.shiftl c 6) 192) c1).

(** The loop of [decode64]; a missing second character is the terminator. *)
Fixpoint decode64_loop (data : bytes) : option bytes :=
  match data with
  | [] => Some []
  | [x] =>
      c ← find x; c1 ← find 0; Some [out1 c c1]
  | x :: y :: data =>
      c ← find x; c1 ← find y;
      let o1 := out1 c c1 in
      match data with
      | [] => Some [o1]
      | z :: data =>
          if z =? EQUALS then Some [o1] else
          c ← find z;
          let o2 := out2 c1 c in
          match data with
          | [] => Some [o1; o2]
          | w :: data =>
              if w =? EQUALS then Some [o1; o2] else
              c1 ← find w;
              rest ← decode64_loop data;
              Some (o1 :: o2 :: out3 c c1 :: rest)
          end
      end
  end.

(** [Some None]: the null pointer, for the empty string.  The decoded text is a
    C string: it ends at the first NUL.  The buffer is never too small. *)
Definition decode64 (din : bytes) : option (option bytes) :=
  match din with [] => Some None | _ => Some <$> decode64_loop din end.

(** ** The alphabet *)

Definition sextet (c : Z) : Prop := 0 <= c < 64.

Lemma find_cvt c : sextet c -> find (cvt_at c) = Some c /\ cvt_at c <> EQUALS.
Proof.
  intros Hc.
  assert (H : forallb (fun n => match find (cvt_at (Z.of_nat n)) with
                                | Some k => (k =? Z.of_nat n) && negb (cvt_at (Z.of_nat n) =? EQUALS)
                                | None => false end) (seq 0 64) = true) by (by vm_compute).
  rewrite forallb_forall in H. specialize (H (Z.to_nat c)).
  rewrite Z2Nat.id in H by (unfold sextet in Hc; lia).
  assert (Hin : In (Z.to_nat c) (seq 0 64)) by (apply in_seq; unfold sextet in Hc; lia).
  specialize (H Hin). destruct (find (cvt_at c)) as [k|]; [|done].
  apply andb_true_iff in H as [H1 H2]. apply Z.eqb_eq in H1. subst.
  split; [done|]. apply negb_true_iff, Z.eqb_neq in H2. done.
Qed.

(** ** Bits *)

Lemma schar_mod b : 0 <= b < 256 -> schar b mod 256 = b.
Proof.
  intros Hb. unfold schar. destruct (Z.ltb_spec b 128); [by apply Z.mod_small; lia|].
  replace (b - 256) with (b + (-1) * 256) by lia. rewrite Z_mod_plus_full.
  by apply Z.mod_small.
Qed.

Lemma schar_bit b i : 0 <= b < 256 -> 0 <= i < 8 -> Z.testbit (schar b) i = Z.testbit b i.
Proof.
  intros Hb Hi. rewrite <- (schar_mod b Hb) at 2.
  change 256 with (2 ^ 8). rewrite Z.mod_pow2_bits_low by lia. done.
Qed.

Lemma byte_bits a b : 0 <= a < 256 -> 0 <= b < 256 ->
  (forall i, 0 <= i < 8 -> Z.testbit a i = Z.testbit b i) -> a = b.
Proof.
  intros Ha Hb H. rewrite <- (Z.mod_small a (2 ^ 8)), <- (Z.mod_small b (2 ^ 8)) by lia.
  apply Z.bits_inj'. intros i Hi. destruct (decide (i < 8)).
  - rewrite !Z.mod_pow2_bits_low by lia. apply H. lia.
  - by rewrite !Z.mod_pow2_bits_high by lia.
Qed.

(** The bits of an expression of the operations above at a literal position. *)
Ltac bits_at :=
  repeat first
    [ rewrite Z.lor_spec | rewrite Z.land_spec
    | rewrite Z.shiftr_spec by lia | rewrite Z.shiftl_spec by lia
    | rewrite Z.mod_pow2_bits_low by lia
    | match goal with
      | |- context [Z.testbit ?x (?a + ?b)] =>
          let c := eval vm_compute in (a + b) in change (a + b) with c
      | |- context [Z.testbit ?x (?a - ?b)] =>
          let c := eval vm_compute in (a - b) in change (a - b) with c
      | |- context [Z.testbit ?x (Zneg ?p)] => rewrite (Z.testbit_neg_r x (Zneg p)) by lia
      | |- context [Z.testbit (Zpos ?q) ?i] =>
          let c := eval vm_compute in (Z.testbit (Zpos q) i) in change (Z.testbit (Zpos q) i) with c
      end ];
  rewrite ?andb_true_r, ?andb_false_r, ?orb_false_r; cbn [orb andb];
  rewrite ?schar_bit by lia.

Ltac each_bit :=
  apply byte_bits; [lia || (apply Z.mod_pos_bound; lia)|lia || (apply Z.mod_pos_bound; lia)|];
  let i := fresh "i" in let Hi := fresh "Hi" in intros i Hi;
  assert (i = 0 \/ i = 1 \/ i = 2 \/ i = 3 \/ i = 4 \/ i = 5 \/ i = 6 \/ i = 7) by lia;
  repeat match goal with H : _ \/ _ |- _ => destruct H as [->|H] end; subst; bits_at; try done.

Section Rounds.
Context (a b c : Z) (Ha : 0 <= a < 256) (Hb : 0 <= b < 256) (Hc : 0 <= c < 256).

Lemma round_out1_alone : out1 (shr_and a 2 63) (shl_and a 4 63) = a.
Proof. unfold out1, shr_and, shl_and, wrapu. each_bit. Qed.

Lemma round_out1 :
  out1 (shr_and a 2 63) (Z.lor (shl_and a 4 63) (shr_and b 4 15)) = a.
Proof. unfold out1, shr_and, shl_and, wrapu. each_bit. Qed.

Lemma round_out2_alone :
  out2 (Z.lor (shl_and a 4 63) (shr_and b 4 15)) (shl_and b 2 63) = b.
Proof. unfold out2, shr_and, shl_and, wrapu. each_bit. Qed.

Lemma round_out2 :
  out2 (Z.lor (shl_and a 4 63) (shr_and b 4 15)) (Z.lor (shl_and b 2 63) (shr_and c 6 3)) = b.
Proof. unfold out2, shr_and, shl_and, wrapu. each_bit. Qed.

Lemma round_out3 :
  out3 (Z.lor (shl_and b 2 63) (shr_and c 6 3)) (Z.land (schar c) 63) = c.
Proof. unfold out3, shr_and, shl_and, wrapu. each_bit. Qed.
End Rounds.

Lemma land_sextet x n : 0 <= n <= 6 -> sextet (Z.land x (2 ^ n - 1)).
Proof.
  intros Hn. unfold sextet. replace (2 ^ n - 1) with (Z.ones n) by (rewrite Z.ones_equiv; lia).
  rewrite Z.land_ones by lia. pose proof (Z.mod_pos_bound x (2 ^ n) ltac:(lia)).
  assert (2 ^ n <= 2 ^ 6) by (apply Z.pow_le_mono_r; lia). lia.
Qed.

Lemma lor_sextet x y : sextet x -> sextet y -> sextet (Z.lor x y).
Proof.
  unfold sextet. intros Hx Hy. assert (H0 : 0 <= Z.lor x y) by (apply Z.lor_nonneg; lia).
  split; [done|]. destruct (decide (Z.lor x y = 0)) as [->|Hn]; [lia|].
  apply (Z.log2_lt_pow2 _ 6); [lia|]. rewrite Z.log2_lor by lia.
  assert (H : forall z, 0 <= z < 64 -> Z.log2 z < 6).
  { intros z Hz. destruct (decide (z = 0)) as [->|]; [done|]. apply Z.log2_lt_pow2; lia. }
  pose proof (H x Hx). pose proof (H y Hy). lia.
Qed.

Lemma shr_sextet x k n : 0 <= n <= 6 -> sextet (shr_and x k (2 ^ n - 1)).
Proof. by apply land_sextet. Qed.
Lemma shl_sextet x k n : 0 <= n <= 6 -> sextet (shl_and x k (2 ^ n - 1)).
Proof. by apply land_sextet. Qed.

Create HintDb sextets.
#[local] Hint Resolve lor_sextet : sextets.
#[local] Hint Extern 1 (sextet (Z.land _ 63)) => (apply (land_sextet _ 6); lia) : sextets.
#[local] Hint Extern 1 (sextet (shr_and _ _ 63)) => (apply (shr_sextet _ _ 6); lia) : sextets.
#[local] Hint Extern 1 (sextet (shl_and _ _ 63)) => (apply (shl_sextet _ _ 6); lia) : sextets.
#[local] Hint Extern 1 (sextet (shr_and _ _ 15)) => (apply (shr_sextet _ _ 4); lia) : sextets.
#[local] Hint Extern 1 (sextet (shr_and _ _ 3)) => (apply (shr_sextet _ _ 2); lia) : sextets.

Ltac find_back :=
  repeat match goal with
    | |- context [find (cvt_at ?x)] =>
        destruct (find_cvt x) as [-> _]; [auto 6 with sextets|]; cbn [mbind option_bind]
    | |- context [cvt_at ?x =? EQUALS] =>
        rewrite (proj2 (Z.eqb_neq (cvt_at x) EQUALS)) by (apply find_cvt; auto 6 with sextets)
    end.


(** Three characters at a time. *)
Lemma by_threes (P : bytes -> Prop) :
  P [] -> (forall a, P [a]) -> (forall a b, P [a; b]) ->
  (forall a b c s, P s -> P (a :: b :: c :: s)) -> forall s, P s.
Proof.
  intros H0 H1 H2 H3. fix IH 1. intros [|a [|b [|c s]]]; [done|by apply H1|by apply H2|].
  by apply H3.
Qed.

Lemma decode_encode_loop data :
  Forall is_byte data -> decode64_loop (encode64_text data) = Some data.
Proof.
  induction data as [|a|a b|a b c s IH] using by_threes; intros Hd; [done| | |];
    rewrite ?Forall_cons in Hd; destruct_and! Hd; unfold is_byte in *;
    cbn [encode64_text decode64_loop]; find_back; cbn [Z.eqb Pos.eqb EQUALS].
  - change (EQUALS =? EQUALS) with true. cbv iota. by rewrite round_out1_alone.
  - change (EQUALS =? EQUALS) with true. cbv iota. by rewrite round_out1, round_out2_alone.
  - rewrite IH by done. cbn [mbind option_bind]. by rewrite round_out1, round_out2, round_out3.
Qed.

(** C5: decoding what the loop of [encode64] writes gives every non-empty text back. It is
    about the text that is written, and not about its place: for 1, 2 and 4 characters it
    does not fit the memory that is allocated for it ([encode64_buffer]). *)
Theorem base64_roundtrip data :
  Forall is_byte data -> data <> [] -> decode64 (encode64_text data) = Some (Some data).
Proof.
  intros Hd Hn. unfold decode64. rewrite (decode_encode_loop data Hd).
  by destruct data as [|a [|b [|c s]]].
Qed.

Lemma encode64_length data : strlen (encode64_text data) = 4 * ((strlen data + 2) / 3).
Proof.
  induction data as [|a|a b|a b c s IH] using by_threes; try done.
  cbn [encode64_text]. autorewrite with strlen. rewrite IH.
  replace (1 + (1 + (1 + strlen s)) + 2) with (strlen s + 2 + 1 * 3) by lia.
  rewrite Z_div_plus_full by lia. lia.
Qed.

(** The buffer of [encode64] holds the encoded text and its terminator unless
    the input has 0, 1, 2 or 4 characters: then the code writes behind it. *)
Theorem encode64_buffer data :
  encode64 data
  = if bool_decide (strlen data ∈ [0; 1; 2; 4]) then None else Some (encode64_text data).
Proof.
  unfold encode64. rewrite encode64_length. pose proof (strlen_nonneg data) as Hp.
  set (n := strlen data) in *.
  pose proof (Z.div_mod (n + 2) 3 ltac:(lia)). pose proof (Z.mod_pos_bound (n + 2) 3 ltac:(lia)).
  case_bool_decide as Hin.
  - assert (Hc : n = 0 \/ n = 1 \/ n = 2 \/ n = 4) by (rewrite !elem_of_cons, elem_of_nil in Hin; lia).
    rewrite (proj2 (Z.leb_gt _ _)); [done|]. lia.
  - assert (Hc : n <> 0 /\ n <> 1 /\ n <> 2 /\ n <> 4) by (rewrite !elem_of_cons, elem_of_nil in Hin; lia).
    rewrite (proj2 (Z.leb_le _ _)); [done|]. lia.
Qed.

Lemma base64_roundtrip_witness :
  decode64 (cstr "dXNlcjpwYXNz") = Some (Some (cstr "user:pass")).
Proof.
  change (cstr "dXNlcjpwYXNz") with (encode64_text (cstr "user:pass")).
  apply base64_roundtrip; [|done]. repeat constructor; by vm_compute.
Defined.
