(* ===== verification/HashTable.v ===== *)
(** * Hash tables with string keys

    The broker takes its hash tables from a library ([UtilFactory->newHashTable]
    of sfcCommon).  The class states what the components rely on: keys are
    strings, compared with or without regard to case, and [get] returns the value
    last [put] under an equal key.  [assoc_table] is an implementation that keeps
    the entries in a list. *)

From S2P Require Import Prelude CString.

Definition same_key (ignoreCase : bool) (a b : bytes) : bool :=
  if ignoreCase then strcasecmp a b =? 0 else strcmp a b =? 0.

Class CharHashTable (T V : Type) := {
  ht_ignoreCase : bool;
  ht_new : T;
  ht_put : T -> bytes -> V -> T;
  ht_get : T -> bytes -> option V;
  ht_get_new : forall k, ht_get ht_new k = None;
  ht_get_put : forall t k v k',
    ht_get (ht_put t k v) k' = if same_key ht_ignoreCase k k' then Some v else ht_get t k';
  ht_get_same : forall t k k', same_key ht_ignoreCase k k' = true -> ht_get t k = ht_get t k'
}.

Lemma same_key_refl ic k : same_key ic k k = true.
Proof. unfold same_key, strcasecmp. destruct ic; by rewrite strcmp_refl. Qed.

Lemma same_key_exact a b : same_key false a b = true <-> a = b.
Proof. unfold same_key. by rewrite Z.eqb_eq, strcmp_eq. Qed.

Lemma same_key_nocase a b : same_key true a b = true <-> tolower <$> a = tolower <$> b.
Proof. unfold same_key, strcasecmp. by rewrite Z.eqb_eq, strcmp_eq. Qed.

(** Keys are equal when their normal forms are. *)
Definition normal_key (ic : bool) (k : bytes) : bytes := if ic then tolower <$> k else k.

Lemma same_key_normal ic a b : same_key ic a b = true <-> normal_key ic a = normal_key ic b.
Proof. destruct ic; [apply same_key_nocase|apply same_key_exact]. Qed.

Lemma same_key_cong ic a b c : same_key ic a b = true -> same_key ic c a = same_key ic c b.
Proof. intros H%same_key_normal. apply eq_true_iff_eq. by rewrite !same_key_normal, H. Qed.

Section Assoc.
Context {V : Type} (ic : bool).

Fixpoint assoc_get (t : list (bytes * V)) (k : bytes) : option V :=
  match t with
  | [] => None
  | (k', v) :: t => if same_key ic k' k then Some v else assoc_get t k
  end.

Lemma assoc_get_same t k k' : same_key ic k k' = true -> assoc_get t k = assoc_get t k'.
Proof.
  intros H. induction t as [|[k0 v] t IH]; [done|]. simpl. by rewrite (same_key_cong ic k k' k0 H), IH.
Qed.

Definition assoc_table : CharHashTable (list (bytes * V)) V.
Proof.
  refine {| ht_ignoreCase := ic; ht_new := []; ht_put := fun t k v => (k, v) :: t;
            ht_get := assoc_get; ht_get_same := assoc_get_same |}; done.
Defined.
End Assoc.

(** Putting a list of entries in order. *)
Definition ht_puts `{CharHashTable T V} (t : T) (l : list (bytes * V)) : T :=
  foldl (fun t e => ht_put t e.1 e.2) t l.

Lemma ht_get_puts_other `{CharHashTable T V} (t : T) l k :
  Forall (fun e => same_key ht_ignoreCase e.1 k = false) l -> ht_get (ht_puts t l) k = ht_get t k.
Proof.
  unfold ht_puts. revert t. induction l as [|e l IH]; intros t Hl; [done|].
  apply Forall_cons in Hl as [He Hl]. simpl. rewrite IH by done. by rewrite ht_get_put, He.
Qed.

(** The only entry with a key is found. *)
Lemma ht_get_puts_found `{CharHashTable T V} (t : T) (l : list (bytes * V)) i k v key :
  l !! i = Some (k, v) -> same_key ht_ignoreCase k key = true ->
  (forall j e, l !! j = Some e -> same_key ht_ignoreCase e.1 key = true -> j = i) ->
  ht_get (ht_puts t l) key = Some v.
Proof.
  unfold ht_puts. revert t i. induction l as [|e l IH]; intros t i Hi Hk Hu; [done|].
  destruct i as [|i]; simpl in Hi.
  - injection Hi as ->. change (ht_get (ht_puts (ht_put t k v) l) key = Some v).
    rewrite ht_get_puts_other; [by rewrite ht_get_put, Hk|].
    apply Forall_lookup_2. intros j e He. destruct (same_key _ e.1 key) eqn:E; [|done].
    by specialize (Hu (S j) e He E).
  - simpl. apply (IH _ i Hi Hk). intros j e' Hj E. specialize (Hu (S j) e' Hj E). lia.
Qed.

(** ** Walking over a table *)

(** Removal, and [getFirst]/[getNext] as the list of the values they reach, in the
    order of the implementation. *)
Class HashTableWalk (T V : Type) `{!CharHashTable T V} := {
  ht_values : T -> list V;
  ht_remove : T -> bytes -> T;
  ht_values_get : forall t v, v ∈ ht_values t <-> exists k, ht_get t k = Some v;
  ht_get_remove : forall t k k',
    ht_get (ht_remove t k) k' = if same_key ht_ignoreCase k k' then None else ht_get t k'
}.

Section AssocWalk.
Context {V : Type} (ic : bool).
#[local] Instance assoc_inst : CharHashTable (list (bytes * V)) V := assoc_table ic.

(** The first entry of each key. *)
Fixpoint assoc_values (t : list (bytes * V)) (seen : list bytes) : list V :=
  match t with
  | [] => []
  | (k, v) :: t => if existsb (fun k' => same_key ic k' k) seen then assoc_values t seen
                   else v :: assoc_values t (k :: seen)
  end.
Definition assoc_remove (t : list (bytes * V)) (k : bytes) : list (bytes * V) :=
  List.filter (fun e => negb (same_key ic k e.1)) t.

Lemma seen_cong k0 k seen : same_key ic k0 k = true ->
  existsb (fun k' => same_key ic k' k0) seen = existsb (fun k' => same_key ic k' k) seen.
Proof. intros H. induction seen as [|x seen IH]; [done|]. simpl. by rewrite (same_key_cong ic k0 k x H), IH. Qed.

Lemma assoc_values_get t seen v : v ∈ assoc_values t seen <->
  exists k, assoc_get ic t k = Some v /\ existsb (fun k' => same_key ic k' k) seen = false.
Proof.
  revert seen. induction t as [|[k0 v0] t IH]; intros seen; simpl.
  - split; [by intros ?%elem_of_nil|by intros (? & ? & _)].
  - destruct (existsb _ seen) eqn:E.
    + rewrite IH. split; intros (k & Hg & Hs); exists k; split; try done;
        (destruct (same_key ic k0 k) eqn:Ek; [|done]); by rewrite (seen_cong k0 k seen Ek), Hs in E.
    + rewrite elem_of_cons, IH. split.
      * intros [->|(k & Hg & Hs)].
        -- exists k0. by rewrite same_key_refl.
        -- simpl in Hs. apply orb_false_iff in Hs as [Hk Hs]. exists k. by rewrite Hk.
      * intros (k & Hg & Hs). simpl. destruct (same_key ic k0 k) eqn:Ek; [left; congruence|].
        right. exists k. by rewrite Ek.
Qed.

Lemma assoc_get_remove t k k' :
  assoc_get ic (assoc_remove t k) k' = if same_key ic k k' then None else assoc_get ic t k'.
Proof.
  unfold assoc_remove. induction t as [|[k0 v] t IH]; simpl; [by destruct (same_key ic k k')|].
  destruct (same_key ic k k0) eqn:E; simpl.
  - rewrite IH. destruct (same_key ic k k') eqn:E'; [done|].
    destruct (same_key ic k0 k') eqn:E0; [|done].
    rewrite <- (same_key_cong ic k0 k' k E0), E in E'. done.
  - destruct (same_key ic k0 k') eqn:E0; [|done].
    by rewrite <- (same_key_cong ic k0 k' k E0), E.
Qed.

Definition assoc_walk : HashTableWalk (list (bytes * V)) V.
Proof.
  refine {| ht_values := fun t => assoc_values t []; ht_remove := assoc_remove |}.
  - intros t v. rewrite assoc_values_get. split; intros (k & H); exists k; [by destruct H|done].
  - intros t k k'. apply assoc_get_remove.
Defined.

(** The walk reaches every entry once. *)
Lemma assoc_values_once t : forall seen, exists ks,
  NoDup (normal_key ic <$> ks) /\ Forall2 (fun k v => assoc_get ic t k = Some v) ks (assoc_values t seen) /\
  Forall (fun k => existsb (fun k' => same_key ic k' k) seen = false) ks /\
  forall k, is_Some (assoc_get ic t k) -> existsb (fun k' => same_key ic k' k) seen = false -> exists k', k' ∈ ks /\ same_key ic k' k = true.
Proof.
  induction t as [|[k0 v0] t IH]; intros seen.
  { exists []. split_and!; [constructor|constructor|constructor|]. by intros k [? ?]. }
  cbn [assoc_values assoc_get].
  assert (Hother : forall k seen, existsb (fun k' => same_key ic k' k) (k0 :: seen) = false -> same_key ic k0 k = false)
    by (intros k sn Hk; cbn in Hk; by apply orb_false_iff in Hk as [? _]).
  destruct (existsb (fun k' => same_key ic k' k0) seen) eqn:E.
  - destruct (IH seen) as (ks & Hn & HF & Hs & Hall). exists ks. split_and!; [done| |done|].
    2: { intros k Hk Hseen. apply Hall; [|done]. destruct (same_key ic k0 k) eqn:Ek; [|done].
         by rewrite (seen_cong k0 k seen Ek), Hseen in E. }
    clear Hn Hall. induction HF as [|k v ks vs Hk _ IHF]; constructor.
    + apply Forall_cons in Hs as [Hs _]. destruct (same_key ic k0 k) eqn:Ek; [|done].
      by rewrite (seen_cong k0 k seen Ek), Hs in E.
    + apply IHF. by apply Forall_cons in Hs as [_ ?].
  - destruct (IH (k0 :: seen)) as (ks & Hn & HF & Hs & Hall). exists (k0 :: ks). split_and!.
    + cbn [fmap list_fmap]. apply NoDup_cons. split; [|done]. intros (k & Ek & Hk)%list_elem_of_fmap.
      apply (proj1 (Forall_forall _ _) Hs) in Hk. apply Hother in Hk.
      by rewrite (proj2 (same_key_normal ic k0 k) Ek) in Hk.
    + constructor; [by rewrite same_key_refl|]. clear Hn Hall. induction HF as [|k v ks vs Hk _ IHF]; constructor.
      * apply Forall_cons in Hs as [Hs _]. by rewrite (Hother _ _ Hs).
      * apply IHF. by apply Forall_cons in Hs as [_ ?].
    + constructor; [done|]. eapply Forall_impl; [exact Hs|]. intros k Hk. cbn in Hk. by apply orb_false_iff in Hk as [_ ?].
    + intros k Hk Hseen. destruct (same_key ic k0 k) eqn:Ek; [exists k0; split; [apply elem_of_cons; by left|done]|].
      destruct (Hall k Hk) as (k' & Hin & Hsame); [cbn; by rewrite Ek|]. exists k'. split; [apply elem_of_cons; by right|done].
Qed.
End AssocWalk.

Class HashTableOnce (T V : Type) `{!CharHashTable T V} `{!HashTableWalk T V} : Prop := ht_values_once : forall t, exists ks,
  NoDup (normal_key ht_ignoreCase <$> ks) /\ Forall2 (fun k v => ht_get t k = Some v) ks (ht_values t) /\
  forall k, is_Some (ht_get t k) -> exists k', k' ∈ ks /\ same_key ht_ignoreCase k' k = true.

Lemma assoc_once {V} ic : @HashTableOnce (list (bytes * V)) V (assoc_table ic) (assoc_walk ic).
Proof.
  intros t. destruct (assoc_values_once ic t []) as (ks & Hn & HF & _ & Hall). exists ks. split_and!; [done|done|].
  intros k Hk. by apply Hall.
Qed.
