(* ===== verification/Support.v ===== *)
(** * Control statements and argument lists (support.c)

    The scanner of configuration and registration files.  [None] is undefined
    behaviour: a null pointer returned by [strpbrk] is followed. *)

From S2P Require Import Prelude CString.

Record CntlVals := { cv_type : Z; cv_id : option bytes; cv_val : option bytes }.

(** [char] is signed: a byte from 128 on is below the blank. *)
Definition is_ws (b : Z) : bool := schar b <=? 32.

Fixpoint cntlSkipws (p : bytes) : bytes :=
  match p with
  | b :: p' => if is_ws b && negb (b =? 10) then cntlSkipws p' else p
  | [] => []
  end.

Definition cntlParseStmt (in0 : bytes) : option CntlVals :=
  let s := cntlSkipws in0 in
  match s with
  | [] => Some {| cv_type := 3; cv_id := None; cv_val := None |}
  | b :: s1 =>
      if (b =? 35) || (b =? 10) then Some {| cv_type := 3; cv_id := None; cv_val := None |}
      else if b =? 91 then
        p ← strpbrk s1 (cstr "] " ++ [9; 10]);
        if at0 p =? 93
        then Some {| cv_type := 1; cv_id := Some (cut s1 p); cv_val := None |}
        else Some {| cv_type := 0; cv_id := None; cv_val := None |}
      else
        p ← strpbrk s (cstr ": " ++ [9; 10]);
        if at0 p =? 58
        then Some {| cv_type := 2; cv_id := Some (cut s p); cv_val := Some (cntlSkipws (tail p)) |}
        else Some {| cv_type := 0; cv_id := None; cv_val := None |}
  end.

(** The next word of the value, and what is left for the next call. *)
Definition cntlGetVal (rv : CntlVals) : option bytes * CntlVals :=
  match cv_val rv with
  | None => (None, rv)
  | Some val =>
      let v := cntlSkipws val in
      let mk x := {| cv_type := cv_type rv; cv_id := cv_id rv; cv_val := x |} in
      match strpbrk v (cstr " " ++ [9; 10]) with
      | Some p =>
          (Some (cut v p), mk (if at0 p =? 10 then None else Some (tail p)))
      | None => (Some v, mk None)
      end
  end.

Definition cntlGetStr (rv : CntlVals) : option bytes * CntlVals :=
  match cv_val rv with
  | None => (None, rv)
  | Some val =>
      let v := cntlSkipws val in
      (Some v, {| cv_type := cv_type rv; cv_id := cv_id rv; cv_val := Some v |})
  end.

(** ** Argument lists *)

(** The first loop of [buildArgList]: the number of words. *)
Fixpoint countArgs (str : bytes) (f : bool) (s : nat) : nat :=
  match str with
  | [] => s
  | b :: str => if is_ws b then countArgs str true s
                else countArgs str false (if f then S s else s)
  end.

(** The second loop on the copy [ps]: the copy with its blanks turned into NULs,
    and the offsets stored in [argv] from 1 on. *)
Fixpoint storeArgs (ps : bytes) (i : nat) (f : bool) : bytes * list nat :=
  match ps with
  | [] => ([], [])
  | b :: ps =>
      if is_ws b then let '(ps', a) := storeArgs ps (S i) true in (0 :: ps', a)
      else let '(ps', a) := storeArgs ps (S i) false in
           (b :: ps', if f then i :: a else a)
  end.

(** The string at an offset of a buffer. *)
Fixpoint upto_nul (s : bytes) : bytes :=
  match s with
  | [] => []
  | b :: s => if b =? 0 then [] else b :: upto_nul s
  end.

(** [None]: more pointers are stored than [argv] has room for. *)
Definition buildArgList (str pgm : bytes) : option (list bytes * Z) :=
  let room := (countArgs str true 0 + 2)%nat in
  let '(ps, offs) := storeArgs str 0 true in
  if (length offs + 1 <? room)%nat
  then Some (pgm :: ((fun o => upto_nul (drop o ps)) <$> offs), 1 + Z.of_nat (length offs))
  else None.

(** ** Specification of the argument list: the words between blanks *)

(** Words of [str]; [w] is the word being read. *)
Fixpoint words (str w : bytes) : list bytes :=
  match str with
  | [] => match w with [] => [] | _ => [w] end
  | b :: str =>
      if is_ws b then match w with [] => words str [] | _ => w :: words str [] end
      else words str (w ++ [b])
  end.

Lemma is_ws_nonzero b : is_ws b = false -> b <> 0.
Proof. by intros H ->. Qed.

(** The word that is being read is the rest of it up to a blank. *)
Fixpoint word_rest (str : bytes) : bytes :=
  match str with
  | [] => []
  | b :: str => if is_ws b then [] else b :: word_rest str
  end.
Fixpoint after_word (str : bytes) : bytes :=
  match str with
  | [] => []
  | b :: str => if is_ws b then str else after_word str
  end.

Lemma words_rest str w : w <> [] -> words str w = (w ++ word_rest str) :: words (after_word str) [].
Proof.
  revert w. induction str as [|b str IH]; intros w Hw; simpl.
  - rewrite app_nil_r. by destruct w.
  - destruct (is_ws b).
    + rewrite app_nil_r. by destruct w.
    + rewrite IH by (by destruct w). by rewrite <- app_assoc.
Qed.

Lemma upto_nul_store str i f : upto_nul (fst (storeArgs str i f)) = word_rest str.
Proof.
  revert i f. induction str as [|b str IH]; intros i f; [done|]. simpl.
  destruct (is_ws b) eqn:Hb.
  - by destruct (storeArgs str (S i) true).
  - specialize (IH (S i) false). destruct (storeArgs str (S i) false) as [ps a]. simpl in *.
    rewrite (proj2 (Z.eqb_neq b 0)) by (by apply is_ws_nonzero). by rewrite IH.
Qed.

(** The offsets from [i] on, read in the whole buffer. *)
Lemma storeArgs_words str pre i f : length pre = i ->
  let '(ps, offs) := storeArgs str i f in
  (fun o => upto_nul (drop o (pre ++ ps))) <$> offs
  = if f then words str [] else words (after_word str) [].
Proof.
  revert pre i f. induction str as [|b str IH]; intros pre i f Hi; simpl; [by destruct f|].
  destruct (is_ws b) eqn:Hb.
  - specialize (IH (pre ++ [0]) (S i) true). destruct (storeArgs str (S i) true) as [ps offs].
    rewrite <- app_assoc in IH. simpl in IH. rewrite IH by (rewrite length_app; simpl; lia).
    by destruct f.
  - pose proof (upto_nul_store str (S i) false) as Hu.
    specialize (IH (pre ++ [b]) (S i) false). destruct (storeArgs str (S i) false) as [ps offs].
    rewrite <- app_assoc in IH. simpl in IH, Hu. specialize (IH ltac:(rewrite length_app; simpl; lia)).
    destruct f; [|done]. rewrite fmap_cons, IH.
    rewrite <- Hi, drop_app_length. simpl.
    rewrite (proj2 (Z.eqb_neq b 0)) by (by apply is_ws_nonzero).
    rewrite Hu. by rewrite (words_rest str [b]).
Qed.

Lemma countArgs_store str i f s :
  countArgs str f s = (s + length (snd (storeArgs str i f)))%nat.
Proof.
  revert i f s. induction str as [|b str IH]; intros i f s; simpl; [lia|].
  destruct (is_ws b).
  - rewrite (IH (S i)). by destruct (storeArgs str (S i) true).
  - rewrite (IH (S i)). destruct (storeArgs str (S i) false). destruct f; simpl; lia.
Qed.

(** ** Lines of assignments and sections *)

Definition key_byte (b : Z) : bool := negb (existsb (Z.eqb b) (cstr ": " ++ [9; 10])).
Definition value_byte (b : Z) : bool := negb (existsb (Z.eqb b) (cstr " " ++ [9; 10])).
Definition section_byte (b : Z) : bool := negb (existsb (Z.eqb b) (cstr "] " ++ [9; 10])).

Definition key_ok (k : bytes) : bool :=
  match k with
  | [] => false
  | b :: _ => forallb key_byte k && negb (is_ws b) && negb (b =? 35) && negb (b =? 91)
  end.
(** The scanner does not skip the first byte. *)
Definition starts_word (v : bytes) : bool := match v with [] => true | b :: _ => negb (is_ws b) end.
Definition value_ok (v : bytes) : bool := forallb value_byte v && starts_word v.

Lemma byte_not (f : Z -> bool) s b : forallb (fun x => negb (f x)) s = true -> b ∈ s -> f b = false.
Proof.
  rewrite forallb_forall. intros H Hb. apply negb_true_iff, H. by apply list_elem_of_In.
Qed.

Lemma keys_no_sep (f : Z -> bool) s :
  forallb (fun x => negb (f x)) s = true -> Forall (fun b => f b = false) s.
Proof. intros H. apply Forall_forall. intros b Hb. by apply (byte_not f s). Qed.

(** No newline among bytes that are no separators. *)
Lemma no_sep_newline (f : Z -> bool) s : f 10 = true -> forallb (fun x => negb (f x)) s = true ->
  Forall (fun b => b <> 10) s.
Proof. intros Hf Hs. apply Forall_forall. intros b Hb ->. by rewrite (byte_not f s 10) in Hf. Qed.

Lemma skipws_stop b s : is_ws b = false -> cntlSkipws (b :: s) = b :: s.
Proof. intros H. simpl. by rewrite H. Qed.

(** The bytes that the scanner skips. *)
Definition skipped (b : Z) : bool := is_ws b && negb (b =? 10).

Lemma skipws_all ws s : forallb skipped ws = true -> cntlSkipws (ws ++ s) = cntlSkipws s.
Proof.
  induction ws as [|b ws IH]; [done|]. cbn [forallb app cntlSkipws]. intros [Hb H]%andb_true_iff. unfold skipped in Hb. rewrite Hb. by apply IH.
Qed.

Lemma skipws_value v rest : starts_word v = true -> cntlSkipws (v ++ 10 :: rest) = v ++ 10 :: rest.
Proof. destruct v as [|c v]; [done|]. intros H%negb_true_iff. simpl. by rewrite H. Qed.

(** A line that sets a key, with blanks before it and before its value. *)
Lemma parse_setting ws0 k ws v : forallb skipped ws0 = true -> key_ok k = true -> forallb skipped ws = true -> starts_word v = true ->
  cntlParseStmt (ws0 ++ k ++ 58 :: ws ++ v ++ [10])
    = Some {| cv_type := 2; cv_id := Some k; cv_val := Some (v ++ [10]) |}.
Proof.
  intros Hws0 Hk Hws' Hv. destruct k as [|b k]; [done|].
  unfold key_ok in Hk. apply andb_true_iff in Hk as [Hk H91]. apply andb_true_iff in Hk as [Hk H35].
  apply andb_true_iff in Hk as [Hk Hws]. apply negb_true_iff in Hws, H35, H91.
  unfold cntlParseStmt. rewrite skipws_all, <- app_comm_cons, skipws_stop by done.
  assert (H10 : (b =? 10) = false).
  { apply Z.eqb_neq. intros ->. by vm_compute in Hws. }
  rewrite H35, H10, H91. cbn [orb].
  rewrite app_comm_cons. rewrite strpbrk_app; [|by apply keys_no_sep|done].
  cbn [mbind option_bind at0 Z.eqb Pos.eqb tail]. rewrite cut_app, skipws_all by done.
  by rewrite (skipws_value v []).
Qed.

(** An indented [key: value] line. *)
Lemma parse_statement n k v : key_ok k = true -> starts_word v = true ->
  cntlParseStmt (replicate n 32 ++ k ++ cstr ": " ++ v ++ [10])
    = Some {| cv_type := 2; cv_id := Some k; cv_val := Some (v ++ [10]) |}.
Proof.
  intros Hk Hv. apply (parse_setting (replicate n 32) k [32] v); [|done|done|done]. by induction n.
Qed.

(** A blank line or a comment. *)
Lemma parse_skipped ws t : forallb skipped ws = true -> t = [] \/ at0 t = 35 ->
  cntlParseStmt (ws ++ t ++ [10]) = Some {| cv_type := 3; cv_id := None; cv_val := None |}.
Proof.
  intros Hws Ht. unfold cntlParseStmt. rewrite skipws_all by done. destruct Ht as [->|Ht]; [done|].
  destruct t as [|b t]; [done|]. cbn in Ht. subst b. done.
Qed.

Lemma parse_section c rest : forallb section_byte c = true ->
  cntlParseStmt (91 :: c ++ 93 :: rest) = Some {| cv_type := 1; cv_id := Some c; cv_val := None |}.
Proof.
  intros Hc. unfold cntlParseStmt. rewrite skipws_stop by done. cbn [Z.eqb Pos.eqb orb].
  rewrite strpbrk_app; [|by apply keys_no_sep|done].
  cbn [mbind option_bind at0 Z.eqb Pos.eqb]. by rewrite cut_app.
Qed.

(** The last word of a value. *)
Lemma get_value v t i : value_ok v = true ->
  cntlGetVal {| cv_type := t; cv_id := i; cv_val := Some (v ++ [10]) |}
  = (Some v, {| cv_type := t; cv_id := i; cv_val := None |}).
Proof.
  intros Hv. unfold value_ok in Hv. apply andb_true_iff in Hv as [Hb Hv].
  unfold cntlGetVal. cbn [cv_val]. rewrite (skipws_value v []) by done.
  rewrite strpbrk_app by (by apply keys_no_sep || done). simpl. by rewrite cut_app.
Qed.

(** The first word of a value. *)
Fixpoint first_word (v : bytes) : bytes :=
  match v with [] => [] | b :: v => if value_byte b then b :: first_word v else [] end.

Lemma first_word_split v : forallb value_byte (first_word v) = true /\
  (v = first_word v \/ exists c rest, v = first_word v ++ c :: rest /\ value_byte c = false).
Proof.
  induction v as [|b v [Hb IH]]; [split; [done|by left]|]. cbn [first_word]. destruct (value_byte b) eqn:E.
  - cbn [forallb]. rewrite E, Hb. split; [done|]. destruct IH as [IH|(c & rest & IH & Hc)].
    + left. by f_equal.
    + right. exists c, rest. split; [|done]. cbn. by f_equal.
  - split; [done|]. right. by exists b, v.
Qed.

Lemma get_first_word v t i : starts_word v = true ->
  fst (cntlGetVal {| cv_type := t; cv_id := i; cv_val := Some (v ++ [10]) |}) = Some (first_word v).
Proof.
  intros Hs. unfold cntlGetVal. cbn [cv_val]. rewrite (skipws_value v []) by done.
  destruct (first_word_split v) as [Hb H].
  assert (E : exists c rest, v ++ [10] = first_word v ++ c :: rest /\ value_byte c = false).
  { destruct H as [H|(c & rest & H & Hc)].
    - exists 10, []. split; [by rewrite <- H|done].
    - exists c, (rest ++ [10]). split; [|done]. rewrite H at 1. by rewrite <- app_assoc. }
  destruct E as (c & rest & -> & Hc). apply negb_false_iff in Hc.
  rewrite strpbrk_app by (by apply keys_no_sep || done). cbn [fst]. by rewrite cut_app.
Qed.

Lemma first_word_value v : value_ok v = true -> first_word v = v.
Proof.
  intros [H _]%andb_true_iff. induction v as [|b v IH]; [done|]. cbn [forallb] in H. apply andb_true_iff in H as [Hb H].
  cbn [first_word]. by rewrite Hb, IH.
Qed.

(** A word before others. *)
Lemma get_word v rest t i : value_ok v = true -> v <> [] ->
  cntlGetVal {| cv_type := t; cv_id := i; cv_val := Some (v ++ 32 :: rest) |}
  = (Some v, {| cv_type := t; cv_id := i; cv_val := Some rest |}).
Proof.
  intros Hv Hne. unfold value_ok in Hv. apply andb_true_iff in Hv as [Hb Hv].
  unfold cntlGetVal. cbn [cv_val].
  assert (E : cntlSkipws (v ++ 32 :: rest) = v ++ 32 :: rest).
  { destruct v as [|c v]; [done|]. apply negb_true_iff in Hv. simpl. by rewrite Hv. }
  rewrite E, strpbrk_app by (by apply keys_no_sep || done). simpl. by rewrite cut_app.
Qed.

(** the argument vector is the program and the words of the text, never more of
    them than the first pass counted. *)
Theorem buildArgList_words str pgm :
  buildArgList str pgm = Some (pgm :: words str [], 1 + Z.of_nat (length (words str []))).
Proof.
  unfold buildArgList. pose proof (storeArgs_words str [] 0 true eq_refl) as Hw.
  pose proof (countArgs_store str 0 true 0) as Hc. destruct (storeArgs str 0 true) as [ps offs].
  simpl in Hw, Hc. rewrite Hc, (proj2 (Nat.ltb_lt _ _)) by lia.
  rewrite <- Hw. by rewrite length_fmap.
Qed.
