(* ===== verification/Control.v ===== *)
(** * The configuration (control.c)

    The table [init] of the known settings with their defaults, filled from the
    configuration file by [setupControl] and read by the [getControl...]
    functions through a hash table of the indexes into it.  A file is its bytes
    (without NULs); [read] gives the content of a path that can be opened.
    [None] is undefined behaviour: a null or released pointer is followed. *)

From S2P Require Import Prelude CString HashTable Support.

(** A [strValue]: null, a string, or released memory. *)
Inductive sval := SNull | SStr (s : bytes) | SFreed.

Record Control := { id : bytes; type : Z; strValue : sval; dupped : bool }.

(** [exit(1)], or a result and the new state. *)
Inductive outcome (A : Type) := Exits | Returns (a : A).
Arguments Exits {A}.
Arguments Returns {A}.

(** [fgets(fin, 1024, in)] *)
Fixpoint fgets (n : nat) (s : bytes) : bytes * bytes :=
  match n, s with
  | O, _ | _, [] => ([], s)
  | S n, b :: s =>
      if b =? 10 then ([b], s) else let '(l, r) := fgets n s in (b :: l, r)
  end.

Definition LINE : nat := 1023.

Section Control.
Context {T : Type} `{!CharHashTable T nat}.
(** Directories set when the broker is built, and whether SLP is compiled in. *)
Context (SFCB_CONFDIR SFCB_STATEDIR providerDirs : bytes) (HAVE_SLP : bool).
Context (read : bytes -> option bytes).

Definition entry0 (i : string) (t : Z) (v : string) : Control :=
  {| id := cstr i; type := t; strValue := SStr (cstr v); dupped := false |}.
Definition entryD (i : string) (v : bytes) : Control :=
  {| id := cstr i; type := 0; strValue := SStr v; dupped := false |}.
Definition entryN (i : string) (t : Z) : Control :=
  {| id := cstr i; type := t; strValue := SNull; dupped := false |}.

Definition init0 : list Control :=
  [entry0 "httpPort" 1 "5988"; entry0 "enableHttp" 2 "true"; entry0 "enableUds" 2 "true";
   entry0 "httpProcs" 1 "8"; entry0 "httpsPort" 1 "5989"; entry0 "enableHttps" 2 "false";
   entry0 "httpLocalOnly" 2 "false"; entry0 "httpUserSFCB" 2 "true"; entry0 "httpUser" 0 ""]
  ++ (if HAVE_SLP then [entry0 "enableSlp" 2 "true"; entry0 "slpRefreshInterval" 1 "600"] else [])
  ++ [entry0 "provProcs" 1 "32"; entry0 "sfcbCustomLib" 0 "sfcCustomLib";
      entry0 "basicAuthLib" 0 "sfcBasicAuthentication";
      entry0 "basicAuthEntry" 0 "_sfcBasicAuthenticate"; entry0 "doBasicAuth" 2 "false";
      entry0 "doUdsAuth" 2 "false"; entry0 "useChunking" 2 "false"; entry0 "chunkSize" 1 "50000";
      entry0 "trimWhitespace" 2 "true"; entry0 "keepaliveTimeout" 1 "15";
      entry0 "keepaliveMaxRequest" 1 "10"; entry0 "selectTimeout" 1 "5";
      entry0 "providerSampleInterval" 1 "30"; entry0 "providerTimeoutInterval" 1 "60";
      entry0 "providerAutoGroup" 2 "true"; entry0 "providerDefaultUserSFCB" 2 "true";
      entry0 "providerDefaultUser" 0 "";
      entryD "sslKeyFilePath" (SFCB_CONFDIR ++ cstr "/file.pem");
      entryD "sslCertificateFilePath" (SFCB_CONFDIR ++ cstr "/server.pem");
      entryD "sslCertList" (SFCB_CONFDIR ++ cstr "/clist.pem");
      entry0 "sslCiphers" 0 "ALL:!ADH:!LOW:!EXP:!MD5:@STRENGTH";
      entryD "registrationDir" (SFCB_STATEDIR ++ cstr "/registration");
      {| id := cstr "providerDirs"; type := 3; strValue := SStr providerDirs; dupped := false |};
      entry0 "enableInterOp" 2 "true";
      entryD "sslClientTrustStore" (SFCB_CONFDIR ++ cstr "/client.pem");
      entry0 "sslClientCertificate" 0 "ignore"; entry0 "sslIndicationReceiverCert" 0 "ignore";
      entry0 "certificateAuthLib" 0 "sfcCertificateAuthentication";
      entry0 "localSocketPath" 0 "/tmp/sfcbLocalSocket";
      entry0 "httpSocketPath" 0 "/tmp/sfcbHttpSocket"; entryN "socketPathGroupPerm" 0;
      entry0 "traceFile" 0 "stderr"; entry0 "traceLevel" 1 "0"; entry0 "traceMask" 1 "0";
      entry0 "httpMaxContentLength" 1 "100000000"; entry0 "validateMethodParamTypes" 2 "false";
      entry0 "maxMsgLen" 1 "10000000"; entryN "networkInterface" 3;
      entry0 "DeliveryRetryInterval" 1 "20"; entry0 "DeliveryRetryAttempts" 1 "3";
      entry0 "SubscriptionRemovalTimeInterval" 1 "2592000";
      entry0 "SubscriptionRemovalAction" 1 "2"; entry0 "indicationDeliveryThreadLimit" 1 "30";
      entry0 "indicationDeliveryThreadTimeout" 1 "0"; entry0 "MaxListenerDestinations" 1 "100";
      entry0 "MaxActiveSubscriptions" 1 "100"; entry0 "indicationCurlTimeout" 1 "10"].

Record ControlState := { ct : option T; init : list Control }.

Definition set_value (c : Control) (v : bytes) : Control :=
  {| id := id c; type := type c; strValue := SStr v; dupped := true |}.

Definition sunsetControl (st : ControlState) : ControlState :=
  {| ct := None;
     init := (fun c => if dupped c
                       then {| id := id c; type := type c; strValue := SFreed; dupped := false |}
                       else c) <$> init st |}.

(** [strdup(rv.val)] with the newline cut off. *)
Definition unstripped (val : bytes) : bytes :=
  match strchr val 10 with Some p => cut val p | None => val end.

(** The entry with an identifier, regarding case. *)
Fixpoint find_id (key : bytes) (cs : list Control) : option nat :=
  match cs with
  | [] => None
  | c :: cs => if strcmp key (id c) =? 0 then Some O else S <$> find_id key cs
  end.

(** The [switch] of the loop on the lines: the table, and whether an error is set. *)
Definition control_line (cs : list Control) (fin : bytes) : option (list Control * bool) :=
  rv ← cntlParseStmt fin;
  if cv_type rv =? 2 then
    key ← cv_id rv;
    val ← cv_val rv;
    match find_id key cs with
    | Some i =>
        c ← cs !! i;
        v ← (if type c =? 3 then Some (unstripped val) else fst (cntlGetVal rv));
        Some (<[i := set_value c v]> cs, false)
    | None => Some (cs, true)
    end
  else Some (cs, negb (cv_type rv =? 3)).

(** Every round reads at least one byte. *)
Fixpoint control_lines (fuel : nat) (content : bytes) (cs : list Control) (err : bool)
  : option (list Control * bool) :=
  match fuel with
  | O => None
  | S fuel =>
      match content with
      | [] => Some (cs, err)
      | _ =>
          let '(fin, rest) := fgets LINE content in
          '(cs, e) ← control_line cs fin;
          control_lines fuel rest cs (err || e)
      end
  end.

Definition fill_table (cs : list Control) : T := ht_puts ht_new (zip (id <$> cs) (seq 0 (length cs))).

(** The argument, the environment or the default, cut to the buffer. *)
Definition config_path (fn env : option bytes) : bytes :=
  let path := match fn, env with
              | Some f, _ => f
              | None, Some (b :: e) => b :: e
              | None, _ => SFCB_CONFDIR ++ cstr "/sfcb.cfg"
              end in
  take 1023 path.

Definition setupControl (env : option bytes) (st : ControlState) (fn : option bytes)
  : option (outcome (Z * ControlState)) :=
  match ct st with
  | Some _ => Some (Returns (0, st))
  | None =>
      let t := Some (fill_table (init st)) in
      match read (config_path fn env) with
      | None => Some (Returns (-2, {| ct := t; init := init st |}))
      | Some content =>
          '(cs, err) ← control_lines (S (length content)) content (init st) false;
          if (err : bool) then Some Exits else Some (Returns (0, {| ct := t; init := cs |}))
      end
  end.

(** The pointer [ct->ft->get(ct, id)] *)
Definition lookup_id (st : ControlState) (key : bytes) : option (option Control) :=
  t ← ct st;
  Some (i ← ht_get t key; init st !! i).

(** The value is [SNull] when the function stores a null pointer. *)
Definition getControlChars (env configfile : option bytes) (st : ControlState) (key : bytes)
  : option (outcome (Z * sval * ControlState)) :=
  r ← setupControl env st configfile;
  match r with
  | Exits => Some Exits
  | Returns (_, st) =>
      c ← lookup_id st key;
      Some (Returns match c with
                    | Some c => if (type c =? 0) || (type c =? 3) then (0, strValue c, st)
                                else (-2, SNull, st)
                    | None => (-1, SNull, st)
                    end)
  end.

Definition getControlNum (env configfile : option bytes) (st : ControlState) (key : bytes)
  : option (outcome (Z * Z * ControlState)) :=
  r ← setupControl env st configfile;
  match r with
  | Exits => Some Exits
  | Returns (_, st) =>
      c ← lookup_id st key;
      match c with
      | Some c =>
          if type c =? 1 then
            match strValue c with
            | SStr s => Some (Returns (0, strtol0 s, st))
            | _ => None
            end
          else Some (Returns (-2, 0, st))
      | None => Some (Returns (-1, 0, st))
      end
  end.

(** These two do not set the table up. *)
Definition getControlUNum (st : ControlState) (key : bytes) : option (Z * Z) :=
  c ← lookup_id st key;
  match c with
  | Some c =>
      if type c =? 1 then
        match strValue c with
        | SStr s =>
            if isdigit (at0 s) && (strtoul0 s <? 2 ^ 32 - 1) then Some (0, u32 (strtoul0 s))
            else Some (-2, 0)
        | _ => None
        end
      else Some (-2, 0)
  | None => Some (-1, 0)
  end.

Definition getControlBool (st : ControlState) (key : bytes) : option (Z * Z) :=
  c ← lookup_id st key;
  match c with
  | Some c =>
      if type c =? 2 then
        match strValue c with
        | SStr s => Some (0, if strcasecmp s (cstr "true") =? 0 then 1 else 0)
        | _ => None
        end
      else Some (-2, 0)
  | None => Some (-1, 0)
  end.
End Control.

(** * Specification: the last assignment wins *)

Section Spec.
Context {T : Type} `{!CharHashTable T nat} (Hcase : ht_ignoreCase (T := T) (V := nat) = true).
Context (SFCB_CONFDIR SFCB_STATEDIR providerDirs : bytes) (HAVE_SLP : bool).
Context (read : bytes -> option bytes).

Abbreviation defaults := (init0 SFCB_CONFDIR SFCB_STATEDIR providerDirs HAVE_SLP).
Abbreviation setup := (setupControl SFCB_CONFDIR read).

(** A line of the configuration file: blanks and perhaps a comment, or a setting with
    blanks before it and before its text. *)
Inductive config_line :=
| Skipped (ws comment : bytes)
| Setting (ws0 key ws text : bytes).

Definition line_text (l : config_line) : bytes :=
  match l with
  | Skipped ws comment => ws ++ comment
  | Setting ws0 key ws text => ws0 ++ key ++ 58 :: ws ++ text
  end.
Definition line_of (l : config_line) : bytes := line_text l ++ [10].

(** The key of a setting is a known one; its text may be empty. *)
Definition line_ok (cs : list Control) (l : config_line) : Prop :=
  (length (line_of l) <= LINE)%nat /\
  match l with
  | Skipped ws comment => forallb skipped ws = true /\ (comment = [] \/ at0 comment = 35) /\ Forall (fun b => b <> 10) comment
  | Setting ws0 key ws text =>
      forallb skipped ws0 = true /\ forallb skipped ws = true /\ Forall (fun b => b <> 10) text /\ starts_word text = true /\
      is_Some (find_id key cs)
  end.

#[export] Instance line_ok_dec cs l : Decision (line_ok cs l).
Proof. destruct l; apply _. Defined.

(** What an entry of the type [t] gets: an unstripped one the whole text, the others its
    first word. *)
Definition value_of (t : Z) (text : bytes) : bytes := if t =? 3 then text else first_word text.

Fixpoint last_value (k : bytes) (t : Z) (ls : list config_line) : option bytes :=
  match ls with
  | [] => None
  | l :: ls => match last_value k t ls, l with
               | Some v, _ => Some v
               | None, Setting _ key _ text => if decide (key = k) then Some (value_of t text) else None
               | None, Skipped _ _ => None
               end
  end.

Definition configured (ls : list config_line) (c : Control) : sval :=
  match last_value (id c) (type c) ls with Some v => SStr v | None => strValue c end.

(** ** The known identifiers *)

Lemma defaults_keys : forallb key_ok (id <$> defaults) = true /\
  NoDup ((fmap tolower) <$> (id <$> defaults)).
Proof.
  split; [by destruct HAVE_SLP; vm_compute|].
  match goal with |- ?P => apply (bool_decide_eq_true_1 P) end.
  by destruct HAVE_SLP; vm_compute.
Qed.

(** ** Lines *)

Lemma fgets_line n l rest : Forall (fun b => b <> 10) l -> (length l < n)%nat ->
  fgets n (l ++ 10 :: rest) = (l ++ [10], rest).
Proof.
  intros Hl. revert n. induction Hl as [|b l Hb _ IH]; intros [|n] Hn; simpl in *; try lia.
  - done.
  - rewrite (proj2 (Z.eqb_neq b 10)) by done. rewrite IH by lia. done.
Qed.

(** ** One assignment *)

Definition assign (cs : list Control) (l : config_line) : list Control :=
  match l with
  | Setting _ key _ text =>
      match find_id key cs with
      | Some i => match cs !! i with Some c => <[i := set_value c (value_of (type c) text)]> cs | None => cs end
      | None => cs
      end
  | Skipped _ _ => cs
  end.

Lemma find_id_spec k cs i : find_id k cs = Some i ->
  exists c, cs !! i = Some c /\ id c = k.
Proof.
  revert i. induction cs as [|c cs IH]; intros i; simpl; [done|].
  destruct (strcmp k (id c) =? 0) eqn:E.
  - intros [= <-]. apply Z.eqb_eq, strcmp_eq in E. by exists c.
  - destruct (find_id k cs) as [j|]; [|done]. simpl. intros [= <-]. by apply IH.
Qed.

Lemma find_id_complete c cs i : NoDup (id <$> cs) -> cs !! i = Some c ->
  find_id (id c) cs = Some i.
Proof.
  revert i. induction cs as [|d cs IH]; intros i; [done|]. rewrite fmap_cons.
  intros [Hn Hd]%NoDup_cons. destruct i as [|i]; simpl.
  - intros [= ->]. by rewrite strcmp_refl.
  - intros Hi. rewrite (IH i Hd Hi). destruct (Z.eqb_spec (strcmp (id c) (id d)) 0) as [E|E]; [|done].
    exfalso. apply strcmp_eq in E. apply Hn. rewrite <- E.
    apply list_elem_of_fmap. exists c. split; [done|]. by eapply list_elem_of_lookup_2.
Qed.

Lemma assign_same cs l : id <$> assign cs l = id <$> cs /\ type <$> assign cs l = type <$> cs.
Proof.
  destruct l as [|ws0 key ws text]; [done|]. cbn [assign]. destruct (find_id key cs) as [i|]; [|done].
  destruct (cs !! i) as [c|] eqn:Hc; [|done].
  split; rewrite list_fmap_insert; apply list_insert_id; rewrite list_lookup_fmap, Hc; done.
Qed.

Lemma assigns_same cs ls :
  id <$> foldl assign cs ls = id <$> cs /\ type <$> foldl assign cs ls = type <$> cs.
Proof.
  revert cs. induction ls as [|l ls IH]; intros cs; [done|]. simpl.
  destruct (IH (assign cs l)) as [-> ->]. apply assign_same.
Qed.

Lemma find_id_ids k cs cs' : id <$> cs = id <$> cs' -> find_id k cs = find_id k cs'.
Proof.
  revert cs'. induction cs as [|c cs IH]; intros [|c' cs']; rewrite ?fmap_cons; try done.
  intros [= Hc Hcs]. simpl. rewrite Hc. by rewrite (IH cs').
Qed.

Lemma line_ok_ids cs cs' l : id <$> cs = id <$> cs' -> line_ok cs l -> line_ok cs' l.
Proof.
  intros Hi [Hl H]. split; [done|]. destruct l; [done|]. destruct H as (? & ? & ? & ? & H). split_and!; try done.
  by rewrite <- (find_id_ids _ _ _ Hi).
Qed.

Lemma keys_of cs k i : forallb key_ok (id <$> cs) = true -> find_id k cs = Some i -> key_ok k = true.
Proof.
  intros Hk (c & Hc & <-)%find_id_spec. rewrite forallb_forall in Hk. apply Hk.
  apply list_elem_of_In, list_elem_of_fmap. exists c. split; [done|]. by eapply list_elem_of_lookup_2.
Qed.

Lemma unstripped_line text : Forall (fun b => b <> 10) text -> unstripped (text ++ [10]) = text.
Proof.
  intros H. assert (E : strchr (text ++ [10]) 10 = Some [10]).
  { induction H as [|b text Hb _ IH]; [done|]. cbn [app strchr]. by rewrite (proj2 (Z.eqb_neq b 10)), IH. }
  unfold unstripped. rewrite E. apply cut_app.
Qed.

Lemma control_line_assign cs l :
  forallb key_ok (id <$> cs) = true -> line_ok cs l ->
  control_line cs (line_of l) = Some (assign cs l, false).
Proof.
  intros Hk [_ H]. unfold control_line, line_of. destruct l as [ws comment|ws0 key ws text]; cbn [line_text].
  - destruct H as (Hws & Hc & _). by rewrite <- app_assoc, parse_skipped.
  - destruct H as (Hws0 & Hws & Hnl & Hs & [i Hi]). replace ((ws0 ++ key ++ 58 :: ws ++ text) ++ [10]) with (ws0 ++ key ++ 58 :: ws ++ text ++ [10]).
    2: { by rewrite <- !app_assoc, <- app_comm_cons, <- !app_assoc. }
    rewrite parse_setting by (done || by eapply keys_of). cbn [mbind option_bind cv_type cv_id cv_val Z.eqb Pos.eqb assign].
    rewrite Hi. destruct (find_id_spec _ _ _ Hi) as (c & Hc & _). rewrite Hc. cbn [mbind option_bind]. unfold value_of.
    destruct (type c =? 3); [by rewrite unstripped_line|]. by rewrite get_first_word.
Qed.

Lemma skipped_newline ws : forallb skipped ws = true -> Forall (fun b => b <> 10) ws.
Proof.
  rewrite forallb_forall, Forall_forall. intros H b Hb ->. specialize (H 10). rewrite <- list_elem_of_In in H. by specialize (H Hb).
Qed.

Lemma no_newline cs l : forallb key_ok (id <$> cs) = true -> line_ok cs l -> Forall (fun b => b <> 10) (line_text l).
Proof.
  intros Hk [_ H]. destruct l as [ws comment|ws0 key ws text]; cbn [line_text].
  - destruct H as (Hws & _ & Hc). apply Forall_app. split; [by apply skipped_newline|done].
  - destruct H as (Hws0 & Hws & Hnl & _ & [i Hi]). pose proof (keys_of _ _ _ Hk Hi) as Hkey.
    apply Forall_app. split; [by apply skipped_newline|]. apply Forall_app. split.
    + destruct key as [|b k]; [done|]. unfold key_ok in Hkey.
      apply andb_true_iff in Hkey as [Hkey _]. apply andb_true_iff in Hkey as [Hkey _]. apply andb_true_iff in Hkey as [Hkey _].
      by apply (no_sep_newline (fun b => existsb (Z.eqb b) (cstr ": " ++ [9; 10]))).
    + constructor; [done|]. apply Forall_app. split; [by apply skipped_newline|done].
Qed.

Lemma control_lines_assign ls cs fuel :
  forallb key_ok (id <$> cs) = true -> Forall (line_ok cs) ls ->
  (length (concat (line_of <$> ls)) < fuel)%nat ->
  control_lines fuel (concat (line_of <$> ls)) cs false = Some (foldl assign cs ls, false).
Proof.
  revert cs fuel. induction ls as [|l ls IH]; intros cs fuel Hk Ha Hf;
    destruct fuel as [|fuel]; try lia; [done|].
  apply Forall_cons in Ha as [Hl Ha]. rewrite fmap_cons in *. cbn [concat control_lines].
  assert (Hlen : length (line_of l) = S (length (line_text l))) by (unfold line_of; rewrite length_app; cbn; lia).
  assert (Hg : fgets LINE (line_of l ++ concat (line_of <$> ls)) = (line_of l, concat (line_of <$> ls))).
  { unfold line_of at 1. rewrite <- app_assoc. apply fgets_line; [by eapply no_newline|]. destruct Hl as [Hl _]. lia. }
  rewrite Hg. destruct (line_of l ++ _) as [|b content] eqn:Ec.
  { destruct (line_of l); [done|]. done. }
  rewrite control_line_assign by done. cbn [mbind option_bind orb]. destruct (assign_same cs l) as [Hid _].
  simpl. apply IH.
  - by rewrite Hid.
  - eapply Forall_impl; [exact Ha|]. intros l'. by apply line_ok_ids.
  - cbn [concat] in Hf. rewrite length_app in Hf. lia.
Qed.

(** ** The value of an entry after the assignments *)

Lemma assign_lookup cs l i c : NoDup (id <$> cs) -> cs !! i = Some c ->
  assign cs l !! i = Some match l with
    | Setting _ key _ text => if decide (key = id c) then set_value c (value_of (type c) text) else c
    | Skipped _ _ => c
    end.
Proof.
  intros Hd Hc. destruct l as [|ws0 key ws text]; [done|]. cbn [assign]. destruct (find_id key cs) as [j|] eqn:Hf.
  - destruct (find_id_spec _ _ _ Hf) as (d & Hdj & Hid). rewrite Hdj.
    destruct (decide (i = j)) as [->|Hne].
    + rewrite list_lookup_insert_eq by (by eapply lookup_lt_Some).
      simplify_eq. by rewrite decide_True.
    + rewrite list_lookup_insert_ne by done. rewrite decide_False; [done|].
      intros E. apply Hne. rewrite E, (find_id_complete c cs i Hd Hc) in Hf. by injection Hf.
  - rewrite decide_False; [done|]. intros E.
    rewrite E, (find_id_complete c cs i Hd Hc) in Hf. done.
Qed.

Lemma assigns_lookup ls cs i c : NoDup (id <$> cs) -> cs !! i = Some c ->
  exists c', foldl assign cs ls !! i = Some c' /\ id c' = id c /\ type c' = type c /\
    strValue c' = configured ls c /\
    dupped c' = match last_value (id c) (type c) ls with Some _ => true | None => dupped c end.
Proof.
  revert cs c. induction ls as [|l ls IH]; intros cs c Hd Hc; [by exists c|].
  simpl. destruct (assign_same cs l) as [Hid _].
  destruct (IH (assign cs l) _ ltac:(by rewrite Hid) (assign_lookup cs l i c Hd Hc))
    as (c' & H1 & H2 & H3 & H4 & H5).
  exists c'. unfold configured in *. simpl last_value. destruct l as [|ws0 key ws text].
  { rewrite H4, H5. by destruct (last_value (id c) (type c) ls). }
  destruct (decide (key = id c)) as [E|E]; simpl in *; rewrite H4, H5; by destruct (last_value (id c) (type c) ls).
Qed.

(** ** The table *)

Lemma fill_table_get cs i c key :
  NoDup ((fmap tolower) <$> (id <$> cs)) -> cs !! i = Some c -> same_key true (id c) key = true ->
  ht_get (fill_table (T := T) cs) key = Some i.
Proof.
  intros Hd Hc Hk. unfold fill_table.
  assert (Hz : forall j k v, zip (id <$> cs) (seq 0 (length cs)) !! j = Some (k, v) ->
            exists d, cs !! j = Some d /\ k = id d /\ v = j).
  { intros j k v Hj. apply lookup_zip_Some in Hj as [Hj1 Hj2].
    apply list_lookup_fmap_Some in Hj1 as (d & -> & Hd'). apply lookup_seq in Hj2 as [-> _].
    by exists d. }
  eapply (ht_get_puts_found _ _ i (id c) i key).
  - apply lookup_zip_Some. split; [by rewrite list_lookup_fmap, Hc|].
    apply lookup_seq. split; [done|]. by eapply lookup_lt_Some.
  - by rewrite Hcase.
  - rewrite Hcase. intros j [k v] Hj E. simpl in E.
    destruct (Hz j k v Hj) as (d & Hdj & -> & ->).
    apply same_key_nocase in E, Hk. eapply NoDup_lookup; [exact Hd| |].
    + by rewrite !list_lookup_fmap, Hdj.
    + rewrite !list_lookup_fmap, Hc. simpl. by rewrite Hk, E.
Qed.

Lemma fill_table_absent cs key :
  Forall (fun c => same_key true (id c) key = false) cs ->
  ht_get (fill_table (T := T) cs) key = None.
Proof.
  intros Ha. unfold fill_table. rewrite ht_get_puts_other; [apply ht_get_new|].
  rewrite Hcase. apply Forall_lookup_2. intros j [k v] Hj.
  apply lookup_zip_Some in Hj as [Hj _]. apply list_lookup_fmap_Some in Hj as (d & -> & Hd).
  simpl. by eapply (Forall_lookup_1 (fun c => same_key true (id c) key = false)).
Qed.

(** What the four functions return for an entry with a value. *)
Definition chars_result (c : Control) (v : sval) : Z * sval :=
  if (type c =? 0) || (type c =? 3) then (0, v) else (-2, SNull).
Definition bool_result (c : Control) (v : bytes) : Z * Z :=
  if type c =? 2 then (0, if strcasecmp v (cstr "true") =? 0 then 1 else 0) else (-2, 0).
Definition num_result (c : Control) (v : bytes) : Z * Z :=
  if type c =? 1 then (0, strtol0 v) else (-2, 0).

Lemma no_dup_ids cs : NoDup ((fmap tolower) <$> (id <$> cs)) -> NoDup (id <$> cs).
Proof. apply NoDup_fmap_1. Qed.

(** The state after reading a file of assignments. *)
Lemma setup_assignments env fn cs ls :
  forallb key_ok (id <$> cs) = true -> Forall (line_ok cs) ls ->
  read (config_path SFCB_CONFDIR fn env) = Some (concat (line_of <$> ls)) ->
  setup env {| ct := None; init := cs |} fn
  = Some (Returns (0, {| ct := Some (fill_table cs); init := foldl assign cs ls |})).
Proof.
  intros Hk Ha Hr. unfold setupControl. cbn [ct init]. rewrite Hr.
  by rewrite control_lines_assign by (done || lia).
Qed.

Lemma lookup_assigned cs ls i c key :
  NoDup ((fmap tolower) <$> (id <$> cs)) -> cs !! i = Some c -> same_key true (id c) key = true ->
  exists c', lookup_id {| ct := Some (fill_table (T := T) cs); init := foldl assign cs ls |} key
    = Some (Some c') /\ id c' = id c /\ type c' = type c /\ strValue c' = configured ls c.
Proof.
  intros Hd Hc Hk.
  destruct (assigns_lookup ls cs i c (no_dup_ids _ Hd) Hc) as (c' & Hl & H1 & H2 & H3 & _).
  exists c'. split; [|done]. unfold lookup_id. cbn [ct mbind option_bind].
  rewrite (fill_table_get cs i c key) by done. cbn [mbind option_bind init]. by rewrite Hl.
Qed.

(** C6: a configuration file of blank lines, comments and settings of known keys is read
    without an error, and every entry then has the value that was set last - the whole
    rest of the line for the unstripped ones, its first word for the others - or its
    default; the identifier given to [getControl...] is compared without regard to case. *)
Theorem configuration_values env fn ls i c key :
  Forall (line_ok defaults) ls ->
  read (config_path SFCB_CONFDIR fn env) = Some (concat (line_of <$> ls)) ->
  defaults !! i = Some c -> same_key true (id c) key = true ->
  exists st, setup env {| ct := None; init := defaults |} fn = Some (Returns (0, st)) /\
    getControlChars SFCB_CONFDIR read env fn st key
      = Some (Returns (chars_result c (configured ls c), st)) /\
    (forall v, configured ls c = SStr v ->
       getControlBool st key = Some (bool_result c v) /\
       getControlNum SFCB_CONFDIR read env fn st key = Some (Returns (num_result c v, st))).
Proof.
  intros Ha Hr Hc Hk. destruct defaults_keys as [Hkeys Hd].
  eexists. split; [by apply setup_assignments|].
  destruct (lookup_assigned defaults ls i c key Hd Hc Hk) as (c' & Hl & Hid & Ht & Hv).
  unfold getControlChars, getControlBool, getControlNum, setupControl. cbn [ct].
  cbn [mbind option_bind]. rewrite Hl. cbn [mbind option_bind].
  unfold chars_result, bool_result, num_result. rewrite Ht, Hv. split.
  - by destruct ((type c =? 0) || (type c =? 3)).
  - intros v ->. split; [by destruct (type c =? 2)|by destruct (type c =? 1)].
Qed.

(** After [sunsetControl] the table of defaults keeps pointing at released
    strings: a setting made before and not in the new file is handed out as such. *)
Theorem sunset_dangling env fn fn2 ls i c key v :
  Forall (line_ok defaults) ls ->
  read (config_path SFCB_CONFDIR fn env) = Some (concat (line_of <$> ls)) ->
  read (config_path SFCB_CONFDIR fn2 env) = Some [] ->
  defaults !! i = Some c -> same_key true (id c) key = true -> type c = 0 ->
  last_value (id c) (type c) ls = Some v ->
  exists st st2, setup env {| ct := None; init := defaults |} fn = Some (Returns (0, st)) /\
    getControlChars SFCB_CONFDIR read env fn2 (sunsetControl st) key
      = Some (Returns (0, SFreed, st2)).
Proof.
  intros Ha Hr Hr2 Hc Hk Hty Hl. destruct defaults_keys as [Hkeys Hd].
  eexists. eexists. split; [by apply setup_assignments|].
  destruct (assigns_lookup ls defaults i c (no_dup_ids _ Hd) Hc)
    as (c' & Hc' & Hid & Ht & _ & Hdup). rewrite Hl in Hdup.
  set (cs := foldl assign defaults ls) in *.
  unfold sunsetControl. cbn [init ct]. set (f := fun c : Control => _).
  assert (Hids : id <$> (f <$> cs) = id <$> defaults).
  { rewrite <- list_fmap_compose. etrans; [|apply (assigns_same defaults ls)].
    apply list_fmap_ext. intros j d _. unfold f. simpl. by destruct (dupped d). }
  assert (Hf : (f <$> cs) !! i = Some {| id := id c'; type := type c'; strValue := SFreed; dupped := false |}).
  { rewrite list_lookup_fmap, Hc'. simpl. unfold f. by rewrite Hdup. }
  unfold getControlChars, setupControl. cbn [ct init]. rewrite Hr2.
  cbn [control_lines length mbind option_bind]. unfold lookup_id. cbn [ct mbind option_bind init].
  rewrite (fill_table_get (f <$> cs) i
             {| id := id c'; type := type c'; strValue := SFreed; dupped := false |} key).
  - cbn [mbind option_bind]. rewrite Hf. simpl. by rewrite Ht, Hty.
  - by rewrite Hids.
  - done.
  - simpl. by rewrite Hid.
Qed.

End Spec.

(** ** Unsigned numbers *)

Section Numbers.
Context {T : Type} `{!CharHashTable T nat}.

(** [getControlUNum] returns a value only below [UINT_MAX] and only for a text
    that begins with a digit; every other value of a number is refused with -2. *)
Theorem getControlUNum_bounds st key c s :
  lookup_id st key = Some (Some c) -> type c = 1 -> strValue c = SStr s ->
  exists rc v, getControlUNum st key = Some (rc, v) /\ 0 <= v < 2 ^ 32 - 1 /\
    (rc = 0 <-> isdigit (at0 s) = true /\ strtoul0 s < 2 ^ 32 - 1) /\
    (rc = 0 -> v = strtoul0 s) /\ (rc <> 0 -> rc = -2 /\ v = 0).
Proof.
  intros Hl Ht Hs. unfold getControlUNum. rewrite Hl. cbn [mbind option_bind].
  rewrite Ht, Hs. cbn [Z.eqb Pos.eqb].
  assert (Hp : 0 <= strtoul0 s).
  { unfold strtoul0. destruct (scan_base0 s) as [neg v] eqn:E.
    assert (0 <= v) by (by eapply scan_base0_nonneg).
    destruct (2 ^ 64 <=? v); [lia|]. destruct neg; [|done].
    pose proof (wrapu_bound 64 (- v)). lia. }
  destruct (isdigit (at0 s)); simpl.
  - destruct (Z.ltb_spec (strtoul0 s) (2 ^ 32 - 1)) as [H|H].
    + exists 0, (strtoul0 s). rewrite wrapu_small by lia. split_and!; try done; lia.
    + exists (-2), 0. split_and!; try done. intuition lia.
  - exists (-2), 0. split_and!; try done. intuition congruence.
Qed.

End Numbers.

(** * Witnesses *)

Definition wit_table : CharHashTable (list (bytes * nat)) nat := assoc_table true.
#[local] Existing Instance wit_table.
Lemma wit_case : ht_ignoreCase (T := list (bytes * nat)) (V := nat) = true.
Proof. done. Qed.
Definition wit_etc : bytes := cstr "/etc/sfcb".
Definition wit_lib : bytes := cstr "/usr/lib".
Definition wit_lines : list config_line :=
  [Skipped [] (cstr "## Ports"); Setting [] (cstr "httpPort") (cstr "  ") (cstr "80"); Skipped [] [];
   Setting [9] (cstr "enableHttps") [] (cstr "TRUE  or not"); Setting [] (cstr "traceFile") [32] (cstr "/tmp/t");
   Setting [] (cstr "providerDirs") [32] (cstr "/opt/lib /usr/lib/cmpi"); Setting [] (cstr "httpPort") [] (cstr "0x1F90");
   Setting [] (cstr "httpUser") [32] []].
Definition wit_read (p : bytes) : option bytes :=
  if decide (p = cstr "/etc/sfcb/sfcb.cfg") then Some (concat (line_of <$> wit_lines))
  else if decide (p = cstr "empty") then Some [] else None.

Lemma wit_lines_ok : Forall (line_ok (init0 wit_etc wit_lib wit_lib true)) wit_lines.
Proof.
  match goal with |- ?P => apply (bool_decide_eq_true_1 P) end. by vm_compute.
Qed.

(** httpPort is 8080, also asked for as HTTPPORT; providerDirs has both directories. *)
Lemma configuration_values_witness : exists st,
  setupControl wit_etc wit_read None
    {| ct := None; init := init0 wit_etc wit_lib wit_lib true |} None = Some (Returns (0, st)) /\
  getControlNum wit_etc wit_read None None st (cstr "HTTPPORT") = Some (Returns (0, 8080, st)) /\
  getControlChars wit_etc wit_read None None st (cstr "providerDirs") = Some (Returns (0, SStr (cstr "/opt/lib /usr/lib/cmpi"), st)).
Proof.
  destruct (configuration_values (T := list (bytes * nat)) wit_case wit_etc wit_lib wit_lib true wit_read
              None None wit_lines 0 (entry0 "httpPort" 1 "5988") (cstr "HTTPPORT") wit_lines_ok)
    as (st & H1 & _ & H2); [by vm_compute|done|by vm_compute|].
  destruct (configuration_values (T := list (bytes * nat)) wit_case wit_etc wit_lib wit_lib true wit_read
              None None wit_lines 33 {| id := cstr "providerDirs"; type := 3; strValue := SStr wit_lib; dupped := false |}
              (cstr "providerDirs") wit_lines_ok) as (st' & H1' & H3 & _); [by vm_compute|done|by vm_compute|].
  rewrite H1 in H1'. injection H1' as <-.
  exists st. split; [exact H1|]. split; [|rewrite H3; by vm_compute].
  destruct (H2 (cstr "0x1F90")) as [_ H4]; [by vm_compute|]. rewrite H4. by vm_compute.
Defined.

Lemma sunset_dangling_witness : exists st st2,
  setupControl wit_etc wit_read None
    {| ct := None; init := init0 wit_etc wit_lib wit_lib true |} None = Some (Returns (0, st)) /\
  getControlChars wit_etc wit_read None (Some (cstr "empty")) (sunsetControl st) (cstr "traceFile")
    = Some (Returns (0, SFreed, st2)).
Proof.
  apply (sunset_dangling (T := list (bytes * nat)) wit_case wit_etc wit_lib wit_lib true wit_read
              None None (Some (cstr "empty")) wit_lines 42 (entry0 "traceFile" 0 "stderr")
              (cstr "traceFile") (cstr "/tmp/t") wit_lines_ok); by vm_compute.
Defined.

Lemma getControlUNum_bounds_witness : exists rc v,
  getControlUNum {| ct := Some (fill_table [entry0 "maxMsgLen" 1 "4294967295"]);
                    init := [entry0 "maxMsgLen" 1 "4294967295"] |} (cstr "maxMsgLen")
  = Some (rc, v) /\ rc <> 0.
Proof.
  edestruct (getControlUNum_bounds (T := list (bytes * nat))
              {| ct := Some (fill_table [entry0 "maxMsgLen" 1 "4294967295"]);
                 init := [entry0 "maxMsgLen" 1 "4294967295"] |} (cstr "maxMsgLen"))
    as (rc & v & E & _ & Hrc & _ & _); [by vm_compute|done|done|].
  exists rc, v. split; [exact E|]. intros H. apply Hrc in H as [_ H]. by vm_compute in H.
Defined.
