(* ===== verification/MemoryManager.v ===== *)
(** * The per-thread memory manager (support.c)

    A thread keeps a table of memory blocks and a table of encapsulated objects
    that it frees when it is flushed or ends; [markHeap] and [releaseHeap] put a
    fresh pair of tables in between.  Blocks and objects are numbers.  A table is
    the list of the entries in use; an entry is null when its object was unlinked.
    Freeing and releasing are events.  [None] is undefined behaviour (a write
    outside a table or through a null table, a block that is freed or an object that is
    released a second time) or an abort. *)

From S2P Require Import Prelude.

Definition MT_SIZE_STEP : Z := 100.
Definition MEM_NOT_TRACKED : Z := -2.
Definition MEM_TRACKED : Z := 1.
Definition MEM_RELEASED : Z := -1.

Inductive event := Free (p : Z) | Release (o : Z).

#[export] Instance event_eq_dec : EqDecision event.
Proof. solve_decision. Defined.

(** [memObjs] and [memEncObjs] are null pointers after they were freed. *)
Record HeapControl := {
  memSize : Z; memObjs : option (list (option Z));
  memEncSize : Z; memEncObjs : option (list (option Z))
}.

Definition used (t : option (list (option Z))) : Z := Z.of_nat (length (default [] t)).

Record managed_thread := { broker : Z; tctx : Z; hc : HeapControl; cleanupDone : bool }.

Definition set_hc (mt : managed_thread) (h : HeapControl) : managed_thread :=
  {| broker := broker mt; tctx := tctx mt; hc := h; cleanupDone := cleanupDone mt |}.

Definition fresh_heap : HeapControl :=
  {| memSize := MT_SIZE_STEP; memObjs := Some []; memEncSize := MT_SIZE_STEP; memEncObjs := Some [] |}.

Definition __init_mt : managed_thread :=
  {| broker := 0; tctx := 0; hc := fresh_heap; cleanupDone := false |}.

(** The thread's slot: [None] is the null pointer; [dontforce] leaves it so. *)
Definition __memInit (dontforce : bool) (mt : option managed_thread) : option managed_thread :=
  match mt with
  | None => if dontforce then None else Some __init_mt
  | Some _ => mt
  end.

(** Storing at index [memUsed], and growing the table when it is full. *)
Definition push (t : option (list (option Z))) (size x : Z)
  : option (option (list (option Z)) * Z) :=
  l ← t;
  if Z.of_nat (length l) <? size then
    let l' := l ++ [Some x] in
    Some (Some l', if Z.of_nat (length l') =? size then size + MT_SIZE_STEP else size)
  else None.

Section Thread.
(** The process is a local client; the function table of an object is there. *)
Context (localClientMode : bool) (has_ft : Z -> bool).

(** The new thread state, and the id handed out ([None]: left as it was). *)
Definition memAdd (mt : option managed_thread) (ptr : Z)
  : option (option managed_thread * option Z) :=
  if localClientMode then Some (mt, None) else
  match __memInit false mt with
  | None => None
  | Some m =>
      '(t, size) ← push (memObjs (hc m)) (memSize (hc m)) ptr;
      let h := {| memSize := size; memObjs := t;
                  memEncSize := memEncSize (hc m); memEncObjs := memEncObjs (hc m) |} in
      Some (Some (set_hc m h), Some (used t))
  end.

Definition memAlloc (add : Z) (mt : option managed_thread) (block : Z)
  : option (option managed_thread * option Z) :=
  if add =? MEM_TRACKED then Some (mt, None) else memAdd mt block.

Definition memLinkEncObj (mt : option managed_thread) (object : Z)
  : option (option managed_thread * option Z) :=
  if localClientMode then Some (mt, None) else
  match __memInit false mt with
  | None => None
  | Some m =>
      '(t, size) ← push (memEncObjs (hc m)) (memEncSize (hc m)) object;
      let h := {| memSize := memSize (hc m); memObjs := memObjs (hc m);
                  memEncSize := size; memEncObjs := t |} in
      Some (Some (set_hc m h), Some (used t))
  end.

(** [object] is the copy that is made; it is linked in the same way. *)
Definition memAddEncObj (mode : Z) (mt : option managed_thread) (object : Z)
  : option (option managed_thread * option Z) :=
  if localClientMode || negb (mode =? MEM_TRACKED) then Some (mt, Some MEM_NOT_TRACKED)
  else if has_ft object then memLinkEncObj mt object else None.

(** [memEncObjs[memId - 1] = NULL]: behind the entries in use the write is not seen. *)
Definition clear_entry (t : option (list (option Z))) (size i : Z) : option (option (list (option Z))) :=
  l ← t;
  if (0 <=? i) && (i <? size) then Some (Some (<[Z.to_nat i := None]> l)) else None.

Definition memUnlinkEncObj (mt : option managed_thread) (memId : Z) : option (option managed_thread) :=
  if localClientMode then Some mt else
  match __memInit true mt with
  | None => Some mt
  | Some m =>
      if (memId =? MEM_RELEASED) || (memId =? MEM_NOT_TRACKED) then Some mt else
      t ← clear_entry (memEncObjs (hc m)) (memEncSize (hc m)) (memId - 1);
      let h := {| memSize := memSize (hc m); memObjs := memObjs (hc m);
                  memEncSize := memEncSize (hc m); memEncObjs := t |} in
      Some (Some (set_hc m h))
  end.

(** The loops of [__flush_mt], from the last entry down. *)
Fixpoint flush_objs (l : list (option Z)) : option (list event) :=
  match l with
  | [] => Some []
  | x :: l =>
      ev ← flush_objs l;
      match x with
      | Some p => if decide (Free p ∈ ev) then None else Some (ev ++ [Free p])
      | None => Some ev
      end
  end.
Fixpoint flush_enc (l : list (option Z)) : option (list event) :=
  match l with
  | [] => Some []
  | x :: l =>
      ev ← flush_enc l;
      match x with
      | Some o => if negb (has_ft o) || bool_decide (Release o ∈ ev) then None else Some (ev ++ [Release o])
      | None => Some ev
      end
  end.

Definition __flush_mt (m : managed_thread) : option (list event * managed_thread) :=
  let h := hc m in
  frees ← flush_objs (default [] (memObjs h));
  ev ← flush_enc (default [] (memEncObjs h));
  Some (frees ++ ev,
        set_hc m {| memSize := memSize h; memObjs := (fun _ => []) <$> memObjs h;
                    memEncSize := memEncSize h; memEncObjs := (fun _ => []) <$> memEncObjs h |}).

Definition tool_mm_flush (mt : option managed_thread) : option (list event * option managed_thread) :=
  match mt with
  | None => Some ([], None)
  | Some m => '(ev, m) ← __flush_mt m; Some (ev, Some m)
  end.

(** The thread state is freed. *)
Definition __cleanup_mt (mt : option managed_thread) : option (list event) :=
  match mt with
  | Some m => if cleanupDone m then Some [] else fst <$> __flush_mt m
  | None => Some []
  end.

Definition uninitGarbageCollector (mt : option managed_thread)
  : option (list event * option managed_thread) :=
  match __memInit true mt with
  | None => Some ([], None)
  | Some m => ev ← __cleanup_mt (Some m); Some (ev, None)
  end.

(** The saved tables, or the null pointer. *)
Definition markHeap (mt : option managed_thread) : option (option HeapControl * option managed_thread) :=
  if localClientMode then Some (None, mt) else
  match __memInit false mt with
  | None => None
  | Some m => Some (Some (hc m), Some (set_hc m fresh_heap))
  end.

Definition releaseHeap (mt : option managed_thread) (saved : option HeapControl)
  : option (list event * option managed_thread) :=
  if localClientMode then Some ([], mt) else
  match __memInit false mt with
  | None => None
  | Some m =>
      '(ev, m) ← __flush_mt m;
      let h := hc m in
      let freed := {| memSize := memSize h; memObjs := None;
                      memEncSize := memEncSize h; memEncObjs := None |} in
      Some (ev, Some (set_hc m (match saved with Some s => s | None => freed end)))
  end.

Definition tool_mm_set_broker (mt : option managed_thread) (b c : Z) : option managed_thread :=
  m ← __memInit false mt;
  Some {| broker := b; tctx := c; hc := hc m; cleanupDone := cleanupDone m |}.

Definition tool_mm_get_broker (mt : option managed_thread) : option (Z * Z * option managed_thread) :=
  m ← __memInit false mt; Some (broker m, tctx m, Some m).

(** ** What a thread does between two flushes *)

Inductive op := OAdd (p : Z) | OLink (o : Z) | OUnlink (id : Z).

Definition step (mt : option managed_thread) (o : op) : option (option managed_thread) :=
  match o with
  | OAdd p => fst <$> memAdd mt p
  | OLink o => fst <$> memLinkEncObj mt o
  | OUnlink id => memUnlinkEncObj mt id
  end.

Fixpoint run (mt : option managed_thread) (ops : list op) : option (option managed_thread) :=
  match ops with
  | [] => Some mt
  | o :: ops => mt ← step mt o; run mt ops
  end.
End Thread.

(** * Specification: what is alive between two flushes *)

Definition blocks (ops : list op) : list Z :=
  omap (fun o => match o with OAdd p => Some p | _ => None end) ops.
Definition links (ops : list op) : list Z :=
  omap (fun o => match o with OLink x => Some x | _ => None end) ops.
Definition unlinks (ops : list op) : list Z :=
  omap (fun o => match o with OUnlink id => Some id | _ => None end) ops.

(** Every unlink names an object linked before it: ids count from 1. *)
Fixpoint ids_ok (n : Z) (ops : list op) : Prop :=
  match ops with
  | [] => True
  | OAdd _ :: ops => ids_ok n ops
  | OLink _ :: ops => ids_ok (n + 1) ops
  | OUnlink id :: ops => 1 <= id <= n /\ ids_ok n ops
  end.

(** The linked objects whose id was not unlinked; [i] is the number linked before. *)
Fixpoint live (i : Z) (dead : list Z) (objs : list Z) : list Z :=
  match objs with
  | [] => []
  | o :: objs => if decide (i + 1 ∈ dead) then live (i + 1) dead objs
                 else o :: live (i + 1) dead objs
  end.

Section Bracket.
Context (has_ft : Z -> bool).

Definition heap_ok (h : HeapControl) (l e : list (option Z)) : Prop :=
  memObjs h = Some l /\ memEncObjs h = Some e /\
  Z.of_nat (length l) < memSize h /\ Z.of_nat (length e) < memEncSize h.

Lemma push_ok l size x : Z.of_nat (length l) < size ->
  exists size', push (Some l) size x = Some (Some (l ++ [Some x]), size') /\
    Z.of_nat (length (l ++ [Some x])) < size'.
Proof.
  intros H. unfold push. cbn [mbind option_bind]. rewrite (proj2 (Z.ltb_lt _ _)) by done.
  eexists. split; [done|]. rewrite length_app. simpl.
  destruct (Z.eqb_spec (Z.of_nat (length l + 1)) size); unfold MT_SIZE_STEP; lia.
Qed.

(** The entries after some operations, from [e] on. *)
Fixpoint entries (e : list (option Z)) (ops : list op) : list (option Z) :=
  match ops with
  | [] => e
  | OAdd _ :: ops => entries e ops
  | OLink o :: ops => entries (e ++ [Some o]) ops
  | OUnlink id :: ops => entries (<[Z.to_nat (id - 1) := None]> e) ops
  end.

Lemma run_ok m ops l e :
  heap_ok (hc m) l e -> ids_ok (Z.of_nat (length e)) ops ->
  exists h, run false (Some m) ops = Some (Some (set_hc m h)) /\
    heap_ok h (l ++ (Some <$> blocks ops)) (entries e ops).
Proof.
  revert m l e. induction ops as [|o ops IH]; intros m l e (Hl & He & Hsl & Hse) Hids.
  - exists (hc m). split; [by destruct m|]. unfold heap_ok. by rewrite app_nil_r.
  - destruct o as [p|o|id]; cbn [run].
    + unfold step, memAdd. cbn [__memInit]. rewrite Hl.
      destruct (push_ok l (memSize (hc m)) p Hsl) as (size & -> & Hs). cbn [mbind option_bind fmap option_fmap option_map fst].
      match goal with |- context [set_hc m ?h] => destruct (IH (set_hc m h) (l ++ [Some p]) e) as (h' & Hr & Hok) end;
        [by unfold heap_ok|done|].
      exists h'. split; [exact Hr|]. by rewrite <- app_assoc in Hok.
    + unfold step, memLinkEncObj. cbn [__memInit]. rewrite He.
      destruct (push_ok e (memEncSize (hc m)) o Hse) as (size & -> & Hs). cbn [mbind option_bind fmap option_fmap option_map fst].
      match goal with |- context [set_hc m ?h] => destruct (IH (set_hc m h) l (e ++ [Some o])) as (h' & Hr & Hok) end;
        [by unfold heap_ok| |].
      { rewrite length_app, Nat2Z.inj_add. done. }
      exists h'. by split.
    + destruct Hids as [Hid Hids]. unfold step, memUnlinkEncObj. cbn [__memInit].
      rewrite !(proj2 (Z.eqb_neq _ _)) by (unfold MEM_RELEASED, MEM_NOT_TRACKED; lia). cbn [orb].
      rewrite He. unfold clear_entry. cbn [mbind option_bind].
      rewrite (proj2 (Z.leb_le _ _)), (proj2 (Z.ltb_lt _ _)) by lia. cbn [andb mbind option_bind].
      match goal with |- context [set_hc m ?h] =>
        destruct (IH (set_hc m h) l (<[Z.to_nat (id - 1) := None]> e)) as (h' & Hr & Hok) end;
        [by unfold heap_ok; rewrite length_insert| by rewrite length_insert|].
      exists h'. by split.
Qed.

Lemma emitted_in (f : Z -> event) p l : (forall x y, f x = f y -> x = y) -> f p ∈ f <$> reverse l <-> p ∈ l.
Proof.
  intros Hf. rewrite list_elem_of_fmap. setoid_rewrite elem_of_reverse. split; [by intros (y & <-%Hf & Hy)|].
  intros Hp. by exists p.
Qed.

(** A table is flushed from its last entry on when no entry is there twice. *)
Lemma flush_objs_all l : flush_objs l =
  if decide (NoDup (omap (fun x => x) l)) then Some (Free <$> reverse (omap (fun x => x) l)) else None.
Proof.
  induction l as [|x l IH]; [done|]. cbn [flush_objs]. rewrite IH. destruct x as [p|]; cbn [omap list_omap]; [|by destruct (decide _)].
  destruct (decide (NoDup (omap _ l))) as [Hl|Hl]; cbn [mbind option_bind].
  - destruct (decide (Free p ∈ _)) as [Hin|Hin]; rewrite emitted_in in Hin by (by intros ? ? [=]).
    + rewrite decide_False; [done|]. by intros [? _]%NoDup_cons.
    + rewrite decide_True by (by apply NoDup_cons). by rewrite reverse_cons, fmap_app.
  - rewrite decide_False; [done|]. by intros [_ ?]%NoDup_cons.
Qed.

Lemma flush_enc_all e : Forall (fun x => match x with Some o => has_ft o = true | None => True end) e ->
  flush_enc has_ft e =
    if decide (NoDup (omap (fun x => x) e)) then Some (Release <$> reverse (omap (fun x => x) e)) else None.
Proof.
  induction 1 as [|x e Hx _ IH]; [done|]. cbn [flush_enc]. rewrite IH. destruct x as [o|]; cbn [omap list_omap]; [|by destruct (decide _)].
  destruct (decide (NoDup (omap _ e))) as [He|He]; cbn [mbind option_bind].
  - rewrite Hx. cbn [negb orb]. destruct (bool_decide_reflect (Release o ∈ (Release <$> reverse (omap (fun x => x) e)))) as [Hin|Hin];
      rewrite emitted_in in Hin by (by intros ? ? [=]).
    + rewrite decide_False; [done|]. by intros [? _]%NoDup_cons.
    + rewrite decide_True by (by apply NoDup_cons). by rewrite reverse_cons, fmap_app.
  - rewrite decide_False; [done|]. by intros [_ ?]%NoDup_cons.
Qed.

Lemma omap_some (l : list Z) : omap (fun x => x) (Some <$> l) = l.
Proof. induction l as [|p l IH]; [done|]. cbn. by rewrite IH. Qed.

(** ** The entries are the linked objects without the unlinked ones *)

Definition alive (i : Z) (dead objs : list Z) : list (option Z) :=
  imap (fun k o => if decide (i + Z.of_nat k + 1 ∈ dead) then None else Some o) objs.

Lemma omap_alive i dead objs : omap (fun x => x) (alive i dead objs) = live i dead objs.
Proof.
  revert i. induction objs as [|o objs IH]; intros i; [done|].
  unfold alive. rewrite imap_cons. cbn [live]. rewrite Z.add_0_r.
  assert (E : imap ((fun k o => if decide (i + Z.of_nat k + 1 ∈ dead) then None else Some o) ∘ S) objs
              = alive (i + 1) dead objs).
  { apply imap_ext. intros k x _. simpl. replace (i + Z.of_nat (S k) + 1) with (i + 1 + Z.of_nat k + 1) by lia.
    done. }
  rewrite E. destruct (decide (i + 1 ∈ dead)); simpl; [apply IH|f_equal; apply IH].
Qed.

Lemma alive_snoc dead objs o :
  (Z.of_nat (length objs) + 1 ∉ dead) ->
  alive 0 dead (objs ++ [o]) = alive 0 dead objs ++ [Some o].
Proof.
  intros H. unfold alive. rewrite imap_app. f_equal. simpl. rewrite decide_False; [done|].
  by replace (0 + Z.of_nat (length objs + 0) + 1) with (Z.of_nat (length objs) + 1) by lia.
Qed.

Lemma alive_unlink dead objs id : 1 <= id ->
  <[Z.to_nat (id - 1) := None]> (alive 0 dead objs) = alive 0 (dead ++ [id]) objs.
Proof.
  intros Hid. apply list_eq. intros k. unfold alive. rewrite list_lookup_imap.
  destruct (decide (k = Z.to_nat (id - 1))) as [->|Hk].
  - destruct (objs !! Z.to_nat (id - 1)) as [o|] eqn:Ho.
    + rewrite list_lookup_insert_eq
        by (rewrite length_imap; by eapply lookup_lt_Some). simpl.
      rewrite decide_True; [done|]. apply elem_of_app. right. apply list_elem_of_singleton. lia.
    + rewrite list_insert_ge by (rewrite length_imap; by apply lookup_ge_None_1).
      rewrite list_lookup_imap, Ho. done.
  - rewrite list_lookup_insert_ne by done. rewrite list_lookup_imap.
    destruct (objs !! k) as [o|]; simpl; [|done]. f_equal.
    destruct (decide (0 + Z.of_nat k + 1 ∈ dead)) as [H|H].
    + rewrite decide_True; [done|]. apply elem_of_app. by left.
    + rewrite decide_False; [done|]. intros [H'|H']%elem_of_app; [done|].
      apply list_elem_of_singleton in H'. lia.
Qed.

Lemma ids_bound n ops id : ids_ok n ops -> id ∈ unlinks ops -> 1 <= id.
Proof.
  revert n. induction ops as [|[p|o|i] ops IH]; intros n H Hin; simpl in *;
    [by apply elem_of_nil in Hin|by eapply IH|by eapply IH|].
  destruct H as [Hi H]. apply elem_of_cons in Hin as [->|Hin]; [lia|by eapply IH].
Qed.

Lemma entries_alive ops dead objs :
  ids_ok (Z.of_nat (length objs)) ops -> Forall (fun id => id <= Z.of_nat (length objs)) dead ->
  entries (alive 0 dead objs) ops = alive 0 (dead ++ unlinks ops) (objs ++ links ops).
Proof.
  revert dead objs. induction ops as [|[p|o|id] ops IH]; intros dead objs Hids Hd; simpl in *.
  - by rewrite !app_nil_r.
  - by apply IH.
  - rewrite <- alive_snoc.
    + rewrite IH; [by rewrite <- app_assoc| |].
      * by rewrite length_app, Nat2Z.inj_add.
      * eapply Forall_impl; [exact Hd|]. simpl. intros id. rewrite length_app. simpl. lia.
    + intros Hin. rewrite Forall_forall in Hd. specialize (Hd _ Hin). simpl in Hd. lia.
  - destruct Hids as [Hid Hids]. rewrite alive_unlink by lia. rewrite IH.
    + by rewrite <- app_assoc.
    + done.
    + apply Forall_app. split; [done|]. constructor; [lia|constructor].
Qed.

Lemma alive_ft dead objs : Forall (fun o => has_ft o = true) objs ->
  Forall (fun x => match x with Some o => has_ft o = true | None => True end) (alive 0 dead objs).
Proof.
  intros H. apply Forall_lookup_2. intros k x Hk. unfold alive in Hk.
  rewrite list_lookup_imap in Hk. destruct (objs !! k) as [o|] eqn:Ho; [|done].
  simpl in Hk. injection Hk as <-. destruct (decide _); [done|].
  by eapply (Forall_lookup_1 (fun o => has_ft o = true)).
Qed.

(** C7: between [markHeap] and [releaseHeap] any number of blocks and objects can be
    tracked, blocks also more than once.  When no block was tracked twice, nor an object
    that was not unlinked, [releaseHeap] frees every block and releases every object
    that was not unlinked exactly once, newest first, and puts the thread back into the
    state it was in; when one was, it is freed or released a second time. *)
Theorem heap_bracket m ops :
  ids_ok 0 ops -> Forall (fun o => has_ft o = true) (links ops) ->
  exists saved m1 m2,
    markHeap false (Some m) = Some (saved, m1) /\
    run false m1 ops = Some m2 /\
    releaseHeap false has_ft m2 saved =
      if decide (NoDup (blocks ops) /\ NoDup (live 0 (unlinks ops) (links ops))) then
        Some ((Free <$> reverse (blocks ops)) ++ (Release <$> reverse (live 0 (unlinks ops) (links ops))), Some m)
      else None.
Proof.
  intros Hids Hft. eexists. eexists.
  destruct (run_ok (set_hc m fresh_heap) ops [] []) as (h & Hrun & Hl & He & _); [done|done|].
  exists (Some (set_hc m h)).
  assert (Ee : entries [] ops = alive 0 (unlinks ops) (links ops)) by (apply (entries_alive ops [] []); done).
  rewrite Ee in He. rewrite app_nil_l in Hl.
  split; [done|]. split; [exact Hrun|].
  unfold releaseHeap, __flush_mt. cbn [__memInit]. change (hc (set_hc m h)) with h. rewrite Hl, He.
  change (default [] (Some (alive 0 (unlinks ops) (links ops)))) with (alive 0 (unlinks ops) (links ops)).
  change (default [] (Some (Some <$> blocks ops))) with (Some <$> blocks ops).
  rewrite flush_objs_all, flush_enc_all, omap_alive, omap_some by (by apply alive_ft).
  destruct (decide (NoDup (blocks ops))) as [H1|H1], (decide (NoDup (live _ _ _))) as [H2|H2]; cbn [mbind option_bind].
  - rewrite decide_True by done. by destruct m.
  - by rewrite decide_False by tauto.
  - by rewrite decide_False by tauto.
  - by rewrite decide_False by tauto.
Qed.

Lemma flush_enc_last e o : has_ft o = true -> NoDup (omap (fun x => x) (e ++ [Some o])) ->
  Forall (fun x => match x with Some o => has_ft o = true | None => True end) e ->
  exists ev, flush_enc has_ft (e ++ [Some o]) = Some ev /\ Release o ∈ ev.
Proof.
  intros Ho Hd He. eexists. split.
  - rewrite flush_enc_all, decide_True; [done|exact Hd|]. apply Forall_app. split; [done|]. by constructor.
  - rewrite omap_app, reverse_app. simpl. apply list_elem_of_here.
Qed.

(** An id is only good for the tables it was handed out for.  An object tracked
    before [markHeap] and unlinked after it stays in the saved table, and the
    next flush releases it again; from the hundredth object on the unlinking
    writes outside the table. *)
Theorem unlink_across_mark m l e o :
  heap_ok (hc m) l e -> has_ft o = true ->
  NoDup (omap (fun x => x) l) -> NoDup (omap (fun x => x) (e ++ [Some o])) ->
  Forall (fun x => match x with Some o => has_ft o = true | None => True end) e ->
  exists m1 id saved m2,
    memLinkEncObj false (Some m) o = Some (m1, Some id) /\
    markHeap false m1 = Some (saved, m2) /\
    if Z.of_nat (length e) <? MT_SIZE_STEP then
      exists m3 ev m4 fl m5,
        memUnlinkEncObj false m2 id = Some m3 /\
        releaseHeap false has_ft m3 saved = Some (ev, m4) /\
        tool_mm_flush has_ft m4 = Some (fl, m5) /\ Release o ∈ fl
    else memUnlinkEncObj false m2 id = None.
Proof.
  intros (Hl & He & Hsl & Hse) Ho Hdl Hde Hft.
  destruct (push_ok e (memEncSize (hc m)) o Hse) as (size & Hp & Hs).
  destruct (flush_enc_last e o Ho Hde Hft) as (fl & Hfl & Hin).
  set (h := {| memSize := memSize (hc m); memObjs := memObjs (hc m);
               memEncSize := size; memEncObjs := Some (e ++ [Some o]) |}).
  exists (Some (set_hc m h)), (Z.of_nat (length e) + 1), (Some h), (Some (set_hc m fresh_heap)).
  split; [|split; [done|]].
  { unfold memLinkEncObj. cbn [__memInit]. rewrite He, Hp. cbn [mbind option_bind].
    unfold used. change (default [] (Some (e ++ [Some o]))) with (e ++ [Some o]).
    rewrite length_app, Nat2Z.inj_add. done. }
  assert (Hu : memUnlinkEncObj false (Some (set_hc m fresh_heap)) (Z.of_nat (length e) + 1)
    = t ← clear_entry (Some []) MT_SIZE_STEP (Z.of_nat (length e));
      Some (Some (set_hc m {| memSize := MT_SIZE_STEP; memObjs := Some [];
                              memEncSize := MT_SIZE_STEP; memEncObjs := t |}))).
  { unfold memUnlinkEncObj. cbn [__memInit].
    rewrite !(proj2 (Z.eqb_neq _ _)) by (unfold MEM_RELEASED, MEM_NOT_TRACKED; lia).
    cbn [orb]. change (hc (set_hc m fresh_heap)) with fresh_heap.
    by replace (Z.of_nat (length e) + 1 - 1) with (Z.of_nat (length e)) by lia. }
  rewrite Hu. unfold clear_entry. cbn [mbind option_bind].
  rewrite (proj2 (Z.leb_le _ _)) by lia. cbn [andb].
  destruct (Z.of_nat (length e) <? MT_SIZE_STEP); [|done]. cbn [mbind option_bind].
  eexists. exists [], (Some (set_hc m h)). eexists. eexists. split; [done|]. split; [|split].
  - unfold releaseHeap, __flush_mt. cbn [__memInit]. by destruct (Z.to_nat (Z.of_nat (length e))).
  - unfold tool_mm_flush, __flush_mt. change (hc (set_hc m h)) with h.
    change (memEncObjs h) with (Some (e ++ [Some o])). change (memObjs h) with (memObjs (hc m)). rewrite Hl.
    change (default [] (Some l)) with l. rewrite flush_objs_all, decide_True by done. cbn [mbind option_bind].
    change (default [] (Some (e ++ [Some o]))) with (e ++ [Some o]). rewrite Hfl.
    cbn [mbind option_bind]. done.
  - apply elem_of_app. by right.
Qed.
End Bracket.

(** * Witnesses *)

Definition wit_ops : list op := [OLink 11; OAdd 21; OLink 12; OUnlink 1; OLink 13].

Lemma heap_bracket_witness : exists saved m1 m2,
  markHeap false (Some __init_mt) = Some (saved, m1) /\ run false m1 wit_ops = Some m2 /\
  releaseHeap false (fun _ => true) m2 saved
    = Some ([Free 21; Release 13; Release 12], Some __init_mt).
Proof.
  destruct (heap_bracket (fun _ => true) __init_mt wit_ops) as (saved & m1 & m2 & H1 & H2 & H3).
  - by split_and!.
  - by repeat constructor.
  - exists saved, m1, m2. split_and!; [exact H1|exact H2|]. rewrite H3. by vm_compute.
Defined.

(** A block is added twice: it would be freed twice. *)
Lemma added_twice_undefined : exists saved m1 m2,
  markHeap false (Some __init_mt) = Some (saved, m1) /\ run false m1 [OAdd 21; OAdd 22; OAdd 21] = Some m2 /\
  releaseHeap false (fun _ => true) m2 saved = None.
Proof. eexists _, _, _. split_and!; by vm_compute. Qed.

Lemma unlink_across_mark_witness : exists m1 id,
  memLinkEncObj false (Some __init_mt) 7 = Some (m1, Some id).
Proof.
  destruct (unlink_across_mark (fun _ => true) __init_mt [] [] 7) as (m1 & id & _ & _ & H & _);
    [by split_and!|done|constructor|repeat constructor; by apply not_elem_of_nil|constructor|].
  by exists m1, id.
Defined.
