(* ===== verification/RWLock.v ===== *)
(** * The reader/writer lock (mrwlock.c)

    Any number of threads call [MReadLock], [MReadUnlock], [MWriteLock] and
    [MWriteUnlock] on one lock.  A step is one statement of one thread; the mutex
    and the condition variable behave as POSIX says: a mutex has one owner, a
    waiting thread gives it up and takes it again after a broadcast or
    spuriously.  [mrw_rnum] is an [unsigned] and wraps.  Failing calls of the library
    are left out. *)

From S2P Require Import Prelude.

(** Where a thread is: outside, or before the statement named. *)
Inductive pc :=
| Outside
| RL_count | RL_unlock            (* MReadLock: mutex held *)
| RU_uncount | RU_test | RU_unlock (* MReadUnlock: mutex held *)
| WL_test                         (* MWriteLock: mutex held, at the while *)
| WL_wait | WL_woken              (* in pthread_cond_wait: asleep, or to take the mutex again *)
| Writer.                         (* MWriteLock returned; the mutex stays held *)

#[export] Instance pc_eq_dec : EqDecision pc.
Proof. solve_decision. Defined.

(** [held]: read locks of the thread, from the return of [MReadLock] to the call of
    [MReadUnlock]. *)
Record thread := { at_pc : pc; held : nat }.

Record MRWLOCK := { mrw_owner : option nat; mrw_rnum : Z; threads : list thread }.

Definition upd (s : MRWLOCK) (o : option nat) (r : Z) (t : nat) (th : thread) : MRWLOCK :=
  {| mrw_owner := o; mrw_rnum := r; threads := <[t := th]> (threads s) |}.

(** [pthread_cond_broadcast]: everybody asleep is woken. *)
Definition wake (th : thread) : thread :=
  if decide (at_pc th = WL_wait) then {| at_pc := WL_woken; held := held th |} else th.

Definition MRWInit (n : nat) : MRWLOCK :=
  {| mrw_owner := None; mrw_rnum := 0; threads := replicate n {| at_pc := Outside; held := 0 |} |}.

Inductive step : MRWLOCK -> MRWLOCK -> Prop :=
| MReadLock_lock s t h :
    threads s !! t = Some {| at_pc := Outside; held := h |} -> mrw_owner s = None ->
    step s (upd s (Some t) (mrw_rnum s) t {| at_pc := RL_count; held := h |})
| MReadLock_count s t h :
    threads s !! t = Some {| at_pc := RL_count; held := h |} ->
    step s (upd s (mrw_owner s) (u32 (mrw_rnum s + 1)) t {| at_pc := RL_unlock; held := h |})
| MReadLock_unlock s t h :
    threads s !! t = Some {| at_pc := RL_unlock; held := h |} ->
    step s (upd s None (mrw_rnum s) t {| at_pc := Outside; held := S h |})
| MReadUnlock_lock s t h :
    threads s !! t = Some {| at_pc := Outside; held := S h |} -> mrw_owner s = None ->
    step s (upd s (Some t) (mrw_rnum s) t {| at_pc := RU_uncount; held := h |})
| MReadUnlock_uncount s t h :
    threads s !! t = Some {| at_pc := RU_uncount; held := h |} ->
    step s (upd s (mrw_owner s) (u32 (mrw_rnum s - 1)) t {| at_pc := RU_test; held := h |})
| MReadUnlock_test s t h :
    threads s !! t = Some {| at_pc := RU_test; held := h |} ->
    let s' := upd s (mrw_owner s) (mrw_rnum s) t {| at_pc := RU_unlock; held := h |} in
    step s {| mrw_owner := mrw_owner s'; mrw_rnum := mrw_rnum s';
              threads := if mrw_rnum s =? 0 then wake <$> threads s' else threads s' |}
| MReadUnlock_unlock s t h :
    threads s !! t = Some {| at_pc := RU_unlock; held := h |} ->
    step s (upd s None (mrw_rnum s) t {| at_pc := Outside; held := h |})
| MWriteLock_lock s t h :
    threads s !! t = Some {| at_pc := Outside; held := h |} -> mrw_owner s = None ->
    step s (upd s (Some t) (mrw_rnum s) t {| at_pc := WL_test; held := h |})
| MWriteLock_wait s t h :
    threads s !! t = Some {| at_pc := WL_test; held := h |} -> mrw_rnum s <> 0 ->
    step s (upd s None (mrw_rnum s) t {| at_pc := WL_wait; held := h |})
| MWriteLock_spurious s t h :
    threads s !! t = Some {| at_pc := WL_wait; held := h |} ->
    step s (upd s (mrw_owner s) (mrw_rnum s) t {| at_pc := WL_woken; held := h |})
| MWriteLock_relock s t h :
    threads s !! t = Some {| at_pc := WL_woken; held := h |} -> mrw_owner s = None ->
    step s (upd s (Some t) (mrw_rnum s) t {| at_pc := WL_test; held := h |})
| MWriteLock_return s t h :
    threads s !! t = Some {| at_pc := WL_test; held := h |} -> mrw_rnum s = 0 ->
    step s (upd s (mrw_owner s) (mrw_rnum s) t {| at_pc := Writer; held := h |})
| MWriteUnlock_unlock s t h :
    threads s !! t = Some {| at_pc := Writer; held := h |} ->
    step s (upd s None (mrw_rnum s) t {| at_pc := Outside; held := h |}).

Inductive reachable (n : nat) : MRWLOCK -> Prop :=
| reach_init : reachable n (MRWInit n)
| reach_step s s' : reachable n s -> step s s' -> reachable n s'.

(** ** The invariant *)

(** The statements executed with the mutex. *)
Definition holds_mutex (p : pc) : bool :=
  match p with Outside | WL_wait | WL_woken => false | _ => true end.

(** The read locks of a thread, with the one it is about to get or to give back. *)
Definition counted (th : thread) : Z :=
  Z.of_nat (held th) + match at_pc th with RL_unlock | RU_uncount => 1 | _ => 0 end.

Fixpoint total (ths : list thread) : Z :=
  match ths with [] => 0 | th :: ths => counted th + total ths end.

Record lock_inv (s : MRWLOCK) : Prop := {
  inv_owner : forall t th, threads s !! t = Some th ->
    (holds_mutex (at_pc th) = true <-> mrw_owner s = Some t);
  inv_rnum : mrw_rnum s = u32 (total (threads s));
  inv_writer : forall t th, threads s !! t = Some th -> at_pc th = Writer -> mrw_rnum s = 0;
  (** nobody sleeps without a reader, or a broadcast to come *)
  inv_wakeup : forall t th, threads s !! t = Some th -> at_pc th = WL_wait ->
    0 < total (threads s) \/ exists t' th', threads s !! t' = Some th' /\ at_pc th' = RU_test
}.

Lemma counted_nonneg th : 0 <= counted th.
Proof. unfold counted. destruct (at_pc th); lia. Qed.

Lemma total_nonneg ths : 0 <= total ths.
Proof.
  induction ths as [|th ths IH]; [done|]. simpl. pose proof (counted_nonneg th). lia.
Qed.

Lemma total_insert ths t th th' : ths !! t = Some th ->
  total (<[t := th']> ths) = total ths + counted th' - counted th.
Proof.
  revert t. induction ths as [|x ths IH]; intros [|t] H; simpl in *; [done|done| |].
  - injection H as ->. lia.
  - rewrite (IH t H). lia.
Qed.

Lemma total_wake ths : total (wake <$> ths) = total ths.
Proof.
  induction ths as [|th ths IH]; [done|]. rewrite fmap_cons. cbn [total]. rewrite IH.
  unfold wake, counted. destruct (decide (at_pc th = WL_wait)) as [->|]; done.
Qed.

Lemma total_bound ths t th : ths !! t = Some th -> counted th <= total ths.
Proof.
  revert t. induction ths as [|x ths IH]; intros [|t] H; simpl in *; try done.
  - injection H as ->. pose proof (total_nonneg ths). lia.
  - pose proof (counted_nonneg x). specialize (IH t H). lia.
Qed.

Lemma init_inv n : lock_inv (MRWInit n).
Proof.
  split; simpl.
  - intros t th [-> _]%lookup_replicate. simpl. split; congruence.
  - by induction n.
  - done.
  - by intros t th [-> _]%lookup_replicate.
Qed.

Lemma upd_lookup s o r t th th' t0 x :
  threads s !! t = Some th -> threads (upd s o r t th') !! t0 = Some x ->
  (t0 = t /\ x = th') \/ (t0 <> t /\ threads s !! t0 = Some x).
Proof.
  intros Ht H. simpl in H. destruct (decide (t0 = t)) as [->|Hn].
  - rewrite list_lookup_insert_eq in H by (by eapply lookup_lt_Some). left. by injection H.
  - rewrite list_lookup_insert_ne in H by done. by right.
Qed.

(** How a step of [t] may change the owner of the mutex. *)
Definition owner_step (s : MRWLOCK) (t : nat) (th th' : thread) (o : option nat) : Prop :=
  (o = mrw_owner s /\ holds_mutex (at_pc th') = holds_mutex (at_pc th)) \/
  (mrw_owner s = None /\ o = Some t /\ holds_mutex (at_pc th') = true) \/
  (holds_mutex (at_pc th) = true /\ o = None /\ holds_mutex (at_pc th') = false).

Lemma upd_owner s o r t th th' : lock_inv s -> threads s !! t = Some th ->
  owner_step s t th th' o ->
  forall t0 x, threads (upd s o r t th') !! t0 = Some x ->
    (holds_mutex (at_pc x) = true <-> o = Some t0).
Proof.
  intros Hinv Ht Ho t0 x Hx. pose proof (inv_owner s Hinv) as Hown.
  pose proof (Hown t th Ht) as Ht'.
  destruct (upd_lookup _ _ _ _ _ _ _ _ Ht Hx) as [[-> ->]|[Hne Hx']].
  - destruct Ho as [[-> ->]|[(_ & -> & ->)|(_ & -> & ->)]]; [done|done|]. split; congruence.
  - specialize (Hown t0 x Hx'). destruct Ho as [[-> _]|[(Hn & -> & _)|(Hh & -> & _)]].
    + done.
    + rewrite Hn in Hown. split; [intros H; by apply Hown in H|congruence].
    + apply Ht' in Hh. rewrite Hh in Hown. split; [|congruence].
      intros H. apply Hown in H. congruence.
Qed.

Lemma rnum_readers s : lock_inv s -> mrw_rnum s <> 0 -> 0 < total (threads s).
Proof.
  intros Hinv H. rewrite (inv_rnum s Hinv) in H. pose proof (total_nonneg (threads s)).
  destruct (Z.eq_dec (total (threads s)) 0) as [E|]; [by rewrite E in H|lia].
Qed.

(** A step that keeps the count. *)
Lemma rnum_same s c : lock_inv s -> mrw_rnum s = u32 (mrw_rnum s + c - c).
Proof. intros Hinv. replace (_ + c - c) with (mrw_rnum s) by lia. rewrite (inv_rnum s Hinv). unfold wrapu. by rewrite Zmod_mod. Qed.

(** A step that keeps [mrw_rnum], or changes it with the mutex. *)
Lemma upd_inv s o r t th th' :
  lock_inv s -> threads s !! t = Some th -> owner_step s t th th' o ->
  r = u32 (mrw_rnum s + counted th' - counted th) ->
  (r = mrw_rnum s \/ holds_mutex (at_pc th) = true) ->
  (at_pc th' = Writer -> r = 0) ->
  (at_pc th' = WL_wait -> mrw_rnum s <> 0) ->
  (at_pc th = RU_test -> mrw_rnum s <> 0) ->
  (at_pc th' = RU_test \/ counted th <= counted th') ->
  lock_inv (upd s o r t th').
Proof.
  intros Hinv Ht Ho Hr Hm Hw Hs Htest Hle.
  assert (Htot : total (threads (upd s o r t th')) = total (threads s) + counted th' - counted th) by (by apply total_insert).
  split.
  - by eapply upd_owner.
  - rewrite Htot. cbn [upd mrw_rnum]. rewrite Hr, (inv_rnum s Hinv). unfold wrapu.
    replace (total (threads s) mod 2 ^ 32 + counted th' - counted th)
      with (total (threads s) mod 2 ^ 32 + (counted th' - counted th)) by lia.
    rewrite Zplus_mod_idemp_l. f_equal. lia.
  - intros t0 x Hx Hp. destruct (upd_lookup _ _ _ _ _ _ _ _ Ht Hx) as [[-> ->]|[Hne Hx']]; [by apply Hw|].
    simpl. pose proof (inv_writer s Hinv t0 x Hx' Hp) as H0. destruct Hm as [->|Hm]; [done|].
    apply (inv_owner s Hinv t th Ht) in Hm.
    assert (Hh : holds_mutex (at_pc x) = true) by (by rewrite Hp).
    apply (inv_owner s Hinv t0 x Hx') in Hh. congruence.
  - intros t0 x Hx Hp. rewrite Htot. destruct Hle as [Hp'|Hle].
    { right. exists t, th'. split; [|done]. cbn [upd threads]. apply list_lookup_insert_eq. by eapply lookup_lt_Some. }
    destruct (upd_lookup _ _ _ _ _ _ _ _ Ht Hx) as [[-> ->]|[Hne Hx']].
    { left. specialize (rnum_readers s Hinv (Hs Hp)). lia. }
    destruct (inv_wakeup s Hinv t0 x Hx' Hp) as [H|(t' & th1 & Ht1 & Hp1)]; [left; lia|].
    destruct (decide (t' = t)) as [->|Hn].
    + left. rewrite Ht in Ht1. injection Ht1 as ->. specialize (rnum_readers s Hinv (Htest Hp1)). lia.
    + right. exists t', th1. cbn [upd threads]. by rewrite list_lookup_insert_ne.
Qed.

Lemma wake_pc th : holds_mutex (at_pc (wake th)) = holds_mutex (at_pc th) /\
  (at_pc (wake th) = Writer <-> at_pc th = Writer) /\ at_pc (wake th) <> WL_wait.
Proof.
  unfold wake. destruct (decide (at_pc th = WL_wait)) as [E|E]; simpl; [rewrite E|]; done.
Qed.

(** The broadcast of the last reader. *)
Lemma wake_inv s t h : lock_inv s -> threads s !! t = Some {| at_pc := RU_test; held := h |} ->
  mrw_rnum s = 0 ->
  lock_inv {| mrw_owner := mrw_owner s; mrw_rnum := mrw_rnum s;
              threads := wake <$> <[t := {| at_pc := RU_unlock; held := h |}]> (threads s) |}.
Proof.
  intros Hinv Ht H0. set (th' := {| at_pc := RU_unlock; held := h |}).
  assert (Hown : forall t0 x, threads (upd s (mrw_owner s) (mrw_rnum s) t th') !! t0 = Some x ->
    (holds_mutex (at_pc x) = true <-> mrw_owner s = Some t0)).
  { eapply upd_owner; [done|done|]. by left. }
  split; simpl.
  - intros t0 x Hx. apply list_lookup_fmap_Some in Hx as (y & -> & Hy).
    destruct (wake_pc y) as [-> _]. by apply Hown.
  - rewrite total_wake, (total_insert _ _ _ _ Ht). rewrite (inv_rnum s Hinv). f_equal.
    unfold counted. simpl. lia.
  - done.
  - intros t0 x Hx Hp. apply list_lookup_fmap_Some in Hx as (y & -> & Hy).
    by destruct (wake_pc y) as (_ & _ & Hn).
Qed.

Ltac owner_cases :=
  unfold owner_step; simpl;
  first [ left; by split | right; left; by split_and! | right; right; by split_and! ].

(** The new count is the old one with the change of the thread. *)
Ltac count_step :=
  first [ unfold counted; cbn; f_equal; lia
        | match goal with H : lock_inv ?s |- mrw_rnum ?s = u32 (_ + ?a - ?b) =>
            replace a with b by (unfold counted; cbn; lia); by apply rnum_same end ].

Lemma step_inv s s' : lock_inv s -> step s s' -> lock_inv s'.
Proof.
  intros Hinv Hs.
  destruct Hs as [s t h Ht Ho|s t h Ht|s t h Ht|s t h Ht Ho|s t h Ht|s t h Ht s'|s t h Ht
                 |s t h Ht Ho|s t h Ht H0|s t h Ht|s t h Ht Ho|s t h Ht H0|s t h Ht];
    try (eapply upd_inv; [exact Hinv|exact Ht|owner_cases|count_step| | | | | ];
         simpl; auto; try done; unfold counted; simpl; try lia; fail).
  destruct (Z.eqb_spec (mrw_rnum s) 0) as [E|E].
  - exact (wake_inv s t h Hinv Ht E).
  - change (lock_inv s'). unfold s'.
    eapply upd_inv; [exact Hinv|exact Ht|owner_cases|count_step| | | | | ];
      simpl; auto; try done; unfold counted; simpl; try lia.
Qed.

Lemma reachable_inv n s : reachable n s -> lock_inv s.
Proof. induction 1 as [|s s' _ IH Hs]; [apply init_inv|by eapply step_inv]. Qed.

(** C8: while a thread has the write lock no other thread has it, and the number of read
    locks is a multiple of 2^32: none is held, unless 2^32 of them are at once.  The count
    of readers is the number of read locks modulo 2^32. *)
Theorem write_excludes n s t th :
  reachable n s -> threads s !! t = Some th ->
  mrw_rnum s = total (threads s) mod 2 ^ 32 /\
  (at_pc th = Writer ->
   (forall t' th', threads s !! t' = Some th' -> at_pc th' = Writer -> t' = t) /\
   total (threads s) mod 2 ^ 32 = 0 /\
   (total (threads s) < 2 ^ 32 -> forall t' th', threads s !! t' = Some th' -> held th' = O)).
Proof.
  intros Hr%reachable_inv Ht. pose proof (inv_rnum s Hr) as Hc. split; [done|]. intros Hp.
  pose proof (inv_writer s Hr t th Ht Hp) as H0. rewrite H0 in Hc. split_and!; [|done|].
  - intros t' th' Ht' Hp'. pose proof (inv_owner s Hr) as Ho.
    assert (mrw_owner s = Some t) by (apply (Ho t th Ht); by rewrite Hp).
    assert (mrw_owner s = Some t') by (apply (Ho t' th' Ht'); by rewrite Hp'). congruence.
  - intros Hlt t' th' Ht'. pose proof (total_nonneg (threads s)). rewrite wrapu_small in Hc by lia.
    pose proof (total_bound _ _ _ Ht') as Hb. unfold counted in Hb. destruct (at_pc th'); lia.
Qed.

(** *** The count wraps *)

(** One thread that has [k] read locks. *)
Definition readers (k : nat) : MRWLOCK :=
  {| mrw_owner := None; mrw_rnum := u32 (Z.of_nat k); threads := [{| at_pc := Outside; held := k |}; {| at_pc := Outside; held := 0 |}] |}.

Lemma readers_reached k : reachable 2 (readers k).
Proof.
  induction k as [|k IH]; [apply reach_init|].
  eapply reach_step; [eapply reach_step; [eapply reach_step; [exact IH|]|]|].
  - by apply (MReadLock_lock (readers k) 0 k).
  - by apply (MReadLock_count _ 0 k).
  - replace (readers (S k)) with
      (upd (upd (upd (readers k) (Some 0%nat) (mrw_rnum (readers k)) 0 {| at_pc := RL_count; held := k |})
              (Some 0%nat) (u32 (u32 (Z.of_nat k) + 1)) 0 {| at_pc := RL_unlock; held := k |})
         None (u32 (u32 (Z.of_nat k) + 1)) 0 {| at_pc := Outside; held := S k |}).
    + by apply MReadLock_unlock.
    + unfold readers, upd. cbn [threads insert list_insert mrw_owner]. f_equal. unfold wrapu. rewrite Zplus_mod_idemp_l. f_equal. lia.
Qed.

(** With 2^32 read locks held the write lock is given out. *)
Lemma full_count_writer : exists s th, reachable 2 s /\
  threads s = [{| at_pc := Outside; held := Z.to_nat (2 ^ 32) |}; th] /\ at_pc th = Writer.
Proof.
  set (k := Z.to_nat (2 ^ 32)). assert (E : mrw_rnum (readers k) = 0) by (cbn [readers mrw_rnum]; unfold k; by rewrite Z2Nat.id).
  eexists _, {| at_pc := Writer; held := 0 |}. split; [|split; [|done]].
  - eapply reach_step; [eapply reach_step; [exact (readers_reached k)|]|].
    + by apply (MWriteLock_lock (readers k) 1 0).
    + by apply (MWriteLock_return _ 1 0).
  - done.
Qed.

(** C9: no wakeup is lost: a writer only sleeps while somebody reads or while the
    last reader is about to wake it. *)
Theorem no_lost_wakeup n s t th :
  reachable n s -> threads s !! t = Some th -> at_pc th = WL_wait ->
  (exists t' th', threads s !! t' = Some th' /\ 0 < counted th') \/
  (exists t' th', threads s !! t' = Some th' /\ at_pc th' = RU_test).
Proof.
  intros Hr%reachable_inv Ht Hp. destruct (inv_wakeup s Hr t th Ht Hp) as [H|H]; [left|by right].
  clear -H. revert H.
  induction (threads s) as [|x ths IH]; intros H; [done|]. simpl in H.
  destruct (decide (0 < counted x)) as [Hx|Hx]; [by exists O, x|].
  pose proof (counted_nonneg x). destruct IH as (t' & th' & Ht' & Hc); [lia|].
  by exists (S t'), th'.
Qed.

(** * Witnesses *)

(** Thread 1 gets a read lock. *)
Definition wit_r1 := upd (MRWInit 2) (Some 1%nat) 0 1 {| at_pc := RL_count; held := 0 |}.
Definition wit_r2 := upd wit_r1 (Some 1%nat) 1 1 {| at_pc := RL_unlock; held := 0 |}.
Definition wit_r3 := upd wit_r2 None 1 1 {| at_pc := Outside; held := 1 |}.

Lemma wit_reader : reachable 2 wit_r3.
Proof.
  eapply reach_step; [eapply reach_step; [eapply reach_step; [apply reach_init|]|]|].
  - by apply (MReadLock_lock (MRWInit 2) 1 0).
  - by apply (MReadLock_count wit_r1 1 0).
  - by apply (MReadLock_unlock wit_r2 1 0).
Qed.

(** It gives it back, and thread 0 gets the write lock. *)
Definition wit_w1 := upd wit_r3 (Some 1%nat) 1 1 {| at_pc := RU_uncount; held := 0 |}.
Definition wit_w2 := upd wit_w1 (Some 1%nat) 0 1 {| at_pc := RU_test; held := 0 |}.
Definition wit_w3 := upd wit_w2 (Some 1%nat) 0 1 {| at_pc := RU_unlock; held := 0 |}.
Definition wit_w4 := upd wit_w3 None 0 1 {| at_pc := Outside; held := 0 |}.
Definition wit_w5 := upd wit_w4 (Some 0%nat) 0 0 {| at_pc := WL_test; held := 0 |}.
Definition wit_w6 := upd wit_w5 (Some 0%nat) 0 0 {| at_pc := Writer; held := 0 |}.

Lemma wit_unlocked : rtc step wit_r3 wit_w6.
Proof.
  apply (rtc_l _ _ wit_w1); [by apply (MReadUnlock_lock wit_r3 1 0)|].
  apply (rtc_l _ _ wit_w2); [by apply (MReadUnlock_uncount wit_w1 1 0)|].
  apply (rtc_l _ _ wit_w3); [by apply (MReadUnlock_test wit_w2 1 0)|].
  apply (rtc_l _ _ wit_w4); [by apply (MReadUnlock_unlock wit_w3 1 0)|].
  apply (rtc_l _ _ wit_w5); [by apply (MWriteLock_lock wit_w4 0 0)|].
  apply rtc_once. by apply (MWriteLock_return wit_w5 0 0).
Qed.

Lemma reachable_steps n s s' : reachable n s -> rtc step s s' -> reachable n s'.
Proof. intros Hr H. induction H as [s|s s1 s' Hs _ IH]; [done|]. apply IH. by eapply reach_step. Qed.

Lemma write_excludes_witness : reachable 2 wit_r3 /\ rtc step wit_r3 wit_w6 /\
  (forall t th, threads wit_w6 !! t = Some th -> held th = O) /\
  (forall t th, threads wit_w6 !! t = Some th -> at_pc th = Writer -> t = O).
Proof.
  split; [exact wit_reader|]. split; [exact wit_unlocked|].
  destruct (write_excludes 2 wit_w6 0 {| at_pc := Writer; held := 0 |} (reachable_steps 2 wit_r3 wit_w6 wit_reader wit_unlocked) eq_refl) as [_ H].
  destruct (H eq_refl) as (H1 & _ & H2). split; [apply H2; by vm_compute|exact H1].
Defined.

(** Thread 1 reads, thread 0 goes to sleep. *)
Definition wit_r4 := upd wit_r3 (Some 0%nat) 1 0 {| at_pc := WL_test; held := 0 |}.
Definition wit_r5 := upd wit_r4 None 1 0 {| at_pc := WL_wait; held := 0 |}.

Lemma wit_asleep : reachable 2 wit_r5.
Proof.
  eapply reach_step; [eapply reach_step; [exact wit_reader|]|].
  - by apply (MWriteLock_lock wit_r3 0 0).
  - by apply (MWriteLock_wait wit_r4 0 0).
Qed.

Lemma no_lost_wakeup_witness :
  (exists t' th', threads wit_r5 !! t' = Some th' /\ 0 < counted th') \/
  (exists t' th', threads wit_r5 !! t' = Some th' /\ at_pc th' = RU_test).
Proof.
  exact (no_lost_wakeup 2 wit_r5 0 {| at_pc := WL_wait; held := 0 |} wit_asleep eq_refl eq_refl).
Defined.
