(* ===== verification/RetryQueue.v ===== *)
(** * The retry queue of undelivered indications (indCIMXMLHandler.c)

    The queue is a circular doubly linked list in a store of elements, with
    [RQhead] and [RQtail] into it.  Object paths and instances are numbers; calls
    to the repository and deliveries are recorded in order.  What the rest of the
    system answers to one round of [retryExport] is an [answers] record.  [None]
    is undefined behaviour: a null or released element, or the null pointer of an
    instance that was not found, is followed. *)

From S2P Require Import Prelude.

Abbreviation loc := nat.

Record RTElement := {
  ref : Z; sub : Z; ind : Z; SFCBIndEle : Z;
  count : Z; lasttry : Z; instanceID : Z;
  nextE : option loc; prevE : option loc
}.

Definition set_next (e : RTElement) (n : option loc) : RTElement :=
  {| ref := ref e; sub := sub e; ind := ind e; SFCBIndEle := SFCBIndEle e; count := count e;
     lasttry := lasttry e; instanceID := instanceID e; nextE := n; prevE := prevE e |}.
Definition set_prev (e : RTElement) (p : option loc) : RTElement :=
  {| ref := ref e; sub := sub e; ind := ind e; SFCBIndEle := SFCBIndEle e; count := count e;
     lasttry := lasttry e; instanceID := instanceID e; nextE := nextE e; prevE := p |}.
Definition set_tries (e : RTElement) (c t : Z) : RTElement :=
  {| ref := ref e; sub := sub e; ind := ind e; SFCBIndEle := SFCBIndEle e; count := c;
     lasttry := t; instanceID := instanceID e; nextE := nextE e; prevE := prevE e |}.
Definition set_indele (e : RTElement) (o : Z) : RTElement :=
  {| ref := ref e; sub := sub e; ind := ind e; SFCBIndEle := o; count := count e;
     lasttry := lasttry e; instanceID := instanceID e; nextE := nextE e; prevE := prevE e |}.

Abbreviation store := (gmap loc RTElement).

Record queue := { heap : store; RQhead : option loc; RQtail : option loc }.

Inductive call :=
| CreateIndicationElement (id count last ld ind sub : Z)
| DeleteIndicationElement (id : Z)
| DeleteIndication (ind : Z)
| Deliver (ref ind : Z)
| ModifyElement (indele last count : Z)
| SetFailureTime (sub t : Z)
| DeleteSubscription (sub : Z)
| DisableSubscription (sub : Z).

(** [x->next = n] and [x->prev = p] *)
Definition write_next (h : store) (x : option loc) (n : option loc) : option store :=
  l ← x; e ← h !! l; Some (<[l := set_next e n]> h).
Definition write_prev (h : store) (x : option loc) (p : option loc) : option store :=
  l ← x; e ← h !! l; Some (<[l := set_prev e p]> h).
Definition read_next (h : store) (x : option loc) : option (option loc) :=
  l ← x; e ← h !! l; Some (nextE e).

(** The object path built from the id of an element. *)
Section Queue.
Context (element_path : Z -> Z).

(** The linking of [enqRetry]. *)
Definition link_tail (q : queue) (element : loc) : option queue :=
  match RQhead q with
  | None =>
      h ← write_next (heap q) (Some element) (Some element);
      h ← write_prev h (Some element) (Some element);
      Some {| heap := h; RQhead := Some element; RQtail := Some element |}
  | Some _ =>
      first ← read_next (heap q) (RQtail q);
      h ← write_next (heap q) (Some element) first;
      en ← read_next h (Some element);
      h ← write_prev h en (Some element);
      h ← write_next h (RQtail q) (Some element);
      h ← write_prev h (Some element) (RQtail q);
      Some {| heap := h; RQhead := RQhead q; RQtail := Some element |}
  end.

(** [lock_ok], [unlock_ok]: the mutex calls succeed. *)
Definition enqRetry (lock_ok unlock_ok : bool) (q : queue) (element : loc) (repo : bool)
  : option (Z * queue * list call) :=
  if negb lock_ok then Some (1, q, []) else
  q ← link_tail q element;
  let rc := if unlock_ok then 0 else 1 in
  if repo then
    e ← heap q !! element;
    let h := <[element := set_indele e (element_path (instanceID e))]> (heap q) in
    t ← RQtail q;
    te ← h !! t;
    Some (rc, {| heap := h; RQhead := RQhead q; RQtail := RQtail q |},
          [CreateIndicationElement (instanceID e) (count te) (lasttry te) (ref e) (ind e) (sub e)])
  else Some (rc, q, []).

Definition dqRetry (q : queue) (cur : loc) : option (queue * list call) :=
  e ← heap q !! cur;
  let calls := [DeleteIndicationElement (instanceID e); DeleteIndication (ind e)] in
  if decide (nextE e = Some cur) then
    Some ({| heap := delete cur (heap q); RQhead := None; RQtail := None |}, calls)
  else
    h ← write_next (heap q) (prevE e) (nextE e);
    e ← h !! cur;
    h ← write_prev h (nextE e) (prevE e);
    e ← h !! cur;
    Some ({| heap := delete cur h;
             RQhead := if decide (RQhead q = Some cur) then nextE e else RQhead q;
             RQtail := if decide (RQtail q = Some cur) then prevE e else RQtail q |}, calls).

(** ** One round of [retryExport] *)

(** The parameters read from the indication service. *)
Record policy := { maxcount : Z; rint : Z; rtint : Z; ract : Z }.

Record answers := {
  shutdown : bool;            (* retryShutdown at the head of the loop *)
  ind_rc : Z; sub_rc : Z;     (* the two internalProviderGetInstance *)
  now : Z;                    (* gettimeofday before the delivery *)
  shutdown_asleep : bool;     (* retryShutdown after the sleep *)
  deliver_rc : Z;             (* deliverInd *)
  now2 : Z;                   (* gettimeofday after a failed delivery *)
  ele_rc : Z;                 (* internalProviderGetInstance of the element *)
  failure_time : Z            (* DeliveryFailureTime of the subscription *)
}.

Definition CMPI_RC_ERR_NOT_FOUND : Z := 6.

(** A lookup that fails gives a null pointer. *)
Definition instance_found (rc : Z) : option unit := if rc =? 0 then Some tt else None.

(** The loop goes on at an element, or is left; [locked]: RQlock is held then. *)
Inductive round := Next (q : queue) (cur : option loc) | Left (q : queue) (locked : bool).

(** [purge = cur; cur = cur->next; dqRetry(ctx, purge);] *)
Definition purge (q : queue) (cur : loc) (calls : list call) : option (round * list call) :=
  e ← heap q !! cur;
  '(q', c) ← dqRetry q cur;
  Some (Next q' (nextE e), calls ++ c).

Definition retry_round (p : policy) (q : queue) (cur : option loc) (a : answers)
  : option (round * list call) :=
  if shutdown a then Some (Left q true, []) else
  c ← cur;
  e ← heap q !! c;
  if negb (ind_rc a =? 0) then purge q c [] else
  if sub_rc a =? CMPI_RC_ERR_NOT_FOUND then purge q c [] else
  if (now a <? lasttry e + s32 (rint p)) && shutdown_asleep a then Some (Left q false, []) else
  let deliver := [Deliver (ref e) (ind e)] in
  if deliver_rc a =? 0 then
    _ ← instance_found (sub_rc a);
    purge q c (deliver ++ [SetFailureTime (sub e) 0])
  else if maxcount p - 1 <=? count e then purge q c deliver
  else
    _ ← instance_found (ele_rc a);
    _ ← instance_found (sub_rc a);
    let e' := set_tries e (count e + 1) (now2 a) in
    let q := {| heap := <[c := e']> (heap q); RQhead := RQhead q; RQtail := RQtail q |} in
    let calls := deliver ++ [ModifyElement (SFCBIndEle e) (now2 a) (count e + 1)] in
    if failure_time a =? 0 then
      Some (Next q (nextE e'), calls ++ [SetFailureTime (sub e) (now2 a)])
    else if u64 (failure_time a + s32 (rtint p)) <? u64 (now2 a) then
      if ract p =? 2 then purge q c (calls ++ [DeleteSubscription (sub e)])
      else if ract p =? 3 then purge q c (calls ++ [DisableSubscription (sub e)])
      else Some (Next q cur, calls)
    else Some (Next q (nextE e'), calls).

(** [while (RQhead != NULL)] over the answers of the rounds. *)
Fixpoint retry_loop (p : policy) (q : queue) (cur : option loc) (env : list answers)
  : option (round * list call) :=
  match RQhead q, env with
  | None, _ => Some (Left q true, [])
  | Some _, [] => Some (Next q cur, [])
  | Some _, a :: env =>
      '(r, c) ← retry_round p q cur a;
      match r with
      | Next q cur => '(r, c') ← retry_loop p q cur env; Some (r, c ++ c')
      | Left q locked => Some (Left q locked, c)
      end
  end.

Definition retryExport (p : policy) (q : queue) (env : list answers) : option (round * list call) :=
  retry_loop p q (RQhead q) env.

(** ** Refilling from the repository *)

(** The elements made of the stored instances, each at a fresh place. *)
Fixpoint refill (q : queue) (insts : list (loc * RTElement)) : option queue :=
  match insts with
  | [] => Some q
  | (l, e) :: insts =>
      '(_, q, _) ← enqRetry true true
         {| heap := <[l := e]> (heap q); RQhead := RQhead q; RQtail := RQtail q |} l false;
      refill q insts
  end.

Definition refillRetryQ (q : queue) (insts : list (loc * RTElement)) : option queue :=
  match RQhead q with None => refill q insts | Some _ => Some q end.
End Queue.

(** * The queue as a ring *)

Definition lastd (p : loc) (l : list loc) : loc := List.last l p.
#[global] Arguments lastd : simpl never.
Definition hdd (n : loc) (l : list loc) : loc := List.hd n l.

Lemma lastd_cons p x l : lastd p (x :: l) = lastd x l.
Proof.
  unfold lastd. revert p x. induction l as [|y l IH]; intros p x; [done|].
  change (List.last (x :: y :: l) p) with (List.last (y :: l) p). by rewrite (IH p y), (IH x y).
Qed.

Lemma lastd_app p l1 l2 : lastd p (l1 ++ l2) = lastd (lastd p l1) l2.
Proof. revert p. induction l1 as [|x l1 IH]; intros p; [done|].
  rewrite <- app_comm_cons, !lastd_cons. apply IH.
Qed.

Lemma lastd_snoc p l x : lastd p (l ++ [x]) = x.
Proof. by rewrite lastd_app. Qed.

Lemma lastd_elem p x l : lastd p (x :: l) ∈ x :: l.
Proof.
  rewrite lastd_cons. revert x. induction l as [|y l IH]; intros x; [apply list_elem_of_here|].
  rewrite lastd_cons. apply list_elem_of_further, IH.
Qed.

(** The elements [l], linked both ways, between [p] and [n]. *)
Fixpoint seg (h : store) (p : loc) (l : list loc) (n : loc) : Prop :=
  match l with
  | [] => True
  | x :: l => exists e, h !! x = Some e /\ prevE e = Some p /\ nextE e = Some (hdd n l) /\ seg h x l n
  end.

Lemma seg_app h p l1 l2 n :
  seg h p (l1 ++ l2) n <-> seg h p l1 (hdd n l2) /\ seg h (lastd p l1) l2 n.
Proof.
  revert p. induction l1 as [|x l1 IH]; intros p; simpl; [intuition|].
  rewrite lastd_cons. assert (E : hdd n (l1 ++ l2) = hdd (hdd n l2) l1) by (by destruct l1).
  rewrite E. split.
  - intros (e & H1 & H2 & H3 & H4). apply IH in H4 as [H4 H5]. split; [by exists e|done].
  - intros [(e & H1 & H2 & H3 & H4) H5]. exists e. split_and!; try done. by apply IH.
Qed.

Lemma seg_frame h h' p l n : (forall x, x ∈ l -> h' !! x = h !! x) -> seg h p l n -> seg h' p l n.
Proof.
  revert p. induction l as [|x l IH]; intros p Hf; [done|]. intros (e & H1 & H2 & H3 & H4).
  exists e. rewrite Hf by apply list_elem_of_here. split_and!; try done.
  apply IH; [|done]. intros y Hy. apply Hf. by apply list_elem_of_further.
Qed.

Lemma seg_set_prev h p x m n p' : NoDup (x :: m) -> seg h p (x :: m) n ->
  exists e, h !! x = Some e /\ seg (<[x := set_prev e (Some p')]> h) p' (x :: m) n.
Proof.
  intros [Hn _]%NoDup_cons (e & H1 & H2 & H3 & H4). exists e. split; [done|].
  exists (set_prev e (Some p')). rewrite lookup_insert_eq. split_and!; try done.
  eapply seg_frame; [|done]. intros y Hy. rewrite lookup_insert_ne; [done|]. by intros <-.
Qed.

Lemma seg_set_next h p m y n n' : NoDup (m ++ [y]) -> seg h p (m ++ [y]) n ->
  exists e, h !! y = Some e /\ seg (<[y := set_next e (Some n')]> h) p (m ++ [y]) n'.
Proof.
  intros (_ & Hn & _)%NoDup_app. rewrite seg_app. intros [H1 (e & H2 & H3 & H4 & _)].
  exists e. split; [done|]. apply seg_app. split.
  - eapply seg_frame; [|exact H1]. intros x Hx. rewrite lookup_insert_ne; [done|].
    intros <-. eapply Hn; [exact Hx|]. apply list_elem_of_here.
  - exists (set_next e (Some n')). by rewrite lookup_insert_eq.
Qed.

Definition ring (h : store) (l : list loc) : Prop :=
  match l with [] => True | x :: _ => seg h (lastd x l) l x end.

Lemma ring_nonempty h l x : l <> [] -> ring h l <-> seg h (lastd x l) l (hdd x l).
Proof. destruct l as [|y l]; [done|]. intros _. simpl. by rewrite !lastd_cons. Qed.

(** A ring may be read from any of its elements. *)
Lemma ring_rotate h l1 l2 : ring h (l1 ++ l2) -> ring h (l2 ++ l1).
Proof.
  destruct l1 as [|x l1]; [by rewrite app_nil_r|]. destruct l2 as [|y l2]; [by rewrite app_nil_r|].
  rewrite !(ring_nonempty _ _ x) by done. rewrite !seg_app, !lastd_app. simpl hdd.
  rewrite !lastd_cons. tauto.
Qed.

(** Taking the first element out of a ring. *)
Lemma unlink_first h x m e :
  NoDup (x :: m) -> m <> [] -> ring h (x :: m) -> h !! x = Some e ->
  exists h1 h2,
    nextE e = Some (hdd x m) /\ prevE e = Some (lastd x m) /\
    write_next h (prevE e) (nextE e) = Some h1 /\ h1 !! x = Some e /\
    write_prev h1 (nextE e) (prevE e) = Some h2 /\ h2 !! x = Some e /\ ring h2 m /\
    (forall y, y ∉ m -> h2 !! y = h !! y).
Proof.
  intros Hnd Hm Hring He. pose proof Hnd as [Hx Hndm]%NoDup_cons.
  unfold ring in Hring. rewrite lastd_cons in Hring.
  destruct Hring as (e1 & He1 & Hp & Hn & Hseg). rewrite He in He1. injection He1 as <-.
  destruct m as [|a m0]; [done|].
  destruct (exists_last Hm) as (m1 & b & Eb). rewrite Eb in *.
  assert (Hlast : lastd x (m1 ++ [b]) = b) by apply lastd_snoc. rewrite Hlast in Hp.
  assert (Ha : hdd x (m1 ++ [b]) = a) by (by rewrite <- Eb). rewrite Ha in Hn.
  destruct (seg_set_next h x m1 b x a Hndm Hseg) as (eb & Heb & Hseg1).
  set (h1 := <[b := set_next eb (Some a)]> h) in *.
  rewrite <- Eb in Hseg1, Hndm, Hx.
  destruct (seg_set_prev h1 x a m0 a b Hndm Hseg1) as (ea & Hea & Hseg2).
  set (h2 := <[a := set_prev ea (Some b)]> h1) in *.
  assert (Hbx : b <> x).
  { intros ->. apply Hx. rewrite Eb. apply elem_of_app. right. apply list_elem_of_here. }
  assert (Hax : a <> x) by (intros ->; apply Hx, list_elem_of_here).
  exists h1, h2. rewrite Hp, Hn, Hlast, Ha. split_and!; try done.
  - unfold write_next. cbn [mbind option_bind]. by rewrite Heb.
  - unfold h1. by rewrite lookup_insert_ne.
  - unfold write_prev. cbn [mbind option_bind]. by rewrite Hea.
  - unfold h2, h1. by rewrite !lookup_insert_ne.
  - rewrite <- Eb. unfold ring. replace (lastd a (a :: m0)) with b by (by rewrite Eb, lastd_snoc).
    exact Hseg2.
  - intros y Hy. unfold h2, h1. rewrite !lookup_insert_ne; [done| |].
    + intros <-. apply Hy. apply elem_of_app. right. apply list_elem_of_here.
    + intros <-. apply Hy. rewrite <- Eb. apply list_elem_of_here.
Qed.

(** * Refinement to a list *)

(** An element without its links. *)
Definition payload (e : RTElement) : RTElement := set_prev (set_next e None) None.

Definition keys (xs : list (loc * RTElement)) : list loc := fst <$> xs.

Record represents (q : queue) (xs : list (loc * RTElement)) : Prop := {
  rep_nodup : NoDup (keys xs);
  rep_ring : ring (heap q) (keys xs);
  rep_item : forall x d, (x, d) ∈ xs -> payload <$> heap q !! x = Some d;
  rep_head : RQhead q = head (keys xs);
  rep_tail : RQtail q = last (keys xs)
}.

Lemma write_next_payload h x n h' : write_next h x n = Some h' ->
  forall y, payload <$> h' !! y = payload <$> h !! y.
Proof.
  unfold write_next. destruct x as [l|]; [|done]. cbn [mbind option_bind].
  destruct (h !! l) as [e|] eqn:He; [|done]. intros [= <-] y.
  destruct (decide (l = y)) as [->|Hn]; [by rewrite lookup_insert_eq, He|by rewrite lookup_insert_ne].
Qed.

Lemma write_prev_payload h x n h' : write_prev h x n = Some h' ->
  forall y, payload <$> h' !! y = payload <$> h !! y.
Proof.
  unfold write_prev. destruct x as [l|]; [|done]. cbn [mbind option_bind].
  destruct (h !! l) as [e|] eqn:He; [|done]. intros [= <-] y.
  destruct (decide (l = y)) as [->|Hn]; [by rewrite lookup_insert_eq, He|by rewrite lookup_insert_ne].
Qed.

Lemma keys_app xs ys : keys (xs ++ ys) = keys xs ++ keys ys.
Proof. apply fmap_app. Qed.
Lemma keys_cons x d xs : keys ((x, d) :: xs) = x :: keys xs.
Proof. done. Qed.

Lemma last_lastd (x : loc) l : last (x :: l) = Some (lastd x l).
Proof.
  revert x. induction l as [|y l IH]; intros x; [done|].
  rewrite lastd_cons. change (last (x :: y :: l)) with (last (y :: l)). apply IH.
Qed.

Lemma last_app_ne (l1 l2 : list loc) : l2 <> [] -> last (l1 ++ l2) = last l2.
Proof.
  intros H. destruct (exists_last H) as (m & b & ->). by rewrite app_assoc, !last_snoc.
Qed.

Lemma item_lookup q xs x d : represents q xs -> (x, d) ∈ xs ->
  exists e, heap q !! x = Some e /\ payload e = d.
Proof.
  intros Hr Hin. pose proof (rep_item q xs Hr x d Hin) as H.
  destruct (heap q !! x) as [e|]; [|done]. injection H as H. by exists e.
Qed.

(** Head and tail after taking out [x]. *)
Lemma head_without (l1 l2 : list loc) x : NoDup (l1 ++ x :: l2) -> l2 ++ l1 <> [] ->
  (if decide (head (l1 ++ x :: l2) = Some x) then Some (hdd x (l2 ++ l1)) else head (l1 ++ x :: l2))
  = head (l1 ++ l2).
Proof.
  intros (_ & Hd & _)%NoDup_app Hne. destruct l1 as [|y l1]; simpl.
  - rewrite decide_True by done. rewrite app_nil_r in *. by destruct l2.
  - rewrite decide_False; [done|]. intros [= ->]. apply (Hd x); apply list_elem_of_here.
Qed.

Lemma tail_without (l1 l2 : list loc) x : NoDup (l1 ++ x :: l2) -> l2 ++ l1 <> [] ->
  (if decide (last (l1 ++ x :: l2) = Some x) then Some (lastd x (l2 ++ l1)) else last (l1 ++ x :: l2))
  = last (l1 ++ l2).
Proof.
  intros (_ & _ & Hd)%NoDup_app Hne. apply NoDup_cons in Hd as [Hx _].
  rewrite last_app_ne by done. destruct l2 as [|y l2].
  - rewrite app_nil_r in *. simpl in *. rewrite decide_True by done.
    destruct l1 as [|z l1]; [done|]. by rewrite last_lastd, lastd_cons.
  - rewrite (last_app_ne l1 (y :: l2)) by done.
    change (last (x :: y :: l2)) with (last (y :: l2)).
    rewrite decide_False; [done|]. intros E. apply Hx. by apply last_Some_elem_of.
Qed.


(** The single element of a queue. *)
Lemma ring_single h x e : ring h [x] -> h !! x = Some e -> nextE e = Some x.
Proof. intros (e' & He & _ & Hn & _) He'. rewrite He' in He. by injection He as <-. Qed.

Lemma dq_ok q xs1 x d xs2 :
  represents q (xs1 ++ (x, d) :: xs2) ->
  exists q', dqRetry q x = Some (q', [DeleteIndicationElement (instanceID d); DeleteIndication (ind d)]) /\
    represents q' (xs1 ++ xs2) /\ heap q' !! x = None.
Proof.
  intros Hr. destruct (item_lookup q _ x d Hr) as (e & He & Hd);
    [apply elem_of_app; right; apply list_elem_of_here|].
  pose proof (rep_nodup _ _ Hr) as Hnd. rewrite keys_app, keys_cons in Hnd.
  pose proof (ring_rotate _ _ _ (eq_ind _ (ring (heap q)) (rep_ring _ _ Hr) _ (keys_app xs1 ((x, d) :: xs2)))) as Hring.
  rewrite keys_cons in Hring. simpl in Hring.
  pose proof (rep_head _ _ Hr) as Hh. pose proof (rep_tail _ _ Hr) as Ht.
  rewrite keys_app, keys_cons in Hh, Ht.
  assert (Hndr : NoDup (x :: keys xs2 ++ keys xs1)).
  { rewrite app_comm_cons. apply NoDup_app. apply NoDup_app in Hnd as (N1 & N2 & N3).
    split_and!; [done| |done]. intros y Hy Hy1. by apply (N2 y). }
  assert (Hnd' : NoDup (keys (xs1 ++ xs2))).
  { rewrite keys_app. apply NoDup_app in Hnd as (N1 & N2 & N3). apply NoDup_cons in N3 as [_ N3].
    apply NoDup_app. split_and!; [done| |done]. intros y Hy Hy2. apply (N2 y Hy). by apply list_elem_of_further. }
  unfold dqRetry. rewrite He. cbn [mbind option_bind]. subst d.
  destruct (decide (keys xs2 ++ keys xs1 = [])) as [Hempty|Hne].
  - rewrite Hempty in Hring. rewrite decide_True by (by eapply ring_single).
    apply app_eq_nil in Hempty as [E2 E1].
    assert (xs1 = [] /\ xs2 = []) as [-> ->] by (destruct xs1, xs2; done).
    eexists. split; [done|]. split; [|apply lookup_delete_eq].
    split; try done. intros y d Hy. by apply elem_of_nil in Hy.
  - destruct (unlink_first (heap q) x (keys xs2 ++ keys xs1) e Hndr Hne Hring He)
      as (h1 & h2 & Hn & Hp & Hw1 & Hx1 & Hw2 & Hx2 & Hring2 & _).
    rewrite decide_False.
    2: { intros E. rewrite Hn in E. injection E as E. apply NoDup_cons in Hndr as [Hx _]. apply Hx.
         destruct (keys xs2 ++ keys xs1) as [|y l]; [done|]. simpl in E. subst. apply list_elem_of_here. }
    rewrite Hw1. cbn [mbind option_bind]. rewrite Hx1. cbn [mbind option_bind].
    rewrite Hw2. cbn [mbind option_bind]. rewrite Hx2. cbn [mbind option_bind].
    eexists. split; [done|]. split; [|apply lookup_delete_eq].
    assert (Hfr : forall l, x ∉ l -> forall p n, seg h2 p l n -> seg (delete x h2) p l n).
    { intros l Hl p n. apply seg_frame. intros y Hy. rewrite lookup_delete_ne; [done|]. by intros ->. }
    apply NoDup_cons in Hndr as [Hx _].
    split; simpl.
    + done.
    + rewrite keys_app. apply ring_rotate.
      apply (ring_nonempty _ _ x) in Hring2; [|done]. apply (ring_nonempty _ _ x); [done|].
      by apply Hfr.
    + intros y d Hy. destruct (decide (y = x)) as [->|Hyx].
      { exfalso. apply Hx. apply list_elem_of_fmap_2 with (f := fst) in Hy. simpl in Hy.
        change (x ∈ keys (xs1 ++ xs2)) in Hy. rewrite keys_app in Hy.
        apply elem_of_app in Hy. apply elem_of_app. tauto. }
      rewrite lookup_delete_ne by done.
      rewrite (write_prev_payload _ _ _ _ Hw2 y), (write_next_payload _ _ _ _ Hw1 y).
      apply (rep_item _ _ Hr). apply elem_of_app in Hy as [Hy|Hy]; apply elem_of_app; [by left|right].
      by apply list_elem_of_further.
    + rewrite Hh, Hn, keys_app. by apply head_without.
    + rewrite Ht, Hp, keys_app. by apply tail_without.
Qed.

Lemma read_last h (x : loc) l e : ring h (x :: l) -> h !! lastd x l = Some e ->
  nextE e = Some x.
Proof.
  intros Hring He. destruct (exists_last (l := x :: l) ltac:(done)) as (m & b & E).
  assert (Eb : lastd x l = b) by (rewrite <- (lastd_cons x x l), E; apply (lastd_snoc x)).
  unfold ring in Hring. rewrite lastd_cons, Eb, E in Hring. apply seg_app in Hring as [_ (e' & He' & _ & Hn & _)].
  rewrite Eb, He' in He. by injection He as <-.
Qed.

Lemma link_ok q xs x e :
  represents q xs -> x ∉ keys xs -> heap q !! x = Some e ->
  exists q', link_tail q x = Some q' /\ represents q' (xs ++ [(x, payload e)]).
Proof.
  intros Hr Hx He. pose proof (rep_nodup _ _ Hr) as Hnd. pose proof (rep_ring _ _ Hr) as Hring.
  assert (Hnd' : NoDup (keys (xs ++ [(x, payload e)]))).
  { rewrite keys_app. apply NoDup_app. split_and!; [done| |apply NoDup_singleton].
    intros y Hy Hy2. apply list_elem_of_singleton in Hy2. simpl in Hy2. congruence. }
  unfold link_tail. rewrite (rep_head _ _ Hr), (rep_tail _ _ Hr).
  destruct (keys xs) as [|a l] eqn:Ek; simpl head.
  - assert (xs = []) as -> by (by destruct xs).
    unfold write_next, write_prev. cbn [mbind option_bind]. rewrite He. cbn [mbind option_bind].
    rewrite lookup_insert_eq. cbn [mbind option_bind]. eexists. split; [done|].
    split; simpl; try done.
    + unfold ring. eexists. rewrite lookup_insert_eq. split_and!; done.
    + intros y d Hy. apply list_elem_of_singleton in Hy. injection Hy as -> ->.
      by rewrite lookup_insert_eq.
  - set (t := lastd a l).
    assert (Ht : last (a :: l) = Some t) by apply last_lastd. rewrite Ht.
    assert (Hxt : x <> t).
    { intros ->. apply Hx. apply last_Some_elem_of. exact Ht. }
    assert (Hxa : x <> a) by (intros ->; apply Hx, list_elem_of_here).
    (* the ring as a segment from the last element to the first *)
    pose proof Hring as Hseg. unfold ring in Hseg. rewrite lastd_cons in Hseg. fold t in Hseg.
    destruct (exists_last (l := a :: l) ltac:(done)) as (m & b & Em).
    assert (Ebt : b = t) by (unfold t; rewrite <- (lastd_cons a a l), Em; symmetry; apply (lastd_snoc a)).
    subst b.
    assert (Het : exists et, heap q !! t = Some et).
    { rewrite Em in Hseg. apply seg_app in Hseg as [_ (et & Het & _)]. by exists et. }
    destruct Het as [et Het].
    assert (Hfirst : read_next (heap q) (Some t) = Some (Some a)).
    { unfold read_next. cbn [mbind option_bind]. rewrite Het. cbn [mbind option_bind].
      f_equal. by eapply read_last. }
    rewrite Hfirst. cbn [mbind option_bind].
    set (h1 := <[x := set_next e (Some a)]> (heap q)).
    assert (W1 : write_next (heap q) (Some x) (Some a) = Some h1)
      by (unfold write_next; cbn [mbind option_bind]; by rewrite He).
    rewrite W1. cbn [mbind option_bind].
    assert (R1 : read_next h1 (Some x) = Some (Some a))
      by (unfold read_next, h1; cbn [mbind option_bind]; by rewrite lookup_insert_eq).
    rewrite R1. cbn [mbind option_bind].
    assert (Hseg1 : seg h1 t (a :: l) a).
    { eapply seg_frame; [|exact Hseg]. intros y Hy. unfold h1. rewrite lookup_insert_ne; [done|].
      by intros <-. }
    destruct (seg_set_prev h1 t a l a x Hnd Hseg1) as (ea & Hea & Hseg2).
    set (h2 := <[a := set_prev ea (Some x)]> h1) in *.
    assert (W2 : write_prev h1 (Some a) (Some x) = Some h2)
      by (unfold write_prev; cbn [mbind option_bind]; by rewrite Hea).
    rewrite W2. cbn [mbind option_bind].
    rewrite Em in Hseg2, Hnd. destruct (seg_set_next h2 x m t a x Hnd Hseg2) as (e2 & He2 & Hseg3).
    set (h3 := <[t := set_next e2 (Some x)]> h2) in *.
    assert (W3 : write_next h2 (Some t) (Some x) = Some h3)
      by (unfold write_next; cbn [mbind option_bind]; by rewrite He2).
    rewrite W3. cbn [mbind option_bind].
    assert (Hx3 : h3 !! x = Some (set_next e (Some a))).
    { unfold h3, h2, h1. rewrite !lookup_insert_ne by done. apply lookup_insert_eq. }
    set (h4 := <[x := set_prev (set_next e (Some a)) (Some t)]> h3).
    assert (W4 : write_prev h3 (Some x) (Some t) = Some h4)
      by (unfold write_prev; cbn [mbind option_bind]; by rewrite Hx3).
    rewrite W4. cbn [mbind option_bind]. eexists. split; [done|].
    split; simpl.
    + done.
    + rewrite keys_app, Ek. change (keys [(x, payload e)]) with [x]. unfold ring. rewrite <- app_comm_cons, lastd_cons, lastd_snoc, app_comm_cons.
      rewrite Em. apply seg_app. split.
      * eapply seg_frame; [|exact Hseg3]. intros y Hy. unfold h4. rewrite lookup_insert_ne; [done|].
        intros <-. rewrite <- Em in Hy. by apply Hx.
      * rewrite lastd_snoc. exists (set_prev (set_next e (Some a)) (Some t)).
        unfold h4. rewrite lookup_insert_eq. split_and!; done.
    + intros y d Hy.
      rewrite (write_prev_payload _ _ _ _ W4 y), (write_next_payload _ _ _ _ W3 y),
        (write_prev_payload _ _ _ _ W2 y), (write_next_payload _ _ _ _ W1 y).
      apply elem_of_app in Hy as [Hy|Hy]; [by apply (rep_item _ _ Hr)|].
      apply list_elem_of_singleton in Hy. injection Hy as -> ->. by rewrite He.
    + by rewrite keys_app, Ek.
    + rewrite keys_app. change (keys [(x, payload e)]) with [x]. by rewrite last_snoc.
Qed.

(** * The rounds of the retry thread *)

(** The queue as the thread sees it: the element it is at comes first. *)
Definition represents_at (q : queue) (cur : option loc) (ys : list (loc * RTElement)) : Prop :=
  exists xs1 xs2, ys = xs2 ++ xs1 /\ represents q (xs1 ++ xs2) /\
    (ys <> [] -> cur = head (keys ys)) /\ (xs2 = [] -> xs1 = []).

Lemma represents_start q xs : represents q xs -> represents_at q (RQhead q) xs.
Proof.
  intros H. exists [], xs. rewrite app_nil_r. split_and!; try done. intros _. by apply rep_head.
Qed.

Lemma represents_at_nil q cur : represents_at q cur [] -> represents q [].
Proof.
  intros (xs1 & xs2 & E & H & _ & _). symmetry in E. apply app_eq_nil in E as [-> ->]. exact H.
Qed.

Lemma represents_at_head q cur ys : represents_at q cur ys -> (RQhead q = None <-> ys = []).
Proof.
  intros (xs1 & xs2 & -> & H & _ & Hx). rewrite (rep_head _ _ H), keys_app.
  destruct xs1 as [|[x d] xs1]; [|by destruct xs2; [specialize (Hx eq_refl)|]].
  by destruct xs2 as [|[x d] xs2].
Qed.

(** Splitting off the current element. *)
Lemma at_current q cur x d rest : represents_at q cur ((x, d) :: rest) ->
  exists xs1 xs2, rest = xs2 ++ xs1 /\ represents q (xs1 ++ (x, d) :: xs2) /\ cur = Some x.
Proof.
  intros (xs1 & xs2 & E & H & Hc & Hx). specialize (Hc ltac:(done)).
  destruct xs2 as [|y xs2]; [by rewrite (Hx eq_refl) in E|].
  injection E as -> ->. by exists xs1, xs2.
Qed.

Lemma at_rest q cur xs1 xs2 : represents q (xs1 ++ xs2) ->
  (xs2 ++ xs1 <> [] -> cur = head (keys (xs2 ++ xs1))) -> represents_at q cur (xs2 ++ xs1).
Proof.
  intros H Hc. destruct xs2 as [|y xs2].
  - exists [], xs1. rewrite !app_nil_r in *. by split_and!.
  - exists xs1, (y :: xs2). by split_and!.
Qed.

Lemma ring_next h x l e : ring h (x :: l) -> h !! x = Some e -> nextE e = Some (hdd x l).
Proof. intros (e' & He & _ & Hn & _) He'. rewrite He' in He. by injection He as <-. Qed.

Lemma current_next q xs1 x d xs2 e :
  represents q (xs1 ++ (x, d) :: xs2) -> heap q !! x = Some e ->
  nextE e = Some (hdd x (keys (xs2 ++ xs1))).
Proof.
  intros H He. eapply ring_next; [|exact He].
  pose proof (ring_rotate _ _ _ (eq_ind _ (ring (heap q)) (rep_ring _ _ H) _ (keys_app xs1 ((x, d) :: xs2)))) as Hring.
  by rewrite keys_app.
Qed.

Lemma head_hdd x (l : list loc) : l <> [] -> Some (hdd x l) = head l.
Proof. by destruct l. Qed.

Definition deletes (d : RTElement) : list call :=
  [DeleteIndicationElement (instanceID d); DeleteIndication (ind d)].

Lemma purge_ok q cur x d rest calls :
  represents_at q cur ((x, d) :: rest) ->
  exists q' cur', purge q x calls = Some (Next q' cur', calls ++ deletes d) /\
    represents_at q' cur' rest.
Proof.
  intros (xs1 & xs2 & -> & H & ->)%at_current.
  destruct (item_lookup q _ x d H) as (e & He & Hd);
    [apply elem_of_app; right; apply list_elem_of_here|].
  destruct (dq_ok q xs1 x d xs2 H) as (q' & Hdq & H' & _).
  exists q', (nextE e). unfold purge. rewrite He. cbn [mbind option_bind]. rewrite Hdq.
  split; [done|]. apply at_rest; [done|]. intros Hne.
  rewrite (current_next q xs1 x d xs2 e H He). apply head_hdd.
  intros E. apply Hne. unfold keys in E. by apply fmap_nil_inv in E.
Qed.

(** Writing the tries of an element in place. *)
Lemma tries_ok q xs1 x d xs2 e c t :
  represents q (xs1 ++ (x, d) :: xs2) -> heap q !! x = Some e ->
  represents {| heap := <[x := set_tries e c t]> (heap q); RQhead := RQhead q; RQtail := RQtail q |}
    (xs1 ++ (x, set_tries d c t) :: xs2).
Proof.
  intros H He.
  assert (Hk : keys (xs1 ++ (x, set_tries d c t) :: xs2) = keys (xs1 ++ (x, d) :: xs2))
    by (by rewrite !keys_app).
  assert (Hd : payload e = d).
  { destruct (item_lookup q _ x d H) as (e' & He' & Hd);
      [apply elem_of_app; right; apply list_elem_of_here|]. congruence. }
  assert (Hseg : forall l p n, seg (heap q) p l n -> seg (<[x := set_tries e c t]> (heap q)) p l n).
  { induction l as [|y l IH]; intros p n; [done|]. intros (e' & H1 & H2 & H3 & H4).
    destruct (decide (x = y)) as [->|Hn].
    - exists (set_tries e' c t). rewrite lookup_insert_eq. rewrite He in H1. injection H1 as ->.
      split_and!; try done. by apply IH.
    - exists e'. rewrite lookup_insert_ne by done. split_and!; try done. by apply IH. }
  pose proof (rep_nodup _ _ H) as Hnd. split; simpl; rewrite ?Hk.
  - done.
  - pose proof (rep_ring _ _ H) as Hr. unfold ring in *. destruct (keys (xs1 ++ (x, d) :: xs2)); [done|].
    by apply Hseg.
  - intros y d' Hy. rewrite keys_app, keys_cons in Hnd. apply NoDup_app in Hnd as (_ & N2 & N3).
    apply NoDup_cons in N3 as [N3 _].
    assert (Hin : forall xs, (y, d') ∈ xs -> y ∈ keys xs).
    { intros xs Hxs. by apply (list_elem_of_fmap_2 fst) in Hxs. }
    apply elem_of_app in Hy as [Hy|Hy].
    + assert (x <> y) by (intros ->; apply (N2 y); [by apply Hin|apply list_elem_of_here]).
      rewrite lookup_insert_ne by done. apply (rep_item _ _ H). apply elem_of_app. by left.
    + apply elem_of_cons in Hy as [[= -> ->]|Hy].
      * rewrite lookup_insert_eq. simpl. by rewrite <- Hd.
      * assert (x <> y) by (intros ->; apply N3; by apply Hin).
        rewrite lookup_insert_ne by done. apply (rep_item _ _ H). apply elem_of_app. right.
        by apply list_elem_of_further.
  - by apply rep_head.
  - by apply rep_tail.
Qed.

(** ** Specification of a round *)

(** The subscription is there or not found, and the stored element is there. *)
Definition readable (a : answers) : Prop := (sub_rc a = 0 \/ sub_rc a = CMPI_RC_ERR_NOT_FOUND) /\ ele_rc a = 0.

Inductive spec_result := SNext (ys : list (loc * RTElement)) | SLeft.

Definition spec_round (p : policy) (x : loc) (d : RTElement) (rest : list (loc * RTElement))
    (a : answers) : spec_result * list call :=
  let deliver := [Deliver (ref d) (ind d)] in
  if shutdown a then (SLeft, [])
  else if negb (ind_rc a =? 0) || (sub_rc a =? CMPI_RC_ERR_NOT_FOUND) then (SNext rest, deletes d)
  else if (now a <? lasttry d + s32 (rint p)) && shutdown_asleep a then (SLeft, [])
  else if deliver_rc a =? 0 then (SNext rest, deliver ++ [SetFailureTime (sub d) 0] ++ deletes d)
  else if maxcount p - 1 <=? count d then (SNext rest, deliver ++ deletes d)
  else
    let d' := set_tries d (count d + 1) (now2 a) in
    let calls := deliver ++ [ModifyElement (SFCBIndEle d) (now2 a) (count d + 1)] in
    if failure_time a =? 0 then
      (SNext (rest ++ [(x, d')]), calls ++ [SetFailureTime (sub d) (now2 a)])
    else if u64 (failure_time a + s32 (rtint p)) <? u64 (now2 a) then
      if ract p =? 2 then (SNext rest, calls ++ [DeleteSubscription (sub d)] ++ deletes d)
      else if ract p =? 3 then (SNext rest, calls ++ [DisableSubscription (sub d)] ++ deletes d)
      else (SNext ((x, d') :: rest), calls)
    else (SNext (rest ++ [(x, d')]), calls).

Definition matches (r : round) (s : spec_result) : Prop :=
  match r, s with
  | Next q cur, SNext ys => represents_at q cur ys
  | Left _ _, SLeft => True
  | _, _ => False
  end.

(** The branches that take the element out. *)
Ltac purge_case H :=
  match goal with |- context [purge ?q ?x ?c] =>
    let q' := fresh in let cur' := fresh in let Hq := fresh in
    destruct (H c) as (q' & cur' & -> & Hq); exists (Next q' cur'); eexists;
    split; [reflexivity|]; split; [by rewrite <- ?app_assoc|exact Hq]
  end.

Lemma round_ok p q cur x d rest a :
  represents_at q cur ((x, d) :: rest) -> readable a ->
  exists r calls, retry_round p q cur a = Some (r, calls) /\
    calls = (spec_round p x d rest a).2 /\ matches r (spec_round p x d rest a).1.
Proof.
  intros Hat [Hsub Hele]. pose proof (at_current _ _ _ _ _ Hat) as (xs1 & xs2 & Hrest & H & Hcur).
  destruct (item_lookup q _ x d H) as (e & He & Hd);
    [apply elem_of_app; right; apply list_elem_of_here|].
  pose proof (current_next q xs1 x d xs2 e H He) as Hnext.
  set (e' := set_tries e (count d + 1) (now2 a)).
  set (d' := set_tries d (count d + 1) (now2 a)).
  set (q1 := {| heap := <[x := e']> (heap q); RQhead := RQhead q; RQtail := RQtail q |}).
  assert (H1 : represents q1 (xs1 ++ (x, d') :: xs2)).
  { by apply tries_ok. }
  assert (Hstay : represents_at q1 (Some x) ((x, d') :: rest)).
  { exists xs1, ((x, d') :: xs2). rewrite Hrest. by split_and!. }
  assert (Hmove : represents_at q1 (nextE e') (rest ++ [(x, d')])).
  { change (nextE e') with (nextE e). rewrite Hnext, Hrest, <- app_assoc. apply at_rest.
    - by rewrite <- app_assoc.
    - intros _. rewrite !keys_app, app_assoc. destruct (keys xs2 ++ keys xs1); done. }
  assert (Hpay : ref e = ref d /\ sub e = sub d /\ ind e = ind d /\ SFCBIndEle e = SFCBIndEle d /\
            count e = count d /\ lasttry e = lasttry d) by (rewrite <- Hd; done).
  destruct Hpay as (P1 & P2 & P3 & P4 & P5 & P6).
  unfold retry_round, spec_round. rewrite Hcur. cbn [mbind option_bind]. rewrite He.
  cbn [mbind option_bind]. rewrite P1, P2, P3, P4, P5, P6. fold e' d' q1.
  assert (Hp0 : forall calls, exists q' cur', purge q x calls = Some (Next q' cur', calls ++ deletes d) /\
            represents_at q' cur' rest).
  { intros calls. by apply purge_ok with cur. }
  assert (Hp1 : forall calls, exists q' cur', purge q1 x calls = Some (Next q' cur', calls ++ deletes d) /\
            represents_at q' cur' rest).
  { intros calls. by destruct (purge_ok q1 (Some x) x d' rest calls Hstay) as (q' & cur' & E & Hq');
      exists q', cur'. }
  destruct (shutdown a); [by eexists _, _|].
  destruct (negb (ind_rc a =? 0)); cbn [orb]; [by purge_case Hp0|].
  destruct (Z.eqb_spec (sub_rc a) CMPI_RC_ERR_NOT_FOUND) as [|Hne]; [by purge_case Hp0|].
  destruct Hsub as [Hsub|]; [|done]. rewrite Hsub, Hele. cbn [instance_found Z.eqb mbind option_bind].
  destruct ((now a <? lasttry d + s32 (rint p)) && shutdown_asleep a); [by eexists _, _|].
  destruct (deliver_rc a =? 0); [by purge_case Hp0|].
  destruct (maxcount p - 1 <=? count d); [by purge_case Hp0|].
  destruct (failure_time a =? 0); [by eexists _, _|].
  destruct (u64 (failure_time a + s32 (rtint p)) <? u64 (now2 a)); [|by eexists _, _].
  destruct (ract p =? 2); [by purge_case Hp1|].
  destruct (ract p =? 3); [by purge_case Hp1|].
  by eexists _, _.
Qed.

(** ** Draining *)

(** Rounds an element may still cause. *)
Definition tries_left (p : policy) (d : RTElement) : nat :=
  Z.to_nat (Z.max 1 (maxcount p - count d)).
Fixpoint work (p : policy) (ys : list (loc * RTElement)) : nat :=
  match ys with [] => O | y :: ys => (tries_left p y.2 + work p ys)%nat end.

Lemma work_app p ys zs : work p (ys ++ zs) = (work p ys + work p zs)%nat.
Proof. induction ys as [|y ys IH]; simpl; lia. Qed.

Lemma tries_pos p d : (0 < tries_left p d)%nat.
Proof. unfold tries_left. lia. Qed.

Definition deleted (cs : list call) : list Z :=
  omap (fun c => match c with DeleteIndicationElement i => Some i | _ => None end) cs.
Definition deliveries (cs : list call) : nat :=
  length (omap (fun c => match c with Deliver r i => Some tt | _ => None end) cs).

Definition no_shutdown (a : answers) : Prop := shutdown a = false /\ shutdown_asleep a = false.
Definition ids (ys : list (loc * RTElement)) : list Z := (fun y => instanceID y.2) <$> ys.

(** A round without a shutdown makes progress. *)
Lemma spec_progress p x d rest a : no_shutdown a ->
  exists ys, (spec_round p x d rest a).1 = SNext ys /\
    (work p ys < tries_left p d + work p rest)%nat /\
    deleted (spec_round p x d rest a).2 ++ ids ys ≡ₚ instanceID d :: ids rest /\
    (deliveries (spec_round p x d rest a).2 <= 1)%nat.
Proof.
  intros [Hs Hsl]. unfold spec_round. rewrite Hs, Hsl, andb_false_r.
  pose proof (tries_pos p d) as Hp.
  assert (Hgone : forall cs, deleted cs = [] -> deleted (cs ++ deletes d) ++ ids rest
            ≡ₚ instanceID d :: ids rest).
  { intros cs Hc. unfold deleted in *. by rewrite omap_app, Hc. }
  destruct (negb (ind_rc a =? 0) || (sub_rc a =? CMPI_RC_ERR_NOT_FOUND)).
  { exists rest. split_and!; [done|lia|by apply (Hgone [])|unfold deliveries; simpl; lia]. }
  destruct (deliver_rc a =? 0).
  { exists rest. split_and!; [done|lia|done|done]. }
  destruct (Z.leb_spec (maxcount p - 1) (count d)) as [Hm|Hm].
  { exists rest. split_and!; [done|lia|done|done]. }
  set (d' := set_tries d (count d + 1) (now2 a)).
  assert (Hw : (tries_left p d' < tries_left p d)%nat) by (unfold tries_left, d'; simpl; lia).
  assert (Hmove : (work p (rest ++ [(x, d')]) < tries_left p d + work p rest)%nat)
    by (rewrite work_app; simpl; lia).
  assert (Hid : ids (rest ++ [(x, d')]) ≡ₚ instanceID d :: ids rest)
    by (unfold ids; rewrite fmap_app; apply Permutation_app_comm).
  destruct (failure_time a =? 0).
  { exists (rest ++ [(x, d')]). split_and!; [done|done|exact Hid|done]. }
  destruct (u64 (failure_time a + s32 (rtint p)) <? u64 (now2 a)).
  2: { exists (rest ++ [(x, d')]). split_and!; [done|done|exact Hid|done]. }
  destruct (ract p =? 2); [exists rest; split_and!; [done|lia|done|done]|].
  destruct (ract p =? 3); [exists rest; split_and!; [done|lia|done|done]|].
  exists ((x, d') :: rest). split_and!; [done|simpl; lia|done|done].
Qed.

Lemma deleted_app a b : deleted (a ++ b) = deleted a ++ deleted b.
Proof. apply omap_app. Qed.
Lemma deliveries_app a b : deliveries (a ++ b) = (deliveries a + deliveries b)%nat.
Proof. unfold deliveries. by rewrite omap_app, length_app. Qed.

Lemma loop_drains p q cur ys env :
  represents_at q cur ys -> Forall no_shutdown env -> Forall readable env -> (work p ys <= length env)%nat ->
  exists q' calls, retry_loop p q cur env = Some (Left q' true, calls) /\ represents q' [] /\
    deleted calls ≡ₚ ids ys /\ (deliveries calls <= work p ys)%nat.
Proof.
  revert q cur ys. induction env as [|a env IH]; intros q cur ys Hat Henv Hread Hw.
  - assert (ys = []) as ->.
    { destruct ys as [|[x d] ys]; [done|]. simpl in Hw. pose proof (tries_pos p d). lia. }
    exists q, []. simpl. rewrite (proj2 (represents_at_head _ _ _ Hat) eq_refl).
    split_and!; try done. by eapply represents_at_nil.
  - destruct ys as [|[x d] rest].
    + exists q, []. simpl. rewrite (proj2 (represents_at_head _ _ _ Hat) eq_refl).
      split_and!; try done. by eapply represents_at_nil.
    + apply Forall_cons in Henv as [Ha Henv]. apply Forall_cons in Hread as [Hra Hread].
      destruct (round_ok p q cur x d rest a Hat Hra) as (r & calls & Hr & Hc & Hm).
      destruct (spec_progress p x d rest a Ha) as (ys' & Hy & Hlt & Hdel & Hdl).
      rewrite <- Hc in Hdel, Hdl. rewrite Hy in Hm.
      destruct r as [q' cur'|]; [|done]. simpl in Hm.
      destruct (IH q' cur' ys' Hm Henv Hread) as (q2 & calls2 & Hl & Hq2 & Hd2 & Hv2).
      { simpl in Hw. lia. }
      exists q2, (calls ++ calls2). cbn [retry_loop].
      destruct (RQhead q) eqn:Eh.
      2: { by apply (represents_at_head _ _ _ Hat) in Eh. }
      rewrite Hr. cbn [mbind option_bind]. rewrite Hl. cbn [mbind option_bind].
      split_and!; [done|done| |].
      * rewrite deleted_app, Hd2. exact Hdel.
      * rewrite deliveries_app. simpl. lia.
Qed.

(** A delivery that succeeds although the subscription could not be read, and one that
    fails when the stored element cannot be read, follow a null pointer. *)
Lemma unreadable_undefined p q c e a : heap q !! c = Some e -> RQhead q = Some c -> shutdown a = false -> shutdown_asleep a = false -> ind_rc a = 0 ->
  (sub_rc a <> 0 /\ sub_rc a <> CMPI_RC_ERR_NOT_FOUND /\ deliver_rc a = 0) \/
  (ele_rc a <> 0 /\ sub_rc a <> CMPI_RC_ERR_NOT_FOUND /\ deliver_rc a <> 0 /\ count e < maxcount p - 1) ->
  retryExport p q [a] = None.
Proof.
  intros He Hq Hs Hsl Hi H. unfold retryExport. cbn [retry_loop]. rewrite Hq.
  unfold retry_round. rewrite Hs. cbn [mbind option_bind]. rewrite He. cbn [mbind option_bind].
  rewrite Hi, Hsl, andb_false_r. cbn [Z.eqb negb]. unfold instance_found.
  destruct H as [(H1 & H2 & ->)|(H1 & H2 & H3 & H4)]; rewrite (proj2 (Z.eqb_neq _ _) H2).
  - cbn [Z.eqb]. by rewrite (proj2 (Z.eqb_neq _ _) H1).
  - rewrite (proj2 (Z.eqb_neq _ _) H3), (proj2 (Z.leb_gt _ _)) by lia. by rewrite (proj2 (Z.eqb_neq _ _) H1).
Qed.

(** C11: the retry thread empties the queue: as long as it is not shut down, a
    subscription that cannot be read is one that is not found, and the stored elements
    can be read, whatever else the deliveries, lookups and clocks answer, after at most
    [maxcount] tries per element (at least one) every element has been taken out and
    deleted from the repository exactly once, with at most that many deliveries. *)
Theorem retryExport_drains p q xs env :
  represents q xs -> Forall no_shutdown env -> Forall readable env -> (work p xs <= length env)%nat ->
  exists q' calls, retryExport p q env = Some (Left q' true, calls) /\
    RQhead q' = None /\ RQtail q' = None /\
    deleted calls ≡ₚ ids xs /\ (deliveries calls <= work p xs)%nat.
Proof.
  intros H Henv Hread Hw. unfold retryExport.
  destruct (loop_drains p q _ xs env (represents_start q xs H) Henv Hread Hw)
    as (q' & calls & Hl & Hq & Hd & Hv).
  exists q', calls. split_and!; try done; [by rewrite (rep_head _ _ Hq)|by rewrite (rep_tail _ _ Hq)].
Qed.

(** ** The operations of the queue *)

(** The path of the stored instance is written into the element. *)
Lemma indele_ok q xs x e o : represents q xs -> heap q !! x = Some e ->
  represents {| heap := <[x := set_indele e o]> (heap q); RQhead := RQhead q; RQtail := RQtail q |}
    ((fun y => if decide (y.1 = x) then (y.1, set_indele y.2 o) else y) <$> xs).
Proof.
  intros H He. set (f := fun y : loc * RTElement => _).
  assert (Hk : keys (f <$> xs) = keys xs).
  { unfold keys. rewrite <- list_fmap_compose. apply list_fmap_ext. intros i y _. unfold f. cbn. by destruct (decide _). }
  assert (Hseg : forall l p n, seg (heap q) p l n -> seg (<[x := set_indele e o]> (heap q)) p l n).
  { induction l as [|y l IH]; intros p n; [done|]. intros (e' & H1 & H2 & H3 & H4). destruct (decide (x = y)) as [<-|Hn].
    - exists (set_indele e' o). rewrite lookup_insert_eq. rewrite He in H1. injection H1 as ->. split_and!; try done. by apply IH.
    - exists e'. rewrite lookup_insert_ne by done. split_and!; try done. by apply IH. }
  split; cbn [heap RQhead RQtail]; rewrite ?Hk; [apply H| | |apply H|apply H].
  - pose proof (rep_ring _ _ H) as Hr. unfold ring in *. destruct (keys xs); [done|]. by apply Hseg.
  - intros y d ([z d'] & E & Hz)%list_elem_of_fmap. pose proof (rep_item _ _ H z d' Hz) as Hi. unfold f in E. cbn [fst snd] in E.
    destruct (decide (z = x)) as [->|Hn]; injection E as -> ->.
    + rewrite lookup_insert_eq. rewrite He in Hi. injection Hi as <-. done.
    + by rewrite lookup_insert_ne.
Qed.

(** C10: the queue is first in, first out with removal anywhere, empty or not: [enqRetry]
    puts the element last and stores it in the repository when it is new there, and
    [dqRetry] takes it out wherever it is, frees it and deletes its instances; the
    others keep their order and data.  Without the lock nothing is done. *)
Theorem queue_refines element_path q xs lock_ok unlock_ok y e repo :
  represents q xs -> y ∉ keys xs -> heap q !! y = Some e ->
  let d := payload e in
  let id := instanceID e in
  (exists q', enqRetry element_path lock_ok unlock_ok q y repo =
       Some (if lock_ok && unlock_ok then 0 else 1, q',
             if lock_ok && repo then [CreateIndicationElement id (count e) (lasttry e) (ref e) (ind e) (sub e)] else []) /\
     represents q' (if lock_ok then xs ++ [(y, if repo then set_indele d (element_path id) else d)] else xs)) /\
  (forall xs1 x d xs2, xs = xs1 ++ (x, d) :: xs2 ->
     exists q', dqRetry q x = Some (q', [DeleteIndicationElement (instanceID d); DeleteIndication (ind d)]) /\
       represents q' (xs1 ++ xs2) /\ heap q' !! x = None).
Proof.
  intros H Hy He. split; [|intros xs1 x d xs2 ->; by apply dq_ok].
  unfold enqRetry. destruct lock_ok; cbn [negb andb]; [|by exists q].
  destruct (link_ok q xs y e H Hy He) as (q1 & Hl & H1). rewrite Hl. cbn [mbind option_bind].
  destruct repo; [|exists q1; by destruct unlock_ok].
  destruct (item_lookup q1 _ y (payload e) H1) as (e1 & He1 & Hp1); [apply elem_of_app; right; apply list_elem_of_here|].
  rewrite He1. cbn [mbind option_bind].
  assert (Ht : RQtail q1 = Some y).
  { rewrite (rep_tail _ _ H1), keys_app. change (keys [(y, payload e)]) with [y]. apply last_snoc. }
  rewrite Ht. cbn [mbind option_bind]. rewrite lookup_insert_eq. cbn [mbind option_bind].
  pose proof (indele_ok q1 _ y e1 (element_path (instanceID e1)) H1 He1) as H2.
  assert (E : instanceID e1 = instanceID e /\ count e1 = count e /\ lasttry e1 = lasttry e /\ ref e1 = ref e /\ ind e1 = ind e /\ sub e1 = sub e).
  { destruct e, e1. unfold payload, set_prev, set_next in Hp1. cbn in Hp1. injection Hp1 as -> -> -> -> -> -> ->. done. }
  destruct E as (E1 & E2 & E3 & E4 & E5 & E6). cbn [set_indele count lasttry]. rewrite E1, E2, E3, E4, E5, E6 in *.
  rewrite Ht in H2. rewrite fmap_app in H2. cbn [fmap list_fmap fst snd] in H2. rewrite decide_True in H2 by done.
  replace (_ <$> xs) with xs in H2; [eexists; split; [by destruct unlock_ok|exact H2]|].
  symmetry. etrans; [|apply list_fmap_id]. apply list_fmap_ext. intros i [z dz] Hz. cbn. rewrite decide_False; [done|].
  intros ->. apply Hy. apply (list_elem_of_fmap_2' fst xs (y, dz)); [by eapply list_elem_of_lookup_2|done].
Qed.

(** * Witnesses *)

Definition wit_item (n : Z) : RTElement :=
  {| ref := 100 + n; sub := 200; ind := 300 + n; SFCBIndEle := 400 + n; count := 0; lasttry := 1000;
     instanceID := n; nextE := None; prevE := None |}.
(** Two elements queued one after the other, a third allocated. *)
Definition wit_empty : queue :=
  {| heap := {[1%nat := wit_item 1; 2%nat := wit_item 2; 3%nat := wit_item 3]};
     RQhead := None; RQtail := None |}.
Definition wit_queue : queue :=
  match link_tail wit_empty 1 with
  | Some q => match link_tail q 2 with Some q => q | None => wit_empty end
  | None => wit_empty
  end.
Definition wit_items : list (loc * RTElement) := [(1%nat, wit_item 1); (2%nat, wit_item 2)].

Lemma wit_queue_represents : represents wit_queue wit_items.
Proof.
  split.
  - match goal with |- ?P => apply (bool_decide_eq_true_1 P) end. by vm_compute.
  - eexists. split; [by vm_compute|]. split; [done|]. split; [done|].
    eexists. split; [by vm_compute|]. done.
  - intros x d Hin. unfold wit_items in Hin. apply elem_of_cons in Hin as [[= -> ->]|Hin]; [by vm_compute|].
    apply elem_of_cons in Hin as [[= -> ->]|Hin]; [by vm_compute|by apply elem_of_nil in Hin].
  - by vm_compute.
  - by vm_compute.
Qed.

Definition wit_policy : policy := {| maxcount := 3; rint := 20; rtint := 2592000; ract := 2 |}.
(** Every delivery fails. *)
Definition wit_answer : answers :=
  {| shutdown := false; ind_rc := 0; sub_rc := 0; now := 2000; shutdown_asleep := false;
     deliver_rc := 1; now2 := 2000; ele_rc := 0; failure_time := 1500 |}.

Lemma retryExport_drains_witness : exists q' calls,
  retryExport wit_policy wit_queue (replicate 6 wit_answer) = Some (Left q' true, calls) /\
  deleted calls ≡ₚ [1; 2] /\ (deliveries calls <= 6)%nat.
Proof.
  destruct (retryExport_drains wit_policy wit_queue wit_items (replicate 6 wit_answer) wit_queue_represents)
    as (q' & calls & H & _ & _ & Hd & Hv); [by repeat constructor|repeat (constructor; [by split; [left|]|]); constructor|by vm_compute|].
  by exists q', calls.
Defined.

(** The first element of an empty queue, and a third one that is stored. *)
Lemma queue_refines_witness :
  (exists q', enqRetry (fun i => 10 * i) true true wit_empty 1 false = Some (0, q', []) /\ represents q' [(1%nat, wit_item 1)]) /\
  (exists q', enqRetry (fun i => 10 * i) true true wit_queue 3 true =
     Some (0, q', [CreateIndicationElement 3 0 1000 103 303 200]) /\
     represents q' (wit_items ++ [(3%nat, set_indele (wit_item 3) 30)])).
Proof.
  split.
  - refine (proj1 (queue_refines (fun i => 10 * i) wit_empty [] true true 1%nat (wit_item 1) false _ _ _)).
    + split; [constructor|done|by intros x d ?%elem_of_nil|done|done].
    + apply not_elem_of_nil.
    + by vm_compute.
  - assert (Hn : 3%nat ∉ keys wit_items) by (match goal with |- ?P => apply (bool_decide_eq_true_1 P) end; by vm_compute).
    refine (proj1 (queue_refines (fun i => 10 * i) wit_queue wit_items true true 3%nat (wit_item 3) true wit_queue_represents Hn _)).
    by vm_compute.
Defined.
