(* ===== verification/ProviderRegister.v ===== *)
(** * The provider register (providerRegister.c)

    The registration file has a section per class, [[class]] followed by lines
    [key: value]; [newProviderRegister] reads it into a hash table of
    [ProviderInfo] objects.  Several providers of one class form a chain that
    starts with the first one registered.  The objects live in a store, the hash
    table and the four global pointers hold their places.  [None] is undefined
    behaviour: a null or released pointer is followed, or a buffer is overrun. *)

From S2P Require Import Prelude CString HashTable Support Control.

Abbreviation loc := nat.

(** The members the register sets; the provider manager starts from zeroes. *)
Record ProviderInfo := {
  className : bytes; ptype : Z;
  providerName : option bytes; location : option bytes; parms : option bytes;
  group : option bytes; user : option bytes; uid : Z;
  ns : option (list bytes); provId : Z; pid : Z; unload : Z;
  nextInRegister : option loc
}.

Definition INSTANCE_PROVIDER : Z := 1.
Definition ASSOCIATION_PROVIDER : Z := 2.
Definition INDICATION_PROVIDER : Z := 4.
Definition METHOD_PROVIDER : Z := 8.
Definition PROPERTY_PROVIDER : Z := 16.
Definition CLASS_PROVIDER : Z := 32.
Definition QUALIFIER_PROVIDER : Z := 64.
Definition FORCE_PROVIDER_NOTFOUND : Z := 128.

(** Assignments to one member. *)
Definition with_strings (d : ProviderInfo) (pn lo pa gr us : option bytes) : ProviderInfo :=
  {| className := className d; ptype := ptype d; providerName := pn; location := lo; parms := pa;
     group := gr; user := us; uid := uid d; ns := ns d; provId := provId d; pid := pid d;
     unload := unload d; nextInRegister := nextInRegister d |}.
Definition set_providerName d v := with_strings d (Some v) (location d) (parms d) (group d) (user d).
Definition set_location d v := with_strings d (providerName d) (Some v) (parms d) (group d) (user d).
Definition set_parms d v := with_strings d (providerName d) (location d) (Some v) (group d) (user d).
Definition set_group d v := with_strings d (providerName d) (location d) (parms d) (Some v) (user d).
Definition set_user d v := with_strings d (providerName d) (location d) (parms d) (group d) (Some v).
Definition with_rest (d : ProviderInfo) (ty ui pi un : Z) (nss : option (list bytes))
    (nx : option loc) : ProviderInfo :=
  {| className := className d; ptype := ty; providerName := providerName d; location := location d;
     parms := parms d; group := group d; user := user d; uid := ui; ns := nss; provId := provId d;
     pid := pi; unload := un; nextInRegister := nx |}.
Definition set_type d v := with_rest d v (uid d) (pid d) (unload d) (ns d) (nextInRegister d).
Definition set_uid d v := with_rest d (ptype d) v (pid d) (unload d) (ns d) (nextInRegister d).
Definition set_pid d v := with_rest d (ptype d) (uid d) v (unload d) (ns d) (nextInRegister d).
Definition set_unload d v := with_rest d (ptype d) (uid d) (pid d) v (ns d) (nextInRegister d).
Definition set_ns d v := with_rest d (ptype d) (uid d) (pid d) (unload d) (Some v) (nextInRegister d).
Definition set_nextInRegister d v := with_rest d (ptype d) (uid d) (pid d) (unload d) (ns d) v.

(** [calloc] and the assignments of a section line. *)
Definition new_info (cn : bytes) (i ui : Z) (us : option bytes) : ProviderInfo :=
  {| className := cn; ptype := 0; providerName := None; location := None; parms := None;
     group := None; user := us; uid := ui; ns := None; provId := i; pid := 0; unload := 0;
     nextInRegister := None |}.

Section Register.
Context {T : Type} `{!CharHashTable T loc}.

(** The store, the next place [calloc] gives, the table and the global pointers. *)
Record registry := {
  heap : gmap loc ProviderInfo; top : loc; ht : T;
  classProvInfoPtr : option loc; defaultProvInfoPtr : option loc;
  interOpProvInfoPtr : option loc; qualiProvInfoPtr : option loc
}.

Definition with_heap (r : registry) (h : gmap loc ProviderInfo) : registry :=
  {| heap := h; top := top r; ht := ht r; classProvInfoPtr := classProvInfoPtr r;
     defaultProvInfoPtr := defaultProvInfoPtr r; interOpProvInfoPtr := interOpProvInfoPtr r;
     qualiProvInfoPtr := qualiProvInfoPtr r |}.
Definition with_ht (r : registry) (t : T) : registry :=
  {| heap := heap r; top := top r; ht := t; classProvInfoPtr := classProvInfoPtr r;
     defaultProvInfoPtr := defaultProvInfoPtr r; interOpProvInfoPtr := interOpProvInfoPtr r;
     qualiProvInfoPtr := qualiProvInfoPtr r |}.
Definition with_special (r : registry) (c d i q : option loc) : registry :=
  {| heap := heap r; top := top r; ht := ht r; classProvInfoPtr := c; defaultProvInfoPtr := d;
     interOpProvInfoPtr := i; qualiProvInfoPtr := q |}.

(** The chain is followed first; it has no more elements than the store. *)
Fixpoint freeInfoPtr (fuel : nat) (h : gmap loc ProviderInfo) (info : loc)
  : option (gmap loc ProviderInfo) :=
  match fuel with
  | O => None
  | S fuel =>
      d ← h !! info;
      h ← match nextInRegister d with Some n => freeInfoPtr fuel h n | None => Some h end;
      Some (delete info h)
  end.
Definition free_info (r : registry) (info : loc) : option registry :=
  h ← freeInfoPtr (S (size (heap r))) (heap r) info; Some (with_heap r h).

Definition addProviderToHT (r : registry) (info : loc) : option (Z * registry) :=
  d ← heap r !! info;
  match ht_get (ht r) (className d) with
  | Some c =>
      cd ← heap r !! c;
      cn ← providerName cd;
      pn ← providerName d;
      if strcmp cn pn =? 0 then
        if negb (ptype cd =? ptype d) then Some (1, r)
        else
          cns ← ns cd;
          nss ← ns d;
          n0 ← head nss;
          if existsb (fun n => strcmp n n0 =? 0) cns then r ← free_info r info; Some (0, r)
          else
            r ← free_info (with_heap r (<[c := set_ns cd (cns ++ [n0])]> (heap r))) info;
            Some (0, r)
      else
        let h := <[info := set_nextInRegister d (nextInRegister cd)]> (heap r) in
        Some (0, with_heap r (<[c := set_nextInRegister cd (Some info)]> h))
  | None => Some (0, with_ht r (ht_put (ht r) (className d) info))
  end.

(** ** Reading the registration file *)

Context (getpwnam : bytes -> option Z) (exFlags : Z).

(** All words of a value: the loops on [cntlGetVal]. *)
Fixpoint all_vals (fuel : nat) (rv : CntlVals) : list bytes :=
  match fuel with
  | O => []
  | S fuel => match cntlGetVal rv with
              | (Some v, rv) => v :: all_vals fuel rv
              | (None, _) => []
              end
  end.
Definition vals (rv : CntlVals) : list bytes :=
  all_vals (S (S (length (default [] (cv_val rv))))) rv.

Definition type_bit (t : bytes) : option Z :=
  if strcmp t (cstr "instance") =? 0 then Some INSTANCE_PROVIDER
  else if strcmp t (cstr "association") =? 0 then Some ASSOCIATION_PROVIDER
  else if strcmp t (cstr "method") =? 0 then Some METHOD_PROVIDER
  else if strcmp t (cstr "indication") =? 0 then Some INDICATION_PROVIDER
  else if strcmp t (cstr "class") =? 0 then Some CLASS_PROVIDER
  else if strcmp t (cstr "property") =? 0 then Some PROPERTY_PROVIDER
  else if strcmp t (cstr "qualifier") =? 0 then Some QUALIFIER_PROVIDER
  else None.

(** The type and whether a word is unknown. *)
Definition parse_type (ws : list bytes) : Z * bool :=
  foldl (fun '(ty, err) t => match type_bit t with
                             | Some b => (Z.lor ty b, err)
                             | None => (ty, true)
                             end) (0, false) ws.
Definition parse_unload (ws : list bytes) : Z * bool :=
  foldl (fun '(un, err) u => if strcmp u (cstr "never") =? 0 then (-1, err) else (un, true))
    (0, false) ws.

Fixpoint drop_ws (s : bytes) : bytes :=
  match s with b :: s' => if is_ws b then drop_ws s' else s | [] => [] end.
(** White space at the end is cut off, but not the first character. *)
Definition trim_parms (p : bytes) : bytes :=
  match p with [] => [] | b :: s => b :: rev (drop_ws (rev s)) end.

Definition info_statement (d : ProviderInfo) (key : bytes) (rv : CntlVals)
  : option (ProviderInfo * bool) :=
  let eqs s := strcmp key (cstr s) =? 0 in
  if eqs "provider" then v ← fst (cntlGetVal rv); Some (set_providerName d v, false)
  else if eqs "location" then v ← fst (cntlGetVal rv); Some (set_location d v, false)
  else if eqs "parameters" then v ← fst (cntlGetStr rv); Some (set_parms d (trim_parms v), false)
  else if eqs "user" then
    v ← fst (cntlGetVal rv);
    Some (match getpwnam v with
          | Some u => (set_uid (set_user d v) u, false)
          | None => (set_user d v, true)
          end)
  else if eqs "group" then v ← fst (cntlGetVal rv); Some (set_group d v, false)
  else if eqs "unload" then let '(u, err) := parse_unload (vals rv) in Some (set_unload d u, err)
  else if eqs "type" then let '(t, err) := parse_type (vals rv) in Some (set_type d t, err)
  else if eqs "namespace" then Some (set_ns d (vals rv), false)
  else Some (d, true).

Definition known_key (key : bytes) : bool :=
  existsb (fun s => strcmp key (cstr s) =? 0)
    ["provider"; "location"; "parameters"; "user"; "group"; "unload"; "type"; "namespace"]%string.

(** The variables of the reading loop. *)
Record reading := {
  reg : registry; info : option loc; rid : Z; interopFound : bool; err : bool
}.
Definition with_reg (st : reading) (r : registry) : reading :=
  {| reg := r; info := info st; rid := rid st; interopFound := interopFound st; err := err st |}.
Definition with_err (st : reading) (e : bool) : reading :=
  {| reg := reg st; info := info st; rid := rid st; interopFound := interopFound st; err := e |}.

(** The test of the section that ends: against the first pointer not yet set. *)
Definition special (st : reading) (i : loc) (d : ProviderInfo) : reading :=
  let r := reg st in
  let eqs s := strcmp (className d) (cstr s) =? 0 in
  match classProvInfoPtr r, defaultProvInfoPtr r, interOpProvInfoPtr r, qualiProvInfoPtr r with
  | None, dp, ip, qp =>
      with_reg st (if eqs "$ClassProvider$" then with_special r (Some i) dp ip qp else r)
  | cp, None, ip, qp =>
      with_reg st (if eqs "$DefaultProvider$" then with_special r cp (Some i) ip qp else r)
  | cp, dp, None, qp =>
      if eqs "$InterOpProvider$" then
        if negb (Z.land exFlags 2 =? 0) then with_reg st (with_special r cp dp (Some i) qp)
        else {| reg := r; info := info st; rid := rid st; interopFound := true; err := err st |}
      else st
  | cp, dp, ip, None =>
      with_reg st (if eqs "$QualifierProvider$" then with_special r cp dp ip (Some i) else r)
  | _, _, _, _ => st
  end.

(** The user the configuration asks for: none, or its name and id. *)
Context (provuser : option (bytes * Z)).

(** [case 1]: the section so far is registered, a new one begins. *)
Definition begin_section (st : reading) (cn : bytes) : reading :=
  let r := reg st in
  let d := new_info cn (rid st + 1) (match provuser with Some (_, u) => u | None => u32 (-1) end)
             (fst <$> provuser) in
  {| reg := {| heap := <[top r := d]> (heap r); top := S (top r); ht := ht r;
               classProvInfoPtr := classProvInfoPtr r; defaultProvInfoPtr := defaultProvInfoPtr r;
               interOpProvInfoPtr := interOpProvInfoPtr r; qualiProvInfoPtr := qualiProvInfoPtr r |};
     info := Some (top r); rid := rid st + 1; interopFound := interopFound st; err := err st |}.

Definition new_section (st : reading) (cn : bytes) : option reading :=
  match info st with
  | Some i =>
      d ← heap (reg st) !! i;
      let st := special st i d in
      '(rc, r) ← addProviderToHT (reg st) i;
      let st := with_err (with_reg st r) (negb (rc =? 0)) in
      Some (if negb (rc =? 0) then st else begin_section st cn)
  | None => Some (begin_section st cn)
  end.

Definition register_line (st : reading) (fin : bytes) : option reading :=
  rv ← cntlParseStmt fin;
  if cv_type rv =? 0 then Some (with_err st true)
  else if cv_type rv =? 1 then cn ← cv_id rv; new_section st cn
  else if cv_type rv =? 2 then
    key ← cv_id rv;
    match info st with
    | Some i =>
        d ← heap (reg st) !! i;
        '(d, e) ← info_statement d key rv;
        Some (with_err (with_reg st (with_heap (reg st) (<[i := d]> (heap (reg st))))) (err st || e))
    | None => if known_key key then None else Some (with_err st true)
    end
  else Some st.

(** The loop on the lines, left at the first error. *)
Fixpoint register_lines (fuel : nat) (content : bytes) (st : reading) : option reading :=
  match fuel with
  | O => None
  | S fuel =>
      match content with
      | [] => Some st
      | _ =>
          let '(fin, rest) := fgets LINE content in
          st ← register_line st fin;
          if err st then Some st else register_lines fuel rest st
      end
  end.

(** After the loop: the last section. *)
Definition last_section (st : reading) : option reading :=
  match info st with
  | Some i =>
      if err st then r ← free_info (reg st) i; Some (with_reg st r)
      else '(_, r) ← addProviderToHT (reg st) i; Some (with_reg st r)
  | None => Some st
  end.
End Register.

Arguments registry : clear implicits.
Arguments reading : clear implicits.

(** A pointer to a provider: null, [&forceNotFound] or an object. *)
Inductive prov_ptr := PNull | PForce | PAt (l : loc).
Definition to_ptr (o : option loc) : prov_ptr := match o with Some l => PAt l | None => PNull end.

Record broker {T : Type} := {
  br_reg : registry T; br_interOp : prov_ptr    (* interOpProvInfoPtr *)
}.
Arguments broker : clear implicits.

Section NewRegister.
Context {T CT : Type} `{!CharHashTable T loc} `{!CharHashTable CT nat}.
Context (SFCB_CONFDIR : bytes) (read : bytes -> option bytes).
Context (getpwnam : bytes -> option Z) (exFlags : Z).

Definition empty_registry : registry T :=
  {| heap := ∅; top := O; ht := ht_new; classProvInfoPtr := None; defaultProvInfoPtr := None;
     interOpProvInfoPtr := None; qualiProvInfoPtr := None |}.

(** The user to run providers as: [None] of the pair when it is sfcb's own; the
    boolean is the error of an unknown one. *)
Definition default_user (st : ControlState (T := CT)) (env configfile : option bytes)
  : option (outcome (option (bytes * Z) * bool * ControlState)) :=
  '(rc, b) ← getControlBool st (cstr "providerDefaultUserSFCB");
  if negb (rc =? 0) || negb (b =? 0) then Some (Returns (None, false, st)) else
  r ← getControlChars SFCB_CONFDIR read env configfile st (cstr "providerDefaultUser");
  match r with
  | Exits => Some Exits
  | Returns (rc, v, st) =>
      match v with
      | SStr u => if rc =? 0 then
                    Some (Returns match getpwnam u with
                                  | Some i => (Some (u, i), false, st)
                                  | None => (Some (u, u32 (-1)), true, st)
                                  end)
                  else None   (* strdup(NULL) at the first section *)
      | _ => None
      end
  end.

Definition registration_dir (st : ControlState (T := CT)) (env configfile : option bytes)
  : option (outcome bytes) :=
  r ← getControlChars SFCB_CONFDIR read env configfile st (cstr "registrationDir");
  match r with
  | Exits => Some Exits
  | Returns (rc, v, _) =>
      if negb (rc =? 0) then Some (Returns (cstr "/var/lib/sfcb/registration"))
      else match v with SStr d => Some (Returns d) | _ => None end
  end.

Definition read_register (provuser : option (bytes * Z)) (err0 : bool) (content : bytes)
  : option (reading T) :=
  st ← register_lines getpwnam exFlags provuser (S (length content)) content
         {| reg := empty_registry; info := None; rid := 0; interopFound := false; err := err0 |};
  last_section st.

(** The checks at the end. *)
Definition finish (st : reading T) : outcome (broker T) :=
  match classProvInfoPtr (reg st) with
  | None => Exits
  | Some _ =>
      if err st then Exits else
      Returns {| br_reg := reg st;
                 br_interOp := match interOpProvInfoPtr (reg st) with
                               | Some l => PAt l
                               | None => PForce
                               end |}
  end.

Definition newProviderRegister (env configfile : option bytes) (st : ControlState (T := CT))
  : option (outcome (broker T)) :=
  r ← setupControl SFCB_CONFDIR read env st configfile;
  match r with
  | Exits => Some Exits
  | Returns (_, st) =>
      u ← default_user st env configfile;
      match u with
      | Exits => Some Exits
      | Returns (provuser, err0, st) =>
          d ← registration_dir st env configfile;
          match d with
          | Exits => Some Exits
          | Returns dir =>
              let fin := dir ++ cstr "/providerRegister" in
              if 1024 <=? strlen fin then None else
              match read fin with
              | None => Some Exits     (* no class provider *)
              | Some content => st ← read_register provuser err0 content; Some (finish st)
              end
          end
      end
  end.
End NewRegister.

(** ** The operations on the register *)

Section Operations.
Context {T : Type} `{!CharHashTable T loc} `{!HashTableWalk T loc}.

Definition getProvider (r : registry T) (clsName : bytes) (type : Z) : option (option loc) :=
  match ht_get (ht r) clsName with
  | Some i => d ← heap r !! i;
              Some (if negb (Z.land (ptype d) type =? 0) then Some i else None)
  | None => Some None
  end.

Definition putProvider (r : registry T) (clsName : bytes) (i : loc) : registry T :=
  with_ht r (ht_put (ht r) clsName i).
Definition removeProvider (r : registry T) (clsName : bytes) : registry T :=
  with_ht r (ht_remove (ht r) clsName).

Fixpoint locate_in (h : gmap loc ProviderInfo) (provName : bytes) (l : list loc) : option (option loc) :=
  match l with
  | [] => Some None
  | i :: l => d ← h !! i; n ← providerName d;
              if strcasecmp n provName =? 0 then Some (Some i) else locate_in h provName l
  end.
Definition locateProvider (r : registry T) (provName : bytes) : option (option loc) :=
  locate_in (heap r) provName (ht_values (ht r)).

(** [while (info)] over a chain. *)
Fixpoint reset_chain (fuel : nat) (p : Z) (h : gmap loc ProviderInfo) (i : option loc)
  : option (gmap loc ProviderInfo) :=
  match i, fuel with
  | None, _ => Some h
  | Some _, O => None
  | Some i, S fuel =>
      d ← h !! i;
      let d' := if pid d =? p then set_pid d 0 else d in
      reset_chain fuel p (<[i := d']> h) (nextInRegister d')
  end.
Fixpoint reset_all (p : Z) (h : gmap loc ProviderInfo) (l : list loc) : option (gmap loc ProviderInfo) :=
  match l with
  | [] => Some h
  | i :: l => h ← reset_chain (size h) p h (Some i); reset_all p h l
  end.
Definition resetProvider (r : registry T) (p : Z) : option (registry T) :=
  h ← reset_all p (heap r) (ht_values (ht r)); Some (with_heap r h).

(** [pRelease]: all chains are freed. *)
Fixpoint release_all (h : gmap loc ProviderInfo) (l : list loc) : option (gmap loc ProviderInfo) :=
  match l with
  | [] => Some h
  | i :: l => h ← freeInfoPtr (S (size h)) h i; release_all h l
  end.
Definition pRelease (r : registry T) : option (gmap loc ProviderInfo) :=
  release_all (heap r) (ht_values (ht r)).
End Operations.

(** * Specification: providers by class *)

(** An object without its link, and its class regardless of case. *)
Definition payload (d : ProviderInfo) : ProviderInfo := set_nextInRegister d None.
Definition key (d : ProviderInfo) : bytes := tolower <$> className d.

(** What a registration needs to be compared with another one. *)
Definition complete (d : ProviderInfo) : Prop :=
  (exists n, providerName d = Some n) /\ exists n l, ns d = Some (n :: l).

Abbreviation chains := (gmap bytes (list (loc * ProviderInfo))).

(** Registering: the first provider of a class heads its chain, others are put
    right behind it; a provider already at the head adds its first name space.
    [None]: the same provider with another type. *)
Definition spec_add (m : chains) (l : loc) (d : ProviderInfo) : option chains :=
  match m !! key d with
  | Some ((l1, d1) :: rest) =>
      if decide (providerName d1 = providerName d) then
        if decide (ptype d1 = ptype d) then
          let n0 := default [] (ns d ≫= head) in
          let nss := default [] (ns d1) in
          Some (if decide (n0 ∈ nss) then m
                else <[key d := (l1, set_ns d1 (nss ++ [n0])) :: rest]> m)
        else None
      else Some (<[key d := (l1, d1) :: (l, d) :: rest]> m)
  | _ => Some (<[key d := [(l, d)]]> m)
  end.

Fixpoint chain (h : gmap loc ProviderInfo) (i : option loc) (xs : list (loc * ProviderInfo)) : Prop :=
  match xs with
  | [] => i = None
  | (l, d) :: xs => i = Some l /\ exists d', h !! l = Some d' /\ payload d' = d /\
                    chain h (nextInRegister d') xs
  end.

Definition places (xs : list (loc * ProviderInfo)) : list loc := fst <$> xs.

Section Refinement.
Context {T : Type} `{!CharHashTable T loc} (Hcase : ht_ignoreCase (T := T) (V := loc) = true).

Record represents (r : registry T) (m : chains) : Prop := {
  rep_get : forall k, ht_get (ht r) k = (m !! (tolower <$> k : bytes)) ≫= (fun xs => head (places xs));
  rep_chain : forall k xs, m !! k = Some xs -> xs <> [] /\ chain (heap r) (fst <$> head xs) xs;
  rep_nodup : forall k xs, m !! k = Some xs -> NoDup (places xs);
  rep_disjoint : forall k k' xs xs' l, m !! k = Some xs -> m !! k' = Some xs' ->
    l ∈ places xs -> l ∈ places xs' -> k = k';
  rep_item : forall k xs l d, m !! k = Some xs -> (l, d) ∈ xs -> complete d /\ key d = k
}.

(** The places in use. *)
Definition used (m : chains) (l : loc) : Prop := exists k xs, m !! k = Some xs /\ l ∈ places xs.

Lemma chain_frame h h' i xs : (forall l, l ∈ places xs -> h' !! l = h !! l) -> chain h i xs -> chain h' i xs.
Proof.
  revert i. induction xs as [|[l d] xs IH]; intros i Hf; [done|]. intros (-> & d' & Hd & Hp & Hc).
  split; [done|]. exists d'. rewrite Hf by apply list_elem_of_here. split_and!; try done.
  apply IH; [|done]. intros y Hy. apply Hf. by apply list_elem_of_further.
Qed.

Lemma places_cons l d xs : places ((l, d) :: xs) = l :: places xs.
Proof. done. Qed.

Lemma free_single (r : registry T) l d : heap r !! l = Some d -> nextInRegister d = None ->
  free_info r l = Some (with_heap r (delete l (heap r))).
Proof. intros Hd Hn. unfold free_info. cbn [freeInfoPtr]. rewrite Hd. cbn [mbind option_bind]. by rewrite Hn. Qed.

Lemma payload_ns d v : payload (set_ns d v) = set_ns (payload d) v.
Proof. done. Qed.

(** Writes to places outside the chains do not matter. *)
Lemma represents_heap r m h' : represents r m -> (forall l, used m l -> h' !! l = heap r !! l) ->
  represents (with_heap r h') m.
Proof.
  intros [H1 H2 H3 H4 H5] Hf. split; try done. intros k xs Hk.
  destruct (H2 k xs Hk) as [Hne Hc]. split; [done|]. eapply chain_frame; [|exact Hc].
  intros l Hl. apply Hf. by exists k, xs.
Qed.

(** One chain is replaced by another one with the same head. *)
Lemma represents_update r m k xs xs' h' :
  represents r m -> m !! k = Some xs -> head (places xs') = head (places xs) -> xs' <> [] ->
  chain h' (fst <$> head xs') xs' -> NoDup (places xs') ->
  (forall l, l ∈ places xs' -> l ∈ places xs \/ ~ used m l) ->
  (forall l d, (l, d) ∈ xs' -> complete d /\ key d = k) ->
  (forall l, used m l -> l ∉ places xs -> h' !! l = heap r !! l) ->
  represents (with_heap r h') (<[k := xs']> m).
Proof.
  intros [H1 H2 H3 H4 H5] Hk Hh Hne Hc Hnd Hsub Hit Hf. split.
  - intros j. cbn [with_heap ht]. rewrite H1. destruct (decide (k = tolower <$> j)) as [E|E].
    + rewrite <- E, lookup_insert_eq, Hk. cbn [mbind option_bind].
      destruct xs as [|[]], xs' as [|[]]; done.
    + by rewrite lookup_insert_ne.
  - intros j ys. rewrite lookup_insert_Some. intros [[<- <-]|[Hj Hys]]; [done|].
    destruct (H2 j ys Hys) as [Hn Hch]. split; [done|]. eapply chain_frame; [|exact Hch].
    intros l Hl. apply Hf; [by exists j, ys|]. intros Hx. apply Hj. by eapply (H4 k j).
  - intros j ys. rewrite lookup_insert_Some. intros [[<- <-]|[Hj Hys]]; [done|by apply (H3 j)].
  - intros j j' ys ys' l. rewrite !lookup_insert_Some.
    intros [[<- <-]|[Hj Hys]] [[<- <-]|[Hj' Hys']] Hl Hl'; [done| | |by eapply (H4 j j')].
    + destruct (Hsub l Hl) as [Hx|Hx]; [by eapply (H4 k j')|]. destruct Hx. by exists j', ys'.
    + destruct (Hsub l Hl') as [Hx|Hx]; [by eapply (H4 j k)|]. destruct Hx. by exists j, ys.
  - intros j ys l d. rewrite lookup_insert_Some. intros [[<- <-]|[Hj Hys]]; [apply Hit|exact (H5 j ys l d Hys)].
Qed.

(** A class of its own. *)
Lemma represents_new r m d l : represents r m -> m !! key d = None -> ~ used m l ->
  heap r !! l = Some d -> nextInRegister d = None -> complete d ->
  represents (with_ht r (ht_put (ht r) (className d) l)) (<[key d := [(l, payload d)]]> m).
Proof.
  intros [H1 H2 H3 H4 H5] Hk Hu Hd Hn Hc. split.
  - intros j. cbn [with_ht ht]. rewrite ht_get_put, Hcase, H1.
    destruct (same_key true (className d) j) eqn:E.
    + apply same_key_nocase in E. unfold key. rewrite E. by rewrite lookup_insert_eq.
    + rewrite lookup_insert_ne; [done|]. intros E'. unfold key in E'.
      apply not_true_iff_false in E. apply E. by apply same_key_nocase.
  - intros j ys. rewrite lookup_insert_Some. intros [[<- <-]|[Hj Hys]]; [|exact (H2 j ys Hys)].
    split; [done|]. cbn. split; [done|]. by exists d.
  - intros j ys. rewrite lookup_insert_Some. intros [[<- <-]|[Hj Hys]]; [|by apply (H3 j)].
    apply NoDup_singleton.
  - intros j j' ys ys' x. rewrite !lookup_insert_Some.
    intros [[<- <-]|[Hj Hys]] [[<- <-]|[Hj' Hys']] Hl Hl'; [done| | |by eapply (H4 j j')].
    + apply list_elem_of_singleton in Hl. subst x. destruct Hu. by exists j', ys'.
    + apply list_elem_of_singleton in Hl'. subst x. destruct Hu. by exists j, ys.
  - intros j ys x e. rewrite lookup_insert_Some. intros [[<- <-]|[Hj Hys]]; [|exact (H5 j ys x e Hys)].
    intros Hin. apply list_elem_of_singleton in Hin. by injection Hin as -> ->.
Qed.

Lemma head_chain r m k : represents r m -> forall xs, m !! k = Some xs -> exists l1 d1 d1' rest,
  xs = (l1, d1) :: rest /\ heap r !! l1 = Some d1' /\ payload d1' = d1 /\ chain (heap r) (nextInRegister d1') rest.
Proof.
  intros H xs Hk. destruct (rep_chain _ _ H k xs Hk) as [Hne Hc]. destruct xs as [|[l1 d1] rest]; [done|].
  destruct Hc as (_ & d1' & H1 & H2 & H3). by exists l1, d1, d1', rest.
Qed.

(** What [addProviderToHT] leaves alone. *)
Definition same_rest (r r' : registry T) (m : chains) (l : loc) : Prop :=
  top r' = top r /\ classProvInfoPtr r' = classProvInfoPtr r /\
  defaultProvInfoPtr r' = defaultProvInfoPtr r /\ interOpProvInfoPtr r' = interOpProvInfoPtr r /\
  qualiProvInfoPtr r' = qualiProvInfoPtr r /\
  forall x, x <> l -> ~ used m x -> heap r' !! x = heap r !! x.

Lemma existsb_strcmp n0 nss : existsb (fun n => strcmp n n0 =? 0) nss = bool_decide (n0 ∈ nss).
Proof.
  apply eq_true_iff_eq. rewrite bool_decide_eq_true, existsb_exists. split.
  - intros (n & Hn & E). apply Z.eqb_eq, strcmp_eq in E. subst. by apply list_elem_of_In.
  - intros H. exists n0. split; [by apply list_elem_of_In|]. by rewrite strcmp_refl.
Qed.

Lemma used_insert m k xs xs' x : m !! k = Some xs -> places xs' = places xs ->
  used (<[k := xs']> m) x <-> used m x.
Proof.
  intros Hk Hp. split.
  - intros (j & ys & Hj & Hx). rewrite lookup_insert_Some in Hj. destruct Hj as [[<- <-]|[Hj Hys]].
    + exists k, xs. by rewrite <- Hp.
    + by exists j, ys.
  - intros (j & ys & Hj & Hx). destruct (decide (k = j)) as [->|Hne].
    + exists j, xs'. rewrite lookup_insert_eq, Hp. by simplify_eq.
    + exists j, ys. by rewrite lookup_insert_ne.
Qed.

Section Add.
Context (r : registry T) (m : chains) (l : loc) (d : ProviderInfo).
Context (H : represents r m) (Hu : ~ used m l) (Hd : heap r !! l = Some d)
  (Hn : nextInRegister d = None) (Hc : complete d).

(** What is known when the class is registered already. *)
Lemma registered_head l1 d1 rest : m !! key d = Some ((l1, d1) :: rest) ->
  exists d1', ht_get (ht r) (className d) = Some l1 /\ heap r !! l1 = Some d1' /\ payload d1' = d1 /\
    chain (heap r) (nextInRegister d1') rest /\ complete d1 /\ l1 <> l /\ NoDup (l1 :: places rest) /\
    l ∉ places rest.
Proof.
  intros Hk. destruct (head_chain r m _ H _ Hk) as (l1' & e1 & d1' & rest' & [= <- <- <-] & H1 & H2 & H3).
  exists d1'. split_and!; try done.
  - rewrite (rep_get _ _ H). unfold key in Hk. by rewrite Hk.
  - apply (rep_item _ _ H _ _ l1 d1 Hk). apply list_elem_of_here.
  - intros ->. apply Hu. exists (key d), ((l, d1) :: rest). split; [done|]. apply list_elem_of_here.
  - by apply (rep_nodup _ _ H _ _ Hk).
  - intros Hl. apply Hu. exists (key d), ((l1, d1) :: rest). split; [done|]. by apply list_elem_of_further.
Qed.

Lemma add_duplicate l1 d1 rest n0 : m !! key d = Some ((l1, d1) :: rest) ->
  providerName d1 = providerName d -> ptype d1 = ptype d -> (exists t, ns d = Some (n0 :: t)) ->
  let nss := default [] (ns d1) in
  exists r', addProviderToHT r l = Some (0, r') /\
    represents r' (if decide (n0 ∈ nss) then m
                   else <[key d := (l1, set_ns d1 (nss ++ [n0])) :: rest]> m) /\
    heap r' !! l = None /\ same_rest r r' m l.
Proof.
  intros Hk Hp Ht [t Hns] nss.
  destruct (registered_head l1 d1 rest Hk) as (d1' & Hg & Hd1 & <- & Hch & Hc1 & Hl1 & Hnd & Hlr).
  destruct Hc1 as [[n1 Hn1] (s & ss & Hs)]. cbn in Hp, Ht, Hn1, Hs. subst nss. cbn [payload ns set_nextInRegister with_rest].
  unfold addProviderToHT. rewrite Hd. cbn [mbind option_bind]. rewrite Hg, Hd1. cbn [mbind option_bind].
  rewrite <- Hp, Hn1. cbn [mbind option_bind]. rewrite strcmp_refl, Ht, !Z.eqb_refl, Hs, Hns.
  cbn [negb Z.eqb mbind option_bind head default]. rewrite existsb_strcmp.
  case_bool_decide as Hin.
  - rewrite (free_single r l d Hd Hn). cbn [mbind option_bind]. rewrite decide_True by done.
    eexists. split; [done|]. split; [|split].
    + apply represents_heap; [done|]. intros x Hx. rewrite lookup_delete_ne; [done|]. by intros <-.
    + cbn. by rewrite lookup_delete_eq.
    + split_and!; try done. intros x Hx _. cbn. by rewrite lookup_delete_ne.
  - rewrite (free_single _ l d) by (cbn; by rewrite ?lookup_insert_ne).
    cbn [mbind option_bind heap with_heap]. rewrite decide_False by done.
    eexists. split; [done|]. split; [|split].
    + eapply (represents_update r m _ _ _ _ H Hk); try done.
      * split; [done|]. eexists. split; [by rewrite lookup_delete_ne, lookup_insert_eq|].
        split; [done|]. eapply chain_frame; [|exact Hch]. intros x Hx.
        rewrite lookup_delete_ne by (by intros <-). rewrite lookup_insert_ne; [done|].
        intros <-. by apply NoDup_cons in Hnd as [? _].
      * intros x Hx. by left.
      * intros x e Hin'. apply elem_of_cons in Hin' as [[= -> ->]|Hin'].
        -- split; [|by destruct (rep_item _ _ H _ _ l1 (payload d1') Hk (list_elem_of_here _ _))].
           split; [by exists n1|]. exists s, (ss ++ [n0]). done.
        -- apply (rep_item _ _ H _ _ x e Hk). by apply list_elem_of_further.
      * intros x Hx Hx'. rewrite lookup_delete_ne by (intros <-; done). rewrite lookup_insert_ne; [done|].
        intros <-. apply Hx', list_elem_of_here.
    + cbn. by rewrite lookup_delete_eq.
    + split_and!; try done. intros x Hx Hx'. cbn. rewrite lookup_delete_ne by done.
      rewrite lookup_insert_ne; [done|]. intros <-. apply Hx'. exists (key d), ((l1, payload d1') :: rest).
      split; [done|]. apply list_elem_of_here.
Qed.

Lemma add_behind l1 d1 rest : m !! key d = Some ((l1, d1) :: rest) ->
  providerName d1 <> providerName d ->
  exists r', addProviderToHT r l = Some (0, r') /\
    represents r' (<[key d := (l1, d1) :: (l, payload d) :: rest]> m) /\
    heap r' !! l <> None /\ same_rest r r' m l.
Proof.
  intros Hk Hp.
  destruct (registered_head l1 d1 rest Hk) as (d1' & Hg & Hd1 & <- & Hch & Hc1 & Hl1 & Hnd & Hlr).
  destruct Hc1 as [[n1 Hn1] _]. pose proof Hc as [[n Hpn] _]. cbn in Hp, Hn1.
  unfold addProviderToHT. rewrite Hd. cbn [mbind option_bind]. rewrite Hg, Hd1. cbn [mbind option_bind].
  rewrite Hn1, Hpn. cbn [mbind option_bind].
  destruct (Z.eqb_spec (strcmp n1 n) 0) as [E|_]; [apply strcmp_eq in E; congruence|].
  eexists. split; [done|]. split; [|split].
  - eapply (represents_update r m _ _ _ _ H Hk); try done.
    + split; [done|]. eexists. split; [by rewrite lookup_insert_eq|]. split; [done|].
      split; [done|]. eexists. split; [by rewrite lookup_insert_ne, lookup_insert_eq|]. split; [done|].
      eapply chain_frame; [|exact Hch]. intros x Hx. rewrite !lookup_insert_ne; [done| |].
      * by intros <-.
      * intros <-. by apply NoDup_cons in Hnd as [? _].
    + rewrite !places_cons. apply NoDup_cons in Hnd as [Hnd1 Hnd2]. apply NoDup_cons. split.
      * rewrite elem_of_cons. by intros [->|?].
      * by apply NoDup_cons.
    + intros x Hx. rewrite !places_cons, !elem_of_cons in *. destruct Hx as [->|[->|Hx]]; auto.
    + intros x e. rewrite !elem_of_cons. intros [[= -> ->]|[[= -> ->]|Hin]].
      * apply (rep_item _ _ H _ _ l1 (payload d1') Hk), list_elem_of_here.
      * done.
      * apply (rep_item _ _ H _ _ x e Hk). by apply list_elem_of_further.
    + intros x Hx Hx'. rewrite !lookup_insert_ne; [done| |].
      * by intros <-.
      * intros <-. apply Hx', list_elem_of_here.
  - cbn. by rewrite lookup_insert_ne, lookup_insert_eq.
  - split_and!; try done. intros x Hx Hx'. cbn. rewrite !lookup_insert_ne; [done| |].
    + done.
    + intros <-. apply Hx'. exists (key d), ((l1, payload d1') :: rest). split; [done|]. apply list_elem_of_here.
Qed.

Lemma add_first : m !! key d = None ->
  exists r', addProviderToHT r l = Some (0, r') /\ represents r' (<[key d := [(l, payload d)]]> m) /\
    heap r' !! l <> None /\ same_rest r r' m l.
Proof.
  intros Hk. unfold addProviderToHT. rewrite Hd. cbn [mbind option_bind].
  rewrite (rep_get _ _ H). change (tolower <$> className d) with (key d). rewrite Hk. cbn [mbind option_bind].
  eexists. split; [done|]. split; [by apply represents_new|]. split; [cbn; congruence|done].
Qed.

Lemma add_ok :
  match spec_add m l (payload d) with
  | Some m' => exists r', addProviderToHT r l = Some (0, r') /\ represents r' m' /\
                 (heap r' !! l = None <-> ~ used m' l) /\ same_rest r r' m l
  | None => addProviderToHT r l = Some (1, r)
  end.
Proof.
  unfold spec_add. change (key (payload d)) with (key d). cbn [payload set_nextInRegister with_rest providerName ptype ns].
  destruct (m !! key d) as [[|[l1 d1] rest]|] eqn:Hk.
  - by destruct (rep_chain _ _ H _ _ Hk).
  - destruct (decide _) as [Hp|Hp]; [destruct (decide _) as [Ht|Ht]|].
    + destruct Hc as [_ (n0 & t & Hns)]. rewrite Hns. cbn [mbind option_bind head default].
      destruct (add_duplicate l1 d1 rest n0 Hk Hp Ht) as (r' & H1 & H2 & H3 & H4); [by exists t|].
      exists r'. split; [done|]. split; [exact H2|]. split; [|done]. split; [|done]. intros _.
      destruct (decide _); [done|]. by rewrite (used_insert _ _ _ _ _ Hk).
    + destruct (registered_head l1 d1 rest Hk) as (d1' & Hg & Hd1 & <- & _ & [[n1 Hn1] _] & _).
      cbn in Hp, Ht, Hn1. unfold addProviderToHT. rewrite Hd. cbn [mbind option_bind]. rewrite Hg, Hd1.
      cbn [mbind option_bind]. rewrite <- Hp, Hn1. cbn [mbind option_bind].
      by rewrite strcmp_refl, (proj2 (Z.eqb_neq (ptype d1') (ptype d))).
    + destruct (add_behind l1 d1 rest Hk Hp) as (r' & H1 & H2 & H3 & H4). exists r'.
      split; [exact H1|]. split; [exact H2|]. split; [|exact H4]. split; [by intros|]. intros Hx. destruct Hx. eexists _, _. rewrite lookup_insert_eq. split; [done|].
      by apply list_elem_of_further, list_elem_of_here.
  - destruct (add_first Hk) as (r' & H1 & H2 & H3 & H4). exists r'.
    split; [exact H1|]. split; [exact H2|]. split; [|exact H4]. split; [by intros|]. intros Hx. destruct Hx. eexists _, _. rewrite lookup_insert_eq. split; [done|].
    apply list_elem_of_here.
Qed.
End Add.
End Refinement.

(** * Registration files *)

Record section := {
  s_class : bytes; s_provider : bytes; s_location : bytes; s_types : list bytes; s_ns : list bytes
}.

Fixpoint words_text (ws : list bytes) : bytes :=
  match ws with
  | [] => [10]
  | [w] => w ++ [10]
  | w :: ws => w ++ 32 :: words_text ws
  end.
Definition statement (k : string) (ws : list bytes) : bytes :=
  replicate 3 32 ++ cstr k ++ cstr ": " ++ words_text ws.
Definition section_lines (s : section) : list bytes :=
  [91 :: s_class s ++ [93; 10]; statement "provider" [s_provider s]; statement "location" [s_location s];
   statement "type" (s_types s); statement "namespace" (s_ns s)].
Definition section_text (s : section) : bytes := concat (section_lines s).

Definition word_ok (w : bytes) : Prop := value_ok w = true /\ w <> [].
Definition section_ok (s : section) : Prop :=
  forallb section_byte (s_class s) = true /\ word_ok (s_provider s) /\ word_ok (s_location s) /\
  s_types s <> [] /\ Forall (fun t => word_ok t /\ type_bit t <> None) (s_types s) /\
  s_ns s <> [] /\ Forall word_ok (s_ns s) /\
  Forall (fun l => (length l <= LINE)%nat) (section_lines s).

(** The bits of the type words. *)
Definition types_value (ts : list bytes) : Z :=
  foldl (fun a t => Z.lor a (default 0 (type_bit t))) 0 ts.

Definition section_info (provuser : option (bytes * Z)) (i : nat) (s : section) : ProviderInfo :=
  {| className := s_class s; ptype := types_value (s_types s); providerName := Some (s_provider s);
     location := Some (s_location s); parms := None; group := None; user := fst <$> provuser;
     uid := match provuser with Some (_, u) => u | None => u32 (-1) end; ns := Some (s_ns s);
     provId := Z.of_nat i + 1; pid := 0; unload := 0; nextInRegister := None |}.

(** Registering the sections one after the other, from place [n] on. *)
Fixpoint spec_sections (provuser : option (bytes * Z)) (n : nat) (m : chains) (ss : list section)
  : option chains :=
  match ss with
  | [] => Some m
  | s :: ss => m ← spec_add m n (section_info provuser n s); spec_sections provuser (S n) m ss
  end.

(** The first section from [from] on with a name. *)
Definition find_from (name : string) (ss : list section) (from : nat) : option nat :=
  (fun '(j, _) => (from + j)%nat) <$> list_find (fun s => s_class s = cstr name) (drop from ss).

(** The sections the four global pointers point at: each is looked for behind the
    one found before. *)
Definition class_section (ss : list section) : option nat := find_from "$ClassProvider$" ss 0.
Definition default_section (ss : list section) : option nat :=
  c ← class_section ss; find_from "$DefaultProvider$" ss (S c).
Definition interop_section (exFlags : Z) (ss : list section) : option nat :=
  if Z.land exFlags 2 =? 0 then None
  else d ← default_section ss; find_from "$InterOpProvider$" ss (S d).
Definition qualifier_section (exFlags : Z) (ss : list section) : option nat :=
  i ← interop_section exFlags ss; find_from "$QualifierProvider$" ss (S i).

(** ** Words *)

Lemma words_text_cons w w' ws : words_text (w :: w' :: ws) = w ++ 32 :: words_text (w' :: ws).
Proof. done. Qed.

Lemma words_text_length ws : (length ws <= length (words_text ws))%nat.
Proof.
  induction ws as [|w [|w' ws] IH]; [simpl; lia| |].
  - simpl. rewrite length_app. simpl. lia.
  - rewrite words_text_cons, length_app. cbn [length] in *. lia.
Qed.

Lemma all_vals_words ws t i fuel : ws <> [] -> Forall word_ok ws -> (length ws < fuel)%nat ->
  all_vals fuel {| cv_type := t; cv_id := i; cv_val := Some (words_text ws) |} = ws.
Proof.
  intros Hne Hok. revert fuel. induction Hok as [|w ws [Hw Hwn] Hok IH]; [done|].
  intros [|fuel] Hf; [lia|]. cbn [all_vals length] in *. destruct ws as [|w' ws].
  - cbn [words_text]. rewrite get_value by done. destruct fuel; [lia|]. done.
  - rewrite words_text_cons, get_word by done. f_equal. apply IH; [done|lia].
Qed.

Lemma vals_words ws t i : ws <> [] -> Forall word_ok ws ->
  vals {| cv_type := t; cv_id := i; cv_val := Some (words_text ws) |} = ws.
Proof.
  intros Hne Hok. unfold vals. apply all_vals_words; [done..|]. cbn [cv_val default].
  pose proof (words_text_length ws). unfold Datatypes.id. lia.
Qed.

Lemma parse_type_words ts : Forall (fun t => word_ok t /\ type_bit t <> None) ts ->
  parse_type ts = (types_value ts, false).
Proof.
  unfold parse_type, types_value. set (f := fun '(ty, err) t => _). set (g := fun a t => _).
  assert (H : forall a, Forall (fun t => word_ok t /\ type_bit t <> None) ts ->
            foldl f (a, false) ts = (foldl g a ts, false)); [|apply H].
  induction ts as [|t ts IH]; intros a Hts; [done|].
  apply Forall_cons in Hts as [[_ Ht] Hts]. cbn [foldl]. rewrite <- IH by done. f_equal.
  unfold f, g. by destruct (type_bit t).
Qed.

Lemma words_start ws : Forall word_ok ws -> exists v, words_text ws = v ++ [10] /\ starts_word v = true /\
  Forall (fun b => b <> 10) v.
Proof.
  induction 1 as [|w ws [Hw Hwn] _ IH]; [by exists []|].
  unfold value_ok in Hw. apply andb_true_iff in Hw as [Hb Hs].
  assert (Hn : Forall (fun b => b <> 10) w)
    by (by apply (no_sep_newline (fun b => existsb (Z.eqb b) (cstr " " ++ [9; 10])))).
  destruct ws as [|w' ws]; [by exists w|]. destruct IH as (v & E & Hv & Hvn).
  exists (w ++ 32 :: v). rewrite words_text_cons, E, <- app_assoc. split_and!; [done|by destruct w|].
  apply Forall_app. split; [done|]. by constructor.
Qed.

Lemma parse_words k ws : key_ok (cstr k) = true -> Forall word_ok ws ->
  cntlParseStmt (statement k ws)
  = Some {| cv_type := 2; cv_id := Some (cstr k); cv_val := Some (words_text ws) |}.
Proof. intros Hk Hws. unfold statement. destruct (words_start ws Hws) as (v & -> & Hv & _). by apply parse_statement. Qed.

(** Each line ends at its only newline. *)
Definition is_line (l : bytes) : Prop :=
  exists v, l = v ++ [10] /\ Forall (fun b => b <> 10) v /\ (length l <= LINE)%nat.

Lemma section_lines_ok s : section_ok s -> Forall is_line (section_lines s).
Proof.
  intros (Hc & Hp & Hl & _ & Ht & _ & Hn & Hlen).
  assert (Hst : forall k ws, forallb key_byte (cstr k) = true -> Forall word_ok ws ->
            (length (statement k ws) <= LINE)%nat -> is_line (statement k ws)).
  { intros k ws Hk Hws Hlk. destruct (words_start ws Hws) as (v & E & _ & Hv).
    exists (replicate 3 32 ++ cstr k ++ cstr ": " ++ v). split_and!; [|apply Forall_app; split|done].
    - unfold statement. by rewrite E, <- !app_assoc.
    - by repeat constructor.
    - apply Forall_app. split; [|by repeat constructor].
      by apply (no_sep_newline (fun b => existsb (Z.eqb b) (cstr ": " ++ [9; 10]))). }
  assert (Ht' : Forall word_ok (s_types s)) by (eapply Forall_impl; [exact Ht|]; intros ? [? ?]; done).
  unfold section_lines in *. repeat (apply Forall_cons in Hlen as [? Hlen]).
  repeat (apply Forall_cons; split); [|by apply Hst; auto..|done].
  exists (91 :: s_class s ++ [93]). split_and!; [by rewrite <- app_comm_cons, <- app_assoc| |done].
  constructor; [done|]. apply Forall_app. split; [|by repeat constructor].
  by apply (no_sep_newline (fun b => existsb (Z.eqb b) (cstr "] " ++ [9; 10]))).
Qed.

(** ** The special providers *)

Lemma strcmp_test a b : (strcmp a b =? 0) = bool_decide (a = b).
Proof. apply eq_true_iff_eq. by rewrite bool_decide_eq_true, Z.eqb_eq, strcmp_eq. Qed.

Lemma find_from_bound name ss from j : find_from name ss from = Some j -> (j < length ss)%nat.
Proof.
  unfold find_from. destruct (list_find _ _) as [[i s]|] eqn:E; [|done]. intros [= <-].
  apply list_find_Some in E as [E _]. rewrite lookup_drop in E. by eapply lookup_lt_Some.
Qed.

Lemma find_from_snoc name ss s from : (from <= length ss)%nat ->
  find_from name (ss ++ [s]) from
  = match find_from name ss from with
    | Some j => Some j
    | None => if decide (s_class s = cstr name) then Some (length ss) else None
    end.
Proof.
  intros Hf. unfold find_from. rewrite drop_app_le by done.
  destruct (list_find _ (drop from ss)) as [[j x]|] eqn:E.
  - by rewrite (list_find_app_l _ _ _ _ _ E).
  - rewrite (list_find_app_r _ _ _ E). cbn [list_find]. rewrite length_drop.
    destruct (decide _); [|done]. cbn. f_equal. lia.
Qed.

Lemma find_from_end name ss s : find_from name (ss ++ [s]) (S (length ss)) = None.
Proof.
  unfold find_from. rewrite drop_ge; [done|]. rewrite length_app. cbn [length]. lia.
Qed.

Section Special.
Context {T : Type} (exFlags : Z).

(** The pointers are those of the sections [ss]. *)
Definition specials_of (r : registry T) (ss : list section) : Prop :=
  classProvInfoPtr r = class_section ss /\ defaultProvInfoPtr r = default_section ss /\
  interOpProvInfoPtr r = interop_section exFlags ss /\ qualiProvInfoPtr r = qualifier_section exFlags ss.

Ltac special_end :=
  repeat case_decide; cbn; rewrite ?find_from_end; repeat case_match; cbn; rewrite ?find_from_end; done.

Lemma special_ok st ss s d : specials_of (reg st) ss -> className d = s_class s ->
  let st' := special exFlags st (length ss) d in
  specials_of (reg st') (ss ++ [s]) /\
  heap (reg st') = heap (reg st) /\ ht (reg st') = ht (reg st) /\ top (reg st') = top (reg st) /\
  info st' = info st /\ rid st' = rid st /\ err st' = err st.
Proof.
  destruct st as [[hp tp tb cp dp ip qp] inf ri iff er]. unfold specials_of, special.
  cbn [reg classProvInfoPtr defaultProvInfoPtr interOpProvInfoPtr qualiProvInfoPtr].
  intros (-> & -> & -> & ->) ->. cbv zeta.
  unfold qualifier_section, interop_section, default_section, class_section.
  rewrite !strcmp_test, find_from_snoc by lia.
  assert (Hdec : forall x, bool_decide (s_class s = x) = if decide (s_class s = x) then true else false) by done.
  rewrite !Hdec. clear Hdec.
  destruct (find_from "$ClassProvider$" ss 0) as [c|] eqn:Ec; cbn [mbind option_bind];
    [apply find_from_bound in Ec; rewrite find_from_snoc by lia|by special_end].
  destruct (find_from "$DefaultProvider$" ss (S c)) as [e|] eqn:Ee; cbn [mbind option_bind];
    [apply find_from_bound in Ee; rewrite find_from_snoc by lia|by special_end].
  destruct (Z.land exFlags 2 =? 0) eqn:Ef; cbn [mbind option_bind negb]; [by special_end|].
  destruct (find_from "$InterOpProvider$" ss (S e)) as [f|] eqn:Eg; cbn [mbind option_bind];
    [apply find_from_bound in Eg; rewrite find_from_snoc by lia|by special_end].
  destruct (find_from "$QualifierProvider$" ss (S f)) as [g|]; by special_end.
Qed.
End Special.

(** ** Reading *)

Section Reading.
Context {T : Type} `{!CharHashTable T loc} (Hcase : ht_ignoreCase (T := T) (V := loc) = true).
Context (getpwnam : bytes -> option Z) (exFlags : Z) (provuser : option (bytes * Z)).

Abbreviation line := (register_line getpwnam exFlags provuser).

(** The lines one after the other, up to an error. *)
Fixpoint run_lines (st : reading T) (ls : list bytes) : option (reading T) :=
  match ls with
  | [] => Some st
  | l :: ls => st ← line st l; if err st then Some st else run_lines st ls
  end.

Lemma register_lines_run ls fuel st : Forall is_line ls -> (length (concat ls) < fuel)%nat ->
  register_lines getpwnam exFlags provuser fuel (concat ls) st = run_lines st ls.
Proof.
  intros Hls. revert fuel st. induction Hls as [|l ls (v & E & Hv & Hl) _ IH];
    intros [|fuel] st Hf; try lia; [done|]. cbn [concat] in *.
  assert (Hg : fgets LINE (l ++ concat ls) = (l, concat ls)).
  { rewrite E, <- app_assoc. rewrite E, length_app in Hl. cbn [length] in Hl.
    change ([10] ++ concat ls) with (10 :: concat ls). apply fgets_line; [done|lia]. }
  cbn [register_lines run_lines]. rewrite Hg.
  assert (Hne : l ++ concat ls <> []) by (rewrite E; by destruct v).
  destruct (l ++ concat ls) eqn:Ec; [done|]. rewrite <- Ec in Hf.
  destruct (line st l) as [st'|]; [|done]. cbn [mbind option_bind]. destruct (err st'); [done|].
  apply IH. rewrite E, !length_app in Hf. cbn [length] in Hf. lia.
Qed.

Lemma run_lines_app st a b : err st = false ->
  run_lines st (a ++ b) = st' ← run_lines st a; if err st' then Some st' else run_lines st' b.
Proof.
  revert st. induction a as [|l a IH]; intros st He.
  - cbn [app run_lines mbind option_bind]. by rewrite He.
  - cbn [app run_lines]. destruct (line st l) as [st'|]; [|done]. cbn [mbind option_bind].
    destruct (err st') eqn:E; [cbn [mbind option_bind]; by rewrite E|by apply IH].
Qed.

(** The object of the section being read. *)
Definition put_info (st : reading T) (i : loc) (d : ProviderInfo) : reading T :=
  with_reg st (with_heap (reg st) (<[i := d]> (heap (reg st)))).

Lemma put_put st i d d' : put_info (put_info st i d) i d' = put_info st i d'.
Proof. unfold put_info. cbn. by rewrite insert_insert_eq. Qed.

Lemma read_statement st i d k ws d' : info st = Some i -> heap (reg st) !! i = Some d -> err st = false ->
  key_ok (cstr k) = true -> Forall word_ok ws ->
  info_statement getpwnam d (cstr k)
    {| cv_type := 2; cv_id := Some (cstr k); cv_val := Some (words_text ws) |} = Some (d', false) ->
  line st (statement k ws) = Some (put_info st i d').
Proof.
  intros Hi Hd He Hk Hws Hs. unfold register_line. rewrite parse_words by done.
  cbn [mbind option_bind cv_type cv_id Z.eqb Pos.eqb]. rewrite Hi, Hd. cbn [mbind option_bind].
  rewrite Hs. cbn [mbind option_bind]. rewrite He. unfold with_err, put_info, with_reg. cbn. by rewrite Hi, He.
Qed.

Lemma read_more st i d k ws d' ls : info st = Some i -> err st = false ->
  key_ok (cstr k) = true -> Forall word_ok ws ->
  info_statement getpwnam d (cstr k)
    {| cv_type := 2; cv_id := Some (cstr k); cv_val := Some (words_text ws) |} = Some (d', false) ->
  run_lines (put_info st i d) (statement k ws :: ls) = run_lines (put_info st i d') ls.
Proof.
  intros Hi He Hk Hws Hs. cbn [run_lines].
  rewrite (read_statement (put_info st i d) i d k ws d') by (done || by cbn; rewrite lookup_insert_eq).
  cbn [mbind option_bind]. rewrite put_put. by replace (err (put_info st i d')) with false.
Qed.

Definition section_start (n : nat) (cn : bytes) : ProviderInfo :=
  new_info cn (Z.of_nat n + 1) (match provuser with Some (_, u) => u | None => u32 (-1) end) (fst <$> provuser).

Lemma read_body st i n s : section_ok s -> info st = Some i -> err st = false ->
  heap (reg st) !! i = Some (section_start n (s_class s)) ->
  run_lines st (tail (section_lines s)) = Some (put_info st i (section_info provuser n s)).
Proof.
  intros (_ & Hp & Hl & Htn & Ht & Hnn & Hn & _) Hi He Hd. unfold section_lines. cbn [tail].
  assert (Ht' : Forall word_ok (s_types s)) by (eapply Forall_impl; [exact Ht|]; intros ? [? ?]; done).
  replace st with (put_info st i (section_start n (s_class s))) at 1
    by (unfold put_info; rewrite insert_id by done; by destruct st as [[]]).
  erewrite read_more; [|done..|by apply Forall_singleton|];
    [|unfold info_statement; cbn [strcmp cstr words_text]; rewrite get_value by apply Hp; reflexivity].
  erewrite read_more; [|done..|by apply Forall_singleton|];
    [|unfold info_statement; cbn [strcmp cstr words_text]; rewrite get_value by apply Hl; reflexivity].
  erewrite read_more; [|done..|];
    [|unfold info_statement; cbn [strcmp cstr]; rewrite vals_words, parse_type_words by done; reflexivity].
  erewrite read_more; [|done..|];
    [|unfold info_statement; cbn [strcmp cstr]; rewrite vals_words by done; reflexivity].
  done.
Qed.

(** The section [s] is being read, those of [ss] before it are registered. *)
Record pending (st : reading T) (ss : list section) (s : section) (m : chains) : Prop := {
  pe_info : info st = Some (length ss);
  pe_top : top (reg st) = S (length ss);
  pe_item : heap (reg st) !! length ss = Some (section_info provuser (length ss) s);
  pe_rep : represents (reg st) m;
  pe_used : forall l, used m l -> (l < length ss)%nat;
  pe_err : err st = false;
  pe_rid : rid st = Z.of_nat (length ss) + 1;
  pe_special : specials_of exFlags (reg st) ss
}.

Lemma section_info_complete n s : section_ok s -> complete (section_info provuser n s).
Proof.
  intros (_ & _ & _ & _ & _ & Hn & _). split; [by eexists|]. cbn. destruct (s_ns s) as [|x l]; [done|].
  by exists x, l.
Qed.

(** [begin_section] and the lines that follow. *)
Lemma begin_ok st ss s m : section_ok s -> top (reg st) = length ss -> represents (reg st) m ->
  (forall l, used m l -> (l < length ss)%nat) -> err st = false -> rid st = Z.of_nat (length ss) ->
  specials_of exFlags (reg st) ss ->
  exists st', run_lines (begin_section provuser st (s_class s)) (tail (section_lines s)) = Some st' /\
    pending st' ss s m.
Proof.
  intros Hs Ht Hr Hu He Hi Hsp. eexists. split.
  - apply (read_body _ (length ss) (length ss)); [done|cbn; by rewrite Ht|done|].
    cbn. by rewrite Ht, lookup_insert_eq, Hi.
  - split; cbn; rewrite ?Ht, ?Hi; try done.
    + by rewrite lookup_insert_eq.
    + rewrite insert_insert_eq.
      assert (Hh : represents (with_heap (reg st)
                (<[length ss := section_info provuser (length ss) s]> (heap (reg st)))) m).
      { apply represents_heap; [done|]. intros l Hl. rewrite lookup_insert_ne; [done|].
        intros <-. apply Hu in Hl. lia. }
      by destruct Hh.
Qed.

Lemma line_section st s : section_ok s ->
  line st (91 :: s_class s ++ [93; 10]) = new_section exFlags provuser st (s_class s).
Proof. intros [Hc _]. unfold register_line. by rewrite parse_section. Qed.

Lemma first_section s : section_ok s -> exists st,
  run_lines {| reg := empty_registry; info := None; rid := 0; interopFound := false; err := false |}
    (section_lines s) = Some st /\ pending st [] s ∅.
Proof.
  intros Hs. unfold section_lines. cbn [run_lines]. rewrite line_section by done.
  cbn [new_section info mbind option_bind].
  apply (begin_ok {| reg := empty_registry; info := None; rid := 0; interopFound := false; err := false |});
    try done.
  - split; try done. intros k. cbn. by rewrite ht_get_new, lookup_empty.
  - intros l (k & xs & Hk & _). by rewrite lookup_empty in Hk.
  - unfold specials_of, qualifier_section, interop_section, default_section, class_section. cbn.
    by destruct (_ =? 0).
Qed.

Lemma represents_ext (r r' : registry T) m :
  represents r m -> heap r' = heap r -> ht r' = ht r -> represents r' m.
Proof. intros [H1 H2 H3 H4 H5] Hh Ht. split; try done; [by rewrite Ht|by rewrite Hh]. Qed.

Lemma spec_add_used m n d m' l : spec_add m n d = Some m' -> used m' l -> used m l \/ l = n.
Proof.
  unfold spec_add. intros Ha (k & xs & Hk & Hl).
  assert (Hold : forall ys, m !! k = Some ys -> l ∈ places ys -> used m l) by (intros ys; by exists k, ys).
  destruct (m !! key d) as [[|[l1 d1] rest]|] eqn:Ek.
  2: destruct (decide _); [destruct (decide _); [destruct (decide _)|done]|].
  all: injection Ha as <-; try (left; by apply (Hold xs)).
  all: rewrite lookup_insert_Some in Hk; destruct Hk as [[<- <-]|[_ Hk]]; [|left; by apply (Hold xs)].
  - apply list_elem_of_singleton in Hl. by right.
  - left. apply (Hold _ Ek). done.
  - rewrite !places_cons, !elem_of_cons in Hl. destruct Hl as [->|[->|Hl]]; [| by right|];
      left; apply (Hold _ Ek); rewrite places_cons, elem_of_cons; auto.
  - apply list_elem_of_singleton in Hl. by right.
Qed.

(** The next section: the pending one is registered, or it is in conflict. *)
Lemma next_section st ss s m s' : pending st ss s m -> section_ok s -> section_ok s' ->
  match spec_add m (length ss) (section_info provuser (length ss) s) with
  | Some m' => exists st', run_lines st (section_lines s') = Some st' /\ pending st' (ss ++ [s]) s' m'
  | None => exists st' d, run_lines st (section_lines s') = Some st' /\ err st' = true /\
              info st' = Some (length ss) /\ heap (reg st') !! length ss = Some d /\ nextInRegister d = None
  end.
Proof.
  intros [H1 H2 H3 H4 H5 H6 H7 H8] Hs Hs'.
  destruct (special_ok exFlags st ss s (section_info provuser (length ss) s) H8 eq_refl)
    as (Hp & Hh & Ht & Htp & Hi & Hr & He).
  set (st1 := special exFlags st (length ss) _) in *.
  assert (Hl : line st (91 :: s_class s' ++ [93; 10]) =
    '(rc, r) ← addProviderToHT (reg st1) (length ss);
    let st2 := with_err (with_reg st1 r) (negb (rc =? 0)) in
    Some (if negb (rc =? 0) then st2 else begin_section provuser st2 (s_class s'))).
  { rewrite line_section by done. unfold new_section. rewrite H1, H3. done. }
  assert (Hadd := add_ok Hcase (reg st1) m (length ss) (section_info provuser (length ss) s)
    (represents_ext _ _ _ H4 Hh Ht) ltac:(intros Hx; apply H5 in Hx; lia) ltac:(by rewrite Hh)
    eq_refl (section_info_complete _ _ Hs)).
  change (payload (section_info provuser (length ss) s)) with (section_info provuser (length ss) s) in Hadd.
  unfold section_lines. cbn [run_lines]. rewrite Hl.
  destruct (spec_add m (length ss) _) as [m'|] eqn:Esp.
  - destruct Hadd as (r' & Ha & Hrep & _ & Htop & Hc1 & Hc2 & Hc3 & Hc4 & _). rewrite Ha.
    cbn [mbind option_bind negb Z.eqb]. cbv zeta.
    set (st2 := with_err (with_reg st1 r') false).
    replace (err (begin_section provuser st2 (s_class s'))) with false by done.
    assert (Hlen : length (ss ++ [s]) = S (length ss)) by (rewrite length_app; cbn; lia).
    apply (begin_ok st2 (ss ++ [s]) s' m'); try done.
    + cbn. by rewrite Htop, Htp, H2, Hlen.
    + intros l Hl'. apply (spec_add_used _ _ _ _ _ Esp) in Hl' as [Hl'| ->]; [apply H5 in Hl'|]; lia.
    + cbn. rewrite Hr, H7, Hlen. lia.
    + destruct Hp as (P1 & P2 & P3 & P4). split_and!; cbn; congruence.
  - rewrite Hadd. cbn [mbind option_bind negb Z.eqb err with_err]. eexists _, _. split; [done|].
    cbn. rewrite Hi, H1, Hh, H3. done.
Qed.

Lemma more_sections ss0 st s m rest ss z : pending st ss0 s m ->
  Forall section_ok (s :: rest) -> ss ++ [z] = s :: rest ->
  match spec_sections provuser (length ss0) m ss with
  | Some m' => exists st', run_lines st (concat (section_lines <$> rest)) = Some st' /\
                 pending st' (ss0 ++ ss) z m'
  | None => exists st' i d, run_lines st (concat (section_lines <$> rest)) = Some st' /\ err st' = true /\
              info st' = Some i /\ heap (reg st') !! i = Some d /\ nextInRegister d = None
  end.
Proof.
  revert ss0 st s m rest. induction ss as [|x ss IH]; intros ss0 st s m rest Hp Hok E; cbn [app] in E.
  - injection E as -> <-. cbn [spec_sections]. exists st. by rewrite app_nil_r.
  - injection E as -> E. destruct rest as [|s' rest]; [by destruct ss|].
    apply Forall_cons in Hok as [Hs Hok]. pose proof (proj1 (proj1 (Forall_cons _ _ _) Hok)) as Hs'.
    pose proof (next_section st ss0 s m s' Hp Hs Hs') as Hn. cbn [spec_sections fmap list_fmap concat].
    rewrite run_lines_app by apply (pe_err _ _ _ _ Hp).
    destruct (spec_add m (length ss0) _) as [m1|]; cbn [mbind option_bind].
    + destruct Hn as (st' & -> & Hp'). cbn [mbind option_bind]. rewrite (pe_err _ _ _ _ Hp').
      specialize (IH (ss0 ++ [s]) st' s' m1 rest Hp' Hok E).
      rewrite <- app_assoc, length_app, Nat.add_1_r in IH. exact IH.
    + destruct Hn as (st' & d & -> & He & Hi & Hd & Hnx). cbn [mbind option_bind]. rewrite He.
      by exists st', (length ss0), d.
Qed.

Lemma sections_text (l : list section) :
  concat (section_text <$> l) = concat (concat (section_lines <$> l)).
Proof.
  induction l as [|s l IH]; [done|]. rewrite !fmap_cons. cbn [concat]. by rewrite concat_app, IH.
Qed.

(** C12: a registration file of well-formed sections is read without undefined
    behaviour.  All sections are registered in order; if one of them conflicts with
    an earlier one the broker exits, unless it is the last, which is then left out.
    The special providers are looked for among all sections but the last, each
    behind the one found before; without a class provider the broker exits. *)
Theorem registration_file_read ss s : Forall section_ok (ss ++ [s]) ->
  exists st, read_register getpwnam exFlags provuser false (concat (section_text <$> (ss ++ [s]))) = Some st /\
  match spec_sections provuser 0 ∅ ss with
  | Some m =>
      represents (reg st) (default m (spec_add m (length ss) (section_info provuser (length ss) s))) /\
      specials_of exFlags (reg st) ss /\
      match class_section ss with
      | Some _ => exists b, finish st = Returns b /\ br_reg b = reg st
      | None => finish st = Exits
      end
  | None => finish st = Exits
  end.
Proof.
  intros Hok. destruct (ss ++ [s]) as [|s0 rest] eqn:E; [by destruct ss|].
  pose proof (proj1 (Forall_cons _ _ _) Hok) as [Hs0 _].
  unfold read_register. rewrite sections_text, register_lines_run; [|
    |lia].
  2:{ clear E Hs0. induction Hok as [|x l Hx _ IH]; [done|]. rewrite fmap_cons. cbn [concat].
      apply Forall_app. split; [by apply section_lines_ok|done]. }
  rewrite fmap_cons. cbn [concat]. rewrite run_lines_app by done.
  destruct (first_section s0 Hs0) as (st & -> & Hp). cbn [mbind option_bind].
  rewrite (pe_err _ _ _ _ Hp). pose proof (more_sections [] st s0 ∅ rest ss s Hp Hok E) as Hm.
  cbn [length app] in Hm. destruct (spec_sections provuser 0 ∅ ss) as [m|].
  - destruct Hm as (st' & -> & [H1 H2 H3 H4 H5 H6 H7 (P1 & P2 & P3 & P4)]). cbn [mbind option_bind].
    unfold last_section. rewrite H1, H6.
    assert (Hs : section_ok s)
      by (rewrite <- E in Hok; apply Forall_app in Hok as [_ Hok]; by inversion Hok).
    pose proof (add_ok Hcase (reg st') m (length ss) (section_info provuser (length ss) s) H4
      ltac:(intros Hx; apply H5 in Hx; lia) H3 eq_refl (section_info_complete _ _ Hs)) as Ha.
    change (payload (section_info provuser (length ss) s)) with (section_info provuser (length ss) s) in Ha.
    assert (Hfin : forall r, classProvInfoPtr r = class_section ss ->
      match class_section ss with
      | Some _ => exists b, finish (with_reg st' r) = Returns b /\ br_reg b = r
      | None => finish (with_reg st' r) = Exits
      end).
    { intros r Hc. unfold finish. cbn [reg with_reg err]. rewrite Hc, H6.
      destruct (class_section ss); [by eexists|done]. }
    destruct (spec_add m (length ss) _) as [m'|].
    + destruct Ha as (r' & -> & Hr & _ & _ & C1 & C2 & C3 & C4 & _). cbn [mbind option_bind].
      eexists. split; [done|]. split; [exact Hr|]. split; [|apply Hfin; congruence].
      cbn. unfold specials_of. by rewrite C1, C2, C3, C4.
    + rewrite Ha. cbn [mbind option_bind]. eexists. split; [done|]. split; [exact H4|].
      split; [done|by apply Hfin].
  - destruct Hm as (st' & i & d & -> & He & Hi & Hd & Hn). cbn [mbind option_bind].
    unfold last_section. rewrite Hi, He, (free_single _ i d Hd Hn). cbn [mbind option_bind].
    eexists. split; [done|]. unfold finish. cbn. by rewrite He; destruct (classProvInfoPtr _).
Qed.

(** C13: [addProviderToHT] keeps the register a table of chains: a first provider is
    entered, a second one goes behind the head, a repeated one adds its first name
    space to the head and is freed, and the same provider with another type is
    refused. *)
Theorem addProvider_refines r m l d :
  represents r m -> ~ used m l -> heap r !! l = Some d -> nextInRegister d = None -> complete d ->
  match spec_add m l (payload d) with
  | Some m' => exists r', addProviderToHT r l = Some (0, r') /\ represents r' m' /\
                 (heap r' !! l = None <-> ~ used m' l)
  | None => addProviderToHT r l = Some (1, r)
  end.
Proof.
  intros H Hu Hd Hn Hc. pose proof (add_ok Hcase r m l d H Hu Hd Hn Hc) as Ha.
  destruct (spec_add _ _ _); [|done]. destruct Ha as (r' & ? & ? & ? & _). by exists r'.
Qed.

(** [getProvider] looks at the head of the chain only. *)
Lemma getProvider_head r m cls ty : represents r m ->
  getProvider r cls ty = Some match m !! (tolower <$> cls : bytes) with
                              | Some ((l, d) :: _) => if negb (Z.land (ptype d) ty =? 0) then Some l else None
                              | _ => None
                              end.
Proof.
  intros H. unfold getProvider. rewrite (rep_get _ _ H).
  destruct (m !! (_ : bytes)) as [xs|] eqn:Hk; [|done].
  destruct (head_chain r m _ H _ Hk) as (l1 & d1 & d1' & rest & -> & H1 & <- & _).
  cbn [mbind option_bind head places fmap list_fmap fst]. by rewrite H1.
Qed.
End Reading.

(** ** Process ids *)

Section Reset.
Context {T : Type} `{!CharHashTable T loc} `{!HashTableWalk T loc}.

Definition reset_info (p : Z) (d : ProviderInfo) : ProviderInfo := if pid d =? p then set_pid d 0 else d.
Definition reset_item (p : Z) (x : loc * ProviderInfo) : loc * ProviderInfo := (x.1, reset_info p x.2).

Lemma reset_item_twice p x : reset_item p (reset_item p x) = reset_item p x.
Proof.
  destruct x as [l d]. unfold reset_item, reset_info. cbn [fst snd]. destruct (pid d =? p) eqn:E; [|by rewrite E].
  by destruct (pid (set_pid d 0) =? p).
Qed.

Lemma places_reset p xs : places (reset_item p <$> xs) = places xs.
Proof. unfold places. by rewrite <- list_fmap_compose. Qed.

Lemma payload_reset p d : payload (reset_info p d) = reset_info p (payload d).
Proof. unfold reset_info. cbn. by destruct (pid d =? p). Qed.

Lemma reset_next p d : nextInRegister (reset_info p d) = nextInRegister d.
Proof. unfold reset_info. by destruct (pid d =? p). Qed.

Lemma reset_chain_ok p xs : forall fuel h i, chain h i xs -> NoDup (places xs) -> (length xs <= fuel)%nat ->
  exists h', reset_chain fuel p h i = Some h' /\ chain h' i (reset_item p <$> xs) /\
    forall l, l ∉ places xs -> h' !! l = h !! l.
Proof.
  induction xs as [|[l d] xs IH]; intros fuel h i Hc Hnd Hf.
  - exists h. simpl in Hc. subst i. by destruct fuel.
  - destruct Hc as (-> & d' & Hd & <- & Hc). apply NoDup_cons in Hnd as [Hl Hnd].
    destruct fuel as [|fuel]; cbn [length] in Hf; [lia|]. cbn [reset_chain]. rewrite Hd. cbn [mbind option_bind].
    change (if pid d' =? p then set_pid d' 0 else d') with (reset_info p d').
    destruct (IH fuel (<[l := reset_info p d']> h) (nextInRegister (reset_info p d'))) as (h' & E & Hc' & Hf');
      [|done|lia|].
    + rewrite reset_next. eapply chain_frame; [|exact Hc]. intros x Hx. rewrite lookup_insert_ne; [done|].
      by intros <-.
    + exists h'. split; [exact E|]. rewrite fmap_cons. cbn [chain reset_item fst snd]. split.
      * split; [done|]. exists (reset_info p d'). rewrite Hf', lookup_insert_eq by done.
        split; [done|]. split; [apply payload_reset|done].
      * intros x Hx. rewrite places_cons, not_elem_of_cons in Hx. destruct Hx as [Hx1 Hx2].
        rewrite Hf' by done. by rewrite lookup_insert_ne.
Qed.

Lemma chain_length h i xs : chain h i xs -> NoDup (places xs) -> (length xs <= size h)%nat.
Proof.
  intros Hc Hnd. rewrite <- size_dom, <- (length_fmap fst xs). fold (places xs).
  rewrite <- (size_list_to_set (C := gset loc) (places xs)) by done. apply subseteq_size.
  intros x. rewrite elem_of_list_to_set, elem_of_dom. revert i Hc. clear Hnd.
  induction xs as [|[l d] xs IH]; intros i Hc Hx; [by apply elem_of_nil in Hx|].
  destruct Hc as (_ & d' & Hd & _ & Hc). apply elem_of_cons in Hx as [->|Hx]; [by eexists|by eapply IH].
Qed.

(** The chains after those with a head in [ls] were reset. *)
Definition reset_some (p : Z) (ls : list loc) (m : chains) : chains :=
  (fun xs => if decide (default O (head (places xs)) ∈ ls) then reset_item p <$> xs else xs) <$> m.

Lemma complete_reset p d : complete (reset_info p d) <-> complete d.
Proof. unfold reset_info. by destruct (pid d =? p). Qed.
Lemma key_reset p d : key (reset_info p d) = key d.
Proof. unfold reset_info. by destruct (pid d =? p). Qed.

(** Resetting one chain: its head joins [ls]. *)
Lemma reset_one p r m k l xs :
  represents r m -> m !! k = Some xs -> head (places xs) = Some l ->
  exists h', reset_chain (size (heap r)) p (heap r) (Some l) = Some h' /\
    represents (with_heap r h') (<[k := reset_item p <$> xs]> m).
Proof.
  intros H Hk Hl. destruct (rep_chain _ _ H k xs Hk) as [Hne Hc].
  pose proof (rep_nodup _ _ H k xs Hk) as Hnd.
  assert (Hh : fst <$> head xs = Some l) by (by destruct xs).
  rewrite Hh in Hc. destruct (reset_chain_ok p xs (size (heap r)) (heap r) (Some l) Hc Hnd) as (h' & E & Hc' & Hf).
  { by eapply chain_length. }
  exists h'. split; [done|]. eapply (represents_update r m k xs); try done.
  - by rewrite places_reset.
  - by destruct xs.
  - destruct xs as [|[]]; [done|]. cbn in Hh. by simplify_eq.
  - by rewrite places_reset.
  - intros x Hx. rewrite places_reset in Hx. by left.
  - intros x d. rewrite list_elem_of_fmap. intros ([y e] & [= -> ->] & Hin).
    rewrite complete_reset, key_reset. exact (rep_item _ _ H k xs y e Hk Hin).
  - intros x _ Hx. by apply Hf.
Qed.

Lemma head_unique r m k k' xs xs' l : represents r m -> m !! k = Some xs -> m !! k' = Some xs' ->
  head (places xs) = Some l -> head (places xs') = Some l -> k = k'.
Proof.
  intros H Hk Hk' Hl Hl'. apply (rep_disjoint _ _ H k k' xs xs' l Hk Hk').
  - destruct (places xs); [done|]. injection Hl as ->. apply list_elem_of_here.
  - destruct (places xs'); [done|]. injection Hl' as ->. apply list_elem_of_here.
Qed.

Lemma reset_all_ok p ls : forall r m, represents r m ->
  (forall l, l ∈ ls -> exists k xs, m !! k = Some xs /\ head (places xs) = Some l) ->
  exists h', reset_all p (heap r) ls = Some h' /\ represents (with_heap r h') (reset_some p ls m).
Proof.
  induction ls as [|l ls IH]; intros r m H Hls.
  - exists (heap r). split; [done|].
    replace (reset_some p [] m) with m; [by destruct r|]. apply map_eq. intros k. unfold reset_some.
    rewrite lookup_fmap. destruct (m !! k) as [xs|]; [|done]. cbn. rewrite decide_False; [done|]. apply not_elem_of_nil.
  - destruct (Hls l (list_elem_of_here _ _)) as (k & xs & Hk & Hl).
    destruct (reset_one p r m k l xs H Hk Hl) as (h1 & E & H1). cbn [reset_all]. rewrite E. cbn [mbind option_bind].
    destruct (IH (with_heap r h1) _ H1) as (h2 & E2 & H2).
    { intros l' Hl'. destruct (Hls l' (list_elem_of_further _ _ _ Hl')) as (k' & xs' & Hk' & Hh').
      destruct (decide (k = k')) as [->|Hne].
      - exists k', (reset_item p <$> xs). rewrite lookup_insert_eq, places_reset. by simplify_eq.
      - exists k', xs'. by rewrite lookup_insert_ne. }
    exists h2. split; [exact E2|].
    replace (reset_some p (l :: ls) m) with (reset_some p ls (<[k := reset_item p <$> xs]> m)); [exact H2|].
    apply map_eq. intros k'. unfold reset_some. rewrite !lookup_fmap. destruct (decide (k = k')) as [<-|Hne].
    + rewrite lookup_insert_eq, Hk. cbn. rewrite places_reset, Hl. cbn [default].
      rewrite (decide_True (P := _ ∈ l :: ls)) by apply list_elem_of_here.
      f_equal. destruct (decide _); [|done]. rewrite <- list_fmap_compose. apply list_fmap_ext.
      intros ? x _. apply reset_item_twice.
    + rewrite lookup_insert_ne by done. destruct (m !! k') as [ys|] eqn:Hk'; [|done]. cbn. f_equal.
      apply decide_ext. rewrite elem_of_cons. split; [auto|]. intros [Eh|?]; [|done].
      exfalso. apply Hne. eapply (head_unique r m k k' xs ys l); try done.
      destruct (rep_chain _ _ H k' ys Hk') as [Hny _]. destruct ys as [|[y e] ys]; [done|]. cbn in *. by subst.
Qed.

Definition reset_chains (p : Z) (m : chains) : chains :=
  (fun xs : list (loc * ProviderInfo) => reset_item p <$> xs) <$> m.

(** [resetProvider] visits every provider of the register, chained ones
    included, clears the process id of those that have it, and changes nothing
    else. *)
Theorem resetProvider_all r m p : represents r m ->
  exists r', resetProvider r p = Some r' /\ represents r' (reset_chains p m).
Proof.
  intros H. destruct (reset_all_ok p (ht_values (ht r)) r m H) as (h' & E & H').
  - intros l Hl. apply ht_values_get in Hl as [k Hg]. rewrite (rep_get _ _ H) in Hg.
    destruct (m !! (tolower <$> k : bytes)) as [xs|] eqn:Hk; [|done]. by exists (tolower <$> k), xs.
  - exists (with_heap r h'). unfold resetProvider. rewrite E. split; [done|].
    replace (reset_chains p m) with (reset_some p (ht_values (ht r)) m); [done|]. apply map_eq. intros k.
    unfold reset_some, reset_chains. rewrite !lookup_fmap. destruct (m !! k) as [xs|] eqn:Hk; [|done]. cbn. f_equal.
    rewrite decide_True; [done|]. apply ht_values_get.
    destruct (rep_chain _ _ H k xs Hk) as [Hne _]. destruct xs as [|[l d] xs]; [done|].
    pose proof (proj2 (rep_item _ _ H k _ l d Hk (list_elem_of_here _ _))) as Hkey.
    exists (className d). rewrite (rep_get _ _ H). change (tolower <$> className d) with (key d).
    by rewrite Hkey, Hk.
Qed.
End Reset.

(** * Witnesses *)

Definition wit_table : CharHashTable (list (bytes * loc)) loc := assoc_table true.
#[local] Existing Instance wit_table.
Definition wit_walk : HashTableWalk (list (bytes * loc)) loc := assoc_walk true.
#[local] Existing Instance wit_walk.
Lemma wit_register_case : ht_ignoreCase (T := list (bytes * loc)) (V := loc) = true.
Proof. done. Qed.

Definition wit_section (c p : string) (ts nss : list string) : section :=
  {| s_class := cstr c; s_provider := cstr p; s_location := cstr "lib"; s_types := cstr <$> ts;
     s_ns := cstr <$> nss |}.
(** The default provider stands before the class provider, so it is not found;
    two providers share a class; the last section is a conflict. *)
Definition wit_sections : list section :=
  [wit_section "$DefaultProvider$" "D" ["instance"] ["*"];
   wit_section "$ClassProvider$" "C" ["class"; "method"] ["*"];
   wit_section "CIM_A" "PA" ["instance"] ["root/cimv2"];
   wit_section "cim_a" "PB" ["indication"; "method"] ["root/cimv2"; "root/interop"];
   wit_section "CIM_A" "PA" ["instance"] ["root/interop"]]%string.
Definition wit_last : section := wit_section "CIM_A" "PA" ["method"] ["root/cimv2"].

Definition section_okb (s : section) : bool :=
  forallb section_byte (s_class s) && forallb (fun w => value_ok w && negb (bool_decide (w = [])))
    (s_provider s :: s_location s :: s_types s ++ s_ns s) &&
  forallb (fun t => bool_decide (type_bit t <> None)) (s_types s) &&
  negb (bool_decide (s_types s = [])) && negb (bool_decide (s_ns s = [])) &&
  forallb (fun l => (length l <=? LINE)%nat) (section_lines s).

Lemma section_okb_ok s : section_okb s = true -> section_ok s.
Proof.
  unfold section_okb. rewrite !andb_true_iff, !negb_true_iff, !bool_decide_eq_false.
  intros [[[[[H1 H2] H3] H4] H5] H6]. rewrite !forallb_forall in H2, H3, H6.
  assert (Hw : forall w, List.In w (s_provider s :: s_location s :: s_types s ++ s_ns s) -> word_ok w).
  { intros w Hw. apply H2, andb_true_iff in Hw as [? Hn%negb_true_iff]. split; [done|].
    by apply bool_decide_eq_false in Hn. }
  split; [done|]. split; [apply Hw; by left|]. split; [apply Hw; right; by left|].
  split; [done|]. split; [|split; [done|split]].
  - apply Forall_forall. intros t Ht%list_elem_of_In. split.
    + apply Hw. right. right. apply List.in_or_app. by left.
    + specialize (H3 t Ht). by apply bool_decide_eq_true in H3.
  - apply Forall_forall. intros t Ht%list_elem_of_In. apply Hw. right. right. apply List.in_or_app. by right.
  - apply Forall_forall. intros l Hl%list_elem_of_In. by apply Nat.leb_le, H6.
Qed.

Lemma wit_sections_ok : Forall section_ok (wit_sections ++ [wit_last]).
Proof. repeat (apply Forall_cons; split); [apply section_okb_ok; by vm_compute..|done]. Qed.

Definition wit_read : option (reading (list (bytes * loc))) :=
  read_register (fun _ => None) 2 None false (concat (section_text <$> (wit_sections ++ [wit_last]))).

(** The places of the providers of a class. *)
Definition places_of (k : bytes) (m : option chains) : option (list loc) :=
  match m with
  | Some m => match m !! k with Some xs => Some (places xs) | None => None end
  | None => None
  end.
(** The register after the last section. *)
Definition wit_after (m : chains) : chains :=
  default m (spec_add m (length wit_sections) (section_info None (length wit_sections) wit_last)).

(** Six sections, the class provider is the second one, no default provider; the
    class has the two providers with the name spaces of the first collated. *)
Lemma registration_file_read_witness : exists st m,
  wit_read = Some st /\ represents (reg st) m /\
  places_of (cstr "cim_a") (Some m) = Some [2%nat; 3%nat] /\
  classProvInfoPtr (reg st) = Some 1%nat /\ defaultProvInfoPtr (reg st) = None.
Proof.
  assert (G : places_of (cstr "cim_a") (wit_after <$> spec_sections None 0 ∅ wit_sections)
              = Some [2%nat; 3%nat]) by (by vm_compute).
  destruct (registration_file_read wit_register_case (fun _ => None) 2 None wit_sections wit_last wit_sections_ok)
    as (st & E & H).
  destruct (spec_sections None 0 ∅ wit_sections) as [m|]; [|discriminate G].
  destruct H as (Hr & (Hc & Hd & _) & _). eexists st, _. split; [exact E|]. split; [exact Hr|]. split.
  - exact G.
  - rewrite Hc, Hd. split; vm_compute; reflexivity.
Defined.

Definition wit_info (n : nat) (p : string) (i : Z) : ProviderInfo :=
  set_pid (section_info None n (wit_section "CIM_A" p ["instance"] ["root/cimv2"])) i.
(** One class with the chain of the objects 0 and 1, and objects not registered. *)
Definition pair_registry (d1 d2 : ProviderInfo) (other : gmap loc ProviderInfo)
  : registry (list (bytes * loc)) :=
  {| heap := <[0%nat := set_nextInRegister d1 (Some 1%nat)]> (<[1%nat := d2]> other);
     top := 3; ht := [(className d1, 0%nat)]; classProvInfoPtr := None; defaultProvInfoPtr := None;
     interOpProvInfoPtr := None; qualiProvInfoPtr := None |}.
Definition pair_chains (d1 d2 : ProviderInfo) : chains :=
  {[key d1 := [(0%nat, payload d1); (1%nat, payload d2)]]}.

Lemma represents_pair d1 d2 other : complete d1 -> complete d2 -> key d1 = key d2 ->
  nextInRegister d2 = None -> represents (pair_registry d1 d2 other) (pair_chains d1 d2).
Proof.
  intros C1 C2 Hkey Hn.
  assert (Hk : forall k xs, pair_chains d1 d2 !! k = Some xs ->
    k = key d1 /\ xs = [(0%nat, payload d1); (1%nat, payload d2)]).
  { intros k xs. unfold pair_chains. rewrite lookup_singleton_Some. by intros [<- <-]. }
  split.
  - intros k. cbn [ht pair_registry ht_get wit_table assoc_table assoc_get].
    unfold pair_chains. destruct (same_key true (className d1) k) eqn:E.
    + apply same_key_nocase in E. rewrite <- E. change (tolower <$> className d1) with (key d1).
      by rewrite lookup_singleton_eq.
    + rewrite lookup_singleton_ne; [done|]. intros E'. apply not_true_iff_false in E. apply E.
      by apply same_key_nocase.
  - intros k xs [-> ->]%Hk. split; [done|]. split; [done|]. cbn [heap pair_registry].
    eexists. split; [by rewrite lookup_insert_eq|]. split; [done|].
    split; [done|]. eexists. split; [by rewrite lookup_insert_ne, lookup_insert_eq|]. by split.
  - intros k xs [-> ->]%Hk. match goal with |- ?P => apply (bool_decide_eq_true_1 P) end. by vm_compute.
  - by intros k k' xs xs' l [-> ->]%Hk [-> ->]%Hk.
  - intros k xs l d [-> ->]%Hk Hin. rewrite !elem_of_cons in Hin.
    destruct Hin as [[= -> ->]|[[= -> ->]|Hin]]; [done|by rewrite Hkey|by apply elem_of_nil in Hin].
Qed.

Definition wit_registry : registry (list (bytes * loc)) :=
  pair_registry (wit_info 0 "PA" 77) (wit_info 1 "PB" 77) {[2%nat := wit_info 2 "PC" 5]}.
Definition wit_chains : chains := pair_chains (wit_info 0 "PA" 77) (wit_info 1 "PB" 77).

Lemma wit_represents : represents wit_registry wit_chains.
Proof. apply represents_pair; [by split; eexists; [|eexists]..|done|done]. Qed.

(** A third provider goes between the two. *)
Lemma addProvider_refines_witness : exists r' m',
  addProviderToHT wit_registry 2 = Some (0, r') /\ represents r' m' /\
  places_of (cstr "cim_a") (Some m') = Some [0%nat; 2%nat; 1%nat].
Proof.
  assert (G : places_of (cstr "cim_a") (spec_add wit_chains 2 (payload (wit_info 2 "PC" 5)))
              = Some [0%nat; 2%nat; 1%nat]) by (by vm_compute).
  pose proof (addProvider_refines wit_register_case wit_registry wit_chains 2%nat (wit_info 2 "PC" 5) wit_represents) as H.
  destruct (spec_add wit_chains 2 (payload (wit_info 2 "PC" 5))) as [m'|]; [|discriminate G].
  destruct H as (r' & E & Hr & _).
  - intros (k & xs & Hk & Hl). unfold wit_chains, pair_chains in Hk. rewrite lookup_singleton_Some in Hk.
    destruct Hk as [<- <-]. apply (bool_decide_eq_true_2 (_ ∈ _)) in Hl. by vm_compute in Hl.
  - by vm_compute.
  - done.
  - split; [by eexists|by eexists _, _].
  - exists r', m'. split; [exact E|]. split; [exact Hr|exact G].
Defined.

Lemma resetProvider_all_witness : exists r',
  resetProvider wit_registry 77 = Some r' /\
  represents r' {[cstr "cim_a" := [(0%nat, wit_info 0 "PA" 0); (1%nat, wit_info 1 "PB" 0)]]}.
Proof.
  destruct (resetProvider_all wit_registry wit_chains 77 wit_represents) as (r' & E & H).
  exists r'. split; [exact E|]. unfold reset_chains, wit_chains, pair_chains in H. rewrite map_fmap_singleton in H. exact H.
Defined.
