(* ===== verification/ProviderMgr.v ===== *)
(** * Selection of providers (providerMgr.c)

    For a request on a class in a name space the manager looks for the provider
    registered for the class or else for its superclasses, and remembers what it
    found in a table per kind of request.  What the class provider answers
    ([_getConstClass], [_getConstClassChildren], messages to another process) is a
    parameter; the loop over the superclasses takes a fuel, for which the length
    of the lineage of the class is enough.  [None] is undefined behaviour. *)

From S2P Require Import Prelude CString HashTable ProviderRegister.

Inductive cache_id := instanceProviderHt | propertyProviderHt | indicationProviderHt
  | assocProviderHt | methodProviderHt.
#[global] Instance cache_id_dec : EqDecision cache_id.
Proof. solve_decision. Defined.

Definition provHt (type : Z) : option cache_id :=
  if type =? INSTANCE_PROVIDER then Some instanceProviderHt
  else if type =? PROPERTY_PROVIDER then Some propertyProviderHt
  else if type =? INDICATION_PROVIDER then Some indicationProviderHt
  else None.

Definition interopClass (className : bytes) : bool :=
  (strcasecmp className (cstr "cim_indicationfilter") =? 0) ||
  (strcasecmp className (cstr "cim_indicationsubscription") =? 0).

Section Manager.
Context {T : Type} `{!CharHashTable T loc}.

(** The register, [interOpProvInfoPtr] and the tables, null before their first use. *)
Record mgr := { regs : registry T; interOp : prov_ptr; caches : cache_id -> option T }.

Definition set_cache (st : mgr) (c : cache_id) (t : T) : mgr :=
  {| regs := regs st; interOp := interOp st;
     caches := fun c' => if decide (c = c') then Some t else caches st c' |}.
(** A table is made when it is first used. *)
Definition open_cache (st : mgr) (c : cache_id) : mgr :=
  match caches st c with Some _ => st | None => set_cache st c ht_new end.
Definition cache_get (st : mgr) (c : cache_id) (k : bytes) : option loc :=
  match caches st c with Some t => ht_get t k | None => None end.
Definition cache_put (st : mgr) (c : cache_id) (k : bytes) (i : loc) : mgr :=
  match caches st c with Some t => set_cache st c (ht_put t k i) | None => st end.

Context (getConstClass : bytes -> bytes -> Z + option bytes)
        (getConstClassChildren : bytes -> bytes -> option (list bytes))
        (disableDefaultProvider : bool).

(** [nameSpaceOk] without the step from root/pg_interop to root/interop. *)
Definition nameSpaceOk_at (r : registry T) (info : loc) (d : ProviderInfo) (nameSpace : bytes) : bool :=
  match ns d with
  | Some (n0 :: nss) =>
      (strcasecmp n0 (cstr "*") =? 0) || existsb (fun n => strcasecmp n nameSpace =? 0) (n0 :: nss)
  | _ => false
  end || bool_decide (classProvInfoPtr r = Some info).
Definition nameSpaceOk (r : registry T) (info : loc) (d : ProviderInfo) (nameSpace : bytes) : bool :=
  nameSpaceOk_at r info d nameSpace ||
  ((strcasecmp nameSpace (cstr "root/pg_interop") =? 0) && nameSpaceOk_at r info d (cstr "root/interop")).

(** [while (info)]: the first provider of a chain for the name space. *)
Fixpoint walk (fuel : nat) (r : registry T) (nameSpace : bytes) (info : option loc) : option (option loc) :=
  match info, fuel with
  | None, _ => Some None
  | Some _, O => None
  | Some i, S fuel =>
      d ← heap r !! i;
      if nameSpaceOk r i d nameSpace then Some (Some i) else walk fuel r nameSpace (nextInRegister d)
  end.
Definition walk_chain (r : registry T) (nameSpace : bytes) (info : option loc) : option (option loc) :=
  walk (size (heap r)) r nameSpace info.

Definition default_provider (st : mgr) : prov_ptr :=
  if disableDefaultProvider then PNull else to_ptr (defaultProvInfoPtr (regs st)).

(** The loop of [lookupProvider] over the class and its superclasses. *)
Fixpoint lookup_classes (fuel : nat) (st : mgr) (c : cache_id) (type : Z) (cls nameSpace : bytes)
  : option (prov_ptr * Z * mgr) :=
  match fuel with
  | O => None
  | S fuel =>
      info ← getProvider (regs st) cls type;
      found ← walk_chain (regs st) nameSpace info;
      match found with
      | Some i =>
          Some (PAt i, 0, match cache_get st c cls with None => cache_put st c cls i | Some _ => st end)
      | None =>
          match getConstClass nameSpace cls with
          | inl rc => Some (PNull, rc, st)
          | inr (Some super) => lookup_classes fuel st c type super nameSpace
          | inr None => Some (default_provider st, 0, st)
          end
      end
  end.

Definition lookupProvider (fuel : nat) (st : mgr) (type : Z) (className nameSpace : bytes)
  : option (prov_ptr * Z * mgr) :=
  c ← provHt type;
  let st := open_cache st c in
  found ← walk_chain (regs st) nameSpace (cache_get st c className);
  match found with
  | Some i => Some (PAt i, 0, st)
  | None => lookup_classes fuel st c type className nameSpace
  end.

(** The answer of [findProvider], where [fork] tells whether the process of the
    provider could be started. *)
Inductive answer := MSG_X_PROVIDER (i : loc) | MSG_X_PROVIDER_NOT_FOUND
  | MSG_X_INVALID_NAMESPACE | MSG_X_INVALID_CLASS.
Definition CMPI_RC_ERR_INVALID_NAMESPACE : Z := 3.

Definition findProvider (fork : loc -> bool) (fuel : nat) (st : mgr) (type : Z)
    (className nameSpace : bytes) : option (answer * mgr) :=
  '(info, rc, st) ← lookupProvider fuel st type className nameSpace;
  match info with
  | PAt i =>
      d ← heap (regs st) !! i;
      Some (if negb (ptype d =? FORCE_PROVIDER_NOTFOUND) && fork i then MSG_X_PROVIDER i
            else MSG_X_PROVIDER_NOT_FOUND, st)
  | PForce => Some (MSG_X_PROVIDER_NOT_FOUND, st)
  | PNull => Some (if rc =? CMPI_RC_ERR_INVALID_NAMESPACE then MSG_X_INVALID_NAMESPACE
                   else MSG_X_INVALID_CLASS, st)
  end.

(** ** Associations *)

Fixpoint assoc_classes (fuel : nat) (st : mgr) (cls nameSpace : bytes) : option (prov_ptr * mgr) :=
  match fuel with
  | O => None
  | S fuel =>
      info ← getProvider (regs st) cls ASSOCIATION_PROVIDER;
      let st := match info with
                | Some i => match cache_get st assocProviderHt cls with
                            | None => cache_put st assocProviderHt cls i
                            | Some _ => st
                            end
                | None => st
                end in
      found ← walk_chain (regs st) nameSpace info;
      match found with
      | Some i => Some (PAt i, st)
      | None =>
          match getConstClass nameSpace cls with
          | inl _ => Some (PNull, st)
          | inr (Some super) => assoc_classes fuel st super nameSpace
          | inr None => Some (default_provider st, st)
          end
      end
  end.

Definition getAssocProvider (fuel : nat) (st : mgr) (className nameSpace : bytes) : option (prov_ptr * mgr) :=
  let st := open_cache st assocProviderHt in
  found ← walk_chain (regs st) nameSpace (cache_get st assocProviderHt className);
  match found with
  | Some i => Some (PAt i, st)
  | None => assoc_classes fuel st className nameSpace
  end.

(** ** Methods: the name spaces of a provider are not looked at *)

Fixpoint method_classes (fuel : nat) (st : mgr) (className cls nameSpace : bytes) : option (prov_ptr * mgr) :=
  match fuel with
  | O => None
  | S fuel =>
      info ← getProvider (regs st) cls METHOD_PROVIDER;
      match info with
      | Some i => Some (PAt i, cache_put st methodProviderHt className i)
      | None =>
          match getConstClass nameSpace cls with
          | inl _ => Some (PNull, st)
          | inr (Some super) => method_classes fuel st className super nameSpace
          | inr None => Some (if interopClass className then PForce else default_provider st, st)
          end
      end
  end.

Definition getMethodProvider (fuel : nat) (st : mgr) (className nameSpace : bytes) : option (prov_ptr * mgr) :=
  let st := open_cache st methodProviderHt in
  match cache_get st methodProviderHt className with
  | Some i => Some (PAt i, st)
  | None => if interopClass className then Some (interOp st, st)
            else method_classes fuel st className className nameSpace
  end.

(** ** Providers of a class and its subclasses *)

(** The list of the sfcCommon library: membership by pointer. *)
Context (ul_add : loc -> list loc -> list loc).

Fixpoint add_chain (fuel : nat) (r : registry T) (nameSpace : bytes) (ip : option loc) (lst : list loc)
  : option (list loc) :=
  match ip, fuel with
  | None, _ => Some lst
  | Some _, O => None
  | Some i, S fuel =>
      d ← heap r !! i;
      let lst := if bool_decide (providerName d <> None) && nameSpaceOk r i d nameSpace &&
                    bool_decide (i ∉ lst)
                 then ul_add i lst else lst in
      if negb (Z.land (ptype d) INDICATION_PROVIDER =? 0)
      then add_chain fuel r nameSpace (nextInRegister d) lst else Some lst
  end.

Fixpoint addProviders (fuel : nat) (st : mgr) (type : Z) (className nameSpace : bytes) (lst : list loc)
  : option (Z * list loc * mgr) :=
  match fuel with
  | O => None
  | S fuel =>
      '(ip, rc, st) ← lookupProvider fuel st type className nameSpace;
      match ip with
      | PNull => Some (rc, lst, st)
      | PForce => None
      | PAt i =>
          lst ← add_chain (size (heap (regs st))) (regs st) nameSpace (Some i) lst;
          match getConstClassChildren nameSpace className with
          | None => Some (0, lst, st)
          | Some children =>
              foldl (fun acc child =>
                       '(rc, lst, st) ← acc;
                       if rc =? 0 then addProviders fuel st type child nameSpace lst
                       else Some (rc, lst, st)) (Some (0, lst, st)) children
          end
      end
  end.
End Manager.
Arguments mgr : clear implicits.

(** * Specification *)

(** The classes from a class up to the root, or up to the first one the class
    provider does not know. *)
Section Lineage.
Context (getConstClass : bytes -> bytes -> Z + option bytes).

Inductive lineage (nameSpace : bytes) : bytes -> list bytes -> option Z -> Prop :=
| lineage_root c : getConstClass nameSpace c = inr None -> lineage nameSpace c [c] None
| lineage_unknown c rc : getConstClass nameSpace c = inl rc -> lineage nameSpace c [c] (Some rc)
| lineage_super c s l e : getConstClass nameSpace c = inr (Some s) -> lineage nameSpace s l e ->
    lineage nameSpace c (c :: l) e.
End Lineage.

Section Spec.
Context {T : Type} `{!CharHashTable T loc} (Hcase : ht_ignoreCase (T := T) (V := loc) = true).
Context (getConstClass : bytes -> bytes -> Z + option bytes) (disableDefaultProvider : bool).

Abbreviation lin := (lineage getConstClass).

(** The providers of a chain for a name space. *)
Definition serving_in (r : registry T) (nameSpace : bytes) (xs : list (loc * ProviderInfo)) : list loc :=
  places (filter (fun x => nameSpaceOk r x.1 x.2 nameSpace = true) xs).
(** The providers of one class; the type is that of the head. *)
Definition serving (r : registry T) (m : chains) (type : Z) (nameSpace cls : bytes) : list loc :=
  match m !! (tolower <$> cls : bytes) with
  | Some ((l, d) :: xs) => if Z.land (ptype d) type =? 0 then [] else serving_in r nameSpace ((l, d) :: xs)
  | _ => []
  end.
(** The providers of the nearest class that has any. *)
Fixpoint nearest (r : registry T) (m : chains) (type : Z) (nameSpace : bytes) (cs : list bytes)
  : option (bytes * list loc) :=
  match cs with
  | [] => None
  | c :: cs => match serving r m type nameSpace c with
               | [] => nearest r m type nameSpace cs
               | l => Some (c, l)
               end
  end.

Lemma nameSpaceOk_payload (r : registry T) l d nameSpace :
  nameSpaceOk r l (payload d) nameSpace = nameSpaceOk r l d nameSpace.
Proof. done. Qed.

Lemma serving_in_cons r nameSpace l d xs : serving_in r nameSpace ((l, d) :: xs)
  = if nameSpaceOk r l d nameSpace then l :: serving_in r nameSpace xs else serving_in r nameSpace xs.
Proof.
  unfold serving_in. rewrite filter_cons. cbn [fst snd].
  destruct (nameSpaceOk r l d nameSpace); [by rewrite decide_True|by rewrite decide_False].
Qed.

Lemma walk_ok r nameSpace xs : forall fuel i, chain (heap r) i xs -> (length xs <= fuel)%nat ->
  walk fuel r nameSpace i = Some (head (serving_in r nameSpace xs)).
Proof.
  induction xs as [|[l d] xs IH]; intros fuel i Hc Hf.
  - simpl in Hc. subst i. by destruct fuel.
  - destruct Hc as (-> & d' & Hd & <- & Hc). destruct fuel as [|fuel]; cbn [length] in Hf; [lia|].
    cbn [walk]. rewrite Hd. cbn [mbind option_bind]. rewrite serving_in_cons, nameSpaceOk_payload.
    destruct (nameSpaceOk r l d' nameSpace); [done|]. apply IH; [done|lia].
Qed.

Lemma walk_chain_ok r nameSpace i xs : chain (heap r) i xs -> NoDup (places xs) ->
  walk_chain r nameSpace i = Some (head (serving_in r nameSpace xs)).
Proof. intros Hc Hn. apply walk_ok; [done|]. by eapply chain_length. Qed.

Lemma walk_none (r : registry T) nameSpace : walk_chain r nameSpace None = Some None.
Proof. unfold walk_chain. by destruct (size (heap r)). Qed.

(** [getProvider] and the walk over its chain. *)
Lemma get_walk r m type nameSpace cls : represents r m ->
  exists info, getProvider r cls type = Some info /\
    walk_chain r nameSpace info = Some (head (serving r m type nameSpace cls)) /\
    (forall i, info = Some i -> exists d xs, m !! (tolower <$> cls : bytes) = Some ((i, d) :: xs) /\
       Z.land (ptype d) type <> 0) /\
    (info = None -> serving r m type nameSpace cls = []).
Proof.
  intros H. eexists. split; [by apply getProvider_head|]. unfold serving.
  destruct (m !! (_ : bytes)) as [[|[l d] xs]|] eqn:Hk; [by destruct (rep_chain _ _ H _ _ Hk)| |].
  - destruct (rep_chain _ _ H _ _ Hk) as [_ Hc]. cbn in Hc.
    destruct (Z.eqb_spec (Z.land (ptype d) type) 0) as [E|E]; cbn [negb].
    + split; [apply walk_none|]. by split.
    + split; [|split; [|done]].
      * apply (walk_chain_ok r nameSpace _ ((l, d) :: xs)); [exact Hc|]. by apply (rep_nodup _ _ H _ _ Hk).
      * intros i [= <-]. by exists d, xs.
  - split; [apply walk_none|]. by split.
Qed.

(** What a table may hold: for a class, a provider of the chain of that class. *)
Definition cache_ok (st : mgr T) (m : chains) (c : cache_id) (type : Z) : Prop :=
  forall k i, cache_get st c k = Some i -> exists l d xs e post pre,
    m !! (tolower <$> k : bytes) = Some ((l, d) :: xs) /\ Z.land (ptype d) type <> 0 /\
    (l, d) :: xs = pre ++ (i, e) :: post.

(** For associations: the head of the chain. *)
Definition heads_ok (st : mgr T) (m : chains) : Prop :=
  forall k i, cache_get st assocProviderHt k = Some i -> exists d xs,
    m !! (tolower <$> k : bytes) = Some ((i, d) :: xs) /\ Z.land (ptype d) ASSOCIATION_PROVIDER <> 0.

Lemma open_cache_get st c c' k : cache_get (open_cache st c) c' k = cache_get st c' k.
Proof.
  unfold open_cache. destruct (caches st c) as [t|] eqn:E; [done|]. unfold cache_get. cbn.
  destruct (decide (c = c')) as [<-|]; [|done]. by rewrite E, ht_get_new.
Qed.

Lemma open_cache_open st c : caches (open_cache st c) c <> None.
Proof. unfold open_cache. destruct (caches st c) eqn:E; [by rewrite E|]. cbn. by rewrite decide_True. Qed.

Lemma open_cache_regs st c : regs (open_cache st c) = regs st.
Proof. unfold open_cache. by destruct (caches st c). Qed.

Lemma cache_put_get st c k i k' : caches st c <> None ->
  cache_get (cache_put st c k i) c k' = if same_key true k k' then Some i else cache_get st c k'.
Proof.
  intros Hc. unfold cache_put, cache_get. destruct (caches st c) as [t|] eqn:E; [|done]. cbn.
  by rewrite decide_True, ht_get_put, Hcase.
Qed.

Lemma cache_put_regs st c k i : regs (cache_put st c k i) = regs st.
Proof. unfold cache_put. by destruct (caches st c). Qed.

Lemma cache_put_other st c c' k i k' : c <> c' ->
  cache_get (cache_put st c k i) c' k' = cache_get st c' k'.
Proof.
  intros Hc. unfold cache_put. destruct (caches st c) as [t|]; [|done]. unfold cache_get. cbn.
  by rewrite decide_False.
Qed.

Lemma filter_chain r nameSpace pre i e post j :
  j ∈ serving_in r nameSpace ((i, e) :: post) -> j ∈ serving_in r nameSpace (pre ++ (i, e) :: post).
Proof.
  unfold serving_in, places. rewrite filter_app, fmap_app. intros H. apply elem_of_app. by right.
Qed.

(** A place of a chain heads a chain. *)
Lemma chain_suffix h i pre l d post : chain h i (pre ++ (l, d) :: post) -> chain h (Some l) ((l, d) :: post).
Proof.
  revert i. induction pre as [|[x e] pre IH]; intros i; cbn [app].
  - intros [-> H]. by split.
  - intros (_ & d' & _ & _ & H). by eapply IH.
Qed.

Lemma nodup_suffix pre (l : loc) (d : ProviderInfo) post :
  NoDup (places (pre ++ (l, d) :: post)) -> NoDup (places ((l, d) :: post)).
Proof. unfold places. rewrite fmap_app. by intros (_ & _ & H)%NoDup_app. Qed.

(** Walking from a remembered provider: a provider of the class, or none. *)
Lemma cache_walk st m c type nameSpace k i : represents (regs st) m -> cache_ok st m c type ->
  cache_get st c k = Some i -> exists found, walk_chain (regs st) nameSpace (Some i) = Some found /\
    forall j, found = Some j -> j ∈ serving (regs st) m type nameSpace k.
Proof.
  intros H Hc Hk. destruct (Hc k i Hk) as (l & d & xs & e & post & pre & Hm & Ht & E).
  destruct (rep_chain _ _ H _ _ Hm) as [_ Hch]. pose proof (rep_nodup _ _ H _ _ Hm) as Hnd.
  rewrite E in Hch, Hnd. eexists. split.
  - apply (walk_chain_ok _ nameSpace _ ((i, e) :: post)); [by eapply chain_suffix|by eapply nodup_suffix].
  - intros j Hj. unfold serving. rewrite Hm, (proj2 (Z.eqb_neq _ _) Ht), E. apply filter_chain.
    destruct (serving_in _ _ ((i, e) :: post)) as [|j' js]; [done|]. injection Hj as ->. apply list_elem_of_here.
Qed.

(** The end of a search without a provider. *)
Definition not_served (st : mgr T) (e : option Z) : prov_ptr * Z :=
  match e with Some rc => (PNull, rc) | None => (default_provider disableDefaultProvider st, 0) end.
Definition answer_of (st : mgr T) (n : option (bytes * list loc)) (e : option Z) : prov_ptr * Z :=
  match n with Some (_, i :: _) => (PAt i, 0) | _ => not_served st e end.

Lemma serving_chain (r : registry T) m type nameSpace cls i : i ∈ serving r m type nameSpace cls ->
  exists l d xs e post pre, m !! (tolower <$> cls : bytes) = Some ((l, d) :: xs) /\
    Z.land (ptype d) type <> 0 /\ (l, d) :: xs = pre ++ (i, e) :: post.
Proof.
  unfold serving. destruct (m !! (_ : bytes)) as [[|[l d] xs]|] eqn:Hk; [by intros ?%elem_of_nil| |by intros ?%elem_of_nil].
  destruct (Z.eqb_spec (Z.land (ptype d) type) 0) as [E|E]; [by intros ?%elem_of_nil|].
  unfold serving_in, places. intros ([i' e] & -> & Hin%list_elem_of_filter)%list_elem_of_fmap. destruct Hin as [_ Hin].
  apply list_elem_of_split in Hin as (pre & post & E').
  by exists l, d, xs, e, post, pre.
Qed.

Lemma cache_put_ok st m c type k i nameSpace : cache_ok st m c type -> caches st c <> None ->
  i ∈ serving (regs st) m type nameSpace k -> cache_ok (cache_put st c k i) m c type.
Proof.
  intros Hc Ho Hi k' i'. rewrite cache_put_get by done. destruct (same_key true k k') eqn:E; [|by apply Hc].
  intros [= <-]. apply same_key_nocase in E. rewrite <- E. by eapply serving_chain.
Qed.

Lemma cache_get_same st c k k' : same_key true k k' = true -> cache_get st c k = cache_get st c k'.
Proof.
  intros E. unfold cache_get. destruct (caches st c); [|done]. apply ht_get_same. by rewrite Hcase.
Qed.

(** [cache_get] after a provider was found for a class. *)
Definition remembered (st : mgr T) (c : cache_id) (n : option (bytes * list loc)) (k : bytes) : option loc :=
  match cache_get st c k, n with
  | None, Some (k', i :: _) => if same_key true k' k then Some i else None
  | o, _ => o
  end.

Lemma remember_ok st m c type nameSpace cls i l :
  serving (regs st) m type nameSpace cls = i :: l -> cache_ok st m c type -> caches st c <> None ->
  let st' := match cache_get st c cls with None => cache_put st c cls i | Some _ => st end in
  regs st' = regs st /\ cache_ok st' m c type /\
  forall k, cache_get st' c k = remembered st c (Some (cls, i :: l)) k.
Proof.
  intros Hs Hc Ho st'. subst st'. unfold remembered. destruct (cache_get st c cls) as [j|] eqn:Ec.
  - split_and!; try done. intros k. destruct (cache_get st c k) eqn:Ek; [done|].
    destruct (same_key true cls k) eqn:E; [|done]. rewrite (cache_get_same st c cls k E) in Ec. congruence.
  - split; [apply cache_put_regs|]. split.
    + eapply cache_put_ok; try done. rewrite Hs. apply list_elem_of_here.
    + intros k. rewrite cache_put_get by done. destruct (same_key true cls k) eqn:E.
      * by rewrite <- (cache_get_same st c cls k E), Ec.
      * by destruct (cache_get st c k).
Qed.

Lemma lookup_classes_ok c type nameSpace cls ls e st m fuel :
  lin nameSpace cls ls e -> represents (regs st) m -> cache_ok st m c type -> caches st c <> None ->
  (length ls <= fuel)%nat ->
  exists st', lookup_classes getConstClass disableDefaultProvider fuel st c type cls nameSpace
    = Some (answer_of st (nearest (regs st) m type nameSpace ls) e, st') /\
    regs st' = regs st /\ cache_ok st' m c type /\
    forall k, cache_get st' c k = remembered st c (nearest (regs st) m type nameSpace ls) k.
Proof.
  intros Hl H Hc Ho. revert fuel.
  assert (Hnone : forall k, cache_get st c k = remembered st c None k)
    by (intros k; unfold remembered; by destruct (cache_get st c k)).
  induction Hl as [cls Hg|cls rc Hg|cls s ls e Hg Hl IH]; intros fuel Hf;
    (destruct fuel as [|fuel]; cbn [length] in Hf; [lia|]); cbn [lookup_classes nearest];
    destruct (get_walk (regs st) m type nameSpace cls H) as (info & -> & Hw & _ & _);
    cbn [mbind option_bind]; rewrite Hw; cbn [mbind option_bind];
    (destruct (serving (regs st) m type nameSpace cls) as [|i l] eqn:Es; cbn [head];
      [rewrite Hg|eexists; split; [done|by apply (remember_ok st m c type nameSpace)]]).
  1,2: by exists st.
  apply IH. lia.
Qed.

Lemma lookup_ok st m c type nameSpace cls ls e fuel :
  provHt type = Some c -> lin nameSpace cls ls e -> represents (regs st) m -> cache_ok st m c type ->
  (length ls <= fuel)%nat ->
  exists p rc st', lookupProvider getConstClass disableDefaultProvider fuel st type cls nameSpace
      = Some (p, rc, st') /\ regs st' = regs st /\ cache_ok st' m c type /\
    match nearest (regs st) m type nameSpace ls with
    | Some (_, l) => exists i, p = PAt i /\ i ∈ l /\ rc = 0 /\ (cache_get st c cls = None -> head l = Some i)
    | None => (p, rc) = not_served st e
    end.
Proof.
  intros Hp Hl H Hc Hf. unfold lookupProvider. rewrite Hp. cbn [mbind option_bind].
  set (st0 := open_cache st c). pose proof (open_cache_regs st c) as Hr. fold st0 in Hr.
  assert (Hc0 : cache_ok st0 m c type) by (intros k i; unfold st0; rewrite open_cache_get; apply Hc).
  assert (Hget : cache_get st0 c cls = cache_get st c cls) by apply open_cache_get.
  assert (Hslow : exists st', lookup_classes getConstClass disableDefaultProvider fuel st0 c type cls nameSpace
    = Some (answer_of st0 (nearest (regs st) m type nameSpace ls) e, st') /\
    regs st' = regs st /\ cache_ok st' m c type).
  { destruct (lookup_classes_ok c type nameSpace cls ls e st0 m fuel Hl) as (st' & E & Hr' & Hc' & _);
      [by rewrite Hr|done|apply open_cache_open|done|]. rewrite Hr in E, Hr'. by exists st'. }
  assert (Hfin : forall q, q = answer_of st0 (nearest (regs st) m type nameSpace ls) e ->
    match nearest (regs st) m type nameSpace ls with
    | Some (_, l) => exists i, q.1 = PAt i /\ i ∈ l /\ q.2 = 0 /\ (cache_get st c cls = None -> head l = Some i)
    | None => q = not_served st e
    end).
  { intros q ->. destruct (nearest _ _ _ _ ls) as [[k [|i l]]|] eqn:En; cbn.
    - exfalso. clear -En. induction ls as [|x ls IH]; [done|]. cbn in En.
      by destruct (serving _ _ _ _ x).
    - exists i. split_and!; try done. apply list_elem_of_here.
    - unfold not_served, default_provider. by rewrite Hr. }
  rewrite Hget. destruct (cache_get st c cls) as [i|] eqn:Ec.
  - rewrite <- Hr in H. destruct (cache_walk st0 m c type nameSpace cls i H Hc0 Hget) as (found & -> & Hw).
    cbn [mbind option_bind]. destruct found as [j|].
    + exists (PAt j), 0, st0. split; [done|]. split; [done|]. split; [done|].
      specialize (Hw j eq_refl). rewrite Hr in Hw.
      assert (En : nearest (regs st) m type nameSpace ls = Some (cls, serving (regs st) m type nameSpace cls)).
      { destruct Hl; cbn; by destruct (serving _ _ _ _ _) as [|? ?]; [apply elem_of_nil in Hw|]. }
      rewrite En. by exists j.
    + destruct Hslow as (st' & E & Hr' & Hc'). destruct (answer_of _ _ _) as [p rc] eqn:Ea.
      exists p, rc, st'. split; [done|]. split; [done|]. split; [done|]. by specialize (Hfin _ eq_refl).
  - rewrite walk_none. cbn [mbind option_bind]. destruct Hslow as (st' & E & Hr' & Hc').
    destruct (answer_of _ _ _) as [p rc] eqn:Ea.
    exists p, rc, st'. split; [done|]. split; [done|]. split; [done|]. by specialize (Hfin _ eq_refl).
Qed.

(** C14: the provider of a request is one of the nearest class among the class and its
    superclasses that has a provider of the type for the name space; the first in
    its chain when the class was not asked for before.  Without one the answer is
    the default provider, or no provider and the code of the class provider when
    a class of the lineage is unknown. *)
Theorem lookupProvider_nearest st m c type nameSpace cls ls e fuel :
  provHt type = Some c -> lin nameSpace cls ls e -> represents (regs st) m -> cache_ok st m c type ->
  (length ls <= fuel)%nat ->
  exists p rc st', lookupProvider getConstClass disableDefaultProvider fuel st type cls nameSpace
      = Some (p, rc, st') /\ regs st' = regs st /\ cache_ok st' m c type /\
    match nearest (regs st) m type nameSpace ls with
    | Some (_, l) => exists i, p = PAt i /\ i ∈ l /\ rc = 0 /\ (cache_get st c cls = None -> head l = Some i)
    | None => (p, rc) = not_served st e
    end.
Proof. apply lookup_ok. Qed.

(** ** Associations *)

Lemma remember_head st m nameSpace cls info : represents (regs st) m -> heads_ok st m ->
  caches st assocProviderHt <> None ->
  (forall i, info = Some i -> exists d xs, m !! (tolower <$> cls : bytes) = Some ((i, d) :: xs) /\
     Z.land (ptype d) ASSOCIATION_PROVIDER <> 0) ->
  let st' := match info with
             | Some i => match cache_get st assocProviderHt cls with
                         | None => cache_put st assocProviderHt cls i
                         | Some _ => st
                         end
             | None => st
             end in
  regs st' = regs st /\ heads_ok st' m /\ caches st' assocProviderHt <> None /\
  walk_chain (regs st') nameSpace info = walk_chain (regs st) nameSpace info.
Proof.
  intros H Hh Ho Hi st'. subst st'. destruct info as [i|]; [|done].
  destruct (cache_get st assocProviderHt cls) as [j|]; [done|].
  rewrite cache_put_regs. split; [done|]. split; [|split; [|done]].
  - intros k i'. rewrite cache_put_get by done. destruct (same_key true cls k) eqn:E; [|by apply Hh].
    intros [= <-]. apply same_key_nocase in E. rewrite <- E. by apply Hi.
  - unfold cache_put. destruct (caches st assocProviderHt); [|done]. cbn. by rewrite decide_True.
Qed.

Lemma assoc_classes_ok nameSpace cls ls e m : lin nameSpace cls ls e -> forall st fuel,
  represents (regs st) m -> heads_ok st m -> caches st assocProviderHt <> None -> (length ls <= fuel)%nat ->
  exists st', assoc_classes getConstClass disableDefaultProvider fuel st cls nameSpace
    = Some ((answer_of st (nearest (regs st) m ASSOCIATION_PROVIDER nameSpace ls) e).1, st') /\
    regs st' = regs st /\ heads_ok st' m.
Proof.
  induction 1 as [cls Hg|cls rc Hg|cls s ls e Hg Hl IH]; intros st fuel H Hh Ho Hf;
    (destruct fuel as [|fuel]; cbn [length] in Hf; [lia|]); cbn [assoc_classes nearest];
    destruct (get_walk (regs st) m ASSOCIATION_PROVIDER nameSpace cls H) as (info & -> & Hw & Hi & _);
    cbn [mbind option_bind]; destruct (remember_head st m nameSpace cls info H Hh Ho Hi) as (Hr & Hh' & Ho' & Hw');
    set (st' := match info with Some _ => _ | None => _ end) in *; rewrite Hw', Hw; cbn [mbind option_bind];
    (destruct (serving (regs st) m ASSOCIATION_PROVIDER nameSpace cls) as [|i l] eqn:Es; cbn [head];
      [rewrite Hg|by exists st']).
  1,2: exists st'; unfold answer_of, not_served, default_provider; rewrite Hr; by split_and!.
  destruct (IH st' fuel) as (st2 & E & Hr2 & Hh2); [by rewrite Hr|done|done|lia|].
  exists st2. rewrite E, Hr2, Hr. unfold answer_of, not_served, default_provider. rewrite Hr. by split_and!.
Qed.

(** For associations the table does not show: the answer is always the first
    provider of the nearest class that has any for the name space, whatever was
    asked before, else the default provider or none. *)
Theorem getAssocProvider_nearest st m nameSpace cls ls e fuel :
  lin nameSpace cls ls e -> represents (regs st) m -> heads_ok st m -> (length ls <= fuel)%nat ->
  exists st', getAssocProvider getConstClass disableDefaultProvider fuel st cls nameSpace
      = Some ((answer_of st (nearest (regs st) m ASSOCIATION_PROVIDER nameSpace ls) e).1, st') /\
    regs st' = regs st /\ heads_ok st' m.
Proof.
  intros Hl H Hh Hf. unfold getAssocProvider.
  set (st0 := open_cache st assocProviderHt). pose proof (open_cache_regs st assocProviderHt) as Hr. fold st0 in Hr.
  assert (Hh0 : heads_ok st0 m) by (intros k i; unfold st0; rewrite open_cache_get; apply Hh).
  destruct (assoc_classes_ok nameSpace cls ls e m Hl st0 fuel) as (st' & E & Hr' & Hh');
    [by rewrite Hr|done|apply open_cache_open|done|].
  rewrite Hr in E, Hr'. unfold answer_of, not_served, default_provider in E |- *. rewrite Hr in E.
  destruct (cache_get st0 assocProviderHt cls) as [i|] eqn:Ec.
  - destruct (Hh0 cls i Ec) as (d & xs & Hk & Ht).
    destruct (rep_chain _ _ H _ _ Hk) as [_ Hc].
    rewrite Hr, (walk_chain_ok (regs st) nameSpace (Some i) _ Hc) by apply (rep_nodup _ _ H _ _ Hk).
    assert (Es : serving (regs st) m ASSOCIATION_PROVIDER nameSpace cls = serving_in (regs st) nameSpace ((i, d) :: xs))
      by (unfold serving; by rewrite Hk, (proj2 (Z.eqb_neq _ _) Ht)).
    cbn [mbind option_bind]. destruct (serving_in _ _ ((i, d) :: xs)) as [|j l] eqn:Ej; cbn [head]; [by exists st'|].
    exists st0. split; [|done]. assert (En : nearest (regs st) m ASSOCIATION_PROVIDER nameSpace ls = Some (cls, j :: l))
      by (destruct Hl; cbn; by rewrite Es).
    by rewrite En.
  - rewrite walk_none. cbn [mbind option_bind]. by exists st'.
Qed.

(** ** The table of [lookupProvider] shows *)

Lemma lookup_first st m c type nameSpace cls ls e fuel i l :
  provHt type = Some c -> lin nameSpace cls ls e -> represents (regs st) m -> cache_ok st m c type ->
  (length ls <= fuel)%nat -> cache_get st c cls = None -> serving (regs st) m type nameSpace cls = i :: l ->
  exists st', lookupProvider getConstClass disableDefaultProvider fuel st type cls nameSpace
      = Some (PAt i, 0, st') /\ regs st' = regs st /\ cache_get st' c cls = Some i.
Proof.
  intros Hp Hl H Hc Hf Hk Hs. unfold lookupProvider. rewrite Hp. cbn [mbind option_bind].
  set (st0 := open_cache st c). pose proof (open_cache_regs st c) as Hr. fold st0 in Hr.
  assert (Hget : cache_get st0 c cls = None) by (unfold st0; by rewrite open_cache_get).
  rewrite Hget, walk_none. cbn [mbind option_bind].
  destruct (lookup_classes_ok c type nameSpace cls ls e st0 m fuel Hl) as (st' & E & Hr' & _ & Hc');
    [by rewrite Hr|intros k j; unfold st0; rewrite open_cache_get; apply Hc|apply open_cache_open|done|].
  rewrite Hr in E, Hr', Hc'.
  assert (En : nearest (regs st) m type nameSpace ls = Some (cls, i :: l)) by (destruct Hl; cbn; by rewrite Hs).
  rewrite En in E, Hc'. exists st'. split; [exact E|]. split; [exact Hr'|].
  rewrite Hc'. unfold remembered. by rewrite Hget, same_key_refl.
Qed.

(** The answer depends on what was asked before: of two providers of a class, the
    first for one name space and the second for both, the second one is given for
    the first name space once it was looked up for the other. *)
Theorem lookup_depends_on_history st m c type cls ns1 ns2 ls1 ls2 e1 e2 fuel a da b db :
  provHt type = Some c -> represents (regs st) m -> cache_ok st m c type -> cache_get st c cls = None ->
  lin ns1 cls ls1 e1 -> lin ns2 cls ls2 e2 -> (length ls1 <= fuel)%nat -> (length ls2 <= fuel)%nat ->
  m !! (tolower <$> cls : bytes) = Some [(a, da); (b, db)] -> Z.land (ptype da) type <> 0 ->
  nameSpaceOk (regs st) a da ns1 = true -> nameSpaceOk (regs st) a da ns2 = false ->
  nameSpaceOk (regs st) b db ns1 = true -> nameSpaceOk (regs st) b db ns2 = true ->
  exists st1 st2 st3,
    lookupProvider getConstClass disableDefaultProvider fuel st type cls ns1 = Some (PAt a, 0, st1) /\
    lookupProvider getConstClass disableDefaultProvider fuel st type cls ns2 = Some (PAt b, 0, st2) /\
    lookupProvider getConstClass disableDefaultProvider fuel st2 type cls ns1 = Some (PAt b, 0, st3).
Proof.
  intros Hp H Hc Hk Hl1 Hl2 Hf1 Hf2 Hm Ht A1 A2 B1 B2.
  assert (Hs : forall nsx, serving (regs st) m type nsx cls = serving_in (regs st) nsx [(a, da); (b, db)]).
  { intros nsx. unfold serving. by rewrite Hm, (proj2 (Z.eqb_neq _ _) Ht). }
  destruct (lookup_first st m c type ns1 cls ls1 e1 fuel a [b]) as (st1 & E1 & _ & _); try done.
  { by rewrite Hs, !serving_in_cons, A1, B1. }
  destruct (lookup_first st m c type ns2 cls ls2 e2 fuel b []) as (st2 & E2 & Hr2 & Hk2); try done.
  { by rewrite Hs, !serving_in_cons, A2, B2. }
  exists st1, st2, (open_cache st2 c). split; [exact E1|]. split; [exact E2|].
  unfold lookupProvider. rewrite Hp. cbn [mbind option_bind].
  rewrite open_cache_get, Hk2, open_cache_regs, Hr2.
  destruct (rep_chain _ _ H _ _ Hm) as [_ (_ & d' & Hd & _ & (_ & d2 & Hd2 & <- & Hn))].
  unfold walk_chain. destruct (size (heap (regs st))) eqn:Es.
  - apply map_size_empty_inv in Es. by rewrite Es in Hd2.
  - cbn [walk]. rewrite Hd2. cbn [mbind option_bind]. by rewrite nameSpaceOk_payload in B1; rewrite B1.
Qed.
(** ** All providers of a class and its subclasses *)

Context (getConstClassChildren : bytes -> bytes -> option (list bytes)).
Context (ul_add : loc -> list loc -> list loc)
  (Hadd : forall i l, ul_add i l ≡ₚ i :: l).

Abbreviation add_all := (addProviders getConstClass getConstClassChildren disableDefaultProvider ul_add).

(** The tree of subclasses has height at most [n], and so have the lineages. *)
Inductive class_tree (nameSpace : bytes) : nat -> bytes -> Prop :=
| class_tree_node n cls ls e : lin nameSpace cls ls e -> (length ls <= n)%nat ->
    (forall cs c, getConstClassChildren nameSpace cls = Some cs -> c ∈ cs -> class_tree nameSpace n c) ->
    class_tree nameSpace (S n) cls.

Inductive below (nameSpace : bytes) : bytes -> bytes -> Prop :=
| below_refl c : below nameSpace c c
| below_child c cs c' d : getConstClassChildren nameSpace c = Some cs -> c' ∈ cs ->
    below nameSpace c' d -> below nameSpace c d.

(** Listed providers have a name and serve the name space; none is listed twice. *)
Definition listed_ok (r : registry T) (nameSpace : bytes) (lst : list loc) : Prop :=
  NoDup lst /\ forall i, i ∈ lst -> exists d, heap r !! i = Some d /\ providerName d <> None /\
    nameSpaceOk r i d nameSpace = true.

Lemma used_item r m i : represents r m -> used m i ->
  exists d k pre post, heap r !! i = Some d /\ complete d /\ m !! k = Some (pre ++ (i, payload d) :: post) /\
    chain (heap r) (Some i) ((i, payload d) :: post).
Proof.
  intros H (k & xs & Hk & Hi). unfold places in Hi. apply list_elem_of_fmap in Hi as ([i' e] & -> & Hi). cbn [fst].
  apply list_elem_of_split in Hi as (pre & post & ->).
  destruct (rep_chain _ _ H _ _ Hk) as [_ Hc]. pose proof (chain_suffix _ _ _ _ _ _ Hc) as Hc'.
  destruct Hc' as (_ & d & Hd & <- & Hn). exists d, k, pre, post. split_and!; try done.
  - refine (proj1 (rep_item _ _ H k (pre ++ (i', payload d) :: post) i' (payload d) Hk _)).
    apply elem_of_app. right. apply list_elem_of_here.
  - split; [done|by exists d].
Qed.

Lemma add_one_ok r nameSpace i d lst : heap r !! i = Some d ->
  let lst' := if bool_decide (providerName d <> None) && nameSpaceOk r i d nameSpace && bool_decide (i ∉ lst)
              then ul_add i lst else lst in
  (listed_ok r nameSpace lst -> listed_ok r nameSpace lst') /\ (forall x, x ∈ lst -> x ∈ lst') /\
  (providerName d <> None -> nameSpaceOk r i d nameSpace = true -> i ∈ lst').
Proof.
  intros Hd. cbv zeta. destruct (bool_decide_reflect (providerName d <> None)) as [Hp|Hp]; [|split_and!; done].
  destruct (nameSpaceOk r i d nameSpace) eqn:Hn; [|split_and!; done].
  destruct (bool_decide_reflect (i ∉ lst)) as [Hi|Hi]; cbn [andb].
  - split_and!; [|intros x Hx; rewrite Hadd; by apply list_elem_of_further|intros _ _; rewrite Hadd; apply list_elem_of_here].
    intros [H1 H2]. split; [rewrite Hadd; by apply NoDup_cons|]. intros x. rewrite Hadd, elem_of_cons.
    intros [->|Hx]; [by exists d|by apply H2].
  - split_and!; try done. intros _ _. by destruct (decide (i ∈ lst)).
Qed.

Lemma add_chain_ok r nameSpace xs : forall fuel ip lst, chain (heap r) ip xs -> (length xs <= fuel)%nat ->
  exists lst', add_chain ul_add fuel r nameSpace ip lst = Some lst' /\
    (listed_ok r nameSpace lst -> listed_ok r nameSpace lst') /\ (forall x, x ∈ lst -> x ∈ lst') /\
    (forall i d, ip = Some i -> heap r !! i = Some d -> providerName d <> None ->
       nameSpaceOk r i d nameSpace = true -> i ∈ lst').
Proof.
  induction xs as [|[l d] xs IH]; intros fuel ip lst Hc Hf.
  - simpl in Hc. subst ip. exists lst. by destruct fuel.
  - destruct Hc as (-> & d' & Hd & <- & Hc). destruct fuel as [|fuel]; cbn [length] in Hf; [lia|].
    cbn [add_chain]. rewrite Hd. cbn [mbind option_bind].
    destruct (add_one_ok r nameSpace l d' lst Hd) as (H1 & H2 & H3).
    set (lst1 := if _ && _ && _ then _ else _) in *.
    destruct (negb _); [|by exists lst1; split_and!; try done; intros i e [= <-] He; simplify_eq; apply H3].
    destruct (IH fuel _ lst1 Hc ltac:(lia)) as (lst' & E & H1' & H2' & _). exists lst'.
    split_and!; [done|auto|auto|]. intros i e [= <-] He Hn Ho. simplify_eq. auto.
Qed.

(** The members of [serving] are registered, named and serve the name space. *)
Lemma serving_item r m type nameSpace cls i : represents r m -> i ∈ serving r m type nameSpace cls ->
  used m i /\ forall d, heap r !! i = Some d -> providerName d <> None /\ nameSpaceOk r i d nameSpace = true.
Proof.
  intros H Hi. unfold serving in Hi.
  destruct (m !! (_ : bytes)) as [[|[l d0] xs]|] eqn:Hk; [by apply elem_of_nil in Hi| |by apply elem_of_nil in Hi].
  destruct (_ =? 0); [by apply elem_of_nil in Hi|].
  unfold serving_in, places in Hi. apply list_elem_of_fmap in Hi as ([i' e] & -> & Hin).
  apply list_elem_of_filter in Hin as [Hok Hin]. cbn [fst snd] in *.
  assert (Hu : used m i') by (eexists _, _; split; [exact Hk|]; apply list_elem_of_fmap; by exists (i', e)).
  split; [done|]. intros d Hd.
  apply list_elem_of_split in Hin as (pre & post & E). destruct (rep_chain _ _ H _ _ Hk) as [_ Hc].
  rewrite E in Hc. apply chain_suffix in Hc as (_ & d' & Hd' & <- & _).
  rewrite Hd in Hd'. injection Hd' as <-.
  assert (Hin : (i', payload d) ∈ (l, d0) :: xs)
    by (rewrite E; apply elem_of_app; right; apply list_elem_of_here).
  destruct (rep_item _ _ H _ _ i' (payload d) Hk Hin) as [[[n Hn] _] _].
  split; [cbn in Hn; congruence|done].
Qed.

Lemma nearest_serving r m type nameSpace ls k l : nearest r m type nameSpace ls = Some (k, l) ->
  exists c, c ∈ ls /\ l = serving r m type nameSpace c.
Proof.
  induction ls as [|c ls IH]; [done|]. cbn. destruct (serving r m type nameSpace c) as [|i l'] eqn:E.
  - intros Hn. destruct (IH Hn) as (c' & Hc & ->). exists c'. split; [by apply list_elem_of_further|done].
  - intros [= <- <-]. exists c. split; [apply list_elem_of_here|by rewrite E].
Qed.

Lemma lineage_fun nameSpace c ls e ls' e' : lin nameSpace c ls e -> lin nameSpace c ls' e' -> ls = ls' /\ e = e'.
Proof.
  intros H. revert ls' e'. induction H as [c Hg|c rc Hg|c s ls e Hg Hl IH]; intros ls' e' H'; inversion H'; subst;
    try congruence; try (split; congruence).
  rewrite Hg in H. injection H as <-. by destruct (IH _ _ H0) as [-> ->].
Qed.

(** What a call does to the list and the state. *)
Definition add_result (st st' : mgr T) (m : chains) (c : cache_id) (type : Z) (nameSpace : bytes)
    (lst lst' : list loc) : Prop :=
  regs st' = regs st /\ cache_ok st' m c type /\
  (listed_ok (regs st) nameSpace lst -> listed_ok (regs st) nameSpace lst') /\
  forall x, x ∈ lst -> x ∈ lst'.
Definition serves (st : mgr T) (m : chains) (type : Z) (nameSpace d : bytes) (lst : list loc) : Prop :=
  forall ls e k l, lin nameSpace d ls e -> nearest (regs st) m type nameSpace ls = Some (k, l) ->
    exists i, i ∈ l /\ i ∈ lst.

Section Add.
Context (m : chains) (c : cache_id) (type : Z) (nameSpace : bytes).
Context (Hp : provHt type = Some c) (Hdef : disableDefaultProvider = false)
  (Hrc : forall k, getConstClass nameSpace k <> inl 0).

Lemma add_result_refl st lst : cache_ok st m c type -> add_result st st m c type nameSpace lst lst.
Proof. done. Qed.

Lemma add_result_trans st1 st2 st3 l1 l2 l3 :
  add_result st1 st2 m c type nameSpace l1 l2 -> add_result st2 st3 m c type nameSpace l2 l3 ->
  add_result st1 st3 m c type nameSpace l1 l3.
Proof.
  intros (R1 & C1 & L1 & S1) (R2 & C2 & L2 & S2). unfold add_result. rewrite R1 in *. split_and!; auto; congruence.
Qed.

Lemma serves_mono st st' d lst lst' : regs st' = regs st -> (forall x, x ∈ lst -> x ∈ lst') ->
  serves st m type nameSpace d lst -> serves st' m type nameSpace d lst'.
Proof.
  intros Hr Hs H ls e k l Hl Hn. rewrite Hr in Hn. destruct (H ls e k l Hl Hn) as (i & Hi & Hi').
  exists i. auto.
Qed.

(** What is to be shown of one class. *)
Definition adds_ok (n : nat) (cls : bytes) : Prop := forall st lst,
  represents (regs st) m -> cache_ok st m c type ->
  (exists i, defaultProvInfoPtr (regs st) = Some i /\ used m i) ->
  exists rc lst' st', add_all n st type cls nameSpace lst = Some (rc, lst', st') /\
    add_result st st' m c type nameSpace lst lst' /\
    (rc = 0 -> forall d, below nameSpace cls d -> serves st m type nameSpace d lst').

Lemma add_children n cs : (forall child, child ∈ cs -> adds_ok n child) -> forall rc st lst,
  represents (regs st) m -> cache_ok st m c type ->
  (exists i, defaultProvInfoPtr (regs st) = Some i /\ used m i) ->
  exists rc' lst' st',
    foldl (fun acc child => '(rc, lst, st) ← acc;
             if rc =? 0 then add_all n st type child nameSpace lst else Some (rc, lst, st))
      (Some (rc, lst, st)) cs = Some (rc', lst', st') /\
    add_result st st' m c type nameSpace lst lst' /\
    (rc' = 0 -> rc = 0 /\ forall child d, child ∈ cs -> below nameSpace child d ->
       serves st m type nameSpace d lst').
Proof.
  induction cs as [|x cs IH]; intros Hcs rc st lst H Hc Hd.
  - exists rc, lst, st. split_and!; try done. intros ->. split; [done|]. by intros ? ? ?%elem_of_nil.
  - cbn [foldl mbind option_bind]. destruct (Z.eqb_spec rc 0) as [->|Hne].
    + destruct (Hcs x (list_elem_of_here _ _) st lst H Hc Hd) as (rc1 & l1 & st1 & -> & R1 & S1).
      destruct (IH (fun y Hy => Hcs y (list_elem_of_further _ _ _ Hy)) rc1 st1 l1) as (rc2 & l2 & st2 & E & R2 & S2).
      * by destruct R1 as [-> _].
      * by apply R1.
      * by destruct R1 as [-> _].
      * exists rc2, l2, st2. split; [exact E|]. split; [by eapply add_result_trans|]. intros Hz.
        destruct (S2 Hz) as [-> S2']. split; [done|]. intros child d Hin Hb.
        apply elem_of_cons in Hin as [->|Hin].
        -- eapply (serves_mono st st); [done| |by apply S1]. apply R2.
        -- eapply (serves_mono st1 st); [by destruct R1 as [-> _]|done|]. by eapply S2'.
    + destruct (IH (fun y Hy => Hcs y (list_elem_of_further _ _ _ Hy)) rc st lst H Hc Hd)
        as (rc2 & l2 & st2 & E & R2 & S2).
      exists rc2, l2, st2. split; [exact E|]. split; [done|]. intros Hz. by destruct (S2 Hz).
Qed.

(** Entering the provider found for the class itself. *)
Lemma add_own st i lst : represents (regs st) m -> used m i ->
  exists lst', add_chain ul_add (size (heap (regs st))) (regs st) nameSpace (Some i) lst = Some lst' /\
    (listed_ok (regs st) nameSpace lst -> listed_ok (regs st) nameSpace lst') /\
    (forall x, x ∈ lst -> x ∈ lst') /\
    forall cls, i ∈ serving (regs st) m type nameSpace cls -> i ∈ lst'.
Proof.
  intros H Hu. destruct (used_item _ _ _ H Hu) as (d & k & pre & post & Hd & _ & Hk & Hch).
  destruct (add_chain_ok (regs st) nameSpace ((i, payload d) :: post) (size (heap (regs st))) (Some i) lst Hch)
    as (lst' & E & H1 & H2 & H3).
  { apply (chain_length _ _ _ Hch). eapply nodup_suffix, (rep_nodup _ _ H _ _ Hk). }
  exists lst'. split_and!; try done. intros cls Hs.
  destruct (serving_item _ _ _ _ _ _ H Hs) as [_ Hi]. destruct (Hi d Hd) as [Hn Ho]. by eapply H3.
Qed.

Lemma adds_tree n cls : class_tree nameSpace n cls -> adds_ok n cls.
Proof.
  revert cls. induction n as [|n IH]; intros cls Ht; inversion Ht as [n' cls' ls e Hl Hlen Hcs]; subst.
  intros st lst H Hc Hd. cbn [addProviders].
  destruct (lookup_ok st m c type nameSpace cls ls e n Hp Hl H Hc Hlen) as (p & rc & st1 & -> & Hr & Hc1 & Hn).
  cbn [mbind option_bind].
  assert (Hown : p = PNull /\ rc <> 0 \/ exists i, p = PAt i /\ used m i /\
            forall k l, nearest (regs st) m type nameSpace ls = Some (k, l) ->
              i ∈ l /\ exists d, i ∈ serving (regs st) m type nameSpace d).
  { destruct (nearest _ _ _ _ ls) as [[k l]|] eqn:En.
    - right. destruct Hn as (i & -> & Hi & _). exists i.
      destruct (nearest_serving _ _ _ _ _ _ _ En) as (d & _ & ->).
      split; [done|]. split; [by eapply serving_item|]. intros k' l' [= <- <-]. split; [done|by exists d].
    - unfold not_served, default_provider in Hn. rewrite Hdef in Hn. destruct e as [rc'|].
      + left. injection Hn as -> ->. split; [done|]. clear -Hl Hrc. intros ->.
        remember (Some 0) as e eqn:Ee.
        induction Hl as [|k rc Hk|k s ls e _ _ IHl]; [done| |by apply IHl].
        injection Ee as ->. by apply (Hrc k).
      + right. destruct Hd as (i & Ei & Hu). rewrite Ei in Hn. injection Hn as -> ->. by exists i. }
  destruct Hown as [[-> Hz]|(i & -> & Hu & Hs)].
  - exists rc, lst, st1. split; [done|]. split; [done|]. by intros ->.
  - rewrite <- Hr in H, Hd. destruct (add_own st1 i lst H Hu) as (l1 & -> & L1 & S1 & O1). cbn [mbind option_bind].
    assert (R1 : add_result st st1 m c type nameSpace lst l1) by (unfold add_result; rewrite <- Hr; done).
    assert (Hself : serves st m type nameSpace cls l1).
    { intros ls' e' k l Hl' En. destruct (lineage_fun _ _ _ _ _ _ Hl Hl') as [<- <-].
      destruct (Hs k l En) as [Hi [d Hsv]]. exists i. split; [done|]. rewrite <- Hr in Hsv. by eapply O1. }
    destruct (getConstClassChildren nameSpace cls) as [cs|] eqn:Ecs.
    + destruct (add_children n cs (fun y Hy => IH y (Hcs cs y eq_refl Hy)) 0 st1 l1 H Hc1 Hd)
        as (rc2 & l2 & st2 & E & R2 & S2).
      exists rc2, l2, st2. split; [exact E|]. split; [by eapply add_result_trans|]. intros Hz d Hb.
      destruct (S2 Hz) as [_ S2']. inversion Hb as [|? cs' x ? Ec Hx Hb']; subst.
      * eapply (serves_mono st st); [done|apply R2|done].
      * rewrite Ecs in Ec. injection Ec as <-. eapply (serves_mono st1 st); [done|done|]. by eapply S2'.
    + exists 0, l1, st1. split; [done|]. split; [done|]. intros _ d Hb.
      inversion Hb as [|? cs' x ? Ec Hx Hb']; subst; [done|congruence].
Qed.
End Add.

(** when [addProviders] returns 0, every class of the tree of subclasses that has
    a provider for the name space has one in the list; providers on the list have a
    name, serve the name space and occur once; what was on the list stays. *)
Theorem addProviders_subclasses m c type nameSpace n cls st lst :
  provHt type = Some c -> disableDefaultProvider = false ->
  (forall k, getConstClass nameSpace k <> inl 0) -> class_tree nameSpace n cls ->
  represents (regs st) m -> cache_ok st m c type ->
  (exists i, defaultProvInfoPtr (regs st) = Some i /\ used m i) ->
  exists rc lst' st', add_all n st type cls nameSpace lst = Some (rc, lst', st') /\
    (listed_ok (regs st) nameSpace lst -> listed_ok (regs st) nameSpace lst') /\
    (forall x, x ∈ lst -> x ∈ lst') /\
    (rc = 0 -> forall d, below nameSpace cls d -> serves st m type nameSpace d lst').
Proof.
  intros Hp Hd Hrc Ht H Hc Hdef.
  destruct (adds_tree m c type nameSpace Hp Hd Hrc n cls Ht st lst H Hc Hdef)
    as (rc & lst' & st' & E & (_ & _ & L & S) & Hs).
  by exists rc, lst', st'.
Qed.
End Spec.

(** * Witnesses *)

#[local] Existing Instance ProviderRegister.wit_table.

Definition wit_prov (n : nat) (p : string) (t : string) (nss : list string) : ProviderInfo :=
  section_info None n (wit_section "CIM_A" p [t] nss).
(** The first provider serves root/interop, the second one every name space. *)
Definition wit_mgr (t : string) : mgr (list (bytes * loc)) :=
  {| regs := pair_registry (wit_prov 0 "PA" t ["root/interop"]) (wit_prov 1 "PB" t ["*"]) ∅;
     interOp := PForce; caches := fun _ => None |}.
Definition wit_m (t : string) : chains :=
  pair_chains (wit_prov 0 "PA" t ["root/interop"]) (wit_prov 1 "PB" t ["*"]).

Lemma wit_rep t : represents (regs (wit_mgr t)) (wit_m t).
Proof. apply represents_pair; [by split; eexists; [|eexists]..|done|done]. Qed.

(** CIM_B is a subclass of CIM_A. *)
Definition wit_classes (nameSpace cls : bytes) : Z + option bytes :=
  if decide (cls = cstr "CIM_B") then inr (Some (cstr "CIM_A"))
  else if decide (cls = cstr "CIM_A") then inr None else inl 6.

Lemma wit_lineage nameSpace : lineage wit_classes nameSpace (cstr "CIM_B") [cstr "CIM_B"; cstr "CIM_A"] None.
Proof. eapply lineage_super; [by vm_compute|]. apply lineage_root. by vm_compute. Qed.

Lemma wit_lineage_A nameSpace : lineage wit_classes nameSpace (cstr "CIM_A") [cstr "CIM_A"] None.
Proof. apply lineage_root. by vm_compute. Qed.

(** A subclass without a provider of its own is served by that of its superclass. *)
Lemma lookupProvider_nearest_witness : exists rc st',
  lookupProvider wit_classes false 2 (wit_mgr "instance") INSTANCE_PROVIDER (cstr "CIM_B") (cstr "root/cimv2")
  = Some (PAt 1%nat, rc, st').
Proof.
  destruct (lookupProvider_nearest wit_register_case wit_classes false (wit_mgr "instance")
    (wit_m "instance") instanceProviderHt INSTANCE_PROVIDER (cstr "root/cimv2") (cstr "CIM_B") _ None 2
    eq_refl (wit_lineage _) (wit_rep "instance")) as (p & rc & st' & E & _ & _ & H); [by intros k i|done|].
  assert (En : nearest (regs (wit_mgr "instance")) (wit_m "instance") INSTANCE_PROVIDER (cstr "root/cimv2")
    [cstr "CIM_B"; cstr "CIM_A"] = Some (cstr "CIM_A", [1%nat])) by (vm_compute; reflexivity).
  rewrite En in H. destruct H as (i & Hp & Hi & _). apply list_elem_of_singleton in Hi.
  exists rc, st'. rewrite E, Hp, Hi. reflexivity.
Defined.

Lemma getAssocProvider_nearest_witness : exists st',
  getAssocProvider wit_classes false 2 (wit_mgr "association") (cstr "CIM_B") (cstr "root/pg_interop")
  = Some (PAt 0%nat, st').
Proof.
  destruct (getAssocProvider_nearest wit_register_case wit_classes false (wit_mgr "association")
    (wit_m "association") (cstr "root/pg_interop") (cstr "CIM_B") _ None 2
    (wit_lineage _) (wit_rep "association")) as (st' & E & _ & _); [by intros k i|done|].
  assert (En : nearest (regs (wit_mgr "association")) (wit_m "association") ASSOCIATION_PROVIDER
    (cstr "root/pg_interop") [cstr "CIM_B"; cstr "CIM_A"] = Some (cstr "CIM_A", [0%nat; 1%nat]))
    by (vm_compute; reflexivity).
  rewrite En in E. exists st'. exact E.
Defined.

Lemma lookup_depends_on_history_witness : exists st1 st2 st3,
  lookupProvider wit_classes false 1 (wit_mgr "instance") INSTANCE_PROVIDER (cstr "CIM_A") (cstr "root/interop")
    = Some (PAt 0%nat, 0, st1) /\
  lookupProvider wit_classes false 1 (wit_mgr "instance") INSTANCE_PROVIDER (cstr "CIM_A") (cstr "root/cimv2")
    = Some (PAt 1%nat, 0, st2) /\
  lookupProvider wit_classes false 1 st2 INSTANCE_PROVIDER (cstr "CIM_A") (cstr "root/interop")
    = Some (PAt 1%nat, 0, st3).
Proof.
  eapply (lookup_depends_on_history wit_register_case wit_classes false (wit_mgr "instance")
    (wit_m "instance") instanceProviderHt INSTANCE_PROVIDER (cstr "CIM_A") (cstr "root/interop")
    (cstr "root/cimv2") _ _ None None 1 0%nat (wit_prov 0 "PA" "instance" ["root/interop"]) 1%nat
    (wit_prov 1 "PB" "instance" ["*"]) eq_refl (wit_rep "instance"));
    [by intros k i|reflexivity|apply wit_lineage_A|apply wit_lineage_A|done|done|vm_compute; reflexivity|
     by vm_compute|vm_compute; reflexivity..].
Defined.

(** CIM_B is the only subclass; the default provider is the second one. *)
Definition wit_children (nameSpace cls : bytes) : option (list bytes) :=
  if decide (cls = cstr "CIM_A") then Some [cstr "CIM_B"] else None.
Definition wit_mgr2 : mgr (list (bytes * loc)) :=
  {| regs := with_special (regs (wit_mgr "indication")) None (Some 1%nat) None None;
     interOp := PForce; caches := fun _ => None |}.

Lemma wit_tree nameSpace : class_tree wit_classes wit_children nameSpace 4 (cstr "CIM_A").
Proof.
  eapply class_tree_node; [apply wit_lineage_A|cbn; lia|]. intros cs c Hcs Hc.
  unfold wit_children in Hcs. rewrite decide_True in Hcs by done. injection Hcs as <-.
  apply list_elem_of_singleton in Hc. subst c.
  eapply class_tree_node; [apply wit_lineage|cbn; lia|]. intros cs c Hcs _. by vm_compute in Hcs.
Qed.

(** Both providers of the class are listed, once, though the subclass has the first one too. *)
Lemma addProviders_subclasses_witness : exists lst' st',
  addProviders wit_classes wit_children false cons 4 wit_mgr2 INDICATION_PROVIDER (cstr "CIM_A")
    (cstr "root/interop") [] = Some (0, lst', st') /\
  listed_ok (regs wit_mgr2) (cstr "root/interop") lst' /\
  serves wit_classes wit_mgr2 (wit_m "indication") INDICATION_PROVIDER (cstr "root/interop") (cstr "CIM_B") lst'.
Proof.
  assert (Hr : represents (regs wit_mgr2) (wit_m "indication"))
    by (apply (represents_ext (regs (wit_mgr "indication"))); [apply wit_rep|done|done]).
  destruct (addProviders_subclasses wit_register_case wit_classes false wit_children cons
    (fun i l => reflexivity _) (wit_m "indication") indicationProviderHt INDICATION_PROVIDER
    (cstr "root/interop") 4 (cstr "CIM_A") wit_mgr2 [] eq_refl eq_refl) as (rc & lst' & st' & E & L & _ & S).
  - intros k. unfold wit_classes. by repeat case_decide.
  - apply wit_tree.
  - exact Hr.
  - by intros k i.
  - exists 1%nat. split; [done|]. exists (cstr "cim_a"), [(0%nat, wit_prov 0 "PA" "indication" ["root/interop"]);
      (1%nat, wit_prov 1 "PB" "indication" ["*"])]%string. split; [by vm_compute|].
    apply list_elem_of_further, list_elem_of_here.
  - assert (Erc : rc = 0).
    { assert (G : (fun x => x.1.1) <$> addProviders wit_classes wit_children false cons 4 wit_mgr2
        INDICATION_PROVIDER (cstr "CIM_A") (cstr "root/interop") [] = Some 0) by (vm_compute; reflexivity).
      rewrite E in G. by injection G. }
    subst rc. exists lst', st'. split; [exact E|]. split.
    + apply L. split; [apply NoDup_nil_2|]. by intros ? ?%elem_of_nil.
    + apply S; [done|]. eapply below_child; [by vm_compute|apply list_elem_of_here|apply below_refl].
Defined.
