(* ===== verification/CmpiData.v ===== *)
(** * CMPI data items (value.c)

    The data types and the tagged values that providers and broker exchange, the copy
    of a value at its width ([sfcb_setAlignedValue]), the comparison of two values
    ([sfcb_comp_CMPIValue]) and the text of a value ([sfcb_value2Chars]).

    The union [CMPIValue] is modelled by what was stored in it: [VWord] is its eight
    bytes as a number (integers, null pointers and the ids that serialized objects put
    in the place of pointers), the other constructors are pointers to objects.  The
    type codes and states are those of the CMPI headers.  Reading a pointer as a
    number is unspecified: [None]. *)

From Stdlib Require Import Floats.SpecFloat.
From S2P Require Import Prelude CString.

(** [CMPIType] without the bit [CMPI_ARRAY]. *)
Inductive CMPIType :=
| CMPI_null | CMPI_boolean | CMPI_char16 | CMPI_real32 | CMPI_real64
| CMPI_uint8 | CMPI_uint16 | CMPI_uint32 | CMPI_uint64
| CMPI_sint8 | CMPI_sint16 | CMPI_sint32 | CMPI_sint64
| CMPI_instance | CMPI_ref | CMPI_args | CMPI_class | CMPI_filter | CMPI_enumeration
| CMPI_string | CMPI_chars | CMPI_dateTime | CMPI_ptr | CMPI_charsptr.

#[export] Instance CMPIType_eq_dec : EqDecision CMPIType.
Proof. solve_decision. Defined.

(** The bit [CMPI_ENC]. *)
Definition CMPI_ENC (t : CMPIType) : bool :=
  match t with
  | CMPI_instance | CMPI_ref | CMPI_args | CMPI_class | CMPI_filter | CMPI_enumeration
  | CMPI_string | CMPI_chars | CMPI_dateTime | CMPI_ptr | CMPI_charsptr => true
  | _ => false
  end.

Definition CMPI_nullValue : Z := 256.
Definition CMPI_badValue : Z := 32768.
Definition is_null (state : Z) : bool := negb (Z.land state CMPI_nullValue =? 0).

Definition CMPI_RC_OK : Z := 0.
Definition CMPI_RC_ERR_FAILED : Z := 1.
Definition CMPI_RC_ERR_INVALID_PARAMETER : Z := 4.
Definition CMPI_RC_ERR_NOT_FOUND : Z := 6.
Definition CMPI_RC_ERR_TYPE_MISMATCH : Z := 13.
Definition CMPI_RC_ERR_NO_SUCH_PROPERTY : Z := 12.

(** The bytes of the union that a real takes hold a float or a double. *)
Inductive CMPIValue : Set :=
| VWord (w : Z)
| VReal (d : spec_float)
| VChars (s : bytes)
| VString (hdl : option bytes)
| VRef (path : bytes)
| VInst (serialized : bytes)
| VDateTime (cimDt : bytes)
| VArray (ty : CMPIType) (items : list native_array_item)
with native_array_item : Set := Item (state : Z) (value : CMPIValue).

Definition i_state (i : native_array_item) : Z := let 'Item s _ := i in s.
Definition i_value (i : native_array_item) : CMPIValue := let 'Item _ v := i in v.

Record CMPIData := { d_type : CMPIType; d_array : bool; d_state : Z; d_value : CMPIValue }.

Definition NULL : CMPIValue := VWord 0.
Definition is_NULL (v : CMPIValue) : bool := 
  match v with VWord w => w =? 0 | VReal (S754_zero false) => true | _ => false end.

(** ** Copying at the width of the type *)

Definition word_of (v : CMPIValue) : option Z := match v with VWord w => Some w | _ => None end.

(** The target is zeroed first; a null source leaves it as it is. *)
Definition sfcb_setAlignedValue (target : CMPIValue) (source : option CMPIValue) (type : CMPIType) : option CMPIValue :=
  match source with
  | None => Some target
  | Some v =>
      match type with
      | CMPI_boolean | CMPI_uint8 | CMPI_sint8 => w ← word_of v; Some (VWord (w mod 2 ^ 8))
      | CMPI_char16 | CMPI_uint16 | CMPI_sint16 => w ← word_of v; Some (VWord (w mod 2 ^ 16))
      | CMPI_uint32 | CMPI_sint32 => w ← word_of v; Some (VWord (w mod 2 ^ 32))
      | _ => Some v
      end
  end.

(** ** Comparison *)

(** Conversion of a real to [int]: towards zero, undefined out of range. *)
Definition int_of_real (d : spec_float) : option Z :=
  match d with
  | S754_zero _ => Some 0
  | S754_finite s m e =>
      let a := Z.shiftl (Zpos m) e in
      let v := if s then - a else a in
      if (- 2 ^ 31 <=? v) && (v <? 2 ^ 31) then Some v else None
  | _ => None
  end.
Definition real_of (v : CMPIValue) : option spec_float :=
  match v with VReal d => Some d | VWord w => if w =? 0 then Some (S754_zero false) else None | _ => None end.

Definition extended_strcmp (s1 s2 : option bytes) : Z :=
  match s1, s2 with
  | None, None => 0
  | None, _ => -1
  | _, None => 1
  | Some s, Some t => strcmp s t
  end.

(** An element of an array, a bad value with zero bytes when there is none. *)
Definition item_at (items : list native_array_item) (i : Z) : CMPIValue :=
  if (0 <=? i) then match items !! Z.to_nat i with Some i => i_value i | None => VWord 0 end else VWord 0.

Definition as_int (x : Z) : option Z := if (- 2 ^ 31 <=? x) && (x <? 2 ^ 31) then Some x else None.

Section compare.
(** The comparison of instances and object paths (instance.c, objectpath.c). *)
Variables (instanceCompare objectpathCompare : bytes -> bytes -> option Z).

(** The switch on a type that is not an array. *)
Definition comp_simple (v1 v2 : CMPIValue) (type : CMPIType) : option Z :=
  match type with
  | CMPI_boolean | CMPI_uint8 | CMPI_sint8 =>
      a ← word_of v1; b ← word_of v2; Some (s8 a - s8 b)
  | CMPI_char16 | CMPI_uint16 | CMPI_sint16 =>
      a ← word_of v1; b ← word_of v2; Some (s16 a - s16 b)
  | CMPI_uint32 | CMPI_sint32 =>
      a ← word_of v1; b ← word_of v2; as_int (s32 a - s32 b)
  | CMPI_real32 => a ← real_of v1; b ← real_of v2; int_of_real (SFsub 24 128 a b)
  | CMPI_uint64 | CMPI_sint64 =>
      a ← word_of v1; b ← word_of v2;
      let d := s64 a - s64 b in
      if (- 2 ^ 63 <=? d) && (d <? 2 ^ 63) then Some (s32 d) else None
  | CMPI_real64 => a ← real_of v1; b ← real_of v2; int_of_real (SFsub 53 1024 a b)
  | CMPI_instance => match v1, v2 with VInst a, VInst b => instanceCompare a b | _, _ => None end
  | CMPI_ref => match v1, v2 with VRef a, VRef b => objectpathCompare a b | _, _ => None end
  | CMPI_string => match v1, v2 with VString a, VString b => Some (extended_strcmp a b) | _, _ => None end
  | CMPI_dateTime => match v1, v2 with VDateTime a, VDateTime b => Some (strcmp a b) | _, _ => None end
  | _ => Some 0
  end.

(** The first test looks at the pointer of the union, whatever the type is. *)
Definition comp_element (v1 v2 : CMPIValue) (type : CMPIType) : option Z :=
  if is_NULL v1 && is_NULL v2 then Some 0
  else if is_NULL v1 then Some (-1)
  else if is_NULL v2 then Some 1
  else comp_simple v1 v2 type.

(** [while (c--)] compares the elements [c - 1]. *)
Fixpoint comp_items (c : nat) (l1 l2 : list native_array_item) (type : CMPIType) : option Z :=
  match c with
  | O => Some 0
  | S c =>
      r ← comp_element (item_at l1 (Z.of_nat c - 1)) (item_at l2 (Z.of_nat c - 1)) type;
      if negb (r =? 0) then Some 1 else comp_items c l1 l2 type
  end.

Definition sfcb_comp_CMPIValue (v1 v2 : CMPIValue) (type : CMPIType) (array : bool) : option Z :=
  if is_NULL v1 && is_NULL v2 then Some 0
  else if is_NULL v1 then Some (-1)
  else if is_NULL v2 then Some 1
  else if array then
    match v1, v2 with
    | VArray _ l1, VArray _ l2 =>
        if negb (Z.of_nat (length l1) =? Z.of_nat (length l2)) then Some 1
        else comp_items (length l1) l1 l2 type
    | _, _ => None
    end
  else comp_simple v1 v2 type.
End compare.

(** ** Text *)

Definition quoted (s : bytes) : bytes := 34 :: s ++ [34].

(** [print_g] is the [%g] of the C library. *)
Definition sfcb_value2Chars (print_g : spec_float -> bytes) (type : CMPIType) (array : bool) (value : option CMPIValue) :
    option bytes :=
  match value with
  | None => Some []
  | Some v =>
      if array then Some []
      else if CMPI_ENC type then
        if is_NULL v then Some [] else
        match type, v with
        | CMPI_ref, VRef p => Some p
        | CMPI_chars, VChars s => Some (quoted s)
        | CMPI_string, VString (Some s) => Some (quoted s)
        | CMPI_string, VString None => Some []
        | CMPI_dateTime, VDateTime s => Some (quoted s)
        | (CMPI_instance | CMPI_args | CMPI_filter | CMPI_class | CMPI_enumeration | CMPI_ptr | CMPI_charsptr), _ => Some []
        | _, _ => None
        end
      else
        match type with
        | CMPI_boolean => w ← word_of v; Some (if w mod 2 ^ 8 =? 0 then cstr "false" else cstr "true")
        | CMPI_uint8 => w ← word_of v; Some (print_dec (u8 w))
        | CMPI_sint8 => w ← word_of v; Some (print_dec (s8 w))
        | CMPI_uint16 => w ← word_of v; Some (print_dec (u16 w))
        | CMPI_sint16 => w ← word_of v; Some (print_dec (s16 w))
        | CMPI_uint32 => w ← word_of v; Some (print_dec (u32 w))
        | CMPI_sint32 => w ← word_of v; Some (print_dec (s32 w))
        | CMPI_uint64 => w ← word_of v; Some (print_dec (u64 w))
        | CMPI_sint64 => w ← word_of v; Some (print_dec (s64 w))
        | CMPI_real32 | CMPI_real64 => d ← real_of v; Some (print_g d)
        | _ => Some []
        end
  end.

(** * Properties *)

(** Types whose comparison cannot overflow. *)
Definition narrow (t : CMPIType) : option Z :=
  match t with
  | CMPI_boolean | CMPI_uint8 | CMPI_sint8 => Some 8
  | CMPI_char16 | CMPI_uint16 | CMPI_sint16 => Some 16
  | _ => None
  end.

(** Elements as [sfcb_setAlignedValue] leaves them. *)
Definition aligned (w : Z) (i : native_array_item) : Prop := exists x, i_value i = VWord x /\ 0 <= x < 2 ^ w.

Lemma wraps_eq w a b : 0 < w -> 0 <= a < 2 ^ w -> 0 <= b < 2 ^ w -> wraps w a - wraps w b = 0 <-> a = b.
Proof.
  intros Hw Ha Hb. split; [|intros ->; lia]. intros E.
  rewrite <- (Z.mod_small a (2 ^ w)), <- (Z.mod_small b (2 ^ w)), <- (wraps_mod w a), <- (wraps_mod w b) by done.
  f_equal. lia.
Qed.

Section compare_lemmas.
Context (ic oc : bytes -> bytes -> option Z).

Lemma comp_narrow t w a b : narrow t = Some w -> 0 <= a < 2 ^ w -> 0 <= b < 2 ^ w ->
  exists r, comp_element ic oc (VWord a) (VWord b) t = Some r /\ (r = 0 <-> a = b).
Proof.
  intros Ht Ha Hb. unfold comp_element. cbn [is_NULL].
  destruct (Z.eqb_spec a 0) as [->|], (Z.eqb_spec b 0) as [->|]; cbn [andb];
    try (eexists; split; [done|]; lia).
  destruct t; try discriminate Ht; injection Ht as <-; (eexists; split; [done|]; by apply wraps_eq).
Qed.

Lemma item_aligned w l i : Forall (aligned w) l -> (0 <= w) ->
  exists x, item_at l i = VWord x /\ 0 <= x < 2 ^ w.
Proof.
  intros Hl Hw. unfold item_at. assert (0 < 2 ^ w) by (apply Z.pow_pos_nonneg; lia).
  destruct (0 <=? i); [|exists 0; by split].
  destruct (l !! Z.to_nat i) as [it|] eqn:E; [|exists 0; by split].
  by eapply (Forall_lookup_1 _ _ _ _ Hl E).
Qed.

(** The comparison of the first [c - 1] elements. *)
Lemma comp_items_prefix t w l1 l2 : narrow t = Some w -> 0 < w -> Forall (aligned w) l1 -> Forall (aligned w) l2 ->
  length l1 = length l2 ->
  forall c, (c <= length l1)%nat ->
  exists r, comp_items ic oc c l1 l2 t = Some r /\
    (r = 0 <-> i_value <$> take (c - 1) l1 = i_value <$> take (c - 1) l2).
Proof.
  intros Ht Hw H1 H2 Hl. induction c as [|c IH]; intros Hc; [by exists 0|]. cbn [comp_items].
  destruct (item_aligned w l1 (Z.of_nat c - 1) H1) as (a & Ea & Ha); [lia|].
  destruct (item_aligned w l2 (Z.of_nat c - 1) H2) as (b & Eb & Hb); [lia|]. rewrite Ea, Eb.
  destruct (comp_narrow t w a b Ht Ha Hb) as (r & -> & Hr). cbn [mbind option_bind].
  destruct IH as (r' & Er & Hr'); [lia|].
  replace (S c - 1)%nat with c by lia. destruct c as [|c].
  { cbn [comp_items] in *. injection Er as <-. cbn in Ea, Eb. injection Ea as <-. injection Eb as <-.
    assert (r = 0) as -> by by apply Hr. exists 0. done. }
  replace (S c - 1)%nat with c in Hr' by lia.
  unfold item_at in Ea, Eb. replace (Z.of_nat (S c) - 1) with (Z.of_nat c) in Ea, Eb by lia.
  rewrite (proj2 (Z.leb_le 0 (Z.of_nat c))), Nat2Z.id in Ea, Eb by lia.
  destruct (lookup_lt_is_Some_2 l1 c) as [x1 E1]; [lia|]. destruct (lookup_lt_is_Some_2 l2 c) as [x2 E2]; [lia|].
  rewrite E1 in Ea. rewrite E2 in Eb.
  rewrite (take_S_r _ _ _ E1), (take_S_r _ _ _ E2), !fmap_app. simpl. rewrite Ea, Eb.
  destruct (Z.eqb_spec r 0) as [->|Hn]; cbn [negb].
  - exists r'. split; [done|]. assert (a = b) as -> by by apply Hr. rewrite Hr'. split; [by intros ->|].
    by intros [-> _]%app_inj_2.
  - exists 1. split; [done|]. split; [done|]. intros [_ [= E]]%app_inj_2; [|done]. by apply Hr in E.
Qed.
End compare_lemmas.

(** two arrays of booleans or of integers of at most 16 bits compare equal exactly
    when they have the same length and agree on all elements but the last one. *)
Theorem array_compare_but_last ic oc ty t1 t2 w l1 l2 :
  narrow ty = Some w -> Forall (aligned w) l1 -> Forall (aligned w) l2 ->
  exists r, sfcb_comp_CMPIValue ic oc (VArray t1 l1) (VArray t2 l2) ty true = Some r /\
    (r = 0 <-> length l1 = length l2 /\
       i_value <$> take (length l1 - 1) l1 = i_value <$> take (length l1 - 1) l2).
Proof.
  intros Ht H1 H2. unfold sfcb_comp_CMPIValue. cbn [is_NULL andb].
  assert (Hw : 0 < w) by (destruct ty; try discriminate Ht; injection Ht as <-; done).
  destruct (Z.eqb_spec (Z.of_nat (length l1)) (Z.of_nat (length l2))) as [E|E]; cbn [negb].
  - destruct (comp_items_prefix ic oc ty w l1 l2 Ht Hw H1 H2) with (c := length l1) as (r & -> & Hr); [lia|lia|].
    exists r. split; [done|]. rewrite Hr. split; [intros; split; [lia|done]|tauto].
  - exists 1. split; [done|]. split; [done|]. lia.
Qed.

Lemma array_compare_but_last_witness :
  exists r, sfcb_comp_CMPIValue (fun _ _ => None) (fun _ _ => None)
    (VArray CMPI_uint8 [Item 0 (VWord 7); Item 0 (VWord 1)]) (VArray CMPI_uint8 [Item 0 (VWord 7); Item 0 (VWord 2)])
    CMPI_uint8 true = Some r /\ r = 0.
Proof.
  destruct (array_compare_but_last (fun _ _ => None) (fun _ _ => None) CMPI_uint8 CMPI_uint8 CMPI_uint8 8
    [Item 0 (VWord 7); Item 0 (VWord 1)] [Item 0 (VWord 7); Item 0 (VWord 2)]) as (r & E & Hr).
  - reflexivity.
  - repeat constructor; eexists; (split; [reflexivity|lia]).
  - repeat constructor; eexists; (split; [reflexivity|lia]).
  - exists r. split; [exact E|]. apply Hr. by split.
Defined.

(** 64-bit integers compare equal when they agree on the low half. *)
Lemma compare_64_low ic oc a b : 0 < a < 2 ^ 63 -> 0 < b < 2 ^ 63 ->
  sfcb_comp_CMPIValue ic oc (VWord a) (VWord b) CMPI_uint64 false = Some (s32 (a - b)).
Proof.
  intros Ha Hb. unfold sfcb_comp_CMPIValue. cbn [is_NULL].
  rewrite !(proj2 (Z.eqb_neq _ 0)) by lia. cbn [andb comp_simple word_of mbind option_bind].
  rewrite !wraps_small by lia. rewrite (proj2 (Z.leb_le _ _)), (proj2 (Z.ltb_lt _ _)) by lia. done.
Qed.
