(* ===== verification/ClBuffer.v ===== *)
(** * The buffers of serialized objects (objectImpl.c)

    Every class, instance, object path and argument list keeps its strings and embedded
    objects in one buffer and its arrays in another one.  Both have the same shape
    ([ClStrBuf] and [ClArrayBuf]): the entries one behind the other in [buf], and an
    index; entry [id] starts at [indexPtr[id - 1]].  The code for the two is the same
    but for what a cell of [buf] is and how the length of an entry is found; this file
    has what they share, over the type of the cells.

    Memory is modelled by what was written: [buf] is the used part of a buffer of
    [bMax] cells, [index] the cells written in an index of [icap] cells of 4 bytes.
    [None] is undefined behaviour (a write or read outside of an allocation, an
    overflow of an [int]) or a loop that does not end. *)

From S2P Require Import Prelude CString.

Abbreviation len l := (Z.of_nat (length l)).

(** [iMax] has 16 bits: the highest one says that the index was allocated by itself. *)
Record ClBuf (A : Type) := {
  iUsed : Z; iMax : Z; index : list Z; icap : Z;
  bUsed : Z; bMax : Z; buf : list A
}.
Arguments iUsed {A}. Arguments iMax {A}. Arguments index {A}. Arguments icap {A}.
Arguments bUsed {A}. Arguments bMax {A}. Arguments buf {A}.

Definition GetMax (f : Z) : Z := Z.land f 32767.
Definition IsMallocedMax (f : Z) : bool := negb (Z.land f 32768 =? 0).

(** [sizeof(long)] over the size of an index cell. *)
Definition cells (n : Z) : Z := n * 2.

(** [for (; nmax <= need; nmax *= 2);] *)
Fixpoint grow (fuel : nat) (nmax need : Z) : option Z :=
  match fuel with
  | O => None
  | S fuel =>
      if nmax <=? need then if 2 ^ 31 <=? nmax * 2 then None else grow fuel (nmax * 2) need
      else Some nmax
  end.

Section operations.
Context {A : Type}.
Implicit Types b : ClBuf A.

(** [buf->iMax = m], then [setStrIndexPtr] with [m * sizeof(long)] bytes. *)
Definition set_index b (m : Z) : ClBuf A :=
  {| iUsed := iUsed b; iMax := Z.lor (u16 m) 32768; index := take (Z.to_nat (cells (u16 m))) (index b);
     icap := cells (u16 m); bUsed := bUsed b; bMax := bMax b; buf := buf b |}.
(** No index yet. *)
Definition no_index b : ClBuf A :=
  {| iUsed := iUsed b; iMax := iMax b; index := []; icap := 0;
     bUsed := bUsed b; bMax := bMax b; buf := buf b |}.
Definition set_bMax b (m : Z) : ClBuf A :=
  {| iUsed := iUsed b; iMax := iMax b; index := index b; icap := icap b;
     bUsed := bUsed b; bMax := m; buf := buf b |}.
Definition set_buf b (ts : list A) : ClBuf A :=
  {| iUsed := iUsed b; iMax := iMax b; index := index b; icap := icap b;
     bUsed := len ts; bMax := bMax b; buf := ts |}.
Definition set_iUsed b (n : Z) : ClBuf A :=
  {| iUsed := n; iMax := iMax b; index := index b; icap := icap b;
     bUsed := bUsed b; bMax := bMax b; buf := buf b |}.

(** [indexPtr[i] = v] *)
Definition set_cell b (i v : Z) : option (ClBuf A) :=
  if (0 <=? i) && (i <? icap b) && (i <=? len (index b)) then
    Some {| iUsed := iUsed b; iMax := iMax b;
            index := take (Z.to_nat i) (index b) ++ v :: drop (S (Z.to_nat i)) (index b);
            icap := icap b; bUsed := bUsed b; bMax := bMax b; buf := buf b |}
  else None.
Definition get_cell b (i : Z) : option Z :=
  if 0 <=? i then index b !! Z.to_nat i else None.

(** More room for the index. *)
Definition ensure_index b : option (ClBuf A) :=
  let nmax := GetMax (iMax b) in
  if nmax <=? iUsed b then
    if 0 <? iMax b then
      if negb (IsMallocedMax (iMax b)) then
        (* memcpy of nmax longs out of the block of the object *)
        if cells nmax <=? icap b then Some (set_index b (nmax * 2)) else None
      else Some (set_index b (nmax * 2))
    else Some (set_index (no_index b) 16)
  else Some b.

(** The entry is written behind the others, its place into the index. *)
Definition append b (blob : list A) : option (Z * ClBuf A) :=
  if bMax b <? bUsed b + len blob then None else
  let b1 := {| iUsed := iUsed b; iMax := iMax b; index := index b; icap := icap b; bUsed := bUsed b;
               bMax := bMax b; buf := take (Z.to_nat (bUsed b)) (buf b) ++ blob |} in
  b2 ← set_cell b1 (iUsed b) (bUsed b);
  Some (u16 (iUsed b + 1),
        {| iUsed := u16 (iUsed b + 1); iMax := iMax b2; index := index b2; icap := icap b2;
           bUsed := u32 (bUsed b + len blob); bMax := bMax b2; buf := buf b2 |}).

Definition new_buf (nmax : Z) : ClBuf A :=
  {| iUsed := 0; iMax := Z.lor 16 32768; index := []; icap := cells 16;
     bUsed := 0; bMax := nmax; buf := [] |}.

(** A buffer and whether it was allocated by itself ([HDR_StrBufferMalloced],
    [HDR_ArrayBufferMalloced]) or is in the block of its object. *)
Definition slot : Type := option (ClBuf A) * bool.

(** A new entry in a buffer that begins with [first] cells; [moved] is what a buffer
    of a block keeps when it is moved to an allocation of its own.  The new id, the
    buffer, and whether the object has to be rebuilt. *)
Definition add_entry (first : Z) (moved : ClBuf A -> ClBuf A) (s : slot) (blob : list A) :
    option (Z * slot * bool) :=
  let l := len blob in
  match fst s with
  | None =>
      nmax ← grow 32 first l;
      '(id, b) ← append (new_buf nmax) blob;
      Some (id, (Some b, true), true)
  | Some b =>
      let again := GetMax (iMax b) <=? iUsed b in
      b1 ← ensure_index b;
      if bMax b1 <=? bUsed b1 + l then
        nmax ← grow 32 (bMax b1) (bUsed b1 + l);
        let b2 := if snd s then b1 else moved b1 in
        '(id, b3) ← append (set_bMax b2 nmax) blob;
        Some (id, (Some b3, true), true)
      else
        '(id, b2) ← append b1 blob;
        Some (id, (Some b2, snd s), again)
  end.

(** The cells from an offset on. *)
Definition cells_at b (ofs : Z) : option (list A) :=
  if 0 <=? ofs then Some (drop (Z.to_nat ofs) (buf b)) else None.
End operations.

(** How the extent of an entry is found in memory. *)
Class Extent (A : Type) := {
  extent : list A -> option (list A);
  complete : list A -> Prop;
  extent_complete s rest : complete s -> extent (s ++ rest) = Some s
}.

Section replace.
Context {A : Type} `{Extent A}.
Implicit Types b : ClBuf A.

Definition entry_at b (ofs : Z) : option (list A) := cells_at b ofs ≫= extent.

(** The loop of [replaceClStringN] and [replaceClArray]: all entries but one are
    moved together.  [ts] is what was written to the new buffer so far. *)
Fixpoint compact (n : nat) (i id : Z) b (ts : list A) : option (ClBuf A * list A) :=
  match n with
  | O => Some (b, ts)
  | S n =>
      if i =? id - 1 then compact n (i + 1) id b ts
      else
        ofs ← get_cell b i;
        f ← entry_at b ofs;
        b ← set_cell b i (len ts);
        if bUsed b <? len ts + len f then None
        else compact n (i + 1) id b (ts ++ f)
  end.

Definition remove_entry b (id : Z) : option (ClBuf A) :=
  '(b, ts) ← compact (Z.to_nat (iUsed b)) 0 id b [];
  Some (set_buf b ts).

(** The entry that was added last, under [i], becomes entry [id]. *)
Definition move_last b (i id : Z) : option (ClBuf A) :=
  v ← get_cell b (i - 1);
  set_cell (set_iUsed b (u16 (iUsed b - 1))) (id - 1) v.
End replace.

(** * The buffer as a list of entries *)

(** [None] is an entry whose cell is not valid. *)
Definition total {A} (ss : list (option (list A))) : Z :=
  foldr (fun s n => match s with Some s => len s + n | None => n end) 0 ss.

Record represents {A} (b : ClBuf A) (ss : list (option (list A))) : Prop := {
  rep_used : iUsed b = len ss;
  rep_item : forall i s, ss !! i = Some (Some s) -> exists ofs, index b !! i = Some ofs /\ 0 <= ofs /\
    take (length s) (drop (Z.to_nat ofs) (buf b)) = s;
  rep_cells : (length ss <= length (index b))%nat;
  rep_icap : len (index b) <= icap b;
  rep_size : bUsed b = len (buf b);
  rep_total : bUsed b = total ss;
  rep_room : bUsed b <= bMax b
}.

(** The index has [m] entries of its own, or [m] in the block of the object with
    room behind it. *)
Definition index_ok {A} (b : ClBuf A) (m : Z) : Prop :=
  0 < m < 32768 /\ iUsed b <= m /\
  (iMax b = Z.lor m 32768 /\ icap b = cells m \/ iMax b = m /\ cells m <= icap b).

(** The next number of entries an index is made for. *)
Definition next_max (m n : Z) : Z := if m <=? n then m * 2 else m.

(** A buffer, or none yet, and its entries. *)
Definition slot_represents {A} (s : slot (A := A)) (ss : list (option (list A))) (m : Z) : Prop :=
  match fst s with
  | None => ss = [] /\ m = 16
  | Some b => represents b ss /\ index_ok b m /\ 0 < bMax b < 2 ^ 31
  end.

(** ** Bits of [iMax] *)

Lemma land_flag m : 0 <= m < 32768 -> Z.land m 32768 = 0.
Proof.
  intros Hm. apply Z.bits_inj_0. intros n. rewrite Z.land_spec. change 32768 with (2 ^ 15).
  destruct (decide (n = 15)) as [->|Hn]; [|rewrite (Z.pow2_bits_false 15 n), andb_false_r by lia; done].
  rewrite <- (Z.mod_small m (2 ^ 15)) by (change (2 ^ 15) with 32768; lia). by rewrite Z.mod_pow2_bits_high by lia.
Qed.

Lemma lor_flag m : 0 <= m < 32768 -> Z.lor m 32768 = m + 32768.
Proof.
  intros Hm. pose proof (land_flag m Hm) as H. rewrite <- Z.lxor_lor by done.
  symmetry. by apply Z.add_nocarry_lxor.
Qed.

Lemma max_flag m : 0 <= m < 32768 -> GetMax (Z.lor m 32768) = m.
Proof.
  intros Hm. unfold GetMax. rewrite lor_flag by done. change 32767 with (Z.ones 15). rewrite Z.land_ones by lia.
  change (2 ^ 15) with 32768. replace (m + 32768) with (m + 1 * 32768) by lia.
  rewrite Z.mod_add by lia. apply Z.mod_small. lia.
Qed.

Lemma max_plain m : 0 <= m < 32768 -> GetMax m = m.
Proof. intros Hm. unfold GetMax. change 32767 with (Z.ones 15). rewrite Z.land_ones by lia. by apply Z.mod_small. Qed.

Lemma malloced_flag m : 0 <= m < 32768 -> IsMallocedMax (Z.lor m 32768) = true.
Proof.
  intros Hm. unfold IsMallocedMax. apply negb_true_iff, Z.eqb_neq. intros E.
  assert (H : Z.testbit (Z.land (Z.lor m 32768) 32768) 15 = true).
  { rewrite Z.land_spec, Z.lor_spec. change 32768 with (2 ^ 15). rewrite (Z.pow2_bits_true 15) by lia.
    by rewrite orb_true_r. }
  by rewrite E in H.
Qed.

Lemma malloced_plain m : 0 <= m < 32768 -> IsMallocedMax m = false.
Proof. intros Hm. unfold IsMallocedMax. by rewrite land_flag. Qed.

Lemma get_max_index {A} (b : ClBuf A) m : index_ok b m -> GetMax (iMax b) = m.
Proof. intros (Hm & _ & [[-> _]|[-> _]]); [apply max_flag|apply max_plain]; lia. Qed.

(** ** Growing *)

Lemma grow_ok fuel n need : 0 < n < 2 ^ 31 -> need < 2 ^ 30 -> need < n * 2 ^ (Z.of_nat fuel - 1) -> (0 < fuel)%nat ->
  exists m, grow fuel n need = Some m /\ need < m /\ n <= m < 2 ^ 31.
Proof.
  revert n. induction fuel as [|fuel IH]; intros n Hn Hneed Hf Hp; [lia|]. cbn [grow].
  destruct (Z.leb_spec n need); [|exists n; split; [done|lia]].
  destruct (Z.leb_spec (2 ^ 31) (n * 2)); [lia|].
  destruct fuel as [|fuel]; [change (Z.of_nat 1 - 1) with 0 in Hf; lia|].
  destruct (IH (n * 2)) as (m & E & H1 & H2); [lia|done| |lia|].
  - replace (n * 2 * 2 ^ (Z.of_nat (S fuel) - 1)) with (n * 2 ^ (Z.of_nat (S (S fuel)) - 1)); [done|].
    rewrite <- Z.mul_assoc, <- Z.pow_succ_r by lia. do 2 f_equal. lia.
  - exists m. split; [done|lia].
Qed.

Lemma grow_32 n need : 0 < n < 2 ^ 31 -> need < 2 ^ 30 ->
  exists m, grow 32 n need = Some m /\ need < m /\ n <= m < 2 ^ 31.
Proof. intros Hn Hneed. apply grow_ok; [done..| |lia]. change (Z.of_nat 32 - 1) with 31. nia. Qed.

(** ** Lists with cells written *)

Lemma lookup_set_cell {A} (l : list A) i v j : (i <= length l)%nat ->
  (take i l ++ v :: drop (S i) l) !! j = if decide (j = i) then Some v else l !! j.
Proof.
  intros Hi. assert (Hl : length (take i l) = i) by (rewrite length_take; lia).
  destruct (decide (j < i)%nat) as [Hj|Hj].
  - rewrite lookup_app_l by lia. rewrite lookup_take_lt by done. rewrite decide_False by lia. done.
  - rewrite lookup_app_r by lia. rewrite Hl. destruct (decide (j = i)) as [->|Hn].
    + by rewrite Nat.sub_diag.
    + replace (j - i)%nat with (S (j - S i)) by lia. simpl. rewrite lookup_drop. f_equal. lia.
Qed.

Lemma length_set_cell {A} (l : list A) i v : (i <= length l)%nat ->
  length (take i l ++ v :: drop (S i) l) = Nat.max (length l) (S i).
Proof. intros Hi. rewrite length_app, length_take. simpl. rewrite length_drop. lia. Qed.

Lemma take_drop_prefix {A} (s a b : list A) ofs : 0 <= ofs -> take (length s) (drop (Z.to_nat ofs) a) = s ->
  take (length s) (drop (Z.to_nat ofs) (a ++ b)) = s.
Proof.
  intros Ho H. assert (Hl : (length s <= length (drop (Z.to_nat ofs) a))%nat).
  { rewrite <- H at 1. rewrite length_take. lia. }
  destruct (decide (Z.to_nat ofs <= length a)%nat).
  - rewrite drop_app_le by done. by rewrite take_app_le.
  - rewrite drop_ge in Hl by lia. simpl in Hl. destruct s; [done|simpl in Hl; lia].
Qed.

Lemma len_app {A} (a b : list A) : len (a ++ b) = len a + len b.
Proof. rewrite length_app. lia. Qed.

Lemma take_len {A} (l : list A) : take (Z.to_nat (len l)) l = l.
Proof. rewrite Nat2Z.id. apply firstn_all. Qed.

Lemma drop_len {A} (l l' : list A) : drop (Z.to_nat (len l)) (l ++ l') = l'.
Proof. by rewrite Nat2Z.id, drop_app_length. Qed.

Section lemmas.
Context {A : Type}.
Implicit Types (b : ClBuf A) (ss : list (option (list A))) (blob : list A).

Lemma total_app (a c : list (option (list A))) : total (a ++ c) = total a + total c.
Proof. induction a as [|[s|] a IH]; [done| |]; simpl in *; rewrite IH; [lia|done]. Qed.

Lemma entries_total_insert ss i x y : ss !! i = Some x ->
  total (<[i := y]> ss) = total ss - total [x] + total [y].
Proof.
  intros Hi. rewrite <- (take_drop_middle ss i x Hi) at 2.
  rewrite insert_take_drop by (by eapply lookup_lt_Some).
  change (y :: drop (S i) ss) with ([y] ++ drop (S i) ss). change (x :: drop (S i) ss) with ([x] ++ drop (S i) ss).
  rewrite !total_app. lia.
Qed.

Lemma entries_total_nonneg ss : 0 <= total ss.
Proof. induction ss as [|[s|] ss IH]; simpl; [lia|lia|done]. Qed.

Lemma total_snoc ss blob : total (ss ++ [Some blob]) = total ss + len blob.
Proof. rewrite total_app. simpl. lia. Qed.

Lemma total_take_le n ss : total (take n ss) <= total ss.
Proof. rewrite <- (take_drop n ss) at 2. rewrite total_app. pose proof (entries_total_nonneg (drop n ss)). lia. Qed.

Lemma total_take_S i ss s : ss !! i = Some s -> total (take (S i) ss) = total (take i ss) + total [s].
Proof. intros Hi. by rewrite (take_S_r _ _ _ Hi), total_app. Qed.

Lemma set_index_rep b ss m : represents b ss -> len ss <= cells (u16 m) -> represents (set_index b m) ss.
Proof.
  intros [H1 H2 H3 H4 H5 H6 H7] Hl. unfold set_index. split; try done; cbn.
  - intros i s Hs. destruct (H2 i s Hs) as (ofs & Ho & Ho' & Hs'). exists ofs. split; [|done].
    apply lookup_lt_Some in Hs. rewrite lookup_take_lt; [done|lia].
  - rewrite length_take. lia.
  - rewrite length_take. lia.
Qed.

(** More room for the index: the entries stay. *)
Lemma ensure_index_ok b ss m : represents b ss -> index_ok b m -> iUsed b < 16384 \/ iUsed b < m ->
  exists b', ensure_index b = Some b' /\ represents b' ss /\ index_ok b' (next_max m (iUsed b)) /\
    iUsed b' < next_max m (iUsed b) /\ bUsed b' = bUsed b /\ bMax b' = bMax b.
Proof.
  intros H Hi' Hcap. unfold ensure_index, next_max. rewrite (get_max_index b m Hi'). destruct Hi' as (Hm & Hu & Hi).
  destruct (Z.leb_spec m (iUsed b)) as [Hle|Hlt]; [|exists b; by split_and!].
  assert (Hpos : (0 <? iMax b) = true).
  { apply Z.ltb_lt. destruct Hi as [[-> _]|[-> _]]; [rewrite lor_flag by lia|]; lia. }
  rewrite Hpos. assert (Hlen : len ss <= m) by (rewrite <- (rep_used _ _ H); lia).
  assert (Hu16 : u16 (m * 2) = m * 2) by (apply wrapu_small; lia).
  assert (Hr : represents (set_index b (m * 2)) ss).
  { apply set_index_rep; [done|]. rewrite Hu16. unfold cells. lia. }
  assert (Hok : index_ok (set_index b (m * 2)) (m * 2)).
  { split; [lia|split; [cbn; lia|left; cbn; by rewrite Hu16]]. }
  assert (Hgo : (if negb (IsMallocedMax (iMax b)) then if cells m <=? icap b then Some (set_index b (m * 2)) else None
                 else Some (set_index b (m * 2))) = Some (set_index b (m * 2))).
  { destruct Hi as [[-> _]|[-> Hc]]; [by rewrite malloced_flag by lia|].
    rewrite malloced_plain by lia. cbn [negb]. by rewrite (proj2 (Z.leb_le _ _) Hc). }
  rewrite Hgo. exists (set_index b (m * 2)). split_and!; try done. cbn. lia.
Qed.

Lemma append_rep b ss blob : represents b ss -> iUsed b < icap b -> iUsed b + 1 < 65536 ->
  bUsed b + len blob <= bMax b -> bMax b < 2 ^ 31 ->
  exists b', append b blob = Some (iUsed b + 1, b') /\ represents b' (ss ++ [Some blob]) /\
    bMax b' = bMax b /\ iMax b' = iMax b /\ icap b' = icap b /\ iUsed b' = iUsed b + 1.
Proof.
  intros H Hic Hlt Hroom Hmax. unfold append. rewrite (proj2 (Z.ltb_ge _ _)) by lia.
  destruct H as [H1 H2 H3 H4 H5 H6 H7].
  unfold set_cell. cbn [icap index iUsed iMax bUsed bMax buf]. rewrite (proj2 (Z.leb_le 0 (iUsed b))) by lia.
  rewrite (proj2 (Z.ltb_lt (iUsed b) (icap b))) by lia.
  rewrite (proj2 (Z.leb_le (iUsed b) (len (index b)))) by lia. cbn [andb mbind option_bind].
  assert (Hu16 : u16 (iUsed b + 1) = iUsed b + 1) by (apply wrapu_small; lia).
  assert (Hu32 : u32 (bUsed b + len blob) = bUsed b + len blob) by (apply wrapu_small; lia).
  rewrite Hu16, Hu32. eexists. split; [done|]. cbn [icap index iUsed iMax bUsed bMax buf].
  assert (Hcell : (Z.to_nat (iUsed b) <= length (index b))%nat) by lia.
  assert (Hbuf : take (Z.to_nat (bUsed b)) (buf b) = buf b) by (rewrite H5; apply take_len).
  rewrite Hbuf. split; [|done]. split; cbn [icap index iUsed iMax bUsed bMax buf].
  - rewrite H1, length_app. cbn [length]. lia.
  - intros i s Hs. rewrite lookup_set_cell by done. destruct (decide (i < length ss)%nat) as [Hin|Hin].
    + rewrite lookup_app_l in Hs by done. destruct (H2 i s Hs) as (ofs & Ho & Ho' & Hs'). exists ofs.
      rewrite decide_False by lia. split; [done|]. split; [done|]. by apply take_drop_prefix.
    + rewrite lookup_app_r in Hs by lia. destruct (i - length ss)%nat as [|k] eqn:Ek; [|by destruct k].
      injection Hs as <-. exists (bUsed b). rewrite decide_True by lia. split; [done|]. split; [lia|].
      rewrite H5, drop_len. by rewrite firstn_all.
  - rewrite length_app, length_set_cell by done. cbn [length]. lia.
  - rewrite length_set_cell by done. lia.
  - rewrite len_app. lia.
  - rewrite total_snoc. lia.
  - lia.
Qed.

Lemma append_ok b ss m blob : represents b ss -> index_ok b m -> iUsed b < m ->
  bUsed b + len blob <= bMax b -> bMax b < 2 ^ 31 ->
  exists b', append b blob = Some (iUsed b + 1, b') /\ represents b' (ss ++ [Some blob]) /\
    index_ok b' m /\ bMax b' = bMax b.
Proof.
  intros H (Hm & Hu & Hi) Hlt Hroom Hmax. pose proof (rep_used _ _ H).
  destruct (append_rep b ss blob H) as (b' & E & H' & HM & Hi' & Hc & Hu'); try done.
  - destruct Hi as [[_ ->]|[_ Hi]]; unfold cells in *; lia.
  - lia.
  - exists b'. split; [done|]. split; [done|]. split; [|done]. split; [done|]. split; [lia|]. by rewrite Hi', Hc.
Qed.

Lemma set_bMax_ok b ss m n : represents b ss -> index_ok b m -> bMax b <= n ->
  represents (set_bMax b n) ss /\ index_ok (set_bMax b n) m.
Proof. intros [] Hi Hn. split; [|done]. split; try done; cbn; lia. Qed.

(** A buffer that is not moved out of a block, or keeps all that was in it, grows by
    the entry. *)
Lemma add_entry_ok first moved (s : slot) ss m blob :
  slot_represents s ss m -> 0 < first < 2 ^ 30 -> (snd s = true \/ forall b, moved b = b) ->
  (len ss < 16384 \/ len ss < m) -> total ss + len blob < 2 ^ 30 ->
  exists s' r, add_entry first moved s blob = Some (len ss + 1, s', r) /\
    slot_represents s' (ss ++ [Some blob]) (next_max m (len ss)) /\ (snd s = true -> snd s' = true).
Proof.
  intros H Hfirst Hmoved Hcap Ht. unfold add_entry. destruct s as [[b|] mal]; unfold slot_represents in H; cbn [fst snd] in *.
  - destruct H as (Hr & Hi & Hmax). pose proof (rep_used _ _ Hr) as Hu. pose proof (rep_total _ _ Hr) as Htot.
    rewrite <- Hu in *. destruct (ensure_index_ok b ss m Hr Hi Hcap) as (b1 & -> & Hr1 & Hi1 & Hlt & Eb & EM).
    cbn [mbind option_bind]. pose proof (rep_used _ _ Hr1) as Hu1. rewrite <- Hu in Hu1.
    destruct (Z.leb_spec (bMax b1) (bUsed b1 + len blob)) as [Hg|Hg].
    + destruct (grow_32 (bMax b1) (bUsed b1 + len blob)) as (n & -> & Hn1 & Hn2); [lia|lia|].
      cbn [mbind option_bind]. assert (Em : (if mal then b1 else moved b1) = b1).
      { destruct mal; [done|]. destruct Hmoved as [|Hm]; [done|apply Hm]. }
      rewrite Em. destruct (set_bMax_ok b1 ss _ n Hr1 Hi1) as [Hr2 Hi2]; [lia|].
      destruct (append_ok (set_bMax b1 n) ss _ blob Hr2 Hi2) as (b' & -> & Hr' & Hi' & HM); [done|cbn; lia|cbn; lia|].
      cbn [mbind option_bind]. eexists _, _. split; [cbn; by rewrite Hu1|]. cbn in HM. split; [|done].
      split; [done|]. split; [done|]. lia.
    + destruct (append_ok b1 ss _ blob Hr1 Hi1) as (b' & -> & Hr' & Hi' & HM); [done|lia|lia|].
      cbn [mbind option_bind]. eexists _, _. split; [by rewrite Hu1|]. split; [|done]. split; [done|]. split; [done|]. lia.
  - destruct H as [-> ->]. cbn [length total foldr] in *.
    destruct (grow_32 first (len blob)) as (n & -> & Hn1 & Hn2); [lia|lia|]. cbn [mbind option_bind].
    assert (Hr : represents (new_buf (A := A) n) []) by (split; try done; cbn; lia).
    assert (Hi : index_ok (new_buf (A := A) n) 16) by (split; [lia|split; [cbn; lia|by left]]).
    destruct (append_ok (new_buf n) [] 16 blob Hr Hi) as (b' & -> & Hr' & Hi' & HM); [cbn; lia..|].
    cbn [mbind option_bind]. eexists _, _. split; [done|]. cbn in HM. split; [|done]. split; [done|]. split; [done|]. lia.
Qed.

(** Entry [i] is the cells [s]. *)
Definition valid (idx : list Z) (mem : list A) (i : nat) (s : list A) : Prop :=
  exists ofs, idx !! i = Some ofs /\ 0 <= ofs /\ take (length s) (drop (Z.to_nat ofs) mem) = s.

Lemma valid_new idx (ts f : list A) i : (i <= length idx)%nat ->
  valid (take i idx ++ len ts :: drop (S i) idx) (ts ++ f) i f.
Proof.
  intros Hi. exists (len ts). rewrite lookup_set_cell, decide_True by done. split; [done|].
  split; [lia|]. rewrite drop_len. by rewrite firstn_all.
Qed.

Lemma valid_old idx mem i j v s : (i <= length idx)%nat -> j <> i ->
  valid (take i idx ++ v :: drop (S i) idx) mem j s <-> valid idx mem j s.
Proof. intros Hi Hj. unfold valid. by rewrite lookup_set_cell, decide_False. Qed.

Lemma valid_app idx mem f j s : valid idx mem j s -> valid idx (mem ++ f) j s.
Proof. intros (ofs & H1 & H2 & H3). exists ofs. split_and!; try done. by apply take_drop_prefix. Qed.
End lemmas.

(** ** Moving the entries together *)

Definition with_hole {A} (ss : list (list A)) (k : nat) : list (option (list A)) := <[k := None]> (Some <$> ss).

Section holes.
Context {A : Type}.
Implicit Types (ss : list (list A)).

Lemma with_hole_length ss k : length (with_hole ss k) = length ss.
Proof. unfold with_hole. by rewrite length_insert, length_fmap. Qed.

Lemma with_hole_some ss k j s : with_hole ss k !! j = Some (Some s) -> j <> k /\ ss !! j = Some s.
Proof.
  unfold with_hole. destruct (decide (k = j)) as [<-|Hne].
  - destruct (decide (k < length ss)%nat) as [Hk|Hk].
    + rewrite list_lookup_insert_eq by (by rewrite length_fmap). done.
    + rewrite lookup_ge_None_2; [done|]. rewrite length_insert, length_fmap. lia.
  - rewrite list_lookup_insert_ne by done. rewrite list_lookup_fmap. destruct (ss !! j); [|done].
    intros [= ->]. auto.
Qed.

Lemma with_hole_none ss k j : (k < length ss)%nat -> with_hole ss k !! j = Some None <-> j = k.
Proof.
  intros Hk. unfold with_hole. destruct (decide (k = j)) as [<-|Hne].
  - by rewrite list_lookup_insert_eq by (by rewrite length_fmap).
  - rewrite list_lookup_insert_ne by done. rewrite list_lookup_fmap. split; [by destruct (ss !! j)|congruence].
Qed.

Lemma with_hole_total ss k s : ss !! k = Some s -> total (with_hole ss k) = total (Some <$> ss) - len s.
Proof.
  intros Hs. unfold with_hole. rewrite (entries_total_insert _ k (Some s)) by (by rewrite list_lookup_fmap, Hs). simpl. lia.
Qed.
End holes.

Section compact.
Context {A : Type} `{Extent A}.
Implicit Types (b : ClBuf A).

Lemma entry_prefix s mem : complete s -> take (length s) mem = s -> extent mem = Some s.
Proof. intros Hs E. rewrite <- (take_drop (length s) mem), E. by apply extent_complete. Qed.

Lemma valid_entry b i s : valid (index b) (buf b) i s -> complete s ->
  exists ofs, get_cell b (Z.of_nat i) = Some ofs /\ entry_at b ofs = Some s.
Proof.
  intros (ofs & Hi & Ho & Hs) Hc. exists ofs. unfold get_cell, entry_at, cells_at.
  rewrite (proj2 (Z.leb_le 0 (Z.of_nat i))), Nat2Z.id by lia. split; [done|].
  rewrite (proj2 (Z.leb_le 0 ofs)) by lia. cbn [mbind option_bind]. by apply entry_prefix.
Qed.

(** [hs] are the entries, with a hole at [id]. *)
Lemma compact_ok hs id n : forall i b ts,
  (i + n = length hs)%nat -> (forall j, hs !! j = Some None <-> (j < length hs)%nat /\ Z.of_nat j = id - 1) ->
  (forall j s, hs !! j = Some (Some s) -> complete s) ->
  (forall j s, (j < i)%nat -> hs !! j = Some (Some s) -> valid (index b) ts j s) ->
  (forall j s, (i <= j)%nat -> hs !! j = Some (Some s) -> valid (index b) (buf b) j s) ->
  len ts = total (take i hs) -> total hs <= bUsed b ->
  (length hs <= length (index b))%nat -> len (index b) <= icap b ->
  exists idx ts', compact n (Z.of_nat i) id b ts
    = Some ({| iUsed := iUsed b; iMax := iMax b; index := idx; icap := icap b; bUsed := bUsed b;
               bMax := bMax b; buf := buf b |}, ts') /\
    (forall j s, hs !! j = Some (Some s) -> valid idx ts' j s) /\ len ts' = total hs /\
    length idx = length (index b).
Proof.
  induction n as [|n IH]; intros i b ts Hin Hhole Hstr Hold Hnew Hts Htot Hlen Hcap.
  - exists (index b), ts. cbn [compact]. split; [by destruct b|]. rewrite take_ge in Hts by lia.
    split; [|done]. intros j s Hj. apply Hold; [|done]. apply lookup_lt_Some in Hj. lia.
  - cbn [compact]. destruct (lookup_lt_is_Some_2 hs i) as [[s|] Hi]; [lia| |].
    + rewrite (proj2 (Z.eqb_neq _ _)).
      2: { intros E. assert (Hn : hs !! i = Some None) by (apply Hhole; lia). congruence. }
      pose proof (Hnew i s (le_n _) Hi) as Hv. destruct (valid_entry b i s Hv (Hstr _ _ Hi)) as (ofs & -> & Hs).
      cbn [mbind option_bind]. rewrite Hs. cbn [mbind option_bind]. unfold set_cell.
      rewrite (proj2 (Z.leb_le 0 (Z.of_nat i))) by lia. rewrite (proj2 (Z.ltb_lt (Z.of_nat i) (icap b))) by lia.
      rewrite (proj2 (Z.leb_le (Z.of_nat i) _)), (Nat2Z.id i) by lia. cbn [andb mbind option_bind bUsed].
      pose proof (total_take_S i hs _ Hi) as HS. cbn [total foldr] in HS.
      pose proof (total_take_le (S i) hs) as Hle. rewrite (proj2 (Z.ltb_ge _ _)) by lia.
      replace (Z.of_nat i + 1) with (Z.of_nat (S i)) by lia.
      destruct (IH (S i) {| iUsed := iUsed b; iMax := iMax b;
          index := take i (index b) ++ len ts :: drop (S i) (index b); icap := icap b;
          bUsed := bUsed b; bMax := bMax b; buf := buf b |} (ts ++ s)) as (idx & ts' & E & H1 & H2 & H3);
        cbn [index buf bUsed icap]; try done.
      * lia.
      * intros j s' Hj Hjs. destruct (decide (j = i)) as [->|Hne].
        -- rewrite Hi in Hjs. injection Hjs as <-. apply valid_new. lia.
        -- apply valid_old; [lia|done|]. apply valid_app, Hold; [lia|done].
      * intros j s' Hj Hjs. apply valid_old; [lia|lia|]. apply Hnew; [lia|done].
      * rewrite len_app. lia.
      * rewrite length_set_cell by lia. lia.
      * rewrite length_set_cell by lia. lia.
      * exists idx, ts'. split; [exact E|]. split; [done|]. split; [done|].
        rewrite H3. cbn [index]. rewrite length_set_cell by lia. lia.
    + apply Hhole in Hi as Hid. rewrite (proj2 (Z.eqb_eq _ _)) by lia.
      replace (Z.of_nat i + 1) with (Z.of_nat (S i)) by lia.
      pose proof (total_take_S i hs _ Hi) as HS. cbn [total foldr] in HS.
      apply IH; try done; [lia| | |lia].
      * intros j s Hj Hjs. apply Hold; [|done]. destruct (decide (j = i)) as [->|]; [congruence|lia].
      * intros j s Hj Hjs. apply Hnew; [lia|done].
Qed.

(** The first half of a replacement. *)
Lemma remove_entry_ok b ss m id : represents b (Some <$> ss) -> index_ok b m -> Forall complete ss ->
  1 <= id <= len ss ->
  exists b', remove_entry b id = Some b' /\
    represents b' (with_hole ss (Z.to_nat (id - 1))) /\ index_ok b' m /\ bMax b' = bMax b.
Proof.
  intros Hr Hi Hss Hid. set (k := Z.to_nat (id - 1)). unfold remove_entry.
  destruct (lookup_lt_is_Some_2 ss k) as [s0 Hs0]; [lia|].
  pose proof (with_hole_total ss k s0 Hs0) as Htot.
  pose proof (rep_total _ _ Hr). pose proof (rep_room _ _ Hr).
  pose proof (rep_used _ _ Hr) as Hu. rewrite length_fmap in Hu. rewrite Hu, Nat2Z.id.
  pose proof (rep_cells _ _ Hr) as Hcl. rewrite length_fmap in Hcl.
  pose proof (with_hole_length ss k) as Hlen.
  destruct (compact_ok (with_hole ss k) id (length ss) 0 b []) as (idx & ts & Ec & C1 & C2 & C3);
    try done; try lia.
  { intros j. rewrite with_hole_none by lia. lia. }
  { intros j s [_ Hj]%with_hole_some. by eapply Forall_lookup_1. }
  { intros j s _ [_ Hj]%with_hole_some. apply (rep_item _ _ Hr). by rewrite list_lookup_fmap, Hj. }
  { apply (rep_icap _ _ Hr). }
  change (Z.of_nat 0) with 0 in Ec. rewrite Ec. cbn [mbind option_bind].
  eexists. split; [done|]. split; [|split; [exact Hi|done]].
  split; cbn; try done; try (rewrite Hlen; lia); try lia.
  rewrite C3. apply (rep_icap _ _ Hr).
Qed.

(** The second half: the entry added last takes the place of the hole. *)
Lemma move_last_ok b (ss : list (list A)) k blob m : represents b (with_hole ss k ++ [Some blob]) -> index_ok b m ->
  (k < length ss)%nat ->
  exists b', move_last b (len ss + 1) (Z.of_nat k + 1) = Some b' /\
    represents b' (Some <$> <[k := blob]> ss) /\ index_ok b' m /\ bMax b' = bMax b.
Proof.
  intros [H1 H2 H3 H4 H5 H6 H7] (Hm & Hle & Hi) Hk. pose proof (with_hole_length ss k) as Hlen.
  rewrite length_app, Hlen in H1, H3. cbn [length] in H1, H3.
  destruct (H2 (length ss) blob) as (ofs & Ho & Ho0 & Hos); [by rewrite <- Hlen, lookup_app_r, Nat.sub_diag|].
  unfold move_last, get_cell. replace (len ss + 1 - 1) with (len ss) by lia.
  rewrite (proj2 (Z.leb_le 0 _)), Nat2Z.id, Ho by lia. cbn [mbind option_bind].
  assert (Hu16 : u16 (iUsed b - 1) = len ss) by (rewrite wrapu_small; lia).
  unfold set_cell. cbn [icap index iUsed iMax bUsed bMax buf set_iUsed]. rewrite Hu16.
  replace (Z.of_nat k + 1 - 1) with (Z.of_nat k) by lia.
  rewrite (proj2 (Z.leb_le 0 _)), (proj2 (Z.ltb_lt _ _)), (proj2 (Z.leb_le _ _)), (Nat2Z.id k) by lia. cbn [andb].
  eexists. split; [done|]. rewrite list_fmap_insert.
  assert (Hkc : (k <= length (index b))%nat) by lia.
  split; [|split; [split; [done|split; [cbn; lia|exact Hi]]|done]].
  split; cbn [icap index iUsed iMax bUsed bMax buf]; try done.
  - by rewrite length_insert, length_fmap.
  - intros j s Hj. rewrite lookup_set_cell by done. destruct (decide (k = j)) as [<-|Hne].
    + rewrite list_lookup_insert_eq in Hj by (by rewrite length_fmap). injection Hj as <-.
      exists ofs. by rewrite decide_True.
    + rewrite list_lookup_insert_ne in Hj by done. rewrite decide_False by done.
      apply H2. rewrite lookup_app_l; [unfold with_hole; by rewrite list_lookup_insert_ne|].
      rewrite Hlen. apply lookup_lt_Some in Hj. by rewrite length_fmap in Hj.
  - rewrite length_insert, length_fmap, length_set_cell by done. lia.
  - rewrite length_set_cell by done. lia.
  - rewrite H6, total_snoc. destruct (lookup_lt_is_Some_2 ss k Hk) as [s Hs].
    rewrite (with_hole_total ss k s Hs), (entries_total_insert _ k (Some s)) by (by rewrite list_lookup_fmap, Hs).
    simpl. lia.
Qed.
End compact.

(** The buffer of a copy has the same entries. *)
Lemma copied_rep {A} (b : ClBuf A) ss cap : represents b ss -> len ss < 32768 -> len ss <= cap ->
  represents {| iUsed := iUsed b; iMax := Z.land (iUsed b) 32767; index := take (Z.to_nat (iUsed b)) (index b);
                icap := cap; bUsed := bUsed b; bMax := bUsed b; buf := take (Z.to_nat (bUsed b)) (buf b) |} ss.
Proof.
  intros [H1 H2 H3 H4 H5 H6 H7] Hn Hc.
  assert (Hbuf : take (Z.to_nat (bUsed b)) (buf b) = buf b) by (rewrite H5; apply take_len).
  split; cbn [iUsed index icap bUsed bMax buf]; rewrite ?Hbuf, ?H1, ?Nat2Z.id; try done; try lia.
  - intros i s Hi. destruct (H2 i s Hi) as (o & Hx & Hrest). exists o. split; [|done].
    rewrite lookup_take_lt; [done|]. by apply lookup_lt_Some in Hi.
  - rewrite length_take. lia.
  - rewrite length_take. lia.
Qed.

