(* ===== verification/StringBuffer.v ===== *)
(** * The strings of serialized objects (objectImpl.c)

    The header of a serialized object, and its string buffer: adding, reading,
    replacing and removing strings and embedded objects, and the copy of the buffer
    into one block.  The header ends with the growing text buffers of the functions
    that print objects ([cat2string]). *)

From S2P Require Import Prelude CString CmpiData ClBuffer.

Abbreviation ClStrBuf := (ClBuf Z).
(** The cells of an array buffer; [None] is a cell whose content is not specified. *)
Abbreviation ClArrayBuf := (ClBuf (option CMPIData)).

(** [HDR_StrBufferMalloced] and [HDR_ArrayBufferMalloced] are part of the buffers. *)
Record ClObjectHdr := {
  hdr_type : Z;
  strBuffer : slot (A := Z);
  arrayBuffer : slot (A := option CMPIData);
  HDR_Rebuild : bool;
  HDR_ContainsEmbeddedObject : bool
}.

Definition with_strings (hdr : ClObjectHdr) (s : slot (A := Z)) (r : bool) : ClObjectHdr :=
  {| hdr_type := hdr_type hdr; strBuffer := s; arrayBuffer := arrayBuffer hdr;
     HDR_Rebuild := HDR_Rebuild hdr || r; HDR_ContainsEmbeddedObject := HDR_ContainsEmbeddedObject hdr |}.

(** The string up to its NUL, with it. *)
Fixpoint with_nul (mem : bytes) : option bytes :=
  match mem with
  | [] => None
  | b :: mem => if b =? 0 then Some [0] else s ← with_nul mem; Some (b :: s)
  end.
(** What is copied: [length] bytes, or a string when it is 0. *)
Definition blob_of (mem : bytes) (length : Z) : option bytes :=
  if length =? 0 then with_nul mem
  else if length <=? strlen mem then Some (take (Z.to_nat length) mem) else None.

Definition nul_free (s : bytes) : Prop := Forall (fun b => b <> 0) s.
Definition is_string (s : bytes) : Prop := exists t, s = t ++ [0] /\ nul_free t.

Lemma with_nul_ok t rest : nul_free t -> with_nul (t ++ 0 :: rest) = Some (t ++ [0]).
Proof. induction 1 as [|b t Hb _ IH]; [done|]. simpl. rewrite (proj2 (Z.eqb_neq b 0)) by done. by rewrite IH. Qed.

(** The entries of a string buffer end with a NUL. *)
#[export] Instance string_extent : Extent Z.
Proof.
  refine {| extent := with_nul; complete := is_string |}.
  intros s rest (t & -> & Ht). rewrite <- app_assoc. by apply with_nul_ok.
Defined.

(** A new buffer has 256 bytes; moving it copies all of it. *)
Definition addClStringN (hdr : ClObjectHdr) (mem : bytes) (length : Z) : option (Z * ClObjectHdr) :=
  blob ← blob_of mem length;
  '(id, s, r) ← add_entry 256 (fun b => b) (strBuffer hdr) blob;
  Some (id, with_strings hdr s r).

(** A string is given as the memory it points to. *)
Definition addClString (hdr : ClObjectHdr) (str : bytes) : option (Z * ClObjectHdr) :=
  addClStringN hdr (str ++ [0]) 0.
Definition addClObject (hdr : ClObjectHdr) (obj : bytes) (size : Z) : option (Z * ClObjectHdr) :=
  addClStringN hdr obj size.

(** The inner [None] is the null pointer. *)
Definition ClObjectGetClString (hdr : ClObjectHdr) (id : Z) : option (option bytes) :=
  if id =? 0 then Some None else
  b ← fst (strBuffer hdr);
  ofs ← get_cell b (id - 1);
  s ← entry_at b ofs;
  Some (Some (removelast s)).

Definition replaceClStringN (hdr : ClObjectHdr) (id : Z) (mem : bytes) (length : Z) : option ClObjectHdr :=
  b ← fst (strBuffer hdr);
  b ← remove_entry b id;
  '(i, hdr) ← addClStringN (with_strings hdr (Some b, snd (strBuffer hdr)) false) mem length;
  b ← fst (strBuffer hdr);
  b ← move_last b i id;
  Some (with_strings hdr (Some b, snd (strBuffer hdr)) false).

Definition replaceClString (hdr : ClObjectHdr) (id : Z) (str : bytes) : option ClObjectHdr :=
  replaceClStringN hdr id (str ++ [0]) 0.
Definition replaceClObject (hdr : ClObjectHdr) (id : Z) (obj : bytes) (size : Z) : option ClObjectHdr :=
  replaceClStringN hdr id obj size.

(** The loop of [removeClObject]: the length of an entry is the distance to the next
    one in the index. *)
Fixpoint compact_objects (n : nat) (i id : Z) (b : ClStrBuf) (ts : bytes) : option (ClStrBuf * bytes) :=
  match n with
  | O => Some (b, ts)
  | S n =>
      if i =? id - 1 then compact_objects n (i + 1) id b ts
      else
        ofs ← get_cell b i;
        next ← get_cell b (i + 1);
        let l := next - ofs in
        if (l <? 0) || (bUsed b <? strlen ts + l) || (bUsed b <? ofs + l) then None
        else
          b ← set_cell b i (strlen ts);
          compact_objects n (i + 1) id b (ts ++ take (Z.to_nat l) (drop (Z.to_nat ofs) (buf b)))
  end.

Definition removeClObject (hdr : ClObjectHdr) (id : Z) : option ClObjectHdr :=
  b ← fst (strBuffer hdr);
  '(b, ts) ← compact_objects (Z.to_nat (iUsed b)) 0 id b [];
  Some (with_strings hdr (Some (set_iUsed (set_buf b ts) (u16 (iUsed b - 1))), snd (strBuffer hdr)) false).

(** ** Copying into one block *)

Definition ALIGN (x y : Z) : Z := if x =? 0 then 0 else ((x - 1) / y + 1) * y.
(** [sizeof(ClStrBuf)] and [CLALIGN] on a 64-bit machine. *)
Definition SIZEOF_ClStrBuf : Z := 32.
Definition CLALIGN : Z := 8.

Definition sizeStringBuf (hdr : ClObjectHdr) : Z :=
  match fst (strBuffer hdr) with
  | None => 0
  | Some b => ALIGN (SIZEOF_ClStrBuf + ALIGN (bUsed b) 4 + iUsed b * 4) CLALIGN
  end.

(** The copy at [ofs] of a block of [size] bytes: the room used and the buffer of the
    copy. *)
Definition copyStringBuf (ofs size : Z) (fh : ClObjectHdr) : option (Z * slot (A := Z)) :=
  match fst (strBuffer fh) with
  | None => Some (0, strBuffer fh)
  | Some b =>
      let l := SIZEOF_ClStrBuf + bUsed b in
      let il := iUsed b * 4 in
      if (size <? ofs + ALIGN l 4 + il) || (len (index b) <? iUsed b) then None
      else Some (ALIGN (ALIGN l 4 + il) CLALIGN,
        (Some {| iUsed := iUsed b; iMax := Z.land (iUsed b) 32767;
                 index := take (Z.to_nat (iUsed b)) (index b);
                 icap := (size - (ofs + ALIGN l 4)) / 4;
                 bUsed := bUsed b; bMax := bUsed b;
                 buf := take (Z.to_nat (bUsed b)) (buf b) |}, false))
  end.

(** * Properties *)

Definition strings (l : list bytes) : list bytes := (fun s => s ++ [0]) <$> l.
Definition hdr_strings (hdr : ClObjectHdr) (l : list bytes) (m : Z) : Prop :=
  slot_represents (strBuffer hdr) (Some <$> strings l) m.

Lemma blob_string s : nul_free s -> blob_of (s ++ [0]) 0 = Some (s ++ [0]).
Proof. intros H. unfold blob_of. cbn [Z.eqb]. by apply with_nul_ok. Qed.

Lemma strings_ok l : Forall nul_free l -> Forall complete (strings l).
Proof.
  intros H. unfold strings. apply Forall_fmap. eapply Forall_impl; [exact H|]. intros s Hs. by exists s.
Qed.

Lemma strings_snoc l s : Some <$> strings (l ++ [s]) = (Some <$> strings l) ++ [Some (s ++ [0])].
Proof. unfold strings. by rewrite !fmap_app. Qed.

Lemma strings_app l l' : Some <$> strings (l ++ l') = (Some <$> strings l) ++ (Some <$> strings l').
Proof. unfold strings. by rewrite !fmap_app. Qed.

Lemma strings_length l : length (Some <$> strings l) = length l.
Proof. unfold strings. by rewrite !length_fmap. Qed.

Lemma get_entry hdr b ss i t : fst (strBuffer hdr) = Some b -> represents b ss ->
  ss !! i = Some (Some (t ++ [0])) -> nul_free t -> ClObjectGetClString hdr (Z.of_nat i + 1) = Some (Some t).
Proof.
  intros Hb Hr Hi Ht. unfold ClObjectGetClString. rewrite (proj2 (Z.eqb_neq _ 0)), Hb by lia.
  cbn [mbind option_bind]. replace (Z.of_nat i + 1 - 1) with (Z.of_nat i) by lia.
  destruct (valid_entry b i (t ++ [0])) as (ofs & -> & Hs); [by apply (rep_item _ _ Hr)|by exists t|].
  cbn [mbind option_bind]. rewrite Hs. cbn [mbind option_bind]. by rewrite removelast_last.
Qed.

Lemma get_strings hdr l m i s : hdr_strings hdr l m -> Forall nul_free l ->
  l !! i = Some s -> ClObjectGetClString hdr (Z.of_nat i + 1) = Some (Some s).
Proof.
  intros H Hl Hi. unfold hdr_strings, slot_represents in H. destruct (fst (strBuffer hdr)) as [b|] eqn:Eb.
  - destruct H as (Hr & _). eapply (get_entry hdr b); [done|exact Hr| |by eapply (Forall_lookup_1 nul_free)].
    unfold strings. by rewrite !list_lookup_fmap, Hi.
  - destruct H as [H _]. by destruct l.
Qed.

Lemma add_string_ok hdr l m str : hdr_strings hdr l m -> nul_free str ->
  (len l < 16384 \/ len l < m) -> total (Some <$> strings (l ++ [str])) < 2 ^ 30 ->
  exists s r, addClString hdr str = Some (len l + 1, with_strings hdr s r) /\
    slot_represents s (Some <$> strings (l ++ [str])) (next_max m (len l)) /\
    (snd (strBuffer hdr) = true -> snd s = true).
Proof.
  intros H Hs Hcap Ht. unfold addClString, addClStringN. rewrite blob_string by done. cbn [mbind option_bind].
  rewrite strings_snoc, total_snoc in Ht. unfold hdr_strings in H.
  destruct (add_entry_ok 256 (fun b => b) (strBuffer hdr) _ m (str ++ [0]) H) as (s & r & -> & Hr & Hm);
    [lia|by right|by rewrite strings_length|done|].
  cbn [mbind option_bind]. rewrite strings_length in Hr |- *. rewrite strings_snoc. by exists s, r.
Qed.

Lemma replace_string_ok hdr l m id str : hdr_strings hdr l m -> Forall nul_free l -> nul_free str ->
  1 <= id <= len l -> (len l < 16384 \/ len l < m) -> total (Some <$> strings (l ++ [str])) < 2 ^ 30 ->
  exists s r, replaceClString hdr id str = Some (with_strings hdr s r) /\
    slot_represents s (Some <$> strings (<[Z.to_nat (id - 1) := str]> l)) (next_max m (len l)).
Proof.
  intros H Hl Hs Hid Hcap Ht. rewrite strings_snoc, total_snoc in Ht. unfold replaceClString, replaceClStringN.
  unfold hdr_strings, slot_represents in H.
  destruct (fst (strBuffer hdr)) as [b|]; [|destruct H as [H _]; by destruct l; [cbn in Hid; lia|]].
  destruct H as (Hr & Hi & Hmax). cbn [mbind option_bind].
  assert (Hlen : length (strings l) = length l) by (unfold strings; by rewrite length_fmap).
  destruct (remove_entry_ok b (strings l) m id Hr Hi (strings_ok l Hl)) as (b1 & -> & Hr1 & Hi1 & Hm1);
    [by rewrite Hlen|]. cbn [mbind option_bind]. set (k := Z.to_nat (id - 1)) in *.
  unfold addClStringN. rewrite blob_string by done. cbn [mbind option_bind].
  assert (Hk : (k < length (strings l))%nat) by lia. destruct (lookup_lt_is_Some_2 _ k Hk) as [s0 Hs0].
  pose proof (with_hole_total _ k s0 Hs0). pose proof (with_hole_length (strings l) k) as Hhl.
  set (s1 := (Some b1, snd (strBuffer hdr))).
  assert (H1 : slot_represents s1 (with_hole (strings l) k) m) by (split; [done|split; [done|rewrite Hm1; done]]).
  destruct (add_entry_ok 256 (fun b => b) s1 _ m (str ++ [0]) H1) as (s & r & Ea & Ha & _);
    [lia|by right|by rewrite Hhl, Hlen|lia|].
  cbn [with_strings strBuffer]. fold s1. rewrite Ea. cbn [mbind option_bind with_strings strBuffer].
  rewrite Hhl, Hlen in Ha |- *. unfold slot_represents in Ha.
  destruct s as [[b2|] mal]; cbn [fst snd] in *; [|destruct Ha as [Ha _]; by destruct (with_hole (strings l) k)].
  destruct Ha as (Hr2 & Hi2 & Hmax2). cbn [mbind option_bind].
  destruct (move_last_ok b2 (strings l) k (str ++ [0]) _ Hr2 Hi2 Hk) as (b3 & Hm & Hr3 & Hi3 & Hm3).
  rewrite Hlen in Hm. replace (Z.of_nat k + 1) with id in Hm by lia. rewrite Hm. cbn [mbind option_bind].
  exists (Some b3, mal), r. split; [unfold with_strings; cbn; by rewrite !orb_false_r|].
  unfold strings in *. rewrite list_fmap_insert. split; [done|]. split; [done|]. lia.
Qed.

(** C15: [addClString] gives the next id and puts the string there; every string, old
    and new, is read back by [ClObjectGetClString] under its id. *)
Theorem addClString_refines hdr l m str :
  hdr_strings hdr l m -> Forall nul_free l -> nul_free str ->
  len l < 16384 -> total (Some <$> strings (l ++ [str])) < 2 ^ 30 ->
  exists hdr' m', addClString hdr str = Some (len l + 1, hdr') /\ hdr_strings hdr' (l ++ [str]) m' /\
    forall i s, (l ++ [str]) !! i = Some s -> ClObjectGetClString hdr' (Z.of_nat i + 1) = Some (Some s).
Proof.
  intros H Hl Hs Hn Ht. destruct (add_string_ok hdr l m str H Hs) as (s & r & E & Hr & _); [by left|done|].
  assert (H' : hdr_strings (with_strings hdr s r) (l ++ [str]) (next_max m (len l))) by exact Hr.
  eexists _, _. split; [exact E|]. split; [exact H'|]. intros i t Hi.
  eapply get_strings; [exact H'| |exact Hi]. apply Forall_app. split; [done|]. by constructor.
Qed.

(** [replaceClString] changes the string of its id and no other, for a buffer that
    holds strings only. *)
Theorem replaceClString_refines hdr l m id str :
  hdr_strings hdr l m -> Forall nul_free l -> nul_free str ->
  1 <= id <= len l -> len l < 16384 -> total (Some <$> strings (l ++ [str])) < 2 ^ 30 ->
  exists hdr' m', replaceClString hdr id str = Some hdr' /\
    hdr_strings hdr' (<[Z.to_nat (id - 1) := str]> l) m' /\
    forall i s, <[Z.to_nat (id - 1) := str]> l !! i = Some s ->
      ClObjectGetClString hdr' (Z.of_nat i + 1) = Some (Some s).
Proof.
  intros H Hl Hs Hid Hn Ht.
  destruct (replace_string_ok hdr l m id str H Hl Hs Hid) as (s & r & E & Hr); [by left|done|].
  assert (H' : hdr_strings (with_strings hdr s r) (<[Z.to_nat (id - 1) := str]> l) (next_max m (len l))) by exact Hr.
  eexists _, _. split; [exact E|]. split; [exact H'|]. intros i t Hi.
  eapply get_strings; [exact H'| |exact Hi]. by apply Forall_insert.
Qed.

(** ** The limit of the index *)

Definition empty_hdr : ClObjectHdr := 
  {| hdr_type := 2; strBuffer := (None, false); arrayBuffer := (None, false);
     HDR_Rebuild := false; HDR_ContainsEmbeddedObject := false |}.
Fixpoint add_all (hdr : ClObjectHdr) (l : list bytes) : option ClObjectHdr :=
  match l with
  | [] => Some hdr
  | s :: l => '(_, hdr) ← addClString hdr s; add_all hdr l
  end.

Lemma add_all_app hdr a b : add_all hdr (a ++ b) = h ← add_all hdr a; add_all h b.
Proof.
  revert hdr. induction a as [|s a IH]; intros hdr; [done|]. cbn [app add_all].
  destruct (addClString hdr s) as [[i h]|]; [|done]. cbn [mbind option_bind]. apply IH.
Qed.

(** An index that grew from 16 entries. *)
Definition power (m : Z) : Prop := exists k, 4 <= k <= 14 /\ m = 2 ^ k.

Lemma power_double m n : power m -> m <= n < 16384 -> power (m * 2).
Proof.
  intros (k & Hk & ->) Hn. exists (k + 1). rewrite Z.pow_add_r by lia. split; [|lia].
  destruct (decide (k = 14)) as [->|]; [|lia]. change (2 ^ 14) with 16384 in Hn. lia.
Qed.

Lemma power_full m : power m -> 16384 <= m -> m = 16384.
Proof.
  intros (k & Hk & ->) Hn. destruct (decide (k = 14)) as [->|]; [done|].
  assert (2 ^ k <= 2 ^ 13) by (apply Z.pow_le_mono_r; lia). change (2 ^ 13) with 8192 in *. lia.
Qed.

Lemma add_all_ok l : forall hdr l0 m, hdr_strings hdr l0 m -> power m ->
  Forall nul_free l -> Z.of_nat (length l0 + length l) <= 16384 -> total (Some <$> strings (l0 ++ l)) < 2 ^ 30 ->
  exists hdr' m', add_all hdr l = Some hdr' /\ hdr_strings hdr' (l0 ++ l) m' /\ power m'.
Proof.
  induction l as [|s l IH]; intros hdr l0 m H Hm Hl Hn Ht.
  - exists hdr, m. by rewrite app_nil_r.
  - apply Forall_cons in Hl as [Hs Hl]. cbn [length add_all] in *.
    change (s :: l) with ([s] ++ l) in *. rewrite app_assoc in *.
    assert (Ht' : total (Some <$> strings (l0 ++ [s])) <= total (Some <$> strings ((l0 ++ [s]) ++ l))).
    { rewrite (strings_app (l0 ++ [s])), total_app. pose proof (entries_total_nonneg (Some <$> strings l)). lia. }
    destruct (add_string_ok hdr l0 m s H Hs) as (s1 & r & -> & H1 & _); [lia|lia|].
    cbn [mbind option_bind].
    eapply (IH _ (l0 ++ [s])); [exact H1| |done|rewrite length_app; cbn; lia|done].
    unfold next_max. destruct (Z.leb_spec m (len l0)) as [Hle|]; [|done]. apply (power_double m (len l0)); [done|lia].
Qed.

(** The entry after a full index of 16384: the flag of [iMax] is all that is left. *)
Lemma add_full hdr ss s : slot_represents (strBuffer hdr) ss 16384 -> len ss = 16384 -> nul_free s ->
  total ss + len (s ++ [0]) < 2 ^ 30 ->
  exists i hdr' b', addClString hdr s = Some (i, hdr') /\ fst (strBuffer hdr') = Some b' /\ iMax b' = 32768.
Proof.
  intros H Hlen Hs Ht. unfold addClString, addClStringN, add_entry. rewrite blob_string by done. cbn [mbind option_bind].
  unfold slot_represents in H. destruct (fst (strBuffer hdr)) as [b|] eqn:Eb; [|destruct H as [-> _]; done].
  destruct H as (Hr & Hix & Hmax). pose proof (rep_used _ _ Hr) as Hused. rewrite Hlen in Hused.
  pose proof (rep_total _ _ Hr) as Htot.
  assert (He : ensure_index b = Some (set_index b 32768)).
  { unfold ensure_index. rewrite (get_max_index b _ Hix), Hused. destruct Hix as (_ & _ & Hi). cbn [Z.leb].
    change (16384 * 2) with 32768.
    destruct Hi as [[-> _]|[-> Hc]]; [done|]. cbn. change (16384 * 2) with 32768 in Hc.
    by rewrite (proj2 (Z.leb_le _ _) Hc). }
  rewrite He. cbn [mbind option_bind]. set (b1 := set_index b 32768).
  assert (Hr1 : represents b1 ss) by (apply set_index_rep; [done|]; rewrite Hlen; done).
  assert (Hic : icap b1 = 65536) by reflexivity. assert (Him : iMax b1 = 32768) by reflexivity.
  assert (HM : bMax b1 = bMax b) by reflexivity. assert (HU : bUsed b1 = bUsed b) by reflexivity.
  assert (Hn1 : iUsed b1 = iUsed b) by reflexivity. clearbody b1. clear He.
  destruct (Z.leb_spec (bMax b1) (bUsed b1 + len (s ++ [0]))) as [Hg|Hg].
  - destruct (grow_32 (bMax b1) (bUsed b1 + len (s ++ [0]))) as (n & -> & Hn2 & Hn3); [lia|lia|].
    cbn [mbind option_bind]. replace (if snd (strBuffer hdr) then b1 else b1) with b1 by (by destruct (snd _)).
    assert (Hr2 : represents (set_bMax b1 n) ss) by (destruct Hr1; split; try done; cbn in *; lia).
    destruct (append_rep (set_bMax b1 n) ss (s ++ [0]) Hr2) as (b' & -> & _ & _ & Hi' & _); [cbn; lia..|].
    cbn [mbind option_bind]. eexists _, _, b'. split_and!; [done|done|]. by rewrite Hi'.
  - destruct (append_rep b1 ss (s ++ [0]) Hr1) as (b' & -> & _ & _ & Hi' & _); [lia..|].
    cbn [mbind option_bind]. eexists _, _, b'. split_and!; [done|done|]. by rewrite Hi'.
Qed.

(** With nothing but the flag in [iMax] the index is shrunk to nothing. *)
Lemma add_dead hdr b s : fst (strBuffer hdr) = Some b -> iMax b = 32768 -> 0 <= iUsed b -> addClString hdr s = None.
Proof.
  intros Hb Hi Hu. unfold addClString, addClStringN, add_entry. destruct (blob_of _ _) as [blob|]; [|done].
  cbn [mbind option_bind]. rewrite Hb.
  assert (He : ensure_index b = Some (set_index b 0)).
  { unfold ensure_index. rewrite Hi. change (GetMax 32768) with 0. by rewrite (proj2 (Z.leb_le 0 _) Hu). }
  rewrite He. cbn [mbind option_bind].
  assert (Ha : forall c, icap c = 0 -> append c blob = None).
  { intros c Hc. unfold append, set_cell. cbn [icap]. rewrite Hc. destruct (_ <? _); [done|].
    destruct (Z.leb_spec 0 (iUsed c)); [|done]. rewrite (proj2 (Z.ltb_ge (iUsed c) 0)) by done. done. }
  destruct (_ <=? _).
  - destruct (grow _ _ _); [|done]. cbn [mbind option_bind]. rewrite Ha; [done|]. by destruct (snd _).
  - by rewrite Ha.
Qed.

Lemma append_used (c : ClStrBuf) blob j c' : append c blob = Some (j, c') -> 0 <= iUsed c'.
Proof.
  unfold append. destruct (_ <? _); [done|]. destruct (set_cell _ _ _); [|done].
  cbn [mbind option_bind]. intros [= _ <-]. cbn. apply (wrapu_bound 16). lia.
Qed.

Lemma add_used hdr mem n i hdr' b : addClStringN hdr mem n = Some (i, hdr') -> fst (strBuffer hdr') = Some b -> 0 <= iUsed b.
Proof.
  unfold addClStringN, add_entry. destruct (blob_of mem n) as [blob|]; [|done]. cbn [mbind option_bind].
  intros E Hb. destruct (fst (strBuffer hdr)) as [c|].
  - destruct (ensure_index c) as [c1|]; [|done]. cbn [mbind option_bind] in E. destruct (_ <=? _).
    + destruct (grow _ _ _); [|done]. cbn [mbind option_bind] in E.
      destruct (append _ _) as [[j c2]|] eqn:Ea; [|done]. injection E as _ <-. injection Hb as <-. by eapply append_used.
    + destruct (append _ _) as [[j c2]|] eqn:Ea; [|done]. injection E as _ <-. injection Hb as <-. by eapply append_used.
  - destruct (grow _ _ _); [|done]. cbn [mbind option_bind] in E.
    destruct (append _ _) as [[j c2]|] eqn:Ea; [|done]. injection E as _ <-. injection Hb as <-. by eapply append_used.
Qed.

(** an object holds 16385 strings.  Whatever the strings are, as long as they are
    not too long together, the next one makes the index be released and written to. *)
Theorem string_index_limit l s1 s2 : len l = 16384 -> Forall nul_free (l ++ [s1; s2]) ->
  total (Some <$> strings (l ++ [s1; s2])) < 2 ^ 30 ->
  (exists hdr, add_all empty_hdr (l ++ [s1]) = Some hdr) /\ add_all empty_hdr (l ++ [s1; s2]) = None.
Proof.
  intros Hl0 Hl Ht. change [s1; s2] with ([s1] ++ [s2]) in *. rewrite app_assoc in *.
  assert (Ht0 : total (Some <$> strings l) + len (s1 ++ [0]) < 2 ^ 30).
  { rewrite !strings_snoc, !total_snoc in Ht. lia. }
  apply Forall_app in Hl as [[Hl Hn1]%Forall_app Hn2].
  destruct (add_all_ok l empty_hdr [] 16) as (h1 & m & A1 & H1 & Hm).
  { by split. } { by exists 4. } { done. } { cbn. lia. } { rewrite app_nil_l. lia. }
  rewrite app_nil_l in H1. pose proof (strings_length l) as Hlen0. unfold hdr_strings in H1.
  assert (Em : m = 16384).
  { apply power_full; [done|]. unfold slot_represents in H1. destruct (fst (strBuffer h1)) as [b|].
    - destruct H1 as (Hr & (_ & Hu & _) & _). rewrite (rep_used _ _ Hr) in Hu. lia.
    - destruct H1 as [H1 _]. rewrite H1 in Hlen0. cbn in Hlen0. lia. }
  subst m. destruct (add_full h1 _ s1 H1) as (i & h2 & b2 & A2 & Hb2 & Hi2); [lia|by inversion Hn1|done|].
  assert (A12 : add_all empty_hdr (l ++ [s1]) = Some h2).
  { rewrite add_all_app, A1. cbn [mbind option_bind add_all]. by rewrite A2. }
  split; [by exists h2|]. rewrite add_all_app, A12. cbn [mbind option_bind add_all].
  rewrite (add_dead h2 b2 s2 Hb2 Hi2); [done|]. eapply add_used; [exact A2|done].
Qed.

(** ** The copy *)

Lemma ALIGN_spec x y : 0 <= x -> 0 < y -> x <= ALIGN x y < x + y /\ ALIGN x y mod y = 0.
Proof.
  intros Hx Hy. unfold ALIGN. destruct (Z.eqb_spec x 0) as [->|Hn]; [rewrite Z.mod_0_l; lia|].
  pose proof (Z.div_mod (x - 1) y). pose proof (Z.mod_pos_bound (x - 1) y). rewrite Z.mod_mul by lia. nia.
Qed.

Lemma ALIGN_add k x y : 0 <= x -> 0 < y -> ALIGN (k * y + x) y = if k * y + x =? 0 then 0 else k * y + (if x =? 0 then 0 else ALIGN x y).
Proof.
  intros Hx Hy. unfold ALIGN. destruct (Z.eqb_spec (k * y + x) 0); [done|].
  destruct (Z.eqb_spec x 0) as [->|Hn].
  - replace (k * y + 0 - 1) with ((y - 1) + (k - 1) * y) by lia. rewrite Z.div_add, (Z.div_small (y - 1) y) by lia. lia.
  - replace (k * y + x - 1) with ((x - 1) + k * y) by lia. rewrite Z.div_add by lia. lia.
Qed.

Lemma size_of_buffer u : 0 <= u -> ALIGN (SIZEOF_ClStrBuf + u) 4 = SIZEOF_ClStrBuf + ALIGN u 4.
Proof.
  intros Hu. unfold SIZEOF_ClStrBuf. replace (32 + u) with (8 * 4 + u) by lia. rewrite ALIGN_add by lia.
  rewrite (proj2 (Z.eqb_neq _ 0)) by lia. unfold ALIGN. by destruct (u =? 0).
Qed.

Lemma land_15 n : 0 <= n < 32768 -> Z.land n 32767 = n.
Proof. apply max_plain. Qed.

(** The strings of a copy are the strings of the original. *)
Lemma copy_ok ofs size fh b ss : fst (strBuffer fh) = Some b -> represents b ss ->
  len ss < 32768 -> 0 <= ofs -> ofs + sizeStringBuf fh <= size ->
  exists b', copyStringBuf ofs size fh = Some (sizeStringBuf fh, (Some b', false)) /\
    represents b' ss /\ iMax b' = len ss /\ bMax b' = bUsed b /\
    icap b' = (size - (ofs + SIZEOF_ClStrBuf + ALIGN (bUsed b) 4)) / 4.
Proof.
  intros Hb Hr Hn Ho Hs. pose proof (rep_used _ _ Hr) as H1. pose proof (rep_cells _ _ Hr) as H3.
  unfold copyStringBuf, sizeStringBuf in *. rewrite Hb in *.
  assert (Hu : 0 <= bUsed b) by (rewrite (rep_total _ _ Hr); apply entries_total_nonneg). rewrite size_of_buffer by done.
  destruct (ALIGN_spec (bUsed b) 4 Hu) as [Ha _]; [lia|]. unfold SIZEOF_ClStrBuf in *.
  destruct (ALIGN_spec (32 + ALIGN (bUsed b) 4 + iUsed b * 4) CLALIGN) as [Hc _]; [lia|done|].
  rewrite (proj2 (Z.ltb_ge _ _)), (proj2 (Z.ltb_ge _ _)) by lia. cbn [orb].
  eexists. split; [done|]. cbn [iMax bMax icap].
  split; [|split; [by rewrite H1, land_15 by lia|split; [done|f_equal; lia]]].
  apply copied_rep; [done|done|]. apply Z.div_le_lower_bound; lia.
Qed.

(** The copy takes the bytes that [sizeStringBuf] counts, and an object that has it for
    its strings reads every string under the id it had in the original. *)
Lemma string_copy_ok ofs size fh l m : hdr_strings fh l m -> Forall nul_free l -> len l < 32768 ->
  0 <= ofs -> ofs + sizeStringBuf fh <= size ->
  exists s, copyStringBuf ofs size fh = Some (sizeStringBuf fh, s) /\
    forall th, strBuffer th = s -> sizeStringBuf th = sizeStringBuf fh /\
      forall i t, l !! i = Some t -> ClObjectGetClString th (Z.of_nat i + 1) = Some (Some t).
Proof.
  intros H Hl Hn Ho Hs. unfold hdr_strings, slot_represents in H. destruct (fst (strBuffer fh)) as [b|] eqn:Eb.
  - destruct H as (Hr & _).
    destruct (copy_ok ofs size fh b _ Eb Hr) as (b' & -> & Hr' & _); [by rewrite strings_length|done..|].
    eexists. split; [done|]. intros th Hth. split.
    + unfold sizeStringBuf. rewrite Eb, Hth. cbn [fst].
      by rewrite (rep_used _ _ Hr), (rep_used _ _ Hr'), (rep_total _ _ Hr), (rep_total _ _ Hr').
    + intros i t Hi. eapply (get_entry th b'); [by rewrite Hth|exact Hr'| |].
      * unfold strings. by rewrite !list_lookup_fmap, Hi.
      * by eapply (Forall_lookup_1 nul_free).
  - destruct H as [H _]. destruct l; [|done]. unfold copyStringBuf, sizeStringBuf. rewrite Eb.
    eexists. split; [done|]. intros th ->. by rewrite Eb.
Qed.

(** A copy at the end of its block has no room behind the index: the next string
    makes the code read behind the block (twice the index is copied). *)
Lemma copied_add_overreads ofs fh b l str : fst (strBuffer fh) = Some b -> represents b (Some <$> strings l) ->
  2 <= len l < 32768 -> 0 <= ofs ->
  exists s, copyStringBuf ofs (ofs + sizeStringBuf fh) fh = Some (sizeStringBuf fh, s) /\
    forall th, strBuffer th = s -> addClString th str = None.
Proof.
  intros Eb Hr Hn Ho.
  destruct (copy_ok ofs (ofs + sizeStringBuf fh) fh b _ Eb Hr) as (b' & -> & Hr' & Hi & _ & Hc);
    [rewrite strings_length; lia|done|lia|].
  eexists. split; [done|]. intros th Hth. unfold addClString, addClStringN, add_entry. destruct (blob_of _ _); [|done].
  cbn [mbind option_bind]. rewrite Hth. cbn [fst]. pose proof (rep_used _ _ Hr') as Hu. rewrite strings_length in Hu, Hi.
  assert (He : ensure_index b' = None); [|by rewrite He].
  unfold ensure_index. rewrite Hi, max_plain, Hu, malloced_plain, Z.leb_refl by lia.
  rewrite (proj2 (Z.ltb_lt 0 _)) by lia. cbn [negb].
  rewrite (proj2 (Z.leb_gt _ _)); [done|]. rewrite Hc. unfold cells.
  pose proof (rep_used _ _ Hr) as Hub. rewrite strings_length in Hub.
  assert (Hu0 : 0 <= bUsed b) by (rewrite (rep_total _ _ Hr); apply entries_total_nonneg).
  unfold sizeStringBuf. rewrite Eb, Hub. destruct (ALIGN_spec (bUsed b) 4 Hu0) as [Ha _]; [lia|].
  unfold SIZEOF_ClStrBuf in *.
  destruct (ALIGN_spec (32 + ALIGN (bUsed b) 4 + len l * 4) CLALIGN) as [Hd _]; [lia|done|].
  unfold CLALIGN in *. apply Z.div_lt_upper_bound; lia.
Qed.

(** ** Witnesses *)

Definition wit_strings : list bytes := [cstr "Name"; cstr "Size"].
Definition wit_buf : ClStrBuf :=
  {| iUsed := 2; iMax := Z.lor 16 32768; index := [0; 5]; icap := 32; bUsed := 10; bMax := 256;
     buf := cstr "Name" ++ [0] ++ cstr "Size" ++ [0] |}.
Definition wit_hdr : ClObjectHdr :=
  {| hdr_type := 2; strBuffer := (Some wit_buf, true); arrayBuffer := (None, false);
     HDR_Rebuild := true; HDR_ContainsEmbeddedObject := false |}.

Lemma wit_hdr_ok : hdr_strings wit_hdr wit_strings 16.
Proof.
  split; [|split; [|by vm_compute]].
  - split; try by vm_compute.
    intros [|[|i]] s; vm_compute; intros [= <-]; eexists; (split; [reflexivity|split; [done|reflexivity]]).
  - split; [done|]. split; [done|]. by left.
Qed.

Lemma wit_strings_ok : Forall nul_free wit_strings.
Proof. by repeat constructor. Qed.

Lemma addClString_refines_witness : exists hdr', addClString wit_hdr (cstr "Port") = Some (3, hdr') /\
  ClObjectGetClString hdr' 2 = Some (Some (cstr "Size")).
Proof.
  destruct (addClString_refines wit_hdr wit_strings 16 (cstr "Port") wit_hdr_ok wit_strings_ok)
    as (h & m & E & _ & Hg); [by repeat constructor|done|by vm_compute|].
  exists h. split; [exact E|]. by apply (Hg 1%nat).
Defined.

Lemma replaceClString_refines_witness : exists hdr', replaceClString wit_hdr 1 (cstr "Identifier") = Some hdr' /\
  ClObjectGetClString hdr' 1 = Some (Some (cstr "Identifier")) /\
  ClObjectGetClString hdr' 2 = Some (Some (cstr "Size")).
Proof.
  destruct (replaceClString_refines wit_hdr wit_strings 16 1 (cstr "Identifier") wit_hdr_ok wit_strings_ok)
    as (h & m & E & _ & Hg); [by repeat constructor|done|done|by vm_compute|].
  exists h. split; [exact E|]. split; [by apply (Hg 0%nat)|by apply (Hg 1%nat)].
Defined.

Lemma total_replicate (s : bytes) n : total (replicate n (Some s)) = Z.of_nat n * len s.
Proof. induction n as [|n IH]; [done|]. cbn [replicate total foldr]. fold (total (replicate n (Some s))). rewrite IH. lia. Qed.

Lemma string_index_limit_witness : exists l, add_all empty_hdr l = None.
Proof.
  exists (replicate (Z.to_nat 16384) [] ++ [[]; []]).
  refine (proj2 (string_index_limit (replicate (Z.to_nat 16384) []) [] [] _ _ _)).
  - rewrite length_replicate. lia.
  - apply Forall_app. split; [apply Forall_replicate; constructor|repeat constructor].
  - rewrite strings_app, total_app. unfold strings. rewrite !fmap_replicate, total_replicate. change (len ([] ++ [0])) with 1.
    rewrite Z2Nat.id by lia. by vm_compute.
Defined.

(** * Texts built by concatenation ([cat2string]) *)

(** [sc_str] is what was written to the allocation of [sc_max] bytes, with the NUL. *)
Record stringControl := { sc_str : option bytes; sc_used : Z; sc_max : Z }.

(** A null [str] is dereferenced before it is tested. *)
Definition cat2string (sc : stringControl) (str : option bytes) : option stringControl :=
  str ← str;
  let l := strlen str + 1 in
  '(mem, m) ← match sc_str sc with
              | None => m ← grow 32 (sc_max sc) (sc_used sc + l); Some ([], m)
              | Some mem => if sc_max sc <=? l + sc_used sc then
                              m ← grow 32 (sc_max sc) (sc_used sc + l); Some (mem, m)
                            else Some (mem, sc_max sc)
              end;
  if m <? sc_used sc + l then None else
  Some {| sc_str := Some (take (Z.to_nat (sc_used sc)) mem ++ str ++ [0]);
          sc_used := sc_used sc + (l - 1); sc_max := m |}.

(** The text written so far. *)
Definition sc_text (sc : stringControl) (text : bytes) : Prop :=
  sc_used sc = strlen text /\ 0 < sc_max sc < 2 ^ 31 /\
  match sc_str sc with None => text = [] | Some mem => mem = text ++ [0] /\ strlen text < sc_max sc end.

Lemma cat2string_ok sc text s : sc_text sc text -> strlen (text ++ s) < 2 ^ 30 - 1 ->
  exists sc', cat2string sc (Some s) = Some sc' /\ sc_text sc' (text ++ s) /\ sc_str sc' = Some ((text ++ s) ++ [0]).
Proof.
  intros (Hu & Hm & Hs) Ht. unfold cat2string. cbn [mbind option_bind]. rewrite Hu. rewrite strlen_app in Ht.
  pose proof (strlen_nonneg text). pose proof (strlen_nonneg s).
  destruct (grow_32 (sc_max sc) (strlen text + (strlen s + 1))) as (m & G & Hm1 & Hm2); [done|lia|].
  destruct (sc_str sc) as [mem|].
  - destruct Hs as [-> Hs].
    assert (Htk : take (Z.to_nat (strlen text)) (text ++ [0]) = text).
    { rewrite take_app_le; [apply take_strlen_self|]. unfold strlen. lia. }
    case_zbool; rewrite ?G; cbn [mbind option_bind]; rewrite (proj2 (Z.ltb_ge _ _)) by lia;
      (eexists; split; [done|]); cbn [sc_str]; rewrite Htk, <- app_assoc; (split; [|done]);
      split_and!; cbn [sc_str sc_used sc_max]; rewrite ?strlen_app, ?app_assoc; try lia; split; (done || lia).
  - subst text. rewrite G. cbn [mbind option_bind]. rewrite (proj2 (Z.ltb_ge _ _)) by lia.
    eexists. split; [done|]. cbn [sc_str]. rewrite take_nil. split; [|done].
    split_and!; cbn [sc_str sc_used sc_max]; rewrite ?strlen_app; change (strlen []) with 0 in *; try lia. split; [done|cbn; lia].
Qed.

Fixpoint cat_all (sc : stringControl) (ss : list bytes) : option stringControl :=
  match ss with
  | [] => Some sc
  | s :: ss => sc ← cat2string sc (Some s); cat_all sc ss
  end.

(** Any number of calls build the concatenation of the strings, whatever size the
    allocation starts with. *)
Lemma cat2string_concat ss : forall sc text, sc_text sc text -> strlen (text ++ concat ss) < 2 ^ 30 - 1 ->
  exists sc', cat_all sc ss = Some sc' /\ sc_text sc' (text ++ concat ss).
Proof.
  induction ss as [|s ss IH]; intros sc text H Ht; cbn [concat cat_all] in *.
  - exists sc. by rewrite app_nil_r.
  - rewrite app_assoc in *. rewrite strlen_app in Ht. pose proof (strlen_nonneg (concat ss)).
    destruct (cat2string_ok sc text s H) as (sc1 & -> & H1 & _); [lia|]. cbn [mbind option_bind].
    apply IH; [done|]. rewrite strlen_app. lia.
Qed.
