(* ===== verification/ClObject.v ===== *)
(** * Arrays and properties of serialized objects (objectImpl.c)

    The array buffer of an object ([addClArray], [replaceClArray]), the sections that
    hold its properties, methods, parameters and qualifiers ([ensureClSpace]), and the
    operations on properties: [ClObjectLocateProperty] and [addObjectPropertyH], which
    stores a value under a name, new or already there.

    The value of a text property (string, date, reference) is the id of a string of the
    object, that of an array or an embedded instance the id of an entry of its buffers:
    the code keeps the id in the pointer of the union, [VWord id] here. *)

From S2P Require Import Prelude CString CmpiData ClBuffer StringBuffer.

(** ** Arrays *)

Definition with_arrays (hdr : ClObjectHdr) (s : slot (A := option CMPIData)) (r : bool) : ClObjectHdr :=
  {| hdr_type := hdr_type hdr; strBuffer := strBuffer hdr; arrayBuffer := s;
     HDR_Rebuild := HDR_Rebuild hdr || r; HDR_ContainsEmbeddedObject := HDR_ContainsEmbeddedObject hdr |}.

Definition embedded (hdr : ClObjectHdr) : ClObjectHdr :=
  {| hdr_type := hdr_type hdr; strBuffer := strBuffer hdr; arrayBuffer := arrayBuffer hdr;
     HDR_Rebuild := HDR_Rebuild hdr; HDR_ContainsEmbeddedObject := true |}.

(** The first cell of an entry holds the number of the others. *)
Definition array_extent (mem : list (option CMPIData)) : option (list (option CMPIData)) :=
  match mem with
  | Some h :: _ =>
      n ← word_of (d_value h);
      if (0 <=? s32 n) && (s32 n <? len mem) then Some (take (S (Z.to_nat (s32 n))) mem) else None
  | _ => None
  end.

Definition is_array (s : list (option CMPIData)) : Prop :=
  exists h rest, s = Some h :: rest /\ d_value h = VWord (len rest) /\ len rest < 2 ^ 31.

#[export] Instance entry_of_cells : Extent (option CMPIData).
Proof.
  refine {| extent := array_extent; complete := is_array |}.
  intros s rest (h & r & -> & Hv & Hr). cbn [app array_extent]. rewrite Hv. cbn [word_of mbind option_bind].
  rewrite wraps_small by lia. rewrite (proj2 (Z.leb_le _ _)), (proj2 (Z.ltb_lt _ _)) by (rewrite ?length_cons, ?length_app; lia).
  cbn [andb]. by rewrite Nat2Z.id, firstn_cons, take_app_length.
Defined.

(** The memory of a reference is printed into a buffer of 4096 bytes, a date into one
    of 26. *)
Definition path_chars (path : bytes) : option bytes := if strlen path <? 4096 then Some path else None.
Definition date_chars (cimDt : bytes) : option bytes := if strlen cimDt <? 26 then Some cimDt else None.

(** The loop of [addClArray] over the items. *)
Fixpoint add_items (hdr : ClObjectHdr) (ty : CMPIType) (items : list native_array_item) :
    option (list (option CMPIData) * ClObjectHdr) :=
  match items with
  | [] => Some ([], hdr)
  | i :: items =>
      let text s t := '(id, hdr) ← addClString hdr s;
                      Some ({| d_type := t; d_array := false; d_state := i_state i; d_value := VWord id |}, hdr) in
      '(td, hdr) ←
        (if is_null (i_state i) then
           Some ({| d_type := ty; d_array := false; d_state := i_state i; d_value := i_value i |}, hdr)
         else
           match ty with
           | CMPI_chars => match i_value i with VChars s => text s CMPI_string | _ => None end
           | CMPI_string => match i_value i with VString (Some s) => text s CMPI_string | _ => None end
           | CMPI_dateTime =>
               match i_value i with VDateTime s => s ← date_chars s; text s CMPI_dateTime | _ => None end
           | CMPI_ref => match i_value i with VRef s => s ← path_chars s; text s CMPI_ref | _ => None end
           | CMPI_instance =>
               match i_value i with
               | VInst blob =>
                   '(id, hdr) ← addClObject hdr blob (strlen blob);
                   Some ({| d_type := CMPI_instance; d_array := false; d_state := i_state i; d_value := VWord id |}, hdr)
               | _ => None
               end
           | _ => Some ({| d_type := ty; d_array := false; d_state := i_state i; d_value := i_value i |}, hdr)
           end);
      '(tds, hdr) ← add_items hdr ty items;
      Some (Some td :: tds, hdr)
  end.

Definition array_head (ty : CMPIType) (size : Z) : CMPIData :=
  {| d_type := if bool_decide (ty = CMPI_string) then CMPI_chars else ty; d_array := true; d_state := 0;
     d_value := VWord size |}.

(** A buffer of a block that becomes too small is moved: of its cells of 16 bytes only
    [bMax + 16] bytes are copied. *)
Definition moved_array (b : ClArrayBuf) : ClArrayBuf :=
  let kept := Z.to_nat ((bMax b + 16) / 16) in
  {| iUsed := iUsed b; iMax := iMax b; index := index b; icap := icap b; bUsed := bUsed b; bMax := bMax b;
     buf := take kept (buf b) ++ replicate (length (buf b) - kept) None |}.

(** The strings of the items go into the string buffer, which the cells do not share
    memory with. *)
Definition addClArray (hdr : ClObjectHdr) (v : CMPIValue) : option (Z * ClObjectHdr) :=
  match v with
  | VArray ty items =>
      '(tds, hdr) ← add_items hdr ty items;
      '(id, s, r) ← add_entry 16 moved_array (arrayBuffer hdr) (Some (array_head ty (len items)) :: tds);
      Some (id, with_arrays hdr s r)
  | _ => None
  end.

(** [None] inside is the null pointer. *)
Definition ClObjectGetClArray (hdr : ClObjectHdr) (id : Z) : option (option (list (option CMPIData))) :=
  if id =? 0 then Some None else
  b ← fst (arrayBuffer hdr);
  ofs ← get_cell b (id - 1);
  s ← entry_at b ofs;
  Some (Some s).

Definition replaceClArray (hdr : ClObjectHdr) (id : Z) (v : CMPIValue) : option ClObjectHdr :=
  b ← fst (arrayBuffer hdr);
  b ← remove_entry b id;
  '(i, hdr) ← addClArray (with_arrays hdr (Some b, snd (arrayBuffer hdr)) false) v;
  b ← fst (arrayBuffer hdr);
  b ← move_last b i id;
  Some (with_arrays hdr (Some b, snd (arrayBuffer hdr)) false).

(** ** Sections *)

(** [items] is [None] when [sectionOffset] is 0; [room] is the number of items there is
    memory for at the section. *)
Record ClSection (T : Type) := { items : option (list T); used : Z; max : Z; room : Z }.
Arguments items {T}. Arguments used {T}. Arguments max {T}. Arguments room {T}.

Definition clearClSection {T} : ClSection T := {| items := None; used := 0; max := 0; room := 0 |}.

(** The section with room for another item, and whether the object has to be rebuilt. *)
Definition ensureClSpace {T} (sct : ClSection T) (iSize : Z) : option (ClSection T * bool) :=
  let m := GetMax (max sct) in
  match items sct with
  | None => Some ({| items := Some []; used := used sct; max := Z.lor (u16 iSize) 32768; room := iSize |}, true)
  | Some l =>
      if m <=? used sct then
        let m2 := u16 (m * 2) in
        (* memcpy of the doubled number of items out of the block of the object *)
        if negb (IsMallocedMax (max sct)) && (room sct <? m2) then None
        else Some ({| items := Some (take (Z.to_nat m2) l); used := used sct; max := Z.lor m2 32768; room := m2 |}, true)
      else Some (sct, false)
  end.

(** [p + used++] and the assignment to it. *)
Definition push {T} (sct : ClSection T) (x : T) : option (ClSection T) :=
  match items sct with
  | Some l => if used sct <? room sct then
                Some {| items := Some (take (Z.to_nat (used sct)) l ++ [x]); used := u16 (used sct + 1);
                        max := max sct; room := room sct |}
              else None
  | None => None
  end.

Definition set_rebuild (hdr : ClObjectHdr) (r : bool) : ClObjectHdr :=
  with_strings hdr (strBuffer hdr) r.

Record ClQualifier := { q_id : Z; q_data : CMPIData }.
Record ClProperty := {
  p_data : CMPIData; p_id : Z; p_refName : Z; p_flags : Z; p_quals : Z; p_originId : Z;
  p_qualifiers : ClSection ClQualifier
}.

Definition ClProperty_EmbeddedObjectAsString : Z := 1.
Definition ClProperty_Q_EmbeddedObject : Z := 8.
Definition HDR_Instance : Z := 2.
Definition HDR_Args : Z := 4.

Section locate.
Context {T : Type} (id_of : T -> Z).
(** The loop of the functions that look an item up by its name: the position plus 1,
    0 when there is none. *)
Fixpoint locate (hdr : ClObjectHdr) (id : bytes) (l : list T) (i : Z) : option Z :=
  match l with
  | [] => Some 0
  | p :: l =>
      s ← ClObjectGetClString hdr (id_of p);
      s ← s;
      if strcasecmp id s =? 0 then Some (i + 1) else locate hdr id l (i + 1)
  end.
End locate.

Definition section_list {T} (s : ClSection T) : list T := default [] (items s).

Definition ClObjectLocateProperty (hdr : ClObjectHdr) (prps : ClSection ClProperty) (id : bytes) : option Z :=
  locate p_id hdr id (take (Z.to_nat (used prps)) (section_list prps)) 0.

(** ** Storing a property *)

Definition data_with (d : CMPIData) (v : CMPIValue) : CMPIData :=
  {| d_type := d_type d; d_array := d_array d; d_state := d_state d; d_value := v |}.
Definition data_typed (d : CMPIData) (t : CMPIType) (v : CMPIValue) : CMPIData :=
  {| d_type := t; d_array := d_array d; d_state := d_state d; d_value := v |}.

Definition set_data (p : ClProperty) (d : CMPIData) : ClProperty :=
  {| p_data := d; p_id := p_id p; p_refName := p_refName p; p_flags := p_flags p; p_quals := p_quals p;
     p_originId := p_originId p; p_qualifiers := p_qualifiers p |}.
Definition set_embedded (p : ClProperty) : ClProperty :=
  {| p_data := p_data p; p_id := p_id p; p_refName := p_refName p;
     p_flags := Z.ldiff (p_flags p) ClProperty_EmbeddedObjectAsString;
     p_quals := Z.lor (p_quals p) ClProperty_Q_EmbeddedObject;
     p_originId := p_originId p; p_qualifiers := p_qualifiers p |}.

(** The value of a new property: what is stored, and the header with its strings. *)
Definition new_value (hdr : ClObjectHdr) (p : ClProperty) (d : CMPIData) : option (ClProperty * ClObjectHdr) :=
  let text s t := '(id, hdr) ← addClString hdr s; Some (set_data p (data_typed d t (VWord id)), hdr) in
  if is_null (d_state d) then Some (set_data p d, hdr)
  else if d_array d then
    '(id, hdr) ← addClArray hdr (d_value d); Some (set_data p (data_with d (VWord id)), hdr)
  else
    match d_type d with
    | CMPI_chars => match d_value d with VChars s => text s CMPI_chars | _ => None end
    | CMPI_string =>
        match d_value d with
        | VString (Some s) => text s CMPI_chars
        | VWord 0 => Some (set_data p (data_typed d CMPI_chars NULL), hdr)
        | _ => None
        end
    | CMPI_dateTime => match d_value d with VDateTime s => s ← date_chars s; text s CMPI_dateTime | _ => None end
    | CMPI_ref => match d_value d with VRef s => s ← path_chars s; text s CMPI_ref | _ => None end
    | CMPI_instance =>
        match d_value d with
        | VInst blob =>
            '(id, hdr) ← addClObject hdr blob (strlen blob);
            Some (set_embedded (set_data p (data_with d (VWord id))), embedded hdr)
        | _ => None
        end
    | _ => Some (set_data p d, hdr)
    end.

(** A text property that is there already: its string is replaced or added. *)
Definition new_text (hdr : ClObjectHdr) (p : ClProperty) (d : CMPIData) (s : bytes) : option (ClProperty * ClObjectHdr) :=
  old ← word_of (d_value (p_data p));
  if negb (old =? 0) then
    hdr ← replaceClString hdr old s; Some (set_data p (data_with d (VWord old)), hdr)
  else
    '(id, hdr) ← addClString hdr s; Some (set_data p (data_with d (VWord id)), hdr).

Definition simple_type (d : CMPIData) (t : CMPIType) : bool := bool_decide (d_type d = t) && negb (d_array d).

(** The value of a property that is there already; [inl] is an error. *)
Definition replace_value (hdr : ClObjectHdr) (p : ClProperty) (d : CMPIData) : option (Z + ClProperty * ClObjectHdr) :=
  let od := p_data p in
  let done r := '(p, hdr) ← r; Some (inr (p, hdr)) in
  let mismatch := Some (inl (- CMPI_RC_ERR_TYPE_MISMATCH)) in
  if is_null (d_state d) then Some (inr (set_data p d, hdr))
  else if simple_type od CMPI_chars then
    (* (p + i - 1)->quals && ClProperty_Q_EmbeddedObject *)
    if negb (p_quals p =? 0) then mismatch
    else if simple_type d CMPI_chars then
      match d_value d with VChars s => done (new_text hdr p d s) | _ => None end
    else if negb (simple_type d CMPI_string) then mismatch
    else
      old ← word_of (d_value od);
      hdr ← replaceClString hdr old [];
      Some (inr (set_data p d, hdr))
  else if simple_type od CMPI_dateTime then
    if negb (simple_type d CMPI_dateTime) then mismatch
    else match d_value d with VDateTime s => s ← date_chars s; done (new_text hdr p d s) | _ => None end
  else if simple_type od CMPI_ref then
    if negb (simple_type d CMPI_ref) then mismatch
    else match d_value d with VRef s => s ← path_chars s; done (new_text hdr p d s) | _ => None end
  else if d_array od then
    if negb (d_array d) then mismatch
    else
      old ← word_of (d_value od);
      if negb (old =? 0) then
        hdr ← replaceClArray hdr old (d_value d); Some (inr (set_data p (data_with d (VWord old)), hdr))
      else
        '(id, hdr) ← addClArray hdr (d_value d); Some (inr (set_data p (data_with d (VWord id)), hdr))
  else if (hdr_type hdr =? HDR_Instance) && simple_type od CMPI_instance then
    if negb (simple_type d CMPI_instance) then mismatch
    else match d_value d with
         | VInst blob =>
             old ← word_of (d_value od);
             if negb (old =? 0) then
               hdr ← replaceClObject hdr old blob (strlen blob); Some (inr (set_data p d, hdr))
             else
               '(id, hdr) ← addClObject hdr blob (strlen blob); Some (inr (set_data p (data_with d (VWord id)), hdr))
         | _ => None
         end
  else if (hdr_type hdr =? HDR_Args) && simple_type od CMPI_instance then
    if negb (simple_type d CMPI_instance) then mismatch
    else match d_value d with
         | VInst blob =>
             old ← word_of (d_value od);
             hdr ← (if negb (old =? 0) then removeClObject hdr old else Some hdr);
             '(id, hdr) ← addClObject hdr blob (strlen blob);
             Some (inr (set_data p (data_with d (VWord id)), hdr))
         | _ => None
         end
  else Some (inr (set_data p d, hdr)).

Definition fresh_property : ClProperty :=
  {| p_data := {| d_type := CMPI_null; d_array := false; d_state := 0; d_value := NULL |};
     p_id := 0; p_refName := 0; p_flags := 0; p_quals := 0; p_originId := 0; p_qualifiers := clearClSection |}.
Definition named_property (id refName : Z) : ClProperty :=
  {| p_data := p_data fresh_property; p_id := id; p_refName := refName; p_flags := 0; p_quals := 0;
     p_originId := 0; p_qualifiers := clearClSection |}.

Definition set_item {T} (s : ClSection T) (i : nat) (x : T) : ClSection T :=
  {| items := (fun l => <[i := x]> l) <$> items s; used := used s; max := max s; room := room s |}.

(** The number of the property, or an error below 0. *)
Definition addObjectPropertyH (hdr : ClObjectHdr) (prps : ClSection ClProperty) (id : bytes) (d : CMPIData)
    (refName : option bytes) : option (Z * ClObjectHdr * ClSection ClProperty) :=
  i ← ClObjectLocateProperty hdr prps id;
  if i =? 0 then
    '(prps, r) ← ensureClSpace prps 8;
    '(n, hdr) ← addClString (set_rebuild hdr r) id;
    '(rn, hdr) ← match refName with None => Some (0, hdr) | Some s => addClString hdr s end;
    '(p, hdr) ← new_value hdr (named_property n rn) d;
    prps ← push prps p;
    Some (used prps, hdr, prps)
  else
    p ← section_list prps !! Z.to_nat (i - 1);
    r ← replace_value hdr p d;
    match r with
    | inl e => Some (e, hdr, prps)
    | inr (p, hdr) => Some (i, hdr, set_item prps (Z.to_nat (i - 1)) p)
    end.

(** * Objects as lists of named values

    The strings of an object are [strs]; a text property owns the string of its name
    and that of its value. *)

Definition weight (strs : list bytes) : Z := total (Some <$> strings strs).

Definition str_at (strs : list bytes) (id : Z) : option bytes :=
  if 1 <=? id then strs !! Z.to_nat (id - 1) else None.

Definition text_type (t : CMPIType) : bool :=
  match t with CMPI_chars | CMPI_dateTime | CMPI_ref => true | _ => false end.

(** The id of the string a property has for its value. *)
Definition text_id (d : CMPIData) : option Z :=
  if negb (d_array d) && text_type (d_type d) && negb (is_null (d_state d)) then
    w ← word_of (d_value d); if w =? 0 then None else Some w
  else None.

Inductive aval :=
| AText (t : CMPIType) (state : Z) (s : bytes)
| ARaw (d : CMPIData).

(** A property is seen as its name, its qualifier bits and its value. *)
Definition entry : Type := bytes * (Z * aval).

Definition view (strs : list bytes) (p : ClProperty) : option entry :=
  name ← str_at strs (p_id p);
  match text_id (p_data p) with
  | Some w => s ← str_at strs w; Some (name, (p_quals p, AText (d_type (p_data p)) (d_state (p_data p)) s))
  | None => Some (name, (p_quals p, ARaw (p_data p)))
  end.

Definition owned (p : ClProperty) : list Z := p_id p :: option_list (text_id (p_data p)).

(** The items of a section: room for [m] of them, or a section that was allocated by
    itself. *)
Definition section_ok {T} (s : ClSection T) (ps : list T) : Prop :=
  used s = len ps /\
  (items s = None /\ ps = [] \/
   items s = Some ps /\ exists m, 0 < m < 32768 /\ len ps <= m /\
     (max s = Z.lor m 32768 /\ room s = m \/ max s = m /\ m * 2 <= room s)).

Record represents_object (hdr : ClObjectHdr) (prps : ClSection ClProperty) (strs : list bytes)
    (l : list entry) : Prop := {
  ro_strings : exists m, hdr_strings hdr strs m;
  ro_free : Forall nul_free strs;
  ro_items : exists ps, section_ok prps ps /\ Forall2 (fun p nv => view strs p = Some nv) ps l /\
    NoDup (concat (owned <$> ps))
}.

(** The position of a name, in any case. *)
Fixpoint find_name (id : bytes) (l : list entry) : option nat :=
  match l with
  | [] => None
  | (n, _) :: l => if strcasecmp id n =? 0 then Some 0%nat else S <$> find_name id l
  end.

(** ** Sections *)

Lemma ensure_push {T} (s : ClSection T) ps : section_ok s ps -> len ps < 16384 ->
  exists s1 r, ensureClSpace s 8 = Some (s1, r) /\
    forall x, exists s2, push s1 x = Some s2 /\ section_ok s2 (ps ++ [x]) /\ used s2 = len ps + 1.
Proof.
  intros [Hu Hs] Hn.
  assert (Hpush : forall s1 m, used s1 = len ps -> items s1 = Some ps -> 0 < m < 32768 -> len ps < m ->
    (max s1 = Z.lor m 32768 /\ room s1 = m \/ max s1 = m /\ m * 2 <= room s1) ->
    forall x, exists s2, push s1 x = Some s2 /\ section_ok s2 (ps ++ [x]) /\ used s2 = len ps + 1).
  { intros s1 m Hu1 Hi1 Hm Hlt Hc x. unfold push. rewrite Hi1, Hu1.
    rewrite (proj2 (Z.ltb_lt _ _)) by (destruct Hc as [[_ ->]|[_ Hc]]; lia).
    assert (Hu16 : u16 (len ps + 1) = len ps + 1) by (apply wrapu_small; lia). rewrite Hu16, take_len.
    eexists. split; [done|]. split; [|done]. split; cbn [used items max room]; [rewrite length_app; cbn; lia|].
    right. split; [done|]. exists m. split; [done|]. split; [rewrite length_app; cbn; lia|done]. }
  unfold ensureClSpace. destruct Hs as [[Hi ->]|[Hi (m & Hm & Hl & Hc)]]; rewrite Hi.
  - eexists _, _. split; [done|]. apply (Hpush _ 8); cbn [used items max room]; try done. by left.
  - assert (HM : GetMax (max s) = m) by (destruct Hc as [[-> _]|[-> _]]; [apply max_flag|apply max_plain]; lia).
    rewrite HM, Hu. destruct (Z.leb_spec m (len ps)).
    + assert (Hu16 : u16 (m * 2) = m * 2) by (apply wrapu_small; lia). rewrite Hu16.
      assert (Hg : negb (IsMallocedMax (max s)) && (room s <? m * 2) = false).
      { destruct Hc as [[-> _]|[-> Hr]]; [by rewrite malloced_flag by lia|].
        apply andb_false_iff. right. by apply Z.ltb_ge. }
      rewrite Hg. eexists _, _. split; [done|].
      apply (Hpush _ (m * 2)); cbn [used items max room]; try done; try lia; try by left.
      f_equal. apply take_ge. lia.
    + eexists _, _. split; [done|]. by apply (Hpush s m).
Qed.

Lemma section_ok_list {T} (s : ClSection T) ps : section_ok s ps -> take (Z.to_nat (used s)) (section_list s) = ps.
Proof.
  intros [-> [[E ->]|[E _]]]; unfold section_list; rewrite E; [done|]. apply take_len.
Qed.

Lemma section_ok_lookup {T} (s : ClSection T) ps i x : section_ok s ps -> ps !! i = Some x -> section_list s !! i = Some x.
Proof. intros [_ [[E ->]|[E _]]] Hi; unfold section_list; rewrite E; [done|exact Hi]. Qed.

Lemma section_ok_insert {T} (s : ClSection T) ps i x : section_ok s ps -> section_ok (set_item s i x) (<[i := x]> ps).
Proof.
  intros [Hu Hs]. split; cbn [used items max room]; [by rewrite length_insert|]. unfold set_item. cbn [items].
  destruct Hs as [[E ->]|[E H]]; rewrite E; [by left|right]. split; [done|]. by rewrite length_insert.
Qed.

(** ** Strings *)

Lemma str_at_app strs t id s : str_at strs id = Some s -> str_at (strs ++ t) id = Some s.
Proof.
  unfold str_at. destruct (1 <=? id); [|done]. intros Hs. by apply lookup_app_l_Some.
Qed.

Lemma str_at_bound strs id s : str_at strs id = Some s -> 1 <= id <= len strs.
Proof.
  unfold str_at. destruct (Z.leb_spec 1 id); [|done]. intros Hs%lookup_lt_Some. lia.
Qed.

Lemma str_at_new strs s : str_at (strs ++ [s]) (len strs + 1) = Some s.
Proof.
  unfold str_at. rewrite (proj2 (Z.leb_le _ _)) by lia. replace (Z.to_nat (len strs + 1 - 1)) with (length strs) by lia.
  by rewrite lookup_app_r, Nat.sub_diag.
Qed.

Lemma str_at_insert strs w s id : 1 <= w -> id <> w ->
  str_at (<[Z.to_nat (w - 1) := s]> strs) id = str_at strs id.
Proof.
  intros Hw Hn. unfold str_at. destruct (Z.leb_spec 1 id); [|done]. apply list_lookup_insert_ne. lia.
Qed.

Lemma str_at_insert_eq strs w s : 1 <= w <= len strs -> str_at (<[Z.to_nat (w - 1) := s]> strs) w = Some s.
Proof.
  intros Hw. unfold str_at. rewrite (proj2 (Z.leb_le _ _)) by lia. apply list_lookup_insert_eq. lia.
Qed.

Lemma get_str hdr strs m id s : hdr_strings hdr strs m -> Forall nul_free strs -> str_at strs id = Some s ->
  ClObjectGetClString hdr id = Some (Some s).
Proof.
  intros H Hf Hs. pose proof (str_at_bound _ _ _ Hs) as Hb. unfold str_at in Hs.
  rewrite (proj2 (Z.leb_le _ _)) in Hs by lia. replace id with (Z.of_nat (Z.to_nat (id - 1)) + 1) by lia.
  by eapply get_strings.
Qed.

(** A property sees the same when its strings are the same. *)
Lemma view_stable strs strs' p nv : view strs p = Some nv ->
  (forall id s, id ∈ owned p -> str_at strs id = Some s -> str_at strs' id = Some s) -> view strs' p = Some nv.
Proof.
  unfold view, owned. intros H Hs. destruct (str_at strs (p_id p)) as [name|] eqn:E; [|done].
  rewrite (Hs _ _ (list_elem_of_here _ _) E). cbn [mbind option_bind] in *.
  destruct (text_id (p_data p)) as [w|]; [|done]. cbn [mbind option_bind option_list] in *.
  destruct (str_at strs w) as [s|] eqn:Ew; [|done].
  by rewrite (Hs w s (list_elem_of_further _ _ _ (list_elem_of_here _ _)) Ew).
Qed.

Lemma view_owned strs p nv id : view strs p = Some nv -> id ∈ owned p -> 1 <= id <= len strs.
Proof.
  unfold view, owned. intros H Hid. destruct (str_at strs (p_id p)) as [name|] eqn:E; [|done].
  cbn [mbind option_bind] in H. apply elem_of_cons in Hid as [->|Hid]; [by eapply str_at_bound|].
  destruct (text_id (p_data p)) as [w|]; [|by apply elem_of_nil in Hid].
  apply list_elem_of_singleton in Hid as ->. cbn [mbind option_bind] in H.
  destruct (str_at strs w) eqn:Ew; [|done]. by eapply str_at_bound.
Qed.

Lemma weight_app a b : weight (a ++ b) = weight a + weight b.
Proof. unfold weight. by rewrite strings_app, total_app. Qed.

Lemma weight_one s : weight [s] = len s + 1.
Proof. unfold weight, strings. cbn. rewrite length_app. cbn. lia. Qed.

Lemma weight_nonneg l : 0 <= weight l.
Proof. apply entries_total_nonneg. Qed.

Lemma locate_ok hdr strs m id : hdr_strings hdr strs m -> Forall nul_free strs ->
  forall ps l i, Forall2 (fun p nv => view strs p = Some nv) ps l ->
  locate p_id hdr id ps i = Some (match find_name id l with None => 0 | Some k => i + Z.of_nat k + 1 end).
Proof.
  intros H Hf ps l i HF. revert i. induction HF as [|p [n v] ps l Hv _ IH]; intros i; [done|]. cbn [locate find_name].
  unfold view in Hv. destruct (str_at strs (p_id p)) as [name|] eqn:E; [|done]. cbn [mbind option_bind] in Hv.
  assert (name = n) as ->.
  { destruct (text_id (p_data p)) as [w|]; [|congruence]. destruct (str_at strs w); [|done].
    cbn [mbind option_bind] in Hv. congruence. }
  rewrite (get_str hdr strs m _ _ H Hf E). cbn [mbind option_bind]. destruct (strcasecmp id n =? 0).
  - f_equal. lia.
  - rewrite IH. destruct (find_name id l) as [k|]; [|done]. cbn [fmap option_fmap option_map]. f_equal. lia.
Qed.

(** ** Storing a new property *)

Definition stored (d : CMPIData) : option aval :=
  if is_null (d_state d) then Some (ARaw d)
  else if d_array d then None
  else
    match d_type d, d_value d with
    | CMPI_chars, VChars s => Some (AText CMPI_chars (d_state d) s)
    | CMPI_string, VString (Some s) => Some (AText CMPI_chars (d_state d) s)
    | CMPI_string, VWord 0 => Some (ARaw (data_typed d CMPI_chars NULL))
    | CMPI_dateTime, VDateTime s => if strlen s <? 26 then Some (AText CMPI_dateTime (d_state d) s) else None
    | CMPI_ref, VRef s => if strlen s <? 4096 then Some (AText CMPI_ref (d_state d) s) else None
    | (CMPI_chars | CMPI_string | CMPI_dateTime | CMPI_ref | CMPI_instance), _ => None
    | _, _ => Some (ARaw d)
    end.

Definition text_of (v : aval) : list bytes := match v with AText _ _ s => [s] | ARaw _ => [] end.

Lemma add_str hdr strs m s : hdr_strings hdr strs m -> nul_free s -> len strs < 16384 ->
  weight strs + weight [s] < 2 ^ 30 ->
  exists hdr' m', addClString hdr s = Some (len strs + 1, hdr') /\ hdr_strings hdr' (strs ++ [s]) m'.
Proof.
  intros H Hs Hn Ht. destruct (add_string_ok hdr strs m s H Hs) as (sl & r & E & Hr & _); [by left|by rewrite <- weight_app in Ht|].
  by eexists _, _.
Qed.

Lemma replace_str hdr strs m id s : hdr_strings hdr strs m -> Forall nul_free strs -> nul_free s ->
  1 <= id <= len strs -> len strs < 16384 -> weight strs + weight [s] < 2 ^ 30 ->
  exists hdr' m', replaceClString hdr id s = Some hdr' /\ hdr_strings hdr' (<[Z.to_nat (id - 1) := s]> strs) m'.
Proof.
  intros H Hf Hs Hid Hn Ht.
  destruct (replace_string_ok hdr strs m id s H Hf Hs Hid) as (sl & r & E & Hr); [by left|by rewrite <- weight_app in Ht|].
  by eexists _, _.
Qed.

(** What [new_value] stores for a value that is not an array or an instance. *)
Lemma new_value_ok hdr strs m p d v : hdr_strings hdr strs m -> stored d = Some v -> Forall nul_free (text_of v) ->
  len strs < 16384 -> weight strs + weight (text_of v) < 2 ^ 30 ->
  exists d' hdr' m', new_value hdr p d = Some (set_data p d', hdr') /\ hdr_strings hdr' (strs ++ text_of v) m' /\
    match v with
    | AText t st s => text_id d' = Some (len strs + 1) /\ d_type d' = t /\ d_state d' = st
    | ARaw d0 => d' = d0 /\ text_id d' = None
    end.
Proof.
  intros H Hd Hv Hn Hw. unfold stored in Hd. unfold new_value.
  assert (Htext : forall t s, v = AText t (d_state d) s -> text_type t = true -> is_null (d_state d) = false -> d_array d = false ->
    exists d' hdr' m', ('(id, hdr) ← addClString hdr s; Some (set_data p (data_typed d t (VWord id)), hdr)) = Some (set_data p d', hdr')
      /\ hdr_strings hdr' (strs ++ text_of v) m' /\
      match v with
      | AText t st s => text_id d' = Some (len strs + 1) /\ d_type d' = t /\ d_state d' = st
      | ARaw d0 => d' = d0 /\ text_id d' = None
      end).
  { intros t s -> Ht Hst Har. cbn [text_of] in *. apply Forall_cons in Hv as [Hs _].
    destruct (add_str hdr strs m s H Hs Hn Hw) as (hdr' & m' & -> & H'). cbn [mbind option_bind].
    eexists _, hdr', m'. split; [done|]. split; [done|]. split; [|done]. unfold text_id, data_typed. cbn.
    rewrite Har, Ht, Hst. cbn. by rewrite (proj2 (Z.eqb_neq _ 0)) by lia. }
  assert (Hraw : forall d0, v = ARaw d0 -> text_id d0 = None ->
    exists d' hdr' m', Some (set_data p d0, hdr) = Some (set_data p d', hdr') /\ hdr_strings hdr' (strs ++ text_of v) m' /\
      match v with
      | AText t st s => text_id d' = Some (len strs + 1) /\ d_type d' = t /\ d_state d' = st
      | ARaw d0 => d' = d0 /\ text_id d' = None
      end).
  { intros d0 -> Hid. eexists d0, hdr, m. cbn [text_of]. by rewrite app_nil_r. }
  destruct (is_null (d_state d)) eqn:Hst.
  { injection Hd as <-. apply Hraw; [done|]. unfold text_id. by rewrite Hst, andb_false_r. }
  destruct (d_array d) eqn:Har; [done|].
  destruct (d_type d) eqn:Ety; try (injection Hd as <-; apply Hraw; [done|]; unfold text_id; by rewrite Ety, Har);
    destruct (d_value d) eqn:Ev; try done.
  - unfold path_chars. destruct (strlen path <? 4096); [|done]. injection Hd as <-. by apply Htext.
  - destruct w; [|done..]. injection Hd as <-. apply Hraw; [done|]. unfold text_id. cbn. by rewrite Hst, Har.
  - destruct hdl as [s|]; [|done]. injection Hd as <-. by apply Htext.
  - injection Hd as <-. by apply Htext.
  - unfold date_chars. destruct (strlen cimDt <? 26); [|done]. injection Hd as <-. by apply Htext.
Qed.

Lemma concat_owned_cons p ps : concat (owned <$> (p :: ps)) = owned p ++ concat (owned <$> ps).
Proof. done. Qed.

Lemma views_stable strs strs' ps (l : list entry) : Forall2 (fun p nv => view strs p = Some nv) ps l ->
  (forall id s, id ∈ concat (owned <$> ps) -> str_at strs id = Some s -> str_at strs' id = Some s) ->
  Forall2 (fun p nv => view strs' p = Some nv) ps l.
Proof.
  induction 1 as [|p nv ps l Hv _ IH]; intros Hs; constructor.
  - eapply view_stable; [exact Hv|]. intros id s Hid. apply Hs. rewrite concat_owned_cons. apply elem_of_app. by left.
  - apply IH. intros id s Hid. apply Hs. rewrite concat_owned_cons. apply elem_of_app. by right.
Qed.

Lemma views_owned strs ps (l : list entry) id : Forall2 (fun p nv => view strs p = Some nv) ps l ->
  id ∈ concat (owned <$> ps) -> 1 <= id <= len strs.
Proof.
  induction 1 as [|p nv ps l Hv _ IH]; [by intros ?%elem_of_nil|].
  rewrite concat_owned_cons. intros [Hid|Hid]%elem_of_app; [by eapply view_owned|by apply IH].
Qed.

Lemma concat_owned_snoc ps p : concat (owned <$> (ps ++ [p])) = concat (owned <$> ps) ++ owned p.
Proof. by rewrite fmap_app, concat_app, concat_owned_cons, app_nil_r. Qed.

(** a value that is not an array or an instance, stored under a name the object
    does not have, becomes its last property: the position is returned, and all other
    properties are as before. *)
Theorem addObjectPropertyH_new hdr prps strs l id d v :
  represents_object hdr prps strs l -> find_name id l = None -> stored d = Some v ->
  nul_free id -> Forall nul_free (text_of v) ->
  len l < 16384 -> len strs < 16383 -> weight strs + weight [id] + weight (text_of v) < 2 ^ 30 ->
  exists hdr' prps', addObjectPropertyH hdr prps id d None = Some (len l + 1, hdr', prps') /\
    represents_object hdr' prps' (strs ++ id :: text_of v) (l ++ [(id, (0, v))]).
Proof.
  intros [[m Hm] Hf (ps & Hsec & HF & Hnd)] Hfind Hd Hid Hv Hl Hn Hw. unfold addObjectPropertyH, ClObjectLocateProperty.
  pose proof (weight_nonneg (text_of v)) as Hwv.
  rewrite (section_ok_list prps ps Hsec), (locate_ok hdr strs m id Hm Hf ps l 0 HF), Hfind. cbn [mbind option_bind Z.eqb].
  pose proof (Forall2_length _ _ _ HF) as Hlen.
  destruct (ensure_push prps ps Hsec) as (s1 & r & -> & Hpush); [lia|]. cbn [mbind option_bind].
  destruct (add_str (set_rebuild hdr r) strs m id) as (h1 & m1 & -> & H1); [exact Hm|done|lia|lia|]. cbn [mbind option_bind].
  destruct (new_value_ok h1 (strs ++ [id]) m1 (named_property (len strs + 1) 0) d v H1 Hd Hv) as (d' & h2 & m2 & -> & H2 & Hd');
    [rewrite length_app; cbn; lia|rewrite weight_app; lia|]. cbn [mbind option_bind].
  set (p := set_data _ d'). destruct (Hpush p) as (s2 & -> & Hs2 & Hu2). cbn [mbind option_bind].
  eexists h2, s2. split; [by rewrite Hu2, Hlen|]. rewrite <- app_assoc in H2.
  assert (Howned : forall x, x ∈ owned p -> len strs < x).
  { unfold owned, p. cbn. intros x [->|Hx]%elem_of_cons; [lia|]. destruct v.
    - destruct Hd' as (E & _). rewrite E in Hx. apply list_elem_of_singleton in Hx as ->. rewrite length_app. cbn. lia.
    - destruct Hd' as (_ & E). rewrite E in Hx. by apply elem_of_nil in Hx. }
  split; [by exists m2| |].
  - apply Forall_app. split; [done|]. by constructor.
  - exists (ps ++ [p]). split; [done|]. split.
    + apply Forall2_app; [|constructor; [|constructor]].
      * eapply views_stable; [exact HF|]. intros x s _ Hx. by apply str_at_app.
      * change (id :: text_of v) with ([id] ++ text_of v). rewrite app_assoc. unfold view, p. cbn [p_id named_property set_data p_data p_quals].
        rewrite (str_at_app _ _ _ _ (str_at_new strs id)). cbn [mbind option_bind]. destruct v as [t st s|d0].
        -- destruct Hd' as (-> & <- & <-). cbn [text_of]. rewrite str_at_new. done.
        -- destruct Hd' as (-> & ->). done.
    + rewrite concat_owned_snoc. apply NoDup_app. split; [done|]. split.
      * intros x Hx Hp%Howned. pose proof (views_owned _ _ _ _ HF Hx). lia.
      * unfold owned, p. cbn. destruct v.
        -- destruct Hd' as (-> & _). apply NoDup_cons. split; [|apply NoDup_singleton].
           intros Hx%list_elem_of_singleton. rewrite length_app in Hx. cbn in Hx. lia.
        -- destruct Hd' as (_ & ->). apply NoDup_singleton.
Qed.

(** ** Replacing the value of a property *)

Lemma views_update strs strs' ps (l : list entry) k p p' nv' :
  Forall2 (fun p nv => view strs p = Some nv) ps l -> ps !! k = Some p -> NoDup (concat (owned <$> ps)) ->
  view strs' p' = Some nv' -> NoDup (owned p') ->
  (forall x, x ∈ owned p' -> x ∈ owned p \/ len strs < x) ->
  (forall x s, x ∉ owned p -> str_at strs x = Some s -> str_at strs' x = Some s) ->
  Forall2 (fun p nv => view strs' p = Some nv) (<[k := p']> ps) (<[k := nv']> l) /\
  NoDup (concat (owned <$> <[k := p']> ps)).
Proof.
  intros HF Hk Hnd Hv Hnd' Hown Hst.
  destruct (Forall2_lookup_l _ _ _ _ _ HF Hk) as (nv & Hlk & _).
  pose proof (take_drop_middle ps k p Hk) as Eps. pose proof (take_drop_middle l k nv Hlk) as El.
  pose proof (lookup_lt_Some _ _ _ Hk) as Hkl. pose proof (lookup_lt_Some _ _ _ Hlk) as Hkl'.
  rewrite !insert_take_drop by done.
  set (a := take k ps) in *. set (c := drop (S k) ps) in *. set (la := take k l) in *. set (lc := drop (S k) l) in *.
  rewrite <- Eps, <- El in HF. rewrite <- Eps in Hnd.
  rewrite fmap_app, concat_app, concat_owned_cons in Hnd |- *.
  apply NoDup_app in Hnd as (HndA & HA & (HndO & HO & HndC)%NoDup_app).
  apply Forall2_app_inv in HF as [HFa HF]; [|unfold a, la; by rewrite !length_take; lia].
  apply Forall2_cons in HF as [_ HFc].
  assert (Hb : forall x, x ∈ concat (owned <$> a) \/ x ∈ concat (owned <$> c) -> x <= len strs).
  { intros x [Hx|Hx]; [pose proof (views_owned _ _ _ _ HFa Hx)|pose proof (views_owned _ _ _ _ HFc Hx)]; lia. }
  split.
  - apply Forall2_app; [|constructor; [exact Hv|]].
    + eapply views_stable; [exact HFa|]. intros x s Hx. apply Hst. intros Hn. apply (HA x Hx), elem_of_app. by left.
    + eapply views_stable; [exact HFc|]. intros x s Hx. apply Hst. intros Hn. by apply (HO x Hn).
  - apply NoDup_app. split; [done|]. split.
    + intros x Hx. rewrite elem_of_app. intros [[Hp|Hp]%Hown|Hc].
      * apply (HA x Hx), elem_of_app. by left.
      * specialize (Hb x (or_introl Hx)). lia.
      * apply (HA x Hx), elem_of_app. by right.
    + apply NoDup_app. split; [done|]. split; [|done]. intros x [Hp|Hp]%Hown Hc.
      * by apply (HO x Hp).
      * specialize (Hb x (or_intror Hc)). lia.
Qed.

(** Types that are neither text nor objects, and what a value becomes. *)
Definition plain (d : CMPIData) : bool :=
  negb (d_array d) &&
  match d_type d with
  | CMPI_chars | CMPI_string | CMPI_dateTime | CMPI_ref | CMPI_instance => false
  | _ => true
  end.

Definition same_text (q : Z) (t : CMPIType) (d : CMPIData) : option aval :=
  if simple_type d t && (negb (bool_decide (t = CMPI_chars)) || (q =? 0)) then
    match stored d with Some (AText t' st s) => Some (AText t' st s) | _ => None end
  else None.

Definition replaced (q : Z) (v : aval) (d : CMPIData) : option aval :=
  if is_null (d_state d) then Some (ARaw d)
  else
    match v with
    | AText t _ _ => same_text q t d
    | ARaw od =>
        if plain od then if plain d then Some (ARaw d) else None
        else if negb (d_array od) && text_type (d_type od) && bool_decide (word_of (d_value od) = Some 0) then same_text q (d_type od) d
        else None
    end.

Lemma text_id_inv d w : text_id d = Some w ->
  d_array d = false /\ text_type (d_type d) = true /\ is_null (d_state d) = false /\ d_value d = VWord w /\ w <> 0.
Proof.
  unfold text_id. destruct (d_array d); [done|]. destruct (text_type (d_type d)); [|done].
  destruct (is_null (d_state d)); [done|]. cbn [negb andb]. destruct (d_value d) as [x| | | | | | |]; try done.
  cbn [word_of mbind option_bind]. destruct (Z.eqb_spec x 0); [done|]. intros [= <-]. by split_and!.
Qed.

Lemma view_inv strs p name q v : view strs p = Some (name, (q, v)) ->
  str_at strs (p_id p) = Some name /\ p_quals p = q /\
  match v with
  | AText t st s => exists w, text_id (p_data p) = Some w /\ str_at strs w = Some s /\ d_type (p_data p) = t /\ d_state (p_data p) = st
  | ARaw d => text_id (p_data p) = None /\ p_data p = d
  end.
Proof.
  unfold view. destruct (str_at strs (p_id p)) as [n|]; [|done]. cbn [mbind option_bind].
  destruct (text_id (p_data p)) as [w|] eqn:Et.
  - destruct (str_at strs w) as [s|] eqn:Es; [|done]. cbn [mbind option_bind]. intros [= <- <- <-].
    split_and!; try done. by exists w.
  - intros [= <- <- <-]. by split_and!.
Qed.

(** [replace_value] of a text property that has a string. *)
Lemma same_text_stored q t d v : same_text q t d = Some v -> text_type t = true -> is_null (d_state d) = false ->
  d_array d = false /\ d_type d = t /\ (t = CMPI_chars -> q = 0) /\ exists s, v = AText t (d_state d) s /\
  (match t with CMPI_chars => d_value d = VChars s | CMPI_dateTime => d_value d = VDateTime s /\ strlen s < 26
   | _ => d_value d = VRef s /\ strlen s < 4096 end).
Proof.
  unfold same_text, simple_type. destruct (bool_decide_reflect (d_type d = t)) as [<-|]; [|done].
  destruct (d_array d) eqn:Ear; [done|]. cbn [andb negb]. intros H Ht Hn.
  assert (Hq : d_type d = CMPI_chars -> q = 0).
  { intros Ec. rewrite bool_decide_eq_true_2 in H by done. cbn [negb orb] in H. by destruct (Z.eqb_spec q 0). }
  destruct (negb _ || _); [|done]. unfold stored in H. rewrite Hn, Ear in H. split; [done|]. split; [done|]. split; [done|].
  destruct (d_type d) eqn:Ety; try done; destruct (d_value d) as [w| |sv|hv|pv|iv|dv|ty iv]; try done.
  - destruct (Z.ltb_spec (strlen pv) 4096); [|done]. injection H as <-. exists pv. by split_and!.
  - injection H as <-. by exists sv.
  - destruct (Z.ltb_spec (strlen dv) 26); [|done]. injection H as <-. exists dv. by split_and!.
Qed.

Lemma replace_value_text hdr p d q t v : same_text q t d = Some v -> text_type t = true -> is_null (d_state d) = false ->
  simple_type (p_data p) t = true -> p_quals p = q ->
  exists s, v = AText t (d_state d) s /\
    replace_value hdr p d = '(p, hdr) ← new_text hdr p d s; Some (inr (p, hdr)).
Proof.
  intros H Ht Hn Hod Hq. destruct (same_text_stored _ _ _ _ H Ht Hn) as (Ear & Ety & Hq0 & s & -> & Hs).
  exists s. split; [done|]. unfold replace_value. rewrite Hn.
  assert (Hod' : forall t', simple_type (p_data p) t' = bool_decide (t = t')).
  { intros t'. unfold simple_type in *. apply andb_true_iff in Hod as [E%bool_decide_eq_true ->].
    rewrite E. cbn. apply andb_true_r. }
  assert (Hd : forall t', simple_type d t' = bool_decide (t = t')).
  { intros t'. unfold simple_type. rewrite Ear, Ety. apply andb_true_r. }
  rewrite !Hod', !Hd. destruct t; try done; cbn.
  - destruct Hs as [-> Hs]. unfold path_chars. by rewrite (proj2 (Z.ltb_lt _ _) Hs).
  - rewrite Hq, Hq0 by done. cbn. by rewrite Hs.
  - destruct Hs as [-> Hs]. unfold date_chars. by rewrite (proj2 (Z.ltb_lt _ _) Hs).
Qed.

Lemma replace_value_plain hdr p d : plain (p_data p) = true -> replace_value hdr p d = Some (inr (set_data p d, hdr)).
Proof.
  unfold plain. intros [Ha%negb_true_iff H]%andb_true_iff. unfold replace_value, simple_type. rewrite Ha.
  destruct (is_null (d_state d)); [done|]. destruct (d_type (p_data p)); try done; cbn; by rewrite !andb_false_r.
Qed.

Lemma find_name_lookup id l k : find_name id l = Some k -> exists nv, l !! k = Some nv.
Proof.
  revert k. induction l as [|[n v] l IH]; intros k; [done|]. cbn [find_name]. destruct (_ =? 0).
  - intros [= <-]. by eexists.
  - destruct (find_name id l) as [j|]; [|done]. intros [= <-]. by apply IH.
Qed.

(** The property found is stored with its new value. *)
Lemma stored_at hdr prps strs m ps l id d refName k p p' hdr' :
  hdr_strings hdr strs m -> Forall nul_free strs -> section_ok prps ps ->
  Forall2 (fun p nv => view strs p = Some nv) ps l -> find_name id l = Some k -> ps !! k = Some p ->
  replace_value hdr p d = Some (inr (p', hdr')) ->
  addObjectPropertyH hdr prps id d refName = Some (Z.of_nat k + 1, hdr', set_item prps k p').
Proof.
  intros Hm Hf Hsec HF Hfind Hk Hr. unfold addObjectPropertyH, ClObjectLocateProperty.
  rewrite (section_ok_list prps ps Hsec), (locate_ok hdr strs m id Hm Hf ps l 0 HF), Hfind. cbn [mbind option_bind].
  rewrite (proj2 (Z.eqb_neq _ 0)) by lia. replace (Z.to_nat (0 + Z.of_nat k + 1 - 1)) with k by lia.
  rewrite (section_ok_lookup prps ps k p Hsec Hk). cbn [mbind option_bind]. rewrite Hr. cbn [mbind option_bind].
  by replace (0 + Z.of_nat k + 1) with (Z.of_nat k + 1) by lia.
Qed.

(** The cases of [replace_value]: what becomes of the strings. *)
Lemma replace_value_ok hdr strs m p d name q v v' :
  hdr_strings hdr strs m -> Forall nul_free strs -> view strs p = Some (name, (q, v)) -> NoDup (owned p) ->
  replaced q v d = Some v' -> Forall nul_free (text_of v') -> len strs < 16384 -> weight strs + weight (text_of v') < 2 ^ 30 ->
  exists d' hdr' strs' m', replace_value hdr p d = Some (inr (set_data p d', hdr')) /\ hdr_strings hdr' strs' m' /\
    Forall nul_free strs' /\ len strs' <= len strs + 1 /\
    view strs' (set_data p d') = Some (name, (q, v')) /\ NoDup (owned (set_data p d')) /\
    (forall x, x ∈ owned (set_data p d') -> x ∈ owned p \/ len strs < x) /\
    (forall x s, x ∉ owned p -> str_at strs x = Some s -> str_at strs' x = Some s).
Proof.
  intros Hm Hf Hv Hnd Hrep Hfree Hn Hw. destruct (view_inv _ _ _ _ _ Hv) as (Hname & Hq & Hval).
  assert (Hraw : text_id d = None -> v' = ARaw d -> replace_value hdr p d = Some (inr (set_data p d, hdr)) ->
    exists d' hdr' strs' m', replace_value hdr p d = Some (inr (set_data p d', hdr')) /\ hdr_strings hdr' strs' m' /\
    Forall nul_free strs' /\ len strs' <= len strs + 1 /\
    view strs' (set_data p d') = Some (name, (q, v')) /\ NoDup (owned (set_data p d')) /\
    (forall x, x ∈ owned (set_data p d') -> x ∈ owned p \/ len strs < x) /\
    (forall x s, x ∉ owned p -> str_at strs x = Some s -> str_at strs' x = Some s)).
  { intros Hid -> E. exists d, hdr, strs, m. split; [exact E|]. split; [done|]. split; [done|]. split; [lia|]. split; [|split; [|split]].
    - unfold view. cbn [set_data p_id p_data p_quals]. rewrite Hname. cbn [mbind option_bind]. by rewrite Hid, Hq.
    - unfold owned. cbn. rewrite Hid. apply NoDup_singleton.
    - unfold owned at 1. cbn. rewrite Hid. intros x ->%list_elem_of_singleton. left. apply list_elem_of_here.
    - done. }
  unfold replaced in Hrep. destruct (is_null (d_state d)) eqn:Hnull.
  { injection Hrep as <-. apply Hraw; [|done|].
    - unfold text_id. by rewrite Hnull, andb_false_r.
    - unfold replace_value. by rewrite Hnull. }
  destruct v as [t st s0|od].
  - destruct Hval as (w & Hid & Hs0 & Ht & _). destruct (text_id_inv _ _ Hid) as (Har & Htt & _ & Hw0 & Hwn).
    pose proof (str_at_bound _ _ _ Hs0) as Hwb.
    destruct (replace_value_text hdr p d q t v' Hrep) as (s & -> & ->); [by subst t|done| |done|].
    { unfold simple_type. by rewrite Ht, bool_decide_eq_true_2, Har. }
    cbn [text_of] in *. apply Forall_cons in Hfree as [Hs _]. unfold new_text. rewrite Hw0. cbn [word_of mbind option_bind].
    rewrite (proj2 (Z.eqb_neq w 0)) by done. cbn [negb].
    destruct (replace_str hdr strs m w s Hm Hf Hs Hwb Hn Hw) as (hdr' & m' & -> & H'). cbn [mbind option_bind].
    assert (Htid : text_id (data_with d (VWord w)) = Some w).
    { destruct (same_text_stored _ _ _ _ Hrep) as (Hda & Hdt & _); [by subst t|done|]. subst t.
      unfold text_id. cbn. rewrite Hda, Hdt, Htt, Hnull. cbn. by rewrite (proj2 (Z.eqb_neq w 0)). }
    assert (Hdt : d_type d = t) by (by destruct (same_text_stored _ _ _ _ Hrep) as (_ & E & _); [subst t|..]).
    unfold owned in Hnd. rewrite Hid in Hnd. cbn in Hnd. apply NoDup_cons in Hnd as [Hne _].
    eexists _, hdr', _, m'. split; [done|]. split; [exact H'|]. split; [by apply Forall_insert|].
    split; [rewrite length_insert; lia|]. split; [|split; [|split]].
    + unfold view. cbn [set_data p_id p_data p_quals]. rewrite str_at_insert, Hname; [|lia|].
      * cbn [mbind option_bind]. rewrite Htid, str_at_insert_eq by done. cbn. by rewrite Hdt, Hq.
      * intros E. apply Hne. rewrite E. apply list_elem_of_here.
    + unfold owned. cbn [set_data p_id p_data]. rewrite Htid. cbn. apply NoDup_cons. split; [done|apply NoDup_singleton].
    + unfold owned. cbn [set_data p_id p_data]. rewrite Htid, Hid. by left.
    + unfold owned. rewrite Hid. intros x s1 Hx Hx1. rewrite str_at_insert; [done|lia|]. intros ->. apply Hx. right. left.
  - destruct Hval as [Hid Hod]. destruct (plain od) eqn:Hpl.
    + destruct (plain d) eqn:Hpd; [|done]. injection Hrep as <-. apply Hraw; [|done|].
      * unfold plain in Hpd. unfold text_id. apply andb_true_iff in Hpd as [-> Hpd]. by destruct (d_type d).
      * apply replace_value_plain. by rewrite Hod.
    + destruct (negb (d_array od) && _ && _) eqn:E; [|done].
      apply andb_true_iff in E as [[Har%negb_true_iff Htt]%andb_true_iff Hz%bool_decide_eq_true].
      destruct (replace_value_text hdr p d q (d_type od) v' Hrep) as (s & -> & ->); [done|done| |done|].
      { unfold simple_type. by rewrite Hod, bool_decide_eq_true_2, Har. }
      cbn [text_of] in *. apply Forall_cons in Hfree as [Hs _]. unfold new_text. rewrite Hod, Hz. cbn [mbind option_bind Z.eqb negb].
      destruct (add_str hdr strs m s Hm Hs Hn Hw) as (hdr' & m' & -> & H'). cbn [mbind option_bind].
      destruct (same_text_stored _ _ _ _ Hrep) as (Hda & Hdt & _); [done|done|].
      assert (Htid : text_id (data_with d (VWord (len strs + 1))) = Some (len strs + 1)).
      { unfold text_id. cbn. rewrite Hda, Hdt, Htt, Hnull. cbn. by rewrite (proj2 (Z.eqb_neq _ 0)) by lia. }
      pose proof (str_at_bound _ _ _ Hname) as Hnb.
      eexists _, hdr', _, m'. split; [done|]. split; [exact H'|]. split; [apply Forall_app; split; [done|by constructor]|].
      split; [rewrite length_app; cbn; lia|]. split; [|split; [|split]].
      * unfold view. cbn [set_data p_id p_data p_quals]. rewrite (str_at_app _ _ _ _ Hname). cbn [mbind option_bind].
        rewrite Htid, str_at_new. cbn. by rewrite Hdt, Hq.
      * unfold owned. cbn [set_data p_id p_data]. rewrite Htid. cbn. apply NoDup_cons. split; [|apply NoDup_singleton].
        intros Hx%list_elem_of_singleton. lia.
      * unfold owned. cbn [set_data p_id p_data]. rewrite Htid. cbn. intros x [->|Hx%list_elem_of_singleton]%elem_of_cons.
        -- left. apply list_elem_of_here.
        -- right. lia.
      * intros x s1 _ Hx. by apply str_at_app.
Qed.

(** storing a value under a name the object has, in any case of its letters, changes
    that property and no other: a null value is taken as it is; a text takes the place of
    the text or the null of its type ([chars] only without qualifier bits), a plain value
    that of a plain value.  The position is returned. *)
Theorem addObjectPropertyH_replaced hdr prps strs l id d refName k name q v v' :
  represents_object hdr prps strs l -> find_name id l = Some k -> l !! k = Some (name, (q, v)) ->
  replaced q v d = Some v' -> Forall nul_free (text_of v') ->
  len strs < 16384 -> weight strs + weight (text_of v') < 2 ^ 30 ->
  exists hdr' prps' strs', addObjectPropertyH hdr prps id d refName = Some (Z.of_nat k + 1, hdr', prps') /\
    represents_object hdr' prps' strs' (<[k := (name, (q, v'))]> l) /\ len strs' <= len strs + 1.
Proof.
  intros [[m Hm] Hf (ps & Hsec & HF & Hnd)] Hfind Hk Hrep Hfree Hn Hw.
  destruct (Forall2_lookup_r _ _ _ _ _ HF Hk) as (p & Hp & Hv).
  assert (Hndp : NoDup (owned p)).
  { rewrite <- (take_drop_middle ps k p Hp), fmap_app, concat_app, concat_owned_cons in Hnd.
    apply NoDup_app in Hnd as (_ & _ & Hnd). by apply NoDup_app in Hnd as (Hnd & _). }
  destruct (replace_value_ok hdr strs m p d name q v v' Hm Hf Hv Hndp Hrep Hfree Hn Hw)
    as (d' & hdr' & strs' & m' & Hr & H' & Hf' & Hl' & Hv' & Hnd' & Hown & Hst).
  destruct (views_update strs strs' ps l k p _ _ HF Hp Hnd Hv' Hnd' Hown Hst) as [HF' Hnd''].
  eexists hdr', _, strs'. split; [by eapply stored_at|]. split; [|done].
  split; [by exists m'|done|]. exists (<[k := set_data p d']> ps). split; [by apply section_ok_insert|done].
Qed.






(** ** Arrays *)

Definition arrays_ok (hdr : ClObjectHdr) (arrs : list (list (option CMPIData))) (m : Z) : Prop :=
  slot_represents (arrayBuffer hdr) (Some <$> arrs) m /\ Forall is_array arrs.

Definition string_items (ss : list bytes) : list native_array_item := (fun s => Item 0 (VString (Some s))) <$> ss.
Definition string_cell (id : Z) : option CMPIData :=
  Some {| d_type := CMPI_string; d_array := false; d_state := 0; d_value := VWord id |}.

(** Strings and objects leave the array buffer as it is. *)
Lemma add_object_arrays hdr mem n i hdr' : addClObject hdr mem n = Some (i, hdr') -> arrayBuffer hdr' = arrayBuffer hdr.
Proof.
  unfold addClObject, addClStringN. destruct (blob_of _ _); [|done]. cbn [mbind option_bind].
  destruct (add_entry _ _ _ _) as [[[id sl] r]|]; [|done]. by intros [= _ <-].
Qed.

Lemma add_items_arrays ty its : forall hdr tds h, add_items hdr ty its = Some (tds, h) -> arrayBuffer h = arrayBuffer hdr.
Proof.
  induction its as [|i its IH]; intros hdr tds h Ei; [by injection Ei as _ <-|].
  cbn [add_items] in Ei. match type of Ei with context [mbind _ ?x] => set (step := x) in Ei end.
  assert (Hstep : forall td h, step = Some (td, h) -> arrayBuffer h = arrayBuffer hdr).
  { intros td' h1. unfold step. assert (Htx : forall s t td h,
      ('(id, hdr) ← addClString hdr s; Some ({| d_type := t; d_array := false; d_state := i_state i; d_value := VWord id |}, hdr)) = Some (td, h) ->
      arrayBuffer h = arrayBuffer hdr).
    { intros s t td1 h'. destruct (addClString hdr s) as [[j h2]|] eqn:E; [|done]. cbn [mbind option_bind]. intros [= _ <-].
      by eapply add_object_arrays. }
    destruct (is_null _); [by intros [= _ <-]|].
    destruct ty; try (by intros [= _ <-]); destruct (i_value i); try done.
    - destruct (addClObject _ _ _) as [[j h2]|] eqn:E; [|done]. cbn [mbind option_bind]. intros [= _ <-].
      by eapply add_object_arrays.
    - unfold path_chars. destruct (_ <? _); [|done]. apply Htx.
    - destruct hdl; [|done]. apply Htx.
    - apply Htx.
    - unfold date_chars. destruct (_ <? _); [|done]. apply Htx. }
  destruct step as [[td h1]|]; [|done]. cbn [mbind option_bind] in Ei.
  destruct (add_items h1 ty its) as [[tds' h']|] eqn:E2; [|done]. injection Ei as _ <-.
  rewrite <- (Hstep td h1 eq_refl). by eapply IH.
Qed.

Lemma add_string_items ss : forall hdr strs m, hdr_strings hdr strs m -> Forall nul_free ss ->
  len strs + len ss <= 16384 -> weight (strs ++ ss) < 2 ^ 30 ->
  exists tds hdr' m', add_items hdr CMPI_string (string_items ss) = Some (tds, hdr') /\
    hdr_strings hdr' (strs ++ ss) m' /\ length tds = length ss /\
    forall i s, ss !! i = Some s -> tds !! i = Some (string_cell (len strs + 1 + Z.of_nat i)).
Proof.
  induction ss as [|s ss IH]; intros hdr strs m H Hf Hn Hw.
  - exists [], hdr, m. rewrite app_nil_r. by split_and!.
  - apply Forall_cons in Hf as [Hs Hf]. change (s :: ss) with ([s] ++ ss) in *. rewrite app_assoc in *.
    rewrite length_app in Hn. cbn [length] in Hn. pose proof (weight_nonneg ss) as Hw2. rewrite weight_app in Hw.
    destruct (add_str hdr strs m s H Hs) as (h1 & m1 & E & H1); [lia|rewrite <- weight_app; lia|].
    destruct (IH h1 (strs ++ [s]) m1 H1 Hf) as (tds & h2 & m2 & E2 & H2 & Hl & Hc);
      [rewrite length_app; cbn; lia|by rewrite weight_app|].
    change (string_items ([s] ++ ss)) with (Item 0 (VString (Some s)) :: string_items ss).
    cbn [add_items i_state i_value]. change (is_null 0) with false. cbn match. rewrite E. cbn [mbind option_bind].
    rewrite E2. cbn [mbind option_bind]. eexists _, h2, m2. split; [done|]. split; [done|].
    split; [cbn; by rewrite Hl|]. intros [|i] t Hi; [by rewrite Z.add_0_r|].
    etrans; [exact (Hc i t Hi)|]. rewrite length_app. cbn [length]. do 2 f_equal. lia.
Qed.

Lemma get_array hdr arrs m i a : arrays_ok hdr arrs m -> arrs !! i = Some a ->
  ClObjectGetClArray hdr (Z.of_nat i + 1) = Some (Some a).
Proof.
  intros [H Hf] Hi. unfold ClObjectGetClArray. rewrite (proj2 (Z.eqb_neq _ 0)) by lia.
  unfold slot_represents in H. destruct (fst (arrayBuffer hdr)) as [b|]; [|destruct H as [H _]; by destruct arrs].
  destruct H as (Hr & _). cbn [mbind option_bind]. replace (Z.of_nat i + 1 - 1) with (Z.of_nat i) by lia.
  destruct (valid_entry b i a) as (ofs & -> & Hs).
  - apply (rep_item _ _ Hr). by rewrite list_lookup_fmap, Hi.
  - by eapply (Forall_lookup_1 is_array).
  - cbn [mbind option_bind]. by rewrite Hs.
Qed.

(** A buffer of its own, or a new one, keeps its arrays. *)
Lemma add_array_entry (s : slot (A := option CMPIData)) arrs m a :
  slot_represents s (Some <$> arrs) m -> (snd s = true \/ fst s = None) ->
  len arrs < 16384 -> total (Some <$> arrs) + len a < 2 ^ 30 ->
  exists s' r, add_entry 16 moved_array s a = Some (len arrs + 1, s', r) /\
    slot_represents s' (Some <$> (arrs ++ [a])) (next_max m (len arrs)).
Proof.
  intros H Hown Hn Hw. assert (Hl : length (Some <$> arrs) = length arrs) by apply length_fmap.
  rewrite fmap_app. cbn [fmap list_fmap]. rewrite <- Hl in *. destruct Hown as [E|E].
  - destruct (add_entry_ok 16 moved_array s (Some <$> arrs) m a H) as (s' & r & -> & Hr & _);
      [lia|by left|lia|lia|by exists s', r].
  - assert (Eid : add_entry 16 moved_array s a = add_entry 16 (fun b => b) s a) by (unfold add_entry; by rewrite E).
    rewrite Eid. destruct (add_entry_ok 16 (fun b => b) s (Some <$> arrs) m a H) as (s' & r & -> & Hr & _);
      [lia|by right|lia|lia|by exists s', r].
Qed.

(** an array of strings stored in an object whose array buffer is an allocation of
    its own (or has still to be made) is read back: under the id returned there are
    as many cells as strings behind the head, and each leads to its string; the arrays
    stored before are still there. *)
Theorem addClArray_strings hdr strs m arrs ma ss :
  hdr_strings hdr strs m -> Forall nul_free strs -> Forall nul_free ss ->
  arrays_ok hdr arrs ma -> (snd (arrayBuffer hdr) = true \/ fst (arrayBuffer hdr) = None) ->
  len strs + len ss <= 16384 -> weight (strs ++ ss) < 2 ^ 30 ->
  len arrs < 16384 -> total (Some <$> arrs) + len ss + 1 < 2 ^ 30 ->
  exists hdr' tds, addClArray hdr (VArray CMPI_string (string_items ss)) = Some (len arrs + 1, hdr') /\
    ClObjectGetClArray hdr' (len arrs + 1) = Some (Some (Some (array_head CMPI_string (len ss)) :: tds)) /\
    length tds = length ss /\
    (forall i s, ss !! i = Some s -> exists id, tds !! i = Some (string_cell id) /\
       ClObjectGetClString hdr' id = Some (Some s)) /\
    (forall i a, arrs !! i = Some a -> ClObjectGetClArray hdr' (Z.of_nat i + 1) = Some (Some a)).
Proof.
  intros H Hf Hfs [Ha Hfa] Hown Hn Hw Hna Hwa. unfold addClArray.
  destruct (add_string_items ss hdr strs m H Hfs Hn Hw) as (tds & h1 & m1 & Ei & H1 & Hl & Hc).
  rewrite Ei. cbn [mbind option_bind]. rewrite (add_items_arrays _ _ _ _ _ Ei).
  assert (Hls : length (string_items ss) = length ss) by (unfold string_items; by rewrite length_fmap). rewrite Hls.
  set (a := Some (array_head CMPI_string (len ss)) :: tds).
  assert (Hla : len a = len ss + 1) by (unfold a; cbn [length]; lia).
  destruct (add_array_entry (arrayBuffer hdr) arrs ma a Ha Hown Hna) as (s' & r & -> & Hr); [lia|].
  cbn [mbind option_bind].
  assert (Hok : arrays_ok (with_arrays h1 s' r) (arrs ++ [a]) (next_max ma (len arrs))).
  { split; [exact Hr|]. apply Forall_app. split; [done|]. constructor; [|constructor].
    exists (array_head CMPI_string (len ss)), tds. split; [done|]. rewrite Hl. split; [done|lia]. }
  eexists _, tds. split; [done|]. split.
  { apply (get_array _ _ _ (length arrs) a Hok). by rewrite lookup_app_r, Nat.sub_diag. }
  split; [done|]. split.
  - intros i s Hi. eexists. split; [by eapply Hc|].
    apply (get_str _ (strs ++ ss) m1); [exact H1|by apply Forall_app|].
    unfold str_at. rewrite (proj2 (Z.leb_le _ _)) by lia. replace (Z.to_nat (len strs + 1 + Z.of_nat i - 1)) with (length strs + i)%nat by lia.
    by rewrite lookup_app_r, Nat.add_comm, Nat.add_sub by lia.
  - intros i x Hi. eapply get_array; [exact Hok|]. by apply lookup_app_l_Some.
Qed.

Lemma ensure_index_buf {A} (b b1 : ClBuf A) : ensure_index b = Some b1 ->
  bUsed b1 = bUsed b /\ bMax b1 = bMax b /\ buf b1 = buf b.
Proof. unfold ensure_index. intros E. repeat case_match; by simplify_eq. Qed.

Lemma append_buf {A} (b b' : ClBuf A) blob id : append b blob = Some (id, b') ->
  buf b' = take (Z.to_nat (bUsed b)) (buf b) ++ blob.
Proof.
  unfold append, set_cell. destruct (_ <? _); [done|]. destruct (_ && _); [|done].
  cbn [mbind option_bind]. by intros [= _ <-].
Qed.

(** in an object that was copied into one block, storing another array loses the
    last cell of the arrays it had. *)
Theorem moved_array_lost hdr b v id hdr' :
  arrayBuffer hdr = (Some b, false) -> bMax b = bUsed b -> bUsed b = len (buf b) -> 2 <= bUsed b ->
  addClArray hdr v = Some (id, hdr') ->
  exists b', fst (arrayBuffer hdr') = Some b' /\ buf b' !! Z.to_nat (bUsed b - 1) = Some None.
Proof.
  intros Hb Hmax Hlen H2 Ha. unfold addClArray in Ha. destruct v as [| | | | | | |ty its]; try done.
  destruct (add_items hdr ty its) as [[tds h1]|] eqn:Ei; [|done]. cbn [mbind option_bind] in Ha.
  rewrite (add_items_arrays _ _ _ _ _ Ei), Hb in Ha. unfold add_entry in Ha. cbn [fst snd] in Ha.
  destruct (ensure_index b) as [b1|] eqn:Ee; [|done]. cbn [mbind option_bind] in Ha.
  destruct (ensure_index_buf _ _ Ee) as (E1 & E2 & E3). cbn [length] in Ha. rewrite (proj2 (Z.leb_le _ _)) in Ha by lia.
  destruct (grow _ _ _) as [n|]; [|done]. cbn [mbind option_bind] in Ha.
  destruct (append _ _) as [[j b2]|] eqn:Eap; [|done]. injection Ha as _ <-. exists b2. split; [done|].
  rewrite (append_buf _ _ _ _ Eap). cbn [buf set_bMax moved_array bUsed].
  set (kept := Z.to_nat ((bMax b1 + 16) / 16)).
  assert (Hk : (kept <= Z.to_nat (bUsed b - 1))%nat).
  { unfold kept. rewrite E2, Hmax. apply Z2Nat.inj_le; [apply Z.div_pos; lia|lia|].
    assert ((bUsed b + 16) / 16 < bUsed b); [|lia]. apply Z.div_lt_upper_bound; lia. }
  rewrite E1, E3, lookup_app_l by (rewrite length_take, length_app, length_take, length_replicate; lia).
  rewrite lookup_take_lt by lia. rewrite lookup_app_r; rewrite length_take; [|lia].
  apply lookup_replicate. split; [done|lia].
Qed.

(** The id of an embedded instance that is replaced is lost: the property keeps the
    pointer of the caller. *)
Lemma embedded_instance_lost hdr p d blob old hdr' :
  hdr_type hdr = HDR_Instance -> simple_type (p_data p) CMPI_instance = true -> d_value (p_data p) = VWord old -> old <> 0 ->
  simple_type d CMPI_instance = true -> d_value d = VInst blob -> is_null (d_state d) = false ->
  replaceClObject hdr old blob (strlen blob) = Some hdr' ->
  replace_value hdr p d = Some (inr (set_data p d, hdr')) /\ word_of (d_value (p_data (set_data p d))) = None.
Proof.
  intros Ht Hp Hv Ho Hd Hb Hn Hr. split; [|cbn; by rewrite Hb]. unfold replace_value. rewrite Hn.
  assert (Hod : forall t', simple_type (p_data p) t' = bool_decide (CMPI_instance = t') /\ d_array (p_data p) = false).
  { intros t'. unfold simple_type in *. apply andb_true_iff in Hp as [E%bool_decide_eq_true Ha].
    rewrite E, Ha. split; [apply andb_true_r|by apply negb_true_iff]. }
  rewrite !(fun t => proj1 (Hod t)), (proj2 (Hod CMPI_null)), Ht. cbn. rewrite Hd, Hb, Hv. cbn [negb word_of mbind option_bind].
  rewrite (proj2 (Z.eqb_neq old 0)) by done. cbn [negb]. by rewrite Hr.
Qed.

(** ** Witnesses *)

Definition empty_section {T} : ClSection T := clearClSection.
Definition uint8_data (w : Z) : CMPIData := {| d_type := CMPI_uint8; d_array := false; d_state := 0; d_value := VWord w |}.
Definition chars_data (s : bytes) : CMPIData := {| d_type := CMPI_chars; d_array := false; d_state := 0; d_value := VChars s |}.

Lemma empty_object : represents_object empty_hdr empty_section [] [].
Proof.
  split; [exists 16; by split|constructor|]. exists []. split; [split; [done|by left]|]. split; [constructor|constructor].
Qed.

Lemma addObjectPropertyH_new_witness : exists hdr' prps',
  addObjectPropertyH empty_hdr empty_section (cstr "Name") (chars_data (cstr "sda")) None = Some (1, hdr', prps') /\
  represents_object hdr' prps' [cstr "Name"; cstr "sda"] [(cstr "Name", (0, AText CMPI_chars 0 (cstr "sda")))].
Proof.
  destruct (addObjectPropertyH_new empty_hdr empty_section [] [] (cstr "Name") (chars_data (cstr "sda"))
    (AText CMPI_chars 0 (cstr "sda")) empty_object) as (h & s & E & Hr).
  - reflexivity.
  - reflexivity.
  - by repeat constructor.
  - by repeat constructor.
  - done.
  - done.
  - by vm_compute.
  - exists h, s. split; [exact E|exact Hr].
Defined.

(** One property [Name] of type [chars] with the value [Size]. *)
Definition wit_property : ClProperty :=
  {| p_data := {| d_type := CMPI_chars; d_array := false; d_state := 0; d_value := VWord 2 |};
     p_id := 1; p_refName := 0; p_flags := 0; p_quals := 0; p_originId := 0; p_qualifiers := clearClSection |}.
Definition wit_section : ClSection ClProperty :=
  {| items := Some [wit_property]; used := 1; max := Z.lor 8 32768; room := 8 |}.
Definition wit_entries : list entry := [(cstr "Name", (0, AText CMPI_chars 0 (cstr "Size")))].

Lemma wit_object : represents_object wit_hdr wit_section wit_strings wit_entries.
Proof.
  split; [exists 16; exact wit_hdr_ok|exact wit_strings_ok|]. exists [wit_property]. split.
  - split; [done|]. right. split; [done|]. exists 8. split; [lia|]. split; [done|]. by left.
  - split; [by repeat constructor|]. match goal with |- ?P => apply (bool_decide_eq_true_1 P) end. by vm_compute.
Qed.

Lemma addObjectPropertyH_replaced_witness : exists hdr' prps' strs',
  addObjectPropertyH wit_hdr wit_section (cstr "NAME") (chars_data (cstr "sdb")) None = Some (1, hdr', prps') /\
  represents_object hdr' prps' strs' [(cstr "Name", (0, AText CMPI_chars 0 (cstr "sdb")))].
Proof.
  destruct (addObjectPropertyH_replaced wit_hdr wit_section wit_strings wit_entries (cstr "NAME") (chars_data (cstr "sdb")) None
    0 (cstr "Name") 0 (AText CMPI_chars 0 (cstr "Size")) (AText CMPI_chars 0 (cstr "sdb")) wit_object) as (h & s & strs & E & Hr & _).
  - reflexivity.
  - reflexivity.
  - reflexivity.
  - by repeat constructor.
  - done.
  - by vm_compute.
  - exists h, s, strs. split; [exact E|exact Hr].
Defined.



Lemma addClArray_strings_witness : exists hdr' tds,
  addClArray wit_hdr (VArray CMPI_string (string_items [cstr "a"; cstr "b"])) = Some (1, hdr') /\
  ClObjectGetClArray hdr' 1 = Some (Some (Some (array_head CMPI_string 2) :: tds)).
Proof.
  destruct (addClArray_strings wit_hdr wit_strings 16 [] 16 [cstr "a"; cstr "b"] wit_hdr_ok wit_strings_ok)
    as (h & tds & E & Eg & _).
  - by repeat constructor.
  - split; [by split|constructor].
  - by right.
  - done.
  - by vm_compute.
  - done.
  - by vm_compute.
  - exists h, tds. split; [exact E|exact Eg].
Defined.

(** An object in one block with an array of two bytes. *)
Definition copied_array : ClArrayBuf :=
  {| iUsed := 1; iMax := 1; index := [0]; icap := 4; bUsed := 3; bMax := 3;
     buf := [Some (array_head CMPI_uint8 2); Some (uint8_data 7); Some (uint8_data 9)] |}.
Definition copied_object : ClObjectHdr :=
  {| hdr_type := HDR_Instance; strBuffer := (None, false); arrayBuffer := (Some copied_array, false);
     HDR_Rebuild := false; HDR_ContainsEmbeddedObject := false |}.

Lemma moved_array_lost_witness : exists id hdr' b',
  addClArray copied_object (VArray CMPI_uint8 [Item 0 (VWord 1)]) = Some (id, hdr') /\
  fst (arrayBuffer hdr') = Some b' /\ buf b' !! 2%nat = Some None.
Proof.
  assert (G : is_Some (addClArray copied_object (VArray CMPI_uint8 [Item 0 (VWord 1)]))) by (vm_compute; eauto).
  destruct G as [[id hdr'] E].
  destruct (moved_array_lost copied_object copied_array _ id hdr' eq_refl eq_refl eq_refl ltac:(done) E) as (b' & Hb & Hl).
  exists id, hdr', b'. split; [exact E|]. split; [exact Hb|exact Hl].
Defined.
