(* ===== verification/ClClass.v ===== *)
(** * Classes, instances and object paths (objectImpl.c)

    Classes with their qualifiers, properties, methods and parameters, instances and
    object paths: making them, adding their parts, reading them, their size, and the
    copy of a whole object into one block ([rebuildClassH], [rebuildInstanceH],
    [rebuildObjectPathH]), which is how objects are stored and sent. *)

From S2P Require Import Prelude CString CmpiData ClBuffer StringBuffer ClObject.

Record CMPIParameter := { pm_type : CMPIType; pm_array : bool; pm_arraySize : Z; pm_refName : Z }.
Record ClParameter := { a_id : Z; a_parameter : CMPIParameter; a_quals : Z; a_qualifiers : ClSection ClQualifier }.
Record ClMethod := {
  m_id : Z; m_type : CMPIType; m_flags : Z; m_quals : Z; m_originId : Z;
  m_qualifiers : ClSection ClQualifier; m_parameters : ClSection ClParameter
}.
Record ClClass := {
  c_hdr : ClObjectHdr; c_quals : Z; c_parents : Z; c_name : Z; c_parent : Z;
  c_qualifiers : ClSection ClQualifier; c_properties : ClSection ClProperty; c_methods : ClSection ClMethod
}.
Record ClInstance := {
  i_hdr : ClObjectHdr; i_quals : Z; i_className : Z; i_nameSpace : Z;
  i_qualifiers : ClSection ClQualifier; i_properties : ClSection ClProperty
}.
Record ClObjectPath := {
  o_hdr : ClObjectHdr; o_hostName : Z; o_nameSpace : Z; o_className : Z; o_properties : ClSection ClProperty
}.

(** The items in use. *)
Definition in_use {T} (s : ClSection T) : option (list T) :=
  let l := section_list s in if len l <? used s then None else Some (take (Z.to_nat (used s)) l).

(** ** Adding qualifiers, parameters and methods *)

Definition locateQualifier (hdr : ClObjectHdr) (s : ClSection ClQualifier) (id : bytes) : option Z :=
  l ← in_use s; locate q_id hdr id l 0.
Definition locateParameter (hdr : ClObjectHdr) (s : ClSection ClParameter) (id : bytes) : option Z :=
  l ← in_use s; locate a_id hdr id l 0.
Definition ClClassLocateMethod (hdr : ClObjectHdr) (s : ClSection ClMethod) (id : bytes) : option Z :=
  l ← in_use s; locate m_id hdr id l 0.

(** A string array of another object ([arrHdr]) is given as the array that
    [native_make_CMPIArray] makes of it. *)
Definition qualifier_data (hdr : ClObjectHdr) (d : CMPIData) : option (CMPIData * ClObjectHdr) :=
  if is_null (d_state d) then Some (d, hdr)
  else if d_array d then '(id, hdr) ← addClArray hdr (d_value d); Some (data_with d (VWord id), hdr)
  else
    match d_type d, d_value d with
    | CMPI_chars, VChars s => '(id, hdr) ← addClString hdr s; Some (data_with d (VWord id), hdr)
    | CMPI_string, VString (Some s) => '(id, hdr) ← addClString hdr s; Some (data_typed d CMPI_chars (VWord id), hdr)
    | (CMPI_chars | CMPI_string), _ => None
    | _, _ => Some (d, hdr)
    end.

(** 0 when the qualifier is there already: it keeps its value. *)
Definition addClQualifier (hdr : ClObjectHdr) (qlfs : ClSection ClQualifier) (id : bytes) (d : CMPIData) :
    option (Z * ClObjectHdr * ClSection ClQualifier) :=
  i ← locateQualifier hdr qlfs id;
  if i =? 0 then
    '(n, hdr) ← addClString hdr id;
    '(d, hdr) ← qualifier_data hdr d;
    '(qlfs, r) ← ensureClSpace qlfs 4;
    qlfs ← push qlfs {| q_id := n; q_data := d |};
    Some (used qlfs, set_rebuild hdr r, qlfs)
  else Some (0, hdr, qlfs).

Definition ClClass_Q_Abstract : Z := 1.
Definition ClClass_Q_Association : Z := 2.
Definition ClClass_Q_Indication : Z := 4.
Definition HDR_Class : Z := 1.

(** For the qualifiers of a class (or of a property of it) some names are bits of the
    class; the bits are returned. *)
Definition ClClassAddQualifierSpecial (hdr : ClObjectHdr) (quals : Z) (qlfs : ClSection ClQualifier) (id : bytes) (d : CMPIData) :
    option (Z * ClObjectHdr * Z * ClSection ClQualifier) :=
  let add := '(n, hdr, qlfs) ← addClQualifier hdr qlfs id d; Some (n, hdr, quals, qlfs) in
  if hdr_type hdr =? HDR_Class then
    if strcasecmp id (cstr "Abstract") =? 0 then Some (0, hdr, Z.lor quals ClClass_Q_Abstract, qlfs)
    else if strcasecmp id (cstr "Association") =? 0 then Some (0, hdr, Z.lor quals ClClass_Q_Association, qlfs)
    else if strcasecmp id (cstr "Indication") =? 0 then Some (0, hdr, Z.lor quals ClClass_Q_Indication, qlfs)
    else add
  else add.

Definition ClProperty_Q_Key : Z := 1.
Definition with_quals (p : ClProperty) (q : Z) : ClProperty :=
  {| p_data := p_data p; p_id := p_id p; p_refName := p_refName p; p_flags := p_flags p; p_quals := q;
     p_originId := p_originId p; p_qualifiers := p_qualifiers p |}.
Definition with_qualifiers (p : ClProperty) (s : ClSection ClQualifier) : ClProperty :=
  {| p_data := p_data p; p_id := p_id p; p_refName := p_refName p; p_flags := p_flags p; p_quals := p_quals p;
     p_originId := p_originId p; p_qualifiers := s |}.

Definition ClClassAddPropertyQualifierSpecial (hdr : ClObjectHdr) (quals : Z) (p : ClProperty) (id : bytes) (d : CMPIData) :
    option (Z * ClObjectHdr * Z * ClProperty) :=
  if strcasecmp id (cstr "key") =? 0 then Some (0, hdr, quals, with_quals p (Z.lor (p_quals p) ClProperty_Q_Key))
  else if strcasecmp id (cstr "embeddedobject") =? 0 then
    Some (0, hdr, quals, with_quals p (Z.lor (p_quals p) ClProperty_Q_EmbeddedObject))
  else
    '(n, hdr, quals, s) ← ClClassAddQualifierSpecial hdr quals (p_qualifiers p) id d;
    Some (n, hdr, quals, with_qualifiers p s).

Definition addClParameter (hdr : ClObjectHdr) (prms : ClSection ClParameter) (np : ClParameter) :
    option (Z * ClObjectHdr * ClSection ClParameter) :=
  s ← ClObjectGetClString hdr (a_id np);
  s ← s;
  i ← locateParameter hdr prms s;
  if i =? 0 then
    '(prms, r) ← ensureClSpace prms 4;
    prms ← push prms np;
    Some (used prms, set_rebuild hdr r, prms)
  else Some (0, hdr, prms).

Definition makeClParameter (hdr : ClObjectHdr) (id : bytes) (type : CMPIType) (array : bool) (arraySize : Z)
    (refName : option bytes) : option (ClParameter * ClObjectHdr) :=
  '(n, hdr) ← addClString hdr id;
  '(rn, hdr) ← match refName with None => Some (0, hdr) | Some s => addClString hdr s end;
  Some ({| a_id := n; a_parameter := {| pm_type := type; pm_array := array; pm_arraySize := arraySize; pm_refName := rn |};
           a_quals := 0; a_qualifiers := clearClSection |}, hdr).

Definition with_parameters (m : ClMethod) (s : ClSection ClParameter) : ClMethod :=
  {| m_id := m_id m; m_type := m_type m; m_flags := m_flags m; m_quals := m_quals m; m_originId := m_originId m;
     m_qualifiers := m_qualifiers m; m_parameters := s |}.

Definition ClClassAddMethParameter (hdr : ClObjectHdr) (m : ClMethod) (id : bytes) (type : CMPIType) (array : bool)
    (arraySize : Z) (refName : option bytes) : option (Z * ClObjectHdr * ClMethod) :=
  '(p, hdr) ← makeClParameter hdr id type array arraySize refName;
  '(n, hdr, s) ← addClParameter hdr (m_parameters m) p;
  Some (n, hdr, with_parameters m s).

Definition new_method (id : Z) (t : CMPIType) : ClMethod :=
  {| m_id := id; m_type := t; m_flags := 0; m_quals := 0; m_originId := 0;
     m_qualifiers := clearClSection; m_parameters := clearClSection |}.
Definition with_type (m : ClMethod) (t : CMPIType) : ClMethod :=
  {| m_id := m_id m; m_type := t; m_flags := m_flags m; m_quals := m_quals m; m_originId := m_originId m;
     m_qualifiers := m_qualifiers m; m_parameters := m_parameters m |}.

Definition addClassMethodH (hdr : ClObjectHdr) (mths : ClSection ClMethod) (id : bytes) (t : CMPIType) :
    option (Z * ClObjectHdr * ClSection ClMethod) :=
  i ← ClClassLocateMethod hdr mths id;
  if i =? 0 then
    '(mths, r) ← ensureClSpace mths 8;
    '(n, hdr) ← addClString (set_rebuild hdr r) id;
    mths ← push mths (new_method n t);
    Some (used mths, hdr, mths)
  else
    m ← section_list mths !! Z.to_nat (i - 1);
    Some (i, hdr, set_item mths (Z.to_nat (i - 1)) (with_type m t)).

(** ** New objects *)

Definition new_hdr (type : Z) : ClObjectHdr :=
  {| hdr_type := type; strBuffer := (None, false); arrayBuffer := (None, false);
     HDR_Rebuild := false; HDR_ContainsEmbeddedObject := false |}.

(** A name, 0 for a null pointer. *)
Definition add_name (hdr : ClObjectHdr) (s : option bytes) : option (Z * ClObjectHdr) :=
  match s with None => Some (0, hdr) | Some s => addClString hdr s end.

Definition newClassH (cn pa : option bytes) : option ClClass :=
  '(n, hdr) ← add_name (new_hdr HDR_Class) cn;
  '(p, hdr) ← add_name hdr pa;
  Some {| c_hdr := hdr; c_quals := 0; c_parents := match pa with Some _ => 1 | None => 0 end; c_name := n; c_parent := p;
          c_qualifiers := clearClSection; c_properties := clearClSection; c_methods := clearClSection |}.

Definition ClClassAddGrandParent (cls : ClClass) (gp : bytes) : option (Z * ClClass) :=
  '(id, hdr) ← addClString (c_hdr cls) gp;
  Some (u8 id, {| c_hdr := hdr; c_quals := c_quals cls; c_parents := u8 (c_parents cls + 1); c_name := c_name cls;
                  c_parent := c_parent cls; c_qualifiers := c_qualifiers cls; c_properties := c_properties cls;
                  c_methods := c_methods cls |}).

Definition newInstanceH (ns cn : option bytes) : option ClInstance :=
  '(n, hdr) ← add_name (new_hdr HDR_Instance) ns;
  '(c, hdr) ← add_name hdr cn;
  Some {| i_hdr := hdr; i_quals := 0; i_className := c; i_nameSpace := n;
          i_qualifiers := clearClSection; i_properties := clearClSection |}.

Definition HDR_ObjectPath : Z := 3.
Definition newObjectPathH (ns cn : option bytes) : option ClObjectPath :=
  '(n, hdr) ← add_name (new_hdr HDR_ObjectPath) ns;
  '(c, hdr) ← add_name hdr cn;
  Some {| o_hdr := hdr; o_hostName := 0; o_nameSpace := n; o_className := c; o_properties := clearClSection |}.

Definition ClClassAddProperty (cls : ClClass) (id : bytes) (d : CMPIData) (refName : option bytes) : option (Z * ClClass) :=
  '(n, hdr, s) ← addObjectPropertyH (c_hdr cls) (c_properties cls) id d refName;
  Some (n, {| c_hdr := hdr; c_quals := c_quals cls; c_parents := c_parents cls; c_name := c_name cls;
              c_parent := c_parent cls; c_qualifiers := c_qualifiers cls; c_properties := s; c_methods := c_methods cls |}).
Definition ClInstanceAddProperty (inst : ClInstance) (id : bytes) (d : CMPIData) : option (Z * ClInstance) :=
  '(n, hdr, s) ← addObjectPropertyH (i_hdr inst) (i_properties inst) id d None;
  Some (n, {| i_hdr := hdr; i_quals := i_quals inst; i_className := i_className inst; i_nameSpace := i_nameSpace inst;
              i_qualifiers := i_qualifiers inst; i_properties := s |}).

(** ** Size and copy *)

(** The sizes of the structures on a 64-bit machine. *)
Definition SIZEOF_ClQualifier : Z := 24.
Definition SIZEOF_ClParameter : Z := 48.
Definition SIZEOF_ClMethod : Z := 48.
Definition SIZEOF_ClProperty : Z := 56.
Definition SIZEOF_ClArrayBuf : Z := 40.
Definition SIZEOF_CMPIData : Z := 16.
Definition SIZEOF_ClClass : Z := 96.
Definition SIZEOF_ClInstance : Z := 88.
Definition SIZEOF_ClObjectPath : Z := 64.

Definition sum_of {T} (f : T -> Z) (l : list T) : Z := foldr (fun x n => f x + n) 0 l.

Definition sizeQualifiers (s : ClSection ClQualifier) : Z := ALIGN (used s * SIZEOF_ClQualifier) CLALIGN.
Definition sizeParameters (s : ClSection ClParameter) : Z :=
  ALIGN (used s * SIZEOF_ClParameter +
         sum_of (fun p => sizeQualifiers (a_qualifiers p)) (take (Z.to_nat (used s)) (section_list s))) CLALIGN.
Definition sizeMethods (s : ClSection ClMethod) : Z :=
  ALIGN (used s * SIZEOF_ClMethod +
         sum_of (fun m => sizeQualifiers (m_qualifiers m) + sizeParameters (m_parameters m))
                (take (Z.to_nat (used s)) (section_list s))) CLALIGN.
Definition sizeProperties (s : ClSection ClProperty) : Z :=
  ALIGN (used s * SIZEOF_ClProperty +
         sum_of (fun p => sizeQualifiers (p_qualifiers p)) (take (Z.to_nat (used s)) (section_list s))) CLALIGN.
Definition sizeArrayBuf (hdr : ClObjectHdr) : Z :=
  match fst (arrayBuffer hdr) with
  | None => 0
  | Some b => ALIGN (SIZEOF_ClArrayBuf + bUsed b * SIZEOF_CMPIData + iUsed b * 4) CLALIGN
  end.

Definition sizeClassH (cls : ClClass) : Z :=
  ALIGN (SIZEOF_ClClass + sizeQualifiers (c_qualifiers cls) + sizeProperties (c_properties cls) +
         sizeMethods (c_methods cls) + sizeStringBuf (c_hdr cls) + sizeArrayBuf (c_hdr cls)) CLALIGN.
Definition sizeInstanceH (inst : ClInstance) : Z :=
  ALIGN (SIZEOF_ClInstance + sizeQualifiers (i_qualifiers inst) + sizeProperties (i_properties inst) +
         sizeStringBuf (i_hdr inst) + sizeArrayBuf (i_hdr inst)) CLALIGN.
Definition sizeObjectPathH (op : ClObjectPath) : Z :=
  ALIGN (SIZEOF_ClObjectPath + sizeProperties (o_properties op) + sizeStringBuf (o_hdr op)) CLALIGN.

(** The copies write to a block of [size] bytes at [ofs]; [None] is a write behind it or
    a read of items that are not there.  They return the room they take. *)

(** The items of a section, each copied with what hangs on it behind the items. *)
Fixpoint copy_items {T} (copy : Z -> T -> option (Z * T)) (ofs l : Z) (ts : list T) : option (Z * list T) :=
  match ts with
  | [] => Some (l, [])
  | t :: ts =>
      '(n, t) ← copy (ofs + l) t;
      '(l, ts) ← copy_items copy ofs (l + n) ts;
      Some (l, t :: ts)
  end.

(** [memcpy] of the items, the loop over them, and [setSectionOffset]. *)
Definition copy_section {T} (size_of : Z) (copy : Z -> T -> option (Z * T)) (ofs size : Z) (fs : ClSection T) :
    option (Z * ClSection T) :=
  let l := used fs * size_of in
  if l =? 0 then Some (0, fs)
  else if size <? ofs + l then None
  else
    ts ← in_use fs;
    '(l, ts) ← copy_items copy ofs l ts;
    Some (ALIGN l CLALIGN,
          {| items := Some ts; used := used fs; max := Z.land (used fs) 32767; room := (size - ofs) / size_of |}).

Definition copyQualifiers (ofs size : Z) (fs : ClSection ClQualifier) : option (Z * ClSection ClQualifier) :=
  copy_section SIZEOF_ClQualifier (fun _ q => Some (0, q)) ofs size fs.
Definition copyParameters (ofs size : Z) (fs : ClSection ClParameter) : option (Z * ClSection ClParameter) :=
  copy_section SIZEOF_ClParameter (fun o p =>
    '(n, s) ← copyQualifiers o size (a_qualifiers p);
    Some (n, {| a_id := a_id p; a_parameter := a_parameter p; a_quals := a_quals p; a_qualifiers := s |})) ofs size fs.
Definition copyMethods (ofs size : Z) (fs : ClSection ClMethod) : option (Z * ClSection ClMethod) :=
  copy_section SIZEOF_ClMethod (fun o m =>
    '(n, q) ← copyQualifiers o size (m_qualifiers m);
    '(n2, p) ← copyParameters (o + n) size (m_parameters m);
    Some (n + n2, {| m_id := m_id m; m_type := m_type m; m_flags := m_flags m; m_quals := m_quals m;
                     m_originId := m_originId m; m_qualifiers := q; m_parameters := p |})) ofs size fs.
Definition copyProperties (ofs size : Z) (fs : ClSection ClProperty) : option (Z * ClSection ClProperty) :=
  copy_section SIZEOF_ClProperty (fun o p =>
    '(n, s) ← copyQualifiers o size (p_qualifiers p); Some (n, with_qualifiers p s)) ofs size fs.

Definition copyArrayBuf (ofs size : Z) (fh : ClObjectHdr) : option (Z * slot (A := option CMPIData)) :=
  match fst (arrayBuffer fh) with
  | None => Some (0, arrayBuffer fh)
  | Some b =>
      let l := SIZEOF_ClArrayBuf + bUsed b * SIZEOF_CMPIData in
      let il := iUsed b * 4 in
      if (size <? ofs + l + il) || (len (index b) <? iUsed b) then None
      else Some (ALIGN (l + il) CLALIGN,
        (Some {| iUsed := iUsed b; iMax := Z.land (iUsed b) 32767;
                 index := take (Z.to_nat (iUsed b)) (index b);
                 icap := (size - (ofs + l)) / 4;
                 bUsed := bUsed b; bMax := bUsed b;
                 buf := take (Z.to_nat (bUsed b)) (buf b) |}, false))
  end.

Definition rebuilt_hdr (hdr : ClObjectHdr) (s : slot (A := Z)) (a : slot (A := option CMPIData)) : ClObjectHdr :=
  {| hdr_type := hdr_type hdr; strBuffer := s; arrayBuffer := a; HDR_Rebuild := false;
     HDR_ContainsEmbeddedObject := HDR_ContainsEmbeddedObject hdr |}.

(** Also gives the offset behind the last part. *)
Definition rebuildClassH (cls : ClClass) : option (Z * ClClass) :=
  let sz := ALIGN (s32 (sizeClassH cls)) CLALIGN in
  let ofs := SIZEOF_ClClass in
  '(n, q) ← copyQualifiers ofs sz (c_qualifiers cls);
  let ofs := ofs + n in
  '(n, p) ← copyProperties ofs sz (c_properties cls);
  let ofs := ofs + n in
  '(n, m) ← copyMethods ofs sz (c_methods cls);
  let ofs := ofs + n in
  '(n, s) ← copyStringBuf ofs sz (c_hdr cls);
  let ofs := ofs + n in
  '(n, a) ← copyArrayBuf ofs sz (c_hdr cls);
  Some (ofs + n, {| c_hdr := rebuilt_hdr (c_hdr cls) s a; c_quals := c_quals cls; c_parents := c_parents cls;
                    c_name := c_name cls; c_parent := c_parent cls; c_qualifiers := q; c_properties := p; c_methods := m |}).

Definition rebuildInstanceH (inst : ClInstance) : option (Z * ClInstance) :=
  let sz := s32 (sizeInstanceH inst) in
  let ofs := SIZEOF_ClInstance in
  '(n, q) ← copyQualifiers ofs sz (i_qualifiers inst);
  let ofs := ofs + n in
  '(n, p) ← copyProperties ofs sz (i_properties inst);
  let ofs := ofs + n in
  '(n, s) ← copyStringBuf ofs sz (i_hdr inst);
  let ofs := ofs + n in
  '(n, a) ← copyArrayBuf ofs sz (i_hdr inst);
  Some (ofs + n, {| i_hdr := rebuilt_hdr (i_hdr inst) s a; i_quals := i_quals inst; i_className := i_className inst;
                    i_nameSpace := i_nameSpace inst; i_qualifiers := q; i_properties := p |}).

(** The arrays of an object path are not copied. *)
Definition rebuildObjectPathH (op : ClObjectPath) : option (Z * ClObjectPath) :=
  let sz := s32 (sizeObjectPathH op) in
  let ofs := SIZEOF_ClObjectPath in
  '(n, p) ← copyProperties ofs sz (o_properties op);
  let ofs := ofs + n in
  '(n, s) ← copyStringBuf ofs sz (o_hdr op);
  Some (ofs + n, {| o_hdr := rebuilt_hdr (o_hdr op) s (arrayBuffer (o_hdr op)); o_hostName := o_hostName op;
                    o_nameSpace := o_nameSpace op; o_className := o_className op; o_properties := p |}).

(** * The copy of an object *)

Definition inuse {T} (s : ClSection T) : list T := take (Z.to_nat (used s)) (section_list s).

(** The same items, up to what a copy may change in them. *)
Definition same_section {T} (R : T -> T -> Prop) (s s' : ClSection T) : Prop :=
  used s' = used s /\ Forall2 R (inuse s) (inuse s').
Definition same_property (p p' : ClProperty) : Prop :=
  p' = with_qualifiers p (p_qualifiers p') /\ same_section eq (p_qualifiers p) (p_qualifiers p').
Definition same_parameter (p p' : ClParameter) : Prop :=
  a_id p' = a_id p /\ a_parameter p' = a_parameter p /\ a_quals p' = a_quals p /\
  same_section eq (a_qualifiers p) (a_qualifiers p').
Definition same_method (m m' : ClMethod) : Prop :=
  m_id m' = m_id m /\ m_type m' = m_type m /\ m_flags m' = m_flags m /\ m_quals m' = m_quals m /\
  m_originId m' = m_originId m /\ same_section eq (m_qualifiers m) (m_qualifiers m') /\
  same_section same_parameter (m_parameters m) (m_parameters m').

(** As many items as are in use, and well formed ones. *)
Definition section_wf {T} (P : T -> Prop) (s : ClSection T) : Prop :=
  0 <= used s < 32768 /\ used s <= len (section_list s) /\ Forall P (inuse s).
Definition any {T} (_ : T) : Prop := True.
Definition property_wf (p : ClProperty) : Prop := section_wf any (p_qualifiers p).
Definition parameter_wf (p : ClParameter) : Prop := section_wf any (a_qualifiers p).
Definition method_wf (m : ClMethod) : Prop :=
  section_wf any (m_qualifiers m) /\ section_wf parameter_wf (m_parameters m).

Lemma ALIGN_mult x y : 0 < y -> 0 <= x -> x mod y = 0 -> ALIGN x y = x.
Proof.
  intros Hy Hx Hm. destruct (ALIGN_spec x y Hx Hy) as [Hb Ha].
  apply Z.mod_divide in Hm as [k ->]; [|lia]. apply Z.mod_divide in Ha as [j Hj]; [|lia]. rewrite Hj in *.
  assert (k <= j) by nia. assert (j < k + 1) by nia. by replace j with k by lia.
Qed.

Lemma ALIGN_nonneg x : 0 <= x -> 0 <= ALIGN x CLALIGN.
Proof. intros Hx. destruct (ALIGN_spec x CLALIGN Hx) as [H _]; [done|lia]. Qed.

Lemma sum_of_nonneg {T} (f : T -> Z) l : (forall x, x ∈ l -> 0 <= f x) -> 0 <= sum_of f l.
Proof.
  induction l as [|x l IH]; intros H; [done|]. cbn. pose proof (H x (list_elem_of_here _ _)).
  assert (0 <= sum_of f l) by (apply IH; intros y Hy; apply H; by right). unfold sum_of in *. lia.
Qed.

Section copying.
Context {T : Type} (size_of : Z) (copy : Z -> T -> option (Z * T)) (f : T -> Z) (R : T -> T -> Prop) (size : Z).
(** What hangs on an item takes [f] bytes and is copied when there is room. *)
Definition copies (t : T) : Prop :=
  0 <= f t /\ forall o, 0 <= o -> o + f t <= size -> exists t', copy o t = Some (f t, t') /\ R t t'.

Lemma copy_items_ok ofs ts : Forall copies ts -> 0 <= ofs -> forall l, 0 <= l -> ofs + l + sum_of f ts <= size ->
  exists ts', copy_items copy ofs l ts = Some (l + sum_of f ts, ts') /\ Forall2 R ts ts'.
Proof.
  intros Hts Ho. induction Hts as [|t ts [Hf Ht] Hts IH]; intros l Hl Hs.
  - exists []. cbn. by rewrite Z.add_0_r.
  - cbn [copy_items sum_of foldr] in *. fold (sum_of f ts) in *.
    assert (Hn : 0 <= sum_of f ts).
    { apply sum_of_nonneg. intros x Hx. by apply (proj1 (Forall_forall _ _) Hts x Hx). }
    destruct (Ht (ofs + l)) as (t' & -> & HR); [lia|lia|]. cbn [mbind option_bind].
    destruct (IH (l + f t)) as (ts' & -> & HR'); [lia|lia|]. cbn [mbind option_bind].
    exists (t' :: ts'). split; [do 2 f_equal; lia|]. by constructor.
Qed.

Lemma copy_section_ok ofs (s : ClSection T) P : 0 < size_of -> section_wf P s -> Forall copies (inuse s) ->
  0 <= ofs -> ofs + ALIGN (used s * size_of + sum_of f (inuse s)) CLALIGN <= size ->
  exists s', copy_section size_of copy ofs size s
    = Some (ALIGN (used s * size_of + sum_of f (inuse s)) CLALIGN, s') /\ same_section R s s'.
Proof.
  intros Hsz (Hu & Hl & _) Hc Ho Hs. unfold copy_section.
  assert (Hn : 0 <= sum_of f (inuse s)).
  { apply sum_of_nonneg. intros x Hx. by apply (proj1 (Forall_forall _ _) Hc x Hx). }
  assert (Hm : 0 <= used s * size_of) by (apply Z.mul_nonneg_nonneg; lia).
  destruct (ALIGN_spec (used s * size_of + sum_of f (inuse s)) CLALIGN) as [Ha _]; [lia|done|].
  destruct (Z.eqb_spec (used s * size_of) 0) as [Ez|Ez].
  - assert (Hz : used s = 0) by (apply Z.mul_eq_0 in Ez as [?|?]; lia). unfold inuse in *. rewrite Hz in *. cbn in Hs |- *.
    exists s. split; [done|]. split; [done|]. unfold inuse. rewrite Hz. constructor.
  - rewrite (proj2 (Z.ltb_ge _ _)) by lia. unfold in_use. rewrite (proj2 (Z.ltb_ge _ _)) by lia.
    cbn [mbind option_bind]. fold (inuse s).
    destruct (copy_items_ok ofs (inuse s) Hc Ho (used s * size_of)) as (ts' & -> & HR); [lia|lia|].
    cbn [mbind option_bind]. eexists. split; [done|]. split; [done|].
    match goal with |- Forall2 R _ ?x => assert (E : x = ts'); [|by rewrite E] end.
    unfold inuse, section_list. cbn [used items default]. change (default [] (Some ts')) with ts'.
    apply take_ge. rewrite <- (Forall2_length _ _ _ HR). unfold inuse. rewrite length_take. lia.
Qed.
End copying.

Lemma sizeQualifiers_nonneg (s : ClSection ClQualifier) : 0 <= used s -> 0 <= sizeQualifiers s.
Proof. intros H. apply ALIGN_nonneg. unfold SIZEOF_ClQualifier. lia. Qed.

Lemma copyQualifiers_ok ofs size (s : ClSection ClQualifier) : section_wf any s -> 0 <= ofs ->
  ofs + sizeQualifiers s <= size ->
  exists s', copyQualifiers ofs size s = Some (sizeQualifiers s, s') /\ same_section eq s s'.
Proof.
  intros Hw Ho Hs. assert (Hz : sum_of (fun _ : ClQualifier => 0) (inuse s) = 0) by (unfold sum_of; by induction (inuse s)).
  pose proof (copy_section_ok SIZEOF_ClQualifier (fun _ q => Some (0, q)) (fun _ => 0) eq size ofs s any) as H.
  rewrite Hz, Z.add_0_r in H. apply H; try done. apply Forall_forall. intros q _. split; [done|]. intros o _ _. by exists q.
Qed.

Lemma copyProperties_ok ofs size (s : ClSection ClProperty) : section_wf property_wf s -> 0 <= ofs ->
  ofs + sizeProperties s <= size ->
  exists s', copyProperties ofs size s = Some (sizeProperties s, s') /\ same_section same_property s s'.
Proof.
  intros Hw Ho Hs. apply (copy_section_ok SIZEOF_ClProperty _ (fun p => sizeQualifiers (p_qualifiers p)) same_property size ofs s property_wf);
    [done|done| |done|done].
  destruct Hw as (_ & _ & Hw). eapply Forall_impl; [exact Hw|]. intros p Hp.
  split; [apply sizeQualifiers_nonneg; apply Hp|]. intros o Hoo Hop.
  destruct (copyQualifiers_ok o size (p_qualifiers p) Hp Hoo Hop) as (q & -> & Hq). cbn [mbind option_bind].
  eexists. split; [done|]. split; [done|exact Hq].
Qed.

Lemma copyParameters_ok ofs size (s : ClSection ClParameter) : section_wf parameter_wf s -> 0 <= ofs ->
  ofs + sizeParameters s <= size ->
  exists s', copyParameters ofs size s = Some (sizeParameters s, s') /\ same_section same_parameter s s'.
Proof.
  intros Hw Ho Hs. apply (copy_section_ok SIZEOF_ClParameter _ (fun p => sizeQualifiers (a_qualifiers p)) same_parameter size ofs s parameter_wf);
    [done|done| |done|done].
  destruct Hw as (_ & _ & Hw). eapply Forall_impl; [exact Hw|]. intros p Hp.
  split; [apply sizeQualifiers_nonneg; apply Hp|]. intros o Hoo Hop.
  destruct (copyQualifiers_ok o size (a_qualifiers p) Hp Hoo Hop) as (q & -> & Hq). cbn [mbind option_bind].
  eexists. split; [done|]. by split_and!.
Qed.

Lemma sizeParameters_nonneg (s : ClSection ClParameter) : section_wf parameter_wf s -> 0 <= sizeParameters s.
Proof.
  intros (Hu & _ & Hw). apply ALIGN_nonneg.
  assert (0 <= sum_of (fun p => sizeQualifiers (a_qualifiers p)) (inuse s)); [|unfold SIZEOF_ClParameter, inuse in *; lia].
  apply sum_of_nonneg. intros p Hp. apply sizeQualifiers_nonneg. by apply (proj1 (Forall_forall _ _) Hw p Hp).
Qed.

Lemma copyMethods_ok ofs size (s : ClSection ClMethod) : section_wf method_wf s -> 0 <= ofs ->
  ofs + sizeMethods s <= size ->
  exists s', copyMethods ofs size s = Some (sizeMethods s, s') /\ same_section same_method s s'.
Proof.
  intros Hw Ho Hs. apply (copy_section_ok SIZEOF_ClMethod _
    (fun m => sizeQualifiers (m_qualifiers m) + sizeParameters (m_parameters m)) same_method size ofs s method_wf);
    [done|done| |done|done].
  destruct Hw as (_ & _ & Hw). eapply Forall_impl; [exact Hw|]. intros m [Hq Hp].
  pose proof (sizeQualifiers_nonneg (m_qualifiers m) (proj1 (proj1 Hq))). pose proof (sizeParameters_nonneg _ Hp).
  split; [lia|]. intros o Hoo Hop.
  destruct (copyQualifiers_ok o size (m_qualifiers m) Hq Hoo) as (q & -> & Hq'); [lia|]. cbn [mbind option_bind].
  destruct (copyParameters_ok (o + sizeQualifiers (m_qualifiers m)) size (m_parameters m) Hp) as (p & -> & Hp'); [lia|lia|].
  cbn [mbind option_bind]. eexists. split; [done|]. by split_and!.
Qed.

Lemma array_copy_ok ofs size fh arrs m : arrays_ok fh arrs m -> len arrs < 32768 -> 0 <= ofs ->
  ofs + sizeArrayBuf fh <= size ->
  exists s, copyArrayBuf ofs size fh = Some (sizeArrayBuf fh, s) /\
    forall th, arrayBuffer th = s -> sizeArrayBuf th = sizeArrayBuf fh /\
      forall i a, arrs !! i = Some a -> ClObjectGetClArray th (Z.of_nat i + 1) = Some (Some a).
Proof.
  intros [H Hf] Hn Ho Hs. unfold copyArrayBuf, sizeArrayBuf in *. unfold slot_represents in H.
  destruct (fst (arrayBuffer fh)) as [b|] eqn:Eb.
  - destruct H as (Hr & _). pose proof (rep_used _ _ Hr) as Hu. rewrite length_fmap in Hu.
    pose proof (rep_total _ _ Hr) as Ht. pose proof (entries_total_nonneg (Some <$> arrs)).
    pose proof (rep_cells _ _ Hr) as Hcl. rewrite length_fmap in Hcl. unfold SIZEOF_ClArrayBuf, SIZEOF_CMPIData in *.
    destruct (ALIGN_spec (40 + bUsed b * 16 + iUsed b * 4) CLALIGN) as [Ha _]; [lia|done|].
    rewrite (proj2 (Z.ltb_ge _ _)), (proj2 (Z.ltb_ge _ _)) by lia. cbn [orb].
    eexists. split; [done|]. intros th Hth. rewrite Hth. split; [done|].
    pose proof (copied_rep b (Some <$> arrs) ((size - (ofs + (40 + bUsed b * 16))) / 4) Hr) as Hr'.
    intros i a Hi. unfold ClObjectGetClArray. rewrite (proj2 (Z.eqb_neq _ 0)), Hth by lia. cbn [fst mbind option_bind].
    replace (Z.of_nat i + 1 - 1) with (Z.of_nat i) by lia.
    match goal with |- context [get_cell ?c _] => set (b' := c) in * end.
    destruct (valid_entry b' i a) as (o & -> & He).
    + apply (rep_item _ _ (Hr' ltac:(rewrite length_fmap; lia) ltac:(rewrite length_fmap; apply Z.div_le_lower_bound; lia))).
      by rewrite list_lookup_fmap, Hi.
    + by eapply (Forall_lookup_1 is_array).
    + cbn [mbind option_bind]. by rewrite He.
  - destruct H as [H _]. destruct arrs; [|done]. eexists. split; [done|]. intros th ->. by rewrite Eb.
Qed.

(** Sizes are multiples of the alignment. *)
Lemma ALIGN_div x : 0 <= x -> ALIGN x CLALIGN mod CLALIGN = 0.
Proof. intros Hx. by apply ALIGN_spec. Qed.

Lemma sum_aligned a b : a mod CLALIGN = 0 -> b mod CLALIGN = 0 -> (a + b) mod CLALIGN = 0.
Proof. unfold CLALIGN. intros Ha Hb. by rewrite Z.add_mod, Ha, Hb by lia. Qed.

Lemma sizeStringBuf_aligned hdr l m : hdr_strings hdr l m -> 0 <= sizeStringBuf hdr /\ sizeStringBuf hdr mod CLALIGN = 0.
Proof.
  intros H. unfold sizeStringBuf, hdr_strings, slot_represents in *. destruct (fst (strBuffer hdr)) as [b|]; [|done].
  destruct H as (Hr & _). pose proof (rep_used _ _ Hr). pose proof (rep_total _ _ Hr) as Ht.
  pose proof (entries_total_nonneg (Some <$> strings l)). destruct (ALIGN_spec (bUsed b) 4) as [Ha _]; [lia|lia|].
  unfold SIZEOF_ClStrBuf. split; [apply ALIGN_nonneg; lia|apply ALIGN_div; lia].
Qed.

Lemma sizeArrayBuf_aligned hdr arrs m : arrays_ok hdr arrs m -> 0 <= sizeArrayBuf hdr /\ sizeArrayBuf hdr mod CLALIGN = 0.
Proof.
  intros [H _]. unfold sizeArrayBuf, slot_represents in *. destruct (fst (arrayBuffer hdr)) as [b|]; [|done].
  destruct H as (Hr & _). pose proof (rep_used _ _ Hr). pose proof (rep_total _ _ Hr) as Ht.
  pose proof (entries_total_nonneg (Some <$> arrs)). unfold SIZEOF_ClArrayBuf, SIZEOF_CMPIData.
  split; [apply ALIGN_nonneg; lia|apply ALIGN_div; lia].
Qed.

Lemma section_size_aligned {T} (f : T -> Z) (s : ClSection T) k : 0 < k -> 0 <= used s ->
  (forall x, x ∈ inuse s -> 0 <= f x) ->
  0 <= ALIGN (used s * k + sum_of f (inuse s)) CLALIGN /\ ALIGN (used s * k + sum_of f (inuse s)) CLALIGN mod CLALIGN = 0.
Proof.
  intros Hk Hu Hf. pose proof (sum_of_nonneg f (inuse s) Hf).
  assert (0 <= used s * k) by (apply Z.mul_nonneg_nonneg; lia).
  split; [apply ALIGN_nonneg; lia|apply ALIGN_div; lia].
Qed.

Lemma sizeQualifiers_aligned (s : ClSection ClQualifier) : section_wf any s ->
  0 <= sizeQualifiers s /\ sizeQualifiers s mod CLALIGN = 0.
Proof.
  intros (Hu & _). unfold sizeQualifiers, SIZEOF_ClQualifier. split; [apply ALIGN_nonneg; lia|apply ALIGN_div; lia].
Qed.

Lemma sizeProperties_aligned (s : ClSection ClProperty) : section_wf property_wf s ->
  0 <= sizeProperties s /\ sizeProperties s mod CLALIGN = 0.
Proof.
  intros (Hu & _ & Hw). apply section_size_aligned; [done|lia|]. intros p Hp.
  apply sizeQualifiers_aligned. by apply (proj1 (Forall_forall _ _) Hw p Hp).
Qed.

Lemma sizeMethods_aligned (s : ClSection ClMethod) : section_wf method_wf s ->
  0 <= sizeMethods s /\ sizeMethods s mod CLALIGN = 0.
Proof.
  intros (Hu & _ & Hw). apply section_size_aligned; [done|lia|]. intros p Hp.
  destruct (proj1 (Forall_forall _ _) Hw p Hp) as [Hq Hpa].
  pose proof (sizeQualifiers_aligned _ Hq). pose proof (sizeParameters_nonneg _ Hpa). lia.
Qed.

(** An object whose buffers hold [strs] and [arrs]. *)
Record hdr_holds (hdr : ClObjectHdr) (strs : list bytes) (arrs : list (list (option CMPIData))) : Prop := {
  hh_strings : exists m, hdr_strings hdr strs m;
  hh_free : Forall nul_free strs;
  hh_arrays : exists m, arrays_ok hdr arrs m;
  hh_bound : len strs < 32768 /\ len arrs < 32768
}.

(** What is read from an object under the ids of its strings and arrays. *)
Definition reads (hdr : ClObjectHdr) (strs : list bytes) (arrs : list (list (option CMPIData))) : Prop :=
  (forall i t, strs !! i = Some t -> ClObjectGetClString hdr (Z.of_nat i + 1) = Some (Some t)) /\
  (forall i a, arrs !! i = Some a -> ClObjectGetClArray hdr (Z.of_nat i + 1) = Some (Some a)).

(** C17: the copy of a class fills the block of [sizeClassH] bytes that is allocated for it
    exactly.  It has the qualifiers, properties, methods and parameters of the class
    with all that belongs to them, and reads the same strings and arrays. *)
Theorem rebuildClassH_refines cls strs arrs :
  section_wf any (c_qualifiers cls) -> section_wf property_wf (c_properties cls) -> section_wf method_wf (c_methods cls) ->
  hdr_holds (c_hdr cls) strs arrs -> sizeClassH cls < 2 ^ 31 ->
  exists nc, rebuildClassH cls = Some (sizeClassH cls, nc) /\
    same_section eq (c_qualifiers cls) (c_qualifiers nc) /\
    same_section same_property (c_properties cls) (c_properties nc) /\
    same_section same_method (c_methods cls) (c_methods nc) /\
    c_name nc = c_name cls /\ c_parent nc = c_parent cls /\ c_quals nc = c_quals cls /\ c_parents nc = c_parents cls /\
    reads (c_hdr nc) strs arrs.
Proof.
  intros Hq Hp Hm [[ms Hs] Hf [ma Ha] [Hn1 Hn2]] Hsz.
  destruct (sizeQualifiers_aligned _ Hq) as [Q0 Q1]. destruct (sizeProperties_aligned _ Hp) as [P0 P1].
  destruct (sizeMethods_aligned _ Hm) as [M0 M1]. destruct (sizeStringBuf_aligned _ _ _ Hs) as [S0 S1].
  destruct (sizeArrayBuf_aligned _ _ _ Ha) as [A0 A1].
  assert (Hmod : (SIZEOF_ClClass + sizeQualifiers (c_qualifiers cls) + sizeProperties (c_properties cls) +
    sizeMethods (c_methods cls) + sizeStringBuf (c_hdr cls) + sizeArrayBuf (c_hdr cls)) mod CLALIGN = 0).
  { by repeat apply sum_aligned. }
  assert (Esz : sizeClassH cls = SIZEOF_ClClass + sizeQualifiers (c_qualifiers cls) + sizeProperties (c_properties cls) +
    sizeMethods (c_methods cls) + sizeStringBuf (c_hdr cls) + sizeArrayBuf (c_hdr cls)).
  { unfold sizeClassH. apply ALIGN_mult; [done|unfold SIZEOF_ClClass; lia|done]. }
  unfold rebuildClassH. rewrite <- Esz in Hmod. unfold SIZEOF_ClClass in *.
  rewrite (wraps_small 32) by lia. rewrite ALIGN_mult by (done || lia).
  destruct (copyQualifiers_ok 96 (sizeClassH cls) _ Hq) as (q & -> & Rq); [lia|lia|]. cbn [mbind option_bind].
  destruct (copyProperties_ok (96 + sizeQualifiers (c_qualifiers cls)) (sizeClassH cls) _ Hp) as (p & -> & Rp); [lia|lia|].
  cbn [mbind option_bind].
  match goal with |- context [copyMethods ?o] => destruct (copyMethods_ok o (sizeClassH cls) _ Hm) as (me & -> & Rm); [lia|lia|] end.
  cbn [mbind option_bind].
  match goal with |- context [copyStringBuf ?o] => destruct (string_copy_ok o (sizeClassH cls) _ _ _ Hs Hf Hn1) as (s & -> & Rs); [lia|lia|] end.
  cbn [mbind option_bind].
  match goal with |- context [copyArrayBuf ?o] => destruct (array_copy_ok o (sizeClassH cls) _ _ _ Ha Hn2) as (a & -> & Ra); [lia|lia|] end.
  cbn [mbind option_bind]. eexists. split; [do 2 f_equal; lia|]. cbn [c_qualifiers c_properties c_methods c_name c_parent c_quals c_parents c_hdr].
  split_and!; try done. split; [by apply (Rs (rebuilt_hdr (c_hdr cls) s a))|by apply (Ra (rebuilt_hdr (c_hdr cls) s a))].
Qed.

Lemma rebuildInstanceH_ok inst strs arrs :
  section_wf any (i_qualifiers inst) -> section_wf property_wf (i_properties inst) ->
  hdr_holds (i_hdr inst) strs arrs -> sizeInstanceH inst < 2 ^ 31 ->
  exists ni, rebuildInstanceH inst = Some (sizeInstanceH inst, ni) /\
    same_section same_property (i_properties inst) (i_properties ni) /\
    i_className ni = i_className inst /\ i_nameSpace ni = i_nameSpace inst /\ reads (i_hdr ni) strs arrs.
Proof.
  intros Hq Hp [[ms Hs] Hf [ma Ha] [Hn1 Hn2]] Hsz.
  destruct (sizeQualifiers_aligned _ Hq) as [Q0 Q1]. destruct (sizeProperties_aligned _ Hp) as [P0 P1].
  destruct (sizeStringBuf_aligned _ _ _ Hs) as [S0 S1]. destruct (sizeArrayBuf_aligned _ _ _ Ha) as [A0 A1].
  assert (Esz : sizeInstanceH inst = SIZEOF_ClInstance + sizeQualifiers (i_qualifiers inst) + sizeProperties (i_properties inst) +
    sizeStringBuf (i_hdr inst) + sizeArrayBuf (i_hdr inst)).
  { unfold sizeInstanceH. apply ALIGN_mult; [done|unfold SIZEOF_ClInstance; lia|by repeat apply sum_aligned]. }
  unfold rebuildInstanceH, SIZEOF_ClInstance in *. rewrite (wraps_small 32) by lia.
  destruct (copyQualifiers_ok 88 (sizeInstanceH inst) _ Hq) as (q & -> & Rq); [lia|lia|]. cbn [mbind option_bind].
  match goal with |- context [copyProperties ?o] => destruct (copyProperties_ok o (sizeInstanceH inst) _ Hp) as (p & -> & Rp); [lia|lia|] end.
  cbn [mbind option_bind].
  match goal with |- context [copyStringBuf ?o] => destruct (string_copy_ok o (sizeInstanceH inst) _ _ _ Hs Hf Hn1) as (s & -> & Rs); [lia|lia|] end.
  cbn [mbind option_bind].
  match goal with |- context [copyArrayBuf ?o] => destruct (array_copy_ok o (sizeInstanceH inst) _ _ _ Ha Hn2) as (a & -> & Ra); [lia|lia|] end.
  cbn [mbind option_bind]. eexists. split; [do 2 f_equal; lia|]. cbn [i_properties i_className i_nameSpace i_hdr].
  split_and!; try done. split; [by apply (Rs (rebuilt_hdr (i_hdr inst) s a))|by apply (Ra (rebuilt_hdr (i_hdr inst) s a))].
Qed.

(** ** Witness *)

Definition one_item {T} (t : T) : ClSection T := {| items := Some [t]; used := 1; max := Z.lor 4 32768; room := 4 |}.
Definition wit_qualifier : ClQualifier := {| q_id := 2; q_data := uint8_data 1 |}.
Definition wit_parameter : ClParameter :=
  {| a_id := 2; a_parameter := {| pm_type := CMPI_uint8; pm_array := false; pm_arraySize := 0; pm_refName := 0 |};
     a_quals := 0; a_qualifiers := one_item wit_qualifier |}.
Definition wit_method : ClMethod :=
  {| m_id := 2; m_type := CMPI_uint8; m_flags := 0; m_quals := 0; m_originId := 0;
     m_qualifiers := one_item wit_qualifier; m_parameters := one_item wit_parameter |}.
Definition wit_class : ClClass :=
  {| c_hdr := wit_hdr; c_quals := 0; c_parents := 0; c_name := 1; c_parent := 0;
     c_qualifiers := one_item wit_qualifier; c_properties := one_item (with_qualifiers wit_property (one_item wit_qualifier));
     c_methods := one_item wit_method |}.

Lemma one_item_wf {T} (P : T -> Prop) (t : T) : P t -> section_wf P (one_item t).
Proof. intros H. split; [by cbn|]. split; [by cbn|]. by constructor. Qed.

Lemma rebuildClassH_refines_witness : exists nc,
  rebuildClassH wit_class = Some (sizeClassH wit_class, nc) /\ same_section same_method (c_methods wit_class) (c_methods nc) /\
  ClObjectGetClString (c_hdr nc) 2 = Some (Some (cstr "Size")).
Proof.
  destruct (rebuildClassH_refines wit_class wit_strings []) as (nc & E & _ & _ & Hm & _ & _ & _ & _ & [Hs _]).
  - by apply one_item_wf.
  - apply one_item_wf. by apply one_item_wf.
  - apply one_item_wf. split; [by apply one_item_wf|]. apply one_item_wf. by apply one_item_wf.
  - split; [exists 16; exact wit_hdr_ok|exact wit_strings_ok|exists 16; split; [by split|constructor]|by vm_compute].
  - by vm_compute.
  - exists nc. split; [exact E|]. split; [exact Hm|]. exact (Hs 1%nat _ eq_refl).
Defined.
