(* ===== verification/NativeArray.v ===== *)
(** * Arrays of values (array.c)

    The native arrays behind [CMPIArray]: a size, room for [max] items, a type, and
    whether the array grows.  An item is a state and a value; the value of an item that
    was never set is unspecified ([None]).  The results are the array and the return
    code; [None] is undefined behaviour.  Items hold the values themselves: releasing
    the objects behind them is not modelled. *)

From S2P Require Import Prelude CString CmpiData ClBuffer StringBuffer ClObject.

Abbreviation item := (Z * option CMPIValue)%type.

Record native_array := {
  size : Z; a_max : Z; dynamic : bool; type : CMPIType; data : list item
}.

Definition with_data (a : native_array) (d : list item) : native_array :=
  {| size := size a; a_max := a_max a; dynamic := dynamic a; type := type a; data := d |}.

(** [__make_NULL] over the items [from .. to]. *)
Definition set_null (i : item) : item := (CMPI_nullValue, snd i).
Fixpoint make_NULL_loop (n : nat) (l : list item) (from : nat) : option (list item) :=
  match n with
  | O => Some l
  | S n =>
      i ← l !! from;
      make_NULL_loop n (<[from := set_null i]> l) (S from)
  end.
Definition make_NULL (a : native_array) (from to : Z) : option native_array :=
  l ← make_NULL_loop (Z.to_nat (to + 1 - from)) (data a) (Z.to_nat from);
  Some (with_data a l).

(** [__new_empty_array] *)
Definition new_empty_array (sz : Z) (ty : CMPIType) : option native_array :=
  let t := if bool_decide (ty = CMPI_chars) then CMPI_string else ty in
  let m := if sz =? 0 then 8 else sz in
  make_NULL {| size := sz; a_max := m; dynamic := sz =? 0; type := t;
               data := replicate (Z.to_nat m) (0, None) |} 0 (m - 1).

(** [while (size + increment > max) max *= 2;] on unsigned integers. *)
Fixpoint double (fuel : nat) (m need : Z) : option Z :=
  match fuel with
  | O => None
  | S fuel => if m <? need then double fuel (u32 (m * 2)) need else Some m
  end.

(** [realloc] keeps what fits; the new items are not specified. *)
Definition realloc_items (l : list item) (m : Z) : list item :=
  take (Z.to_nat m) l ++ replicate (Z.to_nat m - length l) (0, None).

(** [memset] of [n] items to zero; writing behind the allocation is undefined. *)
Definition zero_items (l : list item) (from n : Z) : option (list item) :=
  if len l <? from + n then None
  else Some (take (Z.to_nat from) l ++ replicate (Z.to_nat n) (0, Some (VWord 0)) ++ drop (Z.to_nat (from + n)) l).

Definition sfcb_native_array_increase_size (a : native_array) (increment : Z) : option native_array :=
  let need := u32 (size a + increment) in
  a ← (if a_max a <? need then
         m ← (if size a =? 0 then Some 8 else double 33 (a_max a) need);
         l ← zero_items (realloc_items (data a) m) (size a) increment;
         make_NULL {| size := size a; a_max := m; dynamic := dynamic a; type := type a; data := l |} (size a) (m - 1)
       else Some a);
  Some {| size := need; a_max := a_max a; dynamic := dynamic a; type := type a; data := data a |}.

Definition native_array_reset_size (a : native_array) (increment : Z) : native_array :=
  {| size := increment; a_max := a_max a; dynamic := dynamic a; type := type a; data := data a |}.

(** [__aft_getElementAt]: a bad value when there is no such item. *)
Definition getElementAt (a : native_array) (index : Z) : option (CMPIType * item) :=
  if index <? size a then i ← data a !! Z.to_nat index; Some (type a, i)
  else Some (type a, (CMPI_badValue, Some (VWord 0))).

Definition set_at (a : native_array) (index : Z) (i : item) : native_array :=
  with_data a (<[Z.to_nat index := i]> (data a)).

Definition null_at (a : native_array) (index : Z) : option native_array :=
  i ← data a !! Z.to_nat index;
  if is_null (fst i) then Some a else make_NULL a index index.

(** [val->chars == NULL]: the first bytes of a [char *] that is passed itself are not
    looked at here, see [setElementAt]. *)
Definition null_pointer (v : option CMPIValue) : bool := match v with None => true | Some v => is_NULL v end.

(** [val] is the pointer: a [char *] for the type [chars].  [array] is the bit
    [CMPI_ARRAY] of the type.  Elements of an array that is not tracked are cloned, the
    clone of a value is the value. *)
Definition setElementAt (a : native_array) (index : Z) (val : option CMPIValue) (ty : CMPIType) (array opt : bool) :
    option (native_array * Z) :=
  a ← (if dynamic a && (index =? size a) then sfcb_native_array_increase_size a 1 else Some a);
  if size a <=? index then Some (a, CMPI_RC_ERR_FAILED) else
  let chars := bool_decide (ty = CMPI_chars) && negb array in
  '(val, ty) ← (if chars && bool_decide (type a = CMPI_string) then
                  match val with
                  | Some (VChars s) => Some (Some (VString (Some s)), CMPI_string)
                  | None => Some (None, CMPI_null)
                  | _ => None
                  end
                else if chars then match val with None => Some (None, ty) | Some _ => None end
                else Some (val, ty));
  let ty := if (CMPI_ENC ty || array) && null_pointer val then CMPI_null else ty in
  let array := array && negb (bool_decide (ty = CMPI_null)) in
  if opt || (bool_decide (ty = type a) && negb array) then
    a ← null_at a index;
    i ← data a !! Z.to_nat index;
    let old := default (VWord 0) (snd i) in
    v ← sfcb_setAlignedValue old val ty;
    Some (set_at a index (0, match val with None => snd i | Some _ => Some v end), CMPI_RC_OK)
  else if bool_decide (ty = CMPI_null) then
    a ← null_at a index; Some (a, CMPI_RC_OK)
  else Some (a, CMPI_RC_ERR_FAILED).

(** The elements come from a serialized object here: no test for null pointers. *)
Definition arraySetElementNotTrackedAt (a : native_array) (index : Z) (val : CMPIValue) (ty : CMPIType) :
    option (native_array * Z) :=
  if size a <=? index then Some (a, CMPI_RC_ERR_FAILED) else
  '(val, ty) ← (if bool_decide (ty = CMPI_chars) && bool_decide (type a = CMPI_string) then
                  match val with
                  | VChars s => Some (VString (Some s), CMPI_string)
                  | v => if is_NULL v then Some (VString None, CMPI_string) else None
                  end
                else Some (val, ty));
  if bool_decide (ty = type a) then
    i ← data a !! Z.to_nat index;
    v ← sfcb_setAlignedValue (default (VWord 0) (snd i)) (Some val) ty;
    Some (set_at a index (0, Some v), CMPI_RC_OK)
  else if bool_decide (ty = CMPI_null) then
    a ← null_at a index; Some (a, CMPI_RC_OK)
  else Some (a, CMPI_RC_ERR_FAILED).

Definition sfcb_simpleArrayAdd (a : native_array) (val : option CMPIValue) (ty : CMPIType) : option (native_array * Z) :=
  if dynamic a then
    let a := if size a =? 0 then
               {| size := size a; a_max := a_max a; dynamic := dynamic a;
                  type := if bool_decide (ty = CMPI_chars) then CMPI_string else ty; data := data a |}
             else a in
    setElementAt a (size a) val ty false true
  else Some (a, CMPI_RC_ERR_FAILED).

(** The loop of [internal_native_make_CMPIArray] over the cells behind the head;
    [getObjectPath] parses the text of a reference, an embedded instance is the memory
    of its object, a date of the wrong form is a null pointer. *)
Section make.
Variable getObjectPath : bytes -> option CMPIValue.
Variable inst_at : ClObjectHdr -> Z -> option CMPIValue.

Definition date_from_chars (s : bytes) : CMPIValue :=
  if (strlen s =? 25) && match s !! 21%nat with Some c => (c =? 45) || (c =? 43) || (c =? 58) | None => false end
  then VDateTime s else NULL.

Definition chars_pointer (s : option bytes) : CMPIValue := match s with Some s => VChars s | None => NULL end.

Fixpoint make_items (hdr : ClObjectHdr) (a : native_array) (i : Z) (cells : list (option CMPIData)) : option native_array :=
  match cells with
  | [] => Some a
  | c :: cells =>
      c ← c;
      a ← (if d_state c =? CMPI_nullValue then Some a
           else
             let str := id ← word_of (d_value c); ClObjectGetClString hdr id in
             r ← (match d_type c with
                  | CMPI_string => s ← str; arraySetElementNotTrackedAt a i (chars_pointer s) CMPI_chars
                  | CMPI_ref => s ← str; s ← s; v ← getObjectPath s; arraySetElementNotTrackedAt a i v CMPI_ref
                  | CMPI_instance => id ← word_of (d_value c); v ← inst_at hdr id; arraySetElementNotTrackedAt a i v CMPI_instance
                  | CMPI_dateTime =>
                      s ← str;
                      arraySetElementNotTrackedAt a i (match s with Some s => date_from_chars s | None => NULL end) CMPI_dateTime
                  | ty => arraySetElementNotTrackedAt a i (d_value c) ty
                  end);
             Some (fst r));
      make_items hdr a (i + 1) cells
  end.

Definition internal_native_make_CMPIArray (hdr : ClObjectHdr) (av : list (option CMPIData)) : option native_array :=
  match av with
  | Some h :: cells =>
      n ← word_of (d_value h);
      a ← new_empty_array (u32 n) (d_type h);
      if len cells <? s32 n then None
      else make_items hdr a 0 (take (Z.to_nat (s32 n)) cells)
  | _ => None
  end.
End make.

(** * Properties *)

(** As many items as there is room for. *)
Record array_wf (a : native_array) : Prop := {
  wf_size : 0 <= size a <= a_max a;
  wf_max : 0 < a_max a < 2 ^ 32;
  wf_data : len (data a) = a_max a
}.

Lemma make_NULL_loop_length n : forall l from l', make_NULL_loop n l from = Some l' -> length l' = length l.
Proof.
  induction n as [|n IH]; intros l from l' H; [by injection H as <-|]. cbn [make_NULL_loop] in H.
  destruct (l !! from) as [i|]; [|done]. cbn [mbind option_bind] in H. rewrite (IH _ _ _ H). apply length_insert.
Qed.

(** The items of the middle become null, the others stay. *)
Lemma make_NULL_loop_app m : forall l r, make_NULL_loop (length m) (l ++ m ++ r) (length l) = Some (l ++ (set_null <$> m) ++ r).
Proof.
  induction m as [|i m IH]; intros l r; [done|]. cbn [length make_NULL_loop].
  rewrite lookup_app_r, Nat.sub_diag by lia. cbn [app lookup list_lookup mbind option_bind].
  rewrite insert_app_r_alt, Nat.sub_diag by lia. cbn [insert list_insert].
  change (l ++ set_null i :: m ++ r) with (l ++ [set_null i] ++ (m ++ r)). rewrite app_assoc.
  replace (S (length l)) with (length (l ++ [set_null i])) by (rewrite length_app; cbn; lia).
  rewrite IH. by rewrite <- app_assoc.
Qed.

Lemma make_NULL_loop_ok n l from : (from + n <= length l)%nat ->
  make_NULL_loop n l from = Some (take from l ++ (set_null <$> take n (drop from l)) ++ drop (from + n) l).
Proof.
  intros H. pose proof (make_NULL_loop_app (take n (drop from l)) (take from l) (drop (from + n) l)) as E.
  rewrite !length_take, length_drop in E.
  replace (n `min` (length l - from))%nat with n in E by lia. replace (from `min` length l)%nat with from in E by lia.
  rewrite <- E. f_equal. rewrite <- drop_drop, take_drop. by rewrite take_drop.
Qed.

Lemma make_NULL_wf a from to a' : array_wf a -> make_NULL a from to = Some a' -> array_wf a' /\ size a' = size a.
Proof.
  intros [H1 H2 H3] H. unfold make_NULL in H. destruct (make_NULL_loop _ _ _) as [l|] eqn:E; [|done].
  injection H as <-. split; [|done]. split; cbn; try done. by rewrite (make_NULL_loop_length _ _ _ _ E).
Qed.

Lemma null_at_wf a i a' : array_wf a -> null_at a i = Some a' -> array_wf a' /\ size a' = size a.
Proof.
  unfold null_at. intros H. destruct (data a !! _); [|done]. cbn [mbind option_bind].
  destruct (is_null _); [by intros [= <-]|]. by apply make_NULL_wf.
Qed.

Lemma set_at_wf a i x : array_wf a -> array_wf (set_at a i x).
Proof. intros [H1 H2 H3]. split; cbn; try done. by rewrite length_insert. Qed.

Lemma double_bounds fuel : forall m need r, 0 <= need -> double fuel m need = Some r -> need <= r /\ (r = m \/ 0 <= r < 2 ^ 32).
Proof.
  induction fuel as [|fuel IH]; intros m need r Hn H; [done|]. cbn [double] in H.
  destruct (Z.ltb_spec m need); [|injection H as <-; split; [lia|by left]].
  destruct (IH _ _ _ Hn H) as [H1 [->|H2]]; split; try done; right; [apply (wrapu_bound 32); lia|done].
Qed.

Lemma realloc_items_length l m : 0 <= m -> len (realloc_items l m) = m.
Proof. intros Hm. unfold realloc_items. rewrite length_app, length_take, length_replicate. lia. Qed.

Lemma zero_items_length l from n l' : zero_items l from n = Some l' -> 0 <= from -> 0 <= n -> length l' = length l.
Proof.
  unfold zero_items. destruct (Z.ltb_spec (len l) (from + n)); [done|]. intros [= <-] Hf Hn.
  rewrite !length_app, length_take, length_replicate, length_drop. lia.
Qed.

Lemma increase_size_wf a n a' : array_wf a -> 0 <= n -> sfcb_native_array_increase_size a n = Some a' -> array_wf a'.
Proof.
  intros Hwf Hn H. unfold sfcb_native_array_increase_size in H. pose proof (wrapu_bound 32 (size a + n)) as Hb.
  set (need := u32 (size a + n)) in *. destruct Hwf as [H1 H2 H3].
  destruct (Z.ltb_spec (a_max a) need) as [Hlt|Hge]; [|injection H as <-; split; cbn; lia].
  destruct (if size a =? 0 then Some 8 else double 33 (a_max a) need) as [m|] eqn:Em; [|done]. cbn [mbind option_bind] in H.
  destruct (zero_items _ _ _) as [l|] eqn:Ez; [|done]. cbn [mbind option_bind] in H.
  assert (Hm : 0 < m < 2 ^ 32 /\ (need <= m \/ m = 8 /\ size a = 0)).
  { destruct (Z.eqb_spec (size a) 0) as [E|]; [injection Em as <-; split; [lia|by right]|].
    destruct (double_bounds _ _ _ _ (proj1 (Hb ltac:(lia))) Em) as [Hd1 [->|Hd2]]; split; try lia; by left. }
  assert (Hll : len l = m) by (rewrite (zero_items_length _ _ _ _ Ez) by lia; apply realloc_items_length; lia).
  assert (Hfit : need <= m).
  { destruct (proj2 Hm) as [|[-> E]]; [done|]. unfold zero_items in Ez. rewrite realloc_items_length in Ez by lia.
    destruct (Z.ltb_spec 8 (size a + n)); [done|]. unfold need. rewrite wrapu_small by lia. lia. }
  destruct (make_NULL _ _ _) as [b|] eqn:Eb; [|done]. cbn [mbind option_bind] in H. injection H as <-.
  unfold make_NULL in Eb. destruct (make_NULL_loop _ _ _) as [l2|] eqn:El; [|done]. injection Eb as <-.
  split; cbn; [specialize (Hb ltac:(lia)); lia|lia|]. rewrite (make_NULL_loop_length _ _ _ _ El). exact Hll.
Qed.

Lemma setElementAt_wf a i v ty ar opt a' rc : array_wf a -> setElementAt a i v ty ar opt = Some (a', rc) -> array_wf a'.
Proof.
  intros Hwf H. unfold setElementAt in H.
  destruct (if dynamic a && (i =? size a) then _ else _) as [b|] eqn:Eb; [|done]. cbn [mbind option_bind] in H.
  assert (Hb : array_wf b).
  { destruct (_ && _); [by eapply increase_size_wf; [exact Hwf| |exact Eb]|by injection Eb as <-]. }
  clear Eb Hwf. destruct (size b <=? i); [by injection H as <- _|].
  match type of H with context [mbind _ ?x] => destruct x as [[v2 t2]|]; [|done] end. cbn [mbind option_bind] in H.
  destruct (opt || _).
  - destruct (null_at b i) as [c|] eqn:Ec; [|done]. cbn [mbind option_bind] in H.
    destruct (null_at_wf _ _ _ Hb Ec) as [Hc _]. destruct (data c !! _) as [it|]; [|done]. cbn [mbind option_bind] in H.
    destruct (sfcb_setAlignedValue _ _ _); [|done]. cbn [mbind option_bind] in H. injection H as <- _. by apply set_at_wf.
  - destruct (bool_decide _); [|by injection H as <- _].
    destruct (null_at b i) as [c|] eqn:Ec; [|done]. injection H as <- _. by apply (null_at_wf _ _ _ Hb Ec).
Qed.

Lemma setNotTracked_wf a i v ty a' rc : array_wf a -> arraySetElementNotTrackedAt a i v ty = Some (a', rc) -> array_wf a'.
Proof.
  intros Hwf H. unfold arraySetElementNotTrackedAt in H. destruct (size a <=? i); [by injection H as <- _|].
  match type of H with context [mbind _ ?x] => destruct x as [[v2 t2]|]; [|done] end. cbn [mbind option_bind] in H.
  destruct (bool_decide (t2 = type a)).
  - destruct (data a !! _); [|done]. cbn [mbind option_bind] in H. destruct (sfcb_setAlignedValue _ _ _); [|done].
    injection H as <- _. by apply set_at_wf.
  - destruct (bool_decide _); [|by injection H as <- _].
    destruct (null_at a i) as [c|] eqn:Ec; [|done]. injection H as <- _. by apply (null_at_wf _ _ _ Hwf Ec).
Qed.

(** The operations of the function table and of the broker on an array. *)
Inductive op :=
| OSet (i : Z) (v : option CMPIValue) (ty : CMPIType) (array : bool)
| OAdd (v : option CMPIValue) (ty : CMPIType)
| OSetNotTracked (i : Z) (v : CMPIValue) (ty : CMPIType)
| OGrow (n : Z).

Definition apply_op (a : native_array) (o : op) : option native_array :=
  match o with
  | OSet i v ty ar => fst <$> setElementAt a i v ty ar false
  | OAdd v ty => fst <$> sfcb_simpleArrayAdd a v ty
  | OSetNotTracked i v ty => fst <$> arraySetElementNotTrackedAt a i v ty
  | OGrow n => sfcb_native_array_increase_size a (u32 n)
  end.
Fixpoint apply_ops (a : native_array) (os : list op) : option native_array :=
  match os with [] => Some a | o :: os => a ← apply_op a o; apply_ops a os end.

Lemma new_empty_array_wf sz ty : 0 <= sz < 2 ^ 32 ->
  exists a, new_empty_array sz ty = Some a /\ array_wf a /\ size a = sz /\ dynamic a = (sz =? 0) /\
    Forall (fun i => fst i = CMPI_nullValue) (data a).
Proof.
  intros Hsz. unfold new_empty_array, make_NULL. cbn [data].
  set (m := if sz =? 0 then 8 else sz). assert (Hm : 0 < m < 2 ^ 32 /\ sz <= m) by (unfold m; destruct (Z.eqb_spec sz 0); lia).
  rewrite make_NULL_loop_ok by (rewrite length_replicate; lia). cbn [mbind option_bind].
  change (Z.to_nat 0) with 0%nat. rewrite take_0, drop_0. cbn [app]. replace (Z.to_nat (m - 1 + 1 - 0)) with (Z.to_nat m) by lia.
  rewrite drop_ge, app_nil_r, take_ge by (rewrite length_replicate; lia).
  eexists. split; [done|]. split; [split; cbn; [lia|lia|rewrite length_fmap, length_replicate; lia]|].
  split; [done|]. split; [done|]. cbn. rewrite fmap_replicate. by apply Forall_replicate.
Qed.

(** whatever is done with an array, it has room for its items: the size is at most
    [max], and [max] items are allocated. *)
Theorem array_invariant sz ty a os a' : 0 <= sz < 2 ^ 32 -> new_empty_array sz ty = Some a ->
  apply_ops a os = Some a' -> array_wf a'.
Proof.
  intros Hsz Hnew. destruct (new_empty_array_wf sz ty Hsz) as (a0 & E & Hwf & _). rewrite E in Hnew. injection Hnew as <-.
  clear E. revert a0 Hwf. induction os as [|o os IH]; intros a0 Hwf H; [by injection H as <-|]. cbn [apply_ops] in H.
  destruct (apply_op a0 o) as [a1|] eqn:Eo; [|done]. cbn [mbind option_bind] in H. apply (IH a1); [|exact H].
  destruct o as [i v t ar|v t|i v t|n]; cbn [apply_op] in Eo.
  - destruct (setElementAt _ _ _ _ _ _) as [[b rc]|] eqn:Es; [|done]. injection Eo as <-. by eapply setElementAt_wf.
  - destruct (sfcb_simpleArrayAdd _ _ _) as [[b rc]|] eqn:Es; [|done]. injection Eo as <-.
    unfold sfcb_simpleArrayAdd in Es. destruct (dynamic a0); [|by injection Es as <- _].
    eapply setElementAt_wf; [|exact Es]. destruct (size a0 =? 0); [|done]. by destruct Hwf; split.
  - destruct (arraySetElementNotTrackedAt _ _ _ _) as [[b rc]|] eqn:Es; [|done]. injection Eo as <-. by eapply setNotTracked_wf.
  - eapply increase_size_wf; [exact Hwf| |exact Eo]. apply (wrapu_bound 32). lia.
Qed.

(** ** Adding items to a growing array *)

Definition elements (a : native_array) : list item := take (Z.to_nat (size a)) (data a).

Lemma double_ok fuel : forall m need, 0 < m -> need <= m * 2 ^ (Z.of_nat fuel - 1) -> need <= 2 ^ 31 -> (0 < fuel)%nat -> m < 2 ^ 32 ->
  exists r, (double fuel m need = Some r) /\ need <= r < 2 ^ 32.
Proof.
  induction fuel as [|fuel IH]; intros m need Hm Hn Hb Hf Hm2; [lia|]. cbn [double].
  destruct (Z.ltb_spec m need); [|exists m; split; [done|lia]].
  assert (Hu : u32 (m * 2) = m * 2) by (apply wrapu_small; lia). rewrite Hu.
  destruct fuel as [|fuel]; [change (Z.of_nat 1 - 1) with 0 in Hn; lia|].
  apply IH; [lia| |done|lia|lia].
  replace (m * 2 * 2 ^ (Z.of_nat (S fuel) - 1)) with (m * 2 ^ (Z.of_nat (S (S fuel)) - 1)); [done|].
  rewrite <- Z.mul_assoc, <- Z.pow_succ_r by lia. do 2 f_equal. lia.
Qed.

Lemma double_33 m need : 0 < m < 2 ^ 32 -> need <= 2 ^ 31 -> exists r, double 33 m need = Some r /\ need <= r < 2 ^ 32.
Proof. intros Hm Hn. apply double_ok; [lia| |done|lia|lia]. change (Z.of_nat 33 - 1) with 32. nia. Qed.

(** Growing by one keeps the items and gives a new one. *)
Lemma increase_by_one a : array_wf a -> size a < 2 ^ 31 -> (size a = 0 -> 8 <= a_max a) ->
  exists a', sfcb_native_array_increase_size a 1 = Some a' /\ array_wf a' /\ size a' = size a + 1 /\
    type a' = type a /\ dynamic a' = dynamic a /\ take (Z.to_nat (size a)) (data a') = elements a.
Proof.
  intros Hwf Hs H8. unfold sfcb_native_array_increase_size. pose proof Hwf as [H1 H2 H3].
  rewrite (wrapu_small 32) by lia. destruct (Z.ltb_spec (a_max a) (size a + 1)) as [Hlt|Hge].
  2: { cbn [mbind option_bind]. eexists. split; [done|]. split; [split; cbn; lia|]. by split_and!. }
  assert (Hz : (size a =? 0) = false) by (apply Z.eqb_neq; lia). rewrite Hz.
  destruct (double_33 (a_max a) (size a + 1)) as (m & -> & Hm); [lia|lia|]. cbn [mbind option_bind].
  assert (Hl : len (realloc_items (data a) m) = m) by (apply realloc_items_length; lia).
  unfold zero_items. rewrite Hl, (proj2 (Z.ltb_ge _ _)) by lia. cbn [mbind option_bind].
  change (Z.to_nat 1) with 1%nat. cbn [replicate app].
  set (l := take _ _ ++ _ :: drop _ _). assert (Hll : length l = Z.to_nat m).
  { unfold l. rewrite length_app, length_take. cbn [length]. rewrite length_drop. lia. }
  unfold make_NULL. cbn [data]. rewrite make_NULL_loop_ok by lia. cbn [mbind option_bind].
  eexists. split; [done|]. split; [split; cbn; [lia|lia|]|].
  - rewrite !length_app, length_fmap, !length_take, !length_drop. lia.
  - split; [done|]. split; [done|]. split; [done|]. cbn. unfold elements, l.
    rewrite take_app_le by (rewrite !length_take, length_app, length_take; cbn [length]; rewrite length_drop; lia).
    rewrite take_take, Nat.min_id. rewrite take_app_le by (rewrite length_take; lia).
    rewrite take_take, Nat.min_id. unfold realloc_items. rewrite take_app_le by (rewrite length_take; lia).
    rewrite take_take. f_equal. lia.
Qed.

(** What [sfcb_simpleArrayAdd] stores: strings are copied, other values have the width
    of their type. *)
Definition added (t ty : CMPIType) (v : CMPIValue) : option CMPIValue :=
  if bool_decide (ty = CMPI_chars) then
    if bool_decide (t = CMPI_string) then match v with VChars s => Some (VString (Some s)) | _ => None end else None
  else if CMPI_ENC ty && is_NULL v then None
  else sfcb_setAlignedValue (VWord 0) (Some v) ty.
Definition type_of_first (ty : CMPIType) : CMPIType := if bool_decide (ty = CMPI_chars) then CMPI_string else ty.

Lemma aligned_total old v ty : sfcb_setAlignedValue old (Some v) ty = sfcb_setAlignedValue (VWord 0) (Some v) ty.
Proof. done. Qed.

Lemma setElementAt_new a v ty x : array_wf a -> dynamic a = true -> size a < 2 ^ 31 -> (size a = 0 -> 8 <= a_max a) ->
  added (type a) ty v = Some x ->
  exists a', setElementAt a (size a) (Some v) ty false true = Some (a', CMPI_RC_OK) /\ array_wf a' /\
    size a' = size a + 1 /\ type a' = type a /\ dynamic a' = true /\ elements a' = elements a ++ [(0, Some x)].
Proof.
  intros Hwf Hd Hs H8 Hx. unfold setElementAt. rewrite Hd, Z.eqb_refl. cbn [andb].
  destruct (increase_by_one a Hwf Hs H8) as (b & -> & Hb & Hsb & Htb & Hdb & Hel). cbn [mbind option_bind].
  rewrite Hsb, (proj2 (Z.leb_gt _ _)) by lia. rewrite Htb.
  assert (Hcell : exists c i, null_at b (size a) = Some c /\ data c !! Z.to_nat (size a) = Some i /\ array_wf c /\
    size c = size a + 1 /\ type c = type a /\ dynamic c = true /\ take (Z.to_nat (size a)) (data c) = elements a).
  { pose proof (wf_size _ Hwf). unfold null_at. destruct (lookup_lt_is_Some_2 (data b) (Z.to_nat (size a))) as [i Hi].
    { pose proof (wf_data _ Hb). pose proof (wf_size _ Hb). lia. }
    rewrite Hi. cbn [mbind option_bind]. destruct (is_null (fst i)).
    - exists b, i. by rewrite Hdb, Hd.
    - unfold make_NULL. replace (Z.to_nat (size a + 1 - size a)) with 1%nat by lia. cbn [make_NULL_loop]. rewrite Hi.
      cbn [mbind option_bind]. eexists _, (set_null i). split; [done|]. cbn [data with_data size type dynamic].
      split; [apply list_lookup_insert_eq; by eapply lookup_lt_Some|]. split; [|rewrite take_insert_ge by lia; by rewrite Hdb, Hd].
      destruct Hb as [B1 B2 B3]. split; cbn; [done|done|by rewrite length_insert]. }
  destruct Hcell as (c & i & Hn & Hi & Hc & Hsc & Htc & Hdc & Helc).
  assert (Hfin : forall y, array_wf (set_at c (size a) (0, Some y)) /\ size (set_at c (size a) (0, Some y)) = size a + 1 /\
    type (set_at c (size a) (0, Some y)) = type a /\ dynamic (set_at c (size a) (0, Some y)) = true /\
    elements (set_at c (size a) (0, Some y)) = elements a ++ [(0, Some y)]).
  { intros y. split; [by apply set_at_wf|]. split; [done|]. split; [done|]. split; [done|].
    unfold elements. cbn [set_at with_data size data]. rewrite Hsc. pose proof (wf_size _ Hwf).
    replace (Z.to_nat (size a + 1)) with (S (Z.to_nat (size a))) by lia.
    rewrite (take_S_r _ _ (0, Some y)); [|apply list_lookup_insert_eq; by eapply lookup_lt_Some].
    rewrite take_insert_ge by lia. by rewrite Helc. }
  unfold added in Hx. rewrite andb_true_r. destruct (bool_decide_reflect (ty = CMPI_chars)) as [->|Hty]; cbn [andb].
  - destruct (bool_decide_reflect (type a = CMPI_string)); [|done]. destruct v; try done. injection Hx as <-.
    cbn [mbind option_bind]. cbn [CMPI_ENC orb andb null_pointer is_NULL]. rewrite Hn. cbn [mbind option_bind]. rewrite Hi.
    cbn [mbind option_bind sfcb_setAlignedValue]. eexists. split; [done|]. apply Hfin.
  - cbn [mbind option_bind]. rewrite orb_false_r. destruct (CMPI_ENC ty && is_NULL v) eqn:En; [done|].
    cbn [null_pointer]. rewrite En. cbn [orb]. rewrite Hn. cbn [mbind option_bind]. rewrite Hi. cbn [mbind option_bind].
    rewrite aligned_total, Hx. cbn [mbind option_bind]. eexists. split; [done|]. apply Hfin.
Qed.

(** The array of the first item, and the following ones. *)
Fixpoint add_values (a : native_array) (vs : list (CMPIValue * CMPIType)) : option native_array :=
  match vs with
  | [] => Some a
  | (v, ty) :: vs => '(a, _) ← sfcb_simpleArrayAdd a (Some v) ty; add_values a vs
  end.

Lemma add_values_ok vs : forall a xs, array_wf a -> dynamic a = true -> 0 < size a ->
  size a + len vs <= 2 ^ 31 -> Forall2 (fun '(v, ty) x => added (type a) ty v = Some x) vs xs ->
  exists a', add_values a vs = Some a' /\ array_wf a' /\ elements a' = elements a ++ ((fun x => (0, Some x)) <$> xs).
Proof.
  induction vs as [|[v ty] vs IH]; intros a xs Hwf Hd Hs Hn HF.
  - apply Forall2_nil_inv_l in HF as ->. exists a. split; [done|]. split; [done|]. by rewrite app_nil_r.
  - apply Forall2_cons_inv_l in HF as (x & xs' & Hx & HF & ->). cbn [length] in Hn. cbn [add_values].
    unfold sfcb_simpleArrayAdd. rewrite Hd, (proj2 (Z.eqb_neq _ 0)) by lia.
    destruct (setElementAt_new a v ty x Hwf Hd) as (a1 & -> & Hwf1 & Hs1 & Ht1 & Hd1 & He1); [lia|lia|done|].
    cbn [mbind option_bind]. destruct (IH a1 xs' Hwf1 Hd1) as (a2 & E & Hwf2 & He2); [lia|lia|by rewrite Ht1|].
    exists a2. split; [exact E|]. split; [done|]. rewrite He2, He1, fmap_cons. by rewrite <- app_assoc.
Qed.

(** values added to a new growing array, any number of them, are its elements in
    order, each a good value of the array's type; the type is that of the first value. *)
Theorem simpleArrayAdd_refines ty0 a v ty vs x xs :
  new_empty_array 0 ty0 = Some a -> len vs < 2 ^ 31 ->
  added (type_of_first ty) ty v = Some x ->
  Forall2 (fun '(v, t) x => added (type_of_first ty) t v = Some x) vs xs ->
  exists a', add_values a ((v, ty) :: vs) = Some a' /\ size a' = 1 + len vs /\
    elements a' = (fun x => (0, Some x)) <$> (x :: xs) /\
    forall i y, (x :: xs) !! i = Some y -> getElementAt a' (Z.of_nat i) = Some (type a', (0, Some y)).
Proof.
  intros Hnew Hn Hx HF. destruct (new_empty_array_wf 0 ty0) as (a0 & E & Hwf & Hs & Hd & _); [lia|].
  rewrite E in Hnew. injection Hnew as ->. cbn [add_values]. unfold sfcb_simpleArrayAdd. rewrite Hd, Hs. cbn [Z.eqb].
  fold (type_of_first ty). set (b := {| size := 0; a_max := a_max a; dynamic := true; type := type_of_first ty; data := data a |}).
  assert (Hb : array_wf b) by (destruct Hwf; split; cbn; lia).
  assert (H8 : a_max a = 8).
  { unfold new_empty_array, make_NULL in E. cbn [Z.eqb] in E. destruct (make_NULL_loop _ _ _); [|done]. by injection E as <-. }
  destruct (setElementAt_new b v ty x Hb eq_refl) as (a1 & E1 & Hwf1 & Hs1 & Ht1 & Hd1 & He1); [done|cbn; lia|done|].
  change (setElementAt b 0 (Some v) ty false true) with (setElementAt b (size b) (Some v) ty false true). rewrite E1.
  cbn [mbind option_bind]. cbn [size b] in Hs1.
  destruct (add_values_ok vs a1 xs Hwf1 Hd1) as (a2 & E2 & Hwf2 & He2); [lia|lia|by rewrite Ht1|].
  assert (Hel : elements a2 = (fun x => (0, Some x)) <$> (x :: xs)).
  { rewrite He2, He1. unfold elements at 1. cbn [size b]. by rewrite take_0. }
  assert (Hsz : size a2 = 1 + len vs).
  { assert (Hl : length (elements a2) = S (length xs)) by (rewrite Hel, length_fmap; done).
    unfold elements in Hl. rewrite length_take in Hl. pose proof (wf_size _ Hwf2). pose proof (wf_data _ Hwf2).
    rewrite (Forall2_length _ _ _ HF). lia. }
  exists a2. split; [exact E2|]. split; [done|]. split; [done|].
  intros i y Hi. unfold getElementAt. pose proof (lookup_lt_Some _ _ _ Hi) as Hlt. cbn [length] in Hlt.
  rewrite <- (Forall2_length _ _ _ HF) in Hlt. rewrite (proj2 (Z.ltb_lt _ _)), Nat2Z.id by lia.
  assert (Hl : elements a2 !! i = Some (0, Some y)) by (rewrite Hel, list_lookup_fmap, Hi; done).
  unfold elements in Hl. rewrite lookup_take_lt in Hl by lia. by rewrite Hl.
Qed.

(** Growing an empty array by more than eight items writes behind the new memory. *)
Lemma increase_from_empty a n : array_wf a -> size a = 0 -> a_max a < n < 2 ^ 32 -> 8 < n ->
  sfcb_native_array_increase_size a n = None.
Proof.
  intros Hwf Hs Hn H8. unfold sfcb_native_array_increase_size. rewrite Hs, (wrapu_small 32) by lia.
  rewrite (proj2 (Z.ltb_lt _ _)) by lia. cbn [Z.eqb mbind option_bind]. unfold zero_items.
  rewrite realloc_items_length by lia. by rewrite (proj2 (Z.ltb_lt _ _)) by lia.
Qed.

(** A null added to an array is stored as a good value. *)
Lemma null_added_good : exists a a', new_empty_array 0 CMPI_uint8 = Some a /\
  sfcb_simpleArrayAdd a None CMPI_uint8 = Some (a', CMPI_RC_OK) /\ getElementAt a' 0 = Some (CMPI_uint8, (0, None)).
Proof. eexists _, _. split; [vm_compute; reflexivity|]. split; vm_compute; reflexivity. Qed.

(** The array [__new_empty_array] makes for size 0. *)
Definition wit_array (ty : CMPIType) : native_array :=
  {| size := 0; a_max := 8; dynamic := true; type := ty; data := replicate 8 (CMPI_nullValue, None) |}.

Lemma array_invariant_witness : exists a', apply_ops (wit_array CMPI_uint8) [OAdd (Some (VWord 7)) CMPI_uint8; OGrow 3] = Some a' /\ array_wf a'.
Proof.
  eexists. split; [vm_compute; reflexivity|].
  eapply (array_invariant 0 CMPI_uint8 (wit_array CMPI_uint8) [OAdd (Some (VWord 7)) CMPI_uint8; OGrow 3]);
    [by split|vm_compute; reflexivity|vm_compute; reflexivity].
Defined.

Lemma simpleArrayAdd_refines_witness : exists a',
  add_values (wit_array CMPI_null) [(VChars (cstr "a"), CMPI_chars); (VString (Some (cstr "b")), CMPI_string)] = Some a' /\
  elements a' = [(0, Some (VString (Some (cstr "a")))); (0, Some (VString (Some (cstr "b"))))].
Proof.
  destruct (simpleArrayAdd_refines CMPI_null (wit_array CMPI_null) (VChars (cstr "a")) CMPI_chars [(VString (Some (cstr "b")), CMPI_string)]
    (VString (Some (cstr "a"))) [VString (Some (cstr "b"))]) as (a' & E' & _ & He & _).
  - vm_compute. reflexivity.
  - done.
  - reflexivity.
  - constructor; [reflexivity|constructor].
  - exists a'. split; [exact E'|exact He].
Defined.
