(* ===== verification/ConstClass.v ===== *)
(** * Class objects (constClass.c and the readers of objectImpl.c)

    What is read from a class: its names and qualifier bits, its qualifiers, properties,
    methods and parameters by position ([ClClassGet...At]), the accessors of
    [CMPIConstClass] by position and by name, the list of its keys, and the copy of a
    class ([cls_clone]).

    [None] is undefined behaviour; a reader that finds its position out of range returns
    [Some None] ([1] in the code, [CMPI_RC_ERR_NOT_FOUND] of the accessors). *)

From S2P Require Import Prelude CString CmpiData ClBuffer StringBuffer ClObject ClClass NativeArray.

(** ** Names and qualifier bits *)

Definition getCharClassName (cls : ClClass) : option (option bytes) := ClObjectGetClString (c_hdr cls) (c_name cls).
Definition getCharSuperClassName (cls : ClClass) : option (option bytes) := ClObjectGetClString (c_hdr cls) (c_parent cls).
Definition isAbstract (cls : ClClass) : bool := negb (Z.land (c_quals cls) ClClass_Q_Abstract =? 0).
Definition isAssociation (cls : ClClass) : bool := negb (Z.land (c_quals cls) ClClass_Q_Association =? 0).
Definition isIndication (cls : ClClass) : bool := negb (Z.land (c_quals cls) ClClass_Q_Indication =? 0).

(** ** Reading by position *)

(** What a reader puts into a [CMPIData]: a value, or for an array the pointer to the
    cells of the object it is stored in ([None] is the null pointer). *)
Inductive read_value :=
| RData (d : CMPIData)
| RCells (d : CMPIData) (cells : option (list (option CMPIData))).

Definition rv_data (r : read_value) : CMPIData := match r with RData d | RCells d _ => d end.

(** [if (id < 0 || id > used) return 1;], then the item. *)
Definition item_of {T} (s : ClSection T) (id : Z) : option (option T) :=
  if (id <? 0) || (used s <? id) then Some None
  else x ← section_list s !! Z.to_nat id; Some (Some x).

(** [if (id < 0 || id > used) return 1;], then a count of the item. *)
Definition count_of {T} (s : ClSection T) (id : Z) (count : T -> Z) : option Z :=
  x ← item_of s id; Some (match x with None => 1 | Some x => count x end).

Definition string_of (hdr : ClObjectHdr) (d : CMPIData) : option (option bytes) :=
  id ← word_of (d_value d); ClObjectGetClString hdr id.

Definition ClGetQualifierAt (cls : ClClass) (q : ClQualifier) : option (read_value * option bytes) :=
  let d := q_data q in
  r ← (if simple_type d CMPI_chars then
         str ← string_of (c_hdr cls) d; Some (RData (data_typed d CMPI_string (VString str)))
       else if d_array d then
         id ← word_of (d_value d); a ← ClObjectGetClArray (c_hdr cls) id; Some (RCells d a)
       else Some (RData d));
  name ← ClObjectGetClString (c_hdr cls) (q_id q);
  Some (r, name).

Definition ClClassGetQualifierAt (cls : ClClass) (id : Z) : option (option (read_value * option bytes)) :=
  q ← item_of (c_qualifiers cls) id;
  match q with None => Some None | Some q => Some <$> ClGetQualifierAt cls q end.
Definition ClClassGetQualifierCount (cls : ClClass) : Z := used (c_qualifiers cls).

Definition ClClassGetPropertyCount (cls : ClClass) : Z := used (c_properties cls).
Definition ClClassGetPropQualifierCount (cls : ClClass) (id : Z) : option Z :=
  count_of (c_properties cls) id (fun p => used (p_qualifiers p)).
Definition ClClassGetPropQualifierAt (cls : ClClass) (id qid : Z) : option (option (read_value * option bytes)) :=
  p ← item_of (c_properties cls) id;
  match p with
  | None => Some None
  | Some p =>
      q ← item_of (p_qualifiers p) qid;
      match q with None => Some None | Some q => Some <$> ClGetQualifierAt cls q end
  end.

Definition ClClassGetMethodCount (cls : ClClass) : Z := used (c_methods cls).
Definition ClClassGetMethodAt (cls : ClClass) (id : Z) : option (option (CMPIType * option bytes * Z)) :=
  m ← item_of (c_methods cls) id;
  match m with
  | None => Some None
  | Some m => name ← ClObjectGetClString (c_hdr cls) (m_id m); Some (Some (m_type m, name, m_quals m))
  end.
Definition ClClassGetMethQualifierCount (cls : ClClass) (id : Z) : option Z :=
  count_of (c_methods cls) id (fun m => used (m_qualifiers m)).
Definition ClClassGetMethParameterCount (cls : ClClass) (id : Z) : option Z :=
  count_of (c_methods cls) id (fun m => used (m_parameters m)).

(** A parameter with the name of its class. *)
Definition ClClassGetMethParameterAt (cls : ClClass) (m : ClMethod) (pid : Z) :
    option (option (CMPIParameter * option bytes * option bytes)) :=
  p ← item_of (m_parameters m) pid;
  match p with
  | None => Some None
  | Some p =>
      ref ← ClObjectGetClString (c_hdr cls) (pm_refName (a_parameter p));
      name ← ClObjectGetClString (c_hdr cls) (a_id p);
      Some (Some (a_parameter p, ref, name))
  end.
Definition ClClassGetMethParamQualifierCount (p : ClParameter) : Z := used (a_qualifiers p).

Section objects.
(** The parser of the text of a reference and the embedded instance at a place of the
    string buffer. *)
Context (getObjectPath : bytes -> option CMPIValue) (inst_at : ClObjectHdr -> Z -> option CMPIValue).

(** [native_make_CMPIArray] of the cells at a pointer. *)
Definition native_make_CMPIArray (hdr : ClObjectHdr) (cells : option (list (option CMPIData))) : option CMPIValue :=
  cells ← cells;
  a ← internal_native_make_CMPIArray getObjectPath inst_at hdr cells;
  Some (VArray (type a) ((fun i => Item (fst i) (default NULL (snd i))) <$> take (Z.to_nat (size a)) (data a))).

(** The array of the data when there is one at the pointer. *)
Definition with_array (hdr : ClObjectHdr) (r : read_value) : option CMPIData :=
  match r with
  | RData d => Some d
  | RCells d None => Some (data_with d NULL)
  | RCells d cells => v ← native_make_CMPIArray hdr cells; Some (data_with d v)
  end.

Definition with_native_array (cls : ClClass) (r : option (read_value * option bytes)) :
    option (option (CMPIData * option bytes)) :=
  match r with
  | None => Some None
  | Some (r, name) => d ← with_array (c_hdr cls) r; Some (Some (d, name))
  end.

Definition qualifier_with_array (cls : ClClass) (s : ClSection ClQualifier) (qid : Z) : option (option (CMPIData * option bytes)) :=
  q ← item_of s qid;
  match q with None => Some None | Some q => r ← ClGetQualifierAt cls q; with_native_array cls (Some r) end.
Definition ClClassGetMethQualifierAt (cls : ClClass) (m : ClMethod) (qid : Z) := qualifier_with_array cls (m_qualifiers m) qid.
Definition ClClassGetMethParamQualifierAt (cls : ClClass) (p : ClParameter) (id : Z) := qualifier_with_array cls (a_qualifiers p) id.

(** The switch of [ClClassGetPropertyAt]: the text of a reference is left as its id, a
    null value is set to 0. *)
Definition property_value (hdr : ClObjectHdr) (d : CMPIData) : option read_value :=
  if is_null (d_state d) then Some (RData (data_with d (VWord 0)))
  else if simple_type d CMPI_chars then
    str ← string_of hdr d; Some (RData (data_typed d CMPI_string (VString str)))
  else if simple_type d CMPI_dateTime then
    str ← string_of hdr d;
    Some (RData (data_with d match str with Some s => date_from_chars s | None => NULL end))
  else if d_array d then
    i ← word_of (d_value d); a ← ClObjectGetClArray hdr i; Some (RCells d a)
  else if simple_type d CMPI_instance then
    i ← word_of (d_value d); v ← inst_at hdr i; Some (RData (data_with d v))
  else Some (RData d).

Definition ClClassGetPropertyAt (cls : ClClass) (id : Z) :
    option (option (read_value * option bytes * Z * option bytes)) :=
  p ← item_of (c_properties cls) id;
  match p with
  | None => Some None
  | Some p =>
      r ← property_value (c_hdr cls) (p_data p);
      name ← ClObjectGetClString (c_hdr cls) (p_id p);
      refName ← ClObjectGetClString (c_hdr cls) (p_refName p);
      Some (Some (r, name, p_quals p, refName))
  end.

(** ** The accessors *)

(** What [getPropertyQualsAt] makes of it; null characters are left as they are. *)
Definition accessor_value (hdr : ClObjectHdr) (r : read_value) : option CMPIData :=
  let d := rv_data r in
  if simple_type d CMPI_chars then Some (data_typed d CMPI_string (VString None))
  else if simple_type d CMPI_ref && negb (is_null (d_state d)) then
    str ← string_of hdr d; s ← str; v ← getObjectPath s; Some (data_with d v)
  else with_array hdr r.

(** Value, name, qualifier bits and class of the reference. *)
Definition getPropertyQualsAt (cls : ClClass) (i : Z) : option (option (CMPIData * option bytes * Z * option bytes)) :=
  r ← ClClassGetPropertyAt cls (s32 i);
  match r with
  | None => Some None
  | Some (r, name, quals, refName) => d ← accessor_value (c_hdr cls) r; Some (Some (d, name, quals, refName))
  end.
Definition getPropertyAt (cls : ClClass) (i : Z) : option (option (CMPIData * option bytes)) :=
  r ← getPropertyQualsAt cls i; Some (match r with Some (d, name, _, _) => Some (d, name) | None => None end).
Definition getPropertyCount (cls : ClClass) : Z := ClClassGetPropertyCount cls.

Definition getPropertyQuals (cls : ClClass) (id : bytes) : option (option (CMPIData * Z)) :=
  i ← ClObjectLocateProperty (c_hdr cls) (c_properties cls) id;
  if negb (i =? 0) then
    r ← getPropertyQualsAt cls (i - 1); Some (match r with Some (d, _, quals, _) => Some (d, quals) | None => None end)
  else Some None.
Definition getProperty (cls : ClClass) (id : bytes) : option (option CMPIData) :=
  r ← getPropertyQuals cls id; Some (match r with Some (d, _) => Some d | None => None end).

(** The first qualifier with the name; [strcasecmp] of a null pointer is undefined. *)
Fixpoint find_qualifier (read : Z -> option (option (read_value * option bytes))) (name : bytes) (n : nat) (i : Z) :
    option (option read_value) :=
  match n with
  | O => Some None
  | S n =>
      r ← read i;
      match r with
      | None => Some None
      | Some (r, qname) =>
          qname ← qname;
          if strcasecmp name qname =? 0 then Some (Some r) else find_qualifier read name n (i + 1)
      end
  end.
Definition getQualifier (cls : ClClass) (name : bytes) : option (option CMPIData) :=
  r ← find_qualifier (ClClassGetQualifierAt cls) name (Z.to_nat (ClClassGetQualifierCount cls)) 0;
  match r with None => Some None | Some r => Some <$> with_array (c_hdr cls) r end.
Definition getQualifierAt (cls : ClClass) (i : Z) : option (option (CMPIData * option bytes)) :=
  r ← ClClassGetQualifierAt cls (s32 i); with_native_array cls r.
Definition getQualifierCount (cls : ClClass) : Z := ClClassGetQualifierCount cls.

Definition internalGetPropQualAt (cls : ClClass) (p i : Z) : option (option (CMPIData * option bytes)) :=
  r ← ClClassGetPropQualifierAt cls (s32 p) (s32 i); with_native_array cls r.
Definition getPropQualifierAt (cls : ClClass) (cp : bytes) (i : Z) : option (option (CMPIData * option bytes)) :=
  p ← ClObjectLocateProperty (c_hdr cls) (c_properties cls) cp; internalGetPropQualAt cls (u32 (p - 1)) i.
Definition getPropQualifierCount (cls : ClClass) (prop : bytes) : option Z :=
  p ← ClObjectLocateProperty (c_hdr cls) (c_properties cls) prop;
  n ← ClClassGetPropQualifierCount cls (s32 (u32 (p - 1))); Some (u32 n).

Definition true_data : CMPIData := {| d_type := CMPI_boolean; d_array := false; d_state := 0; d_value := VWord 1 |}.

(** "key" and "embeddedobject" are bits of the property; [quals] is not set when the
    property is not there. *)
Definition quals_bit (cls : ClClass) (p bit : Z) : option (option CMPIData) :=
  r ← getPropertyQualsAt cls (u32 (p - 1));
  '(_, _, quals, _) ← r;
  Some (if negb (Z.land quals bit =? 0) then Some true_data else None).

(** The name of a qualifier that was passed over is freed when the object owns its
    string buffer; it is memory of that buffer, so that is undefined. *)
Fixpoint find_prop_qualifier (cls : ClClass) (p : Z) (cpq : bytes) (n : nat) (i : Z) : option (option read_value) :=
  match n with
  | O => Some None
  | S n =>
      r ← ClClassGetPropQualifierAt cls (s32 (u32 (p - 1))) (s32 i);
      match r with
      | None => find_prop_qualifier cls p cpq n (i + 1)
      | Some (r, name) =>
          name ← name;
          if strcasecmp cpq name =? 0 then Some (Some r)
          else if snd (strBuffer (c_hdr cls)) then None
          else find_prop_qualifier cls p cpq n (i + 1)
      end
  end.
Definition getPropQualifier (cls : ClClass) (cp cpq : bytes) : option (option CMPIData) :=
  p ← ClObjectLocateProperty (c_hdr cls) (c_properties cls) cp;
  num ← ClClassGetPropQualifierCount cls (s32 (u32 (p - 1)));
  if strcasecmp cpq (cstr "key") =? 0 then quals_bit cls p ClProperty_Q_Key
  else if strcasecmp cpq (cstr "embeddedobject") =? 0 then quals_bit cls p ClProperty_Q_EmbeddedObject
  else
    r ← find_prop_qualifier cls p cpq (Z.to_nat (u32 num)) 0;
    match r with None => Some None | Some r => Some <$> with_array (c_hdr cls) r end.

(** The positions of the keys are noted in an array of 32. *)
Fixpoint key_positions (cls : ClClass) (n : nat) (i : Z) : option (list Z) :=
  match n with
  | O => Some []
  | S n =>
      r ← getPropertyQualsAt cls i;
      '(_, _, quals, _) ← r;
      l ← key_positions cls n (i + 1);
      Some (if negb (Z.land quals ClProperty_Q_Key =? 0) then i :: l else l)
  end.
Definition getKeyList (cls : ClClass) : option (list (option bytes)) :=
  idx ← key_positions cls (Z.to_nat (getPropertyCount cls)) 0;
  if 32 <? len idx then None
  else mapM (fun i => r ← getPropertyQualsAt cls i; '(_, name, _, _) ← r; Some name) idx.

(** How many of the names are properties. *)
Fixpoint verifyPropertyList (cls : ClClass) (list : list bytes) : option Z :=
  match list with
  | [] => Some 0
  | id :: list =>
      r ← getProperty cls id;
      n ← verifyPropertyList cls list;
      Some (match r with Some _ => n + 1 | None => n end)
  end.
End objects.

(** ** Copies *)

Definition cls_clone (cls : ClClass) : option ClClass := snd <$> rebuildClassH cls.

(** * Properties *)

Lemma range_ok n m : 0 <= n < m -> (n <? 0) || (m <? n) = false.
Proof. intros H. by rewrite (proj2 (Z.ltb_ge n 0)), (proj2 (Z.ltb_ge m n)) by lia. Qed.

Lemma item_of_ok {T} (s : ClSection T) ps k p : section_ok s ps -> ps !! k = Some p -> item_of s (Z.of_nat k) = Some (Some p).
Proof.
  intros Hs Hk. pose proof (lookup_lt_Some _ _ _ Hk) as Hlt. unfold item_of.
  rewrite (proj1 Hs), range_ok by lia. by rewrite Nat2Z.id, (section_ok_lookup s ps k p Hs Hk).
Qed.

(** Comparisons of concrete types. *)
Ltac reduce_types :=
  repeat first [rewrite bool_decide_eq_true_2 by done|rewrite bool_decide_eq_false_2 by done];
  cbn [andb mbind option_bind rv_data data_with data_typed d_type d_array d_state d_value negb word_of];
  repeat first [rewrite bool_decide_eq_true_2 by done|rewrite bool_decide_eq_false_2 by done];
  cbn [andb mbind option_bind].

Section accessors.
Context (getObjectPath : bytes -> option CMPIValue) (inst_at : ClObjectHdr -> Z -> option CMPIValue).
#[local] Abbreviation qualsAt := (getPropertyQualsAt getObjectPath inst_at).

(** The value an accessor gives for a value of an object; arrays and embedded instances
    are left out. *)
Definition given (v : aval) : option CMPIData :=
  match v with
  | AText t st s =>
      match t with
      | CMPI_chars => Some {| d_type := CMPI_string; d_array := false; d_state := st; d_value := VString (Some s) |}
      | CMPI_dateTime => Some {| d_type := t; d_array := false; d_state := st; d_value := date_from_chars s |}
      | CMPI_ref => v ← getObjectPath s; Some {| d_type := t; d_array := false; d_state := st; d_value := v |}
      | _ => None
      end
  | ARaw d =>
      if is_null (d_state d) then
        Some (if simple_type d CMPI_chars then data_typed d CMPI_string (VString None) else data_with d NULL)
      else if plain d then Some d else None
  end.

(** Reading the value of a property. *)
Definition read_property (hdr : ClObjectHdr) (d : CMPIData) : option CMPIData :=
  property_value inst_at hdr d ≫= accessor_value getObjectPath inst_at hdr.

Lemma getPropertyQualsAt_read cls i p name : item_of (c_properties cls) (s32 i) = Some (Some p) ->
  ClObjectGetClString (c_hdr cls) (p_id p) = Some (Some name) -> p_refName p = 0 ->
  qualsAt cls i = d ← read_property (c_hdr cls) (p_data p); Some (Some (d, Some name, p_quals p, None)).
Proof.
  intros Hi Hn Hr. unfold getPropertyQualsAt, ClClassGetPropertyAt, read_property. rewrite Hi. cbn [mbind option_bind].
  destruct (property_value _ _ _) as [r|]; [|done]. cbn [mbind option_bind].
  rewrite Hn, Hr. by change (ClObjectGetClString (c_hdr cls) 0) with (@Some (option bytes) None).
Qed.

Lemma read_property_ok hdr strs m p name q v d : hdr_strings hdr strs m -> Forall nul_free strs ->
  view strs p = Some (name, (q, v)) -> given v = Some d -> read_property hdr (p_data p) = Some d.
Proof.
  intros Hm Hf (_ & _ & Hv)%view_inv Hg. unfold read_property, property_value, accessor_value. destruct v as [t st s|d0]; cbn [given] in Hg.
  - destruct Hv as (w & Hw & Hs & <- & <-). apply text_id_inv in Hw as (Ha & Ht & Hn & Hv & _).
    rewrite Hn. unfold simple_type, string_of. rewrite Ha, Hv. cbn [negb word_of mbind option_bind].
    destruct (p_data p) as [ty ar st vl]. cbn [d_type d_array d_state d_value] in *. subst.
    destruct ty; try done; reduce_types.
    1: rewrite Hn; reduce_types.
    all: rewrite (get_str _ _ _ _ _ Hm Hf Hs); reduce_types; first [exact Hg|by injection Hg as <-].
  - destruct Hv as [_ ->]. destruct (is_null (d_state d0)) eqn:En.
    + cbn [mbind option_bind rv_data]. unfold simple_type in *. cbn [data_with d_type d_array d_state]. rewrite En, andb_false_r.
      by destruct (_ && _); injection Hg as <-.
    + destruct (plain d0) eqn:Ep; [|done]. injection Hg as <-. unfold plain in Ep. unfold simple_type.
      destruct (d_array d0); [done|]. by destruct d0 as [[] ? ? ?].
Qed.

Definition no_refs (prps : ClSection ClProperty) : Prop := Forall (fun p => p_refName p = 0) (section_list prps).

(** A property is found by its name, in any case. *)
Lemma getPropertyQuals_found cls strs l id k name q v d :
  represents_object (c_hdr cls) (c_properties cls) strs l -> no_refs (c_properties cls) -> len l < 2 ^ 31 ->
  find_name id l = Some k -> l !! k = Some (name, (q, v)) -> given v = Some d ->
  getPropertyQuals getObjectPath inst_at cls id = Some (Some (d, q)).
Proof.
  intros [[m Hm] Hf (ps & Hsec & HF & _)] Hr Hl Hfind Hk Hg.
  destruct (Forall2_lookup_r _ _ _ _ _ HF Hk) as (p & Hp & Hv).
  pose proof (lookup_lt_Some _ _ _ Hp) as Hlt. rewrite (Forall2_length _ _ _ HF) in Hlt.
  unfold getPropertyQuals, ClObjectLocateProperty.
  rewrite (section_ok_list _ _ Hsec), (locate_ok _ _ _ id Hm Hf ps l 0 HF), Hfind. cbn [mbind option_bind].
  rewrite (proj2 (Z.eqb_neq _ 0)) by lia. cbn [negb]. replace (0 + Z.of_nat k + 1 - 1) with (Z.of_nat k) by lia.
  rewrite (getPropertyQualsAt_read _ _ p name).
  - rewrite (read_property_ok _ strs m p name q v d) by done. cbn [mbind option_bind].
    by destruct (view_inv _ _ _ _ _ Hv) as (_ & -> & _).
  - rewrite wraps_small by lia. by apply (item_of_ok _ ps).
  - apply view_inv in Hv as (Hn & _). by apply (get_str _ strs m).
  - apply (proj1 (Forall_forall _ _) Hr). eapply list_elem_of_lookup_2, section_ok_lookup; [exact Hsec|exact Hp].
Qed.

Lemma getPropertyQuals_missing cls strs l id :
  represents_object (c_hdr cls) (c_properties cls) strs l -> find_name id l = None ->
  getPropertyQuals getObjectPath inst_at cls id = Some None.
Proof.
  intros [[m Hm] Hf (ps & Hsec & HF & _)] Hfind. unfold getPropertyQuals, ClObjectLocateProperty.
  by rewrite (section_ok_list _ _ Hsec), (locate_ok _ _ _ id Hm Hf ps l 0 HF), Hfind.
Qed.
(** *** A property added is read back *)

Lemma find_name_app id l x : find_name id l = None ->
  find_name id (l ++ [x]) = if strcasecmp id (fst x) =? 0 then Some (length l) else None.
Proof.
  induction l as [|[n v] l IH]; cbn [find_name app length]; [destruct x as [n v]; intros _; reflexivity|].
  destruct (strcasecmp id n =? 0); [intros [=]|]. destruct (find_name id l); [intros [=]|]. intros _.
  rewrite IH by done. by destruct (strcasecmp id (fst x) =? 0).
Qed.

Lemma find_name_kept id l x k : find_name id l = Some k -> find_name id (l ++ [x]) = Some k.
Proof.
  revert k. induction l as [|[n v] l IH]; intros k; [done|]. cbn [find_name app]. destruct (_ =? 0); [done|].
  destruct (find_name id l) as [j|]; [|done]. intros [= <-]. by rewrite (IH j).
Qed.

Lemma ensureClSpace_list {T} (s s' : ClSection T) n r : ensureClSpace s n = Some (s', r) ->
  exists m, section_list s' = take m (section_list s).
Proof.
  unfold ensureClSpace, section_list. destruct (items s) as [l|] eqn:E; [|intros [= <- _]; by exists O].
  destruct (_ <=? _); [destruct (_ && _); [done|]|]; intros [= <- _]; [by eexists|].
  exists (length l). rewrite E. cbn. by rewrite firstn_all.
Qed.

Lemma push_list {T} (s s' : ClSection T) x : push s x = Some s' ->
  exists m, section_list s' = take m (section_list s) ++ [x].
Proof.
  unfold push, section_list. destruct (items s) as [l|]; [|done]. destruct (_ <? _); [|done]. intros [= <-]. by eexists.
Qed.

Lemma new_value_ref hdr p d p' hdr' : new_value hdr p d = Some (p', hdr') -> p_refName p' = p_refName p.
Proof.
  unfold new_value. intros H.
  assert (Ht : forall s t h, ('(id, h) ← addClString hdr s; Some (set_data p (data_typed d t (VWord id)), h)) = Some (p', h) ->
    p_refName p' = p_refName p).
  { intros s t h E. destruct (addClString hdr s) as [[]|]; [|done]. by injection E as <- _. }
  repeat case_match; simplify_option_eq; try done; repeat case_match; simplify_eq; done.
Qed.
Lemma added_refs hdr prps id d n hdr' prps' : addObjectPropertyH hdr prps id d None = Some (n, hdr', prps') ->
  ClObjectLocateProperty hdr prps id = Some 0 -> no_refs prps -> no_refs prps'.
Proof.
  unfold addObjectPropertyH. intros H HL. rewrite HL in H. cbn [mbind option_bind Z.eqb] in H.
  destruct (ensureClSpace prps 8) as [[s1 r]|] eqn:E1; [|done]. cbn [mbind option_bind] in H.
  destruct (addClString _ id) as [[i h1]|]; [|done]. cbn [mbind option_bind] in H.
  destruct (new_value _ _ d) as [[p h2]|] eqn:E2; [|done]. cbn [mbind option_bind] in H.
  destruct (push s1 p) as [s2|] eqn:E3; [|done]. injection H as _ _ <-.
  apply ensureClSpace_list in E1 as [m1 E1]. apply push_list in E3 as [m2 E3]. apply new_value_ref in E2.
  unfold no_refs. intros Hp. rewrite E3, E1. apply Forall_app. split; [by do 2 apply Forall_take|by constructor].
Qed.

(** a value stored under a name the class does not have is what the accessors return for
    the name, strings as [CMPIString]; what they return for the names that were there is
    the same as before. *)
Theorem property_read_back cls strs l id d v d' :
  represents_object (c_hdr cls) (c_properties cls) strs l -> no_refs (c_properties cls) ->
  find_name id l = None -> stored d = Some v -> given v = Some d' ->
  nul_free id -> Forall nul_free (text_of v) ->
  len l < 16384 -> len strs < 16383 -> weight strs + weight [id] + weight (text_of v) < 2 ^ 30 ->
  exists cls', ClClassAddProperty cls id d None = Some (len l + 1, cls') /\
    getProperty getObjectPath inst_at cls' id = Some (Some d') /\
    forall name k n q v0 d0, find_name name l = Some k -> l !! k = Some (n, (q, v0)) -> given v0 = Some d0 ->
      getProperty getObjectPath inst_at cls' name = getProperty getObjectPath inst_at cls name.
Proof.
  intros Hro Hr Hfind Hd Hg Hid Hv Hl Hn Hw.
  destruct (addObjectPropertyH_new _ _ _ _ id d v Hro Hfind Hd Hid Hv Hl Hn Hw) as (hdr' & prps' & E & Hro').
  unfold ClClassAddProperty. rewrite E. cbn [mbind option_bind]. eexists. split; [done|].
  assert (Hr' : no_refs prps').
  { eapply added_refs; [exact E| |exact Hr]. destruct Hro as [[m Hm] Hf (ps & Hsec & HF & _)].
    unfold ClObjectLocateProperty.
    by rewrite (section_ok_list _ _ Hsec), (locate_ok _ _ _ id Hm Hf ps l 0 HF), Hfind. }
  match type of Hro' with represents_object _ _ _ ?l' => assert (Hl' : len l' < 2 ^ 31) by (rewrite length_app; cbn [length]; lia) end.
  split.
  - unfold getProperty. erewrite getPropertyQuals_found; [done|exact Hro'|exact Hr'|exact Hl'| | |exact Hg].
    + rewrite find_name_app by done. cbn [fst]. unfold strcasecmp. rewrite strcmp_refl. reflexivity.
    + by rewrite lookup_app_r, Nat.sub_diag.
  - intros name k n q v0 d0 Hk Hlk Hg0. unfold getProperty.
    erewrite (getPropertyQuals_found cls); [|done|done|lia|exact Hk|exact Hlk|exact Hg0].
    erewrite getPropertyQuals_found; [done|exact Hro'|exact Hr'|exact Hl'|by apply find_name_kept| |exact Hg0].
    by apply lookup_app_l_Some.
Qed.
End accessors.

(** ** Witness *)

Definition named_class : ClClass :=
  {| c_hdr := wit_hdr; c_quals := 0; c_parents := 0; c_name := 1; c_parent := 0;
     c_qualifiers := clearClSection; c_properties := wit_section; c_methods := clearClSection |}.
Definition text_path (s : bytes) : option CMPIValue := Some (VRef s).
Definition no_instance (_ : ClObjectHdr) (_ : Z) : option CMPIValue := None.

Lemma property_read_back_witness : exists cls',
  ClClassAddProperty named_class (cstr "Count") (chars_data (cstr "12")) None = Some (2, cls') /\
  getProperty text_path no_instance cls' (cstr "Count") =
    Some (Some {| d_type := CMPI_string; d_array := false; d_state := 0; d_value := VString (Some (cstr "12")) |}) /\
  getProperty text_path no_instance cls' (cstr "name") =
    Some (Some {| d_type := CMPI_string; d_array := false; d_state := 0; d_value := VString (Some (cstr "Size")) |}).
Proof.
  destruct (property_read_back text_path no_instance named_class wit_strings wit_entries (cstr "Count") (chars_data (cstr "12"))
    (AText CMPI_chars 0 (cstr "12")) {| d_type := CMPI_string; d_array := false; d_state := 0; d_value := VString (Some (cstr "12")) |}
    wit_object) as (cls' & E & Hp & Ho).
  - by repeat constructor.
  - reflexivity.
  - reflexivity.
  - reflexivity.
  - by repeat constructor.
  - by repeat constructor.
  - done.
  - done.
  - by vm_compute.
  - exists cls'. split; [exact E|]. split; [exact Hp|].
    rewrite (Ho (cstr "name") O _ _ _ _ eq_refl eq_refl eq_refl). reflexivity.
Defined.

(** ** Where the accessors fail *)

(** The name of a qualifier that was passed over is freed, though it is memory of the
    string buffer. *)
Lemma passed_name_freed getObjectPath inst_at cls cp cpq p q r n :
  ClObjectLocateProperty (c_hdr cls) (c_properties cls) cp = Some p -> ClClassGetPropQualifierCount cls (s32 (u32 (p - 1))) = Some q ->
  0 < u32 q -> strcasecmp cpq (cstr "key") <> 0 -> strcasecmp cpq (cstr "embeddedobject") <> 0 ->
  ClClassGetPropQualifierAt cls (s32 (u32 (p - 1))) 0 = Some (Some (r, Some n)) -> strcasecmp cpq n <> 0 ->
  snd (strBuffer (c_hdr cls)) = true -> getPropQualifier getObjectPath inst_at cls cp cpq = None.
Proof.
  intros Hp Hq Hc Hk He Hr Hn Hm. unfold getPropQualifier. rewrite Hp. cbn [mbind option_bind]. rewrite Hq. cbn [mbind option_bind].
  rewrite !(proj2 (Z.eqb_neq _ _)) by done. replace (Z.to_nat (u32 q)) with (S (Z.to_nat (u32 q - 1))) by lia.
  cbn [find_prop_qualifier]. change (s32 0) with 0. rewrite Hr. cbn [mbind option_bind].
  by rewrite (proj2 (Z.eqb_neq _ _)), Hm.
Qed.
