(* ===== verification/ClassMerge.v ===== *)
(** * Merging classes (classProvider.c)

    A class created with a superclass is stored as the superclass and the class
    together: [cpyClass] copies the qualifiers, properties and methods of a class into
    the new one ([mergeParents] calls it for both).  [None] is undefined behaviour: the
    pointers into the sections of the class that is copied are followed where they
    lead. *)

From S2P Require Import Prelude CString CmpiData ClBuffer StringBuffer ClObject ClClass NativeArray ConstClass.

(** [for (i = 0; i < n; i++)] *)
Fixpoint for_loop {A} (n : nat) (i : Z) (body : Z -> A -> option A) (s : A) : option A :=
  match n with
  | O => Some s
  | S n => s ← body i s; for_loop n (i + 1) body s
  end.
Definition for_each {A} (m : Z) (body : Z -> A -> option A) (s : A) : option A := for_loop (Z.to_nat m) 0 body s.

Definition with_parts (cl : ClClass) (hdr : ClObjectHdr) (quals : Z) (q : ClSection ClQualifier)
    (p : ClSection ClProperty) (m : ClSection ClMethod) : ClClass :=
  {| c_hdr := hdr; c_quals := quals; c_parents := c_parents cl; c_name := c_name cl; c_parent := c_parent cl;
     c_qualifiers := q; c_properties := p; c_methods := m |}.
Definition with_c_quals (cl : ClClass) (quals : Z) : ClClass :=
  with_parts cl (c_hdr cl) quals (c_qualifiers cl) (c_properties cl) (c_methods cl).
Definition with_properties (cl : ClClass) (hdr : ClObjectHdr) (quals : Z) (p : ClSection ClProperty) : ClClass :=
  with_parts cl hdr quals (c_qualifiers cl) p (c_methods cl).
Definition with_methods (cl : ClClass) (hdr : ClObjectHdr) (m : ClSection ClMethod) : ClClass :=
  with_parts cl hdr (c_quals cl) (c_qualifiers cl) (c_properties cl) m.

Definition with_m_qualifiers (m : ClMethod) (s : ClSection ClQualifier) : ClMethod :=
  {| m_id := m_id m; m_type := m_type m; m_flags := m_flags m; m_quals := m_quals m; m_originId := m_originId m;
     m_qualifiers := s; m_parameters := m_parameters m |}.
Definition with_a_qualifiers (p : ClParameter) (s : ClSection ClQualifier) : ClParameter :=
  {| a_id := a_id p; a_parameter := a_parameter p; a_quals := a_quals p; a_qualifiers := s |}.

(** The item a pointer [section + n - 1] leads to. *)
Definition pointed {T} (s : ClSection T) (n : Z) : option T :=
  if n <? 1 then None else section_list s !! Z.to_nat (n - 1).
Definition set_pointed {T} (s : ClSection T) (n : Z) (x : T) : ClSection T := set_item s (Z.to_nat (n - 1)) x.

Section merge.
Context (getObjectPath : bytes -> option CMPIValue) (inst_at : ClObjectHdr -> Z -> option CMPIValue).

(** The value of a qualifier of the class [ccl] as it is passed on: [addClQualifier] makes
    an array of the cells of [ccl].  A null array keeps its pointer, which is a value
    here only when it is null. *)
Definition qualifier_arg (ccl : ClClass) (r : read_value) : option CMPIData :=
  match r with
  | RData d => Some d
  | RCells d cells =>
      if is_null (d_state d) then match cells with None => Some (data_with d NULL) | Some _ => None end
      else v ← native_make_CMPIArray getObjectPath inst_at (c_hdr ccl) cells; Some (data_with d v)
  end.

(** A property value that is an array stays a pointer to cells, which [addClArray] takes
    for an array object. *)
Definition property_arg (r : read_value) : option CMPIData :=
  match r with RData d => Some d | RCells _ _ => None end.

Definition copy_qualifier (ccl : ClClass) (i : Z) (cl : ClClass) : option ClClass :=
  r ← ClClassGetQualifierAt ccl i;
  '(d, name) ← r;
  name ← name;
  d ← qualifier_arg ccl d;
  '(_, hdr, quals, qs) ← ClClassAddQualifierSpecial (c_hdr cl) (c_quals cl) (c_qualifiers cl) name d;
  Some (with_parts cl hdr quals qs (c_properties cl) (c_methods cl)).

Definition copy_property_qualifier (ccl : ClClass) (i propId : Z) (iq : Z) (cl : ClClass) : option ClClass :=
  r ← ClClassGetPropQualifierAt ccl i iq;
  '(d, name) ← r;
  name ← name;
  d ← qualifier_arg ccl d;
  prop ← pointed (c_properties cl) propId;
  '(_, hdr, quals, prop) ← ClClassAddPropertyQualifierSpecial (c_hdr cl) (c_quals cl) prop name d;
  Some (with_properties cl hdr quals (set_pointed (c_properties cl) propId prop)).

(** [refName] points into the string buffer of [ccl]: to free it is undefined. *)
Definition copy_property (ccl : ClClass) (i : Z) (cl : ClClass) : option ClClass :=
  r ← ClClassGetPropertyAt inst_at ccl i;
  '(d, name, quals, refName) ← r;
  name ← name;
  d ← property_arg d;
  '(propId, cl) ← ClClassAddProperty cl name d refName;
  match refName with
  | Some _ => None
  | None =>
      mq ← ClClassGetPropQualifierCount ccl i;
      for_each mq (copy_property_qualifier ccl i propId) cl
  end.

(** [meth] is looked up in [ccl] at the position the method has in [cl]. *)
Definition copy_method_qualifier (ccl : ClClass) (methId : Z) (iq : Z) (cl : ClClass) : option ClClass :=
  meth ← pointed (c_methods ccl) methId;
  r ← ClClassGetMethQualifierAt getObjectPath inst_at ccl meth iq;
  '(d, name) ← r;
  name ← name;
  newMeth ← pointed (c_methods cl) methId;
  '(_, hdr, qs) ← addClQualifier (c_hdr cl) (m_qualifiers newMeth) name d;
  Some (with_methods cl hdr (set_pointed (c_methods cl) methId (with_m_qualifiers newMeth qs))).

Definition copy_parameter_qualifier (ccl : ClClass) (parm : ClParameter) (methId parmId : Z) (iq : Z) (cl : ClClass) :
    option ClClass :=
  r ← ClClassGetMethParamQualifierAt getObjectPath inst_at ccl parm iq;
  '(d, name) ← r;
  name ← name;
  newMeth ← pointed (c_methods cl) methId;
  newParm ← pointed (m_parameters newMeth) parmId;
  '(_, hdr, qs) ← addClQualifier (c_hdr cl) (a_qualifiers newParm) name d;
  let newMeth := with_parameters newMeth (set_pointed (m_parameters newMeth) parmId (with_a_qualifiers newParm qs)) in
  Some (with_methods cl hdr (set_pointed (c_methods cl) methId newMeth)).

Definition copy_parameter (ccl : ClClass) (methId : Z) (ip : Z) (cl : ClClass) : option ClClass :=
  meth ← pointed (c_methods ccl) methId;
  r ← ClClassGetMethParameterAt ccl meth ip;
  '(p, ref, name) ← r;
  name ← name;
  newMeth ← pointed (c_methods cl) methId;
  '(parmId, hdr, newMeth) ← ClClassAddMethParameter (c_hdr cl) newMeth name (pm_type p) (pm_array p) (pm_arraySize p) ref;
  let cl := with_methods cl hdr (set_pointed (c_methods cl) methId newMeth) in
  parm ← pointed (m_parameters meth) parmId;
  for_each (ClClassGetMethParamQualifierCount parm) (copy_parameter_qualifier ccl parm methId parmId) cl.

Definition copy_method (ccl : ClClass) (i : Z) (cl : ClClass) : option ClClass :=
  r ← ClClassGetMethodAt ccl i;
  '(t, name, _) ← r;
  name ← name;
  '(methId, hdr, ms) ← addClassMethodH (c_hdr cl) (c_methods cl) name t;
  let cl := with_methods cl hdr ms in
  mq ← ClClassGetMethQualifierCount ccl (methId - 1);
  cl ← for_each mq (copy_method_qualifier ccl methId) cl;
  mp ← ClClassGetMethParameterCount ccl (methId - 1);
  for_each mp (copy_parameter ccl methId) cl.

Definition cpyClass (cl ccl : ClClass) : option ClClass :=
  let cl := with_c_quals cl (Z.lor (c_quals cl) (c_quals ccl)) in
  cl ← for_each (ClClassGetQualifierCount ccl) (copy_qualifier ccl) cl;
  cl ← for_each (ClClassGetPropertyCount ccl) (copy_property ccl) cl;
  for_each (ClClassGetMethodCount ccl) (copy_method ccl) cl.

(** [mergeParents] with the superclass found. *)
Definition mergeParents (cl pcc cc : ClClass) : option ClClass := cl ← cpyClass cl pcc; cpyClass cl cc.
End merge.

(** * Properties *)

Section properties.
Context (getObjectPath : bytes -> option CMPIValue) (inst_at : ClObjectHdr -> Z -> option CMPIValue).

(** A reference property ends the copy: the name of its class is freed. *)
Lemma reference_not_copied ccl i cl d name q s :
  ClClassGetPropertyAt inst_at ccl i = Some (Some (d, name, q, Some s)) -> copy_property getObjectPath inst_at ccl i cl = None.
Proof.
  intros H. unfold copy_property. rewrite H. cbn [mbind option_bind]. destruct name as [n|]; [|done]. cbn [mbind option_bind].
  destruct (property_arg d); [|done]. cbn [mbind option_bind]. by destruct (ClClassAddProperty _ _ _ _) as [[? ?]|].
Qed.

(** What the copy of a value is: a null value is 0. *)
Definition copied (v : aval) : option aval :=
  match v with
  | AText CMPI_chars _ _ => Some v
  | AText CMPI_dateTime _ s => match date_from_chars s with VDateTime _ => Some v | _ => None end
  | AText _ _ _ => None
  | ARaw d => if is_null (d_state d) then Some (ARaw (data_with d NULL)) else if plain d then Some v else None
  end.

Lemma property_value_copied hdr strs m p name q v v' : hdr_strings hdr strs m -> Forall nul_free strs ->
  view strs p = Some (name, (q, v)) -> copied v = Some v' ->
  exists d, property_value inst_at hdr (p_data p) = Some (RData d) /\ stored d = Some v' /\ Forall nul_free (text_of v').
Proof.
  intros Hm Hf (_ & _ & Hv)%view_inv Hc. unfold property_value. destruct v as [t st s|d0]; cbn [copied] in Hc.
  - destruct Hv as (w & Hw & Hs & <- & <-). apply text_id_inv in Hw as (Ha & Ht & Hn & Hv & _).
    assert (Hfs : nul_free s). { unfold str_at in Hs. destruct (1 <=? w); [|done]. by eapply (Forall_lookup_1 nul_free). }
    rewrite Hn. unfold simple_type, string_of. rewrite Ha, Hv. cbn [negb word_of mbind option_bind].
    rewrite (get_str _ _ _ _ _ Hm Hf Hs). cbn [mbind option_bind].
    destruct (p_data p) as [ty ar st vl]. cbn [d_type d_array d_state d_value] in *. subst.
    destruct ty; try done; reduce_types; (eexists; split; [reflexivity|]).
    + injection Hc as <-. unfold stored. cbn [data_typed d_state d_array d_type d_value]. rewrite Hn. split; [done|by constructor].
    + unfold date_from_chars in *. destruct (strlen s =? 25) eqn:E; [|done]. cbn [andb] in *.
      destruct (match s !! 21%nat with Some c => _ | None => _ end); [|done]. injection Hc as <-. unfold stored.
      cbn [data_with d_state d_array d_type d_value]. rewrite Hn. apply Z.eqb_eq in E. rewrite (proj2 (Z.ltb_lt _ _)) by lia.
      split; [done|by constructor].
  - destruct Hv as [_ ->]. destruct (is_null (d_state d0)) eqn:En.
    + injection Hc as <-. eexists. split; [done|]. unfold stored. cbn [data_with d_state]. rewrite En. split; [done|constructor].
    + destruct (plain d0) eqn:Ep; [|done]. injection Hc as <-. unfold plain in Ep. unfold simple_type.
      destruct d0 as [ty ar st vl]. cbn [d_array d_type d_state] in *. destruct ar; [done|].
      exists {| d_type := ty; d_array := false; d_state := st; d_value := vl |}. unfold stored. cbn [d_state d_array d_type]. rewrite En.
      by destruct ty.
Qed.
(** The entry a property of the other class becomes: its qualifier bits are not copied. *)
Definition copied_entry (e e' : entry) : Prop :=
  fst e' = fst e /\ fst (snd e') = 0 /\ copied (snd (snd e)) = Some (snd (snd e')).
Definition entry_texts (l : list entry) : list bytes := l ≫= fun e => fst e :: text_of (snd (snd e)).
Definition lower_name (e : entry) : bytes := tolower <$> fst e.

Lemma find_name_none id l : find_name id l = None <-> (tolower <$> id) ∉ lower_name <$> l.
Proof.
  induction l as [|[n v] l IH]; [split; [intros _; apply not_elem_of_nil|done]|]. cbn [find_name fmap list_fmap lower_name fst].
  rewrite not_elem_of_cons. unfold strcasecmp. destruct (Z.eqb_spec (strcmp (tolower <$> id) (tolower <$> n)) 0) as [E|E].
  - apply strcmp_eq in E. split; [done|]. by intros [? _].
  - rewrite <- IH. destruct (find_name id l); [split; [done|]; by intros [_ ?]|]. split; [|done]. intros _. split; [|done].
    intros En. apply E. by apply strcmp_eq.
Qed.

Definition simple_property (p : ClProperty) : Prop := p_refName p = 0 /\ used (p_qualifiers p) = 0.

(** Same class but for its properties and strings. *)
Definition same_but_properties (cl cl' : ClClass) : Prop :=
  c_name cl' = c_name cl /\ c_parent cl' = c_parent cl /\ c_quals cl' = c_quals cl /\
  c_qualifiers cl' = c_qualifiers cl /\ c_methods cl' = c_methods cl.

Section source.
Context (ccl : ClClass) (strs1 : list bytes) (m1 : Z) (ps1 : list ClProperty).
Hypotheses (Hm1 : hdr_strings (c_hdr ccl) strs1 m1) (Hf1 : Forall nul_free strs1)
  (Hs1 : section_ok (c_properties ccl) ps1) (Hp1 : Forall simple_property ps1).

Lemma copy_property_new cl strs l i p name q v v' :
  ps1 !! i = Some p -> view strs1 p = Some (name, (q, v)) -> copied v = Some v' ->
  represents_object (c_hdr cl) (c_properties cl) strs l -> find_name name l = None ->
  len l < 16384 -> len strs < 16383 -> weight strs + weight (name :: text_of v') < 2 ^ 30 ->
  exists cl', copy_property getObjectPath inst_at ccl (Z.of_nat i) cl = Some cl' /\ same_but_properties cl cl' /\
    represents_object (c_hdr cl') (c_properties cl') (strs ++ name :: text_of v') (l ++ [(name, (0, v'))]).
Proof.
  intros Hi Hv Hc Hro Hfind Hl Hn Hw. destruct (proj1 (Forall_forall _ _) Hp1 p) as [Hr Hq]; [by eapply list_elem_of_lookup_2|].
  destruct (property_value_copied _ _ _ _ _ _ _ _ Hm1 Hf1 Hv Hc) as (d & Ed & Hd & Hfv).
  pose proof (view_inv _ _ _ _ _ Hv) as (Hname & _).
  assert (Hid : nul_free name). { unfold str_at in Hname. destruct (1 <=? _); [|done]. by apply (Forall_lookup_1 nul_free strs1 _ _ Hf1 Hname). }
  change (name :: text_of v') with ([name] ++ text_of v') in Hw. rewrite weight_app in Hw.
  destruct (addObjectPropertyH_new _ _ _ _ name d v' Hro Hfind Hd Hid Hfv Hl Hn) as (hdr' & prps' & E & Hro'); [lia|].
  unfold copy_property, ClClassGetPropertyAt, ClClassGetPropQualifierCount, count_of.
  rewrite (item_of_ok _ ps1 i p Hs1 Hi). cbn [mbind option_bind]. rewrite Ed, (get_str _ _ _ _ _ Hm1 Hf1 Hname), Hr.
  change (ClObjectGetClString (c_hdr ccl) 0) with (@Some (option bytes) None). cbn [mbind option_bind property_arg].
  unfold ClClassAddProperty. rewrite E. cbn [mbind option_bind]. rewrite Hq. eexists. split; [reflexivity|]. by split.
Qed.

Lemma copy_properties_loop rest : forall rest' i cl strs l,
  Forall2 (fun p e => view strs1 p = Some e) (drop i ps1) rest -> Forall2 copied_entry rest rest' ->
  represents_object (c_hdr cl) (c_properties cl) strs l -> NoDup (lower_name <$> (l ++ rest)) ->
  len l + len rest < 16384 -> len strs + 2 * len rest < 16384 -> weight strs + weight (entry_texts rest') < 2 ^ 30 ->
  exists cl', for_loop (length rest) (Z.of_nat i) (copy_property getObjectPath inst_at ccl) cl = Some cl' /\
    same_but_properties cl cl' /\
    represents_object (c_hdr cl') (c_properties cl') (strs ++ entry_texts rest') (l ++ rest').
Proof.
  induction rest as [|[name [q v]] rest IH]; intros rest' i cl strs l HF HC Hro Hnd Hl Hn Hw.
  - inversion HC; subst. exists cl. cbn [entry_texts mbind list_bind]. rewrite !app_nil_r. by split_and!.
  - inversion HC as [|? [name' [q' v']] ? rest2 (E1 & E2 & Hc) HC']; subst. cbn [fst snd] in *. subst.
    inversion HF as [|p ? ps2 ? Hv HF' Ep]; subst. symmetry in Ep.
    assert (Hi : ps1 !! i = Some p) by (rewrite <- (Nat.add_0_r i), <- lookup_drop, Ep; reflexivity).
    assert (Hd : drop (S i) ps1 = ps2) by (by rewrite <- Nat.add_1_r, <- drop_drop, Ep).
    assert (Hw' : weight strs + (weight (name :: text_of v') + weight (entry_texts rest2)) < 2 ^ 30)
      by (rewrite <- weight_app; exact Hw).
    pose proof (weight_nonneg (entry_texts rest2)).
    rewrite fmap_app in Hnd. apply NoDup_app in Hnd as (Hn1 & Hdis & Hn2). apply NoDup_cons in Hn2 as [Hn2 Hn3].
    cbn [length] in *.
    destruct (copy_property_new cl strs l i p name q v v' Hi Hv Hc Hro) as (cl1 & Hcp & Hsame & Hro1); [|lia|lia|lia|].
    { apply find_name_none. intros Hin. apply (Hdis _ Hin). by left. }
    destruct (IH rest2 (S i) cl1 (strs ++ name :: text_of v') (l ++ [(name, (0, v'))])) as (cl' & Hloop & Hsame' & Hro').
    + by rewrite Hd.
    + done.
    + done.
    + rewrite !fmap_app. apply NoDup_app. split_and!; [|  |done].
      * apply NoDup_app. split_and!; [done| |by apply NoDup_singleton]. intros x Hx Hx'%list_elem_of_singleton. subst.
        apply (Hdis _ Hx). by left.
      * intros x [Hx|Hx%list_elem_of_singleton]%elem_of_app Hx'; [apply (Hdis _ Hx); by right|]. by subst.
    + rewrite length_app. cbn [length]. lia.
    + rewrite length_app. cbn [length]. assert (len (text_of v') <= 1) by (destruct v'; cbn; lia). lia.
    + rewrite weight_app. lia.
    + exists cl'. cbn [for_loop]. rewrite Hcp. cbn [mbind option_bind].
      replace (Z.of_nat i + 1) with (Z.of_nat (S i)) by lia. split; [exact Hloop|]. split.
      * unfold same_but_properties in *. destruct Hsame as (<- & <- & <- & <- & <-). done.
      * rewrite <- !app_assoc in Hro'. exact Hro'.
Qed.
End source.

(** two classes without methods and with properties of their own are merged to one
    class with the properties of both, in order.  Names and values are kept, the
    qualifier bits of the properties are not: no property of a merged class is a key. *)
Theorem cpyClass_appends cl ccl strs l strs1 l1 l1' :
  represents_object (c_hdr cl) (c_properties cl) strs l ->
  represents_object (c_hdr ccl) (c_properties ccl) strs1 l1 ->
  Forall simple_property (section_list (c_properties ccl)) ->
  used (c_qualifiers ccl) = 0 -> used (c_methods ccl) = 0 ->
  Forall2 copied_entry l1 l1' -> NoDup (lower_name <$> (l ++ l1)) ->
  len l + len l1 < 16384 -> len strs + 2 * len l1 < 16384 -> weight strs + weight (entry_texts l1') < 2 ^ 30 ->
  exists cl', cpyClass getObjectPath inst_at cl ccl = Some cl' /\
    represents_object (c_hdr cl') (c_properties cl') (strs ++ entry_texts l1') (l ++ l1') /\
    c_quals cl' = Z.lor (c_quals cl) (c_quals ccl) /\
    (forall s, str_at strs (c_name cl) = Some s -> getCharClassName cl' = Some (Some s)) /\
    (forall s, str_at strs (c_parent cl) = Some s -> getCharSuperClassName cl' = Some (Some s)).
Proof.
  intros Hro [[m1 Hm1] Hf1 (ps1 & Hs1 & HF & _)] Hsimple Hq Hmeth HC Hnd Hl Hn Hw.
  assert (Hp1 : Forall simple_property ps1).
  { destruct Hs1 as [_ [[_ ->]|[E _]]]; [constructor|]. unfold section_list in Hsimple. by rewrite E in Hsimple. }
  pose proof (Forall2_length _ _ _ HF) as Hlen.
  destruct (copy_properties_loop ccl strs1 m1 ps1 Hm1 Hf1 Hs1 Hp1 l1 l1' 0
    (with_c_quals cl (Z.lor (c_quals cl) (c_quals ccl))) strs l) as (cl' & Hloop & (Hcn & Hcp & Hcq & _ & _) & Hro'); try done.
  change (Z.of_nat 0) with 0 in Hloop. exists cl'. unfold cpyClass, for_each, ClClassGetQualifierCount, ClClassGetPropertyCount, ClClassGetMethodCount.
  rewrite Hq, Hmeth, (proj1 Hs1), Nat2Z.id, Hlen. change (Z.to_nat 0) with O. cbn [for_loop mbind option_bind]. rewrite Hloop. cbn [mbind option_bind].
  split; [done|]. split; [exact Hro'|]. split; [exact Hcq|].
  destruct Hro' as [[m' Hm'] Hf' _]. unfold getCharClassName, getCharSuperClassName. rewrite Hcn, Hcp.
  split; intros s Hs; eapply get_str; try done; by apply str_at_app.
Qed.
End properties.

(** ** Witness *)

Definition key_property : ClProperty := with_quals wit_property ClProperty_Q_Key.
Definition key_entries : list entry := [(cstr "Name", (1, AText CMPI_chars 0 (cstr "Size")))].
Definition super_class : ClClass := with_properties named_class wit_hdr 0 (set_item wit_section 0 key_property).
Definition new_class : ClClass := with_properties named_class wit_hdr 0 clearClSection.

Lemma super_object : represents_object (c_hdr super_class) (c_properties super_class) wit_strings key_entries.
Proof.
  split; [exists 16; exact wit_hdr_ok|exact wit_strings_ok|]. exists [key_property]. split.
  - split; [done|]. right. split; [done|]. exists 8. split; [lia|]. split; [done|]. by left.
  - split; [by repeat constructor|]. match goal with |- ?P => apply (bool_decide_eq_true_1 P) end. by vm_compute.
Qed.

Lemma new_object : represents_object (c_hdr new_class) (c_properties new_class) wit_strings [].
Proof.
  split; [exists 16; exact wit_hdr_ok|exact wit_strings_ok|]. exists []. split; [split; [done|by left]|]. split; constructor.
Qed.

Lemma cpyClass_appends_witness : exists cl', cpyClass text_path no_instance new_class super_class = Some cl' /\
  represents_object (c_hdr cl') (c_properties cl') (wit_strings ++ [cstr "Name"; cstr "Size"]) wit_entries /\
  getCharClassName cl' = Some (Some (cstr "Name")).
Proof.
  destruct (cpyClass_appends text_path no_instance new_class super_class wit_strings [] wit_strings key_entries wit_entries
    new_object super_object) as (cl' & E & Hro & _ & Hn & _).
  - by repeat constructor.
  - done.
  - done.
  - by repeat constructor.
  - apply (bool_decide_unpack _). vm_compute. exact I.
  - done.
  - done.
  - by vm_compute.
  - exists cl'. split; [exact E|]. split; [exact Hro|]. by apply Hn.
Defined.

(** ** A method found at the wrong place *)

(** Qualifiers and parameters of a method are looked up in the class that is copied at
    the position the method has in the merged class: when the class has fewer methods,
    behind its methods. *)
Lemma method_position getObjectPath inst_at cl ccl i t name q hdr ms methId :
  ClClassGetMethodAt ccl i = Some (Some (t, Some name, q)) ->
  addClassMethodH (c_hdr cl) (c_methods cl) name t = Some (methId, hdr, ms) ->
  0 <= used (c_methods ccl) < methId -> len (section_list (c_methods ccl)) < methId ->
  copy_method getObjectPath inst_at ccl i cl = None.
Proof.
  intros H Ha Hu Hl. unfold copy_method. rewrite H. cbn [mbind option_bind]. rewrite Ha. cbn [mbind option_bind].
  assert (Hp : pointed (c_methods ccl) methId = None).
  { unfold pointed. case_zbool; [done|]. apply lookup_ge_None. lia. }
  unfold ClClassGetMethQualifierCount, count_of, item_of.
  rewrite (proj2 (Z.ltb_ge (methId - 1) 0)) by lia. cbn [orb]. destruct (Z.ltb_spec (used (c_methods ccl)) (methId - 1)).
  - cbn [mbind option_bind for_each]. unfold for_each. change (Z.to_nat 1) with 1%nat. cbn [for_loop]. unfold copy_method_qualifier.
    by rewrite Hp.
  - unfold pointed in Hp. rewrite (proj2 (Z.ltb_ge methId 1)) in Hp by lia. by rewrite Hp.
Qed.
