(* ===== verification/ObjectPath.v ===== *)
(** * Object paths (objectpath.c)

    An object path is a name space, a class and a list of keys.  Here it is what its
    accessors show of the serialized object ([ClClass.ClObjectPath]), whose strings are
    kept by [StringBuffer] and whose keys are the properties of [ClObject]: texts are
    values of the keys themselves, and a reference is the text of its path, as it is
    stored.  Modelled are the operations on a path, its text ([sfcb_pathToChars]), the
    parser of that text ([getObjectPath]) and the normal form by which paths are
    compared and instances are found ([normalizeObjectPathStrBuf]).

    [None] is undefined behaviour; a null object path is [Some None]. *)

From Stdlib Require Import Floats.SpecFloat.
From S2P Require Import Prelude CString CmpiData.

Record object_path := {
  nameSpace : option bytes; hostName : option bytes; className : bytes; keys : list (bytes * CMPIData)
}.

Definition set_keys (p : object_path) (l : list (bytes * CMPIData)) : object_path :=
  {| nameSpace := nameSpace p; hostName := hostName p; className := className p; keys := l |}.

Definition newObjectPath (ns : option bytes) (cn : bytes) : object_path :=
  {| nameSpace := ns; hostName := None; className := cn; keys := [] |}.

(** ** Names *)

(** A name that is set is replaced, with [strlen] of the new one. *)
Definition replace_name (old new : option bytes) : option (option bytes) :=
  match old, new with
  | Some _, None => None
  | _, new => Some new
  end.

Definition __oft_setNameSpace (p : object_path) (ns : option bytes) : option object_path :=
  ns ← replace_name (nameSpace p) ns;
  Some {| nameSpace := ns; hostName := hostName p; className := className p; keys := keys p |}.
Definition __oft_setHostName (p : object_path) (hn : option bytes) : option object_path :=
  hn ← replace_name (hostName p) hn;
  Some {| nameSpace := nameSpace p; hostName := hn; className := className p; keys := keys p |}.
Definition __oft_setClassName (p : object_path) (cn : bytes) : object_path :=
  {| nameSpace := nameSpace p; hostName := hostName p; className := cn; keys := keys p |}.
Definition __oft_setHostAndNameSpaceFromObjectPath (p src : object_path) : option object_path :=
  p ← __oft_setHostName p (hostName src); __oft_setNameSpace p (nameSpace src).
Definition __oft_setNameSpaceFromObjectPath (p src : object_path) : option object_path :=
  __oft_setNameSpace p (nameSpace src).

(** ** Storing a key *)

Definition simple (d : CMPIData) (t : CMPIType) : bool := bool_decide (d_type d = t) && negb (d_array d).
Definition with_value (d : CMPIData) (v : CMPIValue) : CMPIData :=
  {| d_type := d_type d; d_array := d_array d; d_state := d_state d; d_value := v |}.

Definition path_buffer : Z := 4096.

(** The value as it is stored: the text of a reference goes through a buffer. *)
Definition stored_value (d : CMPIData) : option CMPIData :=
  if is_null (d_state d) then Some d
  else if simple d CMPI_ref then
    match d_value d with VRef s => if strlen s <? path_buffer then Some d else None | _ => None end
  else Some d.

(** A key of the same name is replaced when the types fit ([Some None] if not). *)
Definition replaced_value (od d : CMPIData) : option (option CMPIData) :=
  if is_null (d_state d) then Some (Some d)
  else
    let text t := if simple d t then d ← stored_value d; Some (Some (with_value od (d_value d))) else Some None in
    if simple od CMPI_chars then text CMPI_chars
    else if simple od CMPI_dateTime then text CMPI_dateTime
    else if simple od CMPI_ref then text CMPI_ref
    else if d_array od then if d_array d then Some (Some (with_value od (d_value d))) else Some None
    else Some (Some d).

Fixpoint locate_key (l : list (bytes * CMPIData)) (id : bytes) : option nat :=
  match l with
  | [] => None
  | (n, _) :: l => if strcasecmp id n =? 0 then Some O else S <$> locate_key l id
  end.

Definition ClObjectPathAddKey (p : object_path) (id : bytes) (d : CMPIData) : option object_path :=
  match locate_key (keys p) id with
  | None => d ← stored_value d; Some (set_keys p (keys p ++ [(id, d)]))
  | Some i =>
      '(n, od) ← keys p !! i;
      r ← replaced_value od d;
      match r with
      | Some d => Some (set_keys p (<[i := (n, d)]> (keys p)))
      | None => Some p
      end
  end.

Definition chars_of (hdl : option bytes) : CMPIValue := match hdl with Some s => VChars s | None => NULL end.

Definition __oft_addKey (p : object_path) (name : bytes) (value : option CMPIValue) (type : CMPIType) (array : bool) :
    option object_path :=
  '(t, v) ← (if array then v ← sfcb_setAlignedValue NULL value CMPI_ptr; Some (type, v)
             else match type with
                  | CMPI_chars => Some (type, default NULL value)
                  | CMPI_string =>
                      match value with
                      | Some (VString hdl) => Some (CMPI_chars, chars_of hdl)
                      | None => Some (CMPI_chars, NULL)
                      | Some v => if is_NULL v then Some (CMPI_chars, NULL) else None
                      end
                  | _ => v ← sfcb_setAlignedValue NULL value type; Some (type, v)
                  end);
  let null := ((CMPI_ENC type || array) && is_NULL v) || match value with None => true | _ => false end in
  ClObjectPathAddKey p name
    {| d_type := t; d_array := array; d_state := if null then CMPI_nullValue else 0; d_value := v |}.

Definition __oft_getKeyCount (p : object_path) : Z := Z.of_nat (length (keys p)).

(** ** Parsing a path *)

Definition quote : Z := 34.

(** Does a reference begin here: [Some] of where its text ends.  A comma is looked at
    again from state 0, which it does not leave. *)
Fixpoint refLookAhead (state : nat) (u : bytes) : option bytes :=
  match u with
  | [] => if (4 <? state)%nat then Some [] else None
  | c :: u' =>
      match state with
      | 0%nat => refLookAhead (if isalnum c then 1 else 0) u'
      | 1%nat => refLookAhead (if c =? 61 then 2 else 1) u'
      | 2%nat => if isalnum c then refLookAhead 3 u' else None
      | 3%nat => if c =? 44 then None else refLookAhead (if c =? 46 then 4 else 3) u'
      | 4%nat => if isalnum c then refLookAhead 5 u' else None
      | 5%nat => if c =? 61 then match u' with [] => Some u | _ => refLookAhead 6 u' end else refLookAhead 5 u'
      | _ => if c =? 44 then match refLookAhead 0 u' with Some _ => Some u | None => refLookAhead 6 u' end
             else refLookAhead 6 u'
      end
  end.

(** A round of the loop over the keys: a key and what is behind its separator. *)
Inductive key_split := BadPath | LastKey (ref : bool) | NextKey (kd rest : bytes) (ref : bool).

Definition split_key (u : bytes) : key_split :=
  match refLookAhead 0 u with
  | Some [] => LastKey true
  | Some un => NextKey (cut u un) (drop 1 un) true
  | None =>
      match strpbrk u [44; quote] with
      | None => LastKey false
      | Some s =>
          if at0 s =? quote then
            if negb (List.last (cut u s) 0 =? 61) then BadPath
            else match strchr (drop 1 s) quote with
                 | None => BadPath
                 | Some q =>
                     match drop 1 q with
                     | [] => LastKey false
                     | (c :: rest) as s => if negb (c =? 44) then BadPath else NextKey (cut u s) rest false
                     end
                 end
          else NextKey (cut u s) (drop 1 s) false
      end
  end.

Section text.
Context (print_g : spec_float -> bytes).

(** Functions that print or parse are given [norm]: the text of the path that a text
    is parsed to. *)
Section parser.
Context (norm : bytes -> option (option bytes)).

Definition addKey (p : object_path) (kd : bytes) (ref : bool) : option object_path :=
  eq ← strchr kd 61;
  let name := cut kd eq in
  let val := drop 1 eq in
  if ref then
    keyOp ← norm val;
    __oft_addKey p name (Some (match keyOp with Some t => VRef t | None => NULL end)) CMPI_ref false
  else if at0 val =? quote then
    __oft_addKey p name (Some (VChars (removelast (drop 1 val)))) CMPI_chars false
  else if (at0 val =? 45) || (at0 val =? 43) then
    __oft_addKey p name (Some (VWord (u64 (strtol val)))) CMPI_sint64 false
  else if isdigit (at0 val) then
    __oft_addKey p name (Some (VWord (u64 (strtol val)))) CMPI_uint64 false
  else Some p.

(** What is left behind the last separator. *)
Definition last_key (p : object_path) (u : bytes) (ref : bool) : option (option object_path) :=
  match u with
  | [] => Some (Some p)
  | _ => p ← addKey p u ref; Some (Some p)
  end.

(** [fuel] is the length: every round takes a separator. *)
Fixpoint key_loop (fuel : nat) (p : object_path) (u : bytes) : option (option object_path) :=
  match split_key u with
  | BadPath => Some None
  | LastKey ref => last_key p u ref
  | NextKey kd rest ref =>
      match fuel with
      | O => None
      | S fuel => p ← addKey p kd ref; key_loop fuel p rest
      end
  end.

(** The name space ends at the first colon, wherever that is. *)
Definition getObjectPath_with (path : bytes) : option (option object_path) :=
  let '(ns, u) := match strchr path 58 with Some pp => (Some (cut path pp), drop 1 pp) | None => (None, path) end in
  match strchr path 46 with
  | None => Some (Some (newObjectPath ns u))
  | Some s =>
      if (length u <? length s)%nat then None
      else key_loop (length s) (newObjectPath ns (cut u s)) (drop 1 s)
  end.
End parser.

(** ** The text of a path *)

Section printer.
Context (norm : bytes -> option (option bytes)).

(** The text of the value of a key.  A stored reference is parsed and printed again. *)
Definition key_text (d : CMPIData) : option bytes :=
  if simple d CMPI_ref then
    match d_value d with
    | VRef t => t ← norm t; Some (default [] t)
    | v => if is_NULL v then Some [] else None
    end
  else if simple d CMPI_chars then
    match d_value d with
    | VChars s => sfcb_value2Chars print_g CMPI_string false (Some (VString (Some s)))
    | v => if is_NULL v then sfcb_value2Chars print_g CMPI_string false (Some (VString None)) else None
    end
  else sfcb_value2Chars print_g (d_type d) (d_array d) (Some (d_value d)).

Fixpoint keys_text (sep : Z) (l : list (bytes * CMPIData)) : option bytes :=
  match l with
  | [] => Some []
  | (n, d) :: l => v ← key_text d; t ← keys_text 44 l; Some (sep :: n ++ 61 :: v ++ t)
  end.

Definition nameSpace_text (ns : option bytes) : bytes :=
  match ns with Some ((_ :: _) as s) => s ++ [58] | _ => [] end.

(** [sfcb_pathToChars], for a buffer that is large enough. *)
Definition pathToChars_with (p : object_path) : option bytes :=
  t ← keys_text 46 (keys p); Some (nameSpace_text (nameSpace p) ++ className p ++ t).

Definition toString_with (p : object_path) : option bytes :=
  t ← pathToChars_with p; if strlen t <? path_buffer then Some t else None.
End printer.

(** [fuel] is the length: the text of a reference is inside the text of the path. *)
Fixpoint norm (fuel : nat) (t : bytes) : option (option bytes) :=
  match fuel with
  | O => None
  | S fuel =>
      p ← getObjectPath_with (norm fuel) t;
      match p with
      | None => Some None
      | Some p => t ← toString_with (norm fuel) p; Some (Some t)
      end
  end.

Definition norm_text (t : bytes) : option (option bytes) := norm (S (length t)) t.

Definition getObjectPath (path : option bytes) : option (option object_path) :=
  match path with None => Some None | Some t => getObjectPath_with norm_text t end.
Definition sfcb_pathToChars (p : object_path) : option bytes := pathToChars_with norm_text p.
Definition __oft_toString (p : object_path) : option bytes := toString_with norm_text p.

(** ** Reading a key *)

(** The value of a key: a reference is parsed. *)
Inductive key_value := KeyData (d : CMPIData) | KeyRef (p : option object_path).

Definition opGetKeyCharsAt (p : object_path) (i : Z) : option (option (bytes * key_value)) :=
  if (i <? 0) || (__oft_getKeyCount p <? i) then Some None
  else
    '(n, d) ← keys p !! Z.to_nat i;
    if simple d CMPI_ref then
      q ← match d_value d with
          | VRef t => getObjectPath (Some t)
          | v => if is_NULL v then Some None else None
          end;
      Some (Some (n, KeyRef q))
    else if simple d CMPI_chars then
      hdl ← match d_value d with VChars s => Some (Some s) | v => if is_NULL v then Some None else None end;
      Some (Some (n, KeyData {| d_type := CMPI_string; d_array := false; d_state := d_state d; d_value := VString hdl |}))
    else Some (Some (n, KeyData d)).

Definition __oft_getKey (p : object_path) (id : bytes) : option (option key_value) :=
  match locate_key (keys p) id with
  | Some i => r ← opGetKeyCharsAt p (Z.of_nat i); Some (option_map snd r)
  | None => Some None
  end.

(** ** The normal form *)

Definition lower (s : bytes) : bytes := tolower <$> s.

(** [qsort] by the names of the keys. *)
Definition qCompare (a b : bytes * CMPIData) : Prop := strcasecmp (fst a) (fst b) <= 0.
#[export] Instance qCompare_dec a b : Decision (qCompare a b).
Proof. unfold qCompare. apply _. Defined.

Definition sorted_keys (l : list (bytes * CMPIData)) : list (bytes * CMPIData) :=
  merge_sort qCompare ((fun '(n, d) => (lower n, d)) <$> l).

Section normal.
Context (normalize : object_path -> option bytes).

Definition ref_text (q : object_path) : option bytes :=
  t ← normalize q;
  Some ((match nameSpace q with Some s => s ++ [58] | None => [] end) ++ lower (className q) ++ [46] ++ t).

Definition normal_value (d : CMPIData) : option bytes :=
  if simple d CMPI_ref then
    match d_value d with VRef t => q ← getObjectPath (Some t); q ← q; ref_text q | _ => None end
  else key_text norm_text d.

Fixpoint normal_keys (l : list (bytes * CMPIData)) : option bytes :=
  match l with
  | [] => Some []
  | (n, d) :: l =>
      v ← normal_value d;
      t ← match l with [] => Some [] | _ => t ← normal_keys l; Some (44 :: t) end;
      Some (n ++ 61 :: v ++ t)
  end.
End normal.

(** [fuel] is the depth of the references. *)
Fixpoint normalize (fuel : nat) (p : object_path) : option bytes :=
  match fuel with
  | O => None
  | S fuel => normal_keys (normalize fuel) (sorted_keys (keys p))
  end.

Definition depth (p : object_path) : nat :=
  S (list_max ((fun k => match d_value (snd k) with VRef t => length t | _ => O end) <$> keys p)).
Definition normalizeObjectPathStrBuf (p : object_path) : option bytes := normalize (depth p) p.

(** Into [copKey]. *)
Definition normalizeObjectPathChars (p : object_path) : option bytes :=
  t ← normalizeObjectPathStrBuf p; if strlen t <? 8192 then Some t else None.
Definition normalizeObjectPathCharsDup (p : object_path) : option bytes := normalizeObjectPathStrBuf p.

Definition objectpathCompare (cop1 cop2 : object_path) : option Z :=
  a ← normalizeObjectPathStrBuf cop1; b ← normalizeObjectPathStrBuf cop2; Some (strcmp a b).

(** The keys in the order of the class: [props] are its properties, with the key bit.
    The separator is a period for every key. *)
Fixpoint class_keys_text (props : list (bytes * Z)) (p : object_path) : option bytes :=
  match props with
  | [] => Some []
  | (n, quals) :: props =>
      if Z.testbit quals 0 then
        match locate_key (keys p) n with
        | Some i =>
            '(_, d) ← keys p !! i;
            v ← key_text norm_text d;
            t ← class_keys_text props p;
            Some (46 :: n ++ 61 :: v ++ t)
        | None => class_keys_text props p
        end
      else class_keys_text props p
  end.

Definition oft_toCharsNormalized (p : object_path) (props : list (bytes * Z)) : option bytes :=
  t ← class_keys_text props p;
  let s := className p ++ t in
  if strlen s <? 2048 then Some s else None.
End text.
