(* ===== verification/PathText.v ===== *)
(** * The text of an object path (objectpath.c)

    Which paths survive being printed and parsed again, and what the comparison of two
    paths means.  A key is plain when it is a string without quotes or an integer that
    [atol] can read; the references that survive are those to paths with plain keys. *)

From Stdlib Require Import Floats.SpecFloat.
From S2P Require Import Prelude CString CmpiData ObjectPath.

(** ** Plain keys *)

Definition identifier (s : bytes) : Prop :=
  isalnum (at0 s) = true /\ Forall (fun c => (isalnum c || (c =? 95)) = true) s.

Definition int_value (t : CMPIType) (w : Z) : option Z :=
  match t with
  | CMPI_uint8 => Some (u8 w) | CMPI_uint16 => Some (u16 w) | CMPI_uint32 => Some (u32 w) | CMPI_uint64 => Some (u64 w)
  | CMPI_sint8 => Some (s8 w) | CMPI_sint16 => Some (s16 w) | CMPI_sint32 => Some (s32 w) | CMPI_sint64 => Some (s64 w)
  | _ => None
  end.

Definition chars_key (s : bytes) : CMPIData := {| d_type := CMPI_chars; d_array := false; d_state := 0; d_value := VChars s |}.
Definition ref_key (t : bytes) : CMPIData := {| d_type := CMPI_ref; d_array := false; d_state := 0; d_value := VRef t |}.

(** The parser makes an unsigned key of a number without a sign. *)
Definition int_key (v : Z) : CMPIData :=
  {| d_type := if v <? 0 then CMPI_sint64 else CMPI_uint64; d_array := false; d_state := 0; d_value := VWord (u64 v) |}.

Inductive plain : CMPIData -> Prop :=
| plain_chars st s : Forall (fun c => c <> 34) s ->
    plain {| d_type := CMPI_chars; d_array := false; d_state := st; d_value := VChars s |}
| plain_int st t w v : int_value t w = Some v -> - 2 ^ 63 <= v < 2 ^ 63 ->
    plain {| d_type := t; d_array := false; d_state := st; d_value := VWord w |}.

(** The text of a plain value or a reference, and what it is parsed to. *)
Definition plain_text (d : CMPIData) : bytes :=
  match d_value d with
  | VChars s => quoted s
  | VWord w => default [] (print_dec <$> int_value (d_type d) w)
  | VRef t => t
  | _ => []
  end.
Definition widen (d : CMPIData) : CMPIData :=
  match d_value d with
  | VChars s => chars_key s
  | VWord w => default d (int_key <$> int_value (d_type d) w)
  | VRef t => ref_key t
  | _ => d
  end.
Definition widen_key (k : bytes * CMPIData) : bytes * CMPIData := (fst k, widen (snd k)).

Definition pair_text (k : bytes * CMPIData) : bytes := fst k ++ 61 :: plain_text (snd k).
Definition plain_pair (k : bytes * CMPIData) : Prop := identifier (fst k) /\ plain (snd k).

(** ** Texts *)

Lemma identifier_chars s : identifier s -> Forall (fun c => c <> 61 /\ c <> 44 /\ c <> 46 /\ c <> 58 /\ c <> 34) s.
Proof.
  intros [_ H]. eapply Forall_impl; [exact H|]. intros c Hc. cbn in Hc.
  split_and!; intros ->; by vm_compute in Hc.
Qed.

Lemma identifier_cons s : identifier s -> exists c s', s = c :: s' /\ isalnum c = true.
Proof. destruct s as [|c s]; [intros [H _]; by vm_compute in H|]. intros [H _]. by exists c, s. Qed.

Lemma print_dec_nonneg v : 0 <= v ->
  exists c ds, print_dec v = c :: ds /\ isdigit c = true /\ Forall (fun d => isdigit d = true) ds.
Proof.
  intros Hv. destruct (print_dec_ok v Hv) as (_ & Hd & Hne). destruct (print_dec v) as [|c ds]; [done|].
  exists c, ds. split; [done|]. inversion Hd as [|? ? Hc Hds]; subst. split; [by apply isdigit_true|].
  eapply Forall_impl; [exact Hds|]. intros d Hd'. by apply isdigit_true.
Qed.

Lemma print_dec_neg v : v < 0 -> print_dec v = 45 :: print_dec (- v).
Proof.
  intros Hv. unfold print_dec. rewrite (proj2 (Z.ltb_lt v 0)) by done. by rewrite (proj2 (Z.ltb_ge (- v) 0)) by lia.
Qed.

Lemma scan_print v : 0 <= v -> scan_number (print_dec v) = (false, v).
Proof.
  intros Hv. destruct (print_dec_ok v Hv) as (E & Hd & Hne). rewrite <- (app_nil_r (print_dec v)).
  by rewrite scan_number_digits, E.
Qed.

Lemma strtol_print v : - 2 ^ 63 <= v < 2 ^ 63 -> strtol (print_dec v) = v.
Proof.
  intros Hv. destruct (Z_lt_le_dec v 0) as [Hn|Hn].
  - rewrite print_dec_neg by done. unfold strtol.
    assert (E : scan_number (45 :: print_dec (- v)) = (true, - v)).
    { destruct (print_dec_ok (- v)) as (E & Hd & Hne); [lia|]. unfold scan_number.
      change (skip_space (45 :: print_dec (- v))) with (45 :: print_dec (- v)). cbv iota.
      pose proof (take_digits_app (print_dec (- v)) [] Hd eq_refl) as Et. rewrite app_nil_r in Et. by rewrite Et, E. }
    rewrite E. rewrite Z.max_l by lia. lia.
  - unfold strtol. rewrite scan_print by done. rewrite Z.min_l by lia. done.
Qed.

Lemma isdigit_range c : isdigit c = true -> 48 <= c <= 57.
Proof. unfold isdigit. intros [?%Z.leb_le ?%Z.leb_le]%andb_true_iff. lia. Qed.
Lemma isdigit_isalnum c : isdigit c = true -> isalnum c = true.
Proof. unfold isalnum. by intros ->. Qed.

(** The three forms of the text of a plain value. *)
Inductive text_form : bytes -> Prop :=
| form_quoted s : Forall (fun c => c <> 34) s -> text_form (34 :: s ++ [34])
| form_minus ds : Forall (fun c => isdigit c = true) ds -> text_form (45 :: ds)
| form_digits c ds : isdigit c = true -> Forall (fun c => isdigit c = true) ds -> text_form (c :: ds).

Lemma plain_form d : plain d -> text_form (plain_text d).
Proof.
  destruct 1 as [st s Hs|st t w v Hv Hr]; unfold plain_text; cbn [d_value d_type].
  - by apply form_quoted.
  - rewrite Hv. cbn [fmap option_fmap option_map default from_option]; unfold id. destruct (Z_lt_le_dec v 0) as [Hn|Hn].
    + rewrite print_dec_neg by done. apply form_minus. destruct (print_dec_nonneg (- v)) as (c & ds & -> & ? & ?); [lia|].
      by constructor.
    + destruct (print_dec_nonneg v Hn) as (c & ds & -> & ? & ?). by apply form_digits.
Qed.

(** ** Looking ahead *)

(** What may follow the text of a key. *)
Definition key_end (rest : bytes) : Prop := rest = [] \/ exists r, rest = 44 :: r.

Lemma look_name n u : identifier n -> refLookAhead 0 (n ++ 61 :: u) = refLookAhead 2 u.
Proof.
  intros Hn. destruct (identifier_cons n Hn) as (c & s & -> & Hc). apply identifier_chars in Hn.
  inversion Hn as [|? ? _ Hs]; subst. cbn [app refLookAhead]. rewrite Hc. clear Hc Hn.
  induction Hs as [|d s (Hd & _) _ IH]; cbn [app refLookAhead]; [done|].
  by rewrite (proj2 (Z.eqb_neq d 61)) by done.
Qed.

Lemma look_digits ds rest : Forall (fun c => isdigit c = true) ds -> key_end rest -> refLookAhead 3 (ds ++ rest) = None.
Proof.
  induction 1 as [|c ds Hc%isdigit_range _ IH]; intros He; cbn [app refLookAhead].
  - by destruct He as [->|[r ->]].
  - rewrite (proj2 (Z.eqb_neq c 44)), (proj2 (Z.eqb_neq c 46)) by lia. auto.
Qed.

Lemma look_plain k rest : plain_pair k -> key_end rest -> refLookAhead 0 (pair_text k ++ rest) = None.
Proof.
  intros [Hn Hp] He. unfold pair_text. rewrite <- app_assoc. cbn [app]. rewrite look_name by done.
  destruct (plain_form _ Hp) as [s Hs|ds Hds|c ds Hc Hds]; [done|done|]. cbn [app refLookAhead].
  rewrite isdigit_isalnum by done. by apply look_digits.
Qed.

(** ** Splitting off a key *)

Lemma strpbrk_skip s u accept : Forall (fun c => existsb (Z.eqb c) accept = false) s -> strpbrk (s ++ u) accept = strpbrk u accept.
Proof. induction 1 as [|c s Hc _ IH]; [done|]. cbn [app strpbrk]. by rewrite Hc. Qed.

Lemma strchr_skip s u c : Forall (fun d => d <> c) s -> strchr (s ++ u) c = strchr u c.
Proof. induction 1 as [|d s Hd _ IH]; [done|]. cbn [app strchr]. by rewrite (proj2 (Z.eqb_neq d c)). Qed.


Lemma name_breaks n : identifier n -> Forall (fun c => existsb (Z.eqb c) [44; quote] = false) (n ++ [61]).
Proof.
  intros Hn%identifier_chars. apply Forall_app. split; [|by repeat constructor].
  eapply Forall_impl; [exact Hn|]. intros c (_ & H1 & _ & _ & H2). cbn.
  by rewrite (proj2 (Z.eqb_neq c 44)), (proj2 (Z.eqb_neq c quote)) by done.
Qed.

Lemma digit_breaks ds : Forall (fun c => isdigit c = true) ds -> Forall (fun c => existsb (Z.eqb c) [44; quote] = false) ds.
Proof.
  intros H. eapply Forall_impl; [exact H|]. intros c Hc%isdigit_range. cbn.
  by rewrite (proj2 (Z.eqb_neq c 44)), (proj2 (Z.eqb_neq c quote)) by (unfold quote; lia).
Qed.

Definition split_of (text rest : bytes) (ref : bool) : key_split :=
  match rest with [] => LastKey ref | _ :: r => NextKey text r ref end.

Lemma last_app_single s (c : Z) : List.last (s ++ [c]) 0 = c.
Proof. by rewrite List.last_last. Qed.

Lemma split_quoted n s rest : identifier n -> Forall (fun c => c <> 34) s -> key_end rest ->
  refLookAhead 0 (n ++ 61 :: (34 :: s ++ [34]) ++ rest) = None ->
  split_key (n ++ 61 :: (34 :: s ++ [34]) ++ rest) = split_of (n ++ 61 :: 34 :: s ++ [34]) rest false.
Proof.
  intros Hn Hs He Hl. unfold split_key. rewrite Hl.
  assert (E : n ++ 61 :: (34 :: s ++ [34]) ++ rest = (n ++ [61]) ++ 34 :: s ++ 34 :: rest) by (rewrite <- !app_assoc; cbn; by rewrite <- app_assoc).
  rewrite E, strpbrk_skip by (by apply name_breaks). cbn [strpbrk existsb Z.eqb orb quote Pos.eqb at0 drop].
  rewrite cut_app, last_app_single. cbn [Z.eqb Pos.eqb negb]. rewrite drop_0, strchr_skip by done.
  cbn [strchr Z.eqb Pos.eqb]. destruct He as [->|[r ->]]; cbn [drop]; rewrite ?drop_0; [done|]. cbn [Z.eqb Pos.eqb negb].
  unfold split_of. f_equal.
  replace ((n ++ [61]) ++ 34 :: s ++ 34 :: 44 :: r) with ((n ++ 61 :: 34 :: s ++ [34]) ++ 44 :: r).
  { apply cut_app. }
  rewrite <- !app_assoc. cbn. by rewrite <- app_assoc.
Qed.

Lemma split_unquoted n v rest : identifier n -> Forall (fun c => existsb (Z.eqb c) [44; quote] = false) v -> key_end rest ->
  refLookAhead 0 (n ++ 61 :: v ++ rest) = None ->
  split_key (n ++ 61 :: v ++ rest) = split_of (n ++ 61 :: v) rest false.
Proof.
  intros Hn Hv He Hl. unfold split_key. rewrite Hl.
  assert (E : n ++ 61 :: v ++ rest = (n ++ 61 :: v) ++ rest) by (by rewrite <- app_assoc).
  assert (Hb : Forall (fun c => existsb (Z.eqb c) [44; quote] = false) (n ++ 61 :: v)).
  { replace (n ++ 61 :: v) with ((n ++ [61]) ++ v) by (by rewrite <- app_assoc). apply Forall_app.
    split; [by apply name_breaks|done]. }
  rewrite E, strpbrk_skip by done. destruct He as [->|[r ->]]; [done|].
  cbn [strpbrk existsb Z.eqb orb Pos.eqb at0 quote drop]. by rewrite cut_app, drop_0.
Qed.

Lemma split_plain k rest : plain_pair k -> key_end rest ->
  split_key (pair_text k ++ rest) = split_of (pair_text k) rest false.
Proof.
  intros [Hn Hp] He. pose proof (look_plain k rest (conj Hn Hp) He) as Hl. unfold pair_text in *.
  rewrite <- app_assoc in *. cbn [app] in *.
  destruct (plain_form _ Hp) as [s Hs|ds Hds|c ds Hc Hds].
  - by apply split_quoted.
  - apply split_unquoted; try done. by constructor; [|apply digit_breaks].
  - apply split_unquoted; try done. apply digit_breaks. by constructor.
Qed.

(** ** Adding a key *)

Lemma strcasecmp_eq s t : strcasecmp s t = 0 <-> lower s = lower t.
Proof. apply strcmp_eq. Qed.

Definition names (l : list (bytes * CMPIData)) : list bytes := lower <$> (fst <$> l).

Lemma locate_none l n : lower n ∉ names l -> locate_key l n = None.
Proof.
  induction l as [|[m d] l IH]; intros H; [done|]. cbn [locate_key]. unfold names in *. cbn in H.
  apply not_elem_of_cons in H as [H1 H2]. destruct (Z.eqb_spec (strcasecmp n m) 0) as [E|E].
  - by apply strcasecmp_eq in E.
  - by rewrite IH.
Qed.

Lemma cut_at s (c : Z) u : cut (s ++ c :: u) (c :: u) = s.
Proof. apply cut_app. Qed.

Lemma strchr_at s c u : Forall (fun d => d <> c) s -> strchr (s ++ c :: u) c = Some (c :: u).
Proof. intros H. rewrite strchr_skip by done. cbn [strchr]. by rewrite Z.eqb_refl. Qed.

Lemma name_no_eq n : identifier n -> Forall (fun d => d <> 61) n.
Proof. intros Hn%identifier_chars. eapply Forall_impl; [exact Hn|]. by intros c (? & _). Qed.

Section loop.
Context (norm : bytes -> option (option bytes)).

Lemma add_stored p n d : lower n ∉ names (keys p) -> stored_value d = Some d ->
  ClObjectPathAddKey p n d = Some (set_keys p (keys p ++ [(n, d)])).
Proof. intros Hn Hd. unfold ClObjectPathAddKey. by rewrite locate_none, Hd. Qed.

Lemma addKey_plain p k : plain_pair k -> lower (fst k) ∉ names (keys p) ->
  addKey norm p (pair_text k) false = Some (set_keys p (keys p ++ [widen_key k])).
Proof.
  intros [Hn Hp] Hl. unfold addKey, pair_text. rewrite strchr_at by (by apply name_no_eq).
  cbn [mbind option_bind drop]. rewrite ?drop_0, cut_at. destruct k as [n d]. cbn [fst snd] in *. unfold widen_key. cbn [fst snd].
  destruct Hp as [st s Hs|st t w v Hv Hr]; unfold plain_text, widen; cbn [d_value d_type].
  - cbn [quoted app at0]. cbn [Z.eqb quote Pos.eqb drop]. change (drop 1 (quoted s)) with (s ++ [34]). rewrite removelast_last.
    unfold __oft_addKey. cbn. apply add_stored; done.
  - rewrite Hv. cbn [fmap option_fmap option_map default from_option]; unfold id.
    assert (A : forall t0, (t0 = CMPI_sint64 \/ t0 = CMPI_uint64) -> __oft_addKey p n (Some (VWord (u64 v))) t0 false =
      Some (set_keys p (keys p ++ [(n, {| d_type := t0; d_array := false; d_state := 0; d_value := VWord (u64 v) |})]))).
    { intros t0 [-> | ->]; unfold __oft_addKey; cbn; by apply add_stored. }
    rewrite strtol_print by done. unfold int_key. destruct (Z_lt_le_dec v 0) as [Hneg|Hpos].
    + rewrite (proj2 (Z.ltb_lt v 0)), print_dec_neg by done. cbn [at0 Z.eqb quote Pos.eqb orb]. apply A. by left.
    + rewrite (proj2 (Z.ltb_ge v 0)) by done. destruct (print_dec_nonneg v Hpos) as (c & ds & -> & Hc & _). cbn [at0].
      pose proof (isdigit_range c Hc). rewrite (proj2 (Z.eqb_neq c quote)), (proj2 (Z.eqb_neq c 45)), (proj2 (Z.eqb_neq c 43))
        by (unfold quote; lia). cbn [orb]. rewrite Hc. apply A. by right.
Qed.


(** ** The loop over the keys *)

(** The text of a key, whether it is read as a reference, and the key it becomes. *)
Record item := { i_text : bytes; i_ref : bool; i_key : bytes * CMPIData }.

Fixpoint joined (l : list bytes) : bytes := match l with [] => [] | t :: l => t ++ match l with [] => [] | _ => 44 :: joined l end end.
Definition tail_text (l : list bytes) : bytes := match l with [] => [] | _ => 44 :: joined l end.

Lemma joined_cons t l : joined (t :: l) = t ++ tail_text l.
Proof. by destruct l. Qed.
Lemma tail_text_cons t l : tail_text (t :: l) = 44 :: t ++ tail_text l.
Proof. unfold tail_text at 1. by rewrite joined_cons. Qed.

Definition adds (it : item) : Prop := forall p, lower (fst (i_key it)) ∉ names (keys p) ->
  addKey norm p (i_text it) (i_ref it) = Some (set_keys p (keys p ++ [i_key it])).

Inductive chain : list item -> Prop :=
| chain_nil : chain []
| chain_cons it its : adds it -> chain its ->
    split_key (i_text it ++ tail_text (i_text <$> its)) = split_of (i_text it) (tail_text (i_text <$> its)) (i_ref it) ->
    chain (it :: its).

Lemma adds_nonempty it p : adds it -> lower (fst (i_key it)) ∉ names (keys p) -> i_text it <> [].
Proof. intros Ha Hl E. specialize (Ha p Hl). by rewrite E in Ha. Qed.

Lemma loop_chain its : chain its -> forall fuel p, (length its <= fuel)%nat -> NoDup (names (keys p ++ (i_key <$> its))) ->
  key_loop norm fuel p (joined (i_text <$> its)) = Some (Some (set_keys p (keys p ++ (i_key <$> its)))).
Proof.
  induction 1 as [|it its Ha Hc IH Hs]; intros fuel p Hf Hnd.
  { destruct fuel; cbn; rewrite app_nil_r; by destruct p. }
  assert (Hl : lower (fst (i_key it)) ∉ names (keys p)).
  { unfold names in *. rewrite !fmap_app, NoDup_app in Hnd. destruct Hnd as (_ & Hnd & _). intros Hin.
    apply (Hnd _ Hin). cbn. by left. }
  cbn [fmap list_fmap]. rewrite joined_cons. destruct fuel as [|fuel]; [cbn in Hf; lia|]. cbn [key_loop]. rewrite Hs.
  destruct its as [|it' its].
  - cbn [fmap list_fmap tail_text split_of]. rewrite app_nil_r. unfold last_key.
    pose proof (adds_nonempty it p Ha Hl). destruct (i_text it) eqn:E; [done|]. rewrite <- E, Ha by done. done.
  - cbn [fmap list_fmap]. rewrite tail_text_cons. cbn [split_of]. rewrite Ha by done. cbn [mbind option_bind].
    rewrite <- joined_cons. change (i_text it' :: (i_text <$> its)) with (i_text <$> (it' :: its)).
    rewrite IH; [|cbn in *; lia|].
    + cbn [keys set_keys]. f_equal. f_equal. unfold set_keys. cbn. by rewrite <- app_assoc.
    + cbn [keys set_keys]. by rewrite <- app_assoc.
Qed.

Definition plain_item (k : bytes * CMPIData) : item := {| i_text := pair_text k; i_ref := false; i_key := widen_key k |}.

Lemma key_end_tail l : key_end (tail_text l).
Proof. destruct l; [by left|right; by eexists]. Qed.

Lemma chain_plain ks its : Forall plain_pair ks -> chain its -> chain ((plain_item <$> ks) ++ its).
Proof.
  induction 1 as [|k ks Hk _ IH]; intros Hc; [done|]. cbn [fmap list_fmap app]. constructor.
  - intros p Hl. by apply addKey_plain.
  - by apply IH.
  - apply split_plain; [done|]. apply key_end_tail.
Qed.
End loop.

(** ** Plain values are printed by their text *)

Lemma widen_text d : plain d -> plain_text (widen d) = plain_text d.
Proof.
  destruct 1 as [st s Hs|st t w v Hv Hr]; [done|]. unfold widen, plain_text. cbn [d_value d_type]. rewrite Hv.
  cbn [fmap option_fmap option_map default from_option]; unfold id, int_key. cbn [d_value d_type].
  destruct (Z.ltb_spec v 0) as [Hn|Hn]; cbn [int_value fmap option_fmap option_map default from_option]; unfold id; f_equal.
  - unfold wrapu. rewrite <- (wraps_small 64 v) at 2 by lia. unfold wraps. by rewrite Z.mod_mod by done.
  - unfold wrapu. rewrite Z.mod_mod by done. apply Z.mod_small. lia.
Qed.

Lemma widen_plain d : plain d -> plain (widen d).
Proof.
  destruct 1 as [st s Hs|st t w v Hv Hr]; [by constructor|]. unfold widen. cbn [d_value d_type]. rewrite Hv.
  cbn [fmap option_fmap option_map default from_option]; unfold id, int_key. destruct (Z.ltb_spec v 0) as [Hn|Hn].
  - apply (plain_int _ _ _ v); [|done]. cbn [int_value]. f_equal. unfold wrapu.
    rewrite <- (wraps_small 64 v) at 2 by lia. unfold wraps. by rewrite Z.mod_mod by done.
  - apply (plain_int _ _ _ v); [|done]. cbn [int_value]. f_equal. unfold wrapu. rewrite Z.mod_mod by done.
    apply Z.mod_small. lia.
Qed.

Lemma widen_pair k : plain_pair k -> plain_pair (widen_key k) /\ pair_text (widen_key k) = pair_text k.
Proof.
  intros [Hn Hp]. unfold plain_pair, pair_text, widen_key. cbn [fst snd]. rewrite widen_text by done.
  split; [|done]. split; [done|by apply widen_plain].
Qed.

Section print.
Context (print_g : spec_float -> bytes).

Lemma key_text_plain norm d : plain d -> key_text print_g norm d = Some (plain_text d).
Proof.
  destruct 1 as [st s Hs|st t w v Hv Hr]; [done|]. unfold key_text, plain_text. cbn [d_value d_type d_array].
  rewrite Hv. cbn [fmap option_fmap option_map default from_option]; unfold id.
  destruct t; try discriminate Hv; injection Hv as <-; done.
Qed.


(** ** Names of paths *)









(** Keys only by their names and widened values. *)
Lemma names_widen l : names (widen_key <$> l) = names l.
Proof. unfold names. induction l as [|[n d] l IH]; [done|]. cbn. by rewrite IH. Qed.

Lemma plain_items (l : list (bytes * CMPIData)) : i_text <$> (plain_item <$> l) = pair_text <$> l /\ i_key <$> (plain_item <$> l) = widen_key <$> l.
Proof. induction l as [|k l [IH1 IH2]]; [done|]. cbn. by rewrite IH1, IH2. Qed.

(** ** References *)



Lemma pair_text_widen ks : Forall plain_pair ks -> pair_text <$> (widen_key <$> ks) = pair_text <$> ks.
Proof. induction 1 as [|k ks Hk _ IH]; [done|]. cbn [fmap list_fmap]. f_equal; [by apply widen_pair|done]. Qed.



(** *** Looking ahead over a reference *)












(** *** The keys of a path *)








End print.

Definition wit_g (d : spec_float) : bytes := [].
Definition wit_ref : bytes := cstr "root:X.k=" ++ [34; 49; 34] ++ cstr ",l=2".
Definition wit_path : object_path :=
  {| nameSpace := Some (cstr "root"); hostName := None; className := cstr "C";
     keys := [(cstr "s", chars_key (cstr "a:b")); (cstr "n", {| d_type := CMPI_sint8; d_array := false; d_state := 0; d_value := VWord 251 |})] ++
       [(cstr "r", ref_key wit_ref)] |}.

Ltac chars := repeat (constructor; [split_and?; first [discriminate | vm_compute; congruence]|]); constructor.
Ltac name := split; [vm_compute; reflexivity|repeat (constructor; [vm_compute; reflexivity|]); constructor].



(** ** The comparison of paths *)

Lemma tolower_idemp c : tolower (tolower c) = tolower c.
Proof. unfold tolower. destruct ((65 <=? c) && (c <=? 90)) eqn:E; [|by rewrite E]. 
  apply andb_true_iff in E as [E1%Z.leb_le E2%Z.leb_le]. rewrite (proj2 (Z.leb_gt (c + 32) 90)) by lia. by rewrite andb_false_r.
Qed.
Lemma lower_idemp s : lower (lower s) = lower s.
Proof. unfold lower. rewrite <- list_fmap_compose. apply list_fmap_ext. intros i c _. apply tolower_idemp. Qed.

Lemma lower_char c : (isalnum c || (c =? 95)) = true -> (isalnum (tolower c) || (tolower c =? 95)) = true /\ (isalnum c = true -> isalnum (tolower c) = true).
Proof.
  unfold tolower. destruct ((65 <=? c) && (c <=? 90)) eqn:E; [|done].
  apply andb_true_iff in E as [E1%Z.leb_le E2%Z.leb_le]. assert (H : isalnum (c + 32) = true).
  { unfold isalnum, isdigit, isalpha. rewrite (proj2 (Z.leb_le 97 (c + 32))), (proj2 (Z.leb_le (c + 32) 122)) by lia.
    by rewrite !orb_true_r. }
  by rewrite H.
Qed.

Lemma lower_identifier s : identifier s -> identifier (lower s).
Proof.
  intros [H1 H2]. split.
  - destruct s as [|c s]; [done|]. inversion H2; subst. by apply lower_char.
  - unfold lower. apply Forall_fmap. eapply Forall_impl; [exact H2|]. intros c Hc. by apply lower_char.
Qed.

#[local] Instance qCompare_trans : Transitive qCompare.
Proof.
  intros a b c H1 H2. unfold qCompare, strcasecmp in *.
  destruct (strcmp_range (tolower <$> fst a) (tolower <$> fst b)) as [E|[E|E]]; [|apply strcmp_eq in E; by rewrite E|lia].
  destruct (strcmp_range (tolower <$> fst b) (tolower <$> fst c)) as [E'|[E'|E']]; [|apply strcmp_eq in E'; by rewrite <- E'|lia].
  pose proof (strcmp_lt_trans (tolower <$> fst a) (tolower <$> fst b) (tolower <$> fst c)). lia.
Qed.
#[local] Instance qCompare_total : Total qCompare.
Proof. intros a b. unfold qCompare, strcasecmp. rewrite (strcmp_anti (tolower <$> fst b)). lia. Qed.

(** The key by which paths are compared. *)
Definition normal_key (k : bytes * CMPIData) : bytes * CMPIData := (lower (fst k), widen (snd k)).

Lemma sorted_widen l : Sorted qCompare l -> Sorted qCompare (widen_key <$> l).
Proof.
  induction 1 as [|k l _ IH Hd]; [constructor|]. cbn. constructor; [done|]. by destruct Hd; constructor.
Qed.

Lemma sorted_keys_spec l : Sorted qCompare (widen_key <$> sorted_keys l) /\ Permutation (widen_key <$> sorted_keys l) (normal_key <$> l).
Proof.
  unfold sorted_keys. split.
  - apply sorted_widen, Sorted_merge_sort, _.
  - rewrite merge_sort_Permutation, <- list_fmap_compose.
    assert (E : (widen_key ∘ (fun '(n, d) => (lower n, d))) <$> l = normal_key <$> l)
      by (apply list_fmap_ext; by intros i [n d] _). by rewrite E.
Qed.

Lemma names_normal l : names (normal_key <$> l) = names l.
Proof. unfold names. induction l as [|[n d] l IH]; [done|]. cbn. rewrite lower_idemp. f_equal. exact IH. Qed.

Lemma names_permutation l1 l2 : Permutation l1 l2 -> Permutation (names l1) (names l2).
Proof. intros H. unfold names. by rewrite H. Qed.

Lemma same_name l a b : NoDup (names l) -> a ∈ l -> b ∈ l -> lower (fst a) = lower (fst b) -> a = b.
Proof.
  unfold names. intros Hnd Ha Hb E. induction l as [|k l IH]; [by apply elem_of_nil in Ha|].
  cbn in Hnd. apply NoDup_cons in Hnd as [Hk Hnd]. apply elem_of_cons in Ha as [->|Ha], Hb as [->|Hb]; [done| | |by apply IH].
  - exfalso. apply Hk. rewrite E. by apply list_elem_of_fmap_2, list_elem_of_fmap_2.
  - exfalso. apply Hk. rewrite <- E. by apply list_elem_of_fmap_2, list_elem_of_fmap_2.
Qed.

(** Keys with different names are sorted in one way only. *)
Lemma sorted_keys_unique l1 l2 : NoDup (names l1) -> Permutation (normal_key <$> l1) (normal_key <$> l2) ->
  widen_key <$> sorted_keys l1 = widen_key <$> sorted_keys l2.
Proof.
  intros Hnd Hp. destruct (sorted_keys_spec l1) as [S1 P1]. destruct (sorted_keys_spec l2) as [S2 P2].
  apply (Sorted_unique_strong qCompare); [|done|done|by rewrite P1, P2].
  intros a b Ha Hb H1 H2. rewrite P1 in Ha. rewrite P2, <- Hp in Hb. rewrite <- names_normal in Hnd.
  eapply same_name; [exact Hnd|done|done|]. apply strcmp_eq. unfold qCompare, strcasecmp in *.
  rewrite (strcmp_anti (tolower <$> fst b)) in H2. unfold lower. lia.
Qed.

Section compare.
Context (print_g : spec_float -> bytes).

Lemma sorted_plain l : Forall plain_pair l -> Forall plain_pair (sorted_keys l).
Proof.
  intros H. unfold sorted_keys. rewrite merge_sort_Permutation. apply Forall_fmap.
  eapply Forall_impl; [exact H|]. intros [n d] [Hn Hd]. split; [by apply lower_identifier|done].
Qed.

Lemma normal_keys_plain f l : Forall plain_pair l -> normal_keys print_g f l = Some (joined (pair_text <$> l)).
Proof.
  induction 1 as [|[n d] l [Hn Hd] _ IH]; [done|]. cbn [normal_keys fst snd] in *.
  assert (Ev : normal_value print_g f d = Some (plain_text d)).
  { unfold normal_value. destruct (simple d CMPI_ref) eqn:E; [|by apply key_text_plain].
    destruct Hd as [st s Hs|st t w v Hv _]; [done|]. unfold simple in E. cbn in E. apply andb_true_iff in E as [E _].
    apply bool_decide_eq_true in E. by subst t. }
  rewrite Ev. cbn [mbind option_bind fmap list_fmap]. rewrite joined_cons.
  change (pair_text (n, d)) with (n ++ 61 :: plain_text d). rewrite <- app_assoc. cbn [app].
  destruct l as [|k l]; [done|]. rewrite IH. cbn [mbind option_bind fmap list_fmap tail_text]. done.
Qed.

Lemma normalize_plain p : Forall plain_pair (keys p) ->
  normalizeObjectPathStrBuf print_g p = Some (joined (pair_text <$> sorted_keys (keys p))).
Proof. intros H. unfold normalizeObjectPathStrBuf, depth. cbn [normalize]. by apply normal_keys_plain, sorted_plain. Qed.

(** The text of plain keys determines them, up to the width of integers. *)
Lemma joined_inj l1 l2 : Forall plain_pair l1 -> Forall plain_pair l2 -> NoDup (names l1) -> NoDup (names l2) ->
  joined (pair_text <$> l1) = joined (pair_text <$> l2) -> widen_key <$> l1 = widen_key <$> l2.
Proof.
  intros H1 H2 N1 N2 E.
  assert (K : forall l, Forall plain_pair l -> NoDup (names l) -> forall fuel, (length l <= fuel)%nat ->
    key_loop (fun _ => None) fuel (newObjectPath None []) (joined (pair_text <$> l)) =
    Some (Some {| nameSpace := None; hostName := None; className := []; keys := widen_key <$> l |})).
  { intros l H N fuel Hf. destruct (plain_items l) as [Ea Eb]. rewrite <- Ea, <- Eb.
    rewrite (loop_chain (fun _ => None)); [done| |by rewrite length_fmap|by cbn [keys newObjectPath app]; rewrite Eb, names_widen].
    rewrite <- (app_nil_r (plain_item <$> l)). apply chain_plain; [done|constructor]. }
  pose proof (K l1 H1 N1 (length l1 + length l2)%nat ltac:(lia)) as E1.
  pose proof (K l2 H2 N2 (length l1 + length l2)%nat ltac:(lia)) as E2. rewrite E, E2 in E1. by injection E1.
Qed.

Lemma names_sorted l : NoDup (names l) -> NoDup (names (sorted_keys l)).
Proof.
  intros H. rewrite <- names_widen. destruct (sorted_keys_spec l) as [_ P]. by rewrite (names_permutation _ _ P), names_normal.
Qed.

(** two object paths with string and integer keys compare equal exactly when they have
    the same keys: in any order, with names in any case, integers of any width.  Class,
    name space and host are not compared. *)
Theorem objectpathCompare_keys p q : Forall plain_pair (keys p) -> Forall plain_pair (keys q) ->
  NoDup (names (keys p)) -> NoDup (names (keys q)) ->
  exists r, objectpathCompare print_g p q = Some r /\
    (r = 0 <-> Permutation (normal_key <$> keys p) (normal_key <$> keys q)).
Proof.
  intros Hp Hq Np Nq. unfold objectpathCompare. rewrite !normalize_plain by done. cbn [mbind option_bind].
  eexists. split; [done|]. rewrite strcmp_eq. split.
  - intros E%joined_inj; [|by apply sorted_plain|by apply sorted_plain|by apply names_sorted|by apply names_sorted].
    destruct (sorted_keys_spec (keys p)) as [_ <-]. destruct (sorted_keys_spec (keys q)) as [_ <-]. by rewrite E.
  - intros P%sorted_keys_unique; [|done]. rewrite <- (pair_text_widen (sorted_keys (keys p))) by (by apply sorted_plain).
    rewrite <- (pair_text_widen (sorted_keys (keys q))) by (by apply sorted_plain). by rewrite P.
Qed.
End compare.

Lemma objectpathCompare_keys_witness : exists r, objectpathCompare wit_g
    {| nameSpace := None; hostName := None; className := cstr "A"; keys := [(cstr "K", chars_key (cstr "1")); (cstr "l", int_key 2)] |}
    {| nameSpace := None; hostName := None; className := cstr "B"; keys := [(cstr "L", int_key 2); (cstr "k", chars_key (cstr "1"))] |} =
  Some r /\ r = 0.
Proof.
  destruct (objectpathCompare_keys wit_g
    {| nameSpace := None; hostName := None; className := cstr "A"; keys := [(cstr "K", chars_key (cstr "1")); (cstr "l", int_key 2)] |}
    {| nameSpace := None; hostName := None; className := cstr "B"; keys := [(cstr "L", int_key 2); (cstr "k", chars_key (cstr "1"))] |})
    as (r & E & Hr).
  - constructor; [split; [name|constructor; chars]|].
    constructor; [split; [name|apply (plain_int _ _ _ 2); [vm_compute; reflexivity|lia]]|constructor].
  - constructor; [split; [name|apply (plain_int _ _ _ 2); [vm_compute; reflexivity|lia]]|].
    constructor; [split; [name|constructor; chars]|constructor].
  - apply (bool_decide_unpack _). vm_compute. exact I.
  - apply (bool_decide_unpack _). vm_compute. exact I.
  - exists r. split; [exact E|]. apply Hr. apply perm_swap.
Defined.

(** ** Paths that do not survive *)

(** A key without an equals sign, and a colon without a name space, are undefined. *)
Lemma no_equals_sign : getObjectPath wit_g (Some (cstr "C.a")) = None.
Proof. by vm_compute. Qed.
Lemma colon_without_nameSpace : getObjectPath wit_g (Some (cstr "C.a=" ++ [34] ++ cstr "x:y" ++ [34])) = None.
Proof. by vm_compute. Qed.

Definition parsed_names (t : option bytes) : option (list bytes) :=
  t ← t; p ← getObjectPath wit_g (Some t); p ← p; Some (fst <$> keys p).

(** A key behind a reference becomes a key of the reference; a boolean key is lost. *)
Lemma key_behind_reference_absorbed :
  parsed_names (sfcb_pathToChars wit_g (set_keys wit_path [(cstr "r", ref_key wit_ref); (cstr "s", chars_key (cstr "1"))])) =
  Some [cstr "r"].
Proof. by vm_compute. Qed.
Lemma boolean_key_lost :
  parsed_names (sfcb_pathToChars wit_g (set_keys wit_path
    [(cstr "b", {| d_type := CMPI_boolean; d_array := false; d_state := 0; d_value := VWord 1 |})])) = Some [].
Proof. by vm_compute. Qed.
