(* ===== verification/DateTime.v ===== *)
(** * CMPI date and time (datetime.c)

    A date or an interval is kept as its text of 25 characters; [chars2bin] makes
    microseconds of it and [bin2chars] a text of microseconds.  The time functions of
    the C library are modelled for a zone with a fixed offset and at most one hour of
    daylight saving time: what [tzset] leaves in [timezone] and [daylight], and when
    daylight saving time is in effect. *)

From S2P Require Import Prelude CString CmpiData.

(** ** The time functions of the C library *)

Record zone := { timezone : Z; daylight : bool; dst_at : Z -> bool }.

(** The fields of [struct tm] that are used. *)
Record tm := { tm_year : Z; tm_mon : Z; tm_mday : Z; tm_hour : Z; tm_min : Z; tm_sec : Z; tm_isdst : Z }.

(** Days since 1970-01-01 of a year, a month from 0 and a day from 1. *)
Definition days_of_date (year mon mday : Z) : Z :=
  let y := year + mon / 12 in
  let m := mon mod 12 in
  let y := if m <? 2 then y - 1 else y in
  let mp := (m + 10) mod 12 in
  let era := y / 400 in
  let yoe := y mod 400 in
  era * 146097 + (yoe * 365 + yoe / 4 - yoe / 100) + ((153 * mp + 2) / 5 + mday - 1) - 719468.

Definition year_of_era (doe : Z) : Z := (doe - doe / 1460 + doe / 36524 - doe / 146096) / 365.
Definition date_of_days (z : Z) : Z * Z * Z :=
  let z := z + 719468 in
  let era := z / 146097 in
  let doe := z mod 146097 in
  let yoe := year_of_era doe in
  let doy := doe - (365 * yoe + yoe / 4 - yoe / 100) in
  let mp := (5 * doy + 2) / 153 in
  let mday := doy - (153 * mp + 2) / 5 + 1 in
  let mon := if mp <? 10 then mp + 2 else mp - 10 in
  (yoe + era * 400 + (if mon <? 2 then 1 else 0), mon, mday).

Definition dst_seconds (b : bool) : Z := if b then 3600 else 0.

Definition localtime_r (z : zone) (secs : Z) : tm :=
  let local := secs - timezone z + dst_seconds (dst_at z secs) in
  let s := local mod 86400 in
  let '(y, m, d) := date_of_days (local / 86400) in
  {| tm_year := y - 1900; tm_mon := m; tm_mday := d; tm_hour := s / 3600; tm_min := s / 60 mod 60; tm_sec := s mod 60;
     tm_isdst := if dst_at z secs then 1 else 0 |}.

(** The fields are taken for daylight saving time when [tm_isdst] says so. *)
Definition mktime (z : zone) (t : tm) : Z :=
  days_of_date (tm_year t + 1900) (tm_mon t) (tm_mday t) * 86400 + tm_hour t * 3600 + tm_min t * 60 + tm_sec t +
  timezone z - dst_seconds (0 <? tm_isdst t).

(** ** Text to microseconds *)

(** The characters from [a] to the NUL that was written at [b]. *)
Definition field (str : bytes) (a b : nat) : bytes := drop a (take b str).

Section chars2bin.
Context (z : zone).

Definition fields_seconds (str : bytes) : Z :=
  u64 (u64 (strtoull (field str 12 14) + strtoull (field str 10 12) * 60) + strtoull (field str 8 10) * 3600).

(** The microseconds, and the status when it is set. *)
Definition chars2bin (str : bytes) : option (Z * Z) :=
  c ← str !! 21%nat;
  let offset := if (c =? 43) || (c =? 45) then s32 (u64 (atoi (drop 21 str) * 60)) else 0 in
  let msecs := strtoull (field str 15 21) in
  let secs := fields_seconds str in
  if c =? 58 then
    let secs := u64 (secs + strtoull (field str 0 8) * 86400) in
    Some (u64 (msecs + secs * 1000000), CMPI_RC_OK)
  else
    let t := {| tm_year := s32 (atoi (field str 0 4) - 1900); tm_mon := s32 (atoi (field str 4 6) - 1);
                tm_mday := atoi (field str 6 8); tm_hour := 0; tm_min := 0; tm_sec := 0;
                tm_isdst := if daylight z then 1 else 0 |} in
    let rc := if mktime z t <? 0 then CMPI_RC_ERR_INVALID_PARAMETER else CMPI_RC_OK in
    let msecs := u64 (msecs + secs * 1000000) in
    let msecs := u64 (msecs + u64 (mktime z t) * 1000000) in
    Some (u64 (msecs - u64 offset * 1000000), rc).
End chars2bin.

(** ** Microseconds to text *)

Definition day_limit : Z := 99999999.

(** [%+4.3ld] *)
Definition print_offset (v : Z) : bytes :=
  (if v <? 0 then 45 else 43) :: print_dec_pad 3 (Z.abs v).

Section bin2chars.
Context (z : zone).

(** The text of an absolute time, cut off by the buffers of 11 and of 26 characters;
    [None] when it does not fit. *)
Definition timestamp_text (t : tm) (usecs : Z) : option bytes :=
  let us_utc_time := take 10 (print_dec_pad 6 usecs ++
    print_offset ((if tm_isdst t =? 0 then 0 else 60) - Z.quot (timezone z) 60)) in
  let str_time := print_dec (tm_year t + 1900) ++ print_dec_pad 2 (tm_mon t + 1) ++ print_dec_pad 2 (tm_mday t) ++
    print_dec_pad 2 (tm_hour t) ++ print_dec_pad 2 (tm_min t) ++ print_dec_pad 2 (tm_sec t) ++ [46] in
  if strlen str_time <? 26 then
    let s := str_time ++ us_utc_time in if strlen s <? 26 then Some s else None
  else None.

Definition bin2chars (msecs : Z) (interval : bool) : option bytes :=
  let seconds := msecs / 1000000 in
  let useconds := msecs mod 1000000 in
  if interval then
    let mins := seconds / 60 in
    let hrs := mins / 60 in
    let days := if day_limit <? hrs / 24 then day_limit else hrs / 24 in
    Some (print_dec_pad 8 days ++ print_dec_pad 2 (hrs mod 24) ++ print_dec_pad 2 (mins mod 60) ++
          print_dec_pad 2 (seconds mod 60) ++ [46] ++ print_dec_pad 6 useconds ++ cstr ":000")
  else timestamp_text (localtime_r z seconds) useconds.

(** ** The operations *)

(** A [CMPIDateTime] is its text. *)
Definition native_datetime : Type := bytes.

Definition __new_datetime (cimDt : bytes) : option native_datetime :=
  if strlen cimDt <? 26 then Some cimDt else None.

Definition _new_CMPIDateTime_fromBinary (msecs : Z) (interval : bool) : option native_datetime :=
  cimDt ← bin2chars msecs interval; __new_datetime cimDt.

(** The time of day: seconds and microseconds. *)
Definition _new_CMPIDateTime (tv_sec tv_usec : Z) : option native_datetime :=
  _new_CMPIDateTime_fromBinary (u64 (1000000 * u64 tv_sec + u64 tv_usec)) false.

Definition valid_text (s : bytes) : bool :=
  (strlen s =? 25) && match s !! 21%nat with Some c => (c =? 45) || (c =? 43) || (c =? 58) | None => false end.

(** Null, with [CMPI_RC_ERR_INVALID_PARAMETER], for another text. *)
Definition _new_CMPIDateTime_fromChars (string : option bytes) : option (option native_datetime * Z) :=
  match string with
  | Some s =>
      if valid_text s then dt ← __new_datetime s; Some (Some dt, CMPI_RC_OK)
      else Some (None, CMPI_RC_ERR_INVALID_PARAMETER)
  | None => Some (None, CMPI_RC_ERR_INVALID_PARAMETER)
  end.

Definition __dtft_clone (dt : native_datetime) : option native_datetime := __new_datetime dt.
Definition __dtft_getBinaryFormat (dt : native_datetime) : option (Z * Z) := chars2bin z dt.
Definition dateTime2chars (dt : native_datetime) : bytes := dt.
Definition __dtft_getStringFormat (dt : native_datetime) : bytes := dt.
Definition __dtft_isInterval (dt : native_datetime) : option bool := c ← dt !! 21%nat; Some (c =? 58).
End bin2chars.

(** * Properties *)

(** ** Numbers of a fixed width *)

Definition digits (w : nat) (s : bytes) : Prop := length s = w /\ Forall (fun d => 48 <= d <= 57) s.

Lemma digits_val_snoc s d : digits_val (s ++ [d]) = digits_val s * 10 + (d - 48).
Proof. by rewrite digits_val_app. Qed.

Lemma digits_bound s : Forall (fun d => 48 <= d <= 57) s -> 0 <= digits_val s < 10 ^ strlen s.
Proof.
  intros H. induction s as [|d s IH] using rev_ind; [done|]. apply Forall_app in H as [Hs [Hd _]%Forall_cons_1].
  specialize (IH Hs). rewrite digits_val_snoc, strlen_app. change (strlen [d]) with 1.
  rewrite Z.pow_add_r by (try done; apply strlen_nonneg). rewrite Z.pow_1_r. lia.
Qed.

Lemma digits_below w s : digits w s -> 0 <= digits_val s < 10 ^ Z.of_nat w.
Proof. intros [Hl Hs]. pose proof (digits_bound s Hs) as B. unfold strlen in B. by rewrite Hl in B. Qed.
Lemma digits_2 s : digits 2 s -> 0 <= digits_val s < 100.
Proof. apply (digits_below 2). Qed.
Lemma digits_6 s : digits 6 s -> 0 <= digits_val s < 1000000.
Proof. apply (digits_below 6). Qed.
Lemma digits_8 s : digits 8 s -> 0 <= digits_val s < 100000000.
Proof. apply (digits_below 8). Qed.

Lemma digits_inj a b : Forall (fun d => 48 <= d <= 57) a -> Forall (fun d => 48 <= d <= 57) b -> length a = length b ->
  digits_val a = digits_val b -> a = b.
Proof.
  revert b. induction a as [|x a IH] using rev_ind; intros b Ha Hb Hl Hv.
  { by destruct b. }
  destruct b as [|y b _] using rev_ind; [rewrite length_app in Hl; cbn in Hl; lia|].
  apply Forall_app in Ha as [Ha [Hx _]%Forall_cons_1]. apply Forall_app in Hb as [Hb [Hy _]%Forall_cons_1].
  rewrite !length_app in Hl. cbn in Hl. rewrite !digits_val_snoc in Hv. f_equal; [|f_equal; lia].
  apply IH; [done|done|lia|lia].
Qed.

Lemma digits_zeros k s : digits_val (replicate k 48 ++ s) = digits_val s.
Proof.
  rewrite digits_val_app. assert (E : digits_val (replicate k 48) = 0); [|by rewrite E].
  induction k as [|k IH]; [done|]. rewrite replicate_S_end, digits_val_snoc, IH. done.
Qed.

Lemma pad_ok w v : 0 <= v < 10 ^ Z.of_nat w -> (1 <= w)%nat -> digits w (print_dec_pad w v) /\ digits_val (print_dec_pad w v) = v.
Proof.
  intros Hv Hw. destruct (print_dec_ok v) as (E & Hd & _); [lia|]. unfold print_dec_pad, digits.
  rewrite digits_zeros, length_app, length_replicate. pose proof (print_dec_length_lt v (Z.of_nat w) Hv ltac:(lia)) as Hl.
  unfold strlen in Hl. split_and!; [lia| |done]. apply Forall_app. split; [|done]. apply Forall_replicate. lia.
Qed.

Lemma pad_digits w s : digits w s -> (1 <= w)%nat -> print_dec_pad w (digits_val s) = s.
Proof.
  intros [Hl Hd] Hw. pose proof (digits_bound s Hd) as Hb. unfold strlen in Hb. rewrite Hl in Hb.
  destruct (pad_ok w (digits_val s) Hb Hw) as [[Hl' Hd'] E]. apply digits_inj; [done|done|lia|done].
Qed.

Lemma strtoull_digits w s : digits w s -> (1 <= w <= 19)%nat -> strtoull s = digits_val s.
Proof.
  intros [Hl Hd] Hw. unfold strtoull. rewrite <- (app_nil_r s) at 1. rewrite scan_number_digits; [|done| |done].
  - pose proof (digits_bound s Hd) as Hb. unfold strlen in Hb. rewrite Hl in Hb.
    assert (10 ^ Z.of_nat w <= 10 ^ 19) by (apply Z.pow_le_mono_r; lia).
    rewrite (proj2 (Z.leb_gt _ _)); [done|]. lia.
  - intros ->. cbn in Hl. lia.
Qed.

Lemma atoi_digits w s rest : digits w s -> (1 <= w <= 9)%nat -> isdigit (at0 rest) = false -> atoi (s ++ rest) = digits_val s.
Proof.
  intros [Hl Hd] Hw Hr. unfold atoi, strtol. rewrite scan_number_digits; [|done| |done].
  - pose proof (digits_bound s Hd) as Hb. unfold strlen in Hb. rewrite Hl in Hb.
    assert (10 ^ Z.of_nat w <= 10 ^ 9) by (apply Z.pow_le_mono_r; lia). rewrite Z.min_l by lia. apply wraps_small; lia.
  - intros ->. cbn in Hl. lia.
Qed.

(** ** The fields of a text *)

Lemma field_mid a b c n m : length a = n -> (n + length b = m)%nat -> field (a ++ b ++ c) n m = b.
Proof.
  intros <- <-. unfold field. rewrite take_app_add, drop_app_length. by rewrite take_app_length.
Qed.

(** Seconds of the day. *)
Definition day_seconds (h m s : Z) : Z := h * 3600 + m * 60 + s.

Section fields.
Context (ds hs ms ss us rs : bytes) (c : Z).
Context (HD : digits 8 ds) (HH : digits 2 hs) (HM : digits 2 ms) (HS : digits 2 ss) (HU : digits 6 us).
Definition date_text : bytes := ds ++ hs ++ ms ++ ss ++ [46] ++ us ++ c :: rs.

Lemma lengths : length ds = 8%nat /\ length hs = 2%nat /\ length ms = 2%nat /\ length ss = 2%nat /\ length us = 6%nat.
Proof. split_and!; [apply HD|apply HH|apply HM|apply HS|apply HU]. Qed.

Ltac widths := destruct lengths as (-> & -> & -> & -> & ->).
Ltac at_field pre := apply (field_mid pre); rewrite ?length_app; cbn [length]; destruct lengths as (? & ? & ? & ? & ?); lia.

Lemma text_kind : date_text !! 21%nat = Some c.
Proof.
  unfold date_text. replace (ds ++ hs ++ ms ++ ss ++ [46] ++ us ++ c :: rs) with ((ds ++ hs ++ ms ++ ss ++ [46] ++ us) ++ c :: rs)
    by (by rewrite <- !app_assoc). rewrite lookup_app_r; rewrite ?length_app; cbn [length];
    widths; [done|lia].
Qed.
Lemma text_offset : drop 21 date_text = c :: rs.
Proof.
  unfold date_text. replace (ds ++ hs ++ ms ++ ss ++ [46] ++ us ++ c :: rs) with ((ds ++ hs ++ ms ++ ss ++ [46] ++ us) ++ c :: rs)
    by (by rewrite <- !app_assoc). apply drop_app_length'. rewrite !length_app. cbn [length].
  by widths.
Qed.
Lemma text_usecs : field date_text 15 21 = us.
Proof.
  unfold date_text. replace (ds ++ hs ++ ms ++ ss ++ [46] ++ us ++ c :: rs) with ((ds ++ hs ++ ms ++ ss ++ [46]) ++ us ++ c :: rs)
    by (by rewrite <- !app_assoc). at_field (ds ++ hs ++ ms ++ ss ++ [46]).
Qed.
Lemma text_secs : field date_text 12 14 = ss.
Proof.
  unfold date_text. replace (ds ++ hs ++ ms ++ ss ++ [46] ++ us ++ c :: rs) with ((ds ++ hs ++ ms) ++ ss ++ [46] ++ us ++ c :: rs)
    by (by rewrite <- !app_assoc). at_field (ds ++ hs ++ ms).
Qed.
Lemma text_mins : field date_text 10 12 = ms.
Proof.
  unfold date_text. replace (ds ++ hs ++ ms ++ ss ++ [46] ++ us ++ c :: rs) with ((ds ++ hs) ++ ms ++ ss ++ [46] ++ us ++ c :: rs)
    by (by rewrite <- !app_assoc). at_field (ds ++ hs).
Qed.
Lemma text_hours : field date_text 8 10 = hs.
Proof. unfold date_text. at_field ds. Qed.
Lemma text_days : field date_text 0 8 = ds.
Proof. unfold date_text. at_field (@nil Z). Qed.

Lemma text_seconds : fields_seconds date_text = day_seconds (digits_val hs) (digits_val ms) (digits_val ss).
Proof.
  unfold fields_seconds. rewrite text_secs, text_mins, text_hours.
  rewrite !(strtoull_digits 2) by (done || lia). unfold day_seconds.
  pose proof (digits_2 hs HH). pose proof (digits_2 ms HM). pose proof (digits_2 ss HS).
  rewrite (wrapu_small 64 (_ + _ * 60)) by lia. rewrite wrapu_small by lia. lia.
Qed.
End fields.

(** ** Intervals *)

Definition interval_text (days hours mins secs usecs : bytes) : bytes :=
  date_text days hours mins secs usecs (cstr "000") 58.

Definition interval_value (d h m s u : Z) : Z := (d * 86400 + day_seconds h m s) * 1000000 + u.

Lemma chars2bin_interval z D H M S U : digits 8 D -> digits 2 H -> digits 2 M -> digits 2 S -> digits 6 U ->
  chars2bin z (interval_text D H M S U) =
  Some (interval_value (digits_val D) (digits_val H) (digits_val M) (digits_val S) (digits_val U), CMPI_RC_OK).
Proof.
  intros HD HH HM HS HU. unfold chars2bin, interval_text.
  rewrite text_kind, text_usecs, text_days, text_seconds by done. cbn [mbind option_bind Z.eqb Pos.eqb orb].
  rewrite (strtoull_digits 6 U), (strtoull_digits 8 D) by (done || lia).
  pose proof (digits_8 _ HD). pose proof (digits_2 _ HH). pose proof (digits_2 _ HM). pose proof (digits_2 _ HS).
  pose proof (digits_6 _ HU). unfold interval_value, day_seconds in *. do 2 f_equal.
  rewrite (wrapu_small 64 (_ + _ * 86400)) by lia. rewrite wrapu_small by lia. lia.
Qed.

Lemma bin2chars_interval z d h m s u : 0 <= d -> 0 <= h < 24 -> 0 <= m < 60 -> 0 <= s < 60 -> 0 <= u < 1000000 ->
  bin2chars z (interval_value d h m s u) true =
  Some (interval_text (print_dec_pad 8 (Z.min d day_limit)) (print_dec_pad 2 h) (print_dec_pad 2 m) (print_dec_pad 2 s) (print_dec_pad 6 u)).
Proof.
  intros Hd Hh Hm Hs Hu. unfold bin2chars, interval_value, day_seconds.
  assert (E1 : ((d * 86400 + (h * 3600 + m * 60 + s)) * 1000000 + u) / 1000000 = ((d * 24 + h) * 60 + m) * 60 + s)
    by (symmetry; apply (Z.div_unique_pos _ _ _ u); lia).
  assert (E2 : ((d * 86400 + (h * 3600 + m * 60 + s)) * 1000000 + u) mod 1000000 = u)
    by (symmetry; apply (Z.mod_unique_pos _ _ (((d * 24 + h) * 60 + m) * 60 + s)); lia).
  rewrite E1, E2.
  replace ((((d * 24 + h) * 60 + m) * 60 + s) / 60) with ((d * 24 + h) * 60 + m) by (apply (Z.div_unique_pos _ _ _ s); lia).
  replace ((((d * 24 + h) * 60 + m) * 60 + s) mod 60) with s by (apply (Z.mod_unique_pos _ _ ((d * 24 + h) * 60 + m)); lia).
  replace (((d * 24 + h) * 60 + m) / 60) with (d * 24 + h) by (apply (Z.div_unique_pos _ _ _ m); lia).
  replace (((d * 24 + h) * 60 + m) mod 60) with m by (apply (Z.mod_unique_pos _ _ (d * 24 + h)); lia).
  replace ((d * 24 + h) / 24) with d by (apply (Z.div_unique_pos _ _ _ h); lia).
  replace ((d * 24 + h) mod 24) with h by (apply (Z.mod_unique_pos _ _ d); lia).
  replace (if day_limit <? d then day_limit else d) with (Z.min d day_limit) by (case_zbool; lia).
  unfold interval_text, date_text. done.
Qed.

Definition day_usecs : Z := 86400000000.
Definition saturated (msecs : Z) : Z :=
  if msecs / day_usecs <=? day_limit then msecs else day_limit * day_usecs + msecs mod day_usecs.

Lemma interval_text_valid D H M S U : digits 8 D -> digits 2 H -> digits 2 M -> digits 2 S -> digits 6 U ->
  valid_text (interval_text D H M S U) = true.
Proof.
  intros HD HH HM HS HU. unfold valid_text, interval_text. rewrite text_kind by done.
  apply andb_true_iff. split; [|done]. apply Z.eqb_eq. unfold date_text, strlen. rewrite !length_app. cbn [length].
  destruct HD as [-> _], HH as [-> _], HM as [-> _], HS as [-> _], HU as [-> _]. done.
Qed.

Lemma split_usecs msecs : 0 <= msecs -> exists d h m s u, msecs = interval_value d h m s u /\ d = msecs / day_usecs /\
  msecs mod day_usecs = interval_value 0 h m s u /\ 0 <= d /\ 0 <= h < 24 /\ 0 <= m < 60 /\ 0 <= s < 60 /\ 0 <= u < 1000000.
Proof.
  intros Hm. unfold interval_value, day_seconds, day_usecs.
  set (r := msecs mod 86400000000). set (secs := r / 1000000).
  pose proof (Z.mod_pos_bound msecs 86400000000 ltac:(lia)) as Hr. pose proof (Z.div_mod msecs 86400000000 ltac:(lia)) as Em.
  fold r in Hr, Em. pose proof (Z.div_mod r 1000000 ltac:(lia)) as Er. pose proof (Z.mod_pos_bound r 1000000 ltac:(lia)).
  fold secs in Er. assert (0 <= secs < 86400) by (unfold secs; split; [apply Z.div_pos; lia|apply Z.div_lt_upper_bound; lia]).
  pose proof (Z.div_mod secs 60 ltac:(lia)). pose proof (Z.mod_pos_bound secs 60 ltac:(lia)).
  pose proof (Z.div_mod (secs / 60) 60 ltac:(lia)). pose proof (Z.mod_pos_bound (secs / 60) 60 ltac:(lia)).
  exists (msecs / 86400000000), (secs / 60 / 60), (secs / 60 mod 60), (secs mod 60), (r mod 1000000).
  assert (0 <= msecs / 86400000000) by (apply Z.div_pos; lia).
  split_and!; lia.
Qed.

(** intervals survive: the text of an interval is read and printed again as it is, and
    microseconds that are printed as an interval are read as they are, with more than
    99999999 days cut down to as many. *)
Theorem interval_roundtrip z :
  (forall D H M S U, digits 8 D -> digits 2 H -> digits 2 M -> digits 2 S -> digits 6 U ->
     digits_val H < 24 -> digits_val M < 60 -> digits_val S < 60 ->
     exists v, chars2bin z (interval_text D H M S U) = Some (v, CMPI_RC_OK) /\
       bin2chars z v true = Some (interval_text D H M S U)) /\
  (forall msecs, 0 <= msecs ->
     exists s, bin2chars z msecs true = Some s /\ valid_text s = true /\
       chars2bin z s = Some (saturated msecs, CMPI_RC_OK)).
Proof.
  split.
  - intros D H M S U HD HH HM HS HU Hh Hm Hs. eexists. split; [by apply chars2bin_interval|].
    pose proof (digits_8 _ HD). pose proof (digits_2 _ HH). pose proof (digits_2 _ HM). pose proof (digits_2 _ HS).
    pose proof (digits_6 _ HU). rewrite bin2chars_interval by lia. rewrite Z.min_l by (unfold day_limit; lia).
    rewrite !pad_digits by (done || lia). done.
  - intros msecs Hm. destruct (split_usecs msecs Hm) as (d & h & m & s & u & E & Ed & Er & Hd & Hh & Hmi & Hs & Hu).
    assert (Hd' : 0 <= Z.min d day_limit <= day_limit) by (unfold day_limit; lia).
    assert (Bw : forall w v, 0 <= v < 10 ^ Z.of_nat w -> (1 <= w)%nat -> digits w (print_dec_pad w v)) by (intros; by apply pad_ok).
    rewrite E, bin2chars_interval by done. eexists. split; [done|].
    unfold day_limit in *. split; [apply interval_text_valid; apply Bw; cbn; lia|].
    rewrite chars2bin_interval by (apply Bw; cbn; lia). do 2 f_equal.
    rewrite !(fun w v H1 H2 => proj2 (pad_ok w v H1 H2)) by (cbn; lia).
    rewrite <- E. unfold saturated, day_limit. rewrite <- Ed. destruct (Z.leb_spec d 99999999) as [Hl|Hl].
    + rewrite Z.min_l by done. done.
    + rewrite Z.min_r by lia. rewrite Er. unfold interval_value, day_usecs. lia.
Qed.

Definition wit_zone : zone := {| timezone := -3600; daylight := false; dst_at := fun _ => false |}.

Lemma interval_roundtrip_witness :
  (exists v, chars2bin wit_zone (interval_text (cstr "00000012") (cstr "03") (cstr "04") (cstr "05") (cstr "000006")) =
     Some (v, CMPI_RC_OK) /\
     bin2chars wit_zone v true = Some (interval_text (cstr "00000012") (cstr "03") (cstr "04") (cstr "05") (cstr "000006"))) /\
  (exists s, bin2chars wit_zone 5 true = Some s /\ valid_text s = true /\
     chars2bin wit_zone s = Some (saturated 5, CMPI_RC_OK)).
Proof.
  destruct (interval_roundtrip wit_zone) as [H1 H2]. split; [|apply H2; lia].
  apply H1; try (split; [vm_compute; reflexivity|repeat (constructor; [vm_compute; split; discriminate|]); constructor]);
    vm_compute; reflexivity.
Defined.

(** ** The calendar *)

Definition day_of_year (doe : Z) : Z := let yoe := year_of_era doe in doe - (365 * yoe + yoe / 4 - yoe / 100).

Lemma era_day doe : 0 <= doe < 146097 -> 0 <= year_of_era doe < 400 /\ 0 <= day_of_year doe < 366.
Proof.
  intros H. unfold day_of_year, year_of_era. cbv zeta. split; split; Z.to_euclidean_division_equations; lia.
Qed.

Lemma date_roundtrip days y m d : date_of_days days = (y, m, d) ->
  days_of_date y m d = days /\ 0 <= m < 12 /\ 1 <= d <= 31.
Proof.
  unfold date_of_days. set (z := days + 719468). set (doe := z mod 146097). set (yoe := year_of_era doe).
  set (doy := doe - (365 * yoe + yoe / 4 - yoe / 100)). set (mp := (5 * doy + 2) / 153).
  pose proof (Z.mod_pos_bound z 146097 ltac:(lia)) as Hdoe. fold doe in Hdoe.
  destruct (era_day doe Hdoe) as [Hyoe Hdoy]. fold yoe in Hyoe. change (day_of_year doe) with doy in Hdoy.
  assert (Hmp : 153 * mp <= 5 * doy + 2 < 153 * mp + 153).
  { unfold mp. pose proof (Z.div_mod (5 * doy + 2) 153 ltac:(lia)). pose proof (Z.mod_pos_bound (5 * doy + 2) 153 ltac:(lia)). lia. }
  intros [= <- <- <-].
  pose proof (Z.div_mod (153 * mp + 2) 5 ltac:(lia)). pose proof (Z.mod_pos_bound (153 * mp + 2) 5 ltac:(lia)).
  assert (Ez : z = (z / 146097) * 146097 + doe) by (unfold doe; pose proof (Z.div_mod z 146097 ltac:(lia)); lia).
  assert (Hm : forall e, let mon := if mp <? 10 then mp + 2 else mp - 10 in 0 <= mon < 12 /\ (mon + 10) mod 12 = mp /\
    (if mon <? 2 then e + (if mon <? 2 then 1 else 0) - 1 else e + (if mon <? 2 then 1 else 0)) = e).
  { intros e mon. unfold mon. destruct (Z.ltb_spec mp 10).
    - rewrite (proj2 (Z.ltb_ge (mp + 2) 2)) by lia. split_and!; [lia|lia| |lia].
      symmetry. apply (Z.mod_unique_pos _ _ 1); lia.
    - rewrite (proj2 (Z.ltb_lt (mp - 10) 2)) by lia. split_and!; [lia|lia| |lia].
      symmetry. apply (Z.mod_unique_pos _ _ 0); lia. }
  cbv zeta in Hm. set (mon := if mp <? 10 then mp + 2 else mp - 10) in *. destruct (Hm (yoe + z / 146097 * 400)) as (Hmon & Emp & Ey).
  split; [|split; lia]. unfold days_of_date. rewrite (Z.div_small mon), (Z.mod_small mon), Z.add_0_r by done.
  rewrite Emp, Ey.
  replace ((yoe + z / 146097 * 400) / 400) with (z / 146097) by (apply (Z.div_unique_pos _ _ _ yoe); lia).
  replace ((yoe + z / 146097 * 400) mod 400) with yoe by (apply (Z.mod_unique_pos _ _ (z / 146097)); lia).
  unfold z in *. unfold doy in *. lia.
Qed.

(** ** Absolute times *)

Lemma atoi_signed c s : digits 3 s -> c = 43 \/ c = 45 -> atoi (c :: s) = if c =? 45 then - digits_val s else digits_val s.
Proof.
  intros [Hl Hd] Hc. unfold atoi, strtol.
  assert (E : scan_number (c :: s) = (c =? 45, digits_val s)).
  { pose proof (take_digits_app s [] Hd eq_refl) as Et. rewrite app_nil_r in Et. by destruct Hc as [-> | ->]; cbn; rewrite Et. }
  rewrite E. pose proof (digits_below 3 s (conj Hl Hd)) as B. cbn in B.
  destruct Hc as [-> | ->]; cbn [Z.eqb Pos.eqb]; [rewrite Z.min_l by lia|rewrite Z.max_l by lia]; apply wraps_small; lia.
Qed.

(** The text of a date, a time of day and an offset in minutes. *)
Definition absolute_text (y mon d h m s u : Z) (offset : Z) : bytes :=
  date_text (print_dec_pad 4 y ++ print_dec_pad 2 (mon + 1) ++ print_dec_pad 2 d) (print_dec_pad 2 h) (print_dec_pad 2 m)
    (print_dec_pad 2 s) (print_dec_pad 6 u) (print_dec_pad 3 (Z.abs offset)) (if offset <? 0 then 45 else 43).

Lemma digits_app a b s t : digits a s -> digits b t -> digits (a + b) (s ++ t).
Proof. intros [<- Hs] [<- Ht]. split; [by rewrite length_app|by apply Forall_app]. Qed.

Lemma pad_digits_of w v : 0 <= v < 10 ^ Z.of_nat w -> (1 <= w)%nat -> digits w (print_dec_pad w v).
Proof. intros. by apply pad_ok. Qed.
Lemma pad_value w v : 0 <= v < 10 ^ Z.of_nat w -> (1 <= w)%nat -> digits_val (print_dec_pad w v) = v.
Proof. intros. by apply pad_ok. Qed.

Lemma print_year y : 1000 <= y <= 9999 -> print_dec y = print_dec_pad 4 y.
Proof.
  intros Hy. unfold print_dec_pad. pose proof (print_dec_length y ltac:(lia)) as [Hl _].
  assert (E : (4 - length (print_dec y))%nat = 0%nat); [|by rewrite E].
  destruct (le_lt_dec 4 (length (print_dec y))) as [|Hlt]; [lia|]. exfalso. unfold strlen in Hl.
  assert (10 ^ Z.of_nat (length (print_dec y)) <= 10 ^ 3) by (apply Z.pow_le_mono_r; lia). lia.
Qed.

(** What [bin2chars] needs of the fields. *)
Record tm_ok (t : tm) : Prop := {
  ok_year : 1000 <= tm_year t + 1900 <= 9999;
  ok_mon : 0 <= tm_mon t < 12;
  ok_mday : 1 <= tm_mday t <= 31;
  ok_hour : 0 <= tm_hour t < 24;
  ok_min : 0 <= tm_min t < 60;
  ok_sec : 0 <= tm_sec t < 60
}.

Definition offset_of (z : zone) (t : tm) : Z := (if tm_isdst t =? 0 then 0 else 60) - Z.quot (timezone z) 60.

Lemma timestamp_text_ok z t u : tm_ok t -> 0 <= u < 1000000 -> -1000 < offset_of z t < 1000 ->
  timestamp_text z t u = Some (absolute_text (tm_year t + 1900) (tm_mon t) (tm_mday t) (tm_hour t) (tm_min t) (tm_sec t) u (offset_of z t)).
Proof.
  intros [Hy Hmo Hd Hh Hm Hs] Hu Ho. unfold timestamp_text. fold (offset_of z t). rewrite print_year by done.
  destruct (pad_digits_of 6 u ltac:(cbn; lia) ltac:(lia)) as [L6 _].
  destruct (pad_digits_of 3 (Z.abs (offset_of z t)) ltac:(cbn; lia) ltac:(lia)) as [L3 _].
  assert (E : take 10 (print_dec_pad 6 u ++ print_offset (offset_of z t)) = print_dec_pad 6 u ++ print_offset (offset_of z t)).
  { apply take_ge. rewrite length_app, L6. unfold print_offset. cbn [length]. rewrite L3. lia. }
  rewrite E. destruct (pad_digits_of 4 (tm_year t + 1900) ltac:(cbn; lia) ltac:(lia)) as [L4 _].
  destruct (pad_digits_of 2 (tm_mon t + 1) ltac:(cbn; lia) ltac:(lia)) as [L2 _].
  destruct (pad_digits_of 2 (tm_mday t) ltac:(cbn; lia) ltac:(lia)) as [L2' _].
  destruct (pad_digits_of 2 (tm_hour t) ltac:(cbn; lia) ltac:(lia)) as [Lh _].
  destruct (pad_digits_of 2 (tm_min t) ltac:(cbn; lia) ltac:(lia)) as [Lm _].
  destruct (pad_digits_of 2 (tm_sec t) ltac:(cbn; lia) ltac:(lia)) as [Ls _].
  unfold strlen. rewrite !length_app, L4, L2, L2', Lh, Lm, Ls, L6. unfold print_offset. cbn [length]. rewrite L3.
  cbn [Nat.add Z.of_nat Pos.of_succ_nat Pos.succ Z.ltb Z.compare Pos.compare Pos.compare_cont].
  unfold absolute_text, date_text. by rewrite <- !app_assoc.
Qed.

Lemma u64_add a b k : u64 (u64 a + u64 b * k) = u64 (a + b * k).
Proof.
  unfold wrapu. rewrite Z.add_mod_idemp_l by done. rewrite <- (Z.add_mod_idemp_r _ (b mod 2 ^ 64 * k)) by done.
  rewrite Z.mul_mod_idemp_l, Z.add_mod_idemp_r by done. done.
Qed.
Lemma u64_sub a b k : u64 (u64 a - u64 b * k) = u64 (a - b * k).
Proof.
  unfold wrapu. rewrite Zminus_mod_idemp_l. rewrite <- (Zminus_mod_idemp_r _ (b mod 2 ^ 64 * k)).
  rewrite Z.mul_mod_idemp_l by done. by rewrite Zminus_mod_idemp_r.
Qed.

Lemma atoi_all w s : digits w s -> (1 <= w <= 9)%nat -> atoi s = digits_val s.
Proof. intros H Hw. pose proof (atoi_digits w s [] H Hw eq_refl) as E. by rewrite app_nil_r in E. Qed.

Lemma date_fields y m d : digits 4 y -> digits 2 m -> digits 2 d ->
  field (y ++ m ++ d) 0 4 = y /\ field (y ++ m ++ d) 4 6 = m /\ field (y ++ m ++ d) 6 8 = d.
Proof.
  intros [Ly _] [Lm _] [Ld _]. split_and!.
  - by apply (field_mid []).
  - apply field_mid; [done|by rewrite Lm].
  - rewrite <- (app_nil_r d) at 1. rewrite app_assoc. apply field_mid; [by rewrite length_app, Ly, Lm|by rewrite Ld].
Qed.

Lemma chars2bin_absolute z y mon d h m s u offset : 1000 <= y <= 9999 -> 0 <= mon < 12 -> 1 <= d <= 31 ->
  0 <= h < 24 -> 0 <= m < 60 -> 0 <= s < 60 -> 0 <= u < 1000000 -> -1000 < offset < 1000 ->
  exists rc, chars2bin z (absolute_text y mon d h m s u offset) =
    Some (u64 (u + day_seconds h m s * 1000000 +
               (days_of_date y mon d * 86400 + timezone z - dst_seconds (daylight z)) * 1000000 - offset * 60 * 1000000), rc).
Proof.
  intros Hy Hmo Hd Hh Hm Hs Hu Ho. unfold absolute_text.
  pose proof (pad_digits_of 4 y ltac:(cbn; lia) ltac:(lia)) as D4. pose proof (pad_digits_of 2 (mon + 1) ltac:(cbn; lia) ltac:(lia)) as D2.
  pose proof (pad_digits_of 2 d ltac:(cbn; lia) ltac:(lia)) as D2'. pose proof (pad_digits_of 2 h ltac:(cbn; lia) ltac:(lia)) as Dh.
  pose proof (pad_digits_of 2 m ltac:(cbn; lia) ltac:(lia)) as Dm. pose proof (pad_digits_of 2 s ltac:(cbn; lia) ltac:(lia)) as Ds.
  pose proof (pad_digits_of 6 u ltac:(cbn; lia) ltac:(lia)) as D6. pose proof (pad_digits_of 3 (Z.abs offset) ltac:(cbn; lia) ltac:(lia)) as D3.
  pose proof (digits_app _ _ _ _ D4 (digits_app _ _ _ _ D2 D2')) as D8.
  set (c := if offset <? 0 then 45 else 43). assert (Hc : c = 43 \/ c = 45) by (unfold c; destruct (offset <? 0); auto).
  unfold chars2bin. rewrite text_kind, text_usecs, text_seconds, text_offset by done. cbn [mbind option_bind].
  rewrite atoi_signed, (strtoull_digits 6) by (done || lia). rewrite !pad_value by (cbn; lia).
  assert (Eo : (if c =? 45 then - Z.abs offset else Z.abs offset) = offset).
  { unfold c. destruct (Z.ltb_spec offset 0); cbn [Z.eqb Pos.eqb]; lia. }
  rewrite Eo. replace ((c =? 43) || (c =? 45)) with true by (destruct Hc as [-> | ->]; done).
  replace (c =? 58) with false by (destruct Hc as [-> | ->]; done).
  assert (F : forall a b, (b <= 8)%nat -> field (date_text (print_dec_pad 4 y ++ print_dec_pad 2 (mon + 1) ++ print_dec_pad 2 d)
    (print_dec_pad 2 h) (print_dec_pad 2 m) (print_dec_pad 2 s) (print_dec_pad 6 u) (print_dec_pad 3 (Z.abs offset)) c) a b =
    field (print_dec_pad 4 y ++ print_dec_pad 2 (mon + 1) ++ print_dec_pad 2 d) a b).
  { intros a b Hb. unfold field, date_text. rewrite take_app_le; [done|]. destruct D8 as [-> _]. lia. }
  rewrite !F by lia.
  destruct (date_fields _ _ _ D4 D2 D2') as (F1 & F2 & F3). rewrite F1, F2, F3.
  rewrite (atoi_all 4), (atoi_all 2 (print_dec_pad 2 (mon + 1))), (atoi_all 2 (print_dec_pad 2 d)) by (done || lia).
  rewrite !pad_value by (cbn; lia). rewrite !wraps_small by lia.
  eexists. do 2 f_equal. unfold mktime. cbn [tm_year tm_mon tm_mday tm_hour tm_min tm_sec tm_isdst].
  replace (y - 1900 + 1900) with y by lia. replace (mon + 1 - 1) with mon by lia.
  replace (0 <? (if daylight z then 1 else 0)) with (daylight z) by (by destruct (daylight z)).
  assert (Es : s32 (u64 (offset * 60)) = offset * 60).
  { unfold wrapu, wraps. rewrite Z.mod_mod_divide by (by exists (2 ^ 32)).
    fold (s32 (offset * 60)). apply wraps_small; lia. }
  rewrite Es, u64_add, u64_sub. f_equal. lia.
Qed.

Definition year_of (z : zone) (secs : Z) : Z := tm_year (localtime_r z secs) + 1900.

(** Daylight saving time in effect means that the zone has it. *)
Definition zone_ok (z : zone) : Prop :=
  (forall t, dst_at z t = true -> daylight z = true) /\ exists k, timezone z = 60 * k /\ -900 < k < 900.

(** the microseconds of an absolute time are not what it was made of: both [mktime] and
    the offset in the text are applied, so that the result is off by the offset of the
    zone, and by the hour of daylight saving time where there is such a thing.  Only in a
    zone without either is it the same. *)
Theorem timestamp_shifted z msecs : zone_ok z -> 0 <= msecs -> 1000 <= year_of z (msecs / 1000000) <= 9999 ->
  exists s rc, bin2chars z msecs false = Some s /\
    chars2bin z s = Some (u64 (msecs + (timezone z - dst_seconds (daylight z)) * 1000000), rc).
Proof.
  intros [Hdst (k & Hk & Hkb)] Hm Hy. unfold bin2chars. set (secs := msecs / 1000000) in *.
  set (local := secs - timezone z + dst_seconds (dst_at z secs)).
  destruct (date_of_days (local / 86400)) as [[y mon] d] eqn:Ed.
  destruct (date_roundtrip _ _ _ _ Ed) as (Edays & Hmon & Hd).
  pose proof (Z.mod_pos_bound local 86400 ltac:(lia)) as Hs. pose proof (Z.div_mod local 86400 ltac:(lia)) as El.
  assert (Et : localtime_r z secs = {| tm_year := y - 1900; tm_mon := mon; tm_mday := d; tm_hour := local mod 86400 / 3600;
    tm_min := local mod 86400 / 60 mod 60; tm_sec := local mod 86400 mod 60; tm_isdst := if dst_at z secs then 1 else 0 |}).
  { unfold localtime_r. fold local. by rewrite Ed. }
  unfold year_of in Hy. rewrite Et in Hy |- *. cbn [tm_year] in Hy.
  set (sd := local mod 86400) in *.
  assert (0 <= sd / 3600 < 24) by (split; [apply Z.div_pos; lia|apply Z.div_lt_upper_bound; lia]).
  pose proof (Z.mod_pos_bound (sd / 60) 60 ltac:(lia)). pose proof (Z.mod_pos_bound sd 60 ltac:(lia)).
  pose proof (Z.div_mod sd 60 ltac:(lia)). pose proof (Z.div_mod (sd / 60) 60 ltac:(lia)).
  assert (sd / 60 / 60 = sd / 3600) by (by rewrite Z.div_div).
  pose proof (Z.mod_pos_bound msecs 1000000 ltac:(lia)). pose proof (Z.div_mod msecs 1000000 ltac:(lia)).
  assert (Eo : forall t, offset_of z t = (if tm_isdst t =? 0 then 0 else 60) - k).
  { intros t. unfold offset_of. by rewrite Hk, Z.mul_comm, Z.quot_mul. }
  rewrite timestamp_text_ok; [|split; cbn; lia|lia|rewrite Eo; destruct (_ =? 0); lia].
  cbn [tm_year tm_mon tm_mday tm_hour tm_min tm_sec tm_isdst]. rewrite Eo. cbn [tm_isdst].
  set (off := (if (if dst_at z secs then 1 else 0) =? 0 then 0 else 60) - k).
  assert (Hoff : off * 60 = dst_seconds (dst_at z secs) - timezone z) by (unfold off; destruct (dst_at z secs); cbn; lia).
  replace (y - 1900 + 1900) with y by lia.
  destruct (chars2bin_absolute z y mon d (sd / 3600) (sd / 60 mod 60) (sd mod 60) (msecs mod 1000000) off) as [rc E]; try lia.
  { unfold off. destruct (dst_at z secs); cbn; lia. }
  exists (absolute_text y mon d (sd / 3600) (sd / 60 mod 60) (sd mod 60) (msecs mod 1000000) off), rc. split; [done|].
  rewrite E. do 3 f_equal. rewrite Edays, Hoff. unfold day_seconds.
  assert (local = secs - timezone z + dst_seconds (dst_at z secs)) by done. lia.
Qed.

Lemma timestamp_shifted_witness : exists s rc, bin2chars wit_zone 1714560000123456 false = Some s /\
  chars2bin wit_zone s = Some (1714560000123456 - 3600 * 1000000, rc).
Proof.
  destruct (timestamp_shifted wit_zone 1714560000123456) as (s & rc & H1 & H2).
  - split; [discriminate|]. exists (-60). split; [reflexivity|lia].
  - discriminate.
  - vm_compute. split; discriminate.
  - exists s, rc. split; [exact H1|]. rewrite H2. reflexivity.
Defined.
