(* ===== verification/Messages.v ===== *)
(** * Messages between broker and providers (providerMgr.c, providerDrv.c, msgqueue.c)

    A request or a response is a header with a table of segments, followed by the bytes
    of the segments: texts with their NUL, padded to whole integers, and serialized
    objects.  A segment says where its bytes are, counted from the start of the message;
    the receiver adds the address of the message.  Modelled are the two functions that
    make a message ([intInvokeProvider] for a request, [makeSafeResponse] for a response)
    and what the other side finds in it. *)

From S2P Require Import Prelude CString.

(** ** Segments *)

Inductive object_type := OBJECTPATH | INSTANCE | CONSTCLASS | ARGS | QUALIFIER.
Inductive segment_type := MSG_SEG_CHARS | MSG_SEG_OBJECT (t : object_type).

Record MsgSegment := { data : Z; type : segment_type; length : Z }.

(** What is sent: a text, which may be null, or the bytes of a serialized object. *)
Inductive content := Chars (s : option bytes) | Serialized (t : object_type) (b : bytes).

Definition content_type (c : content) : segment_type :=
  match c with Chars _ => MSG_SEG_CHARS | Serialized t _ => MSG_SEG_OBJECT t end.
Definition content_bytes (c : content) : bytes :=
  match c with Chars (Some s) => s ++ [0] | Chars None => [] | Serialized _ b => b end.

(** The length a segment is given ([setCharsMsgSegment] and the like). *)
Definition segment_length (c : content) : Z := u32 (strlen (content_bytes c)).

Definition PADDING_LEN (s : Z) : Z := if s mod 4 =? 0 then 0 else 4 - s mod 4.
Definition PADDED_LEN (s : Z) : Z := s + PADDING_LEN s.

Definition wire_length (c : content) (ol : Z) : Z :=
  match c with Chars _ => PADDED_LEN ol | Serialized _ _ => ol end.

(** ** Making a message *)

Record message := { header : Z; segments : list MsgSegment; rvEnc : MsgSegment; body : bytes }.

Definition no_segment : MsgSegment := {| data := 0; type := MSG_SEG_CHARS; length := 0 |}.

Section making.
(** What is in the bytes that are not written. *)
Context (junk : Z -> bytes).

(** The loop over the segments; [l] is where the next one goes.  A negative length is
    taken for a huge one by [memcpy]. *)
Fixpoint lay (l : Z) (cs : list content) : option (list MsgSegment * bytes) :=
  match cs with
  | [] => Some ([], [])
  | c :: cs =>
      let ol := s32 (segment_length c) in
      if ol <? 0 then None
      else
        let w := wire_length c ol in
        '(segs, b) ← lay (l + w) cs;
        Some ({| data := l; type := content_type c; length := w |} :: segs, content_bytes c ++ junk (w - ol) ++ b)
  end.

(** The request that [intInvokeProvider] sends, with a header of [size] bytes. *)
Definition request_buffer (size : Z) (cs : list content) : option message :=
  '(segs, b) ← lay size cs; Some {| header := size; segments := segs; rvEnc := no_segment; body := b |}.

(** The value a method returns, as far as it is sent in a segment. *)
Inductive return_value := NoText | Text (s : option bytes) | Date (cimDt : bytes).

(** The segment of the value and its bytes; it is not padded. *)
Definition return_segment (rv : return_value) : option (MsgSegment * bytes) :=
  match rv with
  | NoText => Some (no_segment, [])
  | Text s => Some ({| data := 0; type := MSG_SEG_CHARS; length := segment_length (Chars s) |}, content_bytes (Chars s))
  | Date s => if strlen s <? 26 then Some ({| data := 0; type := MSG_SEG_CHARS; length := 26 |}, s ++ [0] ++ junk (25 - strlen s))
              else None
  end.

Definition makeSafeResponse (size : Z) (rv : return_value) (cs : list content) : option message :=
  '(rvEnc, b) ← return_segment rv;
  let rvl := s32 (length rvEnc) in
  if rvl <? 0 then None
  else if rvl =? 0 then
    '(segs, bs) ← lay size cs; Some {| header := size; segments := segs; rvEnc := rvEnc; body := bs |}
  else
    '(segs, bs) ← lay (size + rvl) cs;
    Some {| header := size; segments := segs;
            rvEnc := {| data := size; type := type rvEnc; length := length rvEnc |}; body := b ++ bs |}.
End making.

(** ** Receiving a message *)

(** The bytes from a place in the message on; places in the header are not modelled. *)
Definition from_place (m : message) (place : Z) : option bytes :=
  if (header m <=? place) && (place <=? header m + strlen (body m)) then Some (drop (Z.to_nat (place - header m)) (body m))
  else None.

(** A text at a place of the memory. *)
Fixpoint text_at (b : bytes) : option bytes :=
  match b with [] => None | c :: b => if c =? 0 then Some [] else s ← text_at b; Some (c :: s) end.

Definition read_chars (m : message) (place : Z) : option content :=
  b ← from_place m place; s ← text_at b; Some (Chars (Some s)).
Definition read_object (m : message) (t : object_type) (place len : Z) : option content :=
  b ← from_place m place; if strlen b <? len then None else Some (Serialized t (take (Z.to_nat len) b)).

(** In the provider: an empty text is null; an empty object is left as an offset. *)
Definition request_segment (m : message) (s : MsgSegment) : option content :=
  match type s with
  | MSG_SEG_CHARS => if length s =? 0 then Some (Chars None) else read_chars m (data s)
  | MSG_SEG_OBJECT t => if length s =? 0 then None else read_object m t (data s) (length s)
  end.
Definition request_contents (m : message) : option (list content) := mapM (request_segment m) (segments m).

(** In the broker: the address is added to every offset. *)
Definition response_segment (m : message) (s : MsgSegment) : option content :=
  match type s with
  | MSG_SEG_CHARS => read_chars m (data s)
  | MSG_SEG_OBJECT t => read_object m t (data s) (length s)
  end.
Definition response_contents (m : message) : option (list content) := mapM (response_segment m) (segments m).
Definition response_value (m : message) : option content := read_chars m (data (rvEnc m)).

(** * Properties *)

(** Objects that fit an [int], texts without NUL, no empty object. *)
Definition sendable (c : content) : Prop :=
  strlen (content_bytes c) < 2 ^ 31 /\
  match c with
  | Chars (Some s) => Forall (fun b => b <> 0) s
  | Chars None => True
  | Serialized _ b => b <> []
  end.

Lemma text_at_app s rest : Forall (fun b => b <> 0) s -> text_at (s ++ 0 :: rest) = Some s.
Proof.
  induction 1 as [|c s Hc _ IH]; [done|]. cbn [app text_at]. rewrite (proj2 (Z.eqb_neq c 0)) by done. by rewrite IH.
Qed.

Lemma segment_length_ok c : sendable c -> s32 (segment_length c) = strlen (content_bytes c).
Proof.
  intros [H _]. pose proof (strlen_nonneg (content_bytes c)). unfold segment_length.
  rewrite wrapu_small by lia. apply wraps_small; lia.
Qed.

Lemma padding_bound n : 0 <= PADDING_LEN n < 4.
Proof. unfold PADDING_LEN. pose proof (Z.mod_pos_bound n 4). destruct (Z.eqb_spec (n mod 4) 0); lia. Qed.

Lemma from_place_app h segs rv pre post : 
  from_place {| header := h; segments := segs; rvEnc := rv; body := pre ++ post |} (h + strlen pre) = Some post.
Proof.
  unfold from_place. cbn [header body]. rewrite strlen_app. pose proof (strlen_nonneg pre). pose proof (strlen_nonneg post).
  rewrite !(proj2 (Z.leb_le _ _)) by lia. cbn [andb]. replace (h + strlen pre - h) with (strlen pre) by lia.
  by rewrite drop_strlen.
Qed.

Section delivery.
Context (junk : Z -> bytes) (Hjunk : forall n, 0 <= n -> strlen (junk n) = n).

Lemma wire_bounds c : sendable c -> strlen (content_bytes c) <= wire_length c (strlen (content_bytes c)).
Proof. intros _. pose proof (padding_bound (strlen (content_bytes c))). destruct c; cbn [wire_length]; unfold PADDED_LEN; lia. Qed.

(** Every segment leads to its content, whatever stands in front of it in the body. *)
Lemma lay_read (read : message -> MsgSegment -> option content) cs h rv segs0 pre :
  Forall sendable cs ->
  (forall c l segs pre rest, c ∈ cs -> l = h + strlen pre ->
    read {| header := h; segments := segs; rvEnc := rv; body := pre ++ content_bytes c ++ rest |}
      {| data := l; type := content_type c; length := wire_length c (strlen (content_bytes c)) |} = Some c) ->
  exists segs b, lay junk (h + strlen pre) cs = Some (segs, b) /\
    mapM (read {| header := h; segments := segs0; rvEnc := rv; body := pre ++ b |}) segs = Some cs.
Proof.
  intros Hs. revert pre. induction Hs as [|c cs Hc Hs IH]; intros pre Hr; [by exists [], []|]. cbn [lay].
  rewrite segment_length_ok by done. rewrite (proj2 (Z.ltb_ge _ _)) by apply strlen_nonneg.
  set (w := wire_length c (strlen (content_bytes c))). pose proof (wire_bounds c Hc) as Hw. fold w in Hw.
  destruct (IH (pre ++ content_bytes c ++ junk (w - strlen (content_bytes c)))) as (segs & b & El & Em).
  { intros c' l segs pre' rest Hin. apply Hr. by right. }
  rewrite !strlen_app, Hjunk in El by lia.
  replace (h + (strlen pre + (strlen (content_bytes c) + (w - strlen (content_bytes c))))) with (h + strlen pre + w) in El by lia.
  rewrite El. cbn [mbind option_bind]. eexists _, _. split; [done|]. cbn [mapM].
  rewrite <- !app_assoc in Em. rewrite (Hr c) by (done || by left). cbn [mbind option_bind]. by rewrite Em.
Qed.

Lemma read_chars_ok h segs rv pre s rest : Forall (fun b => b <> 0) s ->
  read_chars {| header := h; segments := segs; rvEnc := rv; body := pre ++ (s ++ [0]) ++ rest |} (h + strlen pre) =
  Some (Chars (Some s)).
Proof.
  intros Hs. unfold read_chars. rewrite from_place_app. cbn [mbind option_bind]. rewrite <- app_assoc. cbn [app].
  by rewrite text_at_app.
Qed.

Lemma read_object_ok h segs rv t pre b rest :
  read_object {| header := h; segments := segs; rvEnc := rv; body := pre ++ b ++ rest |} t (h + strlen pre) (strlen b) =
  Some (Serialized t b).
Proof.
  unfold read_object. rewrite from_place_app. cbn [mbind option_bind]. rewrite strlen_app. pose proof (strlen_nonneg rest).
  rewrite (proj2 (Z.ltb_ge _ _)) by lia. by rewrite take_strlen.
Qed.

Lemma request_read c l segs pre rest h rv : sendable c -> l = h + strlen pre ->
  request_segment {| header := h; segments := segs; rvEnc := rv; body := pre ++ content_bytes c ++ rest |}
    {| data := l; type := content_type c; length := wire_length c (strlen (content_bytes c)) |} = Some c.
Proof.
  intros [_ Hc] ->. unfold request_segment. cbn [type length data]. destruct c as [[s|]|t b]; cbn [content_type content_bytes wire_length].
  - pose proof (padding_bound (strlen (s ++ [0]))). pose proof (strlen_nonneg s).
    rewrite (proj2 (Z.eqb_neq _ 0)) by (unfold PADDED_LEN; rewrite strlen_app in *; change (strlen [0]) with 1 in *; lia).
    by apply read_chars_ok.
  - done.
  - pose proof (strlen_nonempty b Hc). rewrite (proj2 (Z.eqb_neq _ 0)) by lia. apply read_object_ok.
Qed.

(** C21: a request arrives as it was sent: the provider finds the texts, null ones too, and
    the serialized objects in their order, whatever the padding holds. *)
Theorem request_delivered size cs : Forall sendable cs ->
  exists m, request_buffer junk size cs = Some m /\ request_contents m = Some cs.
Proof.
  intros Hs. destruct (lay_read request_segment cs size no_segment [] [] Hs) as (segs & b & El & Em).
  { intros c l segs pre rest Hin Hl. apply request_read; [|done]. rewrite Forall_forall in Hs. by apply Hs. }
  cbn [app] in *. rewrite strlen_nil, Z.add_0_r in El. unfold request_buffer. rewrite El. cbn [mbind option_bind].
  eexists. split; [done|]. unfold request_contents. cbn [segments].
  erewrite (mapM_ext (request_segment _) (request_segment _)); [exact Em|]. done.
Qed.

Definition not_null (c : content) : Prop := c <> Chars None.

Lemma response_read c l segs pre rest h rv : sendable c -> not_null c -> l = h + strlen pre ->
  response_segment {| header := h; segments := segs; rvEnc := rv; body := pre ++ content_bytes c ++ rest |}
    {| data := l; type := content_type c; length := wire_length c (strlen (content_bytes c)) |} = Some c.
Proof.
  intros [_ Hc] Hn ->. unfold response_segment. cbn [type length data].
  destruct c as [[s|]|t b]; cbn [content_type content_bytes wire_length]; [by apply read_chars_ok|done|apply read_object_ok].
Qed.
(** A returned text or date that the receiver can read. *)
Definition returnable (rv : return_value) : Prop :=
  match rv with
  | NoText => True
  | Text None => False
  | Text (Some s) => Forall (fun b => b <> 0) s /\ strlen s < 2 ^ 31 - 1
  | Date s => Forall (fun b => b <> 0) s /\ strlen s < 26
  end.
Definition returned (rv : return_value) : option content :=
  match rv with NoText => None | Text s => Some (Chars s) | Date s => Some (Chars (Some s)) end.

(** The bytes of a returned value, which follow the header. *)
Lemma return_segment_ok rv : returnable rv -> exists seg b, return_segment junk rv = Some (seg, b) /\
  s32 (length seg) = strlen b /\ 0 <= strlen b /\
  forall c, returned rv = Some c -> 0 < strlen b /\
    forall h segs rvs rest, read_chars {| header := h; segments := segs; rvEnc := rvs; body := b ++ rest |} h = Some c.
Proof.
  destruct rv as [|[s|]|s]; cbn [returnable returned return_segment]; intros Hr; [|destruct Hr as [Hs Hl]|done|destruct Hr as [Hs Hl]].
  - by eexists _, _.
  - eexists _, _. split; [done|]. cbn [length content_bytes]. pose proof (strlen_nonneg s).
    assert (Hl1 : strlen (s ++ [0]) = strlen s + 1) by (rewrite strlen_app; done). rewrite Hl1.
    unfold segment_length. cbn [content_bytes]. rewrite Hl1, wrapu_small, wraps_small by lia. split_and!; [done|lia|].
    intros c [= <-]. split; [lia|]. intros h segs rvs rest. pose proof (read_chars_ok h segs rvs [] s rest Hs) as E.
    cbn [app] in E. by rewrite strlen_nil, Z.add_0_r in E.
  - rewrite (proj2 (Z.ltb_lt _ _)) by done. eexists _, _. split; [done|]. cbn [length]. pose proof (strlen_nonneg s).
    assert (Hl1 : strlen (s ++ [0] ++ junk (25 - strlen s)) = 26).
    { rewrite !strlen_app, Hjunk by lia. change (strlen [0]) with 1. lia. }
    rewrite Hl1. split_and!; [done|lia|]. intros c [= <-]. split; [lia|]. intros h segs rvs rest.
    pose proof (read_chars_ok h segs rvs [] s (junk (25 - strlen s) ++ rest) Hs) as E. cbn [app] in E.
    rewrite strlen_nil, Z.add_0_r in E. rewrite <- !app_assoc in *. exact E.
Qed.

(** a response arrives as it was sent, with the text or date the method returned, when
    no text is null; a null text is read from whatever bytes come next. *)
Theorem response_delivered size rv cs : Forall sendable cs -> Forall not_null cs -> returnable rv ->
  exists m, makeSafeResponse junk size rv cs = Some m /\ response_contents m = Some cs /\
    (returned rv <> None -> response_value m = returned rv).
Proof.
  intros Hs Hn Hr. destruct (return_segment_ok rv Hr) as (seg & b & E & Hl & Hb & Hc).
  assert (K : forall h rvs, exists segs bs, lay junk (h + strlen b) cs = Some (segs, bs) /\
    mapM (response_segment {| header := h; segments := []; rvEnc := rvs; body := b ++ bs |}) segs = Some cs).
  { intros h rvs. apply lay_read; [done|]. intros c l segs pre rest Hin Hl'. rewrite Forall_forall in Hs, Hn.
    apply response_read; auto. }
  unfold makeSafeResponse. rewrite E. cbn [mbind option_bind]. rewrite Hl, (proj2 (Z.ltb_ge _ _)) by done.
  destruct (Z.eqb_spec (strlen b) 0) as [E0|E0].
  - destruct b as [|x b]; [|rewrite strlen_cons in E0; pose proof (strlen_nonneg b); lia].
    destruct (K size seg) as (segs & bs & El & Em). rewrite strlen_nil, Z.add_0_r in El. rewrite El. cbn [mbind option_bind].
    eexists. split; [done|]. split; [exact Em|]. intros Hret. destruct (returned rv) as [c|]; [|done].
    destruct (Hc c eq_refl) as [Hpos _]. by rewrite strlen_nil in Hpos.
  - destruct (K size {| data := size; type := type seg; length := length seg |}) as (segs & bs & El & Em).
    rewrite El. cbn [mbind option_bind]. eexists. split; [done|]. split; [exact Em|]. intros Hret.
    destruct (returned rv) as [c|]; [|done]. destruct (Hc c eq_refl) as [_ Hread].
    unfold response_value. cbn [rvEnc data]. apply Hread.
Qed.
End delivery.

Definition wit_junk (n : Z) : bytes := replicate (Z.to_nat n) 7.
Lemma wit_junk_length n : 0 <= n -> strlen (wit_junk n) = n.
Proof. intros H. unfold wit_junk. by rewrite strlen_replicate, Z2Nat.id. Qed.

Ltac no_nul := repeat (constructor; [discriminate|]); constructor.

Lemma request_delivered_witness : exists m,
  request_buffer wit_junk 96 [Chars (Some (cstr "root")); Chars None; Serialized OBJECTPATH [1; 0; 2]] = Some m /\
  request_contents m = Some [Chars (Some (cstr "root")); Chars None; Serialized OBJECTPATH [1; 0; 2]].
Proof.
  apply (request_delivered wit_junk wit_junk_length 96).
  constructor; [split; [vm_compute; reflexivity|no_nul]|]. constructor; [split; [vm_compute; reflexivity|exact I]|].
  constructor; [split; [vm_compute; reflexivity|discriminate]|constructor].
Defined.

Lemma response_delivered_witness : exists m,
  makeSafeResponse wit_junk 120 (Text (Some (cstr "ok"))) [Serialized ARGS [1; 0; 2]; Chars (Some (cstr "x"))] = Some m /\
  response_contents m = Some [Serialized ARGS [1; 0; 2]; Chars (Some (cstr "x"))] /\
  (returned (Text (Some (cstr "ok"))) <> None -> response_value m = returned (Text (Some (cstr "ok")))).
Proof.
  apply (response_delivered wit_junk wit_junk_length 120).
  - constructor; [split; [vm_compute; reflexivity|discriminate]|]. constructor; [split; [vm_compute; reflexivity|no_nul]|constructor].
  - constructor; [discriminate|]. constructor; [discriminate|constructor].
  - split; [no_nul|vm_compute; reflexivity].
Defined.

(** A null text of a response is read as the text behind it, and a null returned text is
    looked for in the header. *)
Lemma null_text_response s : Forall (fun b => b <> 0) s -> strlen s < 2 ^ 31 - 1 -> forall size, 0 < size ->
  exists m, makeSafeResponse wit_junk size (Text None) [Chars None; Chars (Some s)] = Some m /\
    response_contents m = Some [Chars (Some s); Chars (Some s)] /\ response_value m = None.
Proof.
  intros Hs Hl size Hsz. pose proof (strlen_nonneg s).
  assert (Hl1 : strlen (s ++ [0]) = strlen s + 1) by (rewrite strlen_app; done).
  unfold makeSafeResponse. cbn [return_segment mbind option_bind length segment_length content_bytes].
  change (s32 (u32 (strlen []))) with 0. cbn [Z.ltb Z.compare Z.eqb lay]. change (s32 (segment_length (Chars None))) with 0.
  cbn [Z.ltb Z.compare wire_length]. change (PADDED_LEN 0) with 0.
  assert (E : s32 (segment_length (Chars (Some s))) = strlen s + 1).
  { unfold segment_length. cbn [content_bytes]. rewrite Hl1, wrapu_small, wraps_small by lia. done. }
  rewrite E, (proj2 (Z.ltb_ge _ _)) by lia. cbn [mbind option_bind]. eexists. split; [done|].
  unfold response_contents, response_value. cbn [segments mapM rvEnc data content_bytes].
  unfold response_segment. cbn [type data content_type].
  change (wit_junk (0 - 0)) with (@nil Z). cbn [app]. rewrite Z.add_0_r.
  assert (R : forall segs rvs rest, read_chars {| header := size; segments := segs; rvEnc := rvs; body := (s ++ [0]) ++ rest |} size =
    Some (Chars (Some s))).
  { intros segs rvs rest. pose proof (read_chars_ok size segs rvs [] s rest Hs) as R. cbn [app] in R.
    by rewrite strlen_nil, Z.add_0_r in R. }
  rewrite R. cbn [mbind option_bind]. split; [done|].
  unfold read_chars, from_place. cbn [header]. by rewrite (proj2 (Z.leb_gt _ _)).
Qed.
