(* ===== verification/ResultBuffer.v ===== *)
(** * Results of a provider (result.c)

    What a provider returns is collected in a buffer and sent in chunks: when an object
    does not fit any more, the buffer is sent, the broker works on it and answers with an
    acknowledgement, and the buffer is filled anew; what is left is sent at the end.
    Without a requestor to send chunks to, the buffer grows.  The messages are those of
    [Messages]; here they are the list of what was sent. *)

From S2P Require Import Prelude CString CmpiData NativeArray Messages.

(** [resp] are the segments [0 .. sNext - 1] of the [sMax] there is room for, [buf] the
    first [dNext] of the [dMax] bytes of the data. *)
Record NativeResult := {
  requestor : Z; legacy : bool; current : Z; array : option native_array;
  resp : list MsgSegment; sMax : Z; buf : option bytes; dMax : Z
}.

Definition sNext (nr : NativeResult) : Z := Z.of_nat (List.length (resp nr)).
Definition dNext (nr : NativeResult) : Z := strlen (default [] (buf nr)).

Definition native_new_CMPIResult (requestor : Z) (legacy : bool) : NativeResult :=
  {| requestor := requestor; legacy := legacy; current := 0; array := None; resp := []; sMax := 0; buf := None; dMax := 0 |}.

Definition with_buffer (nr : NativeResult) (r : list MsgSegment) (sm : Z) (b : bytes) (dm : Z) : NativeResult :=
  {| requestor := requestor nr; legacy := legacy nr; current := current nr; array := array nr;
     resp := r; sMax := sm; buf := Some b; dMax := dm |}.

(** [while (need >= dMax) dMax *= 2]; on 64 bits it stays 0 once it has got there. *)
Fixpoint grow_data (fuel : nat) (dm need : Z) : option Z :=
  match fuel with
  | O => None
  | S fuel => if dm <=? need then grow_data fuel (u64 (dm * 2)) need else Some dm
  end.

Section result.
(** The setting, if there is one, and the sizes of the header and of a segment. *)
Context (chunkSize : option Z) (sizeof_header sizeof_segment : Z).

Definition initial_size : Z := match chunkSize with Some c => u64 c | None => 50000 end.

Definition prepResultBuffer (nr : NativeResult) (length : Z) : option NativeResult :=
  dm ← grow_data 65 initial_size length; Some (with_buffer nr [] (dm / 400) [] dm).

Definition prepared (nr : NativeResult) (length : Z) : option NativeResult :=
  match buf nr with None => prepResultBuffer nr length | Some _ => Some nr end.

(** The offsets of the segments from the start of the message. *)
Fixpoint relocated (l : Z) (segs : list MsgSegment) : list MsgSegment :=
  match segs with
  | [] => []
  | s :: segs => {| data := l; type := type s; length := length s |} :: relocated (l + length s) segs
  end.

Record chunk := { moreChunks : bool; rc : Z; count : Z; msg : message }.

(** The chunk that is sent, to be acknowledged when more are to come. *)
Definition xferResultBuffer (nr : NativeResult) (more : bool) (code : Z) (len : Z) : option (NativeResult * chunk) :=
  let l := sizeof_header + (sNext nr - 1) * sizeof_segment in
  nr ← prepared nr len;
  b ← buf nr;
  Some (nr, {| moreChunks := more; rc := code; count := sNext nr;
               msg := {| header := l; segments := relocated l (resp nr); rvEnc := no_segment; body := b |} |}).

Definition xferLastResultBuffer (nr : NativeResult) (code : Z) : option (NativeResult * chunk) :=
  xferResultBuffer nr false code 1.

(** The segment of an object of the length; the table grows when it is full. *)
Definition add_segment (nr : NativeResult) (ty : segment_type) (len : Z) : option NativeResult :=
  let sm := if sNext nr =? sMax nr then sMax nr * 2 else sMax nr in
  if sNext nr <? sm then
    b ← buf nr;
    Some (with_buffer nr (resp nr ++ [{| data := strlen b; type := ty; length := len |}]) sm b (dMax nr))
  else None.

(** A place for an object of the length: what may be sent before it is found. *)
Definition nextResultBufferPos (nr : NativeResult) (ty : segment_type) (len : Z) : option (NativeResult * list chunk) :=
  nr ← prepared nr len;
  b ← buf nr;
  '(nr, sent) ← (if dMax nr <=? strlen b + len then
                   if (requestor nr =? 0) || (dMax nr <=? len) then
                     dm ← grow_data 65 (dMax nr) (strlen b + len);
                     Some (with_buffer nr (resp nr) (sMax nr) b dm, [])
                   else
                     '(nr, c) ← xferResultBuffer nr true 1 len;
                     Some (with_buffer nr [] (sMax nr) [] (dMax nr), [c])
                 else Some (nr, []));
  nr ← add_segment nr ty len;
  Some (nr, sent).

(** An object is written to its place. *)
Definition write_object (nr : NativeResult) (o : bytes) : option NativeResult :=
  b ← buf nr;
  if dMax nr <? strlen b + strlen o then None
  else Some (with_buffer nr (resp nr) (sMax nr) (b ++ o) (dMax nr)).

(** ** The functions of a result *)

(** A query has a condition and a list of properties; a row that it keeps is returned
    with its properties. *)
Record query_filter (I : Type) := { where_ : option (I -> option Z); allProps : bool; cloneAndFilter : I -> I }.
Arguments where_ {I}. Arguments allProps {I}. Arguments cloneAndFilter {I}.

Definition selected {I} (qs : option (query_filter I)) (i : I) : option (option I) :=
  match qs with
  | None => Some (Some i)
  | Some q =>
      irc ← (match where_ q with Some f => f i | None => Some 1 end);
      Some (if irc =? 1 then Some (if allProps q then i else cloneAndFilter q i) else None)
  end.

Definition returnData (nr : NativeResult) (val : option CMPIValue) (ty : CMPIType) : option (NativeResult * Z) :=
  let with_array a c :=
    {| requestor := requestor nr; legacy := legacy nr; current := c; array := Some a;
       resp := resp nr; sMax := sMax nr; buf := buf nr; dMax := dMax nr |} in
  a ← (match array nr with
       | None => if current nr =? 0 then new_empty_array 1 ty else None
       | Some a => sfcb_native_array_increase_size a 1
       end);
  '(a, st) ← NativeArray.setElementAt a (current nr) val ty false true;
  Some (with_array a (current nr + 1), st).

Section returning.
(** An instance or class: its serialized bytes, and the value that points to it. *)
Context {I : Type} (serialized : I -> object_type * bytes) (value_of : I -> CMPIValue).

Definition return_bytes (nr : NativeResult) (o : object_type * bytes) : option (NativeResult * list chunk) :=
  '(nr, sent) ← nextResultBufferPos nr (MSG_SEG_OBJECT (fst o)) (s32 (u64 (strlen (snd o))));
  nr ← write_object nr (snd o);
  Some (nr, sent).

Definition __rft_returnInstance (qs : option (query_filter I)) (nr : NativeResult) (instance : I) :
    option (NativeResult * list chunk) :=
  i ← selected qs instance;
  match i with
  | None => Some (nr, [])
  | Some i =>
      if legacy nr then '(nr, _) ← returnData nr (Some (value_of i)) CMPI_instance; Some (nr, [])
      else return_bytes nr (serialized i)
  end.

Definition __rft_returnObjectPath (nr : NativeResult) (cop : I) : option (NativeResult * list chunk) :=
  if legacy nr then '(nr, _) ← returnData nr (Some (value_of cop)) CMPI_ref; Some (nr, [])
  else return_bytes nr (serialized cop).

(** References are not supported: the process aborts. *)
Definition __rft_returnData (nr : NativeResult) (val : option CMPIValue) (ty : CMPIType) : option (NativeResult * Z) :=
  if bool_decide (ty = CMPI_ref) then None else returnData nr val ty.

Definition native_result2array (nr : NativeResult) : option native_array := array nr.

(** A provider that returns instances one after the other, and the end of its answer. *)
Fixpoint return_all (qs : option (query_filter I)) (nr : NativeResult) (l : list I) : option (NativeResult * list chunk) :=
  match l with
  | [] => Some (nr, [])
  | i :: l =>
      '(nr, sent) ← __rft_returnInstance qs nr i;
      '(nr, sent') ← return_all qs nr l;
      Some (nr, sent ++ sent')
  end.

Definition answer (qs : option (query_filter I)) (req : Z) (l : list I) (code : Z) : option (list chunk) :=
  '(nr, sent) ← return_all qs (native_new_CMPIResult req false) l;
  '(_, c) ← xferLastResultBuffer nr code;
  Some (sent ++ [c]).
End returning.
End result.

(** ** The broker *)

(** [intInvokeProvider] in chunked mode: a chunk is written, and acknowledged when more
    are to come. *)
Fixpoint receive_chunks (l : list chunk) : option (list content) :=
  match l with
  | [] => None
  | c :: l =>
      o ← response_contents (msg c);
      if moreChunks c then r ← receive_chunks l; Some (o ++ r) else Some o
  end.

(** * Properties *)

(** Growing ends with room for what is needed. *)
Lemma grow_data_ok fuel dm need : 0 < dm < 2 ^ 63 -> need < 2 ^ 62 -> need < dm * 2 ^ Z.of_nat fuel ->
  exists dm', grow_data (S fuel) dm need = Some dm' /\ need < dm' /\ dm <= dm' < 2 ^ 63.
Proof.
  revert dm. induction fuel as [|fuel IH]; intros dm Hd Hn Hf; cbn [grow_data].
  - rewrite (proj2 (Z.leb_gt _ _)) by (change (2 ^ Z.of_nat 0) with 1 in Hf; lia). exists dm.
    change (2 ^ Z.of_nat 0) with 1 in Hf. split; [done|lia].
  - destruct (Z.leb_spec dm need) as [Hle|Hgt]; [|exists dm; split; [done|lia]]. rewrite wrapu_small by lia.
    destruct (IH (dm * 2)) as (dm' & E & H1 & H2); [lia|done|rewrite Nat2Z.inj_succ, Z.pow_succ_r in Hf by lia; lia|].
    cbn [grow_data] in E. rewrite E. exists dm'. split; [done|lia].
Qed.

Lemma grow_data_room dm need : 0 < dm < 2 ^ 63 -> need < 2 ^ 62 ->
  exists dm', grow_data 65 dm need = Some dm' /\ need < dm' /\ dm <= dm' < 2 ^ 63.
Proof. intros Hd Hn. apply (grow_data_ok 64); [done..|]. change (Z.of_nat 64) with 64. lia. Qed.

(** ** A buffer that holds objects *)

Definition object : Type := object_type * bytes.
Definition to_content (o : object) : content := Serialized (fst o) (snd o).
Definition segment_of (s : MsgSegment) (o : object) : Prop :=
  type s = MSG_SEG_OBJECT (fst o) /\ length s = strlen (snd o).
Definition data_of (os : list object) : bytes := concat (snd <$> os).

Definition holds (nr : NativeResult) (os : list object) : Prop :=
  Forall2 segment_of (resp nr) os /\
  match buf nr with
  | None => os = []
  | Some b => b = data_of os /\ strlen b < dMax nr < 2 ^ 63 /\ 0 < sMax nr /\ sNext nr <= sMax nr
  end.

Lemma data_of_cons o os : data_of (o :: os) = snd o ++ data_of os.
Proof. done. Qed.

Lemma data_of_snoc os o : data_of (os ++ [o]) = data_of os ++ snd o.
Proof. unfold data_of. rewrite fmap_app, concat_app. cbn. by rewrite app_nil_r. Qed.

(** The segments of a message lead to the objects. *)
Lemma relocated_read segs os : Forall2 segment_of segs os -> forall h segs0 rv pre,
  mapM (response_segment {| header := h; segments := segs0; rvEnc := rv; body := pre ++ data_of os |})
    (relocated (h + strlen pre) segs) = Some (to_content <$> os).
Proof.
  induction 1 as [|s o segs os [Ht Hl] _ IH]; intros h segs0 rv pre; [done|]. cbn [relocated mapM].
  rewrite Ht, Hl, data_of_cons.
  assert (E : response_segment {| header := h; segments := segs0; rvEnc := rv; body := pre ++ snd o ++ data_of os |}
    {| data := h + strlen pre; type := MSG_SEG_OBJECT (fst o); length := strlen (snd o) |} = Some (to_content o))
    by apply read_object_ok.
  rewrite E. cbn [mbind option_bind]. specialize (IH h segs0 rv (pre ++ snd o)).
  rewrite strlen_app, Z.add_assoc, <- app_assoc in IH. by rewrite IH.
Qed.

Section answering.
Context (chunkSize : option Z) (sizeof_header sizeof_segment : Z).
Context (big : match chunkSize with Some c => 400 <= c < 2 ^ 62 | None => True end).

Lemma initial_size_ok : 400 <= initial_size chunkSize < 2 ^ 62.
Proof. unfold initial_size. destruct chunkSize; [|lia]. rewrite wrapu_small by lia. lia. Qed.

(** What a chunk delivers. *)
Definition delivers (c : chunk) (os : list object) : Prop := response_contents (msg c) = Some (to_content <$> os).

Lemma prepared_ok nr os len : holds nr os -> 0 <= len < 2 ^ 62 -> exists nr' b,
  prepared chunkSize nr len = Some nr' /\ holds nr' os /\ buf nr' = Some b /\
  requestor nr' = requestor nr /\ legacy nr' = legacy nr.
Proof.
  intros [Hs Hb] Hl. unfold prepared. destruct (buf nr) as [b|] eqn:Eb.
  - exists nr, b. split_and!; try done. split; [done|]. by rewrite Eb.
  - subst os. inversion Hs as [Hr|]. unfold prepResultBuffer. pose proof initial_size_ok.
    destruct (grow_data_room (initial_size chunkSize) len) as (dm & E & H1 & H2); [lia..|]. rewrite E. cbn [mbind option_bind].
    eexists _, _. split; [done|]. split_and!; try done. split; [constructor|].
    assert (Hq : 1 <= dm / 400) by (change 1 with (400 / 400); apply Z.div_le_mono; lia).
    cbn [buf dMax sMax resp with_buffer]. unfold sNext. cbn [resp with_buffer List.length]. rewrite strlen_nil.
    split_and!; try done; lia.
Qed.

Lemma xfer_ok nr os more code len : holds nr os -> 0 <= len < 2 ^ 62 -> exists nr' c,
  xferResultBuffer chunkSize sizeof_header sizeof_segment nr more code len = Some (nr', c) /\
  holds nr' os /\ is_Some (buf nr') /\ requestor nr' = requestor nr /\ legacy nr' = legacy nr /\ (is_Some (buf nr) -> nr' = nr) /\
  delivers c os /\ moreChunks c = more /\ rc c = code /\ count c = Z.of_nat (List.length os).
Proof.
  intros Hh Hl. destruct (prepared_ok nr os len Hh Hl) as (nr' & b & E & Hh' & Eb & Er & Elg).
  unfold xferResultBuffer. rewrite E. cbn [mbind option_bind]. rewrite Eb. cbn [mbind option_bind].
  eexists _, _. split; [done|]. split_and!; try done.
  - intros [b' Eb']. unfold prepared in E. rewrite Eb' in E. congruence.
  - unfold delivers, response_contents. cbn [msg segments]. destruct Hh' as [Hs' Hb']. rewrite Eb in Hb'. destruct Hb' as [-> _].
    pose proof (relocated_read (resp nr') os Hs' (sizeof_header + (sNext nr - 1) * sizeof_segment)
      (relocated (sizeof_header + (sNext nr - 1) * sizeof_segment) (resp nr')) no_segment []) as K.
    rewrite strlen_nil, Z.add_0_r in K. exact K.
  - cbn [count]. unfold sNext. by rewrite (Forall2_length _ _ _ (proj1 Hh')).
Qed.

(** The last segment gets its place, and the object its bytes. *)
Lemma place_object nr os b o :
  holds nr os -> buf nr = Some b -> strlen b + strlen (snd o) < dMax nr ->
  exists nr1 nr', add_segment nr (MSG_SEG_OBJECT (fst o)) (strlen (snd o)) = Some nr1 /\ write_object nr1 (snd o) = Some nr' /\
  holds nr' (os ++ [o]) /\ requestor nr' = requestor nr /\ legacy nr' = legacy nr /\ is_Some (buf nr').
Proof.
  intros [Hs Hb] Eb Hroom. rewrite Eb in Hb. destruct Hb as (-> & Hd & Hsm & Hsn). unfold add_segment.
  set (sm := if sNext nr =? sMax nr then sMax nr * 2 else sMax nr).
  assert (Hlt : sNext nr < sm /\ 0 < sm) by (subst sm; destruct (Z.eqb_spec (sNext nr) (sMax nr)); lia).
  rewrite (proj2 (Z.ltb_lt _ _)) by lia. rewrite Eb. cbn [mbind option_bind]. eexists _, _. split; [done|].
  unfold write_object. cbn [buf dMax with_buffer mbind option_bind].
  rewrite (proj2 (Z.ltb_ge _ _)) by lia. split; [done|]. split_and!; try done.
  split; cbn [resp buf dMax sMax with_buffer].
  - apply Forall2_app; [done|]. by repeat constructor.
  - rewrite strlen_app, data_of_snoc. split_and!; try done; try lia.
    unfold sNext in *. cbn [resp with_buffer]. rewrite length_app. cbn [List.length]. lia.
Qed.

(** An object is put behind those of the buffer, or they are sent and it is the first. *)
Lemma return_bytes_ok nr os o : holds nr os -> strlen (snd o) < 2 ^ 31 -> strlen (data_of os) + strlen (snd o) < 2 ^ 62 ->
  exists nr' sent os', return_bytes chunkSize sizeof_header sizeof_segment nr o = Some (nr', sent) /\
  holds nr' os' /\ is_Some (buf nr') /\ requestor nr' = requestor nr /\ legacy nr' = legacy nr /\
  (sent = [] /\ os' = os ++ [o] \/
   exists c, requestor nr <> 0 /\ sent = [c] /\ os' = [o] /\ os <> [] /\
     delivers c os /\ moreChunks c = true /\ rc c = 1 /\ count c = Z.of_nat (List.length os)).
Proof.
  intros Hh Hl Ht. pose proof (strlen_nonneg (snd o)) as Hl0. pose proof (strlen_nonneg (data_of os)) as Hd0.
  destruct (prepared_ok nr os (strlen (snd o)) Hh) as (nr1 & b & E & Hh1 & Eb & Er & Elg); [lia|].
  pose proof Hh1 as [Hs1 Hb1]. rewrite Eb in Hb1. destruct Hb1 as (Hbd & Hd & Hsm & Hsn). rewrite <- Hbd in Ht, Hd0.
  unfold return_bytes, nextResultBufferPos. rewrite wrapu_small, wraps_small by lia. rewrite E. cbn [mbind option_bind]. rewrite Eb.
  cbn [mbind option_bind]. destruct (Z.leb_spec (dMax nr1) (strlen b + strlen (snd o))) as [Hfull|Hroom].
  2:{ cbn [mbind option_bind]. destruct (place_object nr1 os b o Hh1 Eb Hroom) as (nx & nr' & -> & Ew & H1 & H2 & H3 & H4). cbn [mbind option_bind]. rewrite Ew.
      exists nr', [], (os ++ [o]). split_and!; try done; [congruence..|by left]. }
  destruct ((requestor nr1 =? 0) || (dMax nr1 <=? strlen (snd o))) eqn:Eq.
  - destruct (grow_data_room (dMax nr1) (strlen b + strlen (snd o))) as (dm & Eg & Hg1 & Hg2); [lia..|]. rewrite Eg. cbn [mbind option_bind].
    set (nr2 := with_buffer nr1 (resp nr1) (sMax nr1) b dm).
    assert (Hh2 : holds nr2 os) by (split; [done|]; cbn; split_and!; try done; lia).
    destruct (place_object nr2 os b o Hh2 eq_refl Hg1) as (nx & nr' & -> & Ew & H1 & H2 & H3 & H4). cbn [mbind option_bind]. rewrite Ew.
    exists nr', [], (os ++ [o]). cbn in H2, H3. split_and!; try done; [congruence..|by left].
  - apply orb_false_iff in Eq as [Eq1%Z.eqb_neq Eq2%Z.leb_gt].
    destruct (xfer_ok nr1 os true 1 (strlen (snd o)) Hh1) as (nr2 & c & E2 & Hh2 & _ & Er2 & El2 & Esame & Hc & Hm & Hrc & Hct); [lia|].
    rewrite Esame in * by eauto. rewrite E2. cbn [mbind option_bind].
    set (nr3 := with_buffer nr1 [] (sMax nr1) [] (dMax nr1)).
    assert (Hh3 : holds nr3 []) by (split; [by apply Forall2_nil|]; unfold nr3, sNext; cbn [buf dMax sMax resp with_buffer List.length];
      rewrite strlen_nil; split_and!; try done; lia).
    destruct (place_object nr3 [] [] o Hh3 eq_refl) as (nx & nr' & -> & Ew & H1 & H2 & H3 & H4); [done|]. cbn [mbind option_bind]. rewrite Ew.
    exists nr', [c], [o]. cbn in H2, H3. split_and!; try done; [congruence..|].
    right. exists c. split_and!; try done; [congruence|]. intros ->. subst b. change (data_of []) with (@nil Z) in Hfull. rewrite strlen_nil in Hfull. lia.
Qed.

Section providers.
Context {I : Type} (serialized : I -> object) (value_of : I -> CMPIValue) (qs : option (query_filter I)).

(** The objects a provider's instances lead to. *)
Definition returned_objects (sel : list (option I)) : list object := serialized <$> omap id sel.

(** Chunks that are to be acknowledged: they succeed, and none is empty. *)
Definition acknowledged (c : chunk) : Prop := moreChunks c = true /\ rc c = 1 /\ 0 < count c.

Lemma returned_objects_cons i sel :
  returned_objects (i :: sel) = match i with Some i => serialized i :: returned_objects sel | None => returned_objects sel end.
Proof. by destruct i. Qed.

Lemma objects_data_app os os' : data_of (os ++ os') = data_of os ++ data_of os'.
Proof. unfold data_of. by rewrite fmap_app, concat_app. Qed.

Lemma receive_first c l os os' : delivers c os -> moreChunks c = true -> receive_chunks l = Some os' ->
  receive_chunks (c :: l) = Some ((to_content <$> os) ++ os').
Proof. intros Hd Hm Hr. cbn [receive_chunks]. unfold delivers in Hd. rewrite Hd, Hm, Hr. done. Qed.

(** What is sent and what is left in the buffer are the instances in their order. *)
Lemma return_all_ok l sel : mapM (selected qs) l = Some sel -> Forall (fun o => strlen (snd o) < 2 ^ 31) (returned_objects sel) ->
  forall nr os, holds nr os -> legacy nr = false -> strlen (data_of (os ++ returned_objects sel)) < 2 ^ 62 ->
  exists nr' sent left, return_all chunkSize sizeof_header sizeof_segment serialized value_of qs nr l = Some (nr', sent) /\
    holds nr' left /\ Forall acknowledged sent /\ (requestor nr = 0 -> sent = []) /\
    forall c, delivers c left -> moreChunks c = false ->
      receive_chunks (sent ++ [c]) = Some (to_content <$> os ++ returned_objects sel).
Proof.
  revert sel. induction l as [|i l IH]; intros sel Hsel Hf nr os Hh Hlg Hsz; cbn [mapM] in Hsel.
  { injection Hsel as <-. exists nr, [], os. split_and!; try done. intros c Hc Hm. cbn [app receive_chunks].
    unfold delivers in Hc. by rewrite Hc, Hm, app_nil_r. }
  destruct (selected qs i) as [oi|] eqn:Ei; [|done]. cbn [mbind option_bind] in Hsel.
  destruct (mapM (selected qs) l) as [sel'|]; [|done]. injection Hsel as <-. specialize (IH sel' eq_refl).
  cbn [return_all]. unfold __rft_returnInstance. rewrite Ei. cbn [mbind option_bind].
  rewrite returned_objects_cons in *. destruct oi as [i'|].
  2:{ destruct (IH Hf nr os Hh Hlg Hsz) as (nr' & sent & left & E & K). cbn [mbind option_bind]. rewrite E. exists nr', sent, left. done. }
  rewrite Hlg. apply Forall_cons in Hf as [Hf1 Hf]. rewrite objects_data_app, data_of_cons, !strlen_app in Hsz.
  pose proof (strlen_nonneg (data_of (returned_objects sel'))). pose proof (strlen_nonneg (data_of os)).
  destruct (return_bytes_ok nr os (serialized i') Hh Hf1) as (nr1 & sent1 & os1 & E1 & Hh1 & _ & Er & El & Hcase); [lia|].
  rewrite E1. cbn [mbind option_bind]. destruct Hcase as [[-> ->]|(c1 & Hreq & -> & -> & Hos & Hd1 & Hm1 & Hrc1 & Hct1)].
  - destruct (IH Hf nr1 (os ++ [serialized i']) Hh1) as (nr' & sent & left & E & Hh' & Ha & Hz & Hrecv); [congruence| |].
    { rewrite <- app_assoc, objects_data_app, !strlen_app. cbn [app]. rewrite data_of_cons, strlen_app. lia. }
    rewrite E. exists nr', sent, left. split_and!; try done; [rewrite <- Er; done|].
    intros c Hc Hm. rewrite Hrecv by done. by rewrite <- app_assoc.
  - destruct (IH Hf nr1 [serialized i'] Hh1) as (nr' & sent & left & E & Hh' & Ha & Hz & Hrecv); [congruence| |].
    { cbn [app]. rewrite data_of_cons, strlen_app. lia. }
    rewrite E. exists nr', (c1 :: sent), left. split_and!; try done.
    + constructor; [|done]. split_and!; try done. rewrite Hct1. destruct os; cbn; [done|lia].
    + intros c Hc Hm. cbn [app]. rewrite (receive_first c1 _ os _ Hd1 Hm1 (Hrecv c Hc Hm)). by rewrite !fmap_app.
Qed.

(** C22: what the provider returns arrives: whatever the chunk size (of at least 400 bytes)
    and the query, the broker that puts the chunks together has the serialized forms of
    the instances the query keeps, in the order they were returned; every chunk but the
    last asks for an acknowledgement and is not empty, the last one carries the
    provider's result code, and without a requestor there is no other. *)
Theorem answer_received req l code sel : mapM (selected qs) l = Some sel ->
  Forall (fun o => strlen (snd o) < 2 ^ 31) (returned_objects sel) -> strlen (data_of (returned_objects sel)) < 2 ^ 62 ->
  exists sent last, answer chunkSize sizeof_header sizeof_segment serialized value_of qs req l code = Some (sent ++ [last]) /\
    receive_chunks (sent ++ [last]) = Some (to_content <$> returned_objects sel) /\
    Forall acknowledged sent /\ moreChunks last = false /\ rc last = code /\ (req = 0 -> sent = []).
Proof.
  intros Hsel Hf Hsz. unfold answer.
  destruct (return_all_ok l sel Hsel Hf (native_new_CMPIResult req false) []) as (nr & sent & left & E & Hh & Ha & Hz & Hrecv); try done.
  rewrite E. cbn [mbind option_bind]. unfold xferLastResultBuffer.
  destruct (xfer_ok nr left false code 1 Hh) as (nr' & c & E' & _ & _ & _ & _ & _ & Hd & Hm & Hrc & _); [lia|].
  rewrite E'. cbn [mbind option_bind]. exists sent, c. split_and!; try done. by apply Hrecv.
Qed.
End providers.
End answering.

(** Three instances of 300 bytes and one that the query drops, in chunks of 400 bytes:
    every instance has its own chunk. *)
Definition wit_serialized (i : Z) : object := (INSTANCE, replicate (Z.to_nat i) 1).
Definition wit_query : option (query_filter Z) :=
  Some {| where_ := Some (fun i => Some (if 100 <? i then 1 else 0)); allProps := true; cloneAndFilter := fun i => i |}.

Lemma answer_received_witness : exists sent last,
  answer (Some 400) 128 32 wit_serialized (fun _ => VWord 0) wit_query 7 [300; 20; 301; 302] 0 = Some (sent ++ [last]) /\
  receive_chunks (sent ++ [last]) = Some (to_content <$> returned_objects wit_serialized [Some 300; None; Some 301; Some 302]) /\
  Forall acknowledged sent /\ moreChunks last = false /\ rc last = 0 /\ (7 = 0 -> sent = []).
Proof.
  apply (answer_received (Some 400) 128 32).
  - split; vm_compute; congruence.
  - reflexivity.
  - repeat (constructor; [vm_compute; reflexivity|]). constructor.
  - vm_compute. reflexivity.
Defined.

Example answer_chunks : List.length <$> answer (Some 400) 128 32 wit_serialized (fun _ => VWord 0) wit_query 7 [300; 20; 301; 302] 0 = Some 3%nat.
Proof. vm_compute. reflexivity. Qed.

(** With a setting below 400 there is no room for a single segment: the first object's is
    written behind the header.  With the setting 0 the buffer is never large enough. *)
Lemma small_chunk_size c h s req ty len : 0 <= len < c -> c < 400 ->
  nextResultBufferPos (Some c) h s (native_new_CMPIResult req false) ty len = None.
Proof.
  intros Hl Hc. unfold nextResultBufferPos, prepared, prepResultBuffer, initial_size. cbn [buf native_new_CMPIResult].
  rewrite wrapu_small by lia. destruct (grow_data_room c len) as (dm & E & H1 & H2); [lia..|].
  assert (dm = c) as ->.
  { change 65%nat with (S 64) in E. cbn [grow_data] in E. rewrite (proj2 (Z.leb_gt _ _)) in E by lia. congruence. }
  rewrite E. cbn [mbind option_bind buf with_buffer dMax]. rewrite strlen_nil, (proj2 (Z.leb_gt _ _)) by lia.
  cbn [mbind option_bind]. unfold add_segment, sNext. cbn [resp sMax with_buffer List.length].
  rewrite Z.div_small by lia. done.
Qed.

Lemma chunk_size_0 fuel need : 0 <= need -> grow_data fuel 0 need = None.
Proof. intros H. induction fuel as [|fuel IH]; [done|]. cbn [grow_data]. by rewrite (proj2 (Z.leb_le _ _)). Qed.
