(* ===== verification/RestRequest.v ===== *)
(** * Requests for CIM resources (cimRsRequest.c)

    A request names a resource by its path, [/cimrs/namespaces/{ns}/classes/{cn}] and so
    on.  The parser works on one copy of the path, in which it ends the parts by NULs: a
    part is here the list of its bytes.  [None] is undefined behaviour. *)

From S2P Require Import Prelude CString CmpiData ObjectPath PathText.

Inductive scope :=
  SCOPE_NONE | SCOPE_NAMESPACE | SCOPE_NS_COLL | SCOPE_CLASS | SCOPE_CL_COLL | SCOPE_CL_METH | SCOPE_CL_METH_COLL |
  SCOPE_CL_ASSOC_COLL | SCOPE_CL_REF_COLL | SCOPE_INSTANCE | SCOPE_INST_COLL | SCOPE_INST_METH | SCOPE_INST_METH_COLL |
  SCOPE_INST_ASSOC_COLL | SCOPE_INST_REF_COLL.

#[export] Instance scope_eq : EqDecision scope.
Proof. solve_decision. Defined.

Record CimRsReq := {
  req_scope : scope; ns : option bytes; cn : option bytes; meth : option bytes; keyList : option bytes;
  sortedKeys : list bytes
}.

Definition empty_req : CimRsReq :=
  {| req_scope := SCOPE_NONE; ns := None; cn := None; meth := None; keyList := None; sortedKeys := [] |}.

Definition set_scope (r : CimRsReq) (s : scope) : CimRsReq :=
  {| req_scope := s; ns := ns r; cn := cn r; meth := meth r; keyList := keyList r; sortedKeys := sortedKeys r |}.
Definition set_meth (r : CimRsReq) (m : bytes) : CimRsReq :=
  {| req_scope := req_scope r; ns := ns r; cn := cn r; meth := Some m; keyList := keyList r; sortedKeys := sortedKeys r |}.
Definition set_keyList (r : CimRsReq) (k : bytes) : CimRsReq :=
  {| req_scope := req_scope r; ns := ns r; cn := cn r; meth := meth r; keyList := Some k; sortedKeys := sortedKeys r |}.
Definition set_ns (r : CimRsReq) (n : bytes) : CimRsReq :=
  {| req_scope := req_scope r; ns := Some n; cn := cn r; meth := meth r; keyList := keyList r; sortedKeys := sortedKeys r |}.
Definition set_cn (r : CimRsReq) (c : bytes) : CimRsReq :=
  {| req_scope := req_scope r; ns := ns r; cn := Some c; meth := meth r; keyList := keyList r; sortedKeys := sortedKeys r |}.

(** ** Parsing the path *)

Definition slash : Z := 47.
Definition question : Z := 63.

(** Not a decoder yet: two name spaces are known by a part of their name. *)
Definition percentDecode (s : bytes) : bytes :=
  match strstr s (cstr "cimv2") with
  | Some _ => cstr "root/cimv2"
  | None => match strstr s (cstr "interop") with Some _ => cstr "root/interop" | None => s end
  end.

Definition checkEndingFragment (fragment : bytes) (nameLen : nat) : option Z :=
  if (length fragment <? nameLen)%nat then None
  else Some (match drop nameLen fragment with [] => 0 | _ => -1 end).

Definition starts_with (s name : bytes) : bool := strncasecmp s name (strlen name) =? 0.

(** A resource that is a collection, which has to end here. *)
Definition collection (req : CimRsReq) (s : scope) (fragment : bytes) (nameLen : nat) : option (CimRsReq * Z) :=
  rc ← checkEndingFragment fragment nameLen; Some (set_scope req s, rc).

Definition parseMethodFragment (req : CimRsReq) (fragment : bytes) (coll name : scope) : option (CimRsReq * Z) :=
  match strchr fragment slash with
  | None => collection req coll fragment 7
  | Some m => Some (set_meth (set_scope req name) (drop 1 m), 0)
  end.

Definition parseInstanceFragment (req : CimRsReq) (fragment : bytes) : option (CimRsReq * Z) :=
  match strchr fragment slash with
  | None => collection req SCOPE_INST_COLL fragment 9
  | Some k =>
      let k := drop 1 k in
      match strchr k slash with
      | None => Some (set_keyList (set_scope req SCOPE_INSTANCE) (percentDecode k), 0)
      | Some t =>
          let req := set_keyList req (percentDecode (cut k t)) in
          let tmp := drop 1 t in
          if starts_with tmp (cstr "associators") then collection req SCOPE_INST_ASSOC_COLL tmp 11
          else if starts_with tmp (cstr "references") then collection req SCOPE_INST_REF_COLL tmp 10
          else if starts_with tmp (cstr "methods") then
            parseMethodFragment req tmp SCOPE_INST_METH_COLL SCOPE_INST_METH
          else Some (req, -1)
      end
  end.

Definition parseClassFragment (req : CimRsReq) (tmp : bytes) : option (CimRsReq * Z) :=
  if starts_with tmp (cstr "instances") then parseInstanceFragment req tmp
  else if starts_with tmp (cstr "associators") then collection req SCOPE_CL_ASSOC_COLL tmp 11
  else if starts_with tmp (cstr "references") then collection req SCOPE_CL_REF_COLL tmp 10
  else if starts_with tmp (cstr "methods") then parseMethodFragment req tmp SCOPE_CL_METH_COLL SCOPE_CL_METH
  else Some (req, -1).

(** Behind [/cimrs/], where a character is skipped without a look at it; the query is cut
    off if it begins there or later. *)
Definition without_query (tmp : bytes) : bytes :=
  match strchr tmp question with Some q => cut tmp q | None => tmp end.

Definition parseCimRsPath (path : bytes) (req : CimRsReq) : option (CimRsReq * Z) :=
  if negb (starts_with path (cstr "/cimrs")) then Some (req, -1)
  else if (length path <? 7)%nat then None
  else
    let tmp := drop 7 path in
    if negb (starts_with tmp (cstr "namespaces")) then Some (req, -1)
    else
      let tmp := if bool_decide (path !! 6%nat = Some question) then tmp else without_query tmp in
      match strchr tmp slash with
      | None => collection req SCOPE_NS_COLL tmp 10
      | Some n =>
          let n := drop 1 n in
          match strchr n slash with
          | None => Some (set_scope req SCOPE_NAMESPACE, 0)
          | Some t =>
              let req := set_ns req (percentDecode (cut n t)) in
              let tmp := drop 1 t in
              if negb (starts_with tmp (cstr "classes")) then Some (req, -1)
              else
                match strchr tmp slash with
                | None => collection req SCOPE_CL_COLL tmp 7
                | Some c =>
                    let c := drop 1 c in
                    match strchr c slash with
                    | None => Some (set_scope (set_cn req c) SCOPE_CLASS, 0)
                    | Some t => parseClassFragment (set_cn req (cut c t)) (drop 1 t)
                    end
                end
          end
      end.

(** ** Building the request *)

Inductive operation := OPS_GetClass | OPS_GetInstance | OPS_DeleteInstance | OPS_EnumerateClasses | OPS_EnumerateInstances.

(** What the builders put into the header and the segments of the request. *)
Record rs_request := { operation_ : operation; objectPath : object_path; localOnly : bool }.

(** The tokens of [strtok_r]: empty ones are skipped. *)
Fixpoint tokens (cur s : bytes) : list bytes :=
  match s with
  | [] => match cur with [] => [] | _ => [cur] end
  | c :: s =>
      if c =? 44 then match cur with [] => tokens [] s | _ => cur :: tokens [] s end
      else tokens (cur ++ [c]) s
  end.

Definition stringsort (a b : bytes) : Prop := strcmp a b <= 0.
#[export] Instance stringsort_dec a b : Decision (stringsort a b).
Proof. unfold stringsort. apply _. Defined.

(** The names of the keys of the class, which the broker is asked for. *)
Definition getSortedKeys (getKeyList : bytes -> bytes -> option (list bytes)) (req : CimRsReq) : option CimRsReq :=
  n ← ns req; c ← cn req; l ← getKeyList n c;
  Some {| req_scope := req_scope req; ns := ns req; cn := cn req; meth := meth req; keyList := keyList req;
          sortedKeys := merge_sort stringsort l |}.

(** A key without a value is left out, with a message. *)
Fixpoint add_keys (p : object_path) (names values : list bytes) : option object_path :=
  match names, values with
  | n :: names, v :: values => p ← __oft_addKey p n (Some (VChars v)) CMPI_chars false; add_keys p names values
  | _, _ => Some p
  end.

(** The request structure is not allocated for other verbs, but it is written to. *)
Definition simple_operation (s : scope) (verb : bytes) : option operation :=
  match s with
  | SCOPE_INSTANCE =>
      if strcmp verb (cstr "GET") =? 0 then Some OPS_GetInstance
      else if strcmp verb (cstr "DELETE") =? 0 then Some OPS_DeleteInstance else None
  | SCOPE_CLASS => if strcmp verb (cstr "GET") =? 0 then Some OPS_GetClass else None
  | _ => None
  end.

Definition buildSimpleRSRequest (req : CimRsReq) (verb : bytes) : option rs_request :=
  op ← simple_operation (req_scope req) verb;
  c ← cn req;
  let path := newObjectPath (ns req) c in
  path ← (if bool_decide (req_scope req = SCOPE_INSTANCE) then
            k ← keyList req; add_keys path (sortedKeys req) (tokens [] k)
          else Some path);
  Some {| operation_ := op; objectPath := path; localOnly := true |}.

Definition buildGetClassColl (req : CimRsReq) : rs_request :=
  {| operation_ := OPS_EnumerateClasses; objectPath := newObjectPath (ns req) (default [] (cn req)); localOnly := true |}.
Definition buildGetInstColl (req : CimRsReq) : rs_request :=
  {| operation_ := OPS_EnumerateInstances; objectPath := newObjectPath (ns req) (default [] (cn req)); localOnly := true |}.

(** The request for the resource, if there is one ([Some None] if not). *)
Definition build_request (getKeyList : bytes -> bytes -> option (list bytes)) (req : CimRsReq) (verb : bytes) :
    option (option rs_request) :=
  let get := strcmp verb (cstr "GET") =? 0 in
  match req_scope req with
  | SCOPE_INSTANCE | SCOPE_CLASS =>
      if get || (strcmp verb (cstr "DELETE") =? 0) then
        req ← getSortedKeys getKeyList req; r ← buildSimpleRSRequest req verb; Some (Some r)
      else Some None
  | SCOPE_CL_COLL => Some (if get then Some (buildGetClassColl req) else None)
  | SCOPE_INST_COLL => Some (if get then Some (buildGetInstColl req) else None)
  | _ => Some None
  end.

(** The parser of paths is not called: the request stays empty. *)
Definition scanCimRsRequest (getKeyList : bytes -> bytes -> option (list bytes)) (path verb : bytes) :
    option (Z * option rs_request) :=
  if negb (starts_with path (cstr "/cimrs")) then Some (1, None)
  else r ← build_request getKeyList empty_req verb; Some (0, r).

(** * Properties *)

(** ** Resources and their paths *)

Inductive resource :=
| Namespaces | Namespace (n : bytes) | Classes (n : bytes) | ClassOf (n c : bytes)
| ClassAssociators (n c : bytes) | ClassReferences (n c : bytes) | ClassMethods (n c : bytes) | ClassMethod (n c m : bytes)
| Instances (n c : bytes) | InstanceOf (n c k : bytes)
| InstanceAssociators (n c k : bytes) | InstanceReferences (n c k : bytes)
| InstanceMethods (n c k : bytes) | InstanceMethod (n c k m : bytes).

(** The segments behind [/cimrs/]. *)
Definition class_segments (n c : bytes) : list bytes := [cstr "namespaces"; n; cstr "classes"; c].
Definition instance_segments (n c k : bytes) : list bytes := class_segments n c ++ [cstr "instances"; k].
Definition resource_segments (r : resource) : list bytes :=
  match r with
  | Namespaces => [cstr "namespaces"]
  | Namespace n => [cstr "namespaces"; n]
  | Classes n => [cstr "namespaces"; n; cstr "classes"]
  | ClassOf n c => class_segments n c
  | ClassAssociators n c => class_segments n c ++ [cstr "associators"]
  | ClassReferences n c => class_segments n c ++ [cstr "references"]
  | ClassMethods n c => class_segments n c ++ [cstr "methods"]
  | ClassMethod n c m => class_segments n c ++ [cstr "methods"; m]
  | Instances n c => class_segments n c ++ [cstr "instances"]
  | InstanceOf n c k => instance_segments n c k
  | InstanceAssociators n c k => instance_segments n c k ++ [cstr "associators"]
  | InstanceReferences n c k => instance_segments n c k ++ [cstr "references"]
  | InstanceMethods n c k => instance_segments n c k ++ [cstr "methods"]
  | InstanceMethod n c k m => instance_segments n c k ++ [cstr "methods"; m]
  end.

Fixpoint join (l : list bytes) : bytes :=
  match l with [] => [] | [s] => s | s :: l => s ++ slash :: join l end.
Definition resource_path (r : resource) : bytes := cstr "/cimrs/" ++ join (resource_segments r).

(** What is known of the resource; of a name space by itself the name is not kept. *)
Definition request_of (s : scope) (n c k m : option bytes) : CimRsReq :=
  {| req_scope := s; ns := percentDecode <$> n; cn := c; meth := m; keyList := percentDecode <$> k; sortedKeys := [] |}.
Definition resource_request (r : resource) : CimRsReq :=
  match r with
  | Namespaces => request_of SCOPE_NS_COLL None None None None
  | Namespace _ => request_of SCOPE_NAMESPACE None None None None
  | Classes n => request_of SCOPE_CL_COLL (Some n) None None None
  | ClassOf n c => request_of SCOPE_CLASS (Some n) (Some c) None None
  | ClassAssociators n c => request_of SCOPE_CL_ASSOC_COLL (Some n) (Some c) None None
  | ClassReferences n c => request_of SCOPE_CL_REF_COLL (Some n) (Some c) None None
  | ClassMethods n c => request_of SCOPE_CL_METH_COLL (Some n) (Some c) None None
  | ClassMethod n c m => request_of SCOPE_CL_METH (Some n) (Some c) None (Some m)
  | Instances n c => request_of SCOPE_INST_COLL (Some n) (Some c) None None
  | InstanceOf n c k => request_of SCOPE_INSTANCE (Some n) (Some c) (Some k) None
  | InstanceAssociators n c k => request_of SCOPE_INST_ASSOC_COLL (Some n) (Some c) (Some k) None
  | InstanceReferences n c k => request_of SCOPE_INST_REF_COLL (Some n) (Some c) (Some k) None
  | InstanceMethods n c k => request_of SCOPE_INST_METH_COLL (Some n) (Some c) (Some k) None
  | InstanceMethod n c k m => request_of SCOPE_INST_METH (Some n) (Some c) (Some k) (Some m)
  end.

(** A part without a slash and a question mark. *)
Definition segment (s : bytes) : Prop := Forall (fun b => b <> slash /\ b <> question) s.

Lemma strchr_here s c rest : Forall (fun b => b <> c) s -> strchr (s ++ c :: rest) c = Some (c :: rest).
Proof.
  induction 1 as [|b s Hb _ IH]; cbn [app strchr]; [by rewrite Z.eqb_refl|]. by rewrite (proj2 (Z.eqb_neq b c)).
Qed.

Lemma strchr_nowhere s c : Forall (fun b => b <> c) s -> strchr s c = None.
Proof. induction 1 as [|b s Hb _ IH]; [done|]. cbn [strchr]. by rewrite (proj2 (Z.eqb_neq b c)). Qed.

Lemma starts_with_app name rest : starts_with (name ++ rest) name = true.
Proof.
  unfold starts_with, strncasecmp. rewrite take_strlen, take_strlen_self.
  unfold strcasecmp. rewrite strcmp_refl. done.
Qed.

Lemma segment_slash s rest : segment s -> strchr (s ++ slash :: rest) slash = Some (slash :: rest).
Proof. intros H. apply strchr_here. eapply Forall_impl; [exact H|]. by intros b []. Qed.
Lemma segment_no_slash s : segment s -> strchr s slash = None.
Proof. intros H. apply strchr_nowhere. eapply Forall_impl; [exact H|]. by intros b []. Qed.

Ltac segment_solve := apply (bool_decide_unpack _); vm_compute; exact I.
Lemma keyword_segments : segment (cstr "namespaces") /\ segment (cstr "classes") /\ segment (cstr "instances") /\
  segment (cstr "associators") /\ segment (cstr "references") /\ segment (cstr "methods").
Proof. split_and!; segment_solve. Qed.

Lemma join_cons s t l : join (s :: t :: l) = s ++ slash :: join (t :: l).
Proof. done. Qed.

Lemma join_no_question l : Forall segment l -> Forall (fun b => b <> question) (join l).
Proof.
  assert (K : forall s, segment s -> Forall (fun b => b <> question) s).
  { intros s H. eapply Forall_impl; [exact H|]. by intros b []. }
  induction 1 as [|s l Hs Hl IH]; [constructor|]. destruct l as [|t l]; [by apply K|]. rewrite join_cons.
  apply Forall_app. split; [by apply K|]. by constructor.
Qed.

Lemma without_query_ok x q : Forall (fun b => b <> question) x -> q = [] \/ (exists q', q = question :: q') ->
  without_query (x ++ q) = x.
Proof.
  intros Hx [->|[q' ->]]; unfold without_query.
  - by rewrite app_nil_r, strchr_nowhere.
  - rewrite strchr_here by done. apply cut_app.
Qed.

Lemma resource_namespaces r : exists rest, join (resource_segments r) = cstr "namespaces" ++ rest.
Proof. destruct r; eexists; solve [symmetry; apply app_nil_r | reflexivity]. Qed.

(** The path up to the segments of a resource. *)
Lemma path_segments r q : Forall segment (resource_segments r) -> q = [] \/ (exists q', q = question :: q') ->
  let path := resource_path r ++ q in
  starts_with path (cstr "/cimrs") = true /\ (length path <? 7)%nat = false /\
  starts_with (drop 7 path) (cstr "namespaces") = true /\ path !! 6%nat <> Some question /\
  without_query (drop 7 path) = join (resource_segments r).
Proof.
  intros Hr Hq. cbn zeta. unfold resource_path. rewrite <- app_assoc.
  change (drop 7 (cstr "/cimrs/" ++ join (resource_segments r) ++ q)) with (join (resource_segments r) ++ q).
  split_and!.
  - apply (starts_with_app (cstr "/cimrs") (47 :: join (resource_segments r) ++ q)).
  - reflexivity.
  - destruct (resource_namespaces r) as [rest ->]. rewrite <- app_assoc. apply starts_with_app.
  - intros H. by vm_compute in H.
  - apply without_query_ok; [|done]. by apply join_no_question.
Qed.

(** The keyword a fragment begins with. *)
Lemma starts_with_self name : starts_with name name = true.
Proof. rewrite <- (app_nil_r name) at 1. apply starts_with_app. Qed.

Lemma drop_slash s : drop 1 (slash :: s) = s.
Proof. done. Qed.

(** Steps through a path of segments. *)
Ltac parse_path :=
  repeat first
    [ rewrite join_cons
    | rewrite segment_slash by done
    | rewrite segment_no_slash by done
    | rewrite drop_slash
    | rewrite cut_app
    | rewrite starts_with_app
    | rewrite starts_with_self
    | match goal with |- context [starts_with ?a ?b] => replace (starts_with a b) with false by reflexivity end
    | progress cbn [join negb] ].

(** C23: the path of every kind of resource, made of segments without slash and question mark
    and with any query behind, is accepted and parsed to what [resource_request] says: the
    kind, the class and the method as they are, the name space and the key list as
    [percentDecode] gives them, which replaces one that contains cimv2 or interop; of a name
    space by itself only its kind, as its name is not kept. *)
Theorem resource_parsed r q : Forall segment (resource_segments r) -> q = [] \/ (exists q', q = question :: q') ->
  parseCimRsPath (resource_path r ++ q) empty_req = Some (resource_request r, 0).
Proof.
  intros Hr Hq. destruct (path_segments r q Hr Hq) as (H1 & H2 & H3 & H4 & H5). cbn zeta in *.
  unfold parseCimRsPath. rewrite H1, H2, H3, H5. cbn [negb]. rewrite bool_decide_false by done. clear H1 H2 H3 H4 H5.
  destruct keyword_segments as (K1 & K2 & K3 & K4 & K5 & K6).
  assert (Hs : Forall segment (resource_segments r)) by done. clear Hr.
  destruct r; unfold resource_segments, instance_segments, class_segments in *; cbn [app] in *;
    repeat match goal with H : Forall segment (_ :: _) |- _ => apply Forall_cons in H as [? H] end;
    unfold parseClassFragment, parseInstanceFragment, parseMethodFragment; parse_path; reflexivity.
Qed.

Lemma resource_parsed_witness :
  parseCimRsPath (resource_path (InstanceMethod (cstr "root") (cstr "CIM_Disk") (cstr "a,b") (cstr "Reset")) ++ cstr "?x=/y") empty_req =
  Some (resource_request (InstanceMethod (cstr "root") (cstr "CIM_Disk") (cstr "a,b") (cstr "Reset")), 0).
Proof.
  apply resource_parsed.
  - apply (bool_decide_unpack _). vm_compute. exact I.
  - right. exists (cstr "x=/y"). reflexivity.
Defined.

(** ** The fields of a request *)

(** Name space, class, key list and method. *)
Definition scope_fields (s : scope) : bool * bool * bool * bool :=
  match s with
  | SCOPE_NONE | SCOPE_NS_COLL | SCOPE_NAMESPACE => (false, false, false, false)
  | SCOPE_CL_COLL => (true, false, false, false)
  | SCOPE_CLASS | SCOPE_CL_METH_COLL | SCOPE_CL_ASSOC_COLL | SCOPE_CL_REF_COLL | SCOPE_INST_COLL => (true, true, false, false)
  | SCOPE_CL_METH => (true, true, false, true)
  | SCOPE_INSTANCE | SCOPE_INST_METH_COLL | SCOPE_INST_ASSOC_COLL | SCOPE_INST_REF_COLL => (true, true, true, false)
  | SCOPE_INST_METH => (true, true, true, true)
  end.

Definition set {A} (o : option A) : bool := match o with Some _ => true | None => false end.
Definition request_fields (req : CimRsReq) : bool * bool * bool * bool :=
  (set (ns req), set (cn req), set (keyList req), set (meth req)).

(** A request has a kind, and the fields of that kind. *)
Definition well_scoped (req : CimRsReq) : Prop :=
  req_scope req <> SCOPE_NONE /\ request_fields req = scope_fields (req_scope req).

Lemma collection_rc req s f n req' rc : collection req s f n = Some (req', rc) -> req' = set_scope req s.
Proof. unfold collection. destruct (checkEndingFragment f n); [|done]. cbn. congruence. Qed.

(** C24: a path that is accepted gives a request with exactly the fields of its kind,
    whatever the path. *)
Theorem accepted_well_scoped path req : parseCimRsPath path empty_req = Some (req, 0) -> well_scoped req.
Proof.
  unfold parseCimRsPath, parseClassFragment, parseInstanceFragment, parseMethodFragment. intros H.
  repeat match goal with
    | H : Some _ = Some _ |- _ => injection H as <-
    | H : collection _ _ _ _ = Some _ |- _ => apply collection_rc in H as ->
    | H : match ?x with Some _ => _ | None => _ end = Some _ |- _ => destruct x
    | H : (if ?x then _ else _) = Some _ |- _ => destruct x
    end; try discriminate; split; (discriminate || reflexivity).
Qed.

Lemma accepted_well_scoped_witness :
  well_scoped {| req_scope := SCOPE_CL_REF_COLL; ns := Some (cstr "root/interop"); cn := Some (cstr "C");
                 meth := None; keyList := None; sortedKeys := [] |}.
Proof. apply (accepted_well_scoped (cstr "/CIMRS:NameSpaces/interop1/classes_/C/References")). vm_compute. reflexivity. Defined.

(** No path of at least seven characters is read behind its end. *)
Lemma starts_with_length s name : starts_with s name = true -> (length name <= length s)%nat.
Proof.
  unfold starts_with, strncasecmp, strcasecmp. rewrite Z.eqb_eq, take_strlen_self, strcmp_eq. intros H.
  apply (f_equal length) in H. rewrite !length_fmap, length_take in H. lia.
Qed.

Lemma collection_defined req s f n : (n <= length f)%nat -> exists rc, collection req s f n = Some (set_scope req s, rc).
Proof.
  intros H. unfold collection, checkEndingFragment. rewrite (proj2 (Nat.ltb_ge _ _)) by done. cbn. by eexists.
Qed.

(** ** The keys of an instance *)

Lemma locate_key_none l id : Forall (fun k => lower id <> lower (fst k)) l -> locate_key l id = None.
Proof.
  induction 1 as [|[n d] l Hn _ IH]; [done|]. cbn [locate_key]. cbn [fst] in Hn. rewrite IH.
  destruct (Z.eqb_spec (strcasecmp id n) 0) as [E|_]; [|done]. by apply strcmp_eq in E.
Qed.

Lemma addKey_chars p n v : Forall (fun k => lower n <> lower (fst k)) (keys p) ->
  __oft_addKey p n (Some (VChars v)) CMPI_chars false = Some (set_keys p (keys p ++ [(n, chars_key v)])).
Proof.
  intros H. unfold __oft_addKey. cbn [mbind option_bind default is_NULL andb orb].
  unfold ClObjectPathAddKey. rewrite locate_key_none by done. done.
Qed.

Definition chars_pair (n v : bytes) : bytes * CMPIData := (n, chars_key v).

Lemma add_keys_new names values : forall p, length names = length values -> NoDup (lower <$> ((keys p).*1 ++ names)) ->
  add_keys p names values = Some (set_keys p (keys p ++ zip_with chars_pair names values)).
Proof.
  revert values. induction names as [|n names IH]; intros [|v values] p Hl Hd; try done.
  { cbn. rewrite app_nil_r. by destruct p. }
  cbn [add_keys]. rewrite addKey_chars.
  - cbn [mbind option_bind]. rewrite IH; [|by injection Hl|].
    + cbn [set_keys keys zip_with]. by rewrite <- app_assoc.
    + cbn [set_keys keys]. rewrite (fmap_app fst), <- app_assoc. exact Hd.
  - rewrite Forall_forall. intros k Hk E. rewrite fmap_app in Hd. apply NoDup_app in Hd as (_ & Hd & _).
    apply (Hd (lower n)); [|by left]. apply list_elem_of_fmap. exists (fst k). split; [done|].
    apply list_elem_of_fmap. by exists k.
Qed.

(** The values of the keys, separated by commas. *)
Fixpoint commas (l : list bytes) : bytes :=
  match l with [] => [] | [s] => s | s :: l => s ++ 44 :: commas l end.
Definition key_value_text (v : bytes) : Prop := v <> [] /\ Forall (fun b => b <> 44) v.

Lemma tokens_text cur s : Forall (fun b => b <> 44) s -> cur ++ s <> [] -> tokens cur s = [cur ++ s].
Proof.
  intros H. revert cur. induction H as [|b s Hb _ IH]; intros cur Hne; cbn [tokens].
  - rewrite app_nil_r in *. by destruct cur.
  - rewrite (proj2 (Z.eqb_neq b 44)) by done. rewrite IH; [by rewrite <- app_assoc|]. by destruct cur.
Qed.

Lemma tokens_comma cur s rest : Forall (fun b => b <> 44) s -> cur ++ s <> [] ->
  tokens cur (s ++ 44 :: rest) = (cur ++ s) :: tokens [] rest.
Proof.
  intros H. revert cur. induction H as [|b s Hb _ IH]; intros cur Hne; cbn [app tokens].
  - rewrite app_nil_r in *. by destruct cur.
  - rewrite (proj2 (Z.eqb_neq b 44)) by done. rewrite IH; [by rewrite <- app_assoc|]. by destruct cur.
Qed.

Lemma tokens_commas l : Forall key_value_text l -> tokens [] (commas l) = l.
Proof.
  induction 1 as [|v l [Hv Hc] _ IH]; [done|]. destruct l as [|w l]; [by apply tokens_text|].
  change (commas (v :: w :: l)) with (v ++ 44 :: commas (w :: l)). rewrite tokens_comma by done. by rewrite IH.
Qed.

(** a GET or DELETE of an instance asks for the object path with the keys of the class:
    the values of the path are given to the names in their [strcmp] order, when there is
    a value for every key and none is empty. *)
Theorem instance_requested getKeyList n c names values q verb op :
  segment n -> segment c -> segment (commas values) -> q = [] \/ (exists q', q = question :: q') ->
  percentDecode (commas values) = commas values -> Forall key_value_text values ->
  getKeyList (percentDecode n) c = Some names -> NoDup (lower <$> names) -> length values = length names ->
  simple_operation SCOPE_INSTANCE verb = Some op ->
  exists req, parseCimRsPath (resource_path (InstanceOf n c (commas values)) ++ q) empty_req = Some (req, 0) /\
    build_request getKeyList req verb = Some (Some {| operation_ := op;
      objectPath := {| nameSpace := Some (percentDecode n); hostName := None; className := c;
                       keys := zip_with chars_pair (merge_sort stringsort names) values |};
      localOnly := true |}).
Proof.
  intros Hn Hc Hk Hq Hdec Hv Hg Hd Hl Hop. destruct keyword_segments as (K1 & K2 & K3 & _).
  eexists. split; [apply resource_parsed; [|done]; by repeat constructor|].
  unfold build_request. cbn [resource_request request_of req_scope fmap option_fmap option_map].
  assert (Hverb : (strcmp verb (cstr "GET") =? 0) || (strcmp verb (cstr "DELETE") =? 0) = true).
  { cbn [simple_operation] in Hop. destruct (strcmp verb (cstr "GET") =? 0); [done|]. by destruct (strcmp verb (cstr "DELETE") =? 0). }
  rewrite Hverb. unfold getSortedKeys, request_of.
  cbn [ns cn fmap option_fmap option_map mbind option_bind]. rewrite Hg. cbn [mbind option_bind].
  unfold buildSimpleRSRequest. cbn [req_scope cn ns keyList sortedKeys]. rewrite Hop. cbn [mbind option_bind].
  rewrite bool_decide_true by done. rewrite Hdec, tokens_commas by done.
  pose proof (merge_sort_Permutation stringsort names) as Hp.
  rewrite add_keys_new; [reflexivity|by rewrite Hl, Hp|]. cbn [newObjectPath keys app fmap list_fmap]. by rewrite Hp.
Qed.

Definition wit_keys (_ _ : bytes) : option (list bytes) := Some [cstr "SystemName"; cstr "DeviceID"; cstr "CreationClassName"].

Lemma instance_requested_witness : exists req,
  parseCimRsPath (resource_path (InstanceOf (cstr "interop") (cstr "CIM_Disk") (commas [cstr "CIM_Disk"; cstr "7"; cstr "host"])) ++ cstr "?") empty_req = Some (req, 0) /\
  build_request wit_keys req (cstr "DELETE") = Some (Some {| operation_ := OPS_DeleteInstance;
      objectPath := {| nameSpace := Some (cstr "root/interop"); hostName := None; className := cstr "CIM_Disk";
                       keys := zip_with chars_pair [cstr "CreationClassName"; cstr "DeviceID"; cstr "SystemName"] [cstr "CIM_Disk"; cstr "7"; cstr "host"] |};
      localOnly := true |}).
Proof.
  apply (instance_requested wit_keys (cstr "interop") (cstr "CIM_Disk")
    [cstr "SystemName"; cstr "DeviceID"; cstr "CreationClassName"]);
    first [reflexivity | right; by exists [] | apply (bool_decide_unpack _); vm_compute; exact I].
Defined.

(** A class that is to be deleted: the request is written through a pointer that was not
    set; and no request for a resource is answered, because the path is not parsed. *)
Lemma delete_class_undefined g req : req_scope req = SCOPE_CLASS -> build_request g req (cstr "DELETE") = None.
Proof.
  intros H. unfold build_request. rewrite H.
  change ((strcmp (cstr "DELETE") (cstr "GET") =? 0) || (strcmp (cstr "DELETE") (cstr "DELETE") =? 0)) with true.
  destruct (getSortedKeys g req) as [req'|] eqn:E; [|done]. cbn [mbind option_bind].
  unfold getSortedKeys in E. destruct (ns req), (cn req); try done. cbn [mbind option_bind] in E.
  destruct (g _ _); [|done]. injection E as <-. unfold buildSimpleRSRequest. cbn [req_scope]. by rewrite H.
Qed.

Lemma resource_requests_unanswered g path verb :
  scanCimRsRequest g path verb = Some (if starts_with path (cstr "/cimrs") then 0 else 1, None).
Proof. unfold scanCimRsRequest. by destruct (starts_with path (cstr "/cimrs")). Qed.
