(* ===== verification/Interop.v ===== *)
(** * The interop provider (interopProvider.c)

    Filters, handlers and subscriptions of indications are kept in three hash tables of
    objects that point to each other: a subscription points to its filter and its
    handler, which count their subscriptions.  The objects live in stores, the tables
    hold their places ([loc]); an object that is released is no longer in its store.
    What others answer (the indication providers, the class provider, the repository of
    instances, the settings) is part of a request.  [None] is undefined behaviour: a null
    or released pointer is followed, or a buffer is overrun. *)

From Stdlib Require Import Floats.SpecFloat.
From S2P Require Import Prelude CString HashTable CmpiData ObjectPath.

Definition CMPI_RC_ERR_NOT_SUPPORTED : Z := 7.
Definition CMPI_RC_ERR_ALREADY_EXISTS : Z := 11.
Definition CMPI_RC_ERR_QUERY_LANGUAGE_NOT_SUPPORTED : Z := 14.
Definition CMPI_RC_ERR_INVALID_QUERY : Z := 15.
Definition CMPI_RC_ERR_METHOD_NOT_FOUND : Z := 17.

Definition OPS_ActivateFilter : Z := 28.
Definition OPS_DeactivateFilter : Z := 29.
Definition OPS_DisableIndications : Z := 30.
Definition OPS_EnableIndications : Z := 31.

(** ** Instances *)

(** What a filter is made of, before and after it is completed. *)
Record filter_data := {
  querylanguage : option bytes; query : option bytes; individual : option (option bool);
  sourceNamespace : option bytes; sourceNamespaces : option (list (option bytes)); systemName : option bytes
}.

(** An instance of a subscription or filter: its references, its SubscriptionState
    ([None]: no such property, [Some None]: null), and the properties of a filter. *)
Class IndicationInstance (I : Type) := {
  filter_prop : I -> option object_path;
  handler_prop : I -> option object_path;
  state_prop : I -> option (option Z);
  set_state : I -> Z -> I;
  set_start : I -> I;
  filter_props : I -> filter_data;
  set_filter_props : I -> filter_data -> I;
  state_set : forall i v, state_prop (set_state i v) = Some (Some v);
  state_start : forall i, state_prop (set_start i) = state_prop i
}.

(** ** Objects *)

Abbreviation loc := nat.

Record Filter (I : Type) := {
  fci : I; useCount : Z; fromClasses : list bytes; f_query : bytes; f_lang : bytes; sns : bytes; snsa : option (list (option bytes))
}.
Record Handler (I : Type) := { hci : I; hop : object_path; h_useCount : Z }.
Record Subscription (I : Type) := { sci : I; fi : loc; ha : loc }.
Arguments fci {I}. Arguments useCount {I}. Arguments fromClasses {I}. Arguments f_query {I}. Arguments f_lang {I}.
Arguments sns {I}. Arguments snsa {I}.
Arguments hci {I}. Arguments hop {I}. Arguments h_useCount {I}.
Arguments sci {I}. Arguments fi {I}. Arguments ha {I}.
Arguments Build_Filter {I}. Arguments Build_Handler {I}. Arguments Build_Subscription {I}.

Definition filter_uses {I} (f : Filter I) (d : Z) : Filter I :=
  {| fci := fci f; useCount := useCount f + d; fromClasses := fromClasses f; f_query := f_query f; f_lang := f_lang f;
     sns := sns f; snsa := snsa f |}.
Definition handler_uses {I} (h : Handler I) (d : Z) : Handler I :=
  {| hci := hci h; hop := hop h; h_useCount := h_useCount h + d |}.

(** The provider's variables; a table that is not made yet is an empty one.  [next] is
    the next place that is given out. *)
Record interop (T I : Type) := {
  filterHt : T; handlerHt : T; subscriptionHt : T;
  filters : gmap loc (Filter I); handlers : gmap loc (Handler I); subs : gmap loc (Subscription I);
  next : loc; LDcount : Z; AScount : Z
}.
Arguments filterHt {T I}. Arguments handlerHt {T I}. Arguments subscriptionHt {T I}.
Arguments filters {T I}. Arguments handlers {T I}. Arguments subs {T I}.
Arguments next {T I}. Arguments LDcount {T I}. Arguments AScount {T I}.
Arguments Build_interop {T I}.

(** How the providers of a class answer: the codes of those that were called, or the
    code of a failed search. *)
Inductive answers := Providers (rcs : list Z) | NoProvider (irc : Z).

Section interop.
Context {T I : Type} `{ht : CharHashTable T loc} `{hw : !HashTableWalk T loc} `{hi : IndicationInstance I}.
Context (print_g : spec_float -> bytes).
(** The class provider, and the parser of queries: its code and the classes of the query. *)
Context (isChild : bytes -> bytes -> bytes -> bool).
Context (parseQuery : bytes -> bytes -> bytes -> Z * list bytes).

Implicit Types st : interop T I.
Implicit Types ask : bytes -> bytes -> Z -> answers.

Definition path_key (op : object_path) : option bytes := normalizeObjectPathCharsDup print_g op.

Definition interOpNameSpace (cop : object_path) : option bool :=
  ns ← nameSpace cop;
  Some ((strcasecmp ns (cstr "root/interop") =? 0) || (strcasecmp ns (cstr "root/pg_interop") =? 0)).

Definition set_counts st (ld a : Z) : interop T I :=
  {| filterHt := filterHt st; handlerHt := handlerHt st; subscriptionHt := subscriptionHt st; filters := filters st;
     handlers := handlers st; subs := subs st; next := next st; LDcount := ld; AScount := a |}.
Definition set_filters st (t : T) (m : gmap loc (Filter I)) (n : loc) : interop T I :=
  {| filterHt := t; handlerHt := handlerHt st; subscriptionHt := subscriptionHt st; filters := m;
     handlers := handlers st; subs := subs st; next := n; LDcount := LDcount st; AScount := AScount st |}.
Definition set_handlers st (t : T) (m : gmap loc (Handler I)) (n : loc) : interop T I :=
  {| filterHt := filterHt st; handlerHt := t; subscriptionHt := subscriptionHt st; filters := filters st;
     handlers := m; subs := subs st; next := n; LDcount := LDcount st; AScount := AScount st |}.
Definition set_subs st (t : T) (m : gmap loc (Subscription I)) (n : loc) : interop T I :=
  {| filterHt := filterHt st; handlerHt := handlerHt st; subscriptionHt := t; filters := filters st;
     handlers := handlers st; subs := m; next := n; LDcount := LDcount st; AScount := AScount st |}.

(** ** Filters *)

Definition getFilter st (key : bytes) : option loc := ht_get (filterHt st) key.

Definition addFilter st (ci : I) (key : bytes) (classes : list bytes) (q l s : bytes) (a : option (list (option bytes))) :
    interop T I * option loc :=
  match ht_get (filterHt st) key with
  | Some _ => (st, None)
  | None =>
      (set_filters st (ht_put (filterHt st) key (next st))
         (<[next st := {| fci := ci; useCount := 0; fromClasses := classes; f_query := q; f_lang := l; sns := s; snsa := a |}]>
            (filters st)) (S (next st)), Some (next st))
  end.

Definition removeFilter st (p : loc) (key : bytes) : interop T I :=
  set_filters st (ht_remove (filterHt st) key) (delete p (filters st)) (next st).

(** ** Handlers *)

Definition getHandler st (key : bytes) : option loc := ht_get (handlerHt st) key.

Definition addHandler st (ci : I) (op : object_path) : option (interop T I * option loc) :=
  key ← path_key op;
  match ht_get (handlerHt st) key with
  | Some _ => Some (st, None)
  | None =>
      Some (set_handlers st (ht_put (handlerHt st) key (next st))
              (<[next st := {| hci := ci; hop := op; h_useCount := 0 |}]> (handlers st)) (S (next st)), Some (next st))
  end.

Definition removeHandler st (p : loc) (key : bytes) : interop T I :=
  set_handlers st (ht_remove (handlerHt st) key) (delete p (handlers st)) (next st).

Definition updateHandler st (ci : I) (op : object_path) : option (interop T I * option loc) :=
  key ← path_key op;
  match ht_get (handlerHt st) key with
  | None => Some (st, None)
  | Some p =>
      h ← handlers st !! p;
      Some (set_handlers st (ht_put (handlerHt st) key p)
              (<[p := {| hci := ci; hop := op; h_useCount := h_useCount h |}]> (handlers st)) (next st), Some p)
  end.

(** ** Subscriptions *)

Definition getSubscription st (key : bytes) : option loc := ht_get (subscriptionHt st) key.

Definition count_uses st (p q : loc) (d : Z) : option (interop T I) :=
  f ← filters st !! p; h ← handlers st !! q;
  Some (set_handlers (set_filters st (filterHt st) (<[p := filter_uses f d]> (filters st)) (next st))
          (handlerHt st) (<[q := handler_uses h d]> (handlers st)) (next st)).

Definition addSubscription st (ci : I) (key : bytes) (p q : loc) : option (interop T I * option loc) :=
  match ht_get (subscriptionHt st) key with
  | Some _ => Some (st, None)
  | None =>
      st ← count_uses st p q 1;
      Some (set_subs st (ht_put (subscriptionHt st) key (next st))
              (<[next st := {| sci := ci; fi := p; ha := q |}]> (subs st)) (S (next st)), Some (next st))
  end.

Definition removeSubscription st (su : option loc) (key : bytes) : option (interop T I) :=
  let st' := set_subs st (ht_remove (subscriptionHt st) key) (subs st) (next st) in
  match su with
  | None => Some st'
  | Some l =>
      s ← subs st' !! l;
      st' ← count_uses st' (fi s) (ha s) (-1);
      Some (set_subs st' (subscriptionHt st') (delete l (subs st')) (next st'))
  end.

(** ** Requests to the indication providers *)

Definition isa (ns child parent : bytes) : bool := (strcasecmp child parent =? 0) || isChild ns parent child.

(** One good provider makes success, else the first code counts. *)
Definition provider_status (a : answers) : Z :=
  match a with
  | Providers rcs => if existsb (Z.eqb 0) rcs then 0 else match rcs with [] => 0 | rc :: _ => rc end
  | NoProvider _ => CMPI_RC_ERR_FAILED
  end.

(** The name spaces go through a buffer of 512 bytes. *)
Definition request_namespaces (f : Filter I) : option (list bytes) :=
  match snsa f with
  | None => Some [sns f]
  | Some l => mapM (fun o => s ← o; if strlen s <? 512 then Some s else None) l
  end.

(** Every name space is asked; the status is that of the last.  What the providers of one
    name space answered is still in [resp] when another has none ([held]), and is then
    freed a second time. *)
Fixpoint ask_namespaces ask (cn : bytes) (optype : Z) (held : bool) (rc : Z) (l : list bytes) : option Z :=
  match l with
  | [] => Some rc
  | ns :: l =>
      match ask ns cn optype with
      | Providers rcs => ask_namespaces ask cn optype true (provider_status (Providers rcs)) l
      | NoProvider irc => if held then None else ask_namespaces ask cn optype false (provider_status (NoProvider irc)) l
      end
  end.

Definition genericSubscriptionRequest ask (f : Filter I) (cn : bytes) (optype : Z) : option Z :=
  l ← request_namespaces f; ask_namespaces ask cn optype false 0 l.

Definition indication_class (ns cn : bytes) : bool :=
  isa ns cn (cstr "CIM_ProcessIndication") || isa ns cn (cstr "CIM_InstCreation") || isa ns cn (cstr "CIM_InstDeletion") ||
  isa ns cn (cstr "CIM_InstModification").

Fixpoint forward_classes ask (f : Filter I) (optype : Z) (classes : list bytes) (activated : nat) : option nat :=
  match classes with
  | [] => Some activated
  | cn :: classes =>
      if indication_class (sns f) cn then
        rc ← genericSubscriptionRequest ask f cn optype;
        forward_classes ask f optype classes (if rc =? 0 then S activated else activated)
      else forward_classes ask f optype classes activated
  end.

Definition fowardSubscription ask (f : Filter I) (optype : Z) : option Z :=
  n ← forward_classes ask f optype (fromClasses f) 0;
  Some (match n with O => CMPI_RC_ERR_NOT_SUPPORTED | S _ => CMPI_RC_OK end).

(** The filter of a subscription is told; its answer is not looked at. *)
Definition switchIndications st ask (ci : I) (optype : Z) : option unit :=
  op ← filter_prop ci; key ← path_key op; p ← getFilter st key; f ← filters st !! p;
  _ ← fowardSubscription ask f optype; Some tt.

(** ** Processing a new subscription *)

(** A reference of the subscription leads to an object of the table. *)
Definition refers (table : T) (op : option object_path) : option (Z + loc) :=
  op ← op; interop_ns ← interOpNameSpace op;
  if negb interop_ns then Some (inl CMPI_RC_ERR_FAILED)
  else key ← path_key op; Some (match ht_get table key with None => inl CMPI_RC_ERR_NOT_FOUND | Some p => inr p end).

Definition activate st ask (ci : I) (skey : bytes) (p q : loc) (state : Z) : option (interop T I * Z) :=
  '(st, su) ← addSubscription st (set_start ci) skey p q;
  f ← filters st !! p;
  '(st, rc) ← (if useCount f =? 1 then
                 rc ← fowardSubscription ask f OPS_ActivateFilter;
                 if rc =? CMPI_RC_OK then Some (st, rc)
                 else st ← removeSubscription st su skey; Some (st, rc)
               else Some (st, CMPI_RC_OK));
  if rc =? CMPI_RC_OK then
    f ← filters st !! p;
    if (state =? 2) && (useCount f =? 1) then rc ← fowardSubscription ask f OPS_EnableIndications; Some (st, rc)
    else Some (st, rc)
  else Some (st, rc).

Definition processSubscription st ask (maxActive : Z) (ci : I) (cop : object_path) : option (interop T I * Z) :=
  skey ← path_key cop;
  match getSubscription st skey with
  | Some _ => Some (st, CMPI_RC_ERR_ALREADY_EXISTS)
  | None =>
      r ← refers (filterHt st) (filter_prop ci);
      match r with
      | inl rc => Some (st, rc)
      | inr p =>
          r ← refers (handlerHt st) (handler_prop ci);
          match r with
          | inl rc => Some (st, rc)
          | inr q =>
              let '(ci, state) := match state_prop ci with Some (Some v) => (ci, v) | _ => (set_state ci 2, 2) end in
              if state =? 2 then
                if maxActive <? AScount st + 1 then Some (st, CMPI_RC_ERR_FAILED)
                else activate (set_counts st (LDcount st) (AScount st + 1)) ask ci skey p q state
              else activate st ask ci skey p q state
          end
      end
  end.

(** ** Operations on instances *)

(** Blanks are left out of the name of the language, and what is behind 15 characters. *)
Definition language_name (ql : bytes) : bytes := take 15 (List.filter (fun c => (32 <? c) && (c <? 128)) ql).
Definition known_language (l : bytes) : bool :=
  (strcasecmp l (cstr "wql") =? 0) || (strcasecmp l (cstr "cql") =? 0) || (strcasecmp l (cstr "cim:cql") =? 0).

Definition add_text_key (op : object_path) (name value : bytes) : option object_path :=
  __oft_addKey op name (Some (VChars value)) CMPI_chars false.
Definition setCCN (op : object_path) (sccn : bytes) : option object_path :=
  op ← add_text_key op (cstr "creationclassname") (className op); add_text_key op (cstr "systemcreationclassname") sccn.

(** The path of a new filter, with the keys that the client need not give. *)
Definition filter_path (hostName : bytes) (cop : object_path) (d : filter_data) : option object_path :=
  cop ← setCCN cop (cstr "CIM_ComputerSystem");
  match systemName d with None => add_text_key cop (cstr "SystemName") hostName | Some _ => Some cop end.

(** The name spaces of a filter are completed from each other; [None] is a null one. *)
Definition complete_namespaces (d : filter_data) : option bytes * option (list (option bytes)) :=
  match sourceNamespace d, sourceNamespaces d with
  | None, None => (Some (cstr "root/interop"), Some [Some (cstr "root/interop")])
  | None, Some l => (mjoin (head l), Some l)
  | Some s, None => (Some s, Some [Some s])
  | Some s, Some l => (Some s, Some l)
  end.

(** The filter that is added has the name spaces of the request, not the completed ones. *)
Definition createFilter st (hostName : bytes) (cop : object_path) (ci : I) : option (interop T I * Z) :=
  let d := filter_props ci in
  cop ← filter_path hostName cop d;
  if match individual d with Some b => negb (default false b) | None => false end then Some (st, CMPI_RC_ERR_NOT_SUPPORTED)
  else
    match querylanguage d, query d with
    | Some ql, Some q =>
        let '(s, ss) := complete_namespaces d in
        let lng := language_name ql in
        if negb (known_language lng) then Some (st, CMPI_RC_ERR_QUERY_LANGUAGE_NOT_SUPPORTED)
        else
          key ← path_key cop;
          match getFilter st key with
          | Some _ => Some (st, CMPI_RC_ERR_ALREADY_EXISTS)
          | None =>
              s ← s;
              let '(rc, classes) := parseQuery q lng s in
              if negb (rc =? 0) then Some (st, CMPI_RC_ERR_INVALID_QUERY)
              else
                let ci := set_filter_props ci {| querylanguage := Some ql; query := Some q; individual := Some (Some true);
                  sourceNamespace := Some s; sourceNamespaces := ss; systemName := Some (default hostName (systemName d)) |} in
                Some (fst (addFilter st ci key classes q lng s (sourceNamespaces d)), CMPI_RC_OK)
          end
    | _, _ => Some (st, CMPI_RC_ERR_FAILED)
    end.

(** What the rest of the broker answers during a request: the indication providers, the
    settings, the look-up of filter and handler of a subscription in the repository, the
    subscription stored there, and the status of the change of the repository. *)
Record environment := {
  ask : bytes -> bytes -> Z -> answers; maxActive : Z; maxHandlers : Z; localHost : bytes;
  verified : Z; stored : option I; repository_rc : Z
}.

(** A change that was accepted is made in the repository. *)
Definition in_repository (env : environment) (r : option (interop T I * Z)) : option (interop T I * Z) :=
  '(st, rc) ← r; Some (st, if rc =? CMPI_RC_OK then repository_rc env else rc).

Definition InteropProviderCreateInstance st (env : environment) (cop : object_path) (ci : I) : option (interop T I * Z) :=
  interop_ns ← interOpNameSpace cop;
  ns ← nameSpace cop;
  if negb interop_ns then Some (st, CMPI_RC_ERR_FAILED)
  else if isa ns (className cop) (cstr "cim_indicationsubscription") then
    if negb (verified env =? CMPI_RC_OK) then Some (st, verified env)
    else in_repository env (processSubscription st (ask env) (maxActive env) ci cop)
  else if isa ns (className cop) (cstr "cim_indicationfilter") then in_repository env (createFilter st (localHost env) cop ci)
  else Some (st, CMPI_RC_ERR_NOT_SUPPORTED).

Definition state_value (i : I) : Z := match state_prop i with Some (Some v) => v | _ => 0 end.
Definition state_rc (i : I) : Z := match state_prop i with Some _ => CMPI_RC_OK | None => CMPI_RC_ERR_NO_SUCH_PROPERTY end.

Definition set_instance st (l : loc) (s : Subscription I) (ci : I) : interop T I :=
  set_subs st (subscriptionHt st) (<[l := {| sci := ci; fi := fi s; ha := ha s |}]> (subs st)) (next st).

Definition modifySubscription st (env : environment) (cop : object_path) (ci : I) : option (interop T I * Z) :=
  key ← path_key cop;
  match getSubscription st key with
  | None => Some (st, CMPI_RC_ERR_NOT_FOUND)
  | Some l =>
      s ← subs st !! l;
      let old := state_value (sci s) in
      match state_prop ci with
      | Some (Some new) =>
          if (new =? 2) && negb (old =? 2) then
            if maxActive env <? AScount st + 1 then Some (st, CMPI_RC_ERR_FAILED)
            else _ ← switchIndications st (ask env) ci OPS_EnableIndications;
                 Some (set_instance (set_counts st (LDcount st) (AScount st + 1)) l s ci, CMPI_RC_OK)
          else if (new =? 4) && negb (old =? 4) then
            _ ← switchIndications st (ask env) ci OPS_DisableIndications;
            Some (set_instance (set_counts st (LDcount st) (AScount st - 1)) l s ci, CMPI_RC_OK)
          else Some (set_instance st l s ci, CMPI_RC_OK)
      | _ => Some (set_instance st l s ci, state_rc ci)
      end
  end.

(** [dest] is the status of the new Destination: not found or null, or good. *)
Definition modifyHandler st (dest : bool) (cop : object_path) (ci : I) : option (interop T I * Z) :=
  key ← path_key cop;
  match getHandler st key with
  | None => Some (st, CMPI_RC_ERR_NOT_FOUND)
  | Some p =>
      h ← handlers st !! p;
      if negb dest then Some (st, CMPI_RC_ERR_FAILED)
      else Some (set_handlers st (handlerHt st)
                   (<[p := {| hci := ci; hop := hop h; h_useCount := h_useCount h |}]> (handlers st)) (next st), CMPI_RC_OK)
  end.

Definition InteropProviderModifyInstance st (env : environment) (dest : bool) (cop : object_path) (ci : I) :
    option (interop T I * Z) :=
  if isa (cstr "root/interop") (className cop) (cstr "cim_indicationsubscription") then
    in_repository env (modifySubscription st env cop ci)
  else if isa (cstr "root/interop") (className cop) (cstr "cim_listenerdestination") then
    in_repository env (modifyHandler st dest cop ci)
  else Some (st, CMPI_RC_ERR_NOT_SUPPORTED).

(** The classes of a filter are told that it is not used any more. *)
Definition deactivate (env : environment) (f : Filter I) : option unit :=
  _ ← mapM (fun cn => genericSubscriptionRequest (ask env) f cn OPS_DeactivateFilter) (fromClasses f); Some tt.

Definition deleteSubscription st (env : environment) (key : bytes) : option (interop T I * Z) :=
  match getSubscription st key with
  | None => Some (st, CMPI_RC_ERR_NOT_FOUND)
  | Some l =>
      s ← subs st !! l;
      f ← filters st !! fi s;
      _ ← (if useCount f =? 1 then deactivate env f else Some tt);
      ci ← stored env;
      let state := match state_prop ci with Some (Some v) => v | _ => 2 end in
      let st := if state =? 2 then set_counts st (LDcount st) (AScount st - 1) else st in
      st ← removeSubscription st (Some l) key;
      Some (st, state_rc ci)
  end.

Definition deleteFilter st (key : bytes) : option (interop T I * Z) :=
  match getFilter st key with
  | None => Some (st, CMPI_RC_ERR_NOT_FOUND)
  | Some p =>
      f ← filters st !! p;
      if negb (useCount f =? 0) then Some (st, CMPI_RC_ERR_FAILED) else Some (removeFilter st p key, CMPI_RC_OK)
  end.

Definition InteropProviderDeleteInstance st (env : environment) (cop : object_path) : option (interop T I * Z) :=
  key ← path_key cop;
  ns ← nameSpace cop;
  if isa ns (className cop) (cstr "cim_indicationsubscription") then in_repository env (deleteSubscription st env key)
  else if isa ns (className cop) (cstr "cim_indicationfilter") then in_repository env (deleteFilter st key)
  else Some (st, CMPI_RC_ERR_NOT_SUPPORTED).

(** ** Methods *)

(** The count goes up whether or not the handler is new. *)
Definition method_addHandler st (env : environment) (ci : I) (op : object_path) : option (interop T I * Z) :=
  if maxHandlers env <? LDcount st + 1 then Some (st, CMPI_RC_ERR_FAILED)
  else
    r ← addHandler (set_counts st (LDcount st + 1) (AScount st)) ci op;
    Some (fst r, CMPI_RC_OK).

(** The count goes down whether or not the handler is removed. *)
Definition method_removeHandler st (op : object_path) : option (interop T I * Z) :=
  key ← path_key op;
  match getHandler st key with
  | None => Some (st, CMPI_RC_ERR_NOT_FOUND)
  | Some p =>
      h ← handlers st !! p;
      let '(st, rc) := if negb (h_useCount h =? 0) then (st, CMPI_RC_ERR_FAILED) else (removeHandler st p key, CMPI_RC_OK) in
      Some (set_counts st (LDcount st - 1) (AScount st), rc)
  end.

Definition method_updateHandler st (ci : I) (op : object_path) : option (interop T I * Z) :=
  r ← updateHandler st ci op; Some (fst r, CMPI_RC_OK).

(** The paths of the handlers an indication is sent to, with the subscriptions, in the
    order of the table. *)
Fixpoint deliver_to st (filterId : loc) (walk : list loc) : option (list (object_path * I)) :=
  match walk with
  | [] => Some []
  | l :: walk =>
      s ← subs st !! l;
      r ← deliver_to st filterId walk;
      if (fi s =? filterId)%nat then h ← handlers st !! ha s; Some ((hop h, sci s) :: r) else Some r
  end.

Definition method_deliver st (filterId : loc) : option (list (object_path * I)) :=
  _ ← filters st !! filterId; deliver_to st filterId (ht_values (subscriptionHt st)).

(** ** Start *)

(** What the repository holds: filters with their keys and queries, handlers, and
    subscriptions.  A subscription without its filter or handler is deleted there. *)
Definition load_filter st (x : object_path * I) : option (interop T I) :=
  let '(cop, ci) := x in
  let d := filter_props ci in
  q ← query d; l ← querylanguage d; s ← sourceNamespace d; key ← path_key cop;
  Some (fst (addFilter st ci key (snd (parseQuery q l s)) q l s (sourceNamespaces d))).
Definition load_handler st (x : object_path * I) : option (interop T I) := r ← addHandler st (snd x) (fst x); Some (fst r).
Definition load_subscription (env : environment) st (x : object_path * I) : option (interop T I * list object_path) :=
  '(st, rc) ← processSubscription st (ask env) (maxActive env) (snd x) (fst x);
  Some (st, if rc =? CMPI_RC_ERR_NOT_FOUND then [fst x] else []).

Fixpoint load_all {A} (load : interop T I -> A -> option (interop T I)) st (l : list A) : option (interop T I) :=
  match l with [] => Some st | x :: l => st ← load st x; load_all load st l end.
Fixpoint load_subscriptions (env : environment) st (l : list (object_path * I)) : option (interop T I * list object_path) :=
  match l with
  | [] => Some (st, [])
  | x :: l => '(st, d) ← load_subscription env st x; '(st, d') ← load_subscriptions env st l; Some (st, d ++ d')
  end.

Definition empty_interop : interop T I :=
  {| filterHt := ht_new; handlerHt := ht_new; subscriptionHt := ht_new; filters := ∅; handlers := ∅; subs := ∅;
     next := 0; LDcount := 0; AScount := 0 |}.

(** Handlers that are found are not counted. *)
Definition initInterOp st (env : environment) (fs hs ss : list (object_path * I)) : option (interop T I * list object_path) :=
  st ← load_all load_filter st fs;
  st ← load_all load_handler st hs;
  load_subscriptions env st ss.

(** ** Requests *)

Inductive method_call :=
| Deliver (filterId : loc)
| AddHandler (ci : I) (op : object_path)
| RemoveHandler (op : object_path)
| UpdateHandler (ci : I) (op : object_path)
| Startup (fs hs ss : list (object_path * I))
| OtherMethod.

Definition InteropProviderInvokeMethod st (env : environment) (ref : object_path) (call : method_call) :
    option (interop T I * Z) :=
  interop_ns ← interOpNameSpace ref;
  if negb interop_ns then Some (st, CMPI_RC_ERR_FAILED)
  else
    match call with
    | Deliver filterId => _ ← method_deliver st filterId; Some (st, CMPI_RC_OK)
    | AddHandler ci op => method_addHandler st env ci op
    | RemoveHandler op => method_removeHandler st op
    | UpdateHandler ci op => method_updateHandler st ci op
    | Startup fs hs ss => r ← initInterOp st env fs hs ss; Some (fst r, CMPI_RC_OK)
    | OtherMethod => Some (st, CMPI_RC_ERR_METHOD_NOT_FOUND)
    end.

Inductive request :=
| CreateInstance (env : environment) (cop : object_path) (ci : I)
| ModifyInstance (env : environment) (dest : bool) (cop : object_path) (ci : I)
| DeleteInstance (env : environment) (cop : object_path)
| InvokeMethod (env : environment) (ref : object_path) (call : method_call).

Definition handle st (r : request) : option (interop T I * Z) :=
  match r with
  | CreateInstance env cop ci => InteropProviderCreateInstance st env cop ci
  | ModifyInstance env dest cop ci => InteropProviderModifyInstance st env dest cop ci
  | DeleteInstance env cop => InteropProviderDeleteInstance st env cop
  | InvokeMethod env ref call => InteropProviderInvokeMethod st env ref call
  end.

(** The requests one after the other, with their codes. *)
Fixpoint handle_all st (l : list request) : option (interop T I * list Z) :=
  match l with
  | [] => Some (st, [])
  | r :: l => '(st, rc) ← handle st r; '(st, rcs) ← handle_all st l; Some (st, rc :: rcs)
  end.
End interop.

(** ** The threads that deliver *)

(** Free places of the semaphore, and threads that run. *)
Record delivery := { avail : Z; running : Z }.
Inductive delivery_event := Start (timed_out : bool) | Done.

(** A thread is started also when there was no place in time; it posts when it is done. *)
Definition delivery_step (d : delivery) (e : delivery_event) : option delivery :=
  match e with
  | Start timed_out =>
      if 0 <? avail d then Some {| avail := avail d - 1; running := running d + 1 |}
      else if timed_out then Some {| avail := avail d; running := running d + 1 |} else None
  | Done => if 0 <? running d then Some {| avail := avail d + 1; running := running d - 1 |} else None
  end.

Fixpoint delivery_steps (d : delivery) (l : list delivery_event) : option delivery :=
  match l with [] => Some d | e :: l => d ← delivery_step d e; delivery_steps d l end.
