(* ===== verification/InteropSafety.v ===== *)
(** * Consistency of the interop provider

    Whatever requests are handled, the use counts are right and no table or
    subscription points to a released object; so no well-formed request meets undefined
    behaviour.  What the two limits count, and when they miscount. *)

From Stdlib Require Import Floats.SpecFloat.
From S2P Require Import Prelude CString HashTable CmpiData ObjectPath Interop.

(** ** Counting the objects of a store *)

Section count.
Context {A : Type} (P : A -> Prop) `{forall x, Decision (P x)}.

Definition count (m : gmap loc A) : Z := Z.of_nat (size (filter (fun kv => P (snd kv)) m)).

Lemma count_empty : count ∅ = 0.
Proof. done. Qed.

Lemma count_insert m l x : m !! l = None -> count (<[l := x]> m) = (if decide (P x) then 1 else 0) + count m.
Proof.
  intros Hl. unfold count. destruct (decide (P x)) as [HP|HP].
  - rewrite map_filter_insert_True by done. rewrite map_size_insert_None; [lia|]. apply map_lookup_filter_None. by left.
  - rewrite map_filter_insert_False by done. by rewrite delete_id.
Qed.

Lemma count_delete m l x : m !! l = Some x -> count m = (if decide (P x) then 1 else 0) + count (delete l m).
Proof. intros Hl. rewrite <- (insert_delete_id m l x Hl) at 1. apply count_insert, lookup_delete_eq. Qed.

Lemma count_replace m l x y : m !! l = Some x -> (P x <-> P y) -> count (<[l := y]> m) = count m.
Proof.
  intros Hl HP. rewrite (count_delete m l x Hl), <- insert_delete_eq, count_insert by apply lookup_delete_eq.
  f_equal. destruct (decide (P x)), (decide (P y)); tauto.
Qed.

Lemma count_nonneg m : 0 <= count m.
Proof. unfold count. lia. Qed.

Lemma count_none m : (forall l x, m !! l = Some x -> ~ P x) -> count m = 0.
Proof.
  intros Hn. unfold count. replace (filter (fun kv => P (snd kv)) m) with (∅ : gmap loc A); [done|].
  symmetry. apply map_empty. intros i. apply map_lookup_filter_None. right. intros x Hx. by apply (Hn i).
Qed.

Lemma count_zero m l x : count m = 0 -> m !! l = Some x -> ~ P x.
Proof.
  intros H0 Hl HP. rewrite (count_delete m l x Hl) in H0. rewrite decide_True in H0 by done.
  pose proof (count_nonneg (delete l m)). lia.
Qed.
End count.

(** ** Tables of places *)

Section tables.
Context {T : Type} `{ht : CharHashTable T loc} `{hw : !HashTableWalk T loc} (exact : ht_ignoreCase = false).

Lemma get_put (t : T) k p k' : ht_get (ht_put t k p) k' = if decide (k = k') then Some p else ht_get t k'.
Proof.
  rewrite ht_get_put, exact. destruct (decide (k = k')) as [->|Hk]; [by rewrite same_key_refl|].
  destruct (same_key false k k') eqn:E; [|done]. by apply same_key_exact in E.
Qed.

Lemma get_remove (t : T) k k' : ht_get (ht_remove t k) k' = if decide (k = k') then None else ht_get t k'.
Proof.
  rewrite ht_get_remove, exact. destruct (decide (k = k')) as [->|Hk]; [by rewrite same_key_refl|].
  destruct (same_key false k k') eqn:E; [|done]. by apply same_key_exact in E.
Qed.

(** The keys of a table lead to different objects of the store, and to all of them. *)
Record indexes {A} (t : T) (m : gmap loc A) : Prop := {
  idx_live : forall k p, ht_get t k = Some p -> is_Some (m !! p);
  idx_once : forall k k' p, ht_get t k = Some p -> ht_get t k' = Some p -> k = k';
  idx_all : forall p, is_Some (m !! p) -> exists k, ht_get t k = Some p
}.

Lemma indexes_new {A} : @indexes A ht_new ∅.
Proof.
  split.
  - intros k p. by rewrite ht_get_new.
  - intros k k' p. by rewrite ht_get_new.
  - intros p [x Hx]. by rewrite lookup_empty in Hx.
Qed.

Lemma indexes_add {A} t (m : gmap loc A) k p x :
  indexes t m -> ht_get t k = None -> m !! p = None -> indexes (ht_put t k p) (<[p := x]> m).
Proof.
  intros [Hl Ho Ha] Hk Hp.
  assert (Hn : forall k', ht_get t k' <> Some p) by (intros k' E; apply Hl in E; rewrite Hp in E; by destruct E).
  split.
  - intros k' p'. rewrite get_put. destruct (decide (k = k')) as [->|Hne].
    + intros [= <-]. rewrite lookup_insert_eq. eauto.
    + intros E. destruct (decide (p = p')) as [->|]; [by apply Hn in E|]. rewrite lookup_insert_ne by done. eauto.
  - intros k1 k2 p'. rewrite !get_put. destruct (decide (k = k1)) as [<-|], (decide (k = k2)) as [<-|]; try done.
    + intros [= <-] E. by apply Hn in E.
    + intros E [= <-]. by apply Hn in E.
    + eauto.
  - intros p'. destruct (decide (p = p')) as [->|Hne]; [intros _; exists k; rewrite get_put; by rewrite decide_True|].
    rewrite lookup_insert_ne by done. intros (k' & E)%Ha. exists k'. rewrite get_put, decide_False; [done|]. congruence.
Qed.

Lemma indexes_remove {A} t (m : gmap loc A) k p : indexes t m -> ht_get t k = Some p -> indexes (ht_remove t k) (delete p m).
Proof.
  intros [Hl Ho Ha] Hk. split.
  - intros k' p'. rewrite get_remove. destruct (decide (k = k')) as [|Hne]; [done|]. intros E.
    rewrite lookup_delete_ne; [eauto|]. intros ->. apply Hne. eauto.
  - intros k1 k2 p'. rewrite !get_remove. destruct (decide (k = k1)), (decide (k = k2)); eauto; done.
  - intros p' [x Hx]. apply lookup_delete_Some in Hx as [Hne Hx]. destruct (Ha p') as [k' E]; [eauto|].
    exists k'. rewrite get_remove, decide_False; [done|]. congruence.
Qed.

Lemma indexes_update {A} t (m : gmap loc A) p x : indexes t m -> is_Some (m !! p) -> indexes t (<[p := x]> m).
Proof.
  intros [Hl Ho Ha] Hp. split; [|done|].
  - intros k p' E%Hl. destruct (decide (p = p')) as [->|]; [rewrite lookup_insert_eq; eauto|]. by rewrite lookup_insert_ne.
  - intros p'. destruct (decide (p = p')) as [->|]; [by intros; apply Ha|]. rewrite lookup_insert_ne by done. apply Ha.
Qed.

Lemma indexes_put_same {A} t (m : gmap loc A) k p : indexes t m -> ht_get t k = Some p -> indexes (ht_put t k p) m.
Proof.
  intros [Hl Ho Ha] Hk.
  assert (E : forall k', ht_get (ht_put t k p) k' = ht_get t k').
  { intros k'. rewrite get_put. destruct (decide (k = k')) as [->|]; congruence. }
  split; [intros k' p'|intros k1 k2 p'|intros p' H'].
  - rewrite E. eauto.
  - rewrite !E. eauto.
  - destruct (Ha p' H') as [k' Hk']. exists k'. by rewrite E.
Qed.
End tables.

(** ** The invariant *)

Section safety.
Context {T I : Type} `{ht : CharHashTable T loc} `{hw : !HashTableWalk T loc} `{hi : IndicationInstance I}.
Context (exact : ht_ignoreCase = false).
Context (print_g : spec_float -> bytes) (isChild : bytes -> bytes -> bytes -> bool).
Context (parseQuery : bytes -> bytes -> bytes -> Z * list bytes).
Implicit Types st : interop T I.

Record consistent st : Prop := {
  c_subs : forall l s, subs st !! l = Some s -> is_Some (filters st !! fi s) /\ is_Some (handlers st !! ha s);
  c_filters : forall p f, filters st !! p = Some f -> useCount f = count (fun s => fi s = p) (subs st);
  c_handlers : forall q h, handlers st !! q = Some h -> h_useCount h = count (fun s => ha s = q) (subs st);
  c_filterHt : indexes (filterHt st) (filters st);
  c_handlerHt : indexes (handlerHt st) (handlers st);
  c_subscriptionHt : indexes (subscriptionHt st) (subs st);
  c_fresh : forall l, (next st <= l)%nat -> filters st !! l = None /\ handlers st !! l = None /\ subs st !! l = None
}.

Lemma consistent_empty : consistent empty_interop.
Proof.
  split; cbn; try (intros; by rewrite lookup_empty in *); try apply indexes_new.
Qed.

Lemma consistent_counts st ld a : consistent st -> consistent (set_counts st ld a).
Proof. intros []. by split. Qed.

Lemma fresh_next st : consistent st -> filters st !! next st = None /\ handlers st !! next st = None /\ subs st !! next st = None.
Proof. intros Hc. by apply (c_fresh st Hc). Qed.

(** Changes of a filter or handler that leave its count alone. *)
Lemma consistent_filter st p f f' : consistent st -> filters st !! p = Some f -> useCount f' = useCount f ->
  consistent (set_filters st (filterHt st) (<[p := f']> (filters st)) (next st)).
Proof.
  intros [] Hp Hu. split; cbn [subs filters handlers filterHt handlerHt subscriptionHt next set_filters]; try done.
  - intros l s Hl. destruct (c_subs0 l s Hl) as [[f0 Hf] Hh]. split; [|done].
    destruct (decide (p = fi s)) as [->|]; [rewrite lookup_insert_eq; eauto|by rewrite lookup_insert_ne].
  - intros p' f0. destruct (decide (p = p')) as [<-|].
    + rewrite lookup_insert_eq. intros [= <-]. rewrite Hu. eauto.
    + rewrite lookup_insert_ne by done. eauto.
  - apply indexes_update; eauto.
  - intros l Hl. destruct (c_fresh0 l Hl) as (H1 & H2 & H3). split_and!; try done.
    rewrite lookup_insert_ne; [done|]. congruence.
Qed.

Lemma consistent_handler st q h h' t : consistent st -> handlers st !! q = Some h -> h_useCount h' = h_useCount h ->
  indexes t (handlers st) ->
  consistent (set_handlers st t (<[q := h']> (handlers st)) (next st)).
Proof.
  intros [] Hq Hu Ht. split; cbn [subs filters handlers filterHt handlerHt subscriptionHt next set_handlers]; try done.
  - intros l s Hl. destruct (c_subs0 l s Hl) as [Hf [h0 Hh]]. split; [done|].
    destruct (decide (q = ha s)) as [->|]; [rewrite lookup_insert_eq; eauto|by rewrite lookup_insert_ne].
  - intros q' h0. destruct (decide (q = q')) as [<-|].
    + rewrite lookup_insert_eq. intros [= <-]. rewrite Hu. eauto.
    + rewrite lookup_insert_ne by done. eauto.
  - apply indexes_update; eauto.
  - intros l Hl. destruct (c_fresh0 l Hl) as (H1 & H2 & H3). split_and!; try done.
    rewrite lookup_insert_ne; [done|]. congruence.
Qed.

Lemma addFilter_consistent st ci key cl q l s a : consistent st -> consistent (fst (addFilter st ci key cl q l s a)).
Proof.
  intros Hc. unfold addFilter. destruct (ht_get (filterHt st) key) eqn:E; [done|]. cbn [fst].
  destruct (fresh_next st Hc) as (Hf & Hh & Hs). destruct Hc.
  split; cbn [subs filters handlers filterHt handlerHt subscriptionHt next set_filters]; try done.
  - intros l' s' Hl. destruct (c_subs0 l' s' Hl) as [[f0 Hf0] Hh0]. split; [|done].
    rewrite lookup_insert_ne; [eauto|]. congruence.
  - intros p f. destruct (decide (next st = p)) as [<-|]; [|rewrite lookup_insert_ne by done; eauto].
    rewrite lookup_insert_eq. intros [= <-]. cbn [useCount].
    assert (K : forall l' s', subs st !! l' = Some s' -> fi s' <> next st).
    { intros l' s' Hl Hn. destruct (c_subs0 l' s' Hl) as [[f0 Hf0] _]. congruence. }
    symmetry. apply count_none. exact K.
  - by apply indexes_add.
  - intros l' Hl. destruct (c_fresh0 l') as (H1 & H2 & H3); [lia|]. split_and!; try done.
    rewrite lookup_insert_ne; [done|]. lia.
Qed.

Lemma addHandler_consistent st ci op st' r : consistent st -> addHandler print_g st ci op = Some (st', r) -> consistent st'.
Proof.
  intros Hc. unfold addHandler. destruct (path_key print_g op) as [key|]; [|done]. cbn [mbind option_bind].
  destruct (ht_get (handlerHt st) key) eqn:E; [by intros [= <- _]|]. intros [= <- _].
  destruct (fresh_next st Hc) as (Hf & Hh & Hs). destruct Hc.
  split; cbn [subs filters handlers filterHt handlerHt subscriptionHt next set_handlers]; try done.
  - intros l' s' Hl. destruct (c_subs0 l' s' Hl) as [Hf0 [h0 Hh0]]. split; [done|].
    rewrite lookup_insert_ne; [eauto|]. congruence.
  - intros p h. destruct (decide (next st = p)) as [<-|]; [|rewrite lookup_insert_ne by done; eauto].
    rewrite lookup_insert_eq. intros [= <-]. cbn [h_useCount]. symmetry. apply count_none.
    intros l' s' Hl Hn. destruct (c_subs0 l' s' Hl) as [_ [h0 Hh0]]. congruence.
  - by apply indexes_add.
  - intros l' Hl. destruct (c_fresh0 l') as (H1 & H2 & H3); [lia|]. split_and!; try done.
    rewrite lookup_insert_ne; [done|]. lia.
Qed.

Lemma updateHandler_consistent st ci op st' r : consistent st -> updateHandler print_g st ci op = Some (st', r) -> consistent st'.
Proof.
  intros Hc. unfold updateHandler. destruct (path_key print_g op) as [key|]; [|done]. cbn [mbind option_bind].
  destruct (ht_get (handlerHt st) key) as [q|] eqn:E; [|by intros [= <- _]].
  destruct (handlers st !! q) as [h|] eqn:Eh; [|done]. cbn [mbind option_bind]. intros [= <- _].
  apply (consistent_handler st q h); [done..|]. apply indexes_put_same; [done| |done]. apply Hc.
Qed.

(** A filter without subscriptions goes, and so does a handler. *)
Lemma removeFilter_consistent st key p f : consistent st -> getFilter st key = Some p -> filters st !! p = Some f ->
  useCount f = 0 -> consistent (removeFilter st p key).
Proof.
  intros [] Hk Hp Hu. rewrite (c_filters0 p f Hp) in Hu.
  split; cbn [subs filters handlers filterHt handlerHt subscriptionHt next set_filters removeFilter]; try done.
  - intros l s Hl. destruct (c_subs0 l s Hl) as [Hf Hh]. split; [|done].
    rewrite lookup_delete_ne; [done|]. intros ->. by apply (count_zero (fun s' => fi s' = fi s) (subs st) l s Hu Hl).
  - intros p' f' (_ & Hp')%lookup_delete_Some. eauto.
  - by apply indexes_remove.
  - intros l Hl. destruct (c_fresh0 l Hl) as (H1 & H2 & H3). split_and!; try done. by apply lookup_delete_None; right.
Qed.

Lemma removeHandler_consistent st key q h : consistent st -> getHandler st key = Some q -> handlers st !! q = Some h ->
  h_useCount h = 0 -> consistent (removeHandler st q key).
Proof.
  intros [] Hk Hq Hu. rewrite (c_handlers0 q h Hq) in Hu.
  split; cbn [subs filters handlers filterHt handlerHt subscriptionHt next set_handlers removeHandler]; try done.
  - intros l s Hl. destruct (c_subs0 l s Hl) as [Hf Hh]. split; [done|].
    rewrite lookup_delete_ne; [done|]. intros ->. by apply (count_zero (fun s' => ha s' = ha s) (subs st) l s Hu Hl).
  - intros p' f' (_ & Hp')%lookup_delete_Some. eauto.
  - by apply indexes_remove.
  - intros l Hl. destruct (c_fresh0 l Hl) as (H1 & H2 & H3). split_and!; try done. by apply lookup_delete_None; right.
Qed.

(** ** Subscriptions *)

(** Another subscription of a filter and a handler, and one less. *)
Lemma addSubscription_ok st ci key p q f h : consistent st -> getSubscription st key = None ->
  filters st !! p = Some f -> handlers st !! q = Some h ->
  exists st' l, addSubscription st ci key p q = Some (st', Some l) /\ consistent st' /\
    getSubscription st' key = Some l /\ subs st !! l = None /\ subs st' = <[l := {| sci := ci; fi := p; ha := q |}]> (subs st) /\
    filters st' = <[p := filter_uses f 1]> (filters st) /\ handlers st' = <[q := handler_uses h 1]> (handlers st) /\
    LDcount st' = LDcount st /\ AScount st' = AScount st.
Proof.
  intros Hc Hk Hp Hq. unfold addSubscription, count_uses. unfold getSubscription in Hk. rewrite Hk, Hp. cbn [mbind option_bind].
  rewrite Hq. cbn [mbind option_bind]. destruct (fresh_next st Hc) as (Hf & Hh & Hs). destruct Hc.
  eexists _, _. split; [done|].
  cbn [set_subs set_handlers set_filters subs filters handlers filterHt handlerHt subscriptionHt next LDcount AScount getSubscription].
  split; [|unfold getSubscription; cbn [set_subs subscriptionHt]; rewrite (get_put exact), decide_True by done; done].
  split; cbn [set_subs set_handlers set_filters subs filters handlers filterHt handlerHt subscriptionHt next].
  - intros l s. destruct (decide (next st = l)) as [<-|].
    + rewrite lookup_insert_eq. intros [= <-]. cbn [fi ha]. rewrite !lookup_insert_eq. eauto.
    + rewrite lookup_insert_ne by done. intros Hl. destruct (c_subs0 l s Hl). by rewrite !lookup_insert_is_Some'; auto.
  - intros p' f'. rewrite count_insert by done. cbn [fi]. destruct (decide (p = p')) as [<-|].
    + rewrite lookup_insert_eq. intros [= <-]. cbn [filter_uses useCount]. rewrite (c_filters0 p f Hp). lia.
    + rewrite lookup_insert_ne by done. intros Hp'. rewrite (c_filters0 p' f' Hp'). lia.
  - intros q' h'. rewrite count_insert by done. cbn [ha]. destruct (decide (q = q')) as [<-|].
    + rewrite lookup_insert_eq. intros [= <-]. cbn [handler_uses h_useCount]. rewrite (c_handlers0 q h Hq). lia.
    + rewrite lookup_insert_ne by done. intros Hq'. rewrite (c_handlers0 q' h' Hq'). lia.
  - apply indexes_update; eauto.
  - apply indexes_update; eauto.
  - by apply indexes_add.
  - intros l Hl. destruct (c_fresh0 l) as (H1 & H2 & H3); [lia|].
    rewrite !lookup_insert_ne; [done|lia|congruence|congruence].
Qed.

Lemma removeSubscription_ok st key l s : consistent st -> getSubscription st key = Some l -> subs st !! l = Some s ->
  exists st', removeSubscription st (Some l) key = Some st' /\ consistent st' /\ subs st' = delete l (subs st) /\
    (forall f, filters st !! fi s = Some f -> filters st' = <[fi s := filter_uses f (-1)]> (filters st)) /\
    LDcount st' = LDcount st /\ AScount st' = AScount st.
Proof.
  intros Hc Hk Hl. pose proof Hc as [].
  destruct (c_subs0 l s Hl) as [[f Hf] [h Hh]].
  unfold removeSubscription. cbn [set_subs subs]. rewrite Hl. cbn [mbind option_bind]. unfold count_uses.
  cbn [set_subs filters handlers]. rewrite Hf. cbn [mbind option_bind]. rewrite Hh. cbn [mbind option_bind].
  eexists. split; [done|]. cbn [set_subs set_handlers set_filters subs filters handlers filterHt handlerHt subscriptionHt next LDcount AScount].
  split; [|split_and!; try done; by intros f' [= <-]].
  pose proof (fun P H => @count_delete _ P H (subs st) l s Hl) as Hd.
  split; cbn [set_subs set_handlers set_filters subs filters handlers filterHt handlerHt subscriptionHt next].
  - intros l' s' (_ & Hl')%lookup_delete_Some. destruct (c_subs0 l' s' Hl'). by rewrite !lookup_insert_is_Some'; auto.
  - intros p' f'. specialize (c_filters0 p'). rewrite (Hd (fun s => fi s = p')) in c_filters0. destruct (decide (fi s = p')) as [<-|].
    + rewrite lookup_insert_eq. intros [= <-]. cbn [filter_uses useCount]. rewrite (c_filters0 f Hf). lia.
    + rewrite lookup_insert_ne by done. intros Hp'. rewrite (c_filters0 f' Hp'). lia.
  - intros q' h'. specialize (c_handlers0 q'). rewrite (Hd (fun s => ha s = q')) in c_handlers0. destruct (decide (ha s = q')) as [<-|].
    + rewrite lookup_insert_eq. intros [= <-]. cbn [handler_uses h_useCount]. rewrite (c_handlers0 h Hh). lia.
    + rewrite lookup_insert_ne by done. intros Hq'. rewrite (c_handlers0 h' Hq'). lia.
  - apply indexes_update; eauto.
  - apply indexes_update; eauto.
  - by apply indexes_remove.
  - intros l' Hl'. destruct (c_fresh0 l' Hl') as (H1 & H2 & H3).
    rewrite !lookup_insert_ne by congruence. split_and!; [done..|]. by apply lookup_delete_None; right.
Qed.

(** A subscription that is replaced by another of the same filter and handler. *)
Lemma set_instance_consistent st l s ci : consistent st -> subs st !! l = Some s -> consistent (set_instance st l s ci).
Proof.
  intros [] Hl. split; cbn [set_instance set_subs subs filters handlers filterHt handlerHt subscriptionHt next]; try done.
  - intros l' s'. destruct (decide (l = l')) as [<-|]; [|rewrite lookup_insert_ne by done; eauto].
    rewrite lookup_insert_eq. intros [= <-]. cbn [fi ha]. eauto.
  - intros p f Hp. rewrite (count_replace _ _ _ s) by done. eauto.
  - intros q h Hq. rewrite (count_replace _ _ _ s) by done. eauto.
  - apply indexes_update; eauto.
  - intros l' Hl'. destruct (c_fresh0 l' Hl') as (H1 & H2 & H3). split_and!; try done. rewrite lookup_insert_ne; [done|]. congruence.
Qed.

(** ** Well-formed requests *)

Definition names_ok (a : option (list (option bytes))) : Prop :=
  match a with None => True | Some l => Forall (fun o => exists s, o = Some s /\ strlen s < 512) l end.

(** No name space of a filter in which a class has no provider comes behind one in which
    it has: what was answered is freed once. *)
Definition found (a : answers) : Prop := match a with Providers _ => True | NoProvider _ => False end.
Definition settled (ask : bytes -> bytes -> Z -> answers) (a : option (list (option bytes))) : Prop :=
  forall l cn op i j s t, a = Some l -> l !! i = Some (Some s) -> l !! j = Some (Some t) -> (i < j)%nat ->
    found (ask s cn op) -> found (ask t cn op).
Definition sendable ask a : Prop := names_ok a /\ settled ask a.

(** The name spaces of all filters are as [N] demands. *)
Definition readable (N : option (list (option bytes)) -> Prop) st : Prop := map_Forall (fun _ f => N (snsa f)) (filters st).
Definition good_for N st : Prop := consistent st /\ readable N st.
Definition good st : Prop := good_for names_ok st.

Definition has_key (op : object_path) : Prop := is_Some (path_key print_g op).
Definition wf_ref (op : option object_path) : Prop := exists o, op = Some o /\ is_Some (nameSpace o) /\ has_key o.
Definition wf_subscription (x : object_path * I) : Prop :=
  has_key (fst x) /\ wf_ref (filter_prop (snd x)) /\ wf_ref (handler_prop (snd x)).
Definition wf_filter (host : bytes) (cop : object_path) (ci : I) : Prop :=
  let d := filter_props ci in
  (exists op, filter_path host cop d = Some op /\ has_key op) /\ is_Some (fst (complete_namespaces d)) /\ names_ok (sourceNamespaces d).
Definition wf_stored_filter (x : object_path * I) : Prop :=
  let d := filter_props (snd x) in
  is_Some (query d) /\ is_Some (querylanguage d) /\ is_Some (sourceNamespace d) /\ has_key (fst x) /\ names_ok (sourceNamespaces d).

(** References are not null and have name spaces, what is named in the repository is
    there, providers deliver for filters that exist, and the providers that are asked
    answer for the name spaces of the filters as [settled] says. *)
Definition well_formed st (r : request) : Prop :=
  match r with
  | CreateInstance env cop ci => exists ns, nameSpace cop = Some ns /\
      if isa isChild ns (className cop) (cstr "cim_indicationsubscription") then
        wf_subscription (cop, ci) /\ readable (settled (ask env)) st
      else if isa isChild ns (className cop) (cstr "cim_indicationfilter") then wf_filter (localHost env) cop ci else True
  | ModifyInstance env dest cop ci => has_key cop /\
      if isa isChild (cstr "root/interop") (className cop) (cstr "cim_indicationsubscription") then
        readable (settled (ask env)) st /\
        exists op key, filter_prop ci = Some op /\ path_key print_g op = Some key /\ is_Some (getFilter st key)
      else True
  | DeleteInstance env cop => has_key cop /\ exists ns, nameSpace cop = Some ns /\
      if isa isChild ns (className cop) (cstr "cim_indicationsubscription") then
        is_Some (stored env) /\ readable (settled (ask env)) st
      else True
  | InvokeMethod env ref call => is_Some (nameSpace ref) /\
      match call with
      | Deliver filterId => is_Some (filters st !! filterId)
      | AddHandler _ op | RemoveHandler op | UpdateHandler _ op => has_key op
      | Startup fs hs ss => Forall wf_stored_filter fs /\ Forall (fun x => has_key (fst x)) hs /\ Forall wf_subscription ss /\
          Forall (fun x => settled (ask env) (sourceNamespaces (filter_props (snd x)))) fs /\ readable (settled (ask env)) st
      | OtherMethod => True
      end
  end.

(** ** Requests to the providers are sent *)

Lemma good_sendable ask st : good st -> readable (settled ask) st -> good_for (sendable ask) st.
Proof. intros [Hc Hr] Hs. split; [done|]. intros p f Hp. split; [by apply (Hr p)|by apply (Hs p)]. Qed.

Lemma sendable_good ask st : good_for (sendable ask) st -> good st.
Proof. intros [Hc Hr]. split; [done|]. intros p f Hp. by destruct (Hr p f Hp). Qed.

Lemma ask_namespaces_defined ask cn op l : settled ask (Some (Some <$> l)) ->
  forall held rc, (held = true -> forall s, s ∈ l -> found (ask s cn op)) -> is_Some (ask_namespaces ask cn op held rc l).
Proof.
  induction l as [|s l IH]; intros Hs held rc Hheld; cbn [ask_namespaces]; [by eexists|].
  assert (Hs' : settled ask (Some (Some <$> l))).
  { intros l' cn' op' i j s' t [= <-] Hi Hj Hij. by apply (Hs (Some <$> (s :: l)) cn' op' (S i) (S j) s' t); [|..|lia]. }
  destruct (ask s cn op) as [rcs|irc] eqn:E.
  - apply IH; [done|]. intros _ t (j & Hj)%list_elem_of_lookup_1.
    apply (Hs (Some <$> (s :: l)) cn op 0%nat (S j) s t); [done..| |lia|by rewrite E]. by rewrite list_lookup_fmap, (Hj : (s :: l) !! S j = Some t).
  - destruct held; [|by apply IH]. exfalso. specialize (Hheld eq_refl s (list_elem_of_here _ _)). by rewrite E in Hheld.
Qed.

Lemma generic_defined ask (f : Filter I) cn op : sendable ask (snsa f) -> is_Some (genericSubscriptionRequest ask f cn op).
Proof.
  intros [Hn Hs]. unfold genericSubscriptionRequest, request_namespaces. destruct (snsa f) as [l|].
  - assert (E : exists l', mapM (fun o => s ← o; if strlen s <? 512 then Some s else None) l = Some l' /\ l = Some <$> l').
    { clear Hs. cbn [names_ok] in Hn. induction Hn as [|o l (s & -> & Hs) _ (l' & El & ->)]; [by exists []|]. exists (s :: l').
      split; [|done]. cbn [mapM mbind option_bind]. rewrite (proj2 (Z.ltb_lt _ _)) by done. by rewrite El. }
    destruct E as (l' & -> & ->). cbn [mbind option_bind]. by apply ask_namespaces_defined.
  - cbn [mbind option_bind ask_namespaces]. destruct (ask _ _ _); by eexists.
Qed.

Lemma forward_defined ask (f : Filter I) op : sendable ask (snsa f) -> is_Some (fowardSubscription isChild ask f op).
Proof.
  intros Hn. unfold fowardSubscription.
  assert (E : forall n, is_Some (forward_classes isChild ask f op (fromClasses f) n)).
  { induction (fromClasses f) as [|cn l IH]; intros n; cbn [forward_classes]; [by eexists|].
    destruct (indication_class _ _ _); [|apply IH]. destruct (generic_defined ask f cn op Hn) as [rc ->]. apply IH. }
  destruct (E 0%nat) as [n ->]. by eexists.
Qed.

(** A filter for two name spaces, the first with a provider and the second without:
    the answers are freed twice. *)
Lemma mixed_answers_undefined ask (f : Filter I) s t cn op rcs irc : snsa f = Some [Some s; Some t] ->
  ask s cn op = Providers rcs -> ask t cn op = NoProvider irc -> genericSubscriptionRequest ask f cn op = None.
Proof.
  intros Hn Hs Ht. unfold genericSubscriptionRequest, request_namespaces. rewrite Hn. cbn [mapM mbind option_bind].
  destruct (strlen s <? 512); [|done]. destruct (strlen t <? 512); [|done]. cbn [mret option_ret mbind option_bind ask_namespaces]. by rewrite Hs, Ht.
Qed.

Lemma good_counts N st ld a : good_for N st -> good_for N (set_counts st ld a).
Proof. intros [Hc Hr]. split; [by apply consistent_counts|done]. Qed.

(** ** What happens to the subscriptions *)

(** Active subscriptions have the state 2. *)
Definition counts (v : Z) : Z := if v =? 2 then 1 else 0.

(** The changes of the subscriptions with the count of the active ones, for a limit. *)
Inductive change (limit : Z) st st' : Prop :=
| same : subs st' = subs st -> AScount st' = AScount st -> change limit st st'
| refused : subs st' = subs st -> AScount st' = AScount st + 1 -> AScount st' <= limit -> change limit st st'
| created l s v : subs st !! l = None -> subs st' = <[l := s]> (subs st) -> state_prop (sci s) = Some (Some v) -> v = 2 \/ v = 4 ->
    AScount st' = AScount st + counts v -> (v = 2 -> AScount st' <= limit) -> change limit st st'
| modified l s ci old v : subs st !! l = Some s -> subs st' = <[l := {| sci := ci; fi := fi s; ha := ha s |}]> (subs st) ->
    state_prop (sci s) = Some (Some old) -> state_prop ci = Some (Some v) -> v = 2 \/ v = 4 ->
    AScount st' = AScount st + (if (v =? 2) && negb (old =? 2) then 1 else if (v =? 4) && negb (old =? 4) then -1 else 0) ->
    (AScount st < AScount st' -> AScount st' <= limit) -> change limit st st'
| deleted l s v : subs st !! l = Some s -> subs st' = delete l (subs st) -> state_prop (sci s) = Some (Some v) ->
    AScount st' = AScount st - counts v -> change limit st st'.

(** Requests with the limit that give the states 2 and 4 only, and find in the repository
    the state of the subscription. *)
Definition regular_state (i : I) : Prop := match state_prop i with Some (Some v) => v = 2 \/ v = 4 | _ => True end.
Definition regular_subs st : Prop := map_Forall (fun _ s => exists v, state_prop (sci s) = Some (Some v) /\ (v = 2 \/ v = 4)) (subs st).
Definition regular (limit : Z) st (r : request) : Prop :=
  match r with
  | CreateInstance env cop ci => maxActive env = limit /\ regular_state ci
  | ModifyInstance env dest cop ci => maxActive env = limit /\ exists v, state_prop ci = Some (Some v) /\ (v = 2 \/ v = 4)
  | DeleteInstance env cop => forall key l s ci, path_key print_g cop = Some key -> getSubscription st key = Some l ->
      subs st !! l = Some s -> stored env = Some ci -> state_prop ci = state_prop (sci s)
  | InvokeMethod env ref call =>
      match call with Startup _ _ ss => maxActive env = limit /\ Forall (fun x => regular_state (snd x)) ss | _ => True end
  end.

(** ** A new subscription *)

Lemma filter_uses_names f d : @snsa I (filter_uses f d) = snsa f.
Proof. done. Qed.

Lemma activate_ok st ask ci key p q state : good_for (sendable ask) st -> getSubscription st key = None ->
  is_Some (filters st !! p) -> is_Some (handlers st !! q) ->
  exists st' rc, activate isChild st ask ci key p q state = Some (st', rc) /\ good_for (sendable ask) st' /\ AScount st' = AScount st /\
    (subs st' = subs st \/
     exists l, subs st !! l = None /\ subs st' = <[l := {| sci := set_start ci; fi := p; ha := q |}]> (subs st)).
Proof.
  intros [Hc Hr] Hk [f Hp] [h Hq]. unfold activate.
  destruct (addSubscription_ok st (set_start ci) key p q f h Hc Hk Hp Hq) as (st1 & l & -> & Hc1 & Hk1 & Hl0 & Hl1 & Hf1 & Hh1 & _ & Ha1).
  cbn [mbind option_bind]. pose proof (lookup_insert_eq (filters st) p (filter_uses f 1)) as Hp1. rewrite <- Hf1 in Hp1.
  rewrite Hp1. cbn [mbind option_bind]. assert (Hn : sendable ask (snsa f)) by exact (Hr p f Hp).
  assert (Hr1 : readable (sendable ask) st1) by (unfold readable; rewrite Hf1; by apply map_Forall_insert_2).
  assert (Hnew : subs st1 = subs st \/ exists l, subs st !! l = None /\ subs st1 = <[l := {| sci := set_start ci; fi := p; ha := q |}]> (subs st))
    by eauto.
  destruct (forward_defined ask (filter_uses f 1) OPS_ActivateFilter Hn) as [rc1 E1].
  destruct (forward_defined ask (filter_uses f 1) OPS_EnableIndications Hn) as [rc2 E2].
  destruct (useCount (filter_uses f 1) =? 1) eqn:Eu.
  - rewrite E1. cbn [mbind option_bind]. destruct (Z.eqb_spec rc1 CMPI_RC_OK) as [->|Hrc]; cbn [mbind option_bind].
    + rewrite Z.eqb_refl, Hp1. cbn [mbind option_bind]. rewrite Eu, E2, andb_true_r. destruct (state =? 2); by eexists _, _.
    + assert (Hl2 : subs st1 !! l = Some {| sci := set_start ci; fi := p; ha := q |}) by (rewrite Hl1; apply lookup_insert_eq).
      destruct (removeSubscription_ok st1 key l _ Hc1 Hk1 Hl2) as (st2 & -> & Hc2 & Hs2 & Hf2 & _ & Ha2). cbn [mbind option_bind].
      rewrite (proj2 (Z.eqb_neq _ _)) by done. eexists _, _. split; [done|]. split; [split; [done|]|].
      * unfold readable. rewrite (Hf2 _ Hp1). by apply map_Forall_insert_2.
      * split; [congruence|]. left. by rewrite Hs2, Hl1, delete_insert_id.
  - cbn [mbind option_bind]. rewrite Z.eqb_refl, Hp1. cbn [mbind option_bind]. rewrite Eu, andb_false_r. by eexists _, _.
Qed.

Lemma refers_ok {A} table (m : gmap loc A) op : indexes table m -> wf_ref op ->
  exists r, refers print_g table op = Some r /\ match r with inl _ => True | inr p => is_Some (m !! p) end.
Proof.
  intros Ht (o & -> & [ns Hns] & [key Hkey]). unfold refers, interOpNameSpace. cbn [mbind option_bind]. rewrite Hns.
  cbn [mbind option_bind]. destruct (negb _); [by eexists|]. rewrite Hkey. cbn [mbind option_bind].
  destruct (ht_get table key) as [p|] eqn:E; eexists; (split; [done|]); [|done]. by apply (idx_live _ _ Ht key).
Qed.

(** Activating is a change that creates a subscription, or none; [counted] if it counts. *)
Lemma activated_change limit st st1 st' ci state p q : subs st1 = subs st -> AScount st1 = AScount st + counts state ->
  (state = 2 -> AScount st1 <= limit) -> state_prop ci = Some (Some state) -> state = 2 \/ state = 4 ->
  AScount st' = AScount st1 ->
  (subs st' = subs st1 \/ exists l, subs st1 !! l = None /\ subs st' = <[l := {| sci := set_start ci; fi := p; ha := q |}]> (subs st1)) ->
  change limit st st'.
Proof.
  intros Hs Ha Hl Hst H24 Ha' [E|(l & Hl0 & E)]; rewrite Hs in *.
  - unfold counts in Ha. destruct (Z.eqb_spec state 2) as [H2|H2]; [|apply same; [done|lia]].
    apply refused; [done|lia|]. rewrite Ha'. auto.
  - apply (created limit st st' l {| sci := set_start ci; fi := p; ha := q |} state); [done|done| |done|lia|rewrite Ha'; auto].
    cbn [sci]. by rewrite state_start.
Qed.

Lemma processSubscription_ok st ask maxActive ci cop : good_for (sendable ask) st -> wf_subscription (cop, ci) ->
  exists st' rc, processSubscription print_g isChild st ask maxActive ci cop = Some (st', rc) /\ good_for (sendable ask) st' /\
    (regular_state ci -> change maxActive st st').
Proof.
  intros Hg ([skey Hskey] & Hfi & Hha). pose proof Hg as [Hc Hr]. unfold processSubscription. cbn [fst snd] in *. rewrite Hskey.
  assert (Hsame : regular_state ci -> change maxActive st st) by (intros _; by apply same).
  cbn [mbind option_bind]. destruct (getSubscription st skey) eqn:Ek; [by eexists _, _|].
  destruct (refers_ok (filterHt st) (filters st) _ (c_filterHt st Hc) Hfi) as ([rc|p] & -> & Hp); cbn [mbind option_bind]; [by eexists _, _|].
  destruct (refers_ok (handlerHt st) (handlers st) _ (c_handlerHt st Hc) Hha) as ([rc|q] & -> & Hq); cbn [mbind option_bind]; [by eexists _, _|].
  set (ci_state := match state_prop ci with Some (Some v) => (ci, v) | _ => (set_state ci 2, 2) end).
  assert (Hcs : state_prop (fst ci_state) = Some (Some (snd ci_state)) /\ (regular_state ci -> snd ci_state = 2 \/ snd ci_state = 4)).
  { subst ci_state. unfold regular_state. destruct (state_prop ci) as [[v|]|] eqn:E; cbn [fst snd]; [done|rewrite state_set; auto..]. }
  destruct ci_state as [ci' state]. cbn [fst snd] in Hcs. destruct Hcs as [Hcs H24]. destruct (Z.eqb_spec state 2) as [H2|H2].
  - destruct (Z.ltb_spec maxActive (AScount st + 1)) as [Hm|Hm]; [by eexists _, _|].
    set (st1 := set_counts st (LDcount st) (AScount st + 1)).
    destruct (activate_ok st1 ask ci' skey p q state) as (st' & rc & E & Hg' & Ha & Hs); [by apply good_counts|done..|].
    exists st', rc. split; [done|]. split; [done|]. intros Hreg.
    apply (activated_change maxActive st st1 st' ci' state p q); auto. cbn. unfold counts. by rewrite H2.
  - destruct (activate_ok st ask ci' skey p q state) as (st' & rc & E & Hg' & Ha & Hs); [done..|].
    exists st', rc. split; [done|]. split; [done|]. intros Hreg.
    apply (activated_change maxActive st st st' ci' state p q); auto; [|done]. unfold counts. rewrite (proj2 (Z.eqb_neq _ _)) by done. lia.
Qed.

(** ** Every request *)

Section requests.
Context (limit : Z).

(** A request is answered, and when it is regular the subscriptions change as they may. *)
Definition answered st (reg : Prop) (r : option (interop T I * Z)) : Prop :=
  exists st' rc, r = Some (st', rc) /\ good st' /\ (reg -> rtc (change limit) st st').

Lemma answered_untouched st st' reg rc : good st' -> subs st' = subs st -> AScount st' = AScount st -> answered st reg (Some (st', rc)).
Proof. intros Hg Hs Ha. exists st', rc. split; [done|]. split; [done|]. intros _. by apply rtc_once, same. Qed.

Lemma answered_same st reg rc : good st -> answered st reg (Some (st, rc)).
Proof. intros Hg. by apply answered_untouched. Qed.

Lemma answered_in_repository env st reg r : answered st reg r -> answered st reg (in_repository env r).
Proof. intros (st' & rc & -> & H). by eexists _, _. Qed.

Lemma good_addFilter N st ci key cl q l s a : good_for N st -> N a -> good_for N (fst (addFilter st ci key cl q l s a)).
Proof.
  intros [Hc Hr] Ha. split; [by apply addFilter_consistent|]. unfold addFilter. destruct (ht_get (filterHt st) key); [done|].
  by apply map_Forall_insert_2.
Qed.

Lemma addFilter_subs st ci key cl q l s a :
  subs (fst (addFilter st ci key cl q l s a)) = subs st /\ AScount (fst (addFilter st ci key cl q l s a)) = AScount st.
Proof. unfold addFilter. by destruct (ht_get (filterHt st) key). Qed.

Lemma createFilter_ok st reg host cop ci : good st -> wf_filter host cop ci ->
  answered st reg (createFilter print_g parseQuery st host cop ci).
Proof.
  intros Hg ((op & Hop & [key Hkey]) & [s Hs] & Hn). unfold createFilter. rewrite Hop. cbn [mbind option_bind].
  destruct (match individual _ with Some b => _ | None => _ end); [by apply answered_same|].
  destruct (querylanguage _) as [ql|]; [|by apply answered_same]. destruct (query _) as [q|]; [|by apply answered_same].
  destruct (complete_namespaces (filter_props ci)) as [s0 ss]. cbn [fst] in Hs. subst s0.
  destruct (negb (known_language _)); [by apply answered_same|]. rewrite Hkey. cbn [mbind option_bind].
  destruct (getFilter st key); [by apply answered_same|]. destruct (parseQuery _ _ _) as [rc cl].
  destruct (negb (rc =? 0)); [by apply answered_same|].
  apply answered_untouched; [by apply good_addFilter|apply addFilter_subs..].
Qed.

Lemma create_ok st env cop ci : good st -> well_formed st (CreateInstance env cop ci) ->
  answered st (regular limit st (CreateInstance env cop ci)) (InteropProviderCreateInstance print_g isChild parseQuery st env cop ci).
Proof.
  intros Hg (ns & Hns & Hwf). unfold InteropProviderCreateInstance, interOpNameSpace. rewrite Hns. cbn [mbind option_bind].
  destruct (negb _); [by apply answered_same|]. destruct (isa isChild ns _ _).
  - destruct (negb _); [by apply answered_same|]. apply answered_in_repository.
    destruct Hwf as [Hwf Hset]. pose proof (good_sendable (ask env) st Hg Hset) as Hgs.
    destruct (processSubscription_ok st (ask env) (maxActive env) ci cop Hgs Hwf) as (st' & rc & -> & Hg' & Hch).
    exists st', rc. split; [done|]. split; [by apply sendable_good in Hg'|]. intros [<- Hreg]. apply rtc_once. auto.
  - destruct (isa isChild ns _ _); [|by apply answered_same]. apply answered_in_repository. by apply createFilter_ok.
Qed.

Lemma switch_defined st ask ci op : good_for (sendable ask) st ->
  (exists o key, filter_prop ci = Some o /\ path_key print_g o = Some key /\ is_Some (getFilter st key)) ->
  switchIndications print_g isChild st ask ci op = Some tt.
Proof.
  intros [Hc Hr] (o & key & Ho & Hk & [p Hp]). unfold switchIndications. rewrite Ho. cbn [mbind option_bind]. rewrite Hk.
  cbn [mbind option_bind]. rewrite Hp. cbn [mbind option_bind]. destruct (idx_live _ _ (c_filterHt st Hc) key p Hp) as [f Hf].
  rewrite Hf. cbn [mbind option_bind]. by destruct (forward_defined ask f op (Hr p f Hf)) as [rc ->].
Qed.

Lemma good_set_instance st l s ci : good st -> subs st !! l = Some s -> good (set_instance st l s ci).
Proof. intros [Hc Hr] Hl. split; [by apply set_instance_consistent|done]. Qed.

(** The instance of a subscription is replaced, with [d] more active ones. *)
Lemma answered_instance st st' reg l s ci d rc : good st' -> subs st !! l = Some s ->
  subs st' = <[l := {| sci := ci; fi := fi s; ha := ha s |}]> (subs st) -> AScount st' = AScount st + d ->
  (reg -> regular_subs st -> exists v, state_prop ci = Some (Some v) /\ (v = 2 \/ v = 4) /\
     d = (if (v =? 2) && negb (state_value (sci s) =? 2) then 1 else if (v =? 4) && negb (state_value (sci s) =? 4) then -1 else 0) /\
     (0 < d -> AScount st' <= limit)) ->
  (reg -> regular_subs st) -> answered st reg (Some (st', rc)).
Proof.
  intros Hg Hs Hs' Ha Hv Hr. exists st', rc. split; [done|]. split; [done|]. intros Hreg. apply rtc_once.
  destruct (Hv Hreg (Hr Hreg)) as (v & Hv1 & H24 & Hd & Hm). destruct (Hr Hreg l s Hs) as (old & Hold & _).
  apply (modified limit st st' l s ci old v); [done..| |].
  - rewrite Ha, Hd. unfold state_value. by rewrite Hold.
  - intros H. apply Hm. lia.
Qed.

Lemma modifySubscription_ok st env dest cop ci : good st -> has_key cop -> readable (settled (ask env)) st ->
  (exists o key, filter_prop ci = Some o /\ path_key print_g o = Some key /\ is_Some (getFilter st key)) ->
  answered st (regular_subs st /\ regular limit st (ModifyInstance env dest cop ci)) (modifySubscription print_g isChild st env cop ci).
Proof.
  intros Hg [key Hkey] Hset Href. pose proof (good_sendable (ask env) st Hg Hset) as Hgs.
  pose proof Hg as [Hc Hr]. unfold modifySubscription. rewrite Hkey. cbn [mbind option_bind].
  destruct (getSubscription st key) as [l|] eqn:El; [|by apply answered_same].
  destruct (idx_live _ _ (c_subscriptionHt st Hc) key l El) as [s Hs]. rewrite Hs. cbn [mbind option_bind].
  rewrite !(switch_defined st _ ci) by done. cbn [mbind option_bind].
  assert (Hi : forall a, good (set_instance (set_counts st (LDcount st) a) l s ci))
    by (intros a; apply good_set_instance; [by apply good_counts|done]).
  assert (Hi0 : good (set_instance st l s ci)) by by apply good_set_instance.
  destruct (state_prop ci) as [[v|]|] eqn:Ev.
  - destruct ((v =? 2) && _) eqn:E2.
    + destruct (Z.ltb_spec (maxActive env) (AScount st + 1)) as [Hm|Hm]; [by apply answered_same|].
      apply (answered_instance st _ _ l s ci 1); [done..| |by intros []].
      intros [_ (Hlim & v' & Hv' & H24)] _. rewrite Ev in Hv'. injection Hv' as <-. exists v. rewrite E2.
      split_and!; [done..|]. intros _. cbn. lia.
    + destruct ((v =? 4) && _) eqn:E4.
      * apply (answered_instance st _ _ l s ci (-1)); [done..| |by intros []]. intros [_ (_ & v' & Hv' & H24)] _.
        rewrite Ev in Hv'. injection Hv' as <-. exists v. by rewrite E2, E4.
      * apply (answered_instance st _ _ l s ci 0); [done..|cbn; lia| |by intros []]. intros [_ (_ & v' & Hv' & H24)] _.
        rewrite Ev in Hv'. injection Hv' as <-. exists v. by rewrite E2, E4.
  - exists (set_instance st l s ci), (state_rc ci). split; [done|]. split; [done|]. intros [_ [_ (v & Hv & _)]]. congruence.
  - exists (set_instance st l s ci), (state_rc ci). split; [done|]. split; [done|]. intros [_ [_ (v & Hv & _)]]. congruence.
Qed.

Lemma modify_ok st env dest cop ci : good st -> well_formed st (ModifyInstance env dest cop ci) ->
  answered st (regular_subs st /\ regular limit st (ModifyInstance env dest cop ci))
    (InteropProviderModifyInstance print_g isChild st env dest cop ci).
Proof.
  intros Hg [Hkey Hwf]. pose proof Hg as [Hc Hr]. unfold InteropProviderModifyInstance. destruct (isa _ _ _ _).
  - destruct Hwf as [Hset Href]. apply answered_in_repository. by apply modifySubscription_ok.
  - destruct (isa _ _ _ _); [|by apply answered_same]. apply answered_in_repository. unfold modifyHandler.
    destruct Hkey as [key Hkey]. rewrite Hkey. cbn [mbind option_bind].
    destruct (getHandler st key) as [q|] eqn:El; [|by apply answered_same].
    destruct (idx_live _ _ (c_handlerHt st Hc) key q El) as [h Hh]. rewrite Hh. cbn [mbind option_bind].
    destruct (negb dest); [by apply answered_same|]. apply answered_untouched; [|done..]. split; [|done].
    apply (consistent_handler st q h); [done..|]. apply Hc.
Qed.

Lemma deactivate_defined env (f : Filter I) : sendable (ask env) (snsa f) -> deactivate env f = Some tt.
Proof.
  intros Hn. unfold deactivate.
  assert (E : is_Some (mapM (fun cn => genericSubscriptionRequest (ask env) f cn OPS_DeactivateFilter) (fromClasses f))).
  { apply mapM_is_Some, Forall_true. intros cn. by apply generic_defined. }
  by destruct E as [x ->].
Qed.

Lemma deleteSubscription_ok st env cop key : good st -> path_key print_g cop = Some key ->
  is_Some (stored env) -> readable (settled (ask env)) st ->
  answered st (regular_subs st /\ regular limit st (DeleteInstance env cop)) (deleteSubscription st env key).
Proof.
  intros Hg Hkey [ci Hci] Hset. pose proof Hg as [Hc Hr].
  unfold deleteSubscription. destruct (getSubscription st key) as [l|] eqn:El; [|by apply answered_same].
  destruct (idx_live _ _ (c_subscriptionHt st Hc) key l El) as [s Hs]. rewrite Hs. cbn [mbind option_bind].
  destruct (c_subs st Hc l s Hs) as [[f Hf] _]. rewrite Hf. cbn [mbind option_bind].
  assert (Hd : (if useCount f =? 1 then deactivate env f else Some tt) = Some tt)
    by (destruct (useCount f =? 1); [apply deactivate_defined; split; [apply (Hr _ f Hf)|apply (Hset _ f Hf)]|done]).
  rewrite Hd, Hci. cbn [mbind option_bind]. set (v := match state_prop ci with Some (Some v) => v | _ => 2 end).
  set (st1 := if v =? 2 then _ else st).
  assert (H1 : good st1 /\ getSubscription st1 key = Some l /\ subs st1 = subs st /\ filters st1 = filters st /\ AScount st1 = AScount st - counts v).
  { subst st1. unfold counts. destruct (v =? 2); [split_and!; [by apply good_counts|done..]|split_and!; try done; lia]. }
  destruct H1 as ([Hc1 Hr1] & H1 & H2 & H3 & H4). assert (Hs1 : subs st1 !! l = Some s) by (by rewrite H2).
  destruct (removeSubscription_ok st1 key l s Hc1 H1 Hs1) as (st2 & E2 & Hc2 & Hs2 & Hf2 & _ & Ha2).
  rewrite E2. cbn [mbind option_bind]. eexists _, _. split; [done|]. split; [split; [done|]|].
  - unfold readable. rewrite (Hf2 f) by (by rewrite H3). apply map_Forall_insert_2; [exact (Hr _ f Hf)|exact Hr1].
  - intros [Hregs Hreg]. apply rtc_once. destruct (Hregs l s Hs) as (old & Hold & _).
    pose proof (Hreg key l s ci Hkey El Hs Hci) as Hst. apply (deleted limit st st2 l s old); [done|congruence|done|].
    rewrite Ha2, H4. subst v. by rewrite Hst, Hold.
Qed.

Lemma delete_ok st env cop : good st -> well_formed st (DeleteInstance env cop) ->
  answered st (regular_subs st /\ regular limit st (DeleteInstance env cop)) (InteropProviderDeleteInstance print_g isChild st env cop).
Proof.
  intros Hg ([key Hkey] & ns & Hns & Hwf). pose proof Hg as [Hc Hr]. unfold InteropProviderDeleteInstance.
  rewrite Hkey, Hns. cbn [mbind option_bind]. destruct (isa isChild _ _ _); [|destruct (isa isChild _ _ _)]; [| |by apply answered_same].
  - destruct Hwf as [Hst Hset]. apply answered_in_repository. by apply deleteSubscription_ok.
  - apply answered_in_repository. unfold deleteFilter. destruct (getFilter st key) as [p|] eqn:Ep; [|by apply answered_same].
    destruct (idx_live _ _ (c_filterHt st Hc) key p Ep) as [f Hf]. rewrite Hf. cbn [mbind option_bind].
    destruct (Z.eqb_spec (useCount f) 0) as [E|E]; [|by apply answered_same]. apply answered_untouched; [|done..].
    split; [by apply (removeFilter_consistent st key p f)|]. by apply map_Forall_delete.
Qed.

(** The places of a table are subscriptions that point to handlers. *)
Lemma deliver_defined st filterId walk : consistent st -> Forall (fun l => is_Some (subs st !! l)) walk ->
  is_Some (deliver_to st filterId walk).
Proof.
  intros Hc. induction 1 as [|l walk [s Hs] _ [r IH]]; cbn [deliver_to]; [by eexists|]. rewrite Hs. cbn [mbind option_bind].
  rewrite IH. cbn [mbind option_bind]. destruct (_ =? _)%nat; [|by eexists].
  destruct (c_subs st Hc l s Hs) as [_ [h Hh]]. rewrite Hh. by eexists.
Qed.

Lemma walk_live st : consistent st -> Forall (fun l => is_Some (subs st !! l)) (ht_values (subscriptionHt st)).
Proof.
  intros Hc. apply Forall_forall. intros l Hl. apply ht_values_get in Hl as [k Hk]. exact (idx_live _ _ (c_subscriptionHt st Hc) k l Hk).
Qed.

Lemma good_addHandler N st ci op : good_for N st -> has_key op ->
  exists st' r, addHandler print_g st ci op = Some (st', r) /\ good_for N st' /\ subs st' = subs st /\ AScount st' = AScount st.
Proof.
  intros [Hc Hr] [key Hkey]. destruct (addHandler print_g st ci op) as [[st' r]|] eqn:E.
  - eexists _, _. split; [done|]. pose proof (addHandler_consistent _ _ _ _ _ Hc E) as Hc'.
    unfold addHandler in E. rewrite Hkey in E. cbn [mbind option_bind] in E. destruct (ht_get _ _); by injection E as <- _.
  - unfold addHandler in E. rewrite Hkey in E. cbn [mbind option_bind] in E. by destruct (ht_get _ _).
Qed.

Lemma updateHandler_ok st reg ci op : good st -> has_key op -> answered st reg (method_updateHandler print_g st ci op).
Proof.
  intros [Hc Hr] [key Hkey]. unfold method_updateHandler. destruct (updateHandler print_g st ci op) as [[st' r]|] eqn:E.
  - pose proof (updateHandler_consistent _ _ _ _ _ Hc E) as Hc'. unfold updateHandler in E. rewrite Hkey in E. cbn [mbind option_bind] in E.
    cbn [mbind option_bind fst]. destruct (ht_get _ _) as [q|]; [|injection E as <- _; by apply answered_same].
    destruct (handlers st !! q); [|done]. injection E as <- _. by apply answered_untouched.
  - unfold updateHandler in E. rewrite Hkey in E. cbn [mbind option_bind] in E.
    destruct (ht_get (handlerHt st) key) as [q|] eqn:Eq; [|done].
    destruct (idx_live _ _ (c_handlerHt st Hc) key q Eq) as [h Hh]. by rewrite Hh in E.
Qed.

Lemma removeHandler_ok st reg op : good st -> has_key op -> answered st reg (method_removeHandler print_g st op).
Proof.
  intros [Hc Hr] [key Hkey]. unfold method_removeHandler. rewrite Hkey. cbn [mbind option_bind].
  destruct (getHandler st key) as [q|] eqn:Eq; [|by apply answered_same].
  destruct (idx_live _ _ (c_handlerHt st Hc) key q Eq) as [h Hh]. rewrite Hh. cbn [mbind option_bind].
  destruct (Z.eqb_spec (h_useCount h) 0) as [E|E]; apply answered_untouched; try done; apply good_counts; [|done].
  split; [by apply (removeHandler_consistent st key q h)|done].
Qed.

(** What is loaded at the start. *)
Lemma load_all_ok {A} load (P : A -> Prop) (Q : interop T I -> Prop) l : Forall P l ->
  (forall st x, Q st -> P x -> exists st', load st x = Some st' /\ Q st' /\ subs st' = subs st /\ AScount st' = AScount st) ->
  forall st, Q st -> exists st', load_all load st l = Some st' /\ Q st' /\ subs st' = subs st /\ AScount st' = AScount st.
Proof.
  intros Hl Hload. induction Hl as [|x l Hx _ IH]; intros st Hg; cbn [load_all]; [by eexists|].
  destruct (Hload st x Hg Hx) as (st1 & -> & Hg1 & Hs1 & Ha1). rewrite <- Hs1, <- Ha1. by apply IH.
Qed.

Lemma load_subscriptions_ok env l : Forall wf_subscription l ->
  forall st, good_for (sendable (ask env)) st ->
    exists st' d, load_subscriptions print_g isChild env st l = Some (st', d) /\ good_for (sendable (ask env)) st' /\
    (maxActive env = limit -> Forall (fun x => regular_state (snd x)) l -> rtc (change limit) st st').
Proof.
  induction 1 as [|x l Hx _ IH]; intros st Hg; cbn [load_subscriptions]; [by eexists _, _|]. unfold load_subscription.
  destruct x as [cop ci]. cbn [fst snd].
  destruct (processSubscription_ok st (ask env) (maxActive env) ci cop Hg Hx) as (st1 & rc & -> & Hg1 & Hch). cbn [mbind option_bind].
  destruct (IH st1 Hg1) as (st2 & d & -> & Hg2 & Hch2). eexists _, _. split; [done|]. split; [done|].
  intros Hlim [Hreg Hregs]%Forall_cons. subst limit. apply rtc_l with st1; auto.
Qed.

Lemma startup_ok st env fs hs ss : good st -> Forall wf_stored_filter fs -> Forall (fun x => has_key (fst x)) hs -> Forall wf_subscription ss ->
  Forall (fun x => settled (ask env) (sourceNamespaces (filter_props (snd x)))) fs -> readable (settled (ask env)) st ->
  exists st' d, initInterOp print_g isChild parseQuery st env fs hs ss = Some (st', d) /\ good st' /\
    (maxActive env = limit -> Forall (fun x => regular_state (snd x)) ss -> rtc (change limit) st st').
Proof.
  intros Hgood Hf Hh Hs Hfs Hset. pose proof (good_sendable (ask env) st Hgood Hset) as Hg. unfold initInterOp.
  assert (Hf' : Forall (fun x => wf_stored_filter x /\ settled (ask env) (sourceNamespaces (filter_props (snd x)))) fs)
    by by apply Forall_and.
  destruct (load_all_ok (load_filter print_g parseQuery) _ (good_for (sendable (ask env))) fs Hf')
    with (st := st) as (st1 & -> & Hg1 & Hs1 & Ha1); [|done|].
  { intros st0 [cop ci] Hg0 (([q Hq] & [l Hl] & [s Hs0] & [key Hkey] & Hn) & Hset0). cbn [fst snd] in *. unfold load_filter.
    rewrite Hq, Hl, Hs0, Hkey. cbn [mbind option_bind]. eexists. split; [done|]. split; [by apply good_addFilter|apply addFilter_subs]. }
  cbn [mbind option_bind].
  destruct (load_all_ok (load_handler print_g) (fun x => has_key (fst x)) (good_for (sendable (ask env))) hs Hh) with (st := st1) as (st2 & -> & Hg2 & Hs2 & Ha2); [|done|].
  { intros st0 [cop ci] Hg0 Hx. cbn [fst snd] in *. unfold load_handler. cbn [fst snd].
    destruct (good_addHandler _ st0 ci cop Hg0 Hx) as (st' & r & E & Hg'). rewrite E. by eexists. }
  cbn [mbind option_bind]. destruct (load_subscriptions_ok env ss Hs st2 Hg2) as (st3 & d & E & Hg3 & Hch). exists st3, d.
  split; [done|]. split; [by apply sendable_good in Hg3|]. intros Hl Hreg. apply rtc_l with st2; [apply same; congruence|auto].
Qed.

Lemma invoke_ok st env ref call : good st -> well_formed st (InvokeMethod env ref call) ->
  answered st (regular limit st (InvokeMethod env ref call)) (InteropProviderInvokeMethod print_g isChild parseQuery st env ref call).
Proof.
  intros Hg ([ns Hns] & Hcall). pose proof Hg as [Hc Hr]. unfold InteropProviderInvokeMethod, interOpNameSpace. rewrite Hns.
  cbn [mbind option_bind]. destruct (negb _); [by apply answered_same|]. destruct call as [filterId|ci op|op|ci op|fs hs ss|].
  - destruct Hcall as [f Hf]. unfold method_deliver. rewrite Hf. cbn [mbind option_bind].
    destruct (deliver_defined st filterId _ Hc (walk_live st Hc)) as [r ->]. by apply answered_same.
  - unfold method_addHandler. destruct (_ <? _); [by apply answered_same|].
    destruct (good_addHandler names_ok (set_counts st (LDcount st + 1) (AScount st)) ci op) as (st' & r & -> & Hg' & Hs' & Ha'); [by apply good_counts|done|].
    cbn [mbind option_bind fst]. by apply answered_untouched.
  - by apply removeHandler_ok.
  - by apply updateHandler_ok.
  - destruct Hcall as (Hf & Hh & Hs & Hfs & Hset). destruct (startup_ok st env fs hs ss Hg Hf Hh Hs Hfs Hset) as (st' & d & -> & Hg' & Hch).
    eexists _, _. split; [done|]. split; [done|]. intros [Hl Hreg]. auto.
  - by apply answered_same.
Qed.

Lemma handle_ok st r : good st -> well_formed st r ->
  answered st (regular_subs st /\ regular limit st r) (handle print_g isChild parseQuery st r).
Proof.
  assert (K : forall P Q X, answered st Q X -> answered st (P /\ Q) X).
  { intros P Q X (st' & rc & E & Hg' & Hch). exists st', rc. split; [done|]. split; [done|]. intros [_ HQ]. auto. }
  intros Hg Hw. destruct r; cbn [handle]; [apply K; by apply create_ok|by apply modify_ok|by apply delete_ok|apply K; by apply invoke_ok].
Qed.
End requests.

Fixpoint all_well_formed st (l : list request) : Prop :=
  match l with
  | [] => True
  | r :: l => well_formed st r /\
      forall st' rc, handle print_g isChild parseQuery st r = Some (st', rc) -> all_well_formed st' l
  end.

Lemma good_empty : good empty_interop.
Proof. split; [apply consistent_empty|apply map_Forall_empty]. Qed.

(** C25: whatever requests are handled, in any order and with any settings, codes of the
    providers and results of the repository: no released filter, handler or subscription
    is used, every use count is the number of subscriptions that point to the object, and
    every key of a table leads to an object of its own.  The requests are [well_formed]:
    their paths and references have keys and name spaces, their source name spaces are
    shorter than 512 bytes, a subscription that is deleted is in the repository, the filter
    of one that is changed and the filter of an indication that is delivered are there, and
    no source name space of a filter in which a class has no provider comes behind one in
    which it has; else the code frees an answer twice ([mixed_answers_undefined]). *)
Theorem requests_safe l : all_well_formed empty_interop l ->
  exists st rcs, handle_all print_g isChild parseQuery empty_interop l = Some (st, rcs) /\
    (forall p f, filters st !! p = Some f -> useCount f = count (fun s => fi s = p) (subs st)) /\
    (forall q h, handlers st !! q = Some h -> h_useCount h = count (fun s => ha s = q) (subs st)) /\
    (forall l s, subs st !! l = Some s -> is_Some (filters st !! fi s) /\ is_Some (handlers st !! ha s)) /\
    indexes (filterHt st) (filters st) /\ indexes (handlerHt st) (handlers st) /\ indexes (subscriptionHt st) (subs st).
Proof.
  assert (K : forall st, good st -> all_well_formed st l ->
    exists st' rcs, handle_all print_g isChild parseQuery st l = Some (st', rcs) /\ good st').
  { induction l as [|r l IH]; intros st Hg; cbn [all_well_formed handle_all]; [intros _; by eexists _, _|]. intros [Hw Hl].
    destruct (handle_ok 0 st r Hg Hw) as (st1 & rc & E & Hg1 & _). rewrite E. cbn [mbind option_bind].
    destruct (IH st1 Hg1 (Hl st1 rc E)) as (st2 & rcs & -> & Hg2). by eexists _, _. }
  intros Hl. destruct (K empty_interop good_empty Hl) as (st & rcs & E & [[] _]). by exists st, rcs.
Qed.

(** ** The number of active subscriptions *)

Definition active st : Z := count (fun s => state_prop (sci s) = Some (Some 2)) (subs st).
Definition limited (limit : Z) st : Prop := regular_subs st /\ active st <= AScount st <= limit.

Lemma state_counts (s : Subscription I) v : state_prop (sci s) = Some (Some v) ->
  (if decide (state_prop (sci s) = Some (Some 2)) then 1 else 0) = counts v.
Proof.
  intros E. rewrite E. unfold counts. destruct (decide (Some (Some v) = Some (Some 2))) as [Hd|Hd], (Z.eqb_spec v 2); congruence.
Qed.

Lemma change_limited limit st st' : limited limit st -> change limit st st' -> limited limit st'.
Proof.
  intros (Hr & Ha & Hm) Hch.
  destruct Hch as [Hs Hc|Hs Hc Hl|l s v Hn Hs Hv H24 Hc Hl|l s ci old v Ho Hs Hold Hv H24 Hc Hl|l s v Ho Hs Hv Hc];
    unfold limited, regular_subs, active in *; rewrite Hs, Hc.
  - done.
  - split; [done|]. lia.
  - split; [apply map_Forall_insert_2; eauto|]. rewrite count_insert, (state_counts s v Hv) by done.
    unfold counts in *. destruct (Z.eqb_spec v 2); [specialize (Hl e)|]; lia.
  - split; [apply map_Forall_insert_2; [cbn [sci]; eauto|done]|].
    rewrite (count_delete _ _ l s Ho), (state_counts s old Hold) in Ha.
    rewrite <- insert_delete_eq, count_insert by apply lookup_delete_eq.
    rewrite (state_counts _ v) by done. unfold counts in *. destruct (Hr l s Ho) as (old' & Hold' & H24').
    rewrite Hold in Hold'. injection Hold' as <-. destruct H24 as [-> | ->], H24' as [-> | ->]; cbn in *; lia.
  - split; [by apply map_Forall_delete|]. rewrite (count_delete _ _ l s Ho), (state_counts s v Hv) in Ha.
    unfold counts in *. destruct (v =? 2); lia.
Qed.

Fixpoint all_regular (limit : Z) st (l : list request) : Prop :=
  match l with
  | [] => True
  | r :: l => well_formed st r /\ regular limit st r /\
      forall st' rc, handle print_g isChild parseQuery st r = Some (st', rc) -> all_regular limit st' l
  end.

(** as long as subscriptions are enabled or disabled (states 2 and 4) and the
    repository has the state of a subscription that is deleted, there are never more
    active subscriptions than the setting allows. *)
Theorem active_limit limit l : 0 <= limit -> all_regular limit empty_interop l ->
  exists st rcs, handle_all print_g isChild parseQuery empty_interop l = Some (st, rcs) /\ active st <= limit.
Proof.
  intros Hlim. assert (K : forall st, good st -> limited limit st -> all_regular limit st l ->
    exists st' rcs, handle_all print_g isChild parseQuery st l = Some (st', rcs) /\ limited limit st').
  { induction l as [|r l IH]; intros st Hg Hl; cbn [all_regular handle_all]; [intros _; by eexists _, _|]. intros (Hw & Hr & Hrest).
    destruct (handle_ok limit st r Hg Hw) as (st1 & rc & E & Hg1 & Hch). rewrite E. cbn [mbind option_bind].
    assert (Hl1 : limited limit st1).
    { specialize (Hch (conj (proj1 Hl) Hr)). clear - Hl Hch. induction Hch as [|x y z Hxy _ IH]; [done|].
      apply IH. by apply (change_limited limit x). }
    destruct (IH st1 Hg1 Hl1 (Hrest st1 rc E)) as (st2 & rcs & -> & Hg2). by eexists _, _. }
  intros Hall. destruct (K empty_interop good_empty) as (st & rcs & E & _ & Ha & Hm); [|done|].
  { split; [apply map_Forall_empty|]. unfold active. cbn. rewrite count_empty. lia. }
  exists st, rcs. split; [done|]. lia.
Qed.
End safety.

(** ** Concrete requests *)

Record wit_instance := { w_filter : option object_path; w_handler : option object_path; w_state : option (option Z); w_props : filter_data }.
#[local] Instance wit_indication : IndicationInstance wit_instance.
Proof.
  refine {| filter_prop := w_filter; handler_prop := w_handler; state_prop := w_state;
    set_state := fun i v => {| w_filter := w_filter i; w_handler := w_handler i; w_state := Some (Some v); w_props := w_props i |};
    set_start := fun i => i; filter_props := w_props;
    set_filter_props := fun i d => {| w_filter := w_filter i; w_handler := w_handler i; w_state := w_state i; w_props := d |} |}; done.
Defined.
#[local] Instance wit_table : CharHashTable (list (bytes * loc)) loc := assoc_table false.
#[local] Instance wit_walk : HashTableWalk (list (bytes * loc)) loc := assoc_walk false.

Definition wit_print (_ : spec_float) : bytes := [].
Definition wit_child (_ _ _ : bytes) : bool := false.
Definition wit_parse (_ _ _ : bytes) : Z * list bytes := (0, [cstr "CIM_InstCreation"]).

Definition wit_path (cn name : string) : object_path :=
  {| nameSpace := Some (cstr "root/interop"); hostName := None; className := cstr cn;
     keys := [(cstr "Name", {| d_type := CMPI_chars; d_array := false; d_state := 0; d_value := VChars (cstr name) |})] |}.
Definition wit_data : filter_data :=
  {| querylanguage := Some (cstr "WQL"); query := Some (cstr "select * from CIM_InstCreation"); individual := None;
     sourceNamespace := Some (cstr "root/cimv2"); sourceNamespaces := Some [Some (cstr "root/cimv2"); Some (cstr "root/interop")];
     systemName := None |}.
Definition wit_f : object_path := wit_path "CIM_IndicationFilter" "f".
Definition wit_h : object_path := wit_path "CIM_ListenerDestinationCIMXML" "h".
Definition wit_s : object_path := wit_path "CIM_IndicationSubscription" "s".

Definition wit_ci (state : option (option Z)) : wit_instance :=
  {| w_filter := filter_path (cstr "host") wit_f wit_data; w_handler := Some wit_h; w_state := state; w_props := wit_data |}.

(** Every provider answers with [rc]; one active subscription and one handler. *)
Definition wit_env_with (answer : Z -> Z) (i : option wit_instance) : environment :=
  {| ask := fun _ _ op => Providers [answer op]; maxActive := 1; maxHandlers := 1; localHost := cstr "host"; verified := 0;
     stored := i; repository_rc := 0 |}.
Definition wit_env := wit_env_with (fun _ => 0).
Definition create_filter : request := CreateInstance (wit_env None) wit_f (wit_ci None).
Definition add_handler : request := InvokeMethod (wit_env None) wit_s (AddHandler (wit_ci None) wit_h).
Definition remove_handler : request := InvokeMethod (wit_env None) wit_s (RemoveHandler wit_h).
Definition create_sub (answer : Z -> Z) (name : string) : request :=
  CreateInstance (wit_env_with answer None) (wit_path "CIM_IndicationSubscription" name) (wit_ci None).
Definition delete_sub (i : option wit_instance) : request := DeleteInstance (wit_env i) wit_s.
Definition delete_filter : request := DeleteInstance (wit_env None) (default wit_f (filter_path (cstr "host") wit_f wit_data)).
Definition disable_sub : request := ModifyInstance (wit_env None) true wit_s (wit_ci (Some (Some 4))).

Definition wit_requests : list request :=
  [create_filter; add_handler; create_sub (fun _ => 0) "s"; delete_filter; remove_handler; disable_sub;
   delete_sub (Some (wit_ci (Some (Some 4)))); delete_filter].

Abbreviation run := (handle_all (T := list (bytes * loc)) wit_print wit_child wit_parse).

(** A filter and a handler in use are not removed, and the filter is when it is not. *)
Example wit_codes : snd <$> run empty_interop wit_requests = Some [0; 0; 0; 1; 1; 0; 0; 0].
Proof. vm_compute. reflexivity. Qed.

Ltac some := eexists; vm_compute; reflexivity.
Ltac next_state := let E := fresh in intros ? ? E; vm_compute in E; injection E as <- <-.

Abbreviation wit_well_formed := (well_formed (T := list (bytes * loc)) wit_print wit_child).

Lemma wit_settled answer i : forall a, settled (ask (wit_env_with answer i)) a.
Proof. intros a l cn op j k s t _ _ _ _ _. exact Logic.I. Qed.
Lemma wit_settled_all answer i (st : interop (list (bytes * loc)) wit_instance) : readable (settled (ask (wit_env_with answer i))) st.
Proof. intros p f _. apply wit_settled. Qed.

Lemma wf_create_filter st : wit_well_formed st create_filter.
Proof.
  exists (cstr "root/interop"). split; [reflexivity|].
  replace (isa wit_child _ _ _) with false by (vm_compute; reflexivity).
  replace (isa wit_child _ _ _) with true by (vm_compute; reflexivity).
  split; [|split; [some|repeat constructor; eexists; (split; [reflexivity|vm_compute; reflexivity])]].
  eexists. split; [vm_compute; reflexivity|some].
Qed.
Lemma wf_add_handler st : wit_well_formed st add_handler.
Proof. split; some. Qed.
Lemma wf_remove_handler st : wit_well_formed st remove_handler.
Proof. split; some. Qed.
Lemma wf_create_sub st answer name : is_Some (path_key wit_print (wit_path "CIM_IndicationSubscription" name)) ->
  wit_well_formed st (create_sub answer name).
Proof.
  intros Hk. exists (cstr "root/interop"). split; [reflexivity|].
  replace (isa wit_child _ _ _) with true by (vm_compute; reflexivity).
  split; [split; [exact Hk|]|apply wit_settled_all].
  split; (eexists; split; [vm_compute; reflexivity|split; some]).
Qed.
Lemma wf_delete_sub st i : wit_well_formed st (delete_sub (Some i)).
Proof.
  split; [some|]. exists (cstr "root/interop"). split; [reflexivity|].
  replace (isa wit_child _ _ _) with true by (vm_compute; reflexivity). split; [by eexists|apply wit_settled_all].
Qed.
Lemma wf_delete_filter st : wit_well_formed st delete_filter.
Proof.
  split; [some|]. exists (cstr "root/interop"). split; [vm_compute; reflexivity|].
  by replace (isa wit_child _ _ _) with false by (vm_compute; reflexivity).
Qed.
Lemma wf_disable_sub st key : path_key wit_print (default wit_f (filter_path (cstr "host") wit_f wit_data)) = Some key ->
  is_Some (getFilter st key) -> wit_well_formed st disable_sub.
Proof.
  intros Hkey Hf. split; [some|]. replace (isa wit_child _ _ _) with true by (vm_compute; reflexivity).
  split; [apply wit_settled_all|]. exists (default wit_f (filter_path (cstr "host") wit_f wit_data)), key. split; [vm_compute; reflexivity|]. done.
Qed.

Lemma wit_exact : @ht_ignoreCase (list (bytes * loc)) loc wit_table = false.
Proof. reflexivity. Qed.

Lemma requests_safe_witness : exists st rcs, run empty_interop wit_requests = Some (st, rcs) /\
  (forall p f, filters st !! p = Some f -> useCount f = count (fun s => fi s = p) (subs st)) /\
  (forall q h, handlers st !! q = Some h -> h_useCount h = count (fun s => ha s = q) (subs st)) /\
  (forall l s, subs st !! l = Some s -> is_Some (filters st !! fi s) /\ is_Some (handlers st !! ha s)) /\
  indexes (filterHt st) (filters st) /\ indexes (handlerHt st) (handlers st) /\ indexes (subscriptionHt st) (subs st).
Proof.
  apply (requests_safe wit_exact wit_print wit_child wit_parse wit_requests). unfold wit_requests. cbn [all_well_formed].
  split; [apply wf_create_filter|]. next_state.
  split; [apply wf_add_handler|]. next_state.
  split; [apply wf_create_sub; some|]. next_state.
  split; [apply wf_delete_filter|]. next_state.
  split; [apply wf_remove_handler|]. next_state.
  split; [eapply wf_disable_sub; [vm_compute; reflexivity|some]|]. next_state.
  split; [apply wf_delete_sub|]. next_state.
  split; [apply wf_delete_filter|]. next_state. exact Logic.I.
Defined.

(** A second subscription is refused until the first one is disabled. *)
Definition wit_regular : list request :=
  [create_filter; add_handler; create_sub (fun _ => 0) "s"; create_sub (fun _ => 0) "t"; disable_sub; create_sub (fun _ => 0) "t"].

Example wit_regular_codes : snd <$> run empty_interop wit_regular = Some [0; 0; 0; 1; 0; 0].
Proof. vm_compute. reflexivity. Qed.

Lemma active_limit_witness : 0 <= 1 /\ exists st rcs, run empty_interop wit_regular = Some (st, rcs) /\ active st <= 1.
Proof.
  split; [done|].
  apply (active_limit wit_exact wit_print wit_child wit_parse 1 wit_regular); [done|]. unfold wit_regular. cbn [all_regular].
  split; [apply wf_create_filter|]. split; [split; [reflexivity|exact Logic.I]|]. next_state.
  split; [apply wf_add_handler|]. split; [exact Logic.I|]. next_state.
  split; [apply wf_create_sub; some|]. split; [split; [reflexivity|exact Logic.I]|]. next_state.
  split; [apply wf_create_sub; some|]. split; [split; [reflexivity|exact Logic.I]|]. next_state.
  split; [eapply wf_disable_sub; [vm_compute; reflexivity|some]|].
  split; [split; [reflexivity|exists 4; split; [reflexivity|by right]]|]. next_state.
  split; [apply wf_create_sub; some|]. split; [split; [reflexivity|exact Logic.I]|]. next_state. exact Logic.I.
Defined.

(** ** Where the counts go wrong *)

(** A subscription of a filter for two name spaces, the second of which has no provider. *)
Example mixed_answers_freed_twice :
  run empty_interop [create_filter; add_handler;
    CreateInstance {| ask := fun ns _ _ => if bool_decide (ns = cstr "root/cimv2") then Providers [0] else NoProvider 1;
                      maxActive := 1; maxHandlers := 1; localHost := cstr "host"; verified := 0; stored := None; repository_rc := 0 |}
      wit_s (wit_ci None)] = None.
Proof. vm_compute. reflexivity. Qed.

(** A subscription whose activation fails counts as active: with a limit of one, no other
    can be created after it, though there is none. *)
Example failed_activation_counts :
  (fun x => (size (subs (fst x)), AScount (fst x), snd x)) <$>
    run empty_interop [create_filter; add_handler; create_sub (fun _ => 5) "s"; create_sub (fun _ => 0) "s"] =
  Some (0%nat, 1, [0; 0; CMPI_RC_ERR_NOT_SUPPORTED; CMPI_RC_ERR_FAILED]).
Proof. vm_compute. reflexivity. Qed.

(** Each attempt to remove a handler that is in use makes room for another handler: with
    a limit of one there are two. *)
Definition add_handler2 : request := InvokeMethod (wit_env None) wit_s (AddHandler (wit_ci None) (wit_path "CIM_ListenerDestinationCIMXML" "h2")).
Example handlers_in_use_not_counted :
  (fun x => (size (handlers (fst x)), LDcount (fst x), snd x)) <$>
    run empty_interop [create_filter; add_handler; create_sub (fun _ => 0) "s"; add_handler2; remove_handler; add_handler2] =
  Some (2%nat, 1, [0; 0; 0; CMPI_RC_ERR_FAILED; CMPI_RC_ERR_FAILED; 0]).
Proof. vm_compute. reflexivity. Qed.

(** When the filter is activated but not enabled the request fails, so the repository has
    no such subscription, but the provider keeps it; deleting it follows a null pointer. *)
Example half_created_subscription :
  (fun x => (size (subs (fst x)), snd x)) <$>
    run empty_interop [create_filter; add_handler; create_sub (fun op => if op =? OPS_EnableIndications then 5 else 0) "s"] =
    Some (1%nat, [0; 0; CMPI_RC_ERR_NOT_SUPPORTED]) /\
  run empty_interop [create_filter; add_handler; create_sub (fun op => if op =? OPS_EnableIndications then 5 else 0) "s"; delete_sub None] = None.
Proof. vm_compute. split; reflexivity. Qed.

(** ** The threads that deliver indications *)

(** Without timeouts the threads and the free places are as many as there were places. *)
Lemma delivery_bounded l : Forall (fun e => e <> Start true) l -> forall d d', 0 <= avail d ->
  delivery_steps d l = Some d' -> avail d' + running d' = avail d + running d /\ 0 <= avail d'.
Proof.
  induction 1 as [|e l He _ IH]; intros d d' Hd; cbn [delivery_steps]; [by intros [= <-]|].
  destruct (delivery_step d e) as [d1|] eqn:E; [|done]. cbn [mbind option_bind]. intros Hs.
  assert (K : avail d1 + running d1 = avail d + running d /\ 0 <= avail d1).
  { destruct e as [t|]; cbn [delivery_step] in E.
    - destruct (Z.ltb_spec 0 (avail d)); [injection E as <-; cbn; lia|]. destruct t; done.
    - destruct (Z.ltb_spec 0 (running d)); [injection E as <-; cbn; lia|done]. }
  destruct (IH d1 d' (proj2 K) Hs). lia.
Qed.

(** With timeouts there is one thread more for each, and when they are done as many free
    places more: the limit is lost. *)
Lemma delivery_unbounded n k : delivery_steps {| avail := 0; running := n |} (replicate k (Start true)) =
  Some {| avail := 0; running := n + Z.of_nat k |}.
Proof.
  revert n. induction k as [|k IH]; intros n; cbn [replicate delivery_steps]; [by rewrite Z.add_0_r|].
  cbn [delivery_step avail running Z.ltb Z.compare mbind option_bind]. rewrite IH. do 2 f_equal. lia.
Qed.
