(* ===== verification/ClassRegister.v ===== *)
(** * The class provider (classProvider.c)

    The classes of a namespace are kept in a register: a table of the classes by name, a
    table that gives for a class the names of the classes derived from it, and counts of
    the associations.  This file has the register ([newClassRegister] and
    [buildInheritanceTable], [addClass], [removeClass]), the class requests
    ([ClassProviderEnumClassNames], ..., [ClassProviderDeleteClass]) and the methods of
    the provider (getchildren, getallchildren, getassocs, ischild).

    A list of derived classes holds pointers to names, and the key of a list is a pointer
    as well.  Those put there at startup are names inside class objects, those put there
    by [addClass] are memory of the request that created the class; [live r] says whether
    request [r] is still in progress.  Following a pointer into the memory of a finished
    request is undefined, [None], and so is looking for a list when one of the keys is
    such a pointer: it is compared with the keys that share its place in the table, any of
    them.  [None] is also what else is undefined.  Recursion over the classes has fuel; [None] is then also that
    it does not end.  The file of a register is the list of its records. *)

From S2P Require Import Prelude CString HashTable CmpiData ClBuffer StringBuffer ClObject ClClass NativeArray ConstClass ClassMerge.
From S2P Require Import Interop.

Definition CMPI_RC_ERR_INVALID_NAMESPACE : Z := 3.
Definition CMPI_RC_ERR_INVALID_CLASS : Z := 5.
Definition CMPI_RC_ERR_CLASS_HAS_CHILDREN : Z := 8.
Definition CMPI_RC_ERR_INVALID_SUPERCLASS : Z := 10.
Definition CMPI_FLAG_DeepInheritance : Z := 4.
Definition FL_assocsOnly : Z := 64.

(** ** Names *)

Inductive name_ptr :=
| OwnName (s : bytes)              (* in a class of the register *)
| RequestName (r : Z) (s : bytes). (* in the class a request came with *)

Definition deref (live : Z -> bool) (p : name_ptr) : option bytes :=
  match p with OwnName s => Some s | RequestName r s => if live r then Some s else None end.
(** What a pointer led to when it was stored. *)
Definition text (p : name_ptr) : bytes := match p with OwnName s | RequestName _ s => s end.
Definition is_live (live : Z -> bool) (p : name_ptr) : bool := match deref live p with Some _ => true | None => false end.

(** ** The file of a register *)

(** What the 96 bytes of a version record and a class record start with; [f_complete]: the
    rest of the record is there. *)
Inductive record_body := BVersion (id : bytes) (objImplLevel : Z) | BClass (cls : ClClass).
Record file_record := { f_size : Z; f_type : Z; f_complete : bool; f_body : record_body }.

Definition SIZEOF_ClVersionRecord : Z := 96.
Definition HDR_Version : Z := 4112.
Definition ClCurrentObjImplLevel : Z := 3.

(** On a machine with the low byte first. *)
Definition ntohs (x : Z) : Z := x mod 256 * 256 + x / 256.

(** Not 0: the level is supported, or there is no version record. *)
Definition ClVerifyObjImplLevel (vr : option (bytes * Z)) : Z :=
  match vr with
  | None => -1
  | Some (_, level) => if ntohs level =? ClCurrentObjImplLevel then 1 else 0
  end.

(** ** The register *)

(** The lists of derived classes with the pointers that are their keys. *)
Record inheritance (TI : Type) := { lists : TI; list_keys : list name_ptr }.
Arguments lists {TI}. Arguments list_keys {TI}. Arguments Build_inheritance {TI}.

(** [fn] is the file, [None] when the pointer to its name was never set. *)
Record ClassRegister (T TI : Type) := {
  ht : T; it : inheritance TI; vr : option (bytes * Z); assocs : Z; topAssocs : Z; fn : option (list file_record)
}.
Arguments ht {T TI}. Arguments it {T TI}. Arguments vr {T TI}.
Arguments assocs {T TI}. Arguments topAssocs {T TI}. Arguments fn {T TI}.

Section Register.
Context {T TI : Type} `{!CharHashTable T ClClass} `{!HashTableWalk T ClClass} `{!CharHashTable TI (list name_ptr)}.
Context (getObjectPath : bytes -> option CMPIValue) (inst_at : ClObjectHdr -> Z -> option CMPIValue).

Definition register : Type := ClassRegister T TI.

Definition with_ht (cr : register) (t : T) : register :=
  {| ht := t; it := it cr; vr := vr cr; assocs := assocs cr; topAssocs := topAssocs cr; fn := fn cr |}.
Definition with_it (cr : register) (t : inheritance TI) : register :=
  {| ht := ht cr; it := t; vr := vr cr; assocs := assocs cr; topAssocs := topAssocs cr; fn := fn cr |}.
Definition with_fn (cr : register) (f : list file_record) : register :=
  {| ht := ht cr; it := it cr; vr := vr cr; assocs := assocs cr; topAssocs := topAssocs cr; fn := Some f |}.
Definition with_counts (cr : register) (a t : Z) : register :=
  {| ht := ht cr; it := it cr; vr := vr cr; assocs := a; topAssocs := t; fn := fn cr |}.

(** [ul = it->get(p); if (ul == NULL) it->put(p, newList()); prepend(ul, n)]: the pointer
    [p] is the key of a new list. *)
Definition prepend_child (i : inheritance TI) (p n : name_ptr) : inheritance TI :=
  let ul := ht_get (lists i) (text p) in
  {| lists := ht_put (lists i) (text p) (n :: default [] ul);
     list_keys := match ul with None => p :: list_keys i | Some _ => list_keys i end |}.

Fixpoint buildInheritanceTable (l : list ClClass) (t : inheritance TI) : option (inheritance TI) :=
  match l with
  | [] => Some t
  | cc :: l =>
      p ← getCharSuperClassName cc;
      match p with
      | None => buildInheritanceTable l t
      | Some p =>
          n ← getCharClassName cc;
          n ← n;
          buildInheritanceTable l (prepend_child t (OwnName p) (OwnName n))
      end
  end.

Definition getClass (cr : register) (clsName : bytes) : option ClClass := ht_get (ht cr) clsName.
(** Inside, [None] is the null pointer. *)
Definition getChildren (live : Z -> bool) (cr : register) (className : bytes) : option (option (list name_ptr)) :=
  if forallb (is_live live) (list_keys (it cr)) then Some (ht_get (lists (it cr)) className) else None.

(** The first child with the name is taken out. *)
Fixpoint remove_first (live : Z -> bool) (chd : bytes) (ul : list name_ptr) : option (list name_ptr) :=
  match ul with
  | [] => Some []
  | p :: ul =>
      child ← deref live p;
      if strcasecmp child chd =? 0 then Some ul else ul ← remove_first live chd ul; Some (p :: ul)
  end.
Definition removeChild (live : Z -> bool) (cr : register) (pn chd : bytes) : option register :=
  ul ← getChildren live cr pn;
  match ul with
  | None => Some cr
  | Some ul =>
      ul ← remove_first live chd ul;
      Some (with_it cr {| lists := ht_put (lists (it cr)) pn ul; list_keys := list_keys (it cr) |})
  end.

(** *** Reading the file *)

Record loading := { ld_first : bool; ld_vRec : bool; ld_cr : register }.

(** One round of the loop: [inl] leaves it with a null pointer. *)
Definition read_record (r : file_record) (st : loading) : option (unit + loading) :=
  let first := ld_first st in
  if first && (f_size r =? u32 (Z.shiftl SIZEOF_ClVersionRecord 24)) && (f_type r =? HDR_Version) then Some (inl tt)
  else
    let vRec := ld_vRec st || first && (f_size r =? SIZEOF_ClVersionRecord) && (f_type r =? HDR_Version) in
    if negb vRec && negb (f_type r =? HDR_Class) then Some (inl tt)
    else if negb (f_complete r) then Some (inl tt)
    else
      cr ← (if vRec then
              match f_body r with
              | BVersion id level =>
                  Some (if bool_decide (id = cstr "sfcb-rep") then
                          Some {| ht := ht (ld_cr st); it := it (ld_cr st); vr := Some (id, level);
                                  assocs := assocs (ld_cr st); topAssocs := topAssocs (ld_cr st); fn := fn (ld_cr st) |}
                        else None)
              | BClass _ => None
              end
            else Some (Some (ld_cr st)));
      match cr with
      | None => Some (inl tt)
      | Some cr =>
          if first then
            if negb (ClVerifyObjImplLevel (vr cr) =? 0) then Some (inr {| ld_first := false; ld_vRec := false; ld_cr := cr |})
            else Some (inl tt)
          else
            match f_body r with
            | BVersion _ _ => None
            | BClass cc =>
                cn ← getCharClassName cc;
                cn ← cn;
                cr ← (if strncmp cn (cstr "DMY_") 4 =? 0 then Some cr
                      else
                        p ← (if isAssociation cc then getCharSuperClassName cc else Some None);
                        let cr := with_ht cr (ht_put (ht cr) cn cc) in
                        Some (if isAssociation cc then
                                with_counts cr (assocs cr + 1) (topAssocs cr + match p with None => 1 | Some _ => 0 end)
                              else cr));
                Some (inr {| ld_first := false; ld_vRec := false; ld_cr := cr |})
            end
      end.

Fixpoint read_file (l : list file_record) (st : loading) : option (unit + loading) :=
  match l with
  | [] => Some (inr st)
  | r :: l => s ← read_record r st; match s with inl _ => Some (inl tt) | inr st => read_file l st end
  end.

Definition new_inheritance : inheritance TI := {| lists := ht_new; list_keys := [] |}.

(** A file that is not there gives an empty register; [fn] is not set then. *)
Definition newClassRegister (file : option (list file_record)) : option (option register) :=
  match file with
  | None => Some (Some {| ht := ht_new; it := new_inheritance; vr := None; assocs := 0; topAssocs := 0; fn := None |})
  | Some l =>
      let cr := {| ht := ht_new; it := new_inheritance; vr := None; assocs := 0; topAssocs := 0; fn := Some l |} in
      s ← read_file l {| ld_first := true; ld_vRec := false; ld_cr := cr |};
      match s with
      | inl _ => Some None
      | inr st =>
          t ← buildInheritanceTable (ht_values (ht (ld_cr st))) new_inheritance;
          Some (Some (with_it (ld_cr st) t))
      end
  end.

(** *** Changing the register *)

(** The class object that is stored: the class itself, or merged with its superclass. *)
Definition merged (cr : register) (ccp : ClClass) (cn : bytes) (p : option bytes) : option (option ClClass) :=
  match p with
  | None => Some (Some ccp)
  | Some pn =>
      mc ← newClassH (Some cn) (Some pn);
      match getClass cr pn with
      | None => Some None
      | Some pcc => mc ← mergeParents getObjectPath inst_at mc pcc ccp; Some (Some mc)
      end
  end.

(** [req] is the request that came with [ccp], whose names [cn] and [p] are. *)
Definition addClass (live : Z -> bool) (cr : register) (req : Z) (ccp : ClClass) (cn : bytes) (p : option bytes) : option (Z * register) :=
  mc ← merged cr ccp cn p;
  match mc with
  | None => Some (CMPI_RC_ERR_INVALID_SUPERCLASS, cr)
  | Some mc =>
      '(size, cc) ← rebuildClassH mc;
      let cr := with_ht cr (ht_put (ht cr) cn cc) in
      f ← fn cr;
      let cr := with_fn cr (f ++ [{| f_size := size; f_type := HDR_Class; f_complete := true; f_body := BClass cc |}]) in
      let cr := if isAssociation cc then
                  with_counts cr (assocs cr + 1) (topAssocs cr + match p with None => 1 | Some _ => 0 end)
                else cr in
      match p with
      | None => Some (CMPI_RC_OK, cr)
      | Some p =>
          _ ← getChildren live cr p;
          Some (CMPI_RC_OK, with_it cr (prepend_child (it cr) (RequestName req p) (RequestName req cn)))
      end
  end.

Definition putClass (cr : register) (cls : ClClass) : option register :=
  n ← getCharClassName cls; n ← n; Some (with_ht cr (ht_put (ht cr) n cls)).

Definition is_class_record (clsName : bytes) (r : file_record) : option bool :=
  if f_type r =? HDR_Class then
    match f_body r with
    | BClass cc => cn ← getCharClassName cc; cn ← cn; Some (strcasecmp clsName cn =? 0)
    | BVersion _ _ => None
    end
  else Some false.
(** The records that are written to the new file: all complete ones but those of the class. *)
Fixpoint without_class (clsName : bytes) (l : list file_record) : option (list file_record) :=
  match l with
  | [] => Some []
  | r :: l =>
      if negb (f_complete r) then without_class clsName l
      else
        same ← is_class_record clsName r;
        l ← without_class clsName l;
        Some (if (same : bool) then l else r :: l)
  end.
Definition removeClass (cr : register) (clsName : bytes) : option register :=
  let cr := with_ht cr (ht_remove (ht cr) clsName) in
  f ← fn cr;
  f ← without_class clsName f;
  Some (with_fn cr f).

(** ** The requests *)

(** Classes without the namespace: what [getNsReg] found. *)
Definition ClassProviderGetClass (cr : register) (cn : bytes) : Z * list ClClass :=
  match getClass cr cn with
  | Some cl => (CMPI_RC_OK, [cl])
  | None => (CMPI_RC_ERR_NOT_FOUND, [])
  end.

Definition ClassProviderCreateClass (live : Z -> bool) (cr : register) (req : Z) (cc : ClClass) : option (Z * register) :=
  pn ← getCharSuperClassName cc;
  cn ← getCharClassName cc;
  cn ← cn;
  match getClass cr cn with
  | Some _ => Some (CMPI_RC_ERR_ALREADY_EXISTS, cr)
  | None =>
      match pn with
      | Some p => match getClass cr p with
                  | None => Some (CMPI_RC_ERR_INVALID_SUPERCLASS, cr)
                  | Some _ => addClass live cr req cc cn pn
                  end
      | None => addClass live cr req cc cn pn
      end
  end.

Definition ClassProviderSetClass (cr : register) : Z * register := (CMPI_RC_ERR_NOT_SUPPORTED, cr).

Definition ClassProviderDeleteClass (live : Z -> bool) (cr : register) (cn : bytes) : option (Z * register) :=
  match getClass cr cn with
  | None => Some (CMPI_RC_ERR_NOT_FOUND, cr)
  | Some cl =>
      ul ← getChildren live cr cn;
      match ul with
      | Some (_ :: _) => Some (CMPI_RC_ERR_CLASS_HAS_CHILDREN, cr)
      | _ =>
          pn ← getCharSuperClassName cl;
          cr ← (match pn with Some pn => removeChild live cr pn cn | None => Some cr end);
          cr ← removeClass cr cn;
          Some (CMPI_RC_OK, cr)
      end
  end.
(** *** Walking over the classes below a class *)

(** [for (child = getFirst(ul); child; child = getNext(ul))]: [visit] is called for every
    name and its results are put together. *)
Fixpoint for_children {A} (live : Z -> bool) (visit : bytes -> option (list A)) (ul : list name_ptr) : option (list A) :=
  match ul with
  | [] => Some []
  | p :: ul =>
      child ← deref live p;
      a ← visit child;
      l ← for_children live visit ul;
      Some (a ++ l)
  end.
Definition children_of (live : Z -> bool) (cr : register) (cn : bytes) : option (list name_ptr) :=
  ul ← getChildren live cr cn; Some (default [] ul).

(** The recursive loops: [emit] is what is done with a child before its own children. *)
Fixpoint loop_on_children {A} (live : Z -> bool) (cr : register) (emit : bytes -> option (list A)) (fuel : nat) (cn : bytes) :
    option (list A) :=
  match fuel with
  | O => None
  | S fuel =>
      ul ← children_of live cr cn;
      for_children live (fun child =>
        a ← emit child;
        l ← loop_on_children live cr emit fuel child;
        Some (a ++ l)) ul
  end.

(** An object path: its namespace, a null pointer in the recursion, and its class. *)
Definition path : Type := option bytes * bytes.
Definition loopOnChildNames (live : Z -> bool) (cr : register) (fuel : nat) (cn : bytes) : option (list path) :=
  loop_on_children live cr (fun child => Some [(None, child)]) fuel cn.

(** A class that is not there is a null pointer given to [CMReturnInstance]. *)
Definition return_class (cr : register) (child : bytes) : option (list ClClass) := cl ← getClass cr child; Some [cl].
Definition loopOnChildren (live : Z -> bool) (cr : register) (fuel : nat) (cn : bytes) : option (list ClClass) :=
  loop_on_children live cr (return_class cr) fuel cn.

(** The empty name is no name; only [EnumClassNames] knows [$ClassProvider$]. *)
Definition class_given (cni : option bytes) : option bytes :=
  match cni with Some [] => None | cn => cn end.

(** The classes the loops over the table return, by name: all of them, or those without
    a superclass. *)
Fixpoint select_classes (deep assocsOnly : bool) (l : list ClClass) : option (list ClClass) :=
  match l with
  | [] => Some []
  | cls :: l =>
      top ← (if deep then Some true else p ← getCharSuperClassName cls; Some (bool_decide (p = None)));
      l ← select_classes deep assocsOnly l;
      Some (if (top : bool) && (negb assocsOnly || isAssociation cls) then cls :: l else l)
  end.

(** The keys of the table are the names of the classes. *)
Definition class_key (cls : ClClass) : option bytes := n ← getCharClassName cls; n.

Definition ClassProviderEnumClassNames (live : Z -> bool) (fuel : nat) (cr : register) (ns : bytes) (flgs : Z) (cni : option bytes) :
    option (Z * list path) :=
  let deep := negb (Z.land flgs CMPI_FLAG_DeepInheritance =? 0) in
  let assocsOnly := negb (Z.land flgs FL_assocsOnly =? 0) in
  let cn := match class_given cni with
            | Some cn => if strcasecmp cn (cstr "$ClassProvider$") =? 0 then None else Some cn
            | None => None
            end in
  match cn with
  | None =>
      l ← select_classes deep assocsOnly (ht_values (ht cr));
      keys ← mapM class_key l;
      Some (CMPI_RC_OK, (fun k => (Some ns, k)) <$> keys)
  | Some cn =>
      match getClass cr cn with
      | None => Some (CMPI_RC_ERR_INVALID_CLASS, [])
      | Some cls =>
          if negb deep then
            ul ← children_of live cr cn;
            l ← for_children live (fun child => Some [(Some ns, child)]) ul;
            Some (CMPI_RC_OK, l)
          else if negb assocsOnly || isAssociation cls then
            l ← loopOnChildNames live cr fuel cn; Some (CMPI_RC_OK, l)
          else Some (CMPI_RC_OK, [])
      end
  end.

Definition ClassProviderEnumClasses (live : Z -> bool) (fuel : nat) (cr : register) (flgs : Z) (cni : option bytes) :
    option (Z * list ClClass) :=
  let deep := negb (Z.land flgs CMPI_FLAG_DeepInheritance =? 0) in
  match class_given cni with
  | None => l ← select_classes deep false (ht_values (ht cr)); Some (CMPI_RC_OK, l)
  | Some cn =>
      match getClass cr cn with
      | None => Some (CMPI_RC_ERR_INVALID_CLASS, [])
      | Some _ =>
          l ← (if deep then loopOnChildren live cr fuel cn
               else ul ← children_of live cr cn; for_children live (return_class cr) ul);
          Some (CMPI_RC_OK, l)
      end
  end.

(** ** The methods *)

Section methods.
(** Whether the provider register has an instance provider under a class name. *)
Context (has_provider : bytes -> bool).

(** [while (cn != NULL)] over the superclasses of [cl], whose name is [cn]. *)
Fixpoint no_provider_above (cr : register) (fuel : nat) (cl : ClClass) (cn : bytes) : option bool :=
  match fuel with
  | O => None
  | S fuel =>
      if has_provider cn then Some false
      else
        p ← getCharSuperClassName cl;
        match p with
        | None => Some true
        | Some p => cl ← getClass cr p; no_provider_above cr fuel cl p
        end
  end.

(** The class is there when it is read: else the null pointer is followed. *)
Definition repCandidate (cr : register) (fuel : nat) (cn : bytes) : option bool :=
  cl ← getClass cr cn;
  if isAbstract cl then Some false
  else if (strcasecmp cn (cstr "cim_indicationfilter") =? 0) || (strcasecmp cn (cstr "cim_indicationsubscription") =? 0)
  then Some false
  else no_provider_above cr fuel cl cn.

Definition wanted (cr : register) (fuel : nat) (ignprov : bool) (child : bytes) : option bool :=
  if ignprov then Some true else repCandidate cr fuel child.

(** [loopOnChildChars] sets the elements of the array in this order from index 0. *)
Definition loopOnChildChars (live : Z -> bool) (cr : register) (fuel : nat) (cn : bytes) (ignprov : bool) : option (list bytes) :=
  loop_on_children live cr (fun child => w ← wanted cr fuel ignprov child; Some (if (w : bool) then [child] else [])) fuel cn.

Fixpoint count_children (live : Z -> bool) (visit : bytes -> Z -> option Z) (ul : list name_ptr) (i : Z) : option Z :=
  match ul with
  | [] => Some i
  | p :: ul =>
      child ← deref live p;
      i ← visit child i;
      count_children live visit ul i
  end.
Fixpoint loopOnChildCount (live : Z -> bool) (cr : register) (wfuel fuel : nat) (ignprov : bool) (cn : bytes) (i : Z) : option Z :=
  match fuel with
  | O => None
  | S fuel =>
      ul ← children_of live cr cn;
      count_children live (fun child i =>
        w ← wanted cr wfuel ignprov child;
        loopOnChildCount live cr wfuel fuel ignprov child (if (w : bool) then s32 (i + 1) else i)) ul i
  end.

(** [CMSetArrayElementAt] of the names from index [i]; an error is not looked at. *)
Fixpoint set_names (ar : native_array) (i : Z) (l : list bytes) : option native_array :=
  match l with
  | [] => Some ar
  | s :: l => '(ar, _) ← setElementAt ar i (Some (VChars s)) CMPI_chars false false; set_names ar (i + 1) l
  end.

Definition getchildren (live : Z -> bool) (cr : register) (cn : bytes) : option native_array :=
  ul ← children_of live cr cn;
  ar ← new_empty_array (len ul) CMPI_string;
  l ← for_children live (fun child => Some [child]) ul;
  set_names ar 0 l.

Definition getallchildren (live : Z -> bool) (cr : register) (fuel : nat) (cn : bytes) (ignprov : bool) : option native_array :=
  n ← loopOnChildCount live cr fuel fuel ignprov cn 0;
  ar ← new_empty_array (u32 n) CMPI_string;
  if n =? 0 then Some ar
  else l ← loopOnChildChars live cr fuel cn ignprov; set_names ar 0 l.

Definition getassocs (cr : register) : option native_array :=
  ar ← new_empty_array (u32 (topAssocs cr)) CMPI_string;
  l ← select_classes false true (ht_values (ht cr));
  keys ← mapM class_key l;
  set_names ar 0 keys.

(** [ischild]: [CMPI_RC_OK] when [chldn] is found below [parent]. *)
Fixpoint first_ok (live : Z -> bool) (visit : bytes -> option Z) (ul : list name_ptr) (rc : Z) : option Z :=
  match ul with
  | [] => Some rc
  | p :: ul =>
      child ← deref live p;
      rc ← visit child;
      if rc =? CMPI_RC_OK then Some rc else first_ok live visit ul rc
  end.
Fixpoint traverseChildren (live : Z -> bool) (cr : register) (fuel : nat) (chldn parent : bytes) : option Z :=
  match fuel with
  | O => None
  | S fuel =>
      ul ← children_of live cr parent;
      first_ok live (fun child =>
        if strcasecmp child chldn =? 0 then Some CMPI_RC_OK else traverseChildren live cr fuel chldn child)
        ul CMPI_RC_ERR_FAILED
  end.

(** The argument "class", and whether it was there. *)
Inductive answer := AChildren (a : native_array) | AAssocs (a : native_array) | ANothing.

Definition string_arg (d : CMPIData) : option bytes :=
  if simple_type d CMPI_string then match d_value d with VString (Some s) => Some s | _ => None end else None.

Definition ClassProviderInvokeMethod (live : Z -> bool) (fuel : nat) (cr : register) (className methodName : bytes)
    (getArg : bytes -> option CMPIData) : option (Z * answer) :=
  let arg name := default {| d_type := CMPI_null; d_array := false; d_state := 0; d_value := NULL |} (getArg name) in
  if strcasecmp methodName (cstr "getchildren") =? 0 then
    match string_arg (arg (cstr "class")) with
    | Some cn => a ← getchildren live cr cn; Some (CMPI_RC_OK, AChildren a)
    | None => Some (CMPI_RC_OK, ANothing)
    end
  else if strcasecmp methodName (cstr "getallchildren") =? 0 then
    let '(d, ignprov) := match getArg (cstr "class") with
                         | Some d => (d, false)
                         | None => (arg (cstr "classignoreprov"), true)
                         end in
    match string_arg d with
    | Some cn => a ← getallchildren live cr fuel cn ignprov; Some (CMPI_RC_OK, AChildren a)
    | None => Some (CMPI_RC_OK, ANothing)
    end
  else if strcasecmp methodName (cstr "getassocs") =? 0 then a ← getassocs cr; Some (CMPI_RC_OK, AAssocs a)
  else if strcasecmp methodName (cstr "ischild") =? 0 then
    match d_value (arg (cstr "child")) with
    | VString (Some chldn) => rc ← traverseChildren live cr fuel chldn className; Some (rc, ANothing)
    | _ => None
    end
  else if strcasecmp methodName (cstr "_startup") =? 0 then Some (CMPI_RC_OK, ANothing)
  else Some (CMPI_RC_ERR_METHOD_NOT_FOUND, ANothing).
End methods.

(** ** Namespaces *)

(** The table of the registers by namespace; "root/pg_interop" is another name of
    "root/interop".  [nsi]: the namespace of the object path. *)
Section namespaces.
Context {TN : Type} `{!CharHashTable TN register}.
Definition namespace_key (ns : bytes) : bytes :=
  if strcasecmp ns (cstr "root/pg_interop") =? 0 then cstr "root/interop" else ns.
Definition getNsReg (nsHt : option TN) (nsi : option bytes) : Z * option register :=
  match nsHt with
  | None => (1, None)
  | Some t => match nsi with Some ns => (0, ht_get t (namespace_key ns)) | None => (1, None) end
  end.

(** A request to the namespace: without a register it is invalid. *)
Definition in_namespace {A} (nsHt : option TN) (nsi : option bytes) (request : register -> option (Z * A)) : option (Z * option A) :=
  match snd (getNsReg nsHt nsi) with
  | None => Some (CMPI_RC_ERR_INVALID_NAMESPACE, None)
  | Some cr => '(rc, a) ← request cr; Some (rc, Some a)
  end.
End namespaces.
End Register.
