(* ===== verification/ClassHierarchy.v ===== *)
(** * The hierarchy of the classes in a register

    The table of derived classes agrees with the superclasses the classes name
    ([register_ok]); it does so after the file was read and after every class that is
    created or deleted.  In a register without cycles and with all superclasses
    ([forest]) the recursive loops of the class provider end and reach the descendants
    of a class, each once. *)

From stdpp Require Import relations.
From S2P Require Import Prelude CString HashTable CmpiData ClBuffer StringBuffer ClObject ClClass NativeArray ConstClass ClassMerge.
From S2P Require Import Interop ClassRegister.

Definition lower (s : bytes) : bytes := tolower <$> s.
Definition lower_texts (l : list name_ptr) : list bytes := (fun p => lower (text p)) <$> l.

Lemma lower_lower s : lower (lower s) = lower s.
Proof.
  unfold lower. rewrite <- list_fmap_compose. apply list_fmap_ext. intros _ b _. cbn. unfold tolower.
  destruct (65 <=? b) eqn:E1, (b <=? 90) eqn:E2; cbn [andb]; rewrite ?E1, ?E2; try done.
  apply Z.leb_le in E1, E2. by rewrite (proj2 (Z.leb_gt (b + 32) 90)), andb_false_r by lia.
Qed.

Lemma strcasecmp_lower a b : (strcasecmp a b =? 0) = bool_decide (lower a = lower b).
Proof. unfold strcasecmp. apply eq_true_iff_eq. by rewrite Z.eqb_eq, bool_decide_eq_true, strcmp_eq. Qed.

(** The names of a class: its own and that of its superclass. *)
Definition names (c : ClClass) : option (bytes * option bytes) :=
  n ← getCharClassName c; n ← n; p ← getCharSuperClassName c; Some (n, p).

Lemma names_inv c n p : names c = Some (n, p) <-> getCharClassName c = Some (Some n) /\ getCharSuperClassName c = Some p.
Proof.
  unfold names. split.
  - destruct (getCharClassName c) as [[m|]|]; [|done|done]. cbn [mbind option_bind].
    destruct (getCharSuperClassName c) as [q|]; [|done]. by intros [= <- <-].
  - by intros [-> ->].
Qed.

Section Hierarchy.
Context {T TI : Type} `{ct : !CharHashTable T ClClass} `{cw : !HashTableWalk T ClClass} `{co : !HashTableOnce T ClClass}
  `{ctab : !CharHashTable TI (list name_ptr)}.
Context (nocase : ht_ignoreCase (T := T) = true) (nocase_it : ht_ignoreCase (T := TI) = true).
Context (getObjectPath : bytes -> option CMPIValue) (inst_at : ClObjectHdr -> Z -> option CMPIValue).

#[local] Abbreviation reg := (register (T := T) (TI := TI)).

Lemma same_lower a b : same_key true a b = bool_decide (lower a = lower b).
Proof. unfold same_key. by rewrite <- strcasecmp_lower. Qed.

Lemma get_class_lower (t : T) k k' : lower k = lower k' -> ht_get t k = ht_get t k'.
Proof. intros E. apply ht_get_same. by rewrite nocase, same_lower, bool_decide_eq_true_2. Qed.

(** The names in the list of a class. *)
Definition listed (cr : reg) (p : bytes) : list name_ptr := default [] (ht_get (lists (it cr)) p).

Lemma get_children_lower (t : TI) k k' : lower k = lower k' -> ht_get t k = ht_get t k'.
Proof. intros E. apply ht_get_same. by rewrite nocase_it, same_lower, bool_decide_eq_true_2. Qed.

(** ** The invariant *)

(** [x] names a class with the superclass [p], both in lower case. *)
Definition derived (cr : reg) (x p : bytes) : Prop :=
  lower x = x /\ exists c n q, getClass cr x = Some c /\ names c = Some (n, Some q) /\ lower q = p.

Record register_ok (cr : reg) : Prop := {
  ok_names : forall k c, getClass cr k = Some c -> exists n p, names c = Some (n, p) /\ lower n = lower k;
  ok_children : forall p x, x ∈ lower_texts (listed cr p) <-> derived cr x (lower p);
  ok_once : forall p, NoDup (lower_texts (listed cr p))
}.

(** ** The register that is read from a file *)

(** The names of the classes in [l] with the superclass [p]. *)
Definition child_name (p : bytes) (c : ClClass) : option bytes :=
  match names c with Some (n, Some q) => if bool_decide (lower q = lower p) then Some (lower n) else None | _ => None end.

Lemma prepend_children (t : inheritance TI) q n p :
  default [] (ht_get (lists (prepend_child t q n)) p) =
  if bool_decide (lower (text q) = lower p) then n :: default [] (ht_get (lists t) p) else default [] (ht_get (lists t) p).
Proof.
  unfold prepend_child. cbn [lists]. rewrite ht_get_put, nocase_it, same_lower. case_bool_decide as E; [|done].
  cbn. f_equal. by rewrite (get_children_lower (lists t) (text q) p).
Qed.

Lemma buildInheritanceTable_children l : forall (t t' : inheritance TI) p, buildInheritanceTable l t = Some t' ->
  lower_texts (default [] (ht_get (lists t') p)) = reverse (omap (child_name p) l) ++ lower_texts (default [] (ht_get (lists t) p)).
Proof.
  induction l as [|c l IH]; intros t t' p H; [by injection H as <-|]. cbn [buildInheritanceTable] in H. cbn [omap list_omap].
  unfold child_name at 1, names. destruct (getCharSuperClassName c) as [[q|]|]; [| |done]; cbn [mbind option_bind] in H.
  - destruct (getCharClassName c) as [[n|]|]; [|done|done]. cbn [mbind option_bind] in *.
    rewrite (IH _ _ _ H), prepend_children. cbn [text]. case_bool_decide; [|done].
    by rewrite reverse_cons, <- app_assoc.
  - rewrite (IH _ _ _ H). by destruct (getCharClassName c) as [[n|]|].
Qed.

(** Every class of the table has a name, which is its key. *)
Definition keyed (t : T) : Prop := forall k c, ht_get t k = Some c -> exists n, class_key c = Some n /\ lower n = lower k.

Lemma keyed_put (t : T) n c : keyed t -> class_key c = Some n -> keyed (ht_put t n c).
Proof.
  intros Hk Hc k c'. rewrite ht_get_put, nocase, same_lower. case_bool_decide as E; [|by apply Hk].
  intros [= <-]. by exists n.
Qed.

Lemma read_record_keyed r (st st' : loading (T := T) (TI := TI)) : keyed (ht (ld_cr st)) -> read_record r st = Some (inr st') ->
  keyed (ht (ld_cr st')).
Proof.
  intros Hk H. unfold read_record in H. destruct (_ && _ && _) in H; [done|]. destruct (_ && _) in H; [done|].
  destruct (negb (f_complete r)); [done|].
  match type of H with mbind _ ?x = _ => destruct x as [cr|] eqn:E; [|done] end. cbn [mbind option_bind] in H.
  destruct cr as [cr|]; [|done].
  assert (Hcr : ht cr = ht (ld_cr st)) by (repeat case_match; by simplify_eq). clear E.
  destruct (ld_first st); [destruct (negb _); [|done]; injection H as <-; cbn; by rewrite Hcr|].
  destruct (f_body r) as [|cc]; [done|]. destruct (getCharClassName cc) as [[cn|]|] eqn:En; [|done|done]. cbn [mbind option_bind] in H.
  assert (Hput : keyed (ht_put (ht cr) cn cc)) by (rewrite Hcr; apply keyed_put; [done|unfold class_key; by rewrite En]).
  destruct (strncmp _ _ _ =? 0); cbn [mbind option_bind] in H; [injection H as <-; cbn; by rewrite Hcr|].
  destruct (isAssociation cc); cbn [mbind option_bind] in H.
  - destruct (getCharSuperClassName cc) as [p|]; [|done]. by injection H as <-.
  - by injection H as <-.
Qed.

Lemma read_file_keyed l : forall st st' : loading (T := T) (TI := TI), keyed (ht (ld_cr st)) -> read_file l st = Some (inr st') ->
  keyed (ht (ld_cr st')).
Proof.
  induction l as [|r l IH]; intros st st' Hk H; [by injection H as <-|]. cbn [read_file] in H.
  destruct (read_record r st) as [[u|s]|] eqn:E; [done| |done]. cbn [mbind option_bind] in H.
  eapply IH; [|exact H]. by eapply read_record_keyed.
Qed.

Lemma buildInheritanceTable_supers l : forall t t' : inheritance TI, buildInheritanceTable l t = Some t' ->
  Forall (fun c => exists p, getCharSuperClassName c = Some p) l.
Proof.
  induction l as [|c l IH]; intros t t' H; [constructor|]. cbn [buildInheritanceTable] in H.
  destruct (getCharSuperClassName c) as [[q|]|] eqn:E; [| |done]; cbn [mbind option_bind] in H.
  - destruct (getCharClassName c) as [[n|]|]; [|done|done]. cbn [mbind option_bind] in H.
    constructor; [by eexists|by eapply IH].
  - constructor; [by eexists|by eapply IH].
Qed.

Lemma child_name_some p c x : child_name p c = Some x <->
  exists n q, names c = Some (n, Some q) /\ lower q = lower p /\ x = lower n.
Proof.
  unfold child_name. split.
  - destruct (names c) as [[n [q|]]|]; [|done|done]. case_bool_decide; [|done]. intros [= <-]. by exists n, q.
  - intros (n & q & -> & E & ->). by rewrite bool_decide_eq_true_2.
Qed.

Lemma child_names_once (t : T) p ks l : keyed t -> Forall2 (fun k v => ht_get t k = Some v) ks l ->
  NoDup (lower <$> ks) -> NoDup (omap (child_name p) l).
Proof.
  intros Hk HF. assert (Hin : forall ks l, Forall2 (fun k v => ht_get t k = Some v) ks l ->
    forall x, x ∈ omap (child_name p) l -> x ∈ lower <$> ks).
  { clear ks l HF. induction 1 as [|k c ks l Hc HF IH]; [by intros x ?%elem_of_nil|]. intros x. cbn [omap list_omap fmap list_fmap].
    destruct (child_name p c) as [y|] eqn:E; [|intros Hx; apply elem_of_cons; right; by apply IH].
    rewrite !elem_of_cons. intros [->|Hx]; [left|right; by apply IH].
    apply child_name_some in E as (n & q & [Hn _]%names_inv & _ & ->).
    destruct (Hk _ _ Hc) as (n' & Hn' & <-). unfold class_key in Hn'. rewrite Hn in Hn'. by injection Hn' as <-. }
  induction HF as [|k c ks l Hc HF IH]; [by constructor|]. cbn [omap list_omap fmap list_fmap].
  intros [Hnin Hnd]%NoDup_cons. destruct (child_name p c) as [y|] eqn:E; [|by apply IH]. apply NoDup_cons. split; [|by apply IH].
  intros Hy%(Hin _ _ HF). apply child_name_some in E as (n & q & [Hn _]%names_inv & _ & ->).
  destruct (Hk _ _ Hc) as (n' & Hn' & E'). unfold class_key in Hn'. rewrite Hn in Hn'. injection Hn' as ->. by rewrite E' in Hy.
Qed.

Lemma built_ok (cr : reg) (t : inheritance TI) : keyed (ht cr) -> buildInheritanceTable (ht_values (ht cr)) new_inheritance = Some t ->
  register_ok (with_it cr t).
Proof.
  intros Hk Ht. pose proof (buildInheritanceTable_supers _ _ _ Ht) as Hsup.
  assert (Hch : forall p, lower_texts (listed (with_it cr t) p) = reverse (omap (child_name p) (ht_values (ht cr)))).
  { intros p. unfold listed. cbn [with_it it]. rewrite (buildInheritanceTable_children _ _ _ p Ht).
    cbn [new_inheritance lists]. by rewrite ht_get_new, app_nil_r. }
  assert (Hnames : forall k c, getClass (with_it cr t) k = Some c -> exists n p, names c = Some (n, p) /\ lower n = lower k).
  { intros k c Hc. destruct (Hk k c Hc) as (n & Hn & El). unfold class_key in Hn.
    destruct (getCharClassName c) as [[n'|]|] eqn:En; [|done|done]. injection Hn as ->.
    destruct (proj1 (Forall_forall _ _) Hsup c) as [p Hp]; [apply ht_values_get; by exists k|].
    exists n, p. split; [|done]. by apply names_inv. }
  split; [exact Hnames| |].
  - intros p x. rewrite Hch, reverse_Permutation, list_elem_of_omap. split.
    + intros (c & Hc & (n & q & Hn & Hq & ->)%child_name_some). apply ht_values_get in Hc as [k Hk'].
      destruct (Hnames k c Hk') as (n' & p' & Hn' & E). rewrite Hn in Hn'. injection Hn' as -> _.
      split; [apply lower_lower|]. exists c, n', q. split_and!; [|done|done].
      rewrite <- Hk'. apply get_class_lower. by rewrite lower_lower.
    + intros [Hx (c & n & q & Hc & Hn & Hq)]. exists c. split; [apply ht_values_get; by exists x|].
      apply child_name_some. exists n, q. split_and!; [done|done|]. destruct (Hnames x c Hc) as (n' & p' & Hn' & E).
      rewrite Hn in Hn'. injection Hn' as -> _. by rewrite E.
  - intros p. rewrite Hch, reverse_Permutation. destruct (ht_values_once (ht cr)) as (ks & Hnd & HF & _). rewrite nocase in Hnd.
    by apply (child_names_once (ht cr) p ks).
Qed.

(** In the register read from a file the table of derived classes agrees with the
    classes: the children of a class are those that name it as their superclass, each
    once. *)
Theorem newClassRegister_ok file (cr : reg) : newClassRegister file = Some (Some cr) -> register_ok cr.
Proof.
  intros H. unfold newClassRegister in H. destruct file as [l|].
  - match type of H with mbind _ (read_file l ?s0) = _ => destruct (read_file l s0) as [[u|st]|] eqn:E; [done| |done] end.
    cbn [mbind option_bind] in H. destruct (buildInheritanceTable _ _) as [t|] eqn:Et; [|done]. injection H as <-.
    apply built_ok; [|done]. eapply read_file_keyed; [|exact E]. intros k c. cbn. by rewrite ht_get_new.
  - injection H as <-.
    assert (Hc : forall p, lower_texts (listed
      {| ht := ht_new; it := new_inheritance; vr := None; assocs := 0; topAssocs := 0; fn := None |} p) = []).
    { intros p. unfold listed. cbn [it new_inheritance lists]. by rewrite ht_get_new. }
    split; unfold getClass; cbn [ht].
    + intros k c. by rewrite ht_get_new.
    + intros p x. rewrite Hc. split; [by intros ?%elem_of_nil|]. intros [_ (c & n & q & Hg & _)]. unfold getClass in Hg. cbn [ht] in Hg.
      by rewrite ht_get_new in Hg.
    + intros p. rewrite Hc. constructor.
Qed.

(** ** Creating and deleting classes *)

Record forest (cr : reg) : Prop := {
  fo_ok : register_ok cr;
  fo_closed : forall x p, derived cr x p -> is_Some (getClass cr p);
  fo_acyclic : exists height : bytes -> nat, forall x p, derived cr x p -> (height x < height p)%nat
}.

Lemma getClass_lower (cr : reg) k k' : lower k = lower k' -> getClass cr k = getClass cr k'.
Proof. apply get_class_lower. Qed.

Lemma children_lower (cr : reg) k k' : lower k = lower k' -> listed cr k = listed cr k'.
Proof. intros E. unfold listed. by rewrite (get_children_lower _ k k'). Qed.

Lemma derived_class (cr : reg) x p : derived cr x p -> is_Some (getClass cr x).
Proof. intros [_ (c & _ & _ & -> & _)]. by eexists. Qed.

Lemma derived_super (cr : reg) x p : derived cr x p -> lower p = p.
Proof. intros [_ (_ & _ & q & _ & _ & <-)]. apply lower_lower. Qed.

Lemma addClass_effect live (cr cr' : reg) req ccp cn p rc :
  addClass getObjectPath inst_at live cr req ccp cn p = Some (rc, cr') ->
  rc = CMPI_RC_ERR_INVALID_SUPERCLASS /\ cr' = cr \/
  rc = CMPI_RC_OK /\ exists mc size cc, merged getObjectPath inst_at cr ccp cn p = Some (Some mc) /\ rebuildClassH mc = Some (size, cc) /\
    ht cr' = ht_put (ht cr) cn cc /\
    it cr' = match p with Some p => prepend_child (it cr) (RequestName req p) (RequestName req cn) | None => it cr end.
Proof.
  unfold addClass. intros H. destruct (merged _ _ _ _ _ _) as [[mc|]|]; [|by injection H as <- <-; left|done]. right.
  cbn [mbind option_bind] in H. destruct (rebuildClassH mc) as [[size cc]|] eqn:Er; [|done]. cbn [mbind option_bind with_ht fn] in H.
  destruct (fn cr) as [f|]; [|done]. cbn [mbind option_bind] in H.
  destruct p as [p|]; [destruct (getChildren live _ p); [|done]|]; injection H as <- <-; (split; [done|]); exists mc, size, cc;
    by destruct (isAssociation cc).
Qed.

(** A class that was not there, stored under its name. *)
Lemma added_forest (cr cr' : reg) req cn p cc : forest cr -> getClass cr cn = None ->
  (forall q, p = Some q -> is_Some (getClass cr q)) -> names cc = Some (cn, p) -> ht cr' = ht_put (ht cr) cn cc ->
  it cr' = match p with Some p => prepend_child (it cr) (RequestName req p) (RequestName req cn) | None => it cr end -> forest cr'.
Proof.
  intros [[Hn Hc Ho] Hcl [h Hh]] Hnew Hp Hcc Hht Hit.
  assert (Hget : forall k, getClass cr' k = if bool_decide (lower cn = lower k) then Some cc else getClass cr k).
  { intros k. unfold getClass. by rewrite Hht, ht_get_put, nocase, same_lower. }
  assert (Hold : forall x q, derived cr x q -> x <> lower cn).
  { intros x q [c Hx]%derived_class ->. by rewrite (getClass_lower cr _ cn (lower_lower cn)), Hnew in Hx. }
  assert (Hder : forall x q, derived cr' x q <-> derived cr x q \/ x = lower cn /\ exists q', p = Some q' /\ lower q' = q).
  { intros x q. split.
    - intros [Hx (c & n & q' & Hg & Hnm & Hq)]. rewrite Hget in Hg. case_bool_decide as E.
      + injection Hg as <-. rewrite Hcc in Hnm. injection Hnm as <- ->. right. rewrite E, Hx. split; [done|]. by exists q'.
      + left. split; [done|]. by exists c, n, q'.
    - intros [Hd|[-> (q' & -> & <-)]].
      + destruct Hd as [Hx (c & n & q' & Hg & Hr)] eqn:E. split; [done|]. exists c, n, q'. split; [|done]. rewrite Hget.
        rewrite bool_decide_eq_false_2; [done|]. intros E'. rewrite Hx in E'. by apply (Hold x q Hd).
      + split; [apply lower_lower|]. exists cc, cn, q'. split; [|done]. rewrite Hget, bool_decide_eq_true_2; [done|].
        by rewrite lower_lower. }
  assert (Hch : forall q, lower_texts (listed cr' q) =
    match p with Some q' => if bool_decide (lower q' = lower q) then lower cn :: lower_texts (listed cr q)
                            else lower_texts (listed cr q) | None => lower_texts (listed cr q) end).
  { intros q. unfold listed. rewrite Hit. destruct p as [q'|]; [|done]. rewrite prepend_children. cbn [text].
    by case_bool_decide. }
  split; [split| |].
  - intros k c. rewrite Hget. case_bool_decide as E; [|apply Hn]. intros [= <-]. by exists cn, p.
  - intros q x. rewrite Hch, Hder, <- Hc. destruct p as [q'|].
    + case_bool_decide as E; rewrite ?elem_of_cons; split.
      * intros [->|?]; [right; split; [done|by exists q']|by left].
      * intros [?|[-> _]]; [by right|by left].
      * by left.
      * intros [?|[_ (? & [= <-] & ?)]]; [done|by destruct E].
    + split; [by left|]. by intros [?|[_ (? & ? & _)]].
  - intros q. rewrite Hch. destruct p as [q'|]; [|apply Ho]. case_bool_decide as E; [|apply Ho]. apply NoDup_cons. split; [|apply Ho].
    intros Hx%Hc. by apply (Hold _ _ Hx).
  - intros x q Hd%Hder. rewrite Hget. case_bool_decide; [by eexists|]. destruct Hd as [Hd|[-> (q' & E & <-)]]; [by apply (Hcl x)|].
    destruct (Hp q' E) as [c Hq]. exists c. rewrite <- Hq. apply getClass_lower, lower_lower.
  - exists (fun y => if bool_decide (y = lower cn) then O else S (h y)).
    assert (Hq : forall q, is_Some (getClass cr q) -> lower q <> lower cn).
    { intros q [c Hq] E. by rewrite (getClass_lower cr q cn E), Hnew in Hq. }
    intros x q [Hd|[-> (q' & E & <-)]]%Hder.
    + rewrite !bool_decide_eq_false_2; [by apply -> Nat.succ_lt_mono; apply Hh| |by apply (Hold x q)].
      rewrite <- (derived_super cr x q Hd). by apply Hq, (Hcl x).
    + rewrite bool_decide_eq_true_2 by done. rewrite bool_decide_eq_false_2 by (by apply Hq, Hp). lia.
Qed.

Lemma remove_first_once live chd ul : forall ul', remove_first live chd ul = Some ul' -> NoDup (lower_texts ul) ->
  NoDup (lower_texts ul') /\ forall x, x ∈ lower_texts ul' <-> x ∈ lower_texts ul /\ x <> lower chd.
Proof.
  induction ul as [|p ul IH]; intros ul' H Hnd; [injection H as <-; split; [constructor|]; intros x; split; [by intros ?%elem_of_nil|by intros [? _]]|].
  cbn [remove_first] in H. destruct (deref live p) as [c|] eqn:Ed; [|done]. cbn [mbind option_bind] in H.
  assert (Ht : text p = c) by (destruct p as [s|r s]; cbn in *; [by injection Ed|by destruct (live r); [injection Ed|]]).
  rewrite strcasecmp_lower in H. unfold lower_texts in *. cbn [fmap list_fmap] in *. rewrite Ht in *.
  apply NoDup_cons in Hnd as [Hni Hnd]. case_bool_decide as E.
  - injection H as <-. split; [done|]. intros x. rewrite elem_of_cons, <- E. split; [|by intros [[?|?] ?]].
    intros Hx. split; [by right|]. by intros ->.
  - destruct (remove_first live chd ul) as [l|]; [|done]. injection H as <-. destruct (IH l eq_refl Hnd) as [Hnd' Hin].
    cbn [fmap list_fmap]. rewrite Ht. split; [apply NoDup_cons; split; [by rewrite Hin; intros [? _]|done]|].
    intros x. rewrite !elem_of_cons, Hin. split; [intros [->|[? ?]]; auto|]. intros [[->|?] ?]; auto.
Qed.

Lemma removeClass_effect (cr cr' : reg) cn : removeClass cr cn = Some cr' -> ht cr' = ht_remove (ht cr) cn /\ it cr' = it cr.
Proof.
  unfold removeClass. cbn [with_ht fn]. destruct (fn cr) as [f|]; [|done]. cbn [mbind option_bind].
  destruct (without_class cn f); [|done]. by intros [= <-].
Qed.

(** The children of the superclass [p] of the class that goes. *)
Lemma removed_children live (cr cr1 : reg) p cn : register_ok cr ->
  match p with Some q => removeChild live cr q cn | None => Some cr end = Some cr1 ->
  ht cr1 = ht cr /\ forall q,
    NoDup (lower_texts (listed cr1 q)) /\
    forall x, x ∈ lower_texts (listed cr1 q) <->
      derived cr x (lower q) /\ (p = None \/ (exists q', p = Some q' /\ lower q' <> lower q) \/ x <> lower cn).
Proof.
  intros [Hn Hc Ho] H. destruct p as [q'|]; cycle 1.
  { injection H as <-. split; [done|]. intros q. split; [apply Ho|]. intros x. rewrite Hc. split; [intros ?; split; [done|by left]|by intros [? _]]. }
  unfold removeChild, getChildren in H. destruct (forallb _ _); [|done]. cbn [mbind option_bind] in H.
  destruct (ht_get (lists (it cr)) q') as [ul|] eqn:El; cycle 1.
  { injection H as <-. split; [done|]. intros q. split; [apply Ho|]. intros x. rewrite Hc. split; [|by intros [? _]].
    intros Hd. split; [done|]. right. left. exists q'. split; [done|]. intros E.
    apply Hc in Hd. rewrite (children_lower cr q q') in Hd by done. unfold listed in Hd. rewrite El in Hd. by apply elem_of_nil in Hd. }
  destruct (remove_first live cn ul) as [ul'|] eqn:Er; [|done]. injection H as <-. split; [done|].
  assert (Hul : listed cr q' = ul) by (unfold listed; by rewrite El).
  destruct (remove_first_once _ _ _ _ Er) as [Hnd Hin]; [rewrite <- Hul; apply Ho|].
  assert (Hch : forall q, listed (with_it cr {| lists := ht_put (lists (it cr)) q' ul'; list_keys := list_keys (it cr) |}) q =
    if bool_decide (lower q' = lower q) then ul' else listed cr q).
  { intros q. unfold listed. cbn [with_it it lists]. rewrite ht_get_put, nocase_it, same_lower. by case_bool_decide. }
  intros q. rewrite Hch. case_bool_decide as E.
  - split; [done|]. intros x. rewrite Hin, <- Hul, Hc, E. split; [intros [? ?]; split; [done|by right; right]|].
    intros [? [?|[(? & [= <-] & ?)|?]]]; by split.
  - split; [apply Ho|]. intros x. rewrite Hc. split; [|by intros [? _]]. intros ?. split; [done|]. right. left. by exists q'.
Qed.

Lemma removed_forest live (cr cr1 cr' : reg) cn c n p : forest cr -> getClass cr cn = Some c -> names c = Some (n, p) ->
  lower_texts (listed cr cn) = [] ->
  match p with Some q => removeChild live cr q cn | None => Some cr end = Some cr1 ->
  removeClass cr1 cn = Some cr' -> forest cr'.
Proof.
  intros [Hok Hcl [h Hh]] Hg Hnm Hnone H1 [Hht Hit]%removeClass_effect. pose proof Hok as [Hn Hc Ho].
  destruct (removed_children live cr cr1 p cn Hok H1) as [Hht1 Hch1]. rewrite Hht1 in Hht.
  assert (Hget : forall k, getClass cr' k = if bool_decide (lower cn = lower k) then None else getClass cr k).
  { intros k. unfold getClass. by rewrite Hht, ht_get_remove, nocase, same_lower. }
  assert (Hder : forall x q, derived cr' x q <-> derived cr x q /\ x <> lower cn).
  { intros x q. unfold derived. split.
    - intros [Hx (c' & n' & q' & Hg' & Hr)]. rewrite Hget, Hx in Hg'. case_bool_decide as E; [done|]. split; [|congruence].
      split; [done|]. by exists c', n', q'.
    - intros [[Hx (c' & n' & q' & Hg' & Hr)] Hne]. split; [done|]. exists c', n', q'. split; [|done].
      rewrite Hget, bool_decide_eq_false_2; [done|]. rewrite Hx. congruence. }
  assert (Hself : forall q, derived cr (lower cn) q -> exists q', p = Some q' /\ lower q' = q).
  { intros q [_ (c' & n' & q' & Hg' & Hnm' & Hq)]. rewrite (getClass_lower cr _ cn (lower_lower cn)), Hg in Hg'. injection Hg' as <-.
    rewrite Hnm in Hnm'. injection Hnm' as _ ->. by exists q'. }
  assert (Hchn : forall q, listed cr' q = listed cr1 q) by (intros q; unfold listed; by rewrite Hit).
  split; [split| |].
  - intros k c'. rewrite Hget. case_bool_decide; [done|]. apply Hn.
  - intros q x. rewrite Hchn, Hder. destruct (Hch1 q) as [_ ->]. split; intros [Hd Hx]; (split; [done|]).
    + intros ->. destruct (Hself _ Hd) as (q' & -> & E). destruct Hx as [?|[(? & [= <-] & ?)|?]]; by auto.
    + by right; right.
  - intros q. rewrite Hchn. apply Hch1.
  - intros x q [Hd Hx]%Hder. rewrite Hget. destruct (Hcl x q Hd) as [cq Hq]. case_bool_decide as E; [|by eexists].
    rewrite (derived_super cr x q Hd) in E. rewrite <- E in Hd. apply Hc in Hd. rewrite Hnone in Hd. by apply elem_of_nil in Hd.
  - exists h. intros x q [Hd _]%Hder. by apply Hh.
Qed.

(** A class that is created is stored under the names it came with. *)
Definition stored_as (cr' : reg) (cc : ClClass) : Prop :=
  forall n p c, names cc = Some (n, p) -> getClass cr' n = Some c -> names c = Some (n, p).

Lemma created_forest live (cr cr' : reg) req cc rc : forest cr ->
  ClassProviderCreateClass getObjectPath inst_at live cr req cc = Some (rc, cr') ->
  (rc = CMPI_RC_OK -> stored_as cr' cc) -> forest cr'.
Proof.
  intros Hf H Hst. unfold ClassProviderCreateClass in H.
  destruct (getCharSuperClassName cc) as [p|] eqn:Ep; [|done]. cbn [mbind option_bind] in H.
  destruct (getCharClassName cc) as [[cn|]|] eqn:En; [|done|done]. cbn [mbind option_bind] in H.
  assert (Hnm : names cc = Some (cn, p)) by by apply names_inv.
  destruct (getClass cr cn) as [c|] eqn:Eg; [by injection H as _ <-|].
  assert (Hadd : addClass getObjectPath inst_at live cr req cc cn p = Some (rc, cr') -> (forall q, p = Some q -> is_Some (getClass cr q)) -> forest cr').
  { intros [[_ ->]|[-> (mc & size & c & _ & _ & Hht & Hit)]]%addClass_effect Hp; [done|].
    assert (Hg : getClass cr' cn = Some c) by (unfold getClass; by rewrite Hht, ht_get_put, nocase, same_lower, bool_decide_eq_true_2).
    eapply (added_forest cr cr' req cn p c); try done. by apply (Hst eq_refl cn p c). }
  destruct p as [q|]; [|by apply Hadd]. destruct (getClass cr q) as [c|] eqn:Eq; [|by injection H as _ <-].
  apply Hadd; [done|]. intros q' [= <-]. by rewrite Eq.
Qed.

Lemma deleted_forest live (cr cr' : reg) cn rc : forest cr -> ClassProviderDeleteClass live cr cn = Some (rc, cr') -> forest cr'.
Proof.
  intros Hf H. unfold ClassProviderDeleteClass in H. destruct (getClass cr cn) as [c|] eqn:Eg; [|by injection H as _ <-].
  destruct (ok_names cr (fo_ok cr Hf) cn c Eg) as (n & p & Hnm & _).
  assert (Hdel : (pn ← getCharSuperClassName c;
    cr ← (match pn with Some pn => removeChild live cr pn cn | None => Some cr end); cr ← removeClass cr cn; Some (CMPI_RC_OK, cr)) = Some (rc, cr') ->
    lower_texts (listed cr cn) = [] -> forest cr').
  { intros Hd Hnone. destruct (proj1 (names_inv _ _ _) Hnm) as [_ Hp]. rewrite Hp in Hd. cbn [mbind option_bind] in Hd.
    match type of Hd with mbind _ ?x = _ => destruct x as [cr1|] eqn:E1; [|done] end. cbn [mbind option_bind] in Hd.
    destruct (removeClass cr1 cn) as [cr2|] eqn:E2; [|done]. injection Hd as _ <-. by eapply removed_forest. }
  unfold getChildren in H. destruct (forallb _ _); [|done]. cbn [mbind option_bind] in H.
  destruct (ht_get (lists (it cr)) cn) as [[|ch ul]|] eqn:Ec.
  - apply Hdel; [done|]. unfold listed. by rewrite Ec.
  - by injection H as _ <-.
  - apply Hdel; [done|]. unfold listed. by rewrite Ec.
Qed.

(** A class without a superclass is stored under its name. *)
Lemma root_stored_as live (cr cr' : reg) req cc strs arrs n :
  section_wf any (c_qualifiers cc) -> section_wf property_wf (c_properties cc) -> section_wf method_wf (c_methods cc) ->
  hdr_holds (c_hdr cc) strs arrs -> sizeClassH cc < 2 ^ 31 -> str_at strs (c_name cc) = Some n -> c_parent cc = 0 ->
  ClassProviderCreateClass getObjectPath inst_at live cr req cc = Some (CMPI_RC_OK, cr') -> stored_as cr' cc.
Proof.
  intros Hq Hp Hm Hh Hs Hn Hpa H m p c Hnm Hc.
  destruct (rebuildClassH_refines cc strs arrs Hq Hp Hm Hh Hs) as (nc & E & _ & _ & _ & En & Epa & _ & _ & [Hr _]).
  unfold str_at in Hn. destruct (Z.leb_spec 1 (c_name cc)) as [Hid|]; [|done].
  assert (Hid' : c_name cc = Z.of_nat (Z.to_nat (c_name cc - 1)) + 1) by lia.
  assert (Hname : getCharClassName nc = Some (Some n)) by (unfold getCharClassName; rewrite En, Hid'; by apply Hr).
  assert (Hsup : getCharSuperClassName nc = Some None) by (unfold getCharSuperClassName; by rewrite Epa, Hpa).
  assert (Hsup0 : getCharSuperClassName cc = Some None) by (unfold getCharSuperClassName; by rewrite Hpa).
  apply names_inv in Hnm as [Hm1 Hm2]. rewrite Hsup0 in Hm2. injection Hm2 as <-.
  assert (Hn0 : getCharClassName cc = Some (Some n)).
  { destruct Hh as [[ms Hms] Hf _ _]. unfold getCharClassName. rewrite Hid'. by eapply get_strings. }
  rewrite Hn0 in Hm1. injection Hm1 as <-. unfold ClassProviderCreateClass in H. rewrite Hsup0, Hn0 in H. cbn [mbind option_bind] in H.
  destruct (getClass cr n); [done|]. apply addClass_effect in H as [[? _]|(_ & mc & size & c' & Emc & Er & Hht & _)]; [done|].
  injection Emc as <-. rewrite E in Er. injection Er as _ <-.
  unfold getClass in Hc. rewrite Hht, ht_get_put, nocase, same_lower, bool_decide_eq_true_2 in Hc by done. injection Hc as <-.
  by apply names_inv.
Qed.

(** The requests that change a register, with the requests that created classes; those
    are in progress while they do. *)
Inductive run : list Z -> reg -> reg -> Prop :=
| NoRequest cr : run [] cr cr
| CreateClass live cr req cc rc cr1 reqs cr' :
    ClassProviderCreateClass getObjectPath inst_at live cr req cc = Some (rc, cr1) -> live req = true ->
    (rc = CMPI_RC_OK -> stored_as cr1 cc) -> run reqs cr1 cr' -> run (req :: reqs) cr cr'
| DeleteClass live cr cn rc cr1 reqs cr' :
    ClassProviderDeleteClass live cr cn = Some (rc, cr1) -> run reqs cr1 cr' -> run reqs cr cr'.

(** The pointers the table has: the keys, and the names in the lists. *)
Definition held (cr : reg) (p : name_ptr) : Prop := p ∈ list_keys (it cr) \/ exists q, p ∈ listed cr q.
Definition readable (live : Z -> bool) (cr : reg) : Prop := forall p, held cr p -> is_live live p = true.

Lemma prepend_held (cr cr' : reg) q n p : it cr' = prepend_child (it cr) q n -> held cr' p -> held cr p \/ p = q \/ p = n.
Proof.
  intros Hit [Hk|[k Hk]].
  - rewrite Hit in Hk. unfold prepend_child in Hk. cbn [list_keys] in Hk. destruct (ht_get _ _); [by left; left|].
    apply elem_of_cons in Hk as [->|Hk]; [by right; left|by left; left].
  - unfold listed in Hk. rewrite Hit, prepend_children in Hk. case_bool_decide; [|by left; right; exists k].
    apply elem_of_cons in Hk as [->|Hk]; [by right; right|by left; right; exists k].
Qed.

Lemma created_held live (cr cr' : reg) req cc rc p : ClassProviderCreateClass getObjectPath inst_at live cr req cc = Some (rc, cr') ->
  held cr' p -> held cr p \/ exists s, p = RequestName req s.
Proof.
  unfold ClassProviderCreateClass. destruct (getCharSuperClassName cc) as [pn|]; [|done]. cbn [mbind option_bind].
  destruct (getCharClassName cc) as [[cn|]|]; [|done|done]. cbn [mbind option_bind].
  assert (Hadd : addClass getObjectPath inst_at live cr req cc cn pn = Some (rc, cr') -> held cr' p -> held cr p \/ exists s, p = RequestName req s).
  { intros [[_ ->]|(_ & mc & size & c & _ & _ & _ & Hit)]%addClass_effect H; [by left|]. destruct pn as [q|].
    - destruct (prepend_held _ _ _ _ _ Hit H) as [?|[->| ->]]; [by left|right; by eexists..].
    - left. unfold held, listed in *. by rewrite Hit in H. }
  destruct (getClass cr cn); [intros [= _ <-]; by left|]. destruct pn as [q|]; [|by apply Hadd].
  destruct (getClass cr q); [by apply Hadd|]. intros [= _ <-]. by left.
Qed.

Lemma remove_first_subset live chd ul : forall ul', remove_first live chd ul = Some ul' -> ul' ⊆ ul.
Proof.
  induction ul as [|p ul IH]; intros ul' H; cbn [remove_first] in H; [by injection H as <-|].
  destruct (deref live p); [|done]. cbn [mbind option_bind] in H. destruct (_ =? 0).
  - injection H as <-. intros x Hx. by right.
  - destruct (remove_first live chd ul) as [l'|]; [|done]. injection H as <-. intros x [->|Hx]%elem_of_cons; [by left|right; by apply (IH l')].
Qed.

Lemma deleted_held live (cr cr' : reg) cn rc p : ClassProviderDeleteClass live cr cn = Some (rc, cr') -> held cr' p -> held cr p.
Proof.
  unfold ClassProviderDeleteClass. destruct (getClass cr cn) as [c|]; [|by intros [= _ <-]].
  destruct (getChildren live cr cn) as [ul|]; [|done]. cbn [mbind option_bind].
  assert (Hdel : (pn ← getCharSuperClassName c;
    cr ← (match pn with Some pn => removeChild live cr pn cn | None => Some cr end); cr ← removeClass cr cn; Some (CMPI_RC_OK, cr)) = Some (rc, cr') ->
    held cr' p -> held cr p).
  { destruct (getCharSuperClassName c) as [pn|]; [|done]. cbn [mbind option_bind].
    match goal with |- mbind _ ?x = _ -> _ => destruct x as [cr1|] eqn:E1; [|done] end. cbn [mbind option_bind].
    destruct (removeClass cr1 cn) as [cr2|] eqn:E2; [|done]. intros [= _ <-]. apply removeClass_effect in E2 as [_ Hit].
    unfold held, listed. rewrite Hit. destruct pn as [pn|]; [|by injection E1 as <-].
    unfold removeChild, getChildren in E1. destruct (forallb _ _); [|done]. cbn [mbind option_bind] in E1.
    destruct (ht_get (lists (it cr)) pn) as [l|] eqn:El; [|by injection E1 as <-].
    destruct (remove_first live cn l) as [l'|] eqn:Er; [|done]. injection E1 as <-. cbn [with_it it list_keys lists].
    intros [H|[q H]]; [by left|]. right. rewrite ht_get_put, nocase_it, same_lower in H. case_bool_decide as E; [|by exists q].
    exists pn. rewrite El. by apply (remove_first_subset _ _ _ _ Er). }
  destruct ul as [[|ch ul]|]; [exact Hdel|by intros [= _ <-]|exact Hdel].
Qed.

(** C26: whatever classes are created and deleted, the table of derived classes agrees with
    the classes, every superclass is there and no class is below itself; provided a class
    that is created is stored under the names it came with ([stored_as]), as a class
    without superclass is ([root_stored_as]).  The names and keys in the table can be
    read as long as the requests that created classes are in progress, and those that
    could before; when such a request is over they cannot, and the requests that need
    them are undefined ([None]), so that the run ends there. *)
Theorem register_stays_forest reqs (cr cr' : reg) : forest cr -> run reqs cr cr' ->
  forest cr' /\ forall live, readable live cr -> (forall r, r ∈ reqs -> live r = true) -> readable live cr'.
Proof.
  intros Hf H. induction H as [cr|lv cr req cc rc cr1 reqs cr' Hc Hl Hs _ IH|lv cr cn rc cr1 reqs cr' Hd _ IH]; [done| |].
  - destruct IH as [Hf' Hr]; [by eapply created_forest|]. split; [done|]. intros live Hr0 Hall.
    apply Hr; [|intros r Hin; apply Hall; by right]. intros p [Hp|[s ->]]%(created_held _ _ _ _ _ _ _ Hc); [by apply Hr0|].
    unfold is_live. cbn [deref]. by rewrite (Hall req) by (by left).
  - destruct IH as [Hf' Hr]; [by eapply deleted_forest|]. split; [done|]. intros live Hr0. apply Hr.
    intros p Hp%(deleted_held _ _ _ _ _ _ Hd). by apply Hr0.
Qed.

(** What a register read from a file has in its table are names of its own. *)
Lemma built_held l : forall t t' : inheritance TI, buildInheritanceTable l t = Some t' ->
  (forall p, p ∈ list_keys t \/ (exists q, p ∈ default [] (ht_get (lists t) q)) -> exists s, p = OwnName s) ->
  forall p, p ∈ list_keys t' \/ (exists q, p ∈ default [] (ht_get (lists t') q)) -> exists s, p = OwnName s.
Proof.
  induction l as [|c l IH]; intros t t' H Ht; [by injection H as <-|]. cbn [buildInheritanceTable] in H.
  destruct (getCharSuperClassName c) as [[q|]|]; [|by eapply IH|done]. cbn [mbind option_bind] in H.
  destruct (getCharClassName c) as [[n|]|]; [|done|done]. cbn [mbind option_bind] in H. apply (IH _ _ H). clear IH H.
  intros p [Hp|[k Hp]].
  - unfold prepend_child in Hp. cbn [list_keys] in Hp. destruct (ht_get _ _); [by apply Ht; left|].
    apply elem_of_cons in Hp as [->|Hp]; [by eexists|by apply Ht; left].
  - rewrite prepend_children in Hp. case_bool_decide; [|by apply Ht; right; exists k].
    apply elem_of_cons in Hp as [->|Hp]; [by eexists|by apply Ht; right; exists k].
Qed.

Lemma loaded_readable file (cr : reg) live : newClassRegister file = Some (Some cr) -> readable live cr.
Proof.
  intros H p Hp. enough (exists s, p = OwnName s) as [s ->] by done. revert p Hp. unfold newClassRegister in H. destruct file as [l|].
  - match type of H with mbind _ (read_file l ?s0) = _ => destruct (read_file l s0) as [[u|st]|]; [done| |done] end.
    cbn [mbind option_bind] in H. destruct (buildInheritanceTable _ _) as [t|] eqn:Et; [|done]. injection H as <-.
    apply (built_held _ _ _ Et). cbn [new_inheritance list_keys lists].
    intros p [Hp%elem_of_nil|[q Hp]]; [done|]. rewrite ht_get_new in Hp. by apply elem_of_nil in Hp.
  - injection H as <-. intros p [Hp%elem_of_nil|[q Hp]]; [done|]. unfold listed in Hp. cbn in Hp. rewrite ht_get_new in Hp.
    by apply elem_of_nil in Hp.
Qed.

(** ** The loops over derived classes *)

(** The names the recursive loops come by, in their order. *)
Definition names_below (live : Z -> bool) (cr : reg) : nat -> bytes -> option (list bytes) :=
  loop_on_children live cr (fun child => Some [child]).

Section forest.
Context (live : Z -> bool) (cr : reg) (Hforest : forest cr).
Context (Hlive : readable live cr).

Lemma listed_children p : children_of live cr p = Some (listed cr p).
Proof.
  unfold children_of, getChildren. rewrite (proj2 (forallb_forall _ _)); [done|]. intros n Hn. apply Hlive. left. by apply list_elem_of_In.
Qed.

Lemma listed_live p : Forall (fun n => is_Some (deref live n)) (listed cr p).
Proof.
  apply Forall_forall. intros n Hn. assert (Hl : is_live live n = true) by (apply Hlive; right; by exists p).
  unfold is_live in Hl. by destruct (deref live n).
Qed.

Lemma derived_fun x p q : derived cr x p -> derived cr x q -> p = q.
Proof.
  intros [_ (c & n & p' & Hc & Hn & <-)] [_ (c' & n' & q' & Hc' & Hn' & <-)]. rewrite Hc in Hc'. injection Hc' as <-.
  rewrite Hn in Hn'. by injection Hn' as _ ->.
Qed.

(** The superclasses of a class are in a line. *)
Lemma above_line x a b : rtc (derived cr) x a -> rtc (derived cr) x b -> rtc (derived cr) a b \/ rtc (derived cr) b a.
Proof.
  intros H. induction H as [y|x y a Hxy Hya IH]; [by left|]. intros [<-|(z & Hxz & Hzb)]%rtc_inv; [right; by eapply rtc_l|].
  rewrite (derived_fun x y z Hxy Hxz) in IH. by apply IH.
Qed.

Lemma below_irrefl x : ~ tc (derived cr) x x.
Proof.
  destruct (fo_acyclic cr Hforest) as [h Hh]. assert (Hlt : forall x y, tc (derived cr) x y -> (h x < h y)%nat).
  { intros a b H. induction H as [a b Hab|a b c Hab _ IH]; [by apply Hh|]. apply Hh in Hab. lia. }
  intros Hx%Hlt. lia.
Qed.

(** Two classes derived from the same class have no class below both. *)
Lemma siblings_disjoint p a b x : derived cr a p -> derived cr b p -> a <> b ->
  rtc (derived cr) x a -> rtc (derived cr) x b -> False.
Proof.
  intros Ha Hb Hne Hxa Hxb. assert (Hcyc : forall a b, derived cr a p -> derived cr b p -> a <> b -> rtc (derived cr) a b -> False).
  { intros a' b' Ha' Hb' Hne' [<-|(z & Haz & Hzb)]%rtc_inv; [done|]. rewrite <- (derived_fun _ _ _ Ha' Haz) in Hzb.
    apply (below_irrefl p). by eapply tc_rtc_l; [exact Hzb|apply tc_once]. }
  destruct (above_line x a b Hxa Hxb) as [H|H]; [by apply (Hcyc a b)|by apply (Hcyc b a)].
Qed.

Lemma tc_last x y : tc (derived cr) x y <-> exists c, rtc (derived cr) x c /\ derived cr c y.
Proof.
  split.
  - intros H. induction H as [x y H|x y z H _ (c & Hc & Hd)]; [by exists x|]. exists c. split; [by eapply rtc_l|done].
  - intros (c & Hc & Hd). eapply tc_rtc_l; [exact Hc|by apply tc_once].
Qed.

Lemma below_lower x p : tc (derived cr) x p -> lower x = x.
Proof. intros H. by destruct H as [? ? [? _]|? ? ? [? _] _]. Qed.

(** What the loop over [cn] has to give. *)
Definition gives_below (n : nat) (cn : bytes) (l : list bytes) : Prop :=
  (forall fuel, (n <= fuel)%nat -> names_below live cr fuel cn = Some l) /\ NoDup (lower <$> l) /\
  forall x, x ∈ lower <$> l <-> tc (derived cr) x (lower cn).

Lemma for_children_below n cn ul :
  (forall c, c ∈ text <$> ul -> exists l, gives_below n c l) -> Forall (fun p => is_Some (deref live p)) ul ->
  NoDup (lower_texts ul) -> (forall c, c ∈ lower_texts ul -> derived cr c (lower cn)) ->
  exists l,
    (forall fuel, (n <= fuel)%nat -> for_children live (fun child =>
        a ← Some [child]; l ← names_below live cr fuel child; Some (a ++ l)) ul = Some l) /\
    NoDup (lower <$> l) /\ forall x, x ∈ lower <$> l <-> exists c, c ∈ lower_texts ul /\ rtc (derived cr) x c.
Proof.
  induction ul as [|p ul IH]; intros Hsub Hl Hnd Hd.
  - exists []. split; [done|]. split; [constructor|]. intros x. split; [by intros ?%elem_of_nil|by intros (c & ?%elem_of_nil & _)].
  - apply Forall_cons in Hl as [[s Es] Hl]. unfold lower_texts in *. cbn [fmap list_fmap] in *. apply NoDup_cons in Hnd as [Hni Hnd].
    assert (Hs : text p = s) by (destruct p as [t|r t]; cbn in *; [by injection Es|by destruct (live r); [injection Es|]]).
    rewrite Hs in *. destruct (Hsub s) as (l1 & Hrun & Hn1 & Hin1); [by apply elem_of_cons; left|].
    destruct IH as (l2 & Hrun2 & Hn2 & Hin2); try done.
    { intros c Hc. apply Hsub. by apply elem_of_cons; right. }
    { intros c Hc. apply Hd. by apply elem_of_cons; right. }
    assert (Hds : derived cr (lower s) (lower cn)) by (apply Hd, elem_of_cons; by left).
    assert (Hb1 : forall x, x = lower s \/ x ∈ lower <$> l1 <-> rtc (derived cr) x (lower s)).
    { intros x. rewrite Hin1, rtc_tc. done. }
    exists ((s :: l1) ++ l2). split_and!.
    + intros fuel Hf. cbn [for_children]. rewrite Es. cbn [mbind option_bind]. rewrite (Hrun fuel Hf). cbn [mbind option_bind].
      specialize (Hrun2 fuel Hf). cbn [mbind option_bind] in Hrun2. by rewrite Hrun2.
    + rewrite fmap_app. cbn [fmap list_fmap]. apply NoDup_app. split_and!; [apply NoDup_cons; split; [|done]|  |done].
      * rewrite Hin1. apply below_irrefl.
      * intros x Hx (c & Hc & Hxc)%Hin2. apply elem_of_cons, Hb1 in Hx.
        apply (siblings_disjoint (lower cn) (lower s) c x); try done; [by apply Hd, elem_of_cons; right|]. intros E; by rewrite E in Hni.
    + intros x. rewrite fmap_app, elem_of_app. cbn [fmap list_fmap]. rewrite elem_of_cons, Hb1, Hin2. split.
      * intros [Hx|(c & Hc & Hx)]; [exists (lower s); split; [by apply elem_of_cons; left|done]|].
        exists c. split; [by apply elem_of_cons; right|done].
      * intros (c & [->|Hc]%elem_of_cons & Hx); [by left|right; by exists c].
Qed.

Lemma names_below_ok (h : bytes -> nat) : (forall x p, derived cr x p -> (h x < h p)%nat) ->
  forall n cn, (h (lower cn) < n)%nat -> exists l, gives_below n cn l.
Proof.
  intros Hh. induction n as [|n IH]; intros cn Hn; [lia|].
  assert (Hd : forall c, c ∈ lower_texts (listed cr cn) -> derived cr c (lower cn)) by (intros c; apply (ok_children cr (fo_ok cr Hforest))).
  destruct (for_children_below n cn (listed cr cn)) as (l & Hrun & Hnd & Hin).
  - intros c Hc. apply IH. assert (Hlc : lower c ∈ lower_texts (listed cr cn)).
    { unfold lower_texts. apply list_elem_of_fmap in Hc as (p & -> & Hp). by apply (list_elem_of_fmap_2 (fun p => lower (text p))). }
    apply Hd, Hh in Hlc. lia.
  - apply listed_live.
  - apply (ok_once cr (fo_ok cr Hforest)).
  - exact Hd.
  - exists l. split_and!; [|done|].
    + intros [|fuel] Hf; [lia|]. unfold names_below. cbn [loop_on_children]. rewrite listed_children. cbn [mbind option_bind].
      apply (Hrun fuel). lia.
    + intros x. rewrite Hin, tc_last. setoid_rewrite (ok_children cr (fo_ok cr Hforest)).
      split; intros (c & Hc & Hd'); exists c; by split.
Qed.

(** Enough fuel for all of them. *)
Lemma names_below_ends cn : exists n l, gives_below n cn l.
Proof.
  destruct (fo_acyclic cr Hforest) as [h Hh]. exists (S (h (lower cn))). apply (names_below_ok h Hh). lia.
Qed.
End forest.
End Hierarchy.
