(* ===== verification/ClassTraversal.v ===== *)
(** * Requests over the classes below a class

    What the recursive requests and methods of the class provider return in a register
    that is a forest: [EnumClassNames], [EnumClasses], [getallchildren] and [ischild],
    all by way of the names the loops come by ([names_below]); and the names that are
    lost when the request that created a class is over. *)

From stdpp Require Import relations.
From S2P Require Import Prelude CString HashTable CmpiData ClBuffer StringBuffer ClObject ClClass NativeArray ConstClass ClassMerge.
From S2P Require Import Interop ClassRegister ClassHierarchy.

Section Traversal.
Context {T TI : Type} `{ct : !CharHashTable T ClClass} `{cw : !HashTableWalk T ClClass}
  `{ctab : !CharHashTable TI (list name_ptr)}.
Context (nocase : ht_ignoreCase (T := T) = true).
#[local] Abbreviation reg := (register (T := T) (TI := TI)).

(** ** The loops by the names they come by *)

Lemma for_children_emit {A} live (emit : bytes -> option (list A)) (names : bytes -> option (list bytes))
    (loop : bytes -> option (list A)) ul :
  (forall c, loop c = ns ← names c; ls ← mapM emit ns; Some (concat ls)) ->
  for_children live (fun child => a ← emit child; l ← loop child; Some (a ++ l)) ul =
  ns ← for_children live (fun child => a ← Some [child]; l ← names child; Some (a ++ l)) ul;
  ls ← mapM emit ns; Some (concat ls).
Proof.
  intros Hl. assert (Happ : forall l k, mapM emit (l ++ k) = a ← mapM emit l; b ← mapM emit k; Some (a ++ b)).
  { intros l k. induction l as [|x l IH]; cbn [mapM app]; [by destruct (mapM emit k)|]. destruct (emit x); [|done]. cbn [mbind option_bind].
    rewrite IH. destruct (mapM emit l); [|done]. cbn [mbind option_bind]. by destruct (mapM emit k). }
  induction ul as [|p ul IH]; [done|]. cbn [for_children]. destruct (deref live p) as [c|]; [|done]. cbn [mbind option_bind].
  rewrite IH, Hl. clear IH Hl. destruct (names c) as [ns|]; cbn [mbind option_bind]; [|by destruct (emit c)].
  destruct (for_children _ _ _) as [ms|]; cbn [mbind option_bind].
  - cbn [app]. cbn [mapM]. rewrite Happ. destruct (emit c); [|done]. cbn [mbind option_bind]. destruct (mapM emit ns); [|done]. cbn [mbind option_bind].
    destruct (mapM emit ms); [|done]. cbn [mret option_ret mbind option_bind concat]. by rewrite concat_app, app_assoc.
  - destruct (emit c); [|done]. cbn [mbind option_bind]. by destruct (mapM emit ns).
Qed.

Lemma loop_emit {A} live (cr : reg) (emit : bytes -> option (list A)) fuel : forall cn,
  loop_on_children live cr emit fuel cn = ns ← names_below live cr fuel cn; ls ← mapM emit ns; Some (concat ls).
Proof.
  induction fuel as [|fuel IH]; intros cn; [done|]. unfold names_below. cbn [loop_on_children].
  destruct (children_of live cr cn) as [ul|]; [|done]. cbn [mbind option_bind].
  by rewrite (for_children_emit live emit (names_below live cr fuel)).
Qed.

(** [traverseChildren] looks for the name among them. *)
Lemma traverseChildren_names live (cr : reg) chldn fuel : forall parent l, names_below live cr fuel parent = Some l ->
  traverseChildren live cr fuel chldn parent =
  Some (if bool_decide (lower chldn ∈ lower <$> l) then CMPI_RC_OK else CMPI_RC_ERR_FAILED).
Proof.
  induction fuel as [|fuel IH]; intros parent l H; [done|]. unfold names_below in H. cbn [loop_on_children traverseChildren] in *.
  destruct (children_of live cr parent) as [ul|]; [|done]. cbn [mbind option_bind] in *.
  revert l H. induction ul as [|p ul IHul]; intros l H; [by injection H as <-|].
  cbn [for_children first_ok] in *. destruct (deref live p) as [c|]; [|done]. cbn [mbind option_bind] in *.
  destruct (loop_on_children _ _ _ fuel c) as [l1|] eqn:E1; [|done]. cbn [mbind option_bind] in H.
  destruct (for_children _ _ _) as [l2|] eqn:E2; [|done]. injection H as <-.
  specialize (IH c l1 E1). specialize (IHul l2 eq_refl). rewrite IH. clear IH.
  assert (Hin : lower chldn ∈ lower <$> ((c :: l1) ++ l2) <->
    lower c = lower chldn \/ lower chldn ∈ lower <$> l1 \/ lower chldn ∈ lower <$> l2).
  { change ((c :: l1) ++ l2) with ([c] ++ (l1 ++ l2)). rewrite !fmap_app, !elem_of_app. cbn [fmap list_fmap].
    rewrite list_elem_of_singleton. split; (intros [?|?]; [left; congruence|by right]). }
  rewrite (bool_decide_ext _ _ Hin), strcasecmp_lower. clear Hin.
  destruct (bool_decide_reflect (lower c = lower chldn)) as [Ec|Ec]; [cbn [mbind option_bind]; by rewrite bool_decide_eq_true_2 by (by left)|].
  destruct (bool_decide_reflect (lower chldn ∈ lower <$> l1)) as [Ein|Ein]; cbn [mbind option_bind].
  - by rewrite bool_decide_eq_true_2 by (right; by left).
  - change (CMPI_RC_ERR_FAILED =? CMPI_RC_OK) with false. rewrite IHul. f_equal.
    by rewrite (bool_decide_ext (lower chldn ∈ lower <$> l2) (lower c = lower chldn \/ lower chldn ∈ lower <$> l1 \/ lower chldn ∈ lower <$> l2)) by tauto.
Qed.

(** ** Counting and filling an array *)

(** The names that are wanted. *)
Fixpoint picked (l : list bytes) (ws : list bool) : list bytes :=
  match l, ws with
  | x :: l, b :: ws => if b then x :: picked l ws else picked l ws
  | _, _ => []
  end.
Definition counted (ws : list bool) (i : Z) : Z := foldl (fun i b => if (b : bool) then s32 (i + 1) else i) i ws.

Lemma counted_picked l ws : length l = length ws -> forall i, 0 <= i -> i + len (picked l ws) < 2 ^ 31 ->
  counted ws i = i + len (picked l ws).
Proof.
  revert ws. induction l as [|x l IH]; intros [|b ws] E i Hi Hb; try done; [cbn; lia|]. injection E as E.
  unfold counted. cbn [foldl picked] in *. destruct b; cbn [length] in *.
  - rewrite wraps_small by lia. fold (counted ws (i + 1)). rewrite (IH ws E) by lia. lia.
  - by apply IH.
Qed.

Section wanted.
Context (has_provider : bytes -> bool).

Lemma loopOnChildCount_names live (cr : reg) wfuel ign fuel : forall cn l ws i, names_below live cr fuel cn = Some l ->
  Forall2 (fun x b => wanted has_provider cr wfuel ign x = Some b) l ws ->
  loopOnChildCount has_provider live cr wfuel fuel ign cn i = Some (counted ws i).
Proof.
  induction fuel as [|fuel IH]; intros cn l ws i H HF; [done|]. unfold names_below in H. cbn [loop_on_children loopOnChildCount] in *.
  destruct (children_of live cr cn) as [ul|]; [|done]. cbn [mbind option_bind] in *.
  revert l ws i H HF. induction ul as [|p ul IHul]; intros l ws i H HF.
  { injection H as <-. by inversion HF. }
  cbn [for_children count_children] in *. destruct (deref live p) as [c|]; [|done]. cbn [mbind option_bind] in *.
  destruct (loop_on_children _ _ _ fuel c) as [l1|] eqn:E1; [|done]. cbn [mbind option_bind] in H.
  destruct (for_children _ _ _) as [l2|] eqn:E2; [|done]. injection H as <-. cbn [app] in HF.
  inversion HF as [|? b ? ws' Hb HF']; subst. apply Forall2_app_inv_l in HF' as (ws1 & ws2 & HF1 & HF2 & ->).
  rewrite Hb. cbn [mbind option_bind]. rewrite (IH c l1 ws1 _ E1 HF1). cbn [mbind option_bind].
  rewrite (IHul l2 ws2 _ eq_refl HF2). unfold counted. cbn [foldl]. by rewrite foldl_app.
Qed.

Lemma loopOnChildChars_names live (cr : reg) ign fuel cn l ws : names_below live cr fuel cn = Some l ->
  Forall2 (fun x b => wanted has_provider cr fuel ign x = Some b) l ws ->
  loopOnChildChars has_provider live cr fuel cn ign = Some (picked l ws).
Proof.
  intros H HF. unfold loopOnChildChars. rewrite loop_emit, H. cbn [mbind option_bind]. clear H.
  induction HF as [|x b l ws Hb _ IH]; [done|]. cbn [mapM]. rewrite Hb. cbn [mbind option_bind].
  destruct (mapM _ l) as [ls|]; [|done]. cbn [mbind option_bind mret option_ret] in *. injection IH as IH. destruct b; cbn [concat app picked]; by rewrite IH.
Qed.

(** An array of the names: the items in use are the strings, none is left unset. *)
Definition holds_names (a : native_array) (l : list bytes) : Prop :=
  size a = len l /\ type a = CMPI_string /\
  take (length l) (data a) = (fun s => (0, Some (VString (Some s)))) <$> l.

Lemma set_names_ok l : forall a pre rest, type a = CMPI_string -> dynamic a = false -> size a = len pre + len l ->
  data a = ((fun s => (0, Some (VString (Some s)))) <$> pre) ++ rest -> length rest = length l ->
  Forall (fun i => fst i = CMPI_nullValue) rest ->
  exists a', set_names a (len pre) l = Some a' /\ holds_names a' (pre ++ l).
Proof.
  induction l as [|s l IH]; intros a pre rest Ht Hd Hs Hda Hl Hn.
  - exists a. split; [done|]. destruct rest; [|done]. rewrite app_nil_r in *. cbn [length] in Hs.
    split_and!; [lia|done|]. rewrite Hda. by rewrite firstn_all2 by (by rewrite length_fmap).
  - destruct rest as [|i rest]; [done|]. apply Forall_cons in Hn as [Hi Hn]. injection Hl as Hl. cbn [length] in Hs.
    assert (Hlook : data a !! Z.to_nat (len pre) = Some i).
    { rewrite Hda, Nat2Z.id, lookup_app_r by (by rewrite length_fmap). by rewrite length_fmap, Nat.sub_diag. }
    cbn [set_names]. unfold setElementAt. rewrite Hd. cbn [andb mbind option_bind].
    rewrite (proj2 (Z.leb_gt (size a) (len pre))) by lia. rewrite Ht.
    rewrite !bool_decide_eq_true_2 by done. cbn [andb negb mbind option_bind CMPI_ENC null_pointer is_NULL orb].
    rewrite !bool_decide_eq_true_2 by done. cbn [andb orb]. unfold null_at. rewrite Hlook. cbn [mbind option_bind].
    rewrite Hi. change (is_null CMPI_nullValue) with true. cbn [mbind option_bind]. rewrite Hlook. cbn [mbind option_bind sfcb_setAlignedValue].
    replace (len pre + 1) with (len (pre ++ [s])) by (rewrite length_app; cbn; lia).
    destruct (IH (set_at a (len pre) (0, Some (VString (Some s)))) (pre ++ [s]) rest) as (a' & E & Hh); try done.
    + cbn. rewrite length_app. cbn [length]. lia.
    + cbn. rewrite Hda, Nat2Z.id, insert_app_r_alt by (by rewrite length_fmap). rewrite length_fmap, Nat.sub_diag. cbn [insert list_insert].
      rewrite fmap_app, <- app_assoc. done.
    + exists a'. split; [exact E|]. by rewrite <- app_assoc in Hh.
Qed.

Lemma filled_array l : len l < 2 ^ 31 -> exists a a', new_empty_array (len l) CMPI_string = Some a /\
  set_names a 0 l = Some a' /\ holds_names a' l.
Proof.
  intros Hl. destruct (new_empty_array_wf (len l) CMPI_string) as (a & E & Hwf & Hs & Hd & Hn); [lia|]. exists a.
  assert (Ht : type a = CMPI_string).
  { unfold new_empty_array, make_NULL in E. destruct (make_NULL_loop _ _ _); [|done]. by injection E as <-. }
  destruct l as [|s l]; [exists a; split_and!; done|].
  assert (Hmax : a_max a = len (s :: l)).
  { unfold new_empty_array, make_NULL in E. destruct (make_NULL_loop _ _ _); [|done]. by injection E as <-. }
  destruct (set_names_ok (s :: l) a [] (data a)) as (a' & Ea & Hh); try done.
  - apply Nat2Z.inj. rewrite (wf_data a Hwf). exact Hmax.
  - by exists a'.
Qed.

Lemma getallchildren_names live (cr : reg) ign fuel cn l ws : names_below live cr fuel cn = Some l ->
  Forall2 (fun x b => wanted has_provider cr fuel ign x = Some b) l ws -> len l < 2 ^ 31 ->
  exists a, getallchildren has_provider live cr fuel cn ign = Some a /\ holds_names a (picked l ws).
Proof.
  intros H HF Hl. unfold getallchildren. rewrite (loopOnChildCount_names live cr fuel ign fuel cn l ws 0 H HF). cbn [mbind option_bind].
  assert (Hp : len (picked l ws) <= len l).
  { clear. revert ws. induction l as [|x l IH]; intros [|[] ws]; cbn [picked length]; try lia; specialize (IH ws); lia. }
  rewrite (counted_picked l ws) by (first [by eapply Forall2_length|lia]). rewrite Z.add_0_l.
  destruct (filled_array (picked l ws)) as (a & a' & Ea & Es & Hh); [lia|]. rewrite wrapu_small by lia. rewrite Ea. cbn [mbind option_bind].
  destruct (Z.eqb_spec (len (picked l ws)) 0) as [E0|E0].
  - exists a. split; [done|]. destruct (picked l ws); [|done]. cbn in Es. by injection Es as <-.
  - rewrite (loopOnChildChars_names live cr ign fuel cn l ws H HF). cbn [mbind option_bind]. by exists a'.
Qed.
End wanted.

(** The names of the classes derived from [cn], each once. *)
Definition lists_descendants (cr : reg) (cn : bytes) (l : list bytes) : Prop :=
  NoDup (lower <$> l) /\ forall x, x ∈ lower <$> l <-> tc (derived cr) x (lower cn).

Section forest.
Context (live : Z -> bool) (cr : reg) (Hforest : forest cr).
Context (Hlive : readable live cr).

(** Every name the loops come by is that of a class. *)
Lemma below_classes n cn l : gives_below live cr n cn l -> exists cls, Forall2 (fun x c => getClass cr x = Some c) l cls.
Proof.
  intros (_ & _ & Hin). assert (Hall : forall x, x ∈ l -> is_Some (getClass cr x)).
  { intros x Hx. assert (Hd : lower x ∈ lower <$> l) by (by apply list_elem_of_fmap_2). apply Hin in Hd.
    assert (Hc : is_Some (getClass cr (lower x))) by (destruct Hd as [? ? Hd|? ? ? Hd _]; by eapply derived_class).
    destruct Hc as [c Hc]. exists c. rewrite <- Hc. apply (getClass_lower nocase). by rewrite lower_lower. }
  clear Hin. induction l as [|x l IH]; [by exists []|]. destruct IH as [cls IH]; [intros y Hy; apply Hall; by right|].
  destruct (Hall x) as [c Hc]; [by left|]. exists (c :: cls). by constructor.
Qed.

Lemma return_classes l cls : Forall2 (fun x c => getClass cr x = Some c) l cls ->
  (ls ← mapM (return_class cr) l; Some (concat ls)) = Some cls.
Proof.
  induction 1 as [|x c l cls Hc _ IH]; [done|]. cbn [mapM]. assert (E : return_class cr x = Some [c]) by (unfold return_class; by rewrite Hc). rewrite E. cbn [mbind option_bind].
  destruct (mapM (return_class cr) l) as [ls|]; [|done]. cbn [mbind option_bind mret option_ret] in *. injection IH as <-. done.
Qed.

(** C27: in a register that is a forest (every superclass is there, no class is below
    itself, and the table of derived classes agrees with them) and whose table can be read
    ([readable]: all names and keys in it are in memory), with enough fuel the deep
    enumerations below a class return the class names and the classes that are derived
    from it, directly or not, each once.  The table can be read after it was loaded
    ([loaded_readable]) and as long as the requests that created classes are in progress
    ([register_stays_forest]); after that the enumerations are undefined
    ([created_name_lost]). *)
Theorem enumerates_descendants ns flgs cn cls :
  getClass cr cn = Some cls -> cn <> [] -> strcasecmp cn (cstr "$ClassProvider$") <> 0 ->
  Z.land flgs CMPI_FLAG_DeepInheritance <> 0 -> Z.land flgs FL_assocsOnly = 0 ->
  exists n l objs, forall fuel, (n <= fuel)%nat ->
    ClassProviderEnumClassNames live fuel cr ns flgs (Some cn) = Some (CMPI_RC_OK, (fun x => (None, x)) <$> l) /\
    ClassProviderEnumClasses live fuel cr flgs (Some cn) = Some (CMPI_RC_OK, objs) /\
    lists_descendants cr cn l /\ Forall2 (fun x c => getClass cr x = Some c) l objs.
Proof.
  intros Hg Hne Hcp Hdeep Hassoc. destruct (names_below_ends live cr Hforest Hlive cn) as (n & l & Hb).
  destruct (below_classes n cn l Hb) as [objs Hobjs]. destruct Hb as (Hrun & Hnd & Hin). exists n, l, objs. intros fuel Hf.
  unfold ClassProviderEnumClassNames, ClassProviderEnumClasses, loopOnChildNames, loopOnChildren, class_given.
  destruct cn as [|c cn]; [done|]. rewrite (proj2 (Z.eqb_neq _ _) Hcp), Hg, (proj2 (Z.eqb_neq _ _) Hdeep), Hassoc.
  cbn [negb orb Z.eqb]. rewrite !loop_emit, (Hrun fuel Hf). cbn [mbind option_bind].
  rewrite (return_classes l objs Hobjs). split_and!; try done.
  assert (Hp : forall l, (ls ← mapM (fun child => Some [(None, child) : path]) l; Some (concat ls)) = Some ((fun x => (None, x)) <$> l)).
  { clear. induction l as [|x l IH]; [done|]. cbn [mapM mbind option_bind]. destruct (mapM _ l) as [ls|]; [|done].
    cbn [mbind option_bind mret option_ret] in *. injection IH as IH. cbn [concat app fmap list_fmap]. by rewrite IH. }
  by rewrite Hp.
Qed.

(** With enough fuel ischild answers whether a class is derived, directly or not,
    from another. *)
Theorem ischild_correct chldn parent : exists n, forall fuel, (n <= fuel)%nat ->
  exists rc, traverseChildren live cr fuel chldn parent = Some rc /\
    (rc = CMPI_RC_OK \/ rc = CMPI_RC_ERR_FAILED) /\
    (rc = CMPI_RC_OK <-> tc (derived cr) (lower chldn) (lower parent)).
Proof.
  destruct (names_below_ends live cr Hforest Hlive parent) as (n & l & Hrun & _ & Hin).
  exists n. intros fuel Hf. eexists. split; [by apply traverseChildren_names, Hrun|]. rewrite <- Hin.
  case_bool_decide as E; split; try by auto; by split.
Qed.
(** *** The walk up to the superclasses ends *)

Definition class_names : list bytes := (fun c => match class_key c with Some n => lower n | None => [] end) <$> ht_values (ht cr).

Lemma class_listed x : is_Some (getClass cr x) -> lower x ∈ class_names.
Proof.
  intros [c Hc]. destruct (ok_names cr (fo_ok cr Hforest) x c Hc) as (n & p & [Hn _]%names_inv & <-).
  unfold class_names. apply list_elem_of_fmap. exists c. split; [unfold class_key; by rewrite Hn|].
  apply ht_values_get. by exists x.
Qed.

Lemma supers_end x : sn (derived cr) x.
Proof.
  apply tc_finite_sn.
  - intros y Hy. by apply (below_irrefl cr Hforest y).
  - exists class_names. intros p (c & _ & Hd)%tc_last. rewrite <- (derived_super cr c p Hd). apply class_listed.
    by apply (fo_closed cr Hforest c).
Qed.

Lemma no_provider_ends hp cl cn x : sn (derived cr) x -> lower x = x -> getClass cr x = Some cl ->
  exists n b, forall fuel, (n <= fuel)%nat -> no_provider_above hp cr fuel cl cn = Some b.
Proof.
  intros Hsn. revert cl cn. induction Hsn as [x _ IH]. intros cl cn Hx Hg.
  destruct (ok_names cr (fo_ok cr Hforest) x cl Hg) as (n0 & p & Hnm & _). pose proof (proj1 (names_inv _ _ _) Hnm) as [_ Hp].
  destruct (hp cn) eqn:Eh.
  { exists 1%nat, false. intros [|fuel] Hf; [lia|]. cbn [no_provider_above]. by rewrite Eh. }
  destruct p as [q|].
  - assert (Hd : derived cr x (lower q)) by (split; [done|]; by exists cl, n0, q).
    destruct (fo_closed cr Hforest x (lower q) Hd) as [cq Hq].
    destruct (IH (lower q) Hd cq q (lower_lower q) Hq) as (n & b & Hrun). exists (S n), b. intros [|fuel] Hf; [lia|].
    cbn [no_provider_above]. rewrite Eh, Hp. cbn [mbind option_bind].
    rewrite (getClass_lower nocase cr q (lower q)) by (by rewrite lower_lower). rewrite Hq. cbn [mbind option_bind]. apply Hrun. lia.
  - exists 1%nat, true. intros [|fuel] Hf; [lia|]. cbn [no_provider_above]. by rewrite Eh, Hp.
Qed.

Lemma wanted_ends hp ign x : is_Some (getClass cr x) ->
  exists n b, forall fuel, (n <= fuel)%nat -> wanted hp cr fuel ign x = Some b.
Proof.
  intros [cl Hg]. unfold wanted. destruct ign; [by exists O, true|]. unfold repCandidate. rewrite Hg. cbn [mbind option_bind].
  destruct (isAbstract cl); [by exists O, false|]. destruct (_ || _); [by exists O, false|].
  apply (no_provider_ends hp cl x (lower x)); [apply supers_end|apply lower_lower|].
  rewrite <- Hg. apply (getClass_lower nocase), lower_lower.
Qed.

Lemma wanted_all_end hp ign l : (forall x, x ∈ l -> is_Some (getClass cr x)) ->
  exists n ws, forall fuel, (n <= fuel)%nat -> Forall2 (fun x b => wanted hp cr fuel ign x = Some b) l ws.
Proof.
  induction l as [|x l IH]; intros Hall; [exists O, []; constructor|].
  destruct IH as (n & ws & Hrun); [intros y Hy; apply Hall; by right|].
  destruct (wanted_ends hp ign x) as (n' & b & Hb); [apply Hall; by left|].
  exists (n + n')%nat, (b :: ws). intros fuel Hf. constructor; [apply Hb; lia|apply Hrun; lia].
Qed.

(** C28: in a register that is a forest of fewer than 2^31 classes and whose table can be
    read, as in [enumerates_descendants], with enough fuel getallchildren returns an array
    with the classes below a class that are wanted, all of them, and no element that is
    not set: the loop that counts and the loop that fills agree. *)
Theorem getallchildren_complete hp ign cn : len (ht_values (ht cr)) < 2 ^ 31 ->
  exists n l ws, gives_below live cr n cn l /\ forall fuel, (n <= fuel)%nat ->
    Forall2 (fun x b => wanted hp cr fuel ign x = Some b) l ws /\
    exists a, getallchildren hp live cr fuel cn ign = Some a /\ holds_names a (picked l ws).
Proof.
  intros Hsize. destruct (names_below_ends live cr Hforest Hlive cn) as (n & l & Hb).
  destruct (below_classes n cn l Hb) as [objs Hobjs].
  assert (Hall : forall x, x ∈ l -> is_Some (getClass cr x)).
  { intros x [i Hi]%list_elem_of_lookup. destruct (Forall2_lookup_l _ _ _ _ _ Hobjs Hi) as (c & _ & Hc). by exists c. }
  destruct (wanted_all_end hp ign l Hall) as (m & ws & Hws).
  assert (Hlen : len l < 2 ^ 31).
  { destruct Hb as (_ & Hnd & _). assert (Hs : lower <$> l ⊆+ class_names).
    { apply NoDup_submseteq; [done|]. intros x (y & -> & Hy)%list_elem_of_fmap. by apply class_listed, Hall. }
    apply submseteq_length in Hs. unfold class_names in Hs. rewrite !length_fmap in Hs. lia. }
  assert (Hb' : gives_below live cr (n + m) cn l) by (destruct Hb as (Hrun & ? & ?); split_and!; try done; intros fuel Hf; apply Hrun; lia).
  exists (n + m)%nat, l, ws. split; [done|]. intros fuel Hf. split; [apply Hws; lia|].
  apply getallchildren_names; [apply Hb'; lia|apply Hws; lia|done].
Qed.
End forest.
(** *** A created class after its request *)

(** The name of a created class is memory of the request: once that is over, no request
    over the classes below its superclass is defined. *)
Lemma created_name_lost (nocase_it : ht_ignoreCase (T := TI) = true) gop ia lv (cr cr' : reg) req cc cn p live fuel :
  ClassProviderCreateClass gop ia lv cr req cc = Some (CMPI_RC_OK, cr') -> names cc = Some (cn, Some p) -> live req = false ->
  names_below live cr' fuel p = None /\ getchildren live cr' p = None.
Proof.
  intros H [Hn Hp]%names_inv Hl. unfold ClassProviderCreateClass in H. rewrite Hn, Hp in H. cbn [mbind option_bind] in H.
  destruct (getClass cr cn); [done|]. destruct (getClass cr p); [|done].
  apply addClass_effect in H as [[? _]|(_ & mc & size & c1 & _ & _ & _ & Hit)]; [done|].
  assert (Hch : listed cr' p = RequestName req cn :: listed cr p).
  { unfold listed. rewrite Hit, (prepend_children nocase_it). by rewrite bool_decide_eq_true_2. }
  assert (Hc : children_of live cr' p = None \/ children_of live cr' p = Some (RequestName req cn :: listed cr p)).
  { unfold children_of, getChildren. destruct (forallb _ _); [right|by left]. cbn [mbind option_bind]. by rewrite <- Hch. }
  split; [destruct fuel as [|fuel]; [done|]; unfold names_below; cbn [loop_on_children]|unfold getchildren];
    (destruct Hc as [-> | ->]; [done|]); cbn [mbind option_bind for_children deref]; rewrite Hl; [done|]. by destruct (new_empty_array _ _).
Qed.

(** A register whose classes can be listed with a height. *)
Lemma listed_forest (cr : reg) (h : bytes -> nat) : register_ok cr ->
  Forall (fun c => match names c with
                   | Some (n, Some q) => is_Some (getClass cr (lower q)) /\ (h (lower n) < h (lower q))%nat
                   | _ => True end) (ht_values (ht cr)) -> forest cr.
Proof.
  intros Hok Hall.
  assert (Hd : forall x p, derived cr x p -> is_Some (getClass cr p) /\ (h x < h p)%nat).
  { intros x p [Hx (c & n & q & Hc & Hn & <-)]. assert (Hv : c ∈ ht_values (ht cr)) by (apply ht_values_get; by exists x).
    apply (proj1 (Forall_forall _ _) Hall) in Hv. rewrite Hn in Hv.
    destruct (ok_names cr Hok x c Hc) as (n' & p' & Hn' & E). rewrite Hn in Hn'. injection Hn' as <- _.
    by rewrite E, Hx in Hv. }
  split; [done| |exists h]; intros x p Hx; by apply (Hd x p Hx).
Qed.
End Traversal.

(** ** Witnesses *)

#[local] Instance wit_classes : CharHashTable (list (bytes * ClClass)) ClClass := assoc_table true.
#[local] Instance wit_classes_walk : HashTableWalk (list (bytes * ClClass)) ClClass := assoc_walk true.
#[local] Instance wit_classes_once : HashTableOnce (list (bytes * ClClass)) ClClass := assoc_once true.
#[local] Instance wit_lists : CharHashTable (list (bytes * list name_ptr)) (list name_ptr) := assoc_table true.

(** The classes [CIM_A], [CIM_B] and [CIM_C], each derived from the one before. *)
Definition wit_object (n : string) (p : option string) : ClClass :=
  match newClassH (Some (cstr n)) (cstr <$> p) with Some c => c | None => named_class end.
Definition class_record (c : ClClass) : file_record := {| f_size := 100; f_type := HDR_Class; f_complete := true; f_body := BClass c |}.
Definition version_record : file_record :=
  {| f_size := 96; f_type := HDR_Version; f_complete := true; f_body := BVersion (cstr "sfcb-rep") 768 |}.
Definition wit_file : list file_record :=
  version_record :: (class_record <$> [wit_object "CIM_C" (Some "CIM_B"%string); wit_object "CIM_A" None;
                                       wit_object "CIM_B" (Some "cim_a"%string)]).
Abbreviation wit_reg := (ClassRegister (list (bytes * ClClass)) (list (bytes * list name_ptr))).
Definition loaded : option (option wit_reg) := Eval vm_compute in newClassRegister (Some wit_file).
Definition wit_register : wit_reg :=
  match loaded with Some (Some cr) => cr | _ => {| ht := []; it := {| lists := []; list_keys := [] |}; vr := None; assocs := 0; topAssocs := 0; fn := None |} end.
(** Request 7 is in progress, or none. *)
Definition alive (r : Z) : bool := r =? 7.
Definition idle (_ : Z) : bool := false.

Lemma newClassRegister_ok_witness : newClassRegister (Some wit_file) = Some (Some wit_register) /\ register_ok wit_register.
Proof.
  assert (E : newClassRegister (Some wit_file) = Some (Some wit_register)) by (vm_compute; reflexivity).
  split; [exact E|].
  exact (newClassRegister_ok (ct := wit_classes) (ctab := wit_lists) eq_refl eq_refl (Some wit_file) wit_register E).
Defined.

Definition wit_height (s : bytes) : nat := Z.to_nat (123 - List.last s 0).

Lemma wit_forest : forest wit_register.
Proof.
  apply (listed_forest (ct := wit_classes) (ctab := wit_lists) wit_register wit_height).
  - change wit_register with (with_it wit_register (it wit_register)).
    apply (built_ok (ct := wit_classes) (ctab := wit_lists) eq_refl eq_refl); [|by vm_compute].
    assert (Hk : keyed (ct := wit_classes) []) by done.
    apply (keyed_put (ct := wit_classes) eq_refl _ (cstr "CIM_C") (wit_object "CIM_C" (Some "CIM_B"%string))) in Hk; [|by vm_compute].
    apply (keyed_put (ct := wit_classes) eq_refl _ (cstr "CIM_A") (wit_object "CIM_A" None)) in Hk; [|by vm_compute].
    by apply (keyed_put (ct := wit_classes) eq_refl _ (cstr "CIM_B") (wit_object "CIM_B" (Some "cim_a"%string))) in Hk; [|by vm_compute].
  - vm_compute. repeat constructor; by eexists.
Qed.

(** Also when no request is in progress. *)
Lemma wit_readable live : readable (ctab := wit_lists) live wit_register.
Proof.
  apply (loaded_readable (ct := wit_classes) (ctab := wit_lists) eq_refl (Some wit_file)). vm_compute. reflexivity.
Qed.

Lemma ischild_correct_witness : exists n, forall fuel, (n <= fuel)%nat ->
  exists rc, traverseChildren idle wit_register fuel (cstr "cim_c") (cstr "CIM_A") = Some rc /\
    (rc = CMPI_RC_OK \/ rc = CMPI_RC_ERR_FAILED) /\
    (rc = CMPI_RC_OK <-> tc (derived wit_register) (cstr "cim_c") (cstr "cim_a")).
Proof. exact (ischild_correct (ct := wit_classes) (ctab := wit_lists) idle wit_register wit_forest (wit_readable idle) (cstr "cim_c") (cstr "CIM_A")). Defined.

Lemma enumerates_descendants_witness : exists n l objs, forall fuel, (n <= fuel)%nat ->
  ClassProviderEnumClassNames idle fuel wit_register (cstr "root/cimv2") 4 (Some (cstr "CIM_A")) =
    Some (CMPI_RC_OK, (fun x => (None, x)) <$> l) /\
  ClassProviderEnumClasses idle fuel wit_register 4 (Some (cstr "CIM_A")) = Some (CMPI_RC_OK, objs) /\
  lists_descendants wit_register (cstr "CIM_A") l /\
  Forall2 (fun x c => getClass wit_register x = Some c) l objs.
Proof.
  refine (enumerates_descendants (ct := wit_classes) (ctab := wit_lists) eq_refl idle wit_register wit_forest (wit_readable idle)
    (cstr "root/cimv2") 4 (cstr "CIM_A") (wit_object "CIM_A" None) _ _ _ _ _).
  - vm_compute. reflexivity.
  - done.
  - by vm_compute.
  - by vm_compute.
  - by vm_compute.
Defined.

Lemma getallchildren_complete_witness : exists n l ws, gives_below idle wit_register n (cstr "CIM_A") l /\
  forall fuel, (n <= fuel)%nat ->
    Forall2 (fun x b => wanted (fun _ => false) wit_register fuel false x = Some b) l ws /\
    exists a, getallchildren (fun _ => false) idle wit_register fuel (cstr "CIM_A") false = Some a /\ holds_names a (picked l ws).
Proof.
  apply (getallchildren_complete (ct := wit_classes) (ctab := wit_lists) eq_refl idle wit_register wit_forest (wit_readable idle)).
  by vm_compute.
Defined.

(** A class is created below [CIM_C] and [CIM_A] cannot be deleted. *)
Definition wit_new : ClClass := wit_object "CIM_D" (Some "CIM_C"%string).
Definition created : option (Z * wit_reg) := Eval vm_compute in ClassProviderCreateClass text_path no_instance alive wit_register 7 wit_new.
Definition wit_created : wit_reg := match created with Some (_, cr) => cr | None => wit_register end.

Lemma wit_run : run text_path no_instance [7] wit_register wit_created.
Proof.
  apply (CreateClass _ _ alive _ 7 wit_new CMPI_RC_OK wit_created); [vm_compute; reflexivity|done| |].
  - intros _ n p c Hn Hc. vm_compute in Hn. injection Hn as <- <-. vm_compute in Hc. injection Hc as <-. vm_compute. reflexivity.
  - apply (DeleteClass _ _ alive _ (cstr "CIM_A") CMPI_RC_ERR_CLASS_HAS_CHILDREN wit_created); [vm_compute; reflexivity|constructor].
Qed.

Lemma register_stays_forest_witness : run text_path no_instance [7] wit_register wit_created /\ forest wit_created /\
  readable (ctab := wit_lists) alive wit_created /\ getchildren idle wit_created (cstr "CIM_C") = None.
Proof.
  destruct (register_stays_forest (ct := wit_classes) (ctab := wit_lists) eq_refl eq_refl text_path no_instance [7]
    wit_register wit_created wit_forest wit_run) as [Hf Hr].
  split; [exact wit_run|]. split; [exact Hf|]. split; [|vm_compute; reflexivity].
  apply Hr; [apply wit_readable|]. intros r ->%list_elem_of_singleton. reflexivity.
Defined.
