(* ===== verification/InternalProvider.v ===== *)
(** * The internal provider (internalProvider.c)

    The provider of the classes without a provider: instances are blobs of the file
    repository (FileRepository.v), under the normalized keys of their path.  Requests
    for instances, and for the associations between them.

    What the class provider and the broker answer ([getallchildren], [getassocs],
    [getConstClass], [CBGetInstance], [CMClassPathIsA]) are arguments.  [None] is
    undefined behaviour: a null pointer is followed, or a buffer is overrun. *)

From Stdlib Require Import Floats.SpecFloat.
From S2P Require Import Prelude CString FileRepository HashTable CmpiData ClBuffer StringBuffer ObjectPath ClObject ClClass ConstClass.

Definition CMPI_RC_ERR_INVALID_NAMESPACE : Z := 3.
Definition CMPI_RC_ERR_NOT_SUPPORTED : Z := 7.
Definition CMPI_RC_ERR_ALREADY_EXISTS : Z := 11.

Definition interopNs : bytes := cstr "root/interop".
Definition pg_interopNs : bytes := cstr "root/pg_interop".

Definition repositoryNs (nss : bytes) : bytes := if strcasecmp nss pg_interopNs =? 0 then interopNs else nss.

(** ** Instances *)

(** A property as the provider looks at it: [IRef None] is a null reference. *)
Inductive iprop := IRef (op : option object_path) | IOther.

(** What an instance promises: its properties by position and by name ([None] is
    [CMPI_notFound]), its path, and that what is stored is read again. *)
Class RepositoryInstance (I : Type) := {
  getSerializedInstance : I -> bytes;
  relocateSerializedInstance : bytes -> I;
  setPropertyFilter : I -> list bytes -> I;
  inst_properties : I -> list iprop;
  inst_property : I -> bytes -> option iprop;
  inst_path : I -> object_path;
  relocate_serialized : forall i, relocateSerializedInstance (getSerializedInstance i) = i
}.

(** The files, and the name spaces that were found before. *)
Record repository := { repo : files; nsTab : list bytes }.

Inductive answer_item (I : Type) := RPath (p : object_path) | RInstance (i : I).
Arguments RPath {I}. Arguments RInstance {I}.

Definition filtered {I : Type} `{RepositoryInstance I} (properties : option (list bytes)) (ci : I) : I :=
  match properties with Some l => setPropertyFilter ci l | None => ci end.

Section provider.
Context {I : Type} `{ri : RepositoryInstance I}.
Context (print_g : spec_float -> bytes).
Context (creatable is_dir : bytes -> bool) (repDir : bytes).

(** No provider is registered for the interop name space. *)
Context (interopDisabled : bool).

Definition path_key (cop : object_path) : option bytes := normalizeObjectPathCharsDup print_g cop.

Definition as_paths (l : list object_path) : list (answer_item I) := RPath <$> l.
Definition as_instances (l : list I) : list (answer_item I) := RInstance <$> l.

(** The name space is known, or the code of the error. *)
Definition testNameSpace (st : repository) (ns : bytes) : repository * Z :=
  if interopDisabled && (strcasecmp ns interopNs =? 0) then (st, CMPI_RC_ERR_FAILED)
  else if existsb (fun nsp => strcasecmp nsp ns =? 0) (nsTab st) then (st, CMPI_RC_OK)
  else if existingNameSpace is_dir repDir ns then ({| repo := repo st; nsTab := nsTab st ++ [ns] |}, CMPI_RC_OK)
  else (st, CMPI_RC_ERR_INVALID_NAMESPACE).

Definition _getIndex (st : repository) (ns cn : bytes) : option BlobIndex :=
  fst (getIndex creatable repDir (repo st) ns cn false).

Definition instifyBlob (blob : option bytes) : option I := relocateSerializedInstance <$> blob.
Definition ipGetBlob (st : repository) (ns cls id : bytes) : option (option I) :=
  b ← getBlob creatable repDir (repo st) ns cls id; Some (instifyBlob b).

(** ** Enumeration *)

(** What getallchildren answers: the array, if there is one, with its elements; a null
    pointer is an element that was not set.  The first argument is that classes with
    a provider count too. *)
Context (getallchildren : bool -> bytes -> bytes -> option (list (option bytes))).

Definition copKey (nss cns kp : bytes) : bytes := nss ++ cstr ":" ++ cns ++ cstr "." ++ kp.
Definition copKey_size : Z := 8192.

(** The paths of the instances of a class; the loop looks for the end of the index
    before it goes on. *)
Fixpoint class_paths (fuel : nat) (nss cns : bytes) (r : option (option (bytes * bytes) * BlobIndex)) :
    option (list object_path * Z) :=
  match fuel with
  | O => None
  | S fuel =>
      '(found, bi) ← r;
      match found with
      | None => Some ([], CMPI_RC_OK)
      | Some (kp, _) =>
          if copKey_size <=? strlen (copKey nss cns kp) then None
          else
            cop ← getObjectPath print_g (Some (copKey nss cns kp));
            match cop with
            | None => Some ([], CMPI_RC_ERR_FAILED)
            | Some cop =>
                '(l, rc) ← (if FileRepository.next bi <? dSize bi then class_paths fuel nss cns (getNext bi)
                            else Some ([], CMPI_RC_OK));
                Some (cop :: l, rc)
            end
      end
  end.

Fixpoint paths_of_classes (st : repository) (nss : bytes) (classes : list (option bytes)) : option (list object_path * Z) :=
  match classes with
  | [] => Some ([], CMPI_RC_OK)
  | c :: classes =>
      cns ← c;
      '(l, rc) ← match _getIndex st (repositoryNs nss) cns with
                 | Some bi => class_paths (S (length (FileRepository.index bi))) nss cns (getFirst (repo st) bi)
                 | None => Some ([], CMPI_RC_OK)
                 end;
      if negb (rc =? CMPI_RC_OK) then Some (l, rc)
      else '(l', rc) ← paths_of_classes st nss classes; Some (l ++ l', rc)
  end.

(** The class and the classes below it. *)
Definition classes_from (ignprov : bool) (bnss cns : bytes) : list (option bytes) :=
  Some cns :: default [] (getallchildren ignprov bnss cns).

Definition InternalProviderEnumInstanceNames (st : repository) (ref : object_path) : option (Z * list (answer_item I)) :=
  nss ← nameSpace ref;
  '(l, rc) ← paths_of_classes st nss (classes_from false (repositoryNs nss) (className ref));
  Some (rc, as_paths l).

Fixpoint instances_of_classes (st : repository) (bnss : bytes) (properties : option (list bytes))
    (classes : list (option bytes)) : option (list I) :=
  match classes with
  | [] => Some []
  | c :: classes =>
      cns ← c;
      l ← match _getIndex st bnss cns with Some bi => enumerate (repo st) bi | None => Some [] end;
      l' ← instances_of_classes st bnss properties classes;
      Some (((fun e => filtered properties (relocateSerializedInstance e.2)) <$> l) ++ l')
  end.

Definition enumInstances (st : repository) (ref : object_path) (properties : option (list bytes)) (ignprov : bool) :
    option (Z * list I) :=
  nss ← nameSpace ref;
  l ← instances_of_classes st (repositoryNs nss) properties (classes_from ignprov (repositoryNs nss) (className ref));
  Some (CMPI_RC_OK, l).

Definition InternalProviderEnumInstances (st : repository) (ref : object_path) (properties : option (list bytes)) :
    option (Z * list (answer_item I)) :=
  '(rc, l) ← enumInstances st ref properties false; Some (rc, as_instances l).

Definition SafeInternalProviderAddEnumInstances (st : repository) (ul : list I) (ref : object_path)
    (properties : option (list bytes)) (ignprov : bool) : option (Z * list I) :=
  '(rc, l) ← enumInstances st ref properties ignprov; Some (rc, ul ++ l).

(** ** One instance *)

(** The cached class; the provider looks at whether it is abstract, an association, and
    at its properties ([ref_value] and [inst_at] read the values of those). *)
Context (getConstClass : bytes -> bytes -> option ClClass).
Context (ref_value : bytes -> option CMPIValue) (inst_at : ClObjectHdr -> Z -> option CMPIValue).

Definition internalProviderGetInstance (st : repository) (cop : object_path) : option (repository * Z * option I) :=
  key ← path_key cop;
  nss ← nameSpace cop;
  let '(st, rc) := testNameSpace st (repositoryNs nss) in
  if negb (rc =? CMPI_RC_OK) then Some (st, rc, None)
  else
    ci ← ipGetBlob st (repositoryNs nss) (className cop) key;
    Some (st, match ci with None => CMPI_RC_ERR_NOT_FOUND | Some _ => CMPI_RC_OK end, ci).

Definition InternalProviderGetInstance (st : repository) (cop : object_path) (properties : option (list bytes)) :
    option (repository * Z * list (answer_item I)) :=
  '(st, rc, ci) ← internalProviderGetInstance st cop;
  if rc =? CMPI_RC_OK then ci ← ci; Some (st, rc, [RInstance (filtered properties ci)]) else Some (st, rc, []).

(** [rslt]: a result is wanted. *)
Definition InternalProviderCreateInstance (st : repository) (rslt : bool) (cop : object_path) (ci : I) :
    option (repository * Z * list (answer_item I)) :=
  key ← path_key cop;
  nss ← nameSpace cop;
  let bnss := repositoryNs nss in
  let '(st, rc) := testNameSpace st bnss in
  if negb (rc =? CMPI_RC_OK) then Some (st, rc, [])
  else if match getConstClass nss (className cop) with Some cc => isAbstract cc | None => false end
  then Some (st, CMPI_RC_ERR_NOT_SUPPORTED, [])
  else
    there ← existingBlob creatable repDir (repo st) bnss (className cop) key;
    if (there : bool) then Some (st, CMPI_RC_ERR_ALREADY_EXISTS, [])
    else
      '(rc, fs) ← addBlob creatable repDir (repo st) bnss (className cop) key (getSerializedInstance ci);
      let st := {| repo := fs; nsTab := nsTab st |} in
      if negb (rc =? 0) then Some (st, CMPI_RC_ERR_FAILED, [])
      else Some (st, CMPI_RC_OK, if rslt then [RPath cop] else []).

(** The result of [addBlob] is not looked at. *)
Definition InternalProviderModifyInstance (st : repository) (cop : object_path) (ci : I) (properties : option (list bytes)) :
    option (repository * Z * list (answer_item I)) :=
  key ← path_key cop;
  nss ← nameSpace cop;
  let bnss := repositoryNs nss in
  let '(st, rc) := testNameSpace st bnss in
  if negb (rc =? CMPI_RC_OK) then Some (st, rc, [])
  else
    there ← existingBlob creatable repDir (repo st) bnss (className cop) key;
    if negb there then Some (st, CMPI_RC_ERR_NOT_FOUND, [])
    else
      '(_, fs) ← addBlob creatable repDir (repo st) bnss (className cop) key (getSerializedInstance (filtered properties ci));
      Some ({| repo := fs; nsTab := nsTab st |}, CMPI_RC_OK, []).

Definition InternalProviderDeleteInstance (st : repository) (cop : object_path) :
    option (repository * Z * list (answer_item I)) :=
  key ← path_key cop;
  nss ← nameSpace cop;
  let bnss := repositoryNs nss in
  let '(st, rc) := testNameSpace st bnss in
  if negb (rc =? CMPI_RC_OK) then Some (st, rc, [])
  else
    there ← existingBlob creatable repDir (repo st) bnss (className cop) key;
    if negb there then Some (st, CMPI_RC_ERR_NOT_FOUND, [])
    else
      '(_, fs) ← deleteBlob creatable repDir (repo st) bnss (className cop) key;
      Some ({| repo := fs; nsTab := nsTab st |}, CMPI_RC_OK, []).

(** ** What is not supported *)

Definition InternalProviderCleanup (st : repository) (terminate : bool) : repository * Z := (st, CMPI_RC_OK).
Definition InternalProviderExecQuery (st : repository) (lang query : bytes) : repository * Z := (st, CMPI_RC_ERR_NOT_SUPPORTED).
Definition InternalProviderInvokeMethod (st : repository) (methodName : bytes) : repository * Z := (st, CMPI_RC_ERR_FAILED).
Definition InternalProviderSetProperty (st : repository) (propName : bytes) (data : CMPIData) : repository * Z :=
  (st, CMPI_RC_ERR_FAILED).
Definition InternalProviderGetProperty (st : repository) (propName : bytes) : repository * Z := (st, CMPI_RC_ERR_FAILED).

(** ** Associations *)

(** The other up-calls: the classes of the associations of a name space, the instance
    with a path and the status of that call, whether a path is of a class. *)
Context (getassocs : bytes -> option (list (option bytes))).
Context (CBGetInstance : object_path -> option (list bytes) -> option I * Z).
Context (classPathIsA : object_path -> bytes -> bool).
Context {T : Type} `{htab : CharHashTable T (option I)} `{hwalk : !HashTableWalk T (option I)}.

Inductive associatorFunction := ASSOC | ASSOC_NAME | REF | REF_NAME.

Definition has_property (cc : ClClass) (role : option bytes) : option bool :=
  match role with
  | None => Some true
  | Some role => d ← getProperty ref_value inst_at cc role; Some (match d with Some _ => true | None => false end)
  end.

Definition assocForName (ns assocClass : bytes) (role resultRole : option bytes) : option (option ClClass) :=
  match getConstClass ns assocClass with
  | None => Some None
  | Some cc =>
      if negb (isAssociation cc) then Some None
      else
        a ← has_property cc role;
        if negb a then Some None
        else b ← has_property cc resultRole; Some (if (b : bool) then Some cc else None)
  end.

(** Equality of the keys, and the keys of the second path. *)
Definition objectPathEquals (pn : bytes) (op : option object_path) : option (bool * bytes) :=
  op ← op; opn ← normalizeObjectPathStrBuf print_g op; Some (strcmp pn opn =? 0, opn).

Fixpoint add_associations (st : repository) (ns : bytes) (propertyList : option (list bytes)) (names : list (option bytes))
    (refs : list I) : option (list I) :=
  match names with
  | [] => Some refs
  | n :: names =>
      name ← n;
      '(_, refs) ← SafeInternalProviderAddEnumInstances st refs (newObjectPath (Some ns) name) propertyList true;
      add_associations st ns propertyList names refs
  end.

(** The instances of the associations; [None] inside: the class is not known, nothing
    is returned. *)
Definition association_instances (st : repository) (ns : bytes) (assocClass role resultRole : option bytes)
    (propertyList : option (list bytes)) : option (option (list I)) :=
  match assocClass with
  | Some assocClass =>
      cc ← assocForName ns assocClass role resultRole;
      match cc with
      | None => Some None
      | Some _ =>
          '(_, refs) ← SafeInternalProviderAddEnumInstances st [] (newObjectPath (Some ns) assocClass) propertyList true;
          Some (Some refs)
      end
  | None => names ← getassocs ns; refs ← add_associations st ns propertyList names []; Some (Some refs)
  end.

(** Does an association refer to the object: in the role, or in any property. *)
Fixpoint any_equals (pn : bytes) (l : list iprop) : option bool :=
  match l with
  | [] => Some false
  | IRef op :: l => '(eq, _) ← objectPathEquals pn op; if (eq : bool) then Some true else any_equals pn l
  | IOther :: l => any_equals pn l
  end.
Definition refers_to (pn : bytes) (role : option bytes) (ci : I) : option bool :=
  match role with
  | Some role =>
      match inst_property ci role with
      | Some (IRef op) => '(eq, _) ← objectPathEquals pn op; Some eq
      | _ => Some false
      end
  | None => any_equals pn (inst_properties ci)
  end.

Fixpoint filter_refs (pn : bytes) (role : option bytes) (refs : list I) : option (list I) :=
  match refs with
  | [] => Some []
  | ci :: refs => b ← refers_to pn role ci; l ← filter_refs pn role refs; Some (if (b : bool) then ci :: l else l)
  end.

(** The object at the other end of a reference is fetched and put under its keys. *)
Definition is_result (resultClass : option bytes) (ref : object_path) : bool :=
  match resultClass with None => true | Some c => classPathIsA ref c end.

Definition put_result (propertyList : option (list bytes)) (resultClass : option bytes) (pn : bytes) (role_given : bool)
    (t : T) (rc : Z) (op : option object_path) : option (T * Z) :=
  '(eq, an) ← objectPathEquals pn op;
  ref ← op;
  if (eq : bool) || negb (is_result resultClass ref) then Some (t, rc)
  else
    let '(aci, rc) := CBGetInstance ref propertyList in
    Some (if role_given || match aci with Some _ => true | None => false end then ht_put t an aci else t, rc).

Definition with_nameSpace (ns : bytes) (ref : object_path) : option object_path :=
  match nameSpace ref with None => __oft_setNameSpace ref (Some ns) | Some _ => Some ref end.

Fixpoint put_properties (ns : bytes) (propertyList : option (list bytes)) (resultClass : option bytes) (pn : bytes)
    (t : T) (rc : Z) (l : list iprop) : option (T * Z) :=
  match l with
  | [] => Some (t, rc)
  | IRef op :: l =>
      ref ← op; ref ← with_nameSpace ns ref;
      '(t, rc) ← put_result propertyList resultClass pn false t rc (Some ref);
      put_properties ns propertyList resultClass pn t rc l
  | IOther :: l => put_properties ns propertyList resultClass pn t rc l
  end.

Fixpoint collect_associators (ns : bytes) (propertyList : option (list bytes)) (resultClass resultRole : option bytes)
    (pn : bytes) (t : T) (rc : Z) (refs : list I) : option (T * Z) :=
  match refs with
  | [] => Some (t, rc)
  | ci :: refs =>
      '(t, rc) ← match resultRole with
                 | Some resultRole =>
                     match inst_property ci resultRole with
                     | Some (IRef op) => put_result propertyList resultClass pn true t rc op
                     | _ => Some (t, rc)
                     end
                 | None => put_properties ns propertyList resultClass pn t rc (inst_properties ci)
                 end;
      collect_associators ns propertyList resultClass resultRole pn t rc refs
  end.

Definition getRefs (st : repository) (cop : object_path) (assocClass resultClass role resultRole : option bytes)
    (propertyList : option (list bytes)) (f : associatorFunction) : option (Z * list (answer_item I)) :=
  ns ← nameSpace cop;
  refs ← association_instances st ns assocClass role resultRole propertyList;
  match refs with
  | None => Some (CMPI_RC_OK, [])
  | Some refs =>
      pn ← normalizeObjectPathStrBuf print_g cop;
      refs ← filter_refs pn role refs;
      match f with
      | REF => Some (CMPI_RC_OK, as_instances refs)
      | REF_NAME => Some (CMPI_RC_OK, as_paths (inst_path <$> refs))
      | ASSOC | ASSOC_NAME =>
          '(assocs, rc) ← collect_associators ns propertyList resultClass resultRole pn ht_new CMPI_RC_OK refs;
          found ← mapM (M := option) id (ht_values assocs);
          Some (rc, match f with ASSOC => as_instances found | _ => as_paths (inst_path <$> found) end)
      end
  end.

Definition InternalProviderAssociators st cop assocClass resultClass role resultRole propertyList :=
  getRefs st cop assocClass resultClass role resultRole propertyList ASSOC.
Definition InternalProviderAssociatorNames st cop assocClass resultClass role resultRole :=
  getRefs st cop assocClass resultClass role resultRole None ASSOC_NAME.
Definition InternalProviderReferences st cop assocClass role propertyList :=
  getRefs st cop assocClass None role None propertyList REF.
Definition InternalProviderReferenceNames st cop assocClass role :=
  getRefs st cop assocClass None role None None REF_NAME.
End provider.
