(* ===== verification/InternalProviderSpec.v ===== *)
(** * What the internal provider promises

    The repository holds, for every class of every name space, a list of instances with
    different keys: [gmap (bytes * bytes) (list (bytes * I))], by the lower case names.
    Requests for instances act on this map ([spec_step]), whatever the files look like;
    references and associators are what the map says they are. *)

From Stdlib Require Import Floats.SpecFloat.
From S2P Require Import Prelude CString FileRepository HashTable CmpiData ClBuffer StringBuffer ObjectPath ClObject ClClass ConstClass PathText InternalProvider.

(** ** The instances of a repository *)

Abbreviation class_id := (bytes * bytes)%type.
Abbreviation instances I := (gmap (bytes * bytes) (list (bytes * I))).

(** The names of classes that share no file with the book-keeping of the repository. *)
Definition class_ok (cls : bytes) : Prop :=
  (47 ∉ lower cls) /\ (46 ∉ lower cls) /\ lower cls <> cstr "idx" /\ lower cls <> cstr "inst" /\ lower cls <> cstr "qualifiers".

Definition class_of (ns cls : bytes) : class_id := (lower (repositoryNs ns), lower cls).

Section spec.
Context {I : Type} `{ri : RepositoryInstance I}.
Context (print_g : spec_float -> bytes).
Context (is_dir : bytes -> bool) (repDir : bytes) (interopDisabled : bool).
Context (getallchildren : bool -> bytes -> bytes -> option (list (option bytes))).
Context (getConstClass : bytes -> bytes -> option ClClass).

Definition of_class_id (m : instances I) (k : class_id) : list (bytes * I) := default [] (m !! k).

Definition entries (l : list (bytes * I)) : list (bytes * bytes) := (fun e : bytes * I => (e.1, getSerializedInstance e.2)) <$> l.

Fixpoint find_inst (key : bytes) (l : list (bytes * I)) : option I :=
  match l with [] => None | (id, i) :: l => if bool_decide (id = key) then Some i else find_inst key l end.
Definition remove_inst (key : bytes) (l : list (bytes * I)) : list (bytes * I) := filter (fun e => e.1 <> key) l.
Definition put_inst (key : bytes) (i : I) (l : list (bytes * I)) : list (bytes * I) := remove_inst key l ++ [(key, i)].

Definition spec_nameSpace (ns : bytes) : Z :=
  if interopDisabled && (strcasecmp (repositoryNs ns) interopNs =? 0) then CMPI_RC_ERR_FAILED
  else if existingNameSpace is_dir repDir (repositoryNs ns) then CMPI_RC_OK else CMPI_RC_ERR_INVALID_NAMESPACE.

Definition spec_enum (m : instances I) (ns cls : bytes) (properties : option (list bytes)) (ignprov : bool) : list I :=
  c ← omap id (classes_from getallchildren ignprov (repositoryNs ns) cls);
  e ← of_class_id m (class_of ns c);
  [filtered properties e.2].

Inductive request :=
| GetInstance (cop : object_path) (properties : option (list bytes))
| CreateInstance (rslt : bool) (cop : object_path) (ci : I)
| ModifyInstance (cop : object_path) (ci : I) (properties : option (list bytes))
| DeleteInstance (cop : object_path)
| EnumInstances (ref : object_path) (properties : option (list bytes)).

Definition request_path (r : request) : object_path :=
  match r with
  | GetInstance cop _ | CreateInstance _ cop _ | ModifyInstance cop _ _ | DeleteInstance cop | EnumInstances cop _ => cop
  end.

(** A request for the instance with a key of a class. *)
Definition spec_request (m : instances I) (ns cls key : bytes) (r : request) : instances I * Z * list (answer_item I) :=
  let k := class_of ns cls in
  let l := of_class_id m k in
  match r with
  | EnumInstances _ properties => (m, CMPI_RC_OK, as_instances (spec_enum m ns cls properties false))
  | _ =>
      if negb (spec_nameSpace ns =? CMPI_RC_OK) then (m, spec_nameSpace ns, [])
      else
        match r with
        | GetInstance _ properties =>
            match find_inst key l with
            | Some i => (m, CMPI_RC_OK, [RInstance (filtered properties i)])
            | None => (m, CMPI_RC_ERR_NOT_FOUND, [])
            end
        | CreateInstance rslt cop ci =>
            if match getConstClass ns cls with Some cc => isAbstract cc | None => false end
            then (m, CMPI_RC_ERR_NOT_SUPPORTED, [])
            else
              match find_inst key l with
              | Some _ => (m, CMPI_RC_ERR_ALREADY_EXISTS, [])
              | None => (<[k := put_inst key ci l]> m, CMPI_RC_OK, if rslt then [RPath cop] else [])
              end
        | ModifyInstance _ ci properties =>
            match find_inst key l with
            | Some _ => (<[k := put_inst key (filtered properties ci) l]> m, CMPI_RC_OK, [])
            | None => (m, CMPI_RC_ERR_NOT_FOUND, [])
            end
        | DeleteInstance _ =>
            match find_inst key l with
            | Some _ => (<[k := remove_inst key l]> m, CMPI_RC_OK, [])
            | None => (m, CMPI_RC_ERR_NOT_FOUND, [])
            end
        | EnumInstances _ _ => (m, CMPI_RC_OK, [])
        end
  end.

Definition spec_step (m : instances I) (r : request) : option (instances I * Z * list (answer_item I)) :=
  let p := request_path r in
  ns ← nameSpace p; key ← path_key print_g p; Some (spec_request m ns (className p) key r).

Fixpoint spec_run (m : instances I) (l : list request) : option (instances I * list (Z * list (answer_item I))) :=
  match l with
  | [] => Some (m, [])
  | r :: l => '(m, rc, a) ← spec_step m r; '(m, as_) ← spec_run m l; Some (m, (rc, a) :: as_)
  end.

(** ** Requests that fit the format of the files *)

Definition written (r : request) : option I :=
  match r with CreateInstance _ _ ci => Some ci | ModifyInstance _ ci properties => Some (filtered properties ci) | _ => None end.

Definition admissible (m : instances I) (r : request) : Prop :=
  exists ns key, nameSpace (request_path r) = Some ns /\ path_key print_g (request_path r) = Some key /\
    class_ok (className (request_path r)) /\
    match r with
    | EnumInstances ref _ =>
        Forall (fun c => exists b, c = Some b /\ class_ok b) (classes_from getallchildren false (repositoryNs ns) (className ref))
    | _ => key <> [] /\
        forall i, written r = Some i ->
          addable key (getSerializedInstance i) (entries (of_class_id m (class_of ns (className (request_path r)))))
    end.

Fixpoint admissible_all (m : instances I) (l : list request) : Prop :=
  match l with
  | [] => True
  | r :: l => admissible m r /\ match spec_step m r with Some (m', _, _) => admissible_all m' l | None => True end
  end.

(** ** The provider *)

Context (creatable : bytes -> bool).

Definition handle (st : repository) (r : request) : option (repository * Z * list (answer_item I)) :=
  match r with
  | GetInstance cop properties => InternalProviderGetInstance print_g creatable is_dir repDir interopDisabled st cop properties
  | CreateInstance rslt cop ci =>
      InternalProviderCreateInstance print_g creatable is_dir repDir interopDisabled getConstClass st rslt cop ci
  | ModifyInstance cop ci properties =>
      InternalProviderModifyInstance print_g creatable is_dir repDir interopDisabled st cop ci properties
  | DeleteInstance cop => InternalProviderDeleteInstance print_g creatable is_dir repDir interopDisabled st cop
  | EnumInstances ref properties =>
      '(rc, a) ← InternalProviderEnumInstances creatable repDir getallchildren st ref properties; Some (st, rc, a)
  end.

Fixpoint handle_all (st : repository) (l : list request) : option (repository * list (Z * list (answer_item I))) :=
  match l with
  | [] => Some (st, [])
  | r :: l => '(st, rc, a) ← handle st r; '(st, as_) ← handle_all st l; Some (st, (rc, a) :: as_)
  end.

(** The files hold the instances; the name spaces noted are there. *)
Definition holds (st : repository) (m : instances I) : Prop :=
  (forall ns cls, class_ok cls -> FileRepository.stored repDir (repo st) ns cls (entries (of_class_id m (lower ns, lower cls)))) /\
  Forall (fun ns => existingNameSpace is_dir repDir ns = true) (nsTab st).
End spec.
Arguments request : clear implicits.

(** * Names of files *)

Lemma tolower_twice (s : bytes) : tolower <$> (tolower <$> s) = tolower <$> s.
Proof. rewrite <- list_fmap_compose. apply list_fmap_ext. intros i c _. apply tolower_idemp. Qed.

Lemma last_slash (a b x y : bytes) : 47 ∉ x -> 47 ∉ y -> a ++ 47 :: x = b ++ 47 :: y -> a = b /\ x = y.
Proof.
  revert b. induction a as [|c a IH]; intros [|d b] Hx Hy E; simplify_eq/=.
  - done.
  - exfalso. apply Hx, elem_of_app. right. by apply elem_of_cons; left.
  - exfalso. apply Hy, elem_of_app. right. by apply elem_of_cons; left.
  - destruct (IH b Hx Hy) as [-> ->]; done.
Qed.

Section names.
Context (repDir : bytes).

Lemma nsDir_split ns : nsDir repDir ns = (repDir ++ lower ns) ++ [47].
Proof. unfold nsDir, lower. by rewrite fmap_app, app_assoc. Qed.

Lemma same_path ns1 ns2 x y : 47 ∉ x -> 47 ∉ y -> nsDir repDir ns1 ++ x = nsDir repDir ns2 ++ y ->
  lower ns1 = lower ns2 /\ x = y.
Proof.
  rewrite !nsDir_split, <- !(app_assoc _ [47]). intros Hx Hy E.
  destruct (last_slash _ _ _ _ Hx Hy E) as [H%app_inv_head ->]. done.
Qed.

Lemma no_slash_idx (x : bytes) : 47 ∉ x -> 47 ∉ x ++ cstr ".idx".
Proof.
  intros Hx [H|H]%elem_of_app; [done|]. revert H. apply (bool_decide_unpack _). by vm_compute.
Qed.

Lemma dot_idx (x : bytes) : 46 ∈ x ++ cstr ".idx".
Proof. apply elem_of_app. right. apply (bool_decide_unpack _). by vm_compute. Qed.

(** A file of another class is not a file of this one, and no temporary one. *)
Lemma other_files ns cls ns2 cls2 x : class_ok cls -> class_ok cls2 -> (lower ns, lower cls) <> (lower ns2, lower cls2) ->
  x = dataFile repDir ns2 cls2 \/ x = indexFile repDir ns2 cls2 ->
  x <> dataFile repDir ns cls /\ x <> indexFile repDir ns cls /\ x <> tmpIndex repDir ns /\ x <> tmpData repDir ns.
Proof.
  intros (S1 & D1 & X1 & N1 & _) (S2 & D2 & X2 & N2 & _) Hne.
  assert (Si : (47 ∉ cstr "idx") /\ 47 ∉ cstr "inst") by (split; apply (bool_decide_unpack _); by vm_compute).
  assert (Di : (46 ∉ cstr "idx") /\ 46 ∉ cstr "inst") by (split; apply (bool_decide_unpack _); by vm_compute).
  pose proof (dot_idx (lower cls)) as E1. pose proof (dot_idx (lower cls2)) as E2.
  unfold indexFile, dataFile, tmpIndex, tmpData. change (tolower <$> cls) with (lower cls). change (tolower <$> cls2) with (lower cls2).
  rewrite <- !app_assoc.
  intros [-> | ->]; split_and!; intros E; apply same_path in E as [En Ec];
    try (by apply no_slash_idx); try tauto;
    try (apply Hne; congruence); try congruence; try (rewrite <- Ec in *; tauto); try (rewrite Ec in *; tauto).
  apply app_inv_tail in Ec. apply Hne. congruence.
Qed.
End names.

(** * Instance requests *)

Section requests.
Context {I : Type} `{ri : RepositoryInstance I}.
Context (print_g : spec_float -> bytes).
Context (is_dir : bytes -> bool) (repDir : bytes) (interopDisabled : bool).
Context (getallchildren : bool -> bytes -> bytes -> option (list (option bytes))).
Context (getConstClass : bytes -> bytes -> option ClClass).
Context (creatable : bytes -> bool).

(** Files can be created in a directory that is there. *)
Context (Hdir : forall ns f, existingNameSpace is_dir repDir ns = true -> creatable (nsDir repDir ns ++ f) = true).

Implicit Types (st : repository) (m : instances I) (l : list (bytes * I)).

Lemma class_usable ns cls : existingNameSpace is_dir repDir ns = true -> class_ok cls -> usable creatable repDir ns cls.
Proof.
  intros He (_ & _ & Hx & Hn & _). unfold usable, indexFile, dataFile, tmpIndex, tmpData.
  rewrite <- app_assoc. by rewrite !Hdir.
Qed.

Lemma stored_names fs ns cls ns2 cls2 es : lower ns = lower ns2 -> lower cls = lower cls2 ->
  FileRepository.stored repDir fs ns cls es -> FileRepository.stored repDir fs ns2 cls2 es.
Proof.
  intros Hn Hc. unfold FileRepository.stored, indexFile, dataFile. rewrite !nsDir_split.
  change (tolower <$> cls) with (lower cls). change (tolower <$> cls2) with (lower cls2). by rewrite Hn, Hc.
Qed.

Lemma class_ok_lower cls cls2 : lower cls = lower cls2 -> class_ok cls -> class_ok cls2.
Proof. unfold class_ok. by intros ->. Qed.

Lemma stored_other fs fs2 ns cls ns2 cls2 es : class_ok cls -> class_ok cls2 -> (lower ns, lower cls) <> (lower ns2, lower cls2) ->
  others_kept repDir fs fs2 ns cls -> FileRepository.stored repDir fs ns2 cls2 es -> FileRepository.stored repDir fs2 ns2 cls2 es.
Proof.
  intros H1 H2 Hne Hk. unfold FileRepository.stored.
  assert (Hx : forall x, x = dataFile repDir ns2 cls2 \/ x = indexFile repDir ns2 cls2 -> fs2 !! x = fs !! x).
  { intros x Hx. destruct (other_files repDir ns cls ns2 cls2 x H1 H2 Hne Hx) as (? & ? & ? & ?). by apply Hk. }
  rewrite !Hx by tauto. done.
Qed.

(** The state after the files of one class were changed. *)
Lemma holds_update st m fs ns cls l : holds is_dir repDir st m -> class_ok cls ->
  FileRepository.stored repDir fs ns cls (entries l) -> others_kept repDir (repo st) fs ns cls ->
  holds is_dir repDir {| repo := fs; nsTab := nsTab st |} (<[(lower ns, lower cls) := l]> m).
Proof.
  intros [Hs Ht] Hok Hl Hk. split; [|done]. cbn [repo]. intros ns2 cls2 Hok2. unfold of_class_id.
  destruct (decide ((lower ns, lower cls) = (lower ns2, lower cls2))) as [E|E].
  - rewrite <- E, lookup_insert_eq. injection E as En Ec. by apply (stored_names fs ns cls).
  - rewrite lookup_insert_ne by done. apply (stored_other (repo st) fs ns cls); try done. by apply Hs.
Qed.

(** *** The list of a class *)

Lemma entries_keys l : fst <$> entries l = fst <$> l.
Proof. unfold entries. rewrite <- list_fmap_compose. by apply list_fmap_ext. Qed.

Lemma entries_remove key l : entries (remove_inst key l) = spec_remove key (entries l).
Proof.
  unfold remove_inst, spec_remove. induction l as [|[id i] l IH]; [done|].
  change (entries ((id, i) :: l)) with ((id, getSerializedInstance i) :: entries l).
  rewrite !filter_cons. cbn [fst]. destruct (decide (id <> key)); [|exact IH].
  etrans; [|apply (f_equal (cons _) IH)]. done.
Qed.

Lemma entries_put key i l : entries (put_inst key i l) = spec_add key (getSerializedInstance i) (entries l).
Proof. unfold put_inst, spec_add. rewrite <- entries_remove. unfold entries. by rewrite fmap_app. Qed.

Lemma entries_get key l : spec_get false key (entries l) = getSerializedInstance <$> find_inst key l.
Proof.
  induction l as [|[id i] l IH]; [done|]. change (entries ((id, i) :: l)) with ((id, getSerializedInstance i) :: entries l).
  cbn [spec_get find_inst]. unfold key_matches. rewrite IH. by destruct (bool_decide _).
Qed.

Lemma find_inst_in key l : bool_decide (key ∈ fst <$> l) = match find_inst key l with Some _ => true | None => false end.
Proof.
  induction l as [|[id i] l IH]; [done|]. cbn -[bool_decide]. destruct (decide (id = key)) as [->|Hne].
  - rewrite (bool_decide_eq_true_2 (key = key)) by done. apply bool_decide_eq_true_2, elem_of_cons. by left.
  - rewrite (bool_decide_eq_false_2 (id = key)) by done. rewrite <- IH. apply bool_decide_ext.
    rewrite elem_of_cons. split; [intros [->|]; done|by right].
Qed.

Lemma filtered_read properties l :
  (fun e : bytes * bytes => filtered properties (relocateSerializedInstance e.2)) <$> entries l
  = (e ← l; [filtered properties e.2]).
Proof. induction l as [|[k x] l IH]; [done|]. cbn -[filtered]. rewrite relocate_serialized. by f_equal. Qed.

(** *** Each request *)

Abbreviation spec_ns := (spec_nameSpace is_dir repDir interopDisabled).

Lemma existing_nocase ns ns2 : lower ns = lower ns2 -> existingNameSpace is_dir repDir ns = existingNameSpace is_dir repDir ns2.
Proof. unfold existingNameSpace. change (tolower <$> ns) with (lower ns). by intros ->. Qed.

Lemma spec_ns_exists ns : spec_ns ns = CMPI_RC_OK -> existingNameSpace is_dir repDir (repositoryNs ns) = true.
Proof. unfold spec_nameSpace. destruct (_ && _); [done|]. by destruct (existingNameSpace _ _ _). Qed.

Lemma testNameSpace_spec st m ns : holds is_dir repDir st m -> exists st',
  testNameSpace is_dir repDir interopDisabled st (repositoryNs ns) = (st', spec_ns ns) /\
  repo st' = repo st /\ holds is_dir repDir st' m.
Proof.
  intros [Hs Ht]. unfold testNameSpace, spec_nameSpace. destruct (interopDisabled && _); [by exists st|].
  destruct (existsb _ (nsTab st)) eqn:E.
  - apply existsb_exists in E as (nsp & Hin & Hc). exists st. split_and!; try done.
    assert (Hl : lower nsp = lower (repositoryNs ns)) by by apply same_key_nocase.
    rewrite <- (existing_nocase _ _ Hl). rewrite Forall_forall in Ht. by rewrite (Ht nsp) by by apply list_elem_of_In.
  - destruct (existingNameSpace _ _ _) eqn:Ee; [|by exists st]. eexists. split_and!; [done|done|]. split; [done|].
    apply Forall_app. by rewrite Forall_singleton.
Qed.

Lemma class_there st m ns cls key : holds is_dir repDir st m -> class_ok cls -> key <> [] ->
  existingBlob creatable repDir (repo st) (repositoryNs ns) cls key
  = Some (match find_inst key (of_class_id m (class_of ns cls)) with Some _ => true | None => false end) /\
  ipGetBlob creatable repDir st (repositoryNs ns) cls key = Some (find_inst key (of_class_id m (class_of ns cls))).
Proof.
  intros [Hs _] Hok Hk. pose proof (Hs (repositoryNs ns) cls Hok) as Hst.
  destruct (getBlob_refines creatable repDir _ _ _ _ key Hst Hk) as [Hg He]. unfold ipGetBlob. rewrite Hg, He, entries_keys, find_inst_in.
  split; [done|]. cbn [mbind option_bind]. rewrite bool_decide_eq_false_2; [|by intros ->; apply Hok].
  rewrite entries_get. unfold class_of. unfold instifyBlob. destruct (find_inst _ _); [|done].
  cbn. by rewrite relocate_serialized.
Qed.

Lemma class_put st m ns cls key i : holds is_dir repDir st m -> class_ok cls -> spec_ns ns = CMPI_RC_OK ->
  addable key (getSerializedInstance i) (entries (of_class_id m (class_of ns cls))) -> exists fs,
  addBlob creatable repDir (repo st) (repositoryNs ns) cls key (getSerializedInstance i) = Some (0, fs) /\
  holds is_dir repDir {| repo := fs; nsTab := nsTab st |}
    (<[class_of ns cls := put_inst key i (of_class_id m (class_of ns cls))]> m).
Proof.
  intros Hh Hok Hns Ha. pose proof (proj1 Hh (repositoryNs ns) cls Hok) as Hst.
  destruct (addBlob_refines creatable repDir _ _ _ _ key _ (class_usable _ _ (spec_ns_exists _ Hns) Hok) Hst Ha) as (fs & E & Hs & Hk).
  exists fs. split; [done|]. apply holds_update; try done. by rewrite entries_put.
Qed.

Lemma class_remove st m ns cls key : holds is_dir repDir st m -> class_ok cls -> spec_ns ns = CMPI_RC_OK -> key <> [] ->
  exists rc fs, deleteBlob creatable repDir (repo st) (repositoryNs ns) cls key = Some (rc, fs) /\
  holds is_dir repDir {| repo := fs; nsTab := nsTab st |}
    (<[class_of ns cls := remove_inst key (of_class_id m (class_of ns cls))]> m).
Proof.
  intros Hh Hok Hns Hk. pose proof (proj1 Hh (repositoryNs ns) cls Hok) as Hst.
  destruct (deleteBlob_refines creatable repDir _ _ _ _ key (class_usable _ _ (spec_ns_exists _ Hns) Hok) Hst Hk) as (fs & E & Hs & Ho).
  eexists _, fs. split; [done|]. apply holds_update; try done. by rewrite entries_remove.
Qed.

(** The instances of a list of classes. *)
Lemma classes_read st m ns properties classes : holds is_dir repDir st m ->
  Forall (fun c => exists b, c = Some b /\ class_ok b) classes ->
  instances_of_classes creatable repDir st (repositoryNs ns) properties classes
  = Some (c ← omap id classes; e ← of_class_id m (class_of ns c); [filtered properties e.2]).
Proof.
  intros [Hs _]. induction 1 as [|c classes (b & -> & Hok) _ IH]; [done|]. cbn [instances_of_classes mbind option_bind].
  pose proof (enumerate_refines creatable repDir _ _ _ _ (Hs (repositoryNs ns) b Hok)) as He.
  change (_getIndex creatable repDir st (repositoryNs ns) b) with (fst (getIndex creatable repDir (repo st) (repositoryNs ns) b false)).
  assert (E : match fst (getIndex creatable repDir (repo st) (repositoryNs ns) b false) with
              | Some bi => enumerate (repo st) bi | None => Some [] end = Some (entries (of_class_id m (class_of ns b)))).
  { destruct (fst _); [exact He|]. unfold class_of. by rewrite He. }
  rewrite E. cbn [mbind option_bind]. rewrite IH, filtered_read. done.
Qed.

Abbreviation handle_here := (handle print_g is_dir repDir interopDisabled getallchildren getConstClass creatable).
Abbreviation spec_here := (spec_step print_g is_dir repDir interopDisabled getallchildren getConstClass).

Ltac answer := do 4 eexists; split_and!; [reflexivity|reflexivity|done].

(** The start of every request but an enumeration. *)
Ltac enter Hh Hn Hkey ns :=
  unfold path_key in *; rewrite ?Hn, ?Hkey; cbn [mbind option_bind];
  let st' := fresh "st'" in let Et := fresh "Et" in let Er := fresh "Er" in let Hh' := fresh "Hh'" in
  destruct (testNameSpace_spec _ _ ns Hh) as (st' & Et & Er & Hh'); rewrite Et;
  destruct (spec_ns ns =? CMPI_RC_OK) eqn:Hrc; cbn [negb mbind option_bind]; rewrite ?Hrc; [apply Z.eqb_eq in Hrc|answer].

Lemma handle_refines st m (r : request I) : holds is_dir repDir st m -> admissible print_g getallchildren m r ->
  exists st' m' rc a, handle_here st r = Some (st', rc, a) /\ spec_here m r = Some (m', rc, a) /\ holds is_dir repDir st' m'.
Proof.
  intros Hh (ns & key & Hn & Hkey & Hok & Hr). unfold spec_step, spec_request. rewrite Hn, Hkey. cbn [mbind option_bind].
  destruct r as [cop properties|rslt cop ci|cop ci properties|cop|ref properties]; cbn [request_path written handle] in *.
  - destruct Hr as [Hk _]. unfold InternalProviderGetInstance, internalProviderGetInstance. enter Hh Hn Hkey ns.
    destruct (class_there _ m ns _ key Hh' Hok Hk) as [_ ->]. cbn [mbind option_bind].
    destruct (find_inst _ _); answer.
  - destruct Hr as [Hk Ha]. unfold InternalProviderCreateInstance. enter Hh Hn Hkey ns.
    destruct (match getConstClass _ _ with Some cc => isAbstract cc | None => false end); [answer|].
    destruct (class_there _ m ns _ key Hh' Hok Hk) as [-> _]. cbn [mbind option_bind].
    destruct (find_inst _ _); [answer|].
    destruct (class_put _ m ns _ key ci Hh' Hok Hrc (Ha _ eq_refl)) as (fs & -> & Hp). answer.
  - destruct Hr as [Hk Ha]. unfold InternalProviderModifyInstance. enter Hh Hn Hkey ns.
    destruct (class_there _ m ns _ key Hh' Hok Hk) as [-> _]. cbn [mbind option_bind].
    destruct (find_inst _ _); [|answer].
    destruct (class_put _ m ns _ key _ Hh' Hok Hrc (Ha _ eq_refl)) as (fs & -> & Hp). answer.
  - destruct Hr as [Hk _]. unfold InternalProviderDeleteInstance. enter Hh Hn Hkey ns.
    destruct (class_there _ m ns _ key Hh' Hok Hk) as [-> _]. cbn [mbind option_bind].
    destruct (find_inst _ _); [|answer].
    destruct (class_remove _ m ns _ key Hh' Hok Hrc Hk) as (rc & fs & -> & Hp). answer.
  - unfold InternalProviderEnumInstances, enumInstances. rewrite Hn. cbn [mbind option_bind].
    rewrite (classes_read st m ns properties _ Hh Hr). answer.
Qed.

(** C29: whatever requests for instances come one after the other, the provider is never
    undefined: its answers are those of the lists of instances with different keys per
    class, and the files go on to hold these lists. *)
Theorem requests_refine st m (rs : list (request I)) : holds is_dir repDir st m ->
  admissible_all print_g is_dir repDir interopDisabled getallchildren getConstClass m rs ->
  exists st' m' answers,
    handle_all print_g is_dir repDir interopDisabled getallchildren getConstClass creatable st rs = Some (st', answers) /\
    spec_run print_g is_dir repDir interopDisabled getallchildren getConstClass m rs = Some (m', answers) /\
    holds is_dir repDir st' m'.
Proof.
  revert st m. induction rs as [|r rs IH]; intros st m Hh Ha; [by exists st, m, []|]. destruct Ha as [Hr Hrs].
  destruct (handle_refines st m r Hh Hr) as (st1 & m1 & rc & a & E1 & E2 & Hh1).
  rewrite E2 in Hrs. destruct (IH st1 m1 Hh1 Hrs) as (st2 & m2 & l & E3 & E4 & Hh2).
  exists st2, m2, ((rc, a) :: l). cbn [handle_all spec_run]. by rewrite E1, E2; cbn [mbind option_bind]; rewrite E3, E4.
Qed.

(** A modification keeps nothing of the instance that was stored: with a list of
    properties, those that are not in the list are lost. *)
Lemma modify_replaces m ns cls key cop ci properties old : spec_ns ns = CMPI_RC_OK ->
  find_inst key (of_class_id m (class_of ns cls)) = Some old ->
  fst (fst (spec_request is_dir repDir interopDisabled getallchildren getConstClass m ns cls key (ModifyInstance cop ci properties)))
  = <[class_of ns cls := put_inst key (filtered properties ci) (of_class_id m (class_of ns cls))]> m.
Proof. intros Hns Hf. unfold spec_request. rewrite Hns, Hf. done. Qed.

(** *** Enumerating the paths *)

(** The text is parsed to the path, and there is room for it. *)
Definition text_of_path (t : bytes) (p : object_path) : Prop :=
  getObjectPath print_g (Some t) = Some (Some p) /\ strlen t < copKey_size.

Definition spec_texts m (nss cls : bytes) : list bytes :=
  c ← omap id (classes_from getallchildren false (repositoryNs nss) cls);
  e ← of_class_id m (class_of nss c);
  [copKey nss c e.1].

Lemma collect_at_end fuel bi es : dSize bi <= FileRepository.next bi -> collect fuel (getNext bi) = Some es -> es = [].
Proof.
  intros Hn. destruct fuel as [|fuel]; [done|]. unfold getNext, getIndexRecord, getIndexRecordCase.
  rewrite (proj2 (Z.leb_le _ _)) by done. cbn [collect mbind option_bind]. destruct (fd bi); [|done]. cbn. by intros [= <-].
Qed.

Lemma class_paths_read nss cns fuel : forall r es ps, collect fuel r = Some es ->
  Forall2 text_of_path ((fun e => copKey nss cns e.1) <$> es) ps -> class_paths print_g fuel nss cns r = Some (ps, CMPI_RC_OK).
Proof.
  induction fuel as [|fuel IH]; intros r es ps Hc HF; [done|]. cbn [collect class_paths] in *.
  destruct r as [[[e|] bi]|]; cbn [mbind option_bind] in *; [| |done].
  - destruct (collect fuel (getNext bi)) as [es'|] eqn:E; [|done]. injection Hc as <-.
    apply Forall2_cons_inv_l in HF as (p & ps' & [Hp Hl] & HF & ->). destruct e as [kp blob]. cbn [fst] in *.
    rewrite (proj2 (Z.leb_gt _ _)), Hp by done. cbn [mbind option_bind].
    destruct (Z.ltb_spec (FileRepository.next bi) (dSize bi)) as [Hlt|Hge]; [by rewrite (IH _ _ _ E HF)|].
    apply (collect_at_end _ _ _ Hge) in E as ->. by apply Forall2_nil_inv_l in HF as ->.
  - injection Hc as <-. by apply Forall2_nil_inv_l in HF as ->.
Qed.

Lemma paths_read st m nss classes : holds is_dir repDir st m ->
  Forall (fun c => exists b, c = Some b /\ class_ok b) classes -> forall ps,
  Forall2 text_of_path (c ← omap id classes; e ← of_class_id m (class_of nss c); [copKey nss c e.1]) ps ->
  paths_of_classes print_g creatable repDir st nss classes = Some (ps, CMPI_RC_OK).
Proof.
  intros [Hs _]. induction 1 as [|c classes (b & -> & Hok) _ IH]; intros ps HF; [by apply Forall2_nil_inv_l in HF as ->|].
  change (omap id (Some b :: classes)) with (b :: omap id classes) in HF.
  apply (Forall2_app_inv_l _ (of_class_id m (class_of nss b) ≫= fun e => [copKey nss b e.1])) in HF
    as (ps1 & ps2 & H1 & H2 & ->).
  assert (Hk : (of_class_id m (class_of nss b) ≫= fun e => [copKey nss b e.1])
               = (fun e => copKey nss b e.1) <$> entries (of_class_id m (class_of nss b))).
  { generalize (of_class_id m (class_of nss b)). intros l. induction l as [|[k x] l IHl]; [done|]. cbn. by f_equal. }
  rewrite Hk in H1. cbn [paths_of_classes mbind option_bind].
  pose proof (enumerate_refines creatable repDir _ _ _ _ (Hs (repositoryNs nss) b Hok)) as He.
  change (_getIndex creatable repDir st (repositoryNs nss) b) with (fst (getIndex creatable repDir (repo st) (repositoryNs nss) b false)).
  assert (E : match fst (getIndex creatable repDir (repo st) (repositoryNs nss) b false) with
              | Some bi => class_paths print_g (S (length (FileRepository.index bi))) nss b (getFirst (repo st) bi)
              | None => Some ([], CMPI_RC_OK) end = Some (ps1, CMPI_RC_OK)).
  { destruct (fst _); [by apply (class_paths_read _ _ _ _ _ _ He)|]. unfold class_of in H1. rewrite He in H1.
    by apply Forall2_nil_inv_l in H1 as ->. }
  rewrite E. cbn [mbind option_bind]. by rewrite (IH ps2 H2).
Qed.

Lemma names_enumerated st m nss ref ps : holds is_dir repDir st m -> nameSpace ref = Some nss ->
  Forall (fun c => exists b, c = Some b /\ class_ok b) (classes_from getallchildren false (repositoryNs nss) (className ref)) ->
  Forall2 text_of_path (spec_texts m nss (className ref)) ps ->
  InternalProviderEnumInstanceNames print_g creatable repDir getallchildren st ref
  = Some (CMPI_RC_OK, as_paths (I := I) ps).
Proof.
  intros Hh Hn Hc HF. unfold InternalProviderEnumInstanceNames. rewrite Hn. cbn [mbind option_bind].
  by rewrite (paths_read st m nss _ Hh Hc ps HF).
Qed.
End requests.

Lemma holds_empty {I : Type} `{RepositoryInstance I} is_dir repDir tab :
  Forall (fun ns => existingNameSpace is_dir repDir ns = true) tab ->
  holds (I := I) is_dir repDir {| repo := ∅; nsTab := tab |} ∅.
Proof.
  intros Ht. split; [|done]. intros ns cls _. unfold of_class_id. rewrite lookup_empty.
  split_and!; [constructor|done|left; apply lookup_empty].
Qed.

(** * Witnesses *)

(** Instances of an association are the texts of its two references. *)
Definition wit_print : spec_float -> bytes := fun _ => [].
Definition wit_ref (t : bytes) : iprop := IRef (mjoin (getObjectPath wit_print (Some t))).
Definition wit_bar (i : bytes) : option (bytes * bytes) := r ← strchr i 124; Some (cut i r, drop 1 r).
#[export] Instance wit_instance : RepositoryInstance bytes.
Proof.
  refine {| getSerializedInstance := id; relocateSerializedInstance := id; setPropertyFilter := fun i _ => i;
    inst_properties := fun i => match wit_bar i with Some (a, b) => [wit_ref a; wit_ref b] | None => [IOther] end;
    inst_property := fun i n => ab ← wit_bar i;
      if strcasecmp n (cstr "Antecedent") =? 0 then Some (wit_ref (fst ab))
      else if strcasecmp n (cstr "Dependent") =? 0 then Some (wit_ref (snd ab)) else None;
    inst_path := fun _ => newObjectPath (Some (cstr "root/cimv2")) (cstr "CIM_Assoc") |}.
  done.
Defined.

Definition wit_space : bytes := cstr "n".
Definition wit_class : bytes := cstr "C".
Definition wit_children : bool -> bytes -> bytes -> option (list (option bytes)) := fun _ _ _ => Some [].
Definition wit_noclass : bytes -> bytes -> option ClClass := fun _ _ => None.
Definition wit_name (n : bytes) : CMPIData := {| d_type := CMPI_chars; d_array := false; d_state := 0; d_value := VChars n |}.
Definition wit_path (cls n : bytes) : object_path :=
  {| nameSpace := Some wit_space; hostName := None; className := cls; keys := [(cstr "Name", wit_name n)] |}.
Definition wit_key (n : bytes) : bytes := cstr "name=" ++ [34] ++ n ++ [34].
Definition wit_requests : list (request bytes) :=
  [CreateInstance true (wit_path wit_class (cstr "a")) (cstr "one"); CreateInstance true (wit_path wit_class (cstr "a")) (cstr "two");
   ModifyInstance (wit_path (cstr "c") (cstr "a")) (cstr "new") None; EnumInstances (wit_path wit_class []) None;
   DeleteInstance (wit_path wit_class (cstr "a")); GetInstance (wit_path wit_class (cstr "a")) None].

Ltac check := apply (bool_decide_unpack _); vm_compute; exact Logic.I.
(** The class of the paths with these instances. *)
Definition wit_holding (l : list (bytes * bytes)) : instances bytes := <[class_of wit_space wit_class := l]> ∅.
Ltac admissible_here n l rc a :=
  split; [exists wit_space, (wit_key n); split; [reflexivity|split; [vm_compute; reflexivity|split; [split_and!; check|]]]
         |match goal with |- context [spec_step ?print ?dir ?rep ?dis ?below ?cls ?m ?r] =>
            replace (spec_step print dir rep dis below cls m r) with (Some (wit_holding l, rc, a)) by (vm_compute; reflexivity)
          end; cbv beta iota].

Lemma requests_refine_witness : exists st',
  handle_all wit_print wit_all wit_dir false wit_children wit_noclass wit_all {| repo := ∅; nsTab := [] |} wit_requests
  = Some (st', [(0, [RPath (wit_path wit_class (cstr "a"))]); (11, []); (0, []); (0, [RInstance (cstr "new")]); (0, []); (6, [])]).
Proof.
  destruct (requests_refine wit_print wit_all wit_dir false wit_children wit_noclass wit_all (fun _ _ _ => eq_refl)
              {| repo := ∅; nsTab := [] |} ∅ wit_requests (holds_empty _ _ [] (Forall_nil_2 _))) as (st' & m' & answers & E & Es & _).
  - admissible_here (cstr "a") [(wit_key (cstr "a"), cstr "one")] 0 [@RPath bytes (wit_path wit_class (cstr "a"))].
    { split; [done|]. intros i [= <-]. split_and!; by vm_compute. }
    admissible_here (cstr "a") [(wit_key (cstr "a"), cstr "one")] 11 (@nil (answer_item bytes)).
    { split; [done|]. intros i [= <-]. split_and!; by vm_compute. }
    admissible_here (cstr "a") [(wit_key (cstr "a"), cstr "new")] 0 (@nil (answer_item bytes)).
    { split; [done|]. intros i [= <-]. split_and!; by vm_compute. }
    admissible_here (@nil Z) [(wit_key (cstr "a"), cstr "new")] 0 [@RInstance bytes (cstr "new")].
    { constructor; [|constructor]. eexists. split; [reflexivity|split_and!; check]. }
    admissible_here (cstr "a") (@nil (bytes * bytes)) 0 (@nil (answer_item bytes)).
    { split; [done|]. by intros i ?. }
    admissible_here (cstr "a") (@nil (bytes * bytes)) 6 (@nil (answer_item bytes)).
    { split; [done|]. by intros i ?. }
    exact Logic.I.
  - exists st'. rewrite E. apply (f_equal (fmap snd)) in Es. vm_compute in Es. by injection Es as <-.
Defined.
