(* ===== verification/InternalAssociations.v ===== *)
(** * The associations of the internal provider

    What [getRefs] of internalProvider.c returns, in terms of the instances that the
    repository holds (InternalProviderSpec.v): the references are the association
    instances that refer to the object, and the associators are the objects at their
    other ends, each once. *)

From Stdlib Require Import Floats.SpecFloat.
From S2P Require Import Prelude CString FileRepository HashTable CmpiData ClBuffer StringBuffer ObjectPath ClObject ClClass ConstClass InternalProvider InternalProviderSpec.

Section associations.
Context {I : Type} `{ri : RepositoryInstance I}.
Context (print_g : spec_float -> bytes).
Context (creatable is_dir : bytes -> bool) (repDir : bytes).
Context (getallchildren : bool -> bytes -> bytes -> option (list (option bytes))).
Context (getConstClass : bytes -> bytes -> option ClClass).
Context (ref_value : bytes -> option CMPIValue) (inst_at : ClObjectHdr -> Z -> option CMPIValue).
Context (getassocs : bytes -> option (list (option bytes))).
Context (CBGetInstance : object_path -> option (list bytes) -> option I * Z).
Context (classPathIsA : object_path -> bytes -> bool).

Abbreviation keys_of := (normalizeObjectPathStrBuf print_g).

(** A reference with keys. *)
Definition good_ref (x : iprop) : Prop := forall op, x = IRef op -> exists p k, op = Some p /\ keys_of p = Some k.
Definition good_instance (ci : I) : Prop :=
  Forall good_ref (inst_properties ci) /\ forall name x, inst_property ci name = Some x -> good_ref x.

(** The association [ci] refers to the object with the keys [pn]: the class of the path is
    not looked at. *)
Definition refers (pn : bytes) (role : option bytes) (ci : I) : Prop :=
  exists p, keys_of p = Some pn /\
    match role with
    | Some role => inst_property ci role = Some (IRef (Some p))
    | None => IRef (Some p) ∈ inst_properties ci
    end.

(** It refers to the object [cop] itself, by its class and keys; [keys_tell]: it refers to
    no object of another class that has the same keys. *)
Definition same_object (p cop : object_path) : Prop :=
  strcasecmp (className p) (className cop) = 0 /\ keys_of p = keys_of cop.
Definition refers_object (cop : object_path) (role : option bytes) (ci : I) : Prop :=
  exists p, same_object p cop /\
    match role with
    | Some role => inst_property ci role = Some (IRef (Some p))
    | None => IRef (Some p) ∈ inst_properties ci
    end.
Definition keys_tell (cop : object_path) (ci : I) : Prop :=
  forall p, IRef (Some p) ∈ inst_properties ci \/ (exists name, inst_property ci name = Some (IRef (Some p))) ->
    keys_of p = keys_of cop -> same_object p cop.

Lemma refers_same cop pn role ci : keys_of cop = Some pn -> keys_tell cop ci -> refers pn role ci <-> refers_object cop role ci.
Proof.
  intros Hpn Ht. unfold refers, refers_object. split; intros (p & Hp & Hr); exists p; (split; [|done]).
  - apply Ht; [|by rewrite Hp]. destruct role as [r|]; [right; by exists r|by left].
  - destruct Hp as [_ ->]. done.
Qed.

(** The instances of the association class, or of all. *)
Definition candidates (m : instances I) (ns : bytes) (assocClass : option bytes) (propertyList : option (list bytes)) : list I :=
  c ← match assocClass with Some c => [c] | None => omap id (default [] (getassocs ns)) end;
  spec_enum getallchildren m ns c propertyList true.

Definition below_ok (ns cls : bytes) : Prop :=
  Forall (fun c => exists b, c = Some b /\ class_ok b) (classes_from getallchildren true (repositoryNs ns) cls).

Definition known_associations (ns : bytes) (assocClass role resultRole : option bytes) : Prop :=
  match assocClass with
  | Some c => below_ok ns c /\ exists cc, assocForName getConstClass ref_value inst_at ns c role resultRole = Some (Some cc)
  | None => exists l, getassocs ns = Some l /\ Forall (fun n => exists c, n = Some c /\ below_ok ns c) l
  end.

(** The references of an association at whose other end an object is looked for. *)
Definition in_nameSpace (ns : bytes) (p : object_path) : object_path :=
  match nameSpace p with
  | None => {| nameSpace := Some ns; hostName := hostName p; className := className p; keys := keys p |}
  | Some _ => p
  end.
Definition ref_of (x : iprop) : option object_path := match x with IRef op => op | IOther => None end.
Definition ends (ns : bytes) (resultRole : option bytes) (ci : I) : list object_path :=
  match resultRole with
  | Some r => option_list (x ← inst_property ci r; ref_of x)
  | None => in_nameSpace ns <$> omap ref_of (inst_properties ci)
  end.

(** An object at the other end: its keys, and the instance that was fetched. *)
Definition other_end (m : instances I) (ns : bytes) (assocClass resultClass role resultRole : option bytes)
    (propertyList : option (list bytes)) (pn k : bytes) (aci : I) : Prop :=
  exists ci p, ci ∈ candidates m ns assocClass propertyList /\ refers pn role ci /\ p ∈ ends ns resultRole ci /\
    keys_of p = Some k /\ k <> pn /\ is_result classPathIsA resultClass p = true /\ fst (CBGetInstance p propertyList) = Some aci.

(** What is put into the table for an end. *)
Definition put_of (propertyList : option (list bytes)) (resultClass : option bytes) (pn : bytes) (role_given : bool)
    (p : object_path) : option (bytes * option I) :=
  k ← keys_of p;
  if bool_decide (k = pn) || negb (is_result classPathIsA resultClass p) then None
  else match fst (CBGetInstance p propertyList) with
       | Some aci => Some (k, Some aci)
       | None => if role_given then Some (k, None) else None
       end.

(** ** The candidates and the references *)

Lemma instances_below st m ns cls propertyList : holds is_dir repDir st m -> below_ok ns cls ->
  enumInstances creatable repDir getallchildren st (newObjectPath (Some ns) cls) propertyList true
  = Some (CMPI_RC_OK, spec_enum getallchildren m ns cls propertyList true).
Proof.
  intros Hh Hok. unfold enumInstances. cbn [nameSpace newObjectPath className mbind option_bind].
  by rewrite (classes_read is_dir repDir creatable st m ns propertyList _ Hh Hok).
Qed.

Lemma associations_added st m ns propertyList l : holds is_dir repDir st m ->
  Forall (fun n => exists c, n = Some c /\ below_ok ns c) l -> forall refs,
  add_associations creatable repDir getallchildren st ns propertyList l refs
  = Some (refs ++ (c ← omap id l; spec_enum getallchildren m ns c propertyList true)).
Proof.
  intros Hh. induction 1 as [|n l (c & -> & Hok) _ IH]; intros refs; [by rewrite app_nil_r|].
  cbn [add_associations mbind option_bind]. unfold SafeInternalProviderAddEnumInstances.
  rewrite (instances_below st m ns c propertyList Hh Hok). cbn [mbind option_bind]. rewrite IH, <- app_assoc. done.
Qed.

Lemma candidates_read st m ns assocClass role resultRole propertyList : holds is_dir repDir st m ->
  known_associations ns assocClass role resultRole ->
  association_instances creatable repDir getallchildren getConstClass ref_value inst_at getassocs st ns assocClass role resultRole propertyList
  = Some (Some (candidates m ns assocClass propertyList)).
Proof.
  intros Hh Hk. unfold association_instances, candidates. destruct assocClass as [c|].
  - destruct Hk as [Hok [cc ->]]. unfold SafeInternalProviderAddEnumInstances. cbn [mbind option_bind].
    rewrite (instances_below st m ns c propertyList Hh Hok). cbn. by rewrite app_nil_r.
  - destruct Hk as (l & -> & Hl). cbn [mbind option_bind default]. by rewrite (associations_added st m ns propertyList l Hh Hl).
Qed.

Lemma equals_keys pn p k : keys_of p = Some k ->
  objectPathEquals print_g pn (Some p) = Some (bool_decide (k = pn), k).
Proof.
  intros Hk. unfold objectPathEquals. cbn [mbind option_bind]. rewrite Hk. cbn [mbind option_bind]. do 2 f_equal.
  apply eq_true_iff_eq. rewrite Z.eqb_eq, strcmp_eq, bool_decide_eq_true. by split.
Qed.

Lemma any_equals_spec pn l : Forall good_ref l -> exists b, any_equals print_g pn l = Some b /\
  (b = true <-> exists p, keys_of p = Some pn /\ IRef (Some p) ∈ l).
Proof.
  induction 1 as [|x l Hx _ (b & E & Hb)]; [exists false; split; [done|]; split; [done|by intros (p & _ & ?%elem_of_nil)]|].
  destruct x as [op|]; cbn [any_equals].
  - destruct (Hx op eq_refl) as (p & k & -> & Hk). rewrite (equals_keys pn p k Hk). cbn [mbind option_bind].
    destruct (decide (k = pn)) as [->|Hne].
    + rewrite bool_decide_eq_true_2 by done. exists true. split; [done|]. split; [|done]. intros _. exists p.
      split; [done|]. apply elem_of_cons. by left.
    + rewrite bool_decide_eq_false_2 by done. exists b. split; [done|]. rewrite Hb. split; intros (q & Hq & Hin); exists q.
      * split; [done|]. apply elem_of_cons. by right.
      * split; [done|]. apply elem_of_cons in Hin as [[= ->]|Hin]; [congruence|done].
  - exists b. split; [done|]. rewrite Hb. split; intros (q & Hq & Hin); exists q; (split; [done|]).
    + apply elem_of_cons. by right.
    + by apply elem_of_cons in Hin as [?|?].
Qed.

Lemma refers_to_spec pn role ci : good_instance ci -> exists b, refers_to print_g pn role ci = Some b /\ (b = true <-> refers pn role ci).
Proof.
  intros [Hp Hn]. unfold refers_to, refers. destruct role as [r|]; [|by apply any_equals_spec].
  destruct (inst_property ci r) as [[op|]|] eqn:E; [|exists false; split; [done|]; split; [done|by intros (? & _ & ?)]..].
  destruct (Hn r _ E op eq_refl) as (p & k & -> & Hk). rewrite (equals_keys pn p k Hk). cbn [mbind option_bind].
  eexists. split; [done|]. rewrite bool_decide_eq_true. split; [intros ->; by exists p|]. intros (q & Hq & [= <-]). congruence.
Qed.

Lemma filter_refs_spec pn role l : Forall good_instance l -> exists out, filter_refs print_g pn role l = Some out /\
  out `sublist_of` l /\ forall ci, ci ∈ out <-> ci ∈ l /\ refers pn role ci.
Proof.
  induction 1 as [|ci l Hci _ (out & E & Hs & Hin)].
  { exists []. split_and!; [done|done|]. intros ci. split; [by intros ?%elem_of_nil|by intros [?%elem_of_nil _]]. }
  destruct (refers_to_spec pn role ci Hci) as (b & Eb & Hb). cbn [filter_refs]. rewrite Eb. cbn [mbind option_bind]. rewrite E.
  eexists. split; [done|]. destruct b; (split; [by constructor|]); intros x; rewrite !elem_of_cons, Hin.
  - split; [intros [->|[? ?]]; split; try tauto; by apply Hb|tauto].
  - split; [tauto|]. intros [[->|?] Hr]; [by apply Hb in Hr|tauto].
Qed.

Context {T : Type} `{htab : CharHashTable T (option I)} `{hwalk : !HashTableWalk T (option I)}.

(** C31: [References], for an association class that is known or for all of them, returns
    the instances of the association class and of the classes below it that have a
    reference with the keys of the object - in the role, when one is given -, in the order
    of the repository.  The class of a reference is not compared with that of the object;
    when no reference to an object of another class has the same keys ([keys_tell]), these
    are the instances that refer to the object itself.  The references of the instances
    have keys ([good_instance]). *)
Theorem references_found st m cop ns pn assocClass role propertyList :
  holds is_dir repDir st m -> nameSpace cop = Some ns -> keys_of cop = Some pn ->
  known_associations ns assocClass role None -> Forall good_instance (candidates m ns assocClass propertyList) ->
  exists out,
    InternalProviderReferences (T := T) print_g creatable repDir getallchildren getConstClass ref_value inst_at getassocs
      CBGetInstance classPathIsA st cop assocClass role propertyList = Some (CMPI_RC_OK, as_instances out) /\
    out `sublist_of` candidates m ns assocClass propertyList /\
    (forall ci, ci ∈ out <-> ci ∈ candidates m ns assocClass propertyList /\ refers pn role ci) /\
    (Forall (keys_tell cop) (candidates m ns assocClass propertyList) ->
     forall ci, ci ∈ out <-> ci ∈ candidates m ns assocClass propertyList /\ refers_object cop role ci).
Proof.
  intros Hh Hn Hpn Hk Hg. unfold InternalProviderReferences, getRefs. rewrite Hn. cbn [mbind option_bind].
  rewrite (candidates_read st m ns assocClass role None propertyList Hh Hk), Hpn. cbn [mbind option_bind].
  destruct (filter_refs_spec pn role _ Hg) as (out & -> & Hs & Hin). exists out. split_and!; [done..|].
  intros Ht ci. rewrite Hin. split; intros [Hci Hr]; (split; [done|]);
    by apply (refers_same cop pn role ci Hpn (proj1 (Forall_forall _ _) Ht ci Hci)).
Qed.

(** ** The table of the associators *)

Definition puts_of (ns : bytes) (propertyList : option (list bytes)) (resultClass resultRole : option bytes) (pn : bytes) (ci : I) :
    list (bytes * option I) :=
  omap (put_of propertyList resultClass pn (match resultRole with Some _ => true | None => false end)) (ends ns resultRole ci).

Lemma put_result_spec propertyList resultClass pn given (t : T) rc p k : keys_of p = Some k -> exists rc',
  put_result print_g CBGetInstance classPathIsA propertyList resultClass pn given t rc (Some p)
  = Some (ht_puts t (option_list (put_of propertyList resultClass pn given p)), rc').
Proof.
  intros Hk. unfold put_result, put_of. rewrite (equals_keys pn p k Hk), Hk. cbn [mbind option_bind].
  destruct (bool_decide (k = pn) || _); [by exists rc|].
  destruct (CBGetInstance p propertyList) as [[aci|] rc']; cbn [fst]; exists rc'; [by rewrite orb_true_r|].
  by destruct given.
Qed.

Lemma in_nameSpace_keys ns p : keys_of (in_nameSpace ns p) = keys_of p.
Proof. unfold in_nameSpace. by destruct (nameSpace p). Qed.

Lemma ht_puts_app (t : T) (l1 l2 : list (bytes * option I)) : ht_puts t (l1 ++ l2) = ht_puts (ht_puts t l1) l2.
Proof. apply foldl_app. Qed.

Lemma with_nameSpace_spec ns p : with_nameSpace ns p = Some (in_nameSpace ns p).
Proof. unfold with_nameSpace, in_nameSpace, __oft_setNameSpace. by destruct (nameSpace p) eqn:E; rewrite ?E. Qed.

Lemma put_properties_spec ns propertyList resultClass pn l : Forall good_ref l -> forall (t : T) rc, exists rc',
  put_properties print_g CBGetInstance classPathIsA ns propertyList resultClass pn t rc l
  = Some (ht_puts t (omap (put_of propertyList resultClass pn false) (in_nameSpace ns <$> omap ref_of l)), rc').
Proof.
  induction 1 as [|x l Hx _ IH]; intros t rc; [by exists rc|]. destruct x as [op|]; [|apply IH].
  destruct (Hx op eq_refl) as (p & k & -> & Hk). cbn [put_properties mbind option_bind]. rewrite with_nameSpace_spec.
  cbn [mbind option_bind]. rewrite <- (in_nameSpace_keys ns) in Hk.
  destruct (put_result_spec propertyList resultClass pn false t rc _ k Hk) as [rc1 ->]. cbn [mbind option_bind].
  destruct (IH (ht_puts t (option_list (put_of propertyList resultClass pn false (in_nameSpace ns p)))) rc1) as [rc' ->].
  exists rc'. do 2 f_equal. cbn [omap list_omap ref_of fmap list_fmap].
  destruct (put_of propertyList resultClass pn false (in_nameSpace ns p)) as [e|]; [|done]. apply (eq_sym (ht_puts_app t [e] _)).
Qed.

Lemma collect_spec ns propertyList resultClass resultRole pn l : Forall good_instance l -> forall (t : T) rc, exists rc',
  collect_associators print_g CBGetInstance classPathIsA ns propertyList resultClass resultRole pn t rc l
  = Some (ht_puts t (ci ← l; puts_of ns propertyList resultClass resultRole pn ci), rc').
Proof.
  induction 1 as [|ci l [Hp Hn] _ IH]; intros t rc; [by exists rc|]. cbn [collect_associators].
  assert (E : exists rc1, match resultRole with
    | Some resultRole =>
        match inst_property ci resultRole with
        | Some (IRef op) => put_result print_g CBGetInstance classPathIsA propertyList resultClass pn true t rc op
        | _ => Some (t, rc)
        end
    | None => put_properties print_g CBGetInstance classPathIsA ns propertyList resultClass pn t rc (inst_properties ci)
    end = Some (ht_puts t (puts_of ns propertyList resultClass resultRole pn ci), rc1)).
  { unfold puts_of, ends. destruct resultRole as [r|]; [|by apply put_properties_spec].
    destruct (inst_property ci r) as [[op|]|] eqn:E; [|by exists rc..].
    destruct (Hn r _ E op eq_refl) as (p & k & -> & Hk). cbn [mbind option_bind ref_of option_list omap list_omap].
    destruct (put_result_spec propertyList resultClass pn true t rc p k Hk) as [rc1 ->]. by exists rc1. }
  destruct E as [rc1 ->]. cbn [mbind option_bind].
  destruct (IH (ht_puts t (puts_of ns propertyList resultClass resultRole pn ci)) rc1) as [rc' ->].
  exists rc'. do 2 f_equal. apply (eq_sym (ht_puts_app _ _ _)).
Qed.

Lemma get_puts_exact (t : T) (l : list (bytes * option I)) k v : ht_ignoreCase (CharHashTable := htab) = false ->
  ht_get (ht_puts t l) k = Some v -> (k, v) ∈ l \/ ht_get t k = Some v.
Proof.
  intros Hic. revert t. induction l as [|[k0 v0] l IH]; intros t Hg; [by right|].
  destruct (IH (ht_put t k0 v0) Hg) as [Hin|Hp]; [left; apply elem_of_cons; by right|].
  rewrite ht_get_put, Hic in Hp. destruct (same_key false k0 k) eqn:E; [|by right].
  apply same_key_exact in E as ->. injection Hp as ->. left. apply elem_of_cons. by left.
Qed.

Lemma get_puts_there (l : list (bytes * option I)) k v : ht_ignoreCase (CharHashTable := htab) = false -> forall t : T,
  (k, v) ∈ l \/ ht_get t k = Some v -> exists v', ht_get (ht_puts t l) k = Some v'.
Proof.
  intros Hic. revert v. induction l as [|[k0 v0] l IH]; intros v t Hin.
  - destruct Hin as [?%elem_of_nil|?]; [done|by exists v].
  - destruct (decide (k0 = k)) as [->|Hne].
    + apply (IH v0). right. by rewrite ht_get_put, same_key_refl.
    + apply (IH v). destruct Hin as [[[= Ek _]|Hin]%elem_of_cons|Hg]; [congruence|by left|right].
      rewrite ht_get_put, Hic. cbn [fst snd]. destruct (same_key false k0 k) eqn:E; [|done]. by apply same_key_exact in E.
Qed.

Lemma put_of_spec propertyList resultClass pn given p k v : put_of propertyList resultClass pn given p = Some (k, v) ->
  keys_of p = Some k /\ k <> pn /\ is_result classPathIsA resultClass p = true /\ v = fst (CBGetInstance p propertyList) /\
  (given = false -> is_Some v).
Proof.
  unfold put_of. destruct (keys_of p) as [k0|] eqn:Hk; [|done]. cbn [mbind option_bind].
  case_bool_decide as Hne; [done|]. destruct (is_result classPathIsA resultClass p) eqn:Hr; [|done]. cbn [negb orb].
  destruct (fst (CBGetInstance p propertyList)) as [aci|]; [by intros [= <- <-]|]. destruct given; [|done].
  intros [= <- <-]. by split_and!.
Qed.

(** With a result role, every object at the other end can be fetched. *)
Definition all_fetched (m : instances I) (ns : bytes) (assocClass resultClass resultRole : option bytes) (propertyList : option (list bytes)) : Prop :=
  resultRole <> None -> forall ci p, ci ∈ candidates m ns assocClass propertyList -> p ∈ ends ns resultRole ci ->
    is_result classPathIsA resultClass p = true -> is_Some (fst (CBGetInstance p propertyList)).

Lemma mapM_id_Some {A} (l : list A) : mapM (M := option) id (Some <$> l) = Some l.
Proof. induction l as [|x l IH]; [done|]. cbn. by rewrite IH. Qed.

(** What is in the table are the other ends. *)
Lemma other_end_put m ns assocClass resultClass role resultRole propertyList pn refs k aci :
  (forall ci, ci ∈ refs <-> ci ∈ candidates m ns assocClass propertyList /\ refers pn role ci) ->
  other_end m ns assocClass resultClass role resultRole propertyList pn k aci ->
  (k, Some aci) ∈ (ci ← refs; puts_of ns propertyList resultClass resultRole pn ci).
Proof.
  intros Hin (ci & p & Hci & Hr & Hp & Hk & Hne & Hres & Hg). apply list_elem_of_bind. exists ci. split; [|by apply Hin].
  apply list_elem_of_omap. exists p. split; [done|]. unfold put_of. rewrite Hk. cbn [mbind option_bind].
  by rewrite bool_decide_eq_false_2, Hres, Hg.
Qed.

Lemma put_other_end m ns assocClass resultClass role resultRole propertyList pn refs k v :
  (forall ci, ci ∈ refs <-> ci ∈ candidates m ns assocClass propertyList /\ refers pn role ci) ->
  all_fetched m ns assocClass resultClass resultRole propertyList ->
  (k, v) ∈ (ci ← refs; puts_of ns propertyList resultClass resultRole pn ci) ->
  exists aci, v = Some aci /\ other_end m ns assocClass resultClass role resultRole propertyList pn k aci.
Proof.
  intros Hin Hf (ci & Hp & Hci)%list_elem_of_bind. apply list_elem_of_omap in Hp as (p & Hp & Hput).
  apply put_of_spec in Hput as (Hk & Hne & Hr & -> & Hs). apply Hin in Hci as [Hci Hrefers].
  assert (Hsome : is_Some (fst (CBGetInstance p propertyList))).
  { destruct resultRole; [by eapply Hf|by apply Hs]. }
  destruct Hsome as [aci Ha]. exists aci. split; [done|]. by exists ci, p.
Qed.

Lemma values_fetched m ns assocClass resultClass role resultRole propertyList pn refs ks vs :
  ht_ignoreCase (CharHashTable := htab) = false ->
  (forall ci, ci ∈ refs <-> ci ∈ candidates m ns assocClass propertyList /\ refers pn role ci) ->
  all_fetched m ns assocClass resultClass resultRole propertyList ->
  Forall2 (fun k v => ht_get (ht_puts (T := T) ht_new (ci ← refs; puts_of ns propertyList resultClass resultRole pn ci)) k = Some v) ks vs ->
  exists found, vs = Some <$> found /\ Forall2 (other_end m ns assocClass resultClass role resultRole propertyList pn) ks found.
Proof.
  intros Hic Hin Hf. induction 1 as [|k v ks vs Hg _ (found & -> & HF)]; [by exists []|].
  apply get_puts_exact in Hg as [Hg|Hg]; [|by rewrite ht_get_new in Hg|done].
  destruct (put_other_end _ _ _ _ _ _ _ _ refs k v Hin Hf Hg) as (aci & -> & Ho). exists (aci :: found). split; [done|by constructor].
Qed.

(** C30: [Associators], for an association class that is known or for all of them, returns
    the objects at the other ends of the associations that have a reference with the keys
    of the object, as they are fetched: one for each set of keys and no others, also when
    several associations lead to it.  Objects are told apart by their keys only, not by
    their classes ([same_keys_hidden], [same_keys_merged]).  The references of the
    instances have keys ([good_instance]), and when a result role is given every object at
    the other end can be fetched ([all_fetched]; else a null pointer is returned). *)
Theorem associators_once st m cop ns pn assocClass resultClass role resultRole propertyList `{!HashTableOnce T (option I)} :
  ht_ignoreCase (CharHashTable := htab) = false ->
  holds is_dir repDir st m -> nameSpace cop = Some ns -> keys_of cop = Some pn ->
  known_associations ns assocClass role resultRole -> Forall good_instance (candidates m ns assocClass propertyList) ->
  all_fetched m ns assocClass resultClass resultRole propertyList ->
  exists rc ks out,
    InternalProviderAssociators (T := T) print_g creatable repDir getallchildren getConstClass ref_value inst_at getassocs
      CBGetInstance classPathIsA st cop assocClass resultClass role resultRole propertyList = Some (rc, as_instances out) /\
    NoDup ks /\ Forall2 (other_end m ns assocClass resultClass role resultRole propertyList pn) ks out /\
    forall k aci, other_end m ns assocClass resultClass role resultRole propertyList pn k aci -> k ∈ ks.
Proof.
  intros Hic Hh Hn Hpn Hk Hg Hf. unfold InternalProviderAssociators, getRefs. rewrite Hn. cbn [mbind option_bind].
  rewrite (candidates_read st m ns assocClass role resultRole propertyList Hh Hk), Hpn. cbn [mbind option_bind].
  destruct (filter_refs_spec pn role _ Hg) as (refs & -> & Hs & Hin). cbn [mbind option_bind].
  assert (Hgr : Forall good_instance refs).
  { apply Forall_forall. intros ci [Hci _]%Hin. by apply (proj1 (Forall_forall _ _) Hg). }
  destruct (collect_spec ns propertyList resultClass resultRole pn refs Hgr ht_new CMPI_RC_OK) as [rc ->]. cbn [mbind option_bind].
  set (L := mbind _ refs).
  destruct (ht_values_once (ht_puts ht_new L)) as (ks & Hnd & HF & Hall). rewrite Hic in Hnd, Hall.
  destruct (values_fetched m ns assocClass resultClass role resultRole propertyList pn refs ks (ht_values (ht_puts ht_new L)) Hic Hin Hf HF)
    as (found & -> & HF2).
  exists rc, ks, found. split_and!.
  - by rewrite mapM_id_Some.
  - apply (NoDup_fmap_1 _) in Hnd. done.
  - done.
  - intros k aci He. apply (other_end_put m ns assocClass resultClass role resultRole propertyList pn refs k aci Hin) in He.
    destruct (get_puts_there L k (Some aci) Hic (ht_new : T) (or_introl He)) as [v' Hv'].
    destruct (Hall k ltac:(by eexists)) as (k' & Hk' & ->%same_key_exact). done.
Qed.
End associations.

(** * Witnesses *)

Definition wit_assoc : bytes := cstr "L".
Definition wit_end (n : bytes) : bytes := cstr "n:C.Name=" ++ [34] ++ n ++ [34].
Definition wit_link (a b : bytes) : bytes := wit_end a ++ [124] ++ wit_end b.
Definition wit_getassocs : bytes -> option (list (option bytes)) := fun _ => Some [Some wit_assoc].
Definition wit_get : object_path -> option (list bytes) -> option bytes * Z :=
  fun p _ => (normalizeObjectPathStrBuf wit_print p, 0).
Definition wit_isa : object_path -> bytes -> bool := fun _ _ => true.
Definition wit_value : bytes -> option CMPIValue := fun _ => None.
Definition wit_inst_at : ClObjectHdr -> Z -> option CMPIValue := fun _ _ => None.

Definition wit_end_path (n : bytes) : object_path :=
  default (newObjectPath None []) (mjoin (getObjectPath wit_print (Some (wit_end n)))).

(** Two associations lead between a and b, one from c to d. *)
Definition wit_links : list (bytes * bytes) :=
  [(cstr "k=1", wit_link (cstr "a") (cstr "b")); (cstr "k=2", wit_link (cstr "b") (cstr "a"));
   (cstr "k=3", wit_link (cstr "c") (cstr "d"))].
Definition wit_stored : instances bytes :=
  foldl (fun m e => <[class_of wit_space wit_assoc := put_inst e.1 e.2 (of_class_id m (class_of wit_space wit_assoc))]> m) ∅ wit_links.

#[local] Instance wit_table : CharHashTable (list (bytes * option bytes)) (option bytes) := assoc_table false.
#[local] Instance wit_table_walk : HashTableWalk (list (bytes * option bytes)) (option bytes) := assoc_walk false.
#[local] Instance wit_table_once : HashTableOnce (list (bytes * option bytes)) (option bytes) := assoc_once false.

Lemma wit_links_held : exists st, holds wit_all wit_dir st wit_stored.
Proof.
  unfold wit_stored, wit_links.
  pose proof (holds_empty (I := bytes) wit_all wit_dir [] (Forall_nil_2 _)) as H0. cbn [foldl].
  assert (Hok : class_ok wit_assoc) by (split_and!; check).
  destruct (class_put wit_all wit_dir false wit_children wit_noclass wit_all (fun _ _ _ => eq_refl) _ _ wit_space wit_assoc (cstr "k=1") (wit_link (cstr "a") (cstr "b")) H0 Hok)
    as (fs1 & _ & H1); [done|split_and!; by vm_compute|].
  destruct (class_put wit_all wit_dir false wit_children wit_noclass wit_all (fun _ _ _ => eq_refl) _ _ wit_space wit_assoc (cstr "k=2") (wit_link (cstr "b") (cstr "a")) H1 Hok)
    as (fs2 & _ & H2); [done|split_and!; by vm_compute|].
  destruct (class_put wit_all wit_dir false wit_children wit_noclass wit_all (fun _ _ _ => eq_refl) _ _ wit_space wit_assoc (cstr "k=3") (wit_link (cstr "c") (cstr "d")) H2 Hok)
    as (fs3 & _ & H3); [done|split_and!; by vm_compute|].
  by eexists.
Qed.

Definition good_refb (x : iprop) : bool :=
  match x with IRef op => bool_decide (is_Some (op ≫= normalizeObjectPathStrBuf wit_print)) | IOther => true end.
Lemma good_refb_ok x : good_refb x = true -> good_ref wit_print x.
Proof.
  intros H op ->. cbn in H. apply bool_decide_eq_true in H as [k Hk]. destruct op as [p|]; [by exists p, k|done].
Qed.

Lemma good_link (i : bytes) : match wit_bar i with Some (a, b) => good_refb (wit_ref a) && good_refb (wit_ref b) = true | None => True end ->
  good_instance wit_print i.
Proof.
  unfold good_instance. cbn [inst_properties inst_property wit_instance]. destruct (wit_bar i) as [[a b]|].
  - intros [Ha Hb]%andb_true_iff. split.
    + repeat constructor; by apply good_refb_ok.
    + intros name x. cbn [mbind option_bind fst snd]. repeat case_match; intros [= <-]; by apply good_refb_ok.
  - intros _. split; [by repeat constructor; intros ? ?|done].
Qed.

Definition wit_candidates : list bytes := candidates wit_children wit_getassocs wit_stored wit_space None None.
Lemma wit_candidates_good : Forall (good_instance wit_print) wit_candidates.
Proof.
  assert (E : wit_candidates = snd <$> wit_links) by (vm_compute; reflexivity). rewrite E. unfold wit_links. cbn [fmap list_fmap snd].
  repeat (constructor; [apply good_link; vm_compute; reflexivity|]). constructor.
Qed.

Lemma wit_known role : known_associations wit_children wit_noclass wit_value wit_inst_at wit_getassocs wit_space None role None.
Proof.
  exists [Some wit_assoc]. split; [done|]. repeat constructor. exists wit_assoc. split; [done|].
  constructor; [|constructor]. exists wit_assoc. split; [done|]. split_and!; check.
Qed.

Lemma references_found_witness : exists st out,
  InternalProviderReferences (T := list (bytes * option bytes)) wit_print wit_all wit_dir wit_children wit_noclass wit_value wit_inst_at
    wit_getassocs wit_get wit_isa st (wit_path wit_class (cstr "a")) None (Some (cstr "Dependent")) None = Some (0, as_instances out) /\
  wit_link (cstr "b") (cstr "a") ∈ out.
Proof.
  destruct wit_links_held as [st Hh].
  destruct (references_found wit_print wit_all wit_all wit_dir wit_children wit_noclass wit_value wit_inst_at wit_getassocs wit_get wit_isa
              (T := list (bytes * option bytes)) st wit_stored (wit_path wit_class (cstr "a")) wit_space (wit_key (cstr "a")) None
              (Some (cstr "Dependent")) None Hh eq_refl eq_refl (wit_known _) wit_candidates_good) as (out & E & _ & Hin & _).
  exists st, out. split; [exact E|]. apply Hin. split; [check|].
  exists (wit_end_path (cstr "a")). split; vm_compute; reflexivity.
Defined.

Lemma associators_once_witness : exists st rc ks out,
  InternalProviderAssociators (T := list (bytes * option bytes)) wit_print wit_all wit_dir wit_children wit_noclass wit_value wit_inst_at
    wit_getassocs wit_get wit_isa st (wit_path wit_class (cstr "a")) None None None None None = Some (rc, as_instances out) /\
  NoDup ks /\ length ks = length out /\ wit_key (cstr "b") ∈ ks.
Proof.
  destruct wit_links_held as [st Hh].
  destruct (associators_once wit_print wit_all wit_all wit_dir wit_children wit_noclass wit_value wit_inst_at wit_getassocs wit_get wit_isa
              (htab := wit_table) st wit_stored (wit_path wit_class (cstr "a")) wit_space (wit_key (cstr "a")) None
              None None None None eq_refl Hh eq_refl eq_refl (wit_known _) wit_candidates_good ltac:(by intros ?))
    as (rc & ks & out & E & Hnd & HF & Hall).
  exists st, rc, ks, out. split_and!; [exact E|done|by eapply Forall2_length|].
  apply (Hall _ (wit_key (cstr "b"))). exists (wit_link (cstr "a") (cstr "b")).
  exists (wit_end_path (cstr "b")). split_and!; [check| | | |by vm_compute|done|vm_compute; reflexivity].
  - exists (wit_end_path (cstr "a")). split; [vm_compute; reflexivity|]. vm_compute. apply elem_of_cons. by left.
  - vm_compute. apply elem_of_cons. right. apply elem_of_cons. by left.
  - vm_compute. reflexivity.
Defined.

(** The class of a path is not compared: an object with the keys of the first one is not
    at the other end of anything, and two objects with the same keys are one. *)
Definition wit_end_of (cls n : bytes) : bytes := cstr "n:" ++ cls ++ cstr ".Name=" ++ [34] ++ n ++ [34].

Example same_keys_hidden : collect_associators (T := list (bytes * option bytes)) wit_print wit_get wit_isa wit_space None None None
  (wit_key (cstr "a")) ht_new 0 [wit_end_of (cstr "C") (cstr "a") ++ [124] ++ wit_end_of (cstr "D") (cstr "a")] = Some ([], 0).
Proof. vm_compute. reflexivity. Qed.

Example same_keys_merged : (fun r : list (bytes * option bytes) * Z => length (ht_values (fst r))) <$>
  collect_associators wit_print wit_get wit_isa wit_space None None None (wit_key (cstr "a")) ht_new 0
    [wit_end (cstr "a") ++ [124] ++ wit_end_of (cstr "D") (cstr "b"); wit_end (cstr "a") ++ [124] ++ wit_end_of (cstr "E") (cstr "b")]
  = Some 1%nat.
Proof. vm_compute. reflexivity. Qed.
