(* ===== verification/Instance.v ===== *)
(** * CMPI instances (instance.c, the instances of objectImpl.c)

    An instance is a serialized object ([ClInstance]) with a filter: the list of the
    properties that it is to have, and its keys.  Reading and storing properties by
    position and by name, the path of an instance, setting a filter, creation from a
    path with the default values of the class, copies, comparison and texts.

    References are read as the text of the path they are parsed to.  How the memory of
    an instance is tracked is left out.  [None] is undefined behaviour. *)

From Stdlib Require Import Floats.SpecFloat.
From S2P Require Import Prelude CString HashTable CmpiData ClBuffer StringBuffer ObjectPath ClObject ClClass NativeArray ConstClass.

Definition CMPI_keyValue : Z := 512.
Definition CMPI_RC_ERR_INVALID_CLASS : Z := 5.
Definition CMPI_RC_ERR_INVALID_HANDLE : Z := 60.
Definition ClProperty_Filtered : Z := 4.

(** ** The object *)

Definition isInstance (inst : ClInstance) : bool := hdr_type (i_hdr inst) =? HDR_Instance.
Definition ClInstanceGetPropertyCount (inst : ClInstance) : Z := used (i_properties inst).
Definition ClInstanceGetClassName (inst : ClInstance) : option (option bytes) := ClObjectGetClString (i_hdr inst) (i_className inst).
Definition ClInstanceGetNameSpace (inst : ClInstance) : option (option bytes) := ClObjectGetClString (i_hdr inst) (i_nameSpace inst).
Definition ClGetStringData (inst : ClInstance) (id : Z) : option (option bytes) := ClObjectGetClString (i_hdr inst) id.

Definition with_names (inst : ClInstance) (hdr : ClObjectHdr) (cn ns : Z) : ClInstance :=
  {| i_hdr := hdr; i_quals := i_quals inst; i_className := cn; i_nameSpace := ns;
     i_qualifiers := i_qualifiers inst; i_properties := i_properties inst |}.
Definition with_properties (inst : ClInstance) (s : ClSection ClProperty) : ClInstance :=
  {| i_hdr := i_hdr inst; i_quals := i_quals inst; i_className := i_className inst; i_nameSpace := i_nameSpace inst;
     i_qualifiers := i_qualifiers inst; i_properties := s |}.

Definition property_at (inst : ClInstance) (id : Z) : option ClProperty :=
  if id <? 0 then None else section_list (i_properties inst) !! Z.to_nat id.
Definition ClInstanceIsPropertyAtFiltered (inst : ClInstance) (id : Z) : option bool :=
  p ← property_at inst id; Some (negb (Z.land (p_flags p) ClProperty_Filtered =? 0)).
Definition ClInstanceFilterFlagProperty (inst : ClInstance) (id : Z) : option ClInstance :=
  p ← property_at inst id;
  Some (with_properties inst (set_item (i_properties inst) (Z.to_nat id)
    {| p_data := p_data p; p_id := p_id p; p_refName := p_refName p; p_flags := Z.lor (p_flags p) ClProperty_Filtered;
       p_quals := p_quals p; p_originId := p_originId p; p_qualifiers := p_qualifiers p |})).

(** ** The handle *)

Record native_instance := {
  hdl : option ClInstance; filtered : bool; property_list : option (list bytes); key_list : option (list bytes)
}.
Definition with_hdl (i : native_instance) (inst : ClInstance) : native_instance :=
  {| hdl := Some inst; filtered := filtered i; property_list := property_list i; key_list := key_list i |}.

Definition __contained_list (list : option (list bytes)) (name : bytes) : bool :=
  match list with Some l => existsb (fun x => strcasecmp x name =? 0) l | None => false end.

(** The names of the keys of a path; a null pointer when there are none. *)
Definition __make_key_list (cop : option object_path) : option (list bytes) :=
  match cop with
  | Some cop => match keys cop with [] => None | l => Some (fst <$> l) end
  | None => None
  end.

(** What the key tables of the process hold: the names of the keys of a class. *)
Abbreviation key_names := (list (option bytes)).

Section instances.
Context (print_g : spec_float -> bytes).
(** The embedded instance at a place of the string buffer. *)
Context (inst_at : ClObjectHdr -> Z -> option CMPIValue).
Context (getConstClass : option bytes -> option bytes -> option ClClass).

(** ** Paths as values *)

Definition path_value (p : option object_path) : option CMPIValue :=
  match p with None => Some NULL | Some p => t ← sfcb_pathToChars print_g p; Some (VRef t) end.
Definition ref_value (text : option bytes) : option CMPIValue := p ← getObjectPath print_g text; path_value p.

(** ** Reading *)

Definition instance_value (hdr : ClObjectHdr) (d : CMPIData) : option read_value :=
  if simple_type d CMPI_chars then str ← string_of hdr d; Some (RData (data_typed d CMPI_string (VString str)))
  else if simple_type d CMPI_dateTime then
    str ← string_of hdr d; Some (RData (data_with d match str with Some s => date_from_chars s | None => NULL end))
  else if d_array d then
    i ← word_of (d_value d); a ← ClObjectGetClArray hdr i; Some (RCells d a)
  else if simple_type d CMPI_instance then
    i ← word_of (d_value d); v ← inst_at hdr i; Some (RData (data_with d v))
  else Some (RData d).

Definition ClInstanceGetPropertyAt (inst : ClInstance) (id : Z) : option (option (read_value * option bytes * Z)) :=
  p ← item_of (i_properties inst) id;
  match p with
  | None => Some None
  | Some p =>
      r ← instance_value (i_hdr inst) (p_data p);
      name ← ClObjectGetClString (i_hdr inst) (p_id p);
      Some (Some (r, name, p_quals p))
  end.

(** What the accessors make of it: a reference is parsed, an array gets its elements. *)
Definition handed_out (hdr : ClObjectHdr) (r : read_value) : option CMPIData :=
  match r with
  | RData d =>
      if simple_type d CMPI_ref then str ← string_of hdr d; v ← ref_value str; Some (data_with d v) else Some d
  | RCells d _ => with_array (fun s => ref_value (Some s)) inst_at hdr r
  end.

(** [None] inside: [CMPI_RC_ERR_NO_SUCH_PROPERTY]. *)
Definition __ift_internal_getPropertyAt (inst : ClInstance) (i : Z) : option (option (CMPIData * option bytes)) :=
  r ← ClInstanceGetPropertyAt inst (s32 i);
  match r with
  | None => Some None
  | Some (r, name, _) => d ← handed_out (i_hdr inst) r; Some (Some (d, name))
  end.

(** The accessors: a null handle is an error too. *)
Inductive found (A : Type) := Found (a : A) | Missing (rc : Z).
Arguments Found {A}. Arguments Missing {A}.

Definition __ift_getPropertyAt (ci : native_instance) (i : Z) : option (found (CMPIData * option bytes)) :=
  match hdl ci with
  | None => Some (Missing CMPI_RC_ERR_INVALID_HANDLE)
  | Some inst =>
      r ← __ift_internal_getPropertyAt inst i;
      Some (match r with Some x => Found x | None => Missing CMPI_RC_ERR_NO_SUCH_PROPERTY end)
  end.

Definition __ift_getProperty (ci : native_instance) (id : option bytes) : option (found CMPIData) :=
  match hdl ci with
  | None => Some (Missing CMPI_RC_ERR_INVALID_HANDLE)
  | Some inst =>
      match id with
      | None => Some (Missing CMPI_RC_ERR_NO_SUCH_PROPERTY)
      | Some id =>
          i ← ClObjectLocateProperty (i_hdr inst) (i_properties inst) id;
          if negb (i =? 0) then
            r ← __ift_getPropertyAt ci (i - 1);
            Some (match r with Found (d, _) => Found d | Missing rc => Missing rc end)
          else Some (Missing CMPI_RC_ERR_NO_SUCH_PROPERTY)
      end
  end.

Definition __ift_getPropertyCount (ci : native_instance) : Z * Z :=
  match hdl ci with
  | None => (0, CMPI_RC_ERR_INVALID_HANDLE)
  | Some inst => (ClInstanceGetPropertyCount inst, CMPI_RC_OK)
  end.

(** ** Storing *)

(** The data item that is stored for a value; for the type [chars] the pointer to the
    value is the text. *)
Definition set_data_of (value : option CMPIValue) (type : CMPIType) (array : bool) : option CMPIData :=
  '(t, v) ← (if array then v ← sfcb_setAlignedValue NULL value CMPI_ptr; Some (type, v)
             else match type with
                  | CMPI_chars => Some (type, default NULL value)
                  | CMPI_string =>
                      match value with
                      | Some (VString hdl) => Some (CMPI_chars, chars_of hdl)
                      | None => Some (CMPI_chars, NULL)
                      | Some v => if is_NULL v then Some (CMPI_chars, NULL) else None
                      end
                  | _ => v ← sfcb_setAlignedValue NULL value type; Some (type, v)
                  end);
  let null := ((CMPI_ENC type || array) && is_NULL v) || match value with None => true | _ => false end in
  Some {| d_type := t; d_array := array; d_state := if null then CMPI_nullValue else 0; d_value := v |}.

(** The property is flagged before the result is looked at. *)
Definition __ift_setProperty (i : native_instance) (name : bytes) (value : option CMPIValue) (type : CMPIType) (array : bool) :
    option (native_instance * Z) :=
  match hdl i with
  | None => Some (i, CMPI_RC_ERR_INVALID_HANDLE)
  | Some inst =>
      d ← set_data_of value type array;
      if negb (filtered i) || match property_list i with None => true | Some _ => false end ||
         __contained_list (property_list i) name || __contained_list (key_list i) name
      then
        '(rc, inst) ← ClInstanceAddProperty inst name d;
        inst ← (if filtered i && negb (__contained_list (property_list i) name) && __contained_list (key_list i) name
                then ClInstanceFilterFlagProperty inst (rc - 1) else Some inst);
        Some (with_hdl i inst, if rc <? 0 then - rc else CMPI_RC_OK)
      else Some (i, CMPI_RC_OK)
  end.

Definition filterFlagProperty (ci : native_instance) (id : bytes) : option (native_instance * Z) :=
  inst ← hdl ci;
  i ← ClObjectLocateProperty (i_hdr inst) (i_properties inst) id;
  if negb (i =? 0) then inst ← ClInstanceFilterFlagProperty inst (i - 1); Some (with_hdl ci inst, CMPI_RC_OK)
  else Some (ci, CMPI_RC_ERR_NOT_FOUND).

(** ** Creation *)

(** A key as [CMGetKeyAt] returns it. *)
Definition key_data (k : key_value) : option CMPIData :=
  match k with
  | KeyData d => Some d
  | KeyRef q => v ← path_value q; Some {| d_type := CMPI_ref; d_array := false; d_state := 0; d_value := v |}
  end.

(** The keys become properties, the last one first. *)
Fixpoint set_keys_down (i : native_instance) (cop : object_path) (j : nat) : option native_instance :=
  match j with
  | O => Some i
  | S j =>
      k ← opGetKeyCharsAt print_g cop (Z.of_nat j);
      '(name, k) ← k;
      d ← key_data k;
      '(i, _) ← __ift_setProperty i name (Some (d_value d)) (d_type d) (d_array d);
      set_keys_down i cop j
  end.

(** The default values of the properties of the class, the last one first. *)
Definition default_value (d : CMPIData) : option CMPIValue :=
  if is_null (d_state d) then
    if negb (CMPI_ENC (d_type d)) && negb (bool_decide (d_type d = CMPI_null)) && negb (d_array d) then None else Some NULL
  else Some (d_value d).

Definition is_embedded (cc : ClClass) (pn : bytes) : option bool :=
  q ← getPropQualifier (fun s => ref_value (Some s)) inst_at cc pn (cstr "EmbeddedObject");
  Some (match q with
        | Some q => (d_state q =? 0) && match d_value q with VWord w => w mod 256 =? 1 | _ => false end
        | None => false
        end).

Fixpoint set_defaults (i : native_instance) (cc : ClClass) (pc : nat) : option native_instance :=
  match pc with
  | O => Some i
  | S pc =>
      r ← getPropertyAt (fun s => ref_value (Some s)) inst_at cc (Z.of_nat pc);
      '(pd, pn) ← r;
      pn ← pn;
      e ← is_embedded cc pn;
      let t := if (e : bool) then CMPI_instance else d_type pd in
      let a := if e then false else d_array pd in
      let pd := {| d_type := t; d_array := a; d_state := d_state pd; d_value := d_value pd |} in
      '(i, _) ← __ift_setProperty i pn (default_value pd) t a;
      set_defaults i cc pc
  end.

(** [known]: the class was found before, under its name alone. *)
Definition instFillDefaultProperties (i : native_instance) (known : option ClClass) (ns cn : option bytes) : option native_instance :=
  match (match known with Some cc => Some cc | None => getConstClass ns cn end) with
  | Some cc => set_defaults i cc (Z.to_nat (getPropertyCount cc))
  | None => Some i
  end.

Definition internal_new_CMPIInstance (known : option ClClass) (cop : option object_path) (override : bool) : option native_instance :=
  let '(ns, cn) := match cop with
                   | Some cop => (nameSpace cop, Some (className cop))
                   | None => (Some (cstr "*NoNameSpace*"), Some (cstr "*NoClassName*"))
                   end in
  inst ← newInstanceH ns cn;
  let i := {| hdl := Some inst; filtered := false; property_list := None; key_list := None |} in
  i ← (if override then Some i else instFillDefaultProperties i known ns cn);
  match cop with Some cop => set_keys_down i cop (length (keys cop)) | None => Some i end.
Definition TrackedCMPIInstance known (cop : object_path) := internal_new_CMPIInstance known (Some cop) false.
Definition NewCMPIInstance known (cop : object_path) := internal_new_CMPIInstance known (Some cop) false.

Definition __ift_clone (i : native_instance) : option (option native_instance) :=
  match hdl i with
  | None => Some None
  | Some inst => r ← rebuildInstanceH inst; Some (Some (with_hdl i (snd r)))
  end.

(** What goes into a message, and what the receiver makes of it: the lists of the filter
    are not sent, the flag is. *)
Definition SIZEOF_native_instance : Z := 48.
Definition getInstanceSerializedSize (i : native_instance) : option Z :=
  inst ← hdl i; Some (sizeInstanceH inst + SIZEOF_native_instance).
Definition getSerializedInstance (i : native_instance) : option native_instance :=
  inst ← hdl i; r ← rebuildInstanceH inst; Some (with_hdl i (snd r)).
Definition relocateSerializedInstance (i : native_instance) : native_instance :=
  {| hdl := hdl i; filtered := filtered i; property_list := None; key_list := None |}.

(** [CreationClassName] and [SystemCreationClassName] of a path and its instance. *)
Definition setCCN (cop : object_path) (ci : native_instance) (sccn : bytes) : option (object_path * native_instance) :=
  cop ← __oft_addKey cop (cstr "creationclassname") (Some (VChars (className cop))) CMPI_chars false;
  '(ci, _) ← __ift_setProperty ci (cstr "creationclassname") (Some (VChars (className cop))) CMPI_chars false;
  cop ← __oft_addKey cop (cstr "systemcreationclassname") (Some (VChars sccn)) CMPI_chars false;
  '(ci, _) ← __ift_setProperty ci (cstr "systemcreationclassname") (Some (VChars sccn)) CMPI_chars false;
  Some (cop, ci).

(** ** The path of an instance *)

Context {T : Type} `{htab : CharHashTable T key_names}.

Definition add_key (cop : object_path) (name : option bytes) (d : CMPIData) : option object_path :=
  name ← name; __oft_addKey cop name (Some (d_value d)) (d_type d) (d_array d).

(** The properties that are keys, the last one first; an array that is not null is
    released. *)
Fixpoint key_properties (inst : ClInstance) (cop : object_path) (f : nat) (j : nat) : option (object_path * nat) :=
  match j with
  | O => Some (cop, f)
  | S j =>
      r ← __ift_internal_getPropertyAt inst (Z.of_nat j);
      '(d, name) ← match r with Some x => Some x | None => None end;
      '(cop, f) ← (if negb (Z.land (d_state d) CMPI_keyValue =? 0) then cop ← add_key cop name d; Some (cop, S f)
                   else Some (cop, f));
      if d_array d && negb (is_null (d_state d)) && is_NULL (d_value d) then None
      else key_properties inst cop f j
  end.

(** The keys of the class that are properties of the instance. *)
Fixpoint listed_keys (ci : native_instance) (cop : object_path) (kl : key_names) : option object_path :=
  match kl with
  | [] => Some cop
  | n :: kl =>
      d ← __ift_getProperty ci n;
      cop ← match d with Found d => add_key cop n d | Missing _ => Some cop end;
      listed_keys ci cop kl
  end.

(** The path is a null pointer when the class is not known.  The names of the keys of a
    class are kept by its name, whatever its name space is. *)
Definition __ift_getObjectPath (klt : T) (ci : native_instance) : option (T * (option object_path * Z)) :=
  match hdl ci with
  | None => Some (klt, (None, CMPI_RC_ERR_INVALID_HANDLE))
  | Some inst =>
      cn ← ClInstanceGetClassName inst;
      ns ← ClInstanceGetNameSpace inst;
      cn ← cn;
      '(cop, f) ← key_properties inst (newObjectPath ns cn) 0 (Z.to_nat (ClInstanceGetPropertyCount inst));
      match f with
      | S _ => Some (klt, (Some cop, CMPI_RC_OK))
      | O =>
          match ht_get klt cn with
          | Some kl => cop ← listed_keys ci cop kl; Some (klt, (Some cop, CMPI_RC_OK))
          | None =>
              match getConstClass ns (Some cn) with
              | None => Some (klt, (None, CMPI_RC_ERR_INVALID_CLASS))
              | Some cc =>
                  kl ← getKeyList (fun s => ref_value (Some s)) inst_at cc;
                  cop ← listed_keys ci cop kl;
                  Some (ht_put klt cn kl, (Some cop, CMPI_RC_OK))
              end
          end
      end
  end.

(** ** The filter *)

(** The value a property is set to: nothing when its state says more than that it is a key. *)
Definition kept_value (d : CMPIData) : option CMPIValue :=
  if Z.ldiff (d_state d) CMPI_keyValue =? 0 then Some (d_value d) else None.

(** The properties that are in one of the lists are set in the new instance. *)
Fixpoint copy_listed (inst : ClInstance) (propertyList keys : option (list bytes)) (n : nat) (j : Z) (i : native_instance) :
    option native_instance :=
  match n with
  | O => Some i
  | S n =>
      r ← __ift_internal_getPropertyAt inst j;
      '(d, name) ← match r with Some x => Some x | None => None end;
      name ← name;
      i ← (if __contained_list propertyList name || __contained_list keys name
           then '(i, _) ← __ift_setProperty i name (kept_value d) (d_type d) (d_array d); Some i
           else Some i);
      copy_listed inst propertyList keys n (j + 1) i
  end.

Definition __ift_internal_setPropertyFilter (ci : native_instance) (propertyList keys : option (list bytes)) : option native_instance :=
  inst ← hdl ci;
  cn ← ClInstanceGetClassName inst;
  ns ← ClInstanceGetNameSpace inst;
  cn ← cn;
  i ← internal_new_CMPIInstance None (Some (newObjectPath ns cn)) true;
  copy_listed inst propertyList keys (Z.to_nat (ClInstanceGetPropertyCount inst)) 0
    {| hdl := hdl i; filtered := true; property_list := propertyList; key_list := keys |}.

Definition __ift_setPropertyFilter (klt : T) (ci : native_instance) (propertyList : option (list bytes)) :
    option (T * native_instance * Z) :=
  match propertyList with
  | None => Some (klt, ci, CMPI_RC_OK)
  | Some _ =>
      match hdl ci with
      | None => Some (klt, ci, CMPI_RC_ERR_INVALID_HANDLE)
      | Some _ =>
          '(klt, (cop, _)) ← __ift_getObjectPath klt ci;
          ci ← __ift_internal_setPropertyFilter ci propertyList (__make_key_list cop);
          Some (klt, ci, CMPI_RC_OK)
      end
  end.

Definition add_id (hdr : ClObjectHdr) (old : Z) (s : option bytes) : option (Z * ClObjectHdr) :=
  match s with Some s => addClString hdr s | None => Some (old, hdr) end.

Definition __ift_setObjectPath (ci : native_instance) (cop : option object_path) : option (native_instance * Z) :=
  match hdl ci with
  | None => Some (ci, CMPI_RC_ERR_INVALID_HANDLE)
  | Some _ =>
      ci ← (if filtered ci then __ift_internal_setPropertyFilter ci (property_list ci) (__make_key_list cop) else Some ci);
      inst ← hdl ci;
      let '(ns, cn) := match cop with
                       | Some cop => (nameSpace cop, Some (className cop))
                       | None => (Some (cstr "*NoNameSpace*"), Some (cstr "*NoClassName*"))
                       end in
      '(n, hdr) ← add_id (i_hdr inst) (i_nameSpace inst) ns;
      '(c, hdr) ← add_id hdr (i_className inst) cn;
      let ci := with_hdl ci (with_names inst hdr c n) in
      match cop with
      | Some cop => ci ← set_keys_down ci cop (length (keys cop)); Some (ci, CMPI_RC_OK)
      | None => Some (ci, CMPI_RC_OK)
      end
  end.

(** ** Qualifiers are not kept *)

Definition __ift_getQualifier (ci : native_instance) (name : bytes) : found CMPIData := Missing CMPI_RC_ERR_NOT_FOUND.
Definition __ift_getQualifierAt (ci : native_instance) (i : Z) : found CMPIData := Missing CMPI_RC_ERR_NOT_FOUND.
Definition __ift_getQualifierCount (ci : native_instance) : Z * Z := (0, CMPI_RC_ERR_NOT_FOUND).
Definition __ift_getPropertyQualifier (ci : native_instance) (pname qname : bytes) : found CMPIData := Missing CMPI_RC_ERR_NOT_FOUND.
Definition __ift_getPropertyQualifierAt (ci : native_instance) (pname : bytes) (i : Z) : found CMPIData := Missing CMPI_RC_ERR_NOT_FOUND.
Definition __ift_getPropertyQualifierCount (ci : native_instance) (pname : bytes) : Z * Z := (0, CMPI_RC_ERR_NOT_FOUND).

(** ** Texts *)

(** The buffer of [add]: the text, and the bytes allocated (0 at first).  A copy beyond
    them would be undefined. *)
Record text_buffer := { text : bytes; allocated : Z }.
Definition add (b : text_buffer) (data : bytes) : option text_buffer :=
  let ds := strlen data + 1 in
  let m := if allocated b =? 0 then 1024 else allocated b in
  let p := if allocated b =? 0 then 0 else strlen (text b) in
  m ← (if m <=? ds + p then grow 32 m (ds + p) else Some m);
  if p + ds <=? m then Some {| text := text b ++ data; allocated := m |} else None.
Fixpoint add_all (b : text_buffer) (l : list bytes) : option text_buffer :=
  match l with [] => Some b | s :: l => b ← add b s; add_all b l end.

Fixpoint add_properties (inst : ClInstance) (b : text_buffer) (n : nat) (i : Z) : option text_buffer :=
  match n with
  | O => Some b
  | S n =>
      r ← __ift_internal_getPropertyAt inst i;
      '(d, name) ← match r with Some x => Some x | None => None end;
      name ← name;
      v ← sfcb_value2Chars print_g (d_type d) (d_array d) (Some (d_value d));
      b ← add_all b [cstr " "; name; cstr " = "; v; cstr " ;" ++ [10]];
      add_properties inst b n (i + 1)
  end.

Definition instance2String (klt : T) (ci : native_instance) : option (T * bytes) :=
  inst ← hdl ci;
  '(klt, (path, _)) ← __ift_getObjectPath klt ci;
  path ← path;
  name ← __oft_toString print_g path;
  b ← add_all {| text := []; allocated := 0 |}
        [cstr "Instance of "; name; cstr " {" ++ [10]; cstr " PATH: "; name; [10]];
  b ← add_properties inst b (Z.to_nat (ClInstanceGetPropertyCount inst)) 0;
  b ← add b (cstr "}" ++ [10]);
  Some (klt, text b).

(** The buffer is not set for the types without a case. *)
Definition dataToString (d : CMPIData) : option bytes :=
  if d_array d then Some (cstr "[]")
  else
    match d_type d with
    | CMPI_uint8 => w ← word_of (d_value d); Some (print_dec (u8 w))
    | CMPI_uint16 => w ← word_of (d_value d); Some (print_dec (u16 w))
    | CMPI_uint32 => w ← word_of (d_value d); Some (print_dec (u32 w))
    | CMPI_uint64 => w ← word_of (d_value d); Some (print_dec (u64 w))
    | CMPI_sint8 => w ← word_of (d_value d); Some (print_dec (s8 w))
    | CMPI_sint16 => w ← word_of (d_value d); Some (print_dec (s16 w))
    | CMPI_sint32 => w ← word_of (d_value d); Some (print_dec (s32 w))
    | CMPI_sint64 => w ← word_of (d_value d); Some (print_dec (s64 w))
    | CMPI_string => match d_value d with VString (Some s) => Some s | _ => None end
    | _ => None
    end.

Fixpoint properties_text (ci : native_instance) (n : nat) (i : Z) : option bytes :=
  match n with
  | O => Some []
  | S n =>
      r ← __ift_getPropertyAt ci i;
      '(d, name) ← match r with Found x => Some x | Missing _ => None end;
      name ← name;
      v ← dataToString d;
      t ← properties_text ci n (i + 1);
      Some (name ++ cstr "=" ++ v ++ [10] ++ t)
  end.
Definition instanceToString (ci : native_instance) : option bytes :=
  properties_text ci (Z.to_nat (fst (__ift_getPropertyCount ci))) 0.

Definition instGetClassName (ci : native_instance) : option (option bytes) := inst ← hdl ci; ClInstanceGetClassName inst.
Definition instGetNameSpace (ci : native_instance) : option (option bytes) := inst ← hdl ci; ClInstanceGetNameSpace inst.

(** ** Comparison *)

Context (compare_value : CMPIValue -> CMPIValue -> CMPIType -> bool -> option Z).

Fixpoint compare_properties (inst1 inst2 : native_instance) (n : nat) (i : Z) : option Z :=
  match n with
  | O => Some 0
  | S n =>
      r ← __ift_getPropertyAt inst1 i;
      '(d1, name) ← match r with Found x => Some x | Missing _ => None end;
      r ← __ift_getProperty inst2 name;
      match r with
      | Missing _ => Some 1
      | Found d2 =>
          if bool_decide (d_type d1 = d_type d2) && Bool.eqb (d_array d1) (d_array d2) then
            c ← compare_value (d_value d1) (d_value d2) (d_type d1) (d_array d1);
            if c =? 0 then compare_properties inst1 inst2 n (i + 1) else Some 1
          else Some 1
      end
  end.

Definition instanceCompare (inst1 inst2 : option native_instance) : option Z :=
  match inst1, inst2 with
  | None, None => Some 0
  | None, _ => Some (-1)
  | _, None => Some 1
  | Some inst1, Some inst2 =>
      let c := fst (__ift_getPropertyCount inst1) in
      if negb (c =? fst (__ift_getPropertyCount inst2)) then Some 1
      else compare_properties inst1 inst2 (Z.to_nat c) 0
  end.
End instances.
Arguments Found {A}. Arguments Missing {A}.
