(* ===== verification/InstanceSpec.v ===== *)
(** * What instances promise

    An instance is seen as the list of its named values ([represents_object] of
    ClObject.v).  A property that is set is read back; a filter projects the list on the
    names of the filter and of the keys and leaves the path of the instance as it is; the
    buffer of the printed text is never overrun. *)

From Stdlib Require Import Floats.SpecFloat.
From S2P Require Import Prelude CString HashTable CmpiData ClBuffer StringBuffer ObjectPath ClObject ClClass NativeArray ConstClass Instance.

(** ** The values of an instance *)

Definition represents_instance (inst : ClInstance) (strs : list bytes) (l : list ClObject.entry) : Prop :=
  represents_object (i_hdr inst) (i_properties inst) strs l.

(** What the accessors see of it. *)
Definition reads_as (inst : ClInstance) (l : list ClObject.entry) : Prop := exists strs,
  (forall id s, str_at strs id = Some s -> ClObjectGetClString (i_hdr inst) id = Some (Some s)) /\
  used (i_properties inst) = len (inuse (i_properties inst)) /\
  Forall2 (fun p e => view strs p = Some e) (inuse (i_properties inst)) l.

Lemma rr inst strs l : represents_instance inst strs l -> reads_as inst l.
Proof.
  intros [[m Hm] Hf (ps & Hsec & HF & _)]. exists strs. unfold inuse. rewrite (section_ok_list _ _ Hsec). split_and!; [|apply Hsec|exact HF].
  intros id s. by apply (get_str _ _ m).
Qed.

Definition same_names (inst inst' : ClInstance) : Prop :=
  i_className inst' = i_className inst /\ i_nameSpace inst' = i_nameSpace inst.

(** A property with a name is in one of the lists. *)
Definition listed (propertyList keys : option (list bytes)) (name : bytes) : bool :=
  __contained_list propertyList name || __contained_list keys name.

(** No two properties have the same name, in any case. *)
Definition distinct (l : list ClObject.entry) : Prop :=
  forall k n x, l !! k = Some (n, x) -> find_name n (take k l) = None.

(** The properties of the lists, in their order. *)
Definition project (propertyList keys : option (list bytes)) (l : list ClObject.entry) : list ClObject.entry :=
  List.filter (fun e => listed propertyList keys (fst e)) l.

(** The strings of a list of properties. *)
Definition texts (l : list ClObject.entry) : list bytes := l ≫= fun e => fst e :: text_of (snd (snd e)).

Section values.
Context (print_g : spec_float -> bytes) (inst_at : ClObjectHdr -> Z -> option CMPIValue).

(** What the accessors return for a value; embedded instances and arrays that are not
    null are left out. *)
Definition handed (v : aval) : option CMPIData :=
  match v with
  | AText t st s =>
      match t with
      | CMPI_chars => Some {| d_type := CMPI_string; d_array := false; d_state := st; d_value := VString (Some s) |}
      | CMPI_dateTime => Some {| d_type := t; d_array := false; d_state := st; d_value := date_from_chars s |}
      | CMPI_ref => v ← ref_value print_g (Some s); Some {| d_type := t; d_array := false; d_state := st; d_value := v |}
      | _ => None
      end
  | ARaw d =>
      if plain d then Some d
      else match d_value d with
           | VWord 0 =>
               if simple_type d CMPI_instance || simple_type d CMPI_string then None
               else Some (if simple_type d CMPI_chars then data_typed d CMPI_string (VString None) else d)
           | _ => None
           end
  end.

(** Values that are stored as they were when they are read and set again: texts, dates of
    the right form, references in the form they are printed in, null values, and numbers
    that have their width. *)
Definition survives (v : aval) : Prop :=
  match v with
  | AText t st s =>
      st = 0 /\ match t with
                | CMPI_chars => True
                | CMPI_dateTime => date_from_chars s = VDateTime s
                | CMPI_ref => ref_value print_g (Some s) = Some (VRef s) /\ strlen s < 4096
                | _ => False
                end
  | ARaw d =>
      (d_state d = CMPI_nullValue /\ d_value d = NULL /\ simple_type d CMPI_instance = false /\ simple_type d CMPI_string = false) \/
      (d_state d = 0 /\ plain d = true /\ CMPI_ENC (d_type d) = false /\
       sfcb_setAlignedValue NULL (Some (d_value d)) (d_type d) = Some (d_value d))
  end.

(** ** Reading *)

Abbreviation internal_at := (__ift_internal_getPropertyAt print_g inst_at).

(** Comparisons of concrete types. *)
Ltac types :=
  unfold simple_type in *; cbn [d_type d_array d_state d_value data_with data_typed] in *;
  repeat first [rewrite bool_decide_eq_true_2 by done|rewrite bool_decide_eq_false_2 by done];
  cbn [andb orb mbind option_bind negb word_of d_type d_array d_state d_value data_with data_typed];
  repeat first [rewrite bool_decide_eq_true_2 by done|rewrite bool_decide_eq_false_2 by done];
  cbn [andb orb mbind option_bind negb word_of].

Lemma get_null hdr : ClObjectGetClString hdr 0 = Some None.
Proof. done. Qed.

Lemma value_handed hdr strs p name q v d : (forall id s, str_at strs id = Some s -> ClObjectGetClString hdr id = Some (Some s)) ->
  view strs p = Some (name, (q, v)) -> handed v = Some d ->
  (instance_value inst_at hdr (p_data p) ≫= handed_out print_g inst_at hdr) = Some d.
Proof.
  intros Hget (_ & _ & Hv)%view_inv Hg. unfold instance_value, string_of. destruct v as [t st s|d0]; cbn [handed] in Hg.
  - destruct Hv as (w & Hw & Hs & <- & <-). apply text_id_inv in Hw as (Ha & Ht & Hn & Hv & _).
    destruct (p_data p) as [ty ar st vl]. cbn [d_type d_array d_state d_value] in *. subst ar vl.
    destruct ty; try done; types; try rewrite (Hget _ _ Hs); cbn [mbind option_bind handed_out]; types.
    + unfold string_of. types. rewrite (Hget _ _ Hs). exact Hg.
    + by injection Hg as <-.
    + by injection Hg as <-.
  - destruct Hv as [_ ->]. destruct (plain d0) eqn:Ep.
    + injection Hg as <-. unfold plain in Ep. destruct d0 as [ty ar st vl]. cbn [d_array d_type] in *. destruct ar; [done|].
      destruct ty; try done; types; cbn [handed_out]; by types.
    + destruct d0 as [ty ar st vl]. cbn [d_type d_array d_value] in *. destruct vl as [w| | | | | | |]; try done.
      destruct w; try done. destruct ar.
      * unfold simple_type in *. cbn in Hg. rewrite !andb_false_r in Hg. injection Hg as <-. cbn. rewrite !andb_false_r. cbn. done.
      * destruct ty; try done; unfold simple_type in Hg; cbn in Hg; injection Hg as <-; types; cbn [handed_out]; types; done.
Qed.

Lemma instance_value_name inst l k name q v d : reads_as inst l -> len l < 2 ^ 31 ->
  l !! k = Some (name, (q, v)) -> handed v = Some d -> internal_at inst (Z.of_nat k) = Some (Some (d, Some name)).
Proof.
  intros (strs & Hget & Hu & HF) Hl Hk Hg.
  destruct (Forall2_lookup_r _ _ _ _ _ HF Hk) as (p & Hp & Hv).
  assert (Hlt : (k < length l)%nat) by exact (lookup_lt_Some _ _ _ Hk). pose proof (Forall2_length _ _ _ HF) as Hlen.
  unfold __ift_internal_getPropertyAt, ClInstanceGetPropertyAt, item_of.
  rewrite (wraps_small 32), Hu, range_ok, Nat2Z.id by lia. unfold inuse in Hp. apply lookup_take_Some in Hp as [-> _]. cbn [mbind option_bind].
  pose proof (value_handed _ _ _ _ _ _ _ Hget Hv Hg) as Hr.
  destruct (instance_value inst_at (i_hdr inst) (p_data p)) as [r|]; [|done]. cbn [mbind option_bind] in *.
  apply view_inv in Hv as (Hn & _). rewrite (Hget _ _ Hn). cbn [mbind option_bind].
  change (handed_out print_g inst_at (i_hdr inst) r = Some d) in Hr. by rewrite Hr.
Qed.

Lemma locate_reads hdr strs id : (forall n s, str_at strs n = Some s -> ClObjectGetClString hdr n = Some (Some s)) ->
  forall ps l i, Forall2 (fun p e => view strs p = Some e) ps l ->
  locate p_id hdr id ps i = Some (match find_name id l with None => 0 | Some k => i + Z.of_nat k + 1 end).
Proof.
  intros Hget ps l i HF. revert i. induction HF as [|p [n [q v]] ps l Hv _ IH]; intros i; [done|]. cbn [locate find_name].
  apply view_inv in Hv as (Hn & _). rewrite (Hget _ _ Hn). cbn [mbind option_bind]. destruct (strcasecmp id n =? 0); [f_equal; lia|].
  rewrite IH. destruct (find_name id l) as [k|]; [|done]. cbn [fmap option_fmap option_map]. f_equal. lia.
Qed.

Lemma locate_instance inst l id : reads_as inst l ->
  ClObjectLocateProperty (i_hdr inst) (i_properties inst) id
  = Some (match find_name id l with None => 0 | Some k => Z.of_nat k + 1 end).
Proof. intros (strs & Hget & _ & HF). exact (locate_reads _ _ id Hget _ _ 0 HF). Qed.

Abbreviation getProperty_here := (__ift_getProperty print_g inst_at).

Lemma property_found ci inst l id k name q v d : hdl ci = Some inst -> reads_as inst l -> len l < 2 ^ 31 ->
  find_name id l = Some k -> l !! k = Some (name, (q, v)) -> handed v = Some d ->
  getProperty_here ci (Some id) = Some (Found d).
Proof.
  intros Hh Hr Hl Hfind Hk Hg. unfold __ift_getProperty, __ift_getPropertyAt. rewrite Hh, (locate_instance _ _ id Hr), Hfind.
  cbn [mbind option_bind]. rewrite (proj2 (Z.eqb_neq _ 0)) by lia. cbn [negb].
  replace (Z.of_nat k + 1 - 1) with (Z.of_nat k) by lia. by rewrite (instance_value_name inst l k name q v d Hr Hl Hk Hg).
Qed.

Lemma property_missing ci inst l id : hdl ci = Some inst -> reads_as inst l -> find_name id l = None ->
  getProperty_here ci (Some id) = Some (Missing CMPI_RC_ERR_NO_SUCH_PROPERTY).
Proof.
  intros Hh Hr Hfind. unfold __ift_getProperty. by rewrite Hh, (locate_instance _ _ id Hr), Hfind.
Qed.

(** ** Setting *)

Lemma flag_ok inst strs l k : represents_instance inst strs l -> (k < length l)%nat ->
  exists inst', ClInstanceFilterFlagProperty inst (Z.of_nat k) = Some inst' /\ represents_instance inst' strs l /\ same_names inst inst'.
Proof.
  intros [Hm Hf (ps & Hsec & HF & Hnd)] Hk. pose proof (Forall2_length _ _ _ HF) as Hlen.
  destruct (lookup_lt_is_Some_2 ps k) as [p Hp]; [lia|].
  unfold ClInstanceFilterFlagProperty, property_at. rewrite (proj2 (Z.ltb_ge _ _)), Nat2Z.id by lia.
  rewrite (section_ok_lookup _ _ _ _ Hsec Hp). cbn [mbind option_bind]. eexists. split; [done|]. split; [|done].
  split; [exact Hm|exact Hf|]. eexists. split; [by apply section_ok_insert|].
  destruct (Forall2_lookup_l _ _ _ _ _ HF Hp) as (nv & Hnv & Hv). split.
  - rewrite <- (list_insert_id l k nv Hnv). apply Forall2_insert; [exact HF|exact Hv].
  - rewrite list_fmap_insert. rewrite list_insert_id; [exact Hnd|]. by rewrite list_lookup_fmap, Hp.
Qed.

(** The list of a filter, or the keys, name the property; without a filter every property
    is taken. *)
Definition takes (ci : native_instance) (name : bytes) : Prop :=
  filtered ci = false \/ listed (property_list ci) (key_list ci) name = true.

Definition same_filter (ci ci' : native_instance) : Prop :=
  filtered ci' = filtered ci /\ property_list ci' = property_list ci /\ key_list ci' = key_list ci.

Lemma set_stored ci inst l strs name value type array d hdr prps k : hdl ci = Some inst -> takes ci name ->
  set_data_of value type array = Some d ->
  addObjectPropertyH (i_hdr inst) (i_properties inst) name d None = Some (Z.of_nat k + 1, hdr, prps) ->
  represents_object hdr prps strs l -> (k < length l)%nat ->
  exists ci' inst', __ift_setProperty ci name value type array = Some (ci', CMPI_RC_OK) /\ hdl ci' = Some inst' /\
    same_filter ci ci' /\ represents_instance inst' strs l /\ same_names inst inst'.
Proof.
  intros Hh Hlist Hd E Hr Hk. unfold __ift_setProperty. rewrite Hh, Hd. cbn [mbind option_bind].
  match goal with |- context [if ?c then _ else Some (ci, _)] => assert (Hc : c = true) end.
  { destruct Hlist as [->|Hl']; [done|]. unfold listed in Hl'. rewrite <- orb_assoc, Hl'. by rewrite orb_true_r. }
  rewrite Hc. unfold ClInstanceAddProperty. rewrite E. cbn [mbind option_bind].
  match goal with |- context [ClInstanceFilterFlagProperty ?i _] => set (inst1 := i) end.
  rewrite (proj2 (Z.ltb_ge _ _)) by lia.
  assert (Hr1 : represents_instance inst1 strs l) by exact Hr.
  destruct (_ && _) eqn:Ef.
  - replace (Z.of_nat k + 1 - 1) with (Z.of_nat k) by lia.
    destruct (flag_ok inst1 _ _ k Hr1 Hk) as (inst2 & -> & Hr2 & Hn2). cbn [mbind option_bind]. by eexists _, inst2.
  - cbn [mbind option_bind]. by eexists _, inst1.
Qed.

(** A property that is not there yet. *)
Lemma set_ok ci inst strs l name value type array d v : hdl ci = Some inst -> represents_instance inst strs l -> takes ci name ->
  find_name name l = None -> set_data_of value type array = Some d -> stored d = Some v ->
  nul_free name -> Forall nul_free (text_of v) ->
  len l < 16384 -> len strs < 16383 -> weight strs + weight [name] + weight (text_of v) < 2 ^ 30 ->
  exists ci' inst', __ift_setProperty ci name value type array = Some (ci', CMPI_RC_OK) /\ hdl ci' = Some inst' /\
    same_filter ci ci' /\ represents_instance inst' (strs ++ name :: text_of v) (l ++ [(name, (0, v))]) /\ same_names inst inst'.
Proof.
  intros Hh Hr Hlist Hfind Hd Hs Hn Hv Hl Hstr Hw.
  destruct (addObjectPropertyH_new _ _ _ _ name d v Hr Hfind Hs Hn Hv Hl Hstr Hw) as (hdr' & prps' & E & Hr').
  apply (set_stored ci inst _ _ name value type array d hdr' prps' (length l) Hh Hlist Hd E Hr').
  rewrite length_app. cbn. lia.
Qed.

(** ** What is set is read *)

(** Reading a property of the list. *)
Definition get_entry (l : list ClObject.entry) (id : bytes) : option (found CMPIData) :=
  match find_name id l with
  | Some k => match l !! k with Some (_, (_, v)) => Found <$> handed v | None => None end
  | None => Some (Missing CMPI_RC_ERR_NO_SUCH_PROPERTY)
  end.



Definition readable (e : ClObject.entry) : Prop := is_Some (handed (snd (snd e))).

Lemma property_reads ci inst l id : hdl ci = Some inst -> reads_as inst l -> len l < 2 ^ 31 ->
  Forall readable l -> getProperty_here ci (Some id) = get_entry l id.
Proof.
  intros Hh Hr Hl Hread. unfold get_entry. destruct (find_name id l) as [k|] eqn:Hf.
  - destruct (find_name_lookup _ _ _ Hf) as [[n [q v]] Hk]. destruct (l !! k) as [e|] eqn:Ek; [|done]. injection Hk as ->.
    destruct (proj1 (Forall_lookup _ _) Hread _ _ Ek) as [d Hd]. cbn [snd] in Hd. rewrite Hd.
    exact (property_found ci inst l id k n q v d Hh Hr Hl Hf Ek Hd).
  - exact (property_missing ci inst l id Hh Hr Hf).
Qed.




Lemma nocase a b : strcasecmp a b = 0 <-> tolower <$> a = tolower <$> b.
Proof. unfold strcasecmp. apply strcmp_eq. Qed.







(** ** Reading and setting again *)

Lemma date_length s : date_from_chars s = VDateTime s -> strlen s < 26.
Proof. unfold date_from_chars. destruct (strlen s =? 25) eqn:E; [|done]. apply Z.eqb_eq in E. lia. Qed.

Lemma survives_set v : survives v -> exists d d', handed v = Some d /\
  set_data_of (kept_value d) (d_type d) (d_array d) = Some d' /\ stored d' = Some v.
Proof.
  destruct v as [t st s|d]; cbn [survives handed].
  - intros [-> Ht]. destruct t; try done.
    + destruct Ht as [-> Hs]. eexists _, _. split; [done|]. split; [done|]. by apply Z.ltb_lt in Hs; unfold stored; cbn [d_state d_array d_type d_value]; rewrite Hs.
    + eexists _, _. split; [done|]. by split.
    + eexists _, _. split; [done|]. rewrite Ht. split; [done|].
      apply date_length, Z.ltb_lt in Ht. unfold stored. cbn [d_state d_array d_type d_value]. by rewrite Ht.
  - destruct d as [t a st x]. cbn [d_state d_value d_type]. intros [(-> & -> & Hi & Hs)|(-> & Hp & He & Hv)].
    + unfold NULL in *. destruct a.
      * set (d0 := {| d_type := t; d_array := true; d_state := CMPI_nullValue; d_value := VWord 0 |}). exists d0, d0.
        split; [|split; [by destruct t|done]].
        unfold plain, simple_type. cbn [d_type d_array d_value negb andb d0]. by rewrite !andb_false_r.
      * destruct t; try (by vm_compute in Hi); try (by vm_compute in Hs); eexists _, _; (split; [reflexivity|]); by split.
    + unfold plain in *. cbn [d_array d_type] in *. destruct a; [done|]. cbn [negb andb] in *. rewrite Hp.
      set (d0 := {| d_type := t; d_array := false; d_state := 0; d_value := x |}). exists d0, d0. split; [done|].
      unfold kept_value, set_data_of. cbn [d_state d_value d_type d_array Z.ldiff Z.eqb d0].
      destruct t; try done; rewrite Hv; by split.
Qed.

(** ** Copies *)

(** An instance whose parts can be copied into one block. *)
Record whole (inst : ClInstance) (strs : list bytes) (arrs : list (list (option CMPIData))) (l : list ClObject.entry) : Prop := {
  wh_values : represents_instance inst strs l;
  wh_qualifiers : section_wf any (i_qualifiers inst);
  wh_properties : section_wf property_wf (i_properties inst);
  wh_header : hdr_holds (i_hdr inst) strs arrs;
  wh_names : is_Some (str_at strs (i_className inst)) /\ (i_nameSpace inst = 0 \/ is_Some (str_at strs (i_nameSpace inst)));
  wh_size : sizeInstanceH inst < 2 ^ 31
}.

Lemma str_at_reads hdr strs arrs : reads hdr strs arrs ->
  forall id s, str_at strs id = Some s -> ClObjectGetClString hdr id = Some (Some s).
Proof.
  intros [H1 _] id s. unfold str_at. destruct (Z.leb_spec 1 id); [|done]. intros Hs.
  replace id with (Z.of_nat (Z.to_nat (id - 1)) + 1) by lia. by apply H1.
Qed.

Lemma rebuilt_reads inst strs arrs l : whole inst strs arrs l -> exists n inst', rebuildInstanceH inst = Some (n, inst') /\
  reads_as inst' l /\ ClInstanceGetClassName inst' = ClInstanceGetClassName inst /\ ClInstanceGetNameSpace inst' = ClInstanceGetNameSpace inst.
Proof.
  intros [[[m Hm] Hf (ps & Hsec & HF & _)] Hq Hp Hh [[cn Hc] Hn] Hs].
  destruct (rebuildInstanceH_ok inst strs arrs Hq Hp Hh Hs) as (inst' & E & [Hu Hsame] & Hcn & Hns & Hr).
  pose proof (str_at_reads _ _ _ Hr) as Hget. unfold ClInstanceGetClassName, ClInstanceGetNameSpace.
  exists (sizeInstanceH inst), inst'. rewrite Hcn, Hns. split; [exact E|]. split; [|split]; cycle 1.
  { by rewrite (Hget _ _ Hc), (get_str _ _ m _ _ Hm Hf Hc). }
  { destruct Hn as [->|[ns Hn]]; [done|]. by rewrite (Hget _ _ Hn), (get_str _ _ m _ _ Hm Hf Hn). }
  exists strs. split_and!; [exact Hget| |].
  - rewrite <- (Forall2_length _ _ _ Hsame), Hu. unfold inuse. rewrite (section_ok_list _ _ Hsec). apply Hsec.
  - unfold inuse in Hsame at 1. rewrite (section_ok_list _ _ Hsec) in Hsame. clear -Hsame HF. revert Hsame. generalize (inuse (i_properties inst')) as ps'.
    induction HF as [|p e ps l Hv _ IH]; intros ps' Hs; [apply Forall2_nil_inv_l in Hs as ->; constructor|].
    apply Forall2_cons_inv_l in Hs as (p' & ps0 & [-> _] & Hs & ->). constructor; [exact Hv|by apply IH].
Qed.

(** The filter and the names, and what is read at a position and under a name. *)
Definition reads_alike (ci ci' : native_instance) : Prop :=
  filtered ci' = filtered ci /\ __ift_getPropertyCount ci' = __ift_getPropertyCount ci /\
  (forall i, 0 <= i < fst (__ift_getPropertyCount ci) -> __ift_getPropertyAt print_g inst_at ci' i = __ift_getPropertyAt print_g inst_at ci i) /\
  forall id, getProperty_here ci' (Some id) = getProperty_here ci (Some id).

Lemma alike ci ci' inst inst' l : hdl ci = Some inst -> hdl ci' = Some inst' -> filtered ci' = filtered ci ->
  reads_as inst l -> reads_as inst' l -> len l < 2 ^ 31 -> Forall readable l -> reads_alike ci ci'.
Proof.
  intros Hh Hh' Hf Hr Hr' Hl Hread.
  assert (Hn : forall c i, hdl c = Some i -> reads_as i l -> __ift_getPropertyCount c = (len l, CMPI_RC_OK)).
  { intros c i E (strs & _ & Hu & HF). unfold __ift_getPropertyCount, ClInstanceGetPropertyCount. rewrite E, Hu.
    by rewrite (Forall2_length _ _ _ HF). }
  split; [done|]. rewrite (Hn ci inst Hh Hr), (Hn ci' inst' Hh' Hr'). split_and!; [done| |].
  - intros i Hi. cbn [fst] in Hi. unfold __ift_getPropertyAt. rewrite Hh, Hh'.
    destruct (lookup_lt_is_Some_2 l (Z.to_nat i)) as [[n [q v]] Hk]; [lia|].
    destruct (proj1 (Forall_lookup _ _) Hread _ _ Hk) as [d Hd]. cbn [snd] in Hd.
    rewrite <- (Z2Nat.id i) by lia. rewrite (instance_value_name inst l _ n q v d Hr Hl Hk Hd).
    by rewrite (instance_value_name inst' l _ n q v d Hr' Hl Hk Hd).
  - intros id. rewrite (property_reads ci inst l id Hh Hr Hl Hread). by apply (property_reads ci' inst' l id Hh').
Qed.

(** C35: a clone, and the instance that the receiver of a message gets, read at every
    position and under every name as the instance they were made from; the receiver has
    lost the lists of its filter. *)
Theorem copies_read i inst strs arrs l : hdl i = Some inst -> whole inst strs arrs l -> len l < 2 ^ 31 -> Forall readable l ->
  exists c m, __ift_clone i = Some (Some c) /\ reads_alike i c /\ property_list c = property_list i /\ key_list c = key_list i /\
    getSerializedInstance i = Some m /\ reads_alike i (relocateSerializedInstance m) /\
    instGetClassName c = instGetClassName i /\ instGetNameSpace c = instGetNameSpace i.
Proof.
  intros Hh Hw Hl Hread. destruct (rebuilt_reads _ _ _ _ Hw) as (n & inst' & E & Hr' & Hcn & Hns).
  pose proof (rr _ _ _ (wh_values _ _ _ _ Hw)) as Hr.
  exists (with_hdl i inst'), (with_hdl i inst'). unfold __ift_clone, getSerializedInstance. rewrite Hh, E. cbn [mbind option_bind snd].
  pose proof (alike i (with_hdl i inst') inst inst' l Hh eq_refl eq_refl Hr Hr' Hl Hread) as Hc.
  pose proof (alike i (relocateSerializedInstance (with_hdl i inst')) inst inst' l Hh eq_refl eq_refl Hr Hr' Hl Hread) as Hm.
  split; [done|]. split; [exact Hc|]. split; [done|]. split; [done|]. split; [by rewrite E|]. split; [exact Hm|].
  unfold instGetClassName, instGetNameSpace. rewrite Hh. by split.
Qed.

(** ** Projection *)

Lemma contained_cong list a b : strcasecmp a b = 0 -> __contained_list list a = __contained_list list b.
Proof.
  intros H%Z.eqb_eq. unfold __contained_list. destruct list as [l|]; [|done]. induction l as [|x l IH]; [done|]. cbn [existsb].
  by rewrite IH, (same_key_cong true a b x H : (strcasecmp x a =? 0) = (strcasecmp x b =? 0)).
Qed.

Lemma listed_cong pl kl a b : strcasecmp a b = 0 -> listed pl kl a = listed pl kl b.
Proof. intros H. unfold listed. by rewrite !(contained_cong _ a b H). Qed.

Lemma project_snoc pl kl l e : project pl kl (l ++ [e]) = project pl kl l ++ (if listed pl kl (fst e) then [e] else []).
Proof. unfold project. rewrite List.filter_app. cbn. by destruct (listed _ _ _). Qed.

Lemma project_cons pl kl e l : project pl kl (e :: l) = (if listed pl kl (fst e) then [e] else []) ++ project pl kl l.
Proof. unfold project. cbn [List.filter]. by destruct (listed pl kl (fst e)). Qed.

Lemma find_project_none pl kl l id : find_name id l = None -> find_name id (project pl kl l) = None.
Proof.
  induction l as [|[n x] l IH]; [done|]. cbn [find_name project List.filter fst]. destruct (strcasecmp id n =? 0) eqn:E; [done|].
  destruct (find_name id l); [done|]. intros _. unfold project in IH. destruct (listed pl kl n); [|by apply IH].
  cbn [find_name]. by rewrite E, (IH eq_refl).
Qed.

(** What is found in the projection. *)
Lemma find_project pl kl l id : 
  (listed pl kl id = false -> find_name id (project pl kl l) = None) /\
  (listed pl kl id = true -> forall k e, find_name id l = Some k -> l !! k = Some e ->
     exists k', find_name id (project pl kl l) = Some k' /\ project pl kl l !! k' = Some e).
Proof.
  induction l as [|[n x] l [IH1 IH2]]; [done|]. cbn [find_name project List.filter fst]. change (List.filter _ l) with (project pl kl l).
  destruct (strcasecmp id n =? 0) eqn:E.
  - apply Z.eqb_eq in E as E'. rewrite <- (listed_cong pl kl id n E'). split; intros Hl; rewrite Hl; [by apply IH1|].
    intros k e [= <-] [= <-]. exists O. cbn. by rewrite E.
  - split; intros Hl.
    + destruct (listed pl kl n); [|by apply IH1]. cbn [find_name]. by rewrite E, (IH1 Hl).
    + intros k e Hk He. destruct (find_name id l) as [j|]; [|done]. injection Hk as <-.
      destruct (IH2 Hl j e eq_refl He) as (k' & Hf & Hk'). destruct (listed pl kl n); [|by exists k'].
      exists (S k'). cbn [find_name]. rewrite E, Hf. by split.
Qed.

Lemma texts_project pl kl l : weight (texts (project pl kl l)) <= weight (texts l) /\ len (texts (project pl kl l)) <= len (texts l).
Proof.
  induction l as [|e l [IHw IHl]]; [done|]. unfold texts, project in *. cbn [List.filter mbind list_bind].
  destruct (listed _ _ _); cbn [mbind list_bind]; rewrite !weight_app, !length_app;
    pose proof (weight_nonneg (fst e :: text_of (snd (snd e)))); lia.
Qed.

(** ** The copy *)

Lemma texts_free inst strs l : represents_instance inst strs l -> Forall nul_free (texts l).
Proof.
  intros [_ Hf (ps & _ & HF & _)]. assert (Hs : forall id s, str_at strs id = Some s -> nul_free s).
  { intros id s. unfold str_at. destruct (_ <=? _); [|done]. intros Hs%list_elem_of_lookup_2.
    by apply (proj1 (Forall_forall _ _) Hf). }
  induction HF as [|p [n [q v]] ps l Hv _ IH]; [constructor|]. unfold texts in *. cbn [mbind list_bind fst snd].
  apply view_inv in Hv as (Hn & _ & Hv). constructor; [by eapply Hs|]. apply Forall_app. split; [|exact IH].
  destruct v as [t st s|d]; [|constructor]. destruct Hv as (w & _ & Hw & _). constructor; [by eapply Hs|constructor].
Qed.

Lemma texts_app l1 l2 : texts (l1 ++ l2) = texts l1 ++ texts l2.
Proof. unfold texts. apply bind_app. Qed.

Lemma new_instance_ok ns cn : Forall nul_free (option_list ns) -> nul_free cn -> weight (option_list ns ++ [cn]) < 2 ^ 30 ->
  exists inst, newInstanceH ns (Some cn) = Some inst /\ represents_instance inst (option_list ns ++ [cn]) [] /\
    i_className inst = len (option_list ns) + 1 /\ i_nameSpace inst = (match ns with Some _ => 1 | None => 0 end).
Proof.
  intros Hns Hcn Hw. rewrite weight_app in Hw. pose proof (weight_nonneg (option_list ns)) as H1. pose proof (weight_nonneg [cn]) as H2.
  assert (H0 : hdr_strings (new_hdr HDR_Instance) [] 16) by done.
  unfold newInstanceH, add_name. destruct ns as [ns|].
  - change (option_list (Some ns)) with [ns] in *. apply Forall_cons in Hns as [Hns _].
    destruct (add_str _ [] 16 ns H0 Hns) as (h1 & m1 & -> & Hm1); [done|change (weight []) with 0; lia|]. cbn [mbind option_bind].
    destruct (add_str _ _ m1 cn Hm1 Hcn) as (h2 & m2 & -> & Hm2); [done|cbn [app]; lia|]. cbn [mbind option_bind].
    eexists. split; [done|]. split; [|done]. split; [by exists m2|by repeat constructor|].
    exists []. split; [split; [done|by left]|]. split; constructor.
  - change (option_list None) with (@nil bytes) in *. cbn [mbind option_bind]. destruct (add_str _ [] 16 cn H0 Hcn) as (h2 & m2 & -> & Hm2); [done|change (weight []) with 0; lia|]. cbn [mbind option_bind].
    eexists. split; [done|]. split; [|done]. split; [by exists m2|by repeat constructor|].
    exists []. split; [split; [done|by left]|]. split; constructor.
Qed.

(** What a property must be to be copied. *)
Definition copied (e : ClObject.entry) : Prop := fst (snd e) = 0 /\ survives (snd (snd e)).

Lemma copy_listed_ok inst strs l pl kl : represents_instance inst strs l -> len l < 8192 -> distinct l -> Forall copied l ->
  forall l2 l1 i ii strs_i, l = l1 ++ l2 -> hdl i = Some ii -> filtered i = true -> property_list i = pl -> key_list i = kl ->
  represents_instance ii strs_i (project pl kl l1) ->
  len strs_i + len (texts l2) < 16383 -> weight strs_i + weight (texts l2) < 2 ^ 30 ->
  exists i' ii', copy_listed print_g inst_at inst pl kl (length l2) (len l1) i = Some i' /\ hdl i' = Some ii' /\
    filtered i' = true /\ property_list i' = pl /\ key_list i' = kl /\
    represents_instance ii' (strs_i ++ texts (project pl kl l2)) (project pl kl l) /\ same_names ii ii'.
Proof.
  intros Hr Hl Hdist Hcop. pose proof (texts_free _ _ _ Hr) as Hfree.
  induction l2 as [|[n [q v]] l2 IH]; intros l1 i ii strs_i El Hi Hf Hpl Hkl Hri Hlen Hw.
  { exists i, ii. rewrite app_nil_r in El. subst l1. cbn [length copy_listed]. by rewrite app_nil_r. }
  assert (Hk : l !! length l1 = Some (n, (q, v))) by (by rewrite El, lookup_app_r, Nat.sub_diag).
  destruct (proj1 (Forall_lookup _ _) Hcop _ _ Hk) as [Hq Hsv]. cbn [fst snd] in Hq, Hsv. subst q.
  destruct (survives_set v Hsv) as (d & d' & Hd & Hset & Hst).
  assert (Hl31 : len l < 2 ^ 31) by lia.
  cbn [length copy_listed]. rewrite (instance_value_name inst l (length l1) n 0 v d (rr _ _ _ Hr) Hl31 Hk Hd). cbn [mbind option_bind].
  change (__contained_list pl n || __contained_list kl n) with (listed pl kl n).
  change (texts ((n, (0, v)) :: l2)) with ((n :: text_of v) ++ texts l2) in Hlen, Hw. rewrite weight_app in Hw. rewrite length_app in Hlen.
  assert (Hfr : nul_free n /\ Forall nul_free (text_of v)).
  { rewrite El, texts_app in Hfree. apply Forall_app in Hfree as [_ Hfree]. apply Forall_cons in Hfree as [Hn Hfree].
    by apply Forall_app in Hfree as [? _]. }
  assert (El' : l = (l1 ++ [(n, (0, v))]) ++ l2) by by rewrite <- app_assoc.
  rewrite project_cons, texts_app. cbn [fst]. replace (len l1 + 1) with (len (l1 ++ [(n, (0, v))])) by (rewrite length_app; cbn; lia).
  pose proof (weight_nonneg (texts l2)) as Hw2. change (n :: text_of v) with ([n] ++ text_of v) in Hw. rewrite weight_app in Hw.
  destruct (listed pl kl n) eqn:Elist.
  - assert (Hp1 : (length (project pl kl l1) <= length l1)%nat) by exact (List.filter_length_le _ _).
    assert (Hl1 : (length l1 <= length l)%nat) by (rewrite El, length_app; apply Nat.le_add_r).
    destruct (set_ok i ii strs_i (project pl kl l1) n (kept_value d) (d_type d) (d_array d) d' v Hi Hri) as
      (i1 & ii1 & -> & Hi1 & (Hf1 & Hpl1 & Hkl1) & Hr1 & Hn1).
    { right. by rewrite Hpl, Hkl. }
    { apply find_project_none. pose proof (Hdist _ _ _ Hk) as Hfn. by rewrite El, take_app_length in Hfn. }
    { done. } { done. } { apply Hfr. } { apply Hfr. } { lia. } { cbn [length] in Hlen. lia. } { lia. }
    cbn [mbind option_bind].
    destruct (IH (l1 ++ [(n, (0, v))]) i1 ii1 (strs_i ++ n :: text_of v) El' Hi1) as (i' & ii' & -> & Hi' & Hf' & Hpl' & Hkl' & Hr' & Hn');
      [congruence..|by rewrite project_snoc; cbn [fst]; rewrite Elist| | |].
    { rewrite length_app. cbn [length] in *. lia. }
    { rewrite weight_app. change (n :: text_of v) with ([n] ++ text_of v). rewrite weight_app. lia. }
    exists i', ii'. rewrite <- app_assoc in Hr'. unfold texts at 1. cbn [mbind list_bind fst snd]. rewrite app_nil_r.
    destruct Hn1 as [Hc1 Hs1], Hn' as [Hc2 Hs2]. by rewrite Hc1 in Hc2; rewrite Hs1 in Hs2.
  - cbn [mbind option_bind].
    destruct (IH (l1 ++ [(n, (0, v))]) i ii strs_i El' Hi Hf Hpl Hkl) as (i' & ii' & -> & H'); [| | |by exists i', ii'].
    + rewrite project_snoc. cbn [fst]. by rewrite Elist, app_nil_r.
    + lia.
    + pose proof (weight_nonneg [n]). pose proof (weight_nonneg (text_of v)). lia.
Qed.

(** ** The filter *)

(** An instance with its names, of values that can be copied, of a size that leaves room
    for its copy. *)
Record plain_instance (inst : ClInstance) (l : list ClObject.entry) (ns : option bytes) (cn : bytes) : Prop := {
  pi_strings : exists strs, represents_instance inst strs l;
  pi_class : ClInstanceGetClassName inst = Some (Some cn);
  pi_space : ClInstanceGetNameSpace inst = Some ns;
  pi_free : Forall nul_free (option_list ns) /\ nul_free cn;
  pi_distinct : distinct l;
  pi_copied : Forall copied l;
  pi_bounds : len l < 8000 /\ weight (option_list ns ++ [cn]) + weight (texts l) < 2 ^ 30
}.

Lemma texts_length l : len (texts l) <= 2 * len l.
Proof.
  induction l as [|[n [q v]] l IH]; [done|]. unfold texts in *. cbn [mbind list_bind fst snd]. rewrite length_app. cbn [length].
  destruct v; cbn [text_of length]; lia.
Qed.

Context (getConstClass : option bytes -> option bytes -> option ClClass).
Abbreviation internal_filter := (__ift_internal_setPropertyFilter print_g inst_at getConstClass).

Lemma filter_ok ci inst l ns cn pl kl : hdl ci = Some inst -> plain_instance inst l ns cn ->
  exists ci' inst' strs', internal_filter ci pl kl = Some ci' /\ hdl ci' = Some inst' /\
    represents_instance inst' strs' (project pl kl l) /\ filtered ci' = true /\ property_list ci' = pl /\ key_list ci' = kl /\
    ClInstanceGetClassName inst' = Some (Some cn) /\ ClInstanceGetNameSpace inst' = Some ns.
Proof.
  intros Hh [[strs Hr] Hcn Hns [Hf1 Hf2] Hd Hc [Hl Hw]]. unfold __ift_internal_setPropertyFilter. rewrite Hh. cbn [mbind option_bind].
  rewrite Hcn, Hns. cbn [mbind option_bind]. pose proof (weight_nonneg (texts l)) as Hw0.
  destruct (new_instance_ok ns cn Hf1 Hf2) as (ii & E & Hri & Hic & Hin); [lia|].
  unfold internal_new_CMPIInstance. cbn [nameSpace newObjectPath className keys length set_keys_down]. rewrite E. cbn [mbind option_bind hdl].
  pose proof (texts_length l) as Htl. assert (Hol : len (option_list ns ++ [cn]) <= 2) by (by destruct ns).
  assert (Hn : ClInstanceGetPropertyCount inst = len l).
  { destruct Hr as [_ _ (ps & [Hu _] & HF & _)]. unfold ClInstanceGetPropertyCount. rewrite Hu. f_equal. exact (Forall2_length _ _ _ HF). }
  rewrite Hn, Nat2Z.id.
  destruct (copy_listed_ok inst strs l pl kl Hr ltac:(lia) Hd Hc l [] {| hdl := Some ii; filtered := true; property_list := pl; key_list := kl |}
              ii (option_list ns ++ [cn]) eq_refl eq_refl eq_refl eq_refl eq_refl Hri) as (i' & ii' & Ec & Hi' & Hf' & Hp' & Hk' & Hr' & [Hc' Hs']);
    [lia|lia|].
  change (len []) with 0 in Ec. rewrite Ec. exists i', ii', ((option_list ns ++ [cn]) ++ texts (project pl kl l)). split_and!; try done.
  - destruct Hr' as [[m' Hm'] Hfr' _]. unfold ClInstanceGetClassName. rewrite Hc', Hic.
    apply (get_str _ _ m' _ _ Hm' Hfr'). apply str_at_app. apply (str_at_new (option_list ns) cn).
  - destruct Hr' as [[m' Hm'] Hfr' _]. unfold ClInstanceGetNameSpace. rewrite Hs', Hin. destruct ns as [ns|]; [|done].
    by apply (get_str _ _ m' _ _ Hm' Hfr').
Qed.

Lemma lookup_project ci inst strs l ci' inst' strs' pl kl id : hdl ci = Some inst -> represents_instance inst strs l ->
  hdl ci' = Some inst' -> represents_instance inst' strs' (project pl kl l) -> Forall copied l -> len l < 8000 ->
  getProperty_here ci' (Some id) = if listed pl kl id then getProperty_here ci (Some id) else Some (Missing CMPI_RC_ERR_NO_SUCH_PROPERTY).
Proof.
  intros Hh Hr Hh' Hr' Hc Hl. destruct (find_project pl kl l id) as [H1 H2].
  assert (Hpl : (length (project pl kl l) <= length l)%nat) by exact (List.filter_length_le _ _).
  destruct (listed pl kl id); [|exact (property_missing ci' inst' _ id Hh' (rr _ _ _ Hr') (H1 eq_refl))].
  destruct (find_name id l) as [k|] eqn:Hk.
  - destruct (find_name_lookup _ _ _ Hk) as [[n [q v]] He]. destruct (proj1 (Forall_lookup _ _) Hc _ _ He) as [_ Hs].
    destruct (survives_set v Hs) as (d & _ & Hd & _). destruct (H2 eq_refl k _ eq_refl He) as (k' & Hf' & He').
    rewrite (property_found ci inst l id k n q v d Hh (rr _ _ _ Hr) ltac:(lia) Hk He Hd).
    by rewrite (property_found ci' inst' (project pl kl l) id k' n q v d Hh' (rr _ _ _ Hr') ltac:(lia) Hf' He' Hd).
  - rewrite (property_missing ci inst l id Hh (rr _ _ _ Hr) Hk).
    by rewrite (property_missing ci' inst' (project pl kl l) id Hh' (rr _ _ _ Hr') (find_project_none pl kl l id Hk)).
Qed.

(** C34: with a filter an instance has the properties that are in the list of the filter or
    among the keys, and these read as they did before. *)
Theorem filter_projects ci inst l ns cn pl kl : hdl ci = Some inst -> plain_instance inst l ns cn ->
  exists ci' inst', internal_filter ci pl kl = Some ci' /\ hdl ci' = Some inst' /\
    (exists strs, represents_instance inst' strs (project pl kl l)) /\
    forall name, getProperty_here ci' (Some name)
      = if listed pl kl name then getProperty_here ci (Some name) else Some (Missing CMPI_RC_ERR_NO_SUCH_PROPERTY).
Proof.
  intros Hh Hp. destruct (filter_ok ci inst l ns cn pl kl Hh Hp) as (ci' & inst' & strs' & E & Hh' & Hr' & _).
  destruct Hp as [[strs Hr] _ _ _ _ Hc [Hl _]]. exists ci', inst'. split_and!; [done|done|by exists strs'|].
  intros name. by apply (lookup_project ci inst strs l ci' inst' strs').
Qed.

(** ** The path *)

(** No copied property is marked as a key in its state. *)
Lemma survives_not_key v d : survives v -> handed v = Some d ->
  Z.land (d_state d) CMPI_keyValue = 0 /\ d_array d && negb (is_null (d_state d)) && is_NULL (d_value d) = false.
Proof.
  destruct v as [t st s|d0]; cbn [survives handed].
  - intros [-> Ht]. destruct t; try done; try (by intros [= <-]). destruct (ref_value _ _); [|done]. by intros [= <-].
  - destruct d0 as [t a st x]. cbn [d_state d_value d_type]. intros [(-> & -> & Hi & Hs)|(-> & Hp & _)].
    + unfold NULL in *. unfold plain, simple_type. cbn [d_array d_type d_value]. destruct a; cbn [negb andb].
      * rewrite !andb_false_r. by intros [= <-].
      * destruct t; try (by vm_compute in Hi); try (by vm_compute in Hs); by intros [= <-].
    + rewrite Hp. intros [= <-]. cbn [d_array d_state d_value]. split; [done|]. unfold plain in Hp. cbn [d_array] in Hp. by destruct a.
Qed.

Lemma key_properties_none inst strs l cop : represents_instance inst strs l -> Forall copied l -> len l < 2 ^ 31 ->
  forall j, (j <= length l)%nat -> key_properties print_g inst_at inst cop 0 j = Some (cop, 0%nat).
Proof.
  intros Hr Hc Hl. induction j as [|j IH]; intros Hj; [done|]. cbn [key_properties].
  destruct (lookup_lt_is_Some_2 l j) as [[n [q v]] Hk]; [lia|].
  destruct (proj1 (Forall_lookup _ _) Hc _ _ Hk) as [_ Hs]. cbn [snd] in Hs. destruct (survives_set v Hs) as (d & _ & Hd & _).
  rewrite (instance_value_name inst l j n q v d (rr _ _ _ Hr) Hl Hk Hd). cbn [mbind option_bind].
  destruct (survives_not_key v d Hs Hd) as [-> ->]. cbn [Z.eqb negb mbind option_bind]. apply IH. lia.
Qed.

Lemma listed_keys_cong ci ci' : forall kl cop, Forall (fun n => getProperty_here ci n = getProperty_here ci' n) kl ->
  listed_keys print_g inst_at ci cop kl = listed_keys print_g inst_at ci' cop kl.
Proof.
  induction kl as [|n kl IH]; intros cop H'; [done|]. apply Forall_cons in H' as [Hn H']. cbn [listed_keys]. rewrite Hn.
  destruct (getProperty_here ci' n) as [d|]; [|done]. cbn [mbind option_bind].
  destruct (match d with Found d => add_key cop n d | Missing _ => Some cop end) as [c|]; [|done]. cbn [mbind option_bind]. by apply IH.
Qed.

(** The names of the keys of a path. *)
Definition has_key (cop : object_path) (id : bytes) : Prop := exists x, x ∈ (fst <$> keys cop) /\ strcasecmp x id = 0.

Lemma locate_key_some l id i : locate_key l id = Some i -> exists x, x ∈ (fst <$> l) /\ strcasecmp x id = 0.
Proof.
  revert i. induction l as [|[n x] l IH]; intros i; [done|]. cbn [locate_key]. destruct (strcasecmp id n =? 0) eqn:E.
  - intros _. exists n. split; [by apply elem_of_cons; left|]. apply nocase. symmetry. by apply nocase, Z.eqb_eq.
  - destruct (locate_key l id) as [j|]; [|done]. intros _. destruct (IH j eq_refl) as (y & Hy & Hc). exists y.
    split; [by apply elem_of_cons; right|done].
Qed.

Lemma addKey_names cop id d cop' : ClObjectPathAddKey cop id d = Some cop' ->
  has_key cop' id /\ forall id', has_key cop id' -> has_key cop' id'.
Proof.
  unfold ClObjectPathAddKey, has_key. destruct (locate_key (keys cop) id) as [i|] eqn:El.
  - destruct (locate_key_some _ _ _ El) as (x & Hx & Hc). destruct (keys cop !! i) as [[n od]|] eqn:Ek; [|done]. cbn [mbind option_bind].
    destruct (replaced_value od d) as [[d'|]|]; [| |done]; cbn [mbind option_bind]; intros [= <-]; [|by split; [exists x|]].
    cbn [set_keys keys]. rewrite list_fmap_insert. cbn [fst]. rewrite list_insert_id by (by rewrite list_lookup_fmap, Ek). by split; [exists x|].
  - destruct (stored_value d) as [d'|]; [|done]. cbn [mbind option_bind]. intros [= <-]. cbn [set_keys keys]. rewrite fmap_app. split.
    + exists id. split; [apply elem_of_app; right; by apply list_elem_of_singleton|by apply nocase].
    + intros id' (x & Hx & Hc). exists x. split; [by apply elem_of_app; left|done].
Qed.

Lemma add_key_names cop n d cop' : add_key cop n d = Some cop' ->
  (forall id, n = Some id -> has_key cop' id) /\ forall id', has_key cop id' -> has_key cop' id'.
Proof.
  unfold add_key, __oft_addKey. destruct n as [n|]; [|done]. cbn [mbind option_bind].
  match goal with |- context [mbind _ ?x] => destruct x as [[t v]|]; [|done] end. cbn [mbind option_bind].
  intros [Hh Hk]%addKey_names. split; [by intros id [= <-]|exact Hk].
Qed.

Lemma listed_keys_found ci kl : forall cop cop', listed_keys print_g inst_at ci cop kl = Some cop' ->
  (forall id, has_key cop id -> has_key cop' id) /\
  forall n d, Some n ∈ kl -> getProperty_here ci (Some n) = Some (Found d) -> has_key cop' n.
Proof.
  induction kl as [|n kl IH]; intros cop cop'; cbn [listed_keys].
  { intros [= <-]. split; [done|]. intros n d Hn. by apply elem_of_nil in Hn. }
  destruct (getProperty_here ci n) as [d|] eqn:Eg; [|done]. cbn [mbind option_bind].
  destruct (match d with Found d => add_key cop n d | Missing _ => Some cop end) as [c|] eqn:Ea; [|done]. cbn [mbind option_bind].
  intros [Hkeep Hfound]%IH. assert (Hadd : (forall id, has_key cop id -> has_key c id) /\
    forall d', d = Found d' -> forall id, n = Some id -> has_key c id).
  { destruct d as [d|rc]; [|by injection Ea as ->]. destruct (add_key_names _ _ _ _ Ea) as [H1 H2]. split; [exact H2|].
    by intros d' [= <-]. }
  destruct Hadd as [H1 H2]. split; [by auto|]. intros m d' [Hm|Hm]%elem_of_cons Hg; [|by apply (Hfound m d')].
  subst n. rewrite Eg in Hg. injection Hg as ->. apply Hkeep. by apply (H2 d').
Qed.

Lemma has_key_listed pl cop id : has_key cop id -> listed pl (__make_key_list (Some cop)) id = true.
Proof.
  intros (x & Hx & Hc). unfold listed, __make_key_list. apply orb_true_iff. right.
  destruct (keys cop) as [|k l]; [by apply elem_of_nil in Hx|]. unfold __contained_list. apply existsb_exists. exists x.
  split; [by apply list_elem_of_In|by apply Z.eqb_eq].
Qed.

Context {T : Type} `{htab : CharHashTable T key_names}.
Abbreviation path_here := (__ift_getObjectPath print_g inst_at getConstClass).

(** The path of an instance is made from the keys its class has in the table. *)
Lemma path_known klt ci inst strs l ns cn kl : hdl ci = Some inst -> represents_instance inst strs l -> Forall copied l -> len l < 2 ^ 31 ->
  ClInstanceGetClassName inst = Some (Some cn) -> ClInstanceGetNameSpace inst = Some ns -> ht_get klt cn = Some kl ->
  path_here klt ci = (cop ← listed_keys print_g inst_at ci (newObjectPath ns cn) kl; Some (klt, (Some cop, CMPI_RC_OK))).
Proof.
  intros Hh Hr Hc Hl Hcn Hns Hk. unfold __ift_getObjectPath. rewrite Hh, Hcn, Hns. cbn [mbind option_bind].
  assert (Hn : ClInstanceGetPropertyCount inst = len l).
  { destruct Hr as [_ _ (ps & [Hu _] & HF & _)]. unfold ClInstanceGetPropertyCount. rewrite Hu. f_equal. exact (Forall2_length _ _ _ HF). }
  rewrite Hn, Nat2Z.id, (key_properties_none inst strs l _ Hr Hc Hl) by lia. cbn [mbind option_bind]. by rewrite Hk.
Qed.

Lemma path_made klt ci inst strs l ns cn klt' cop : hdl ci = Some inst -> represents_instance inst strs l -> Forall copied l -> len l < 2 ^ 31 ->
  ClInstanceGetClassName inst = Some (Some cn) -> ClInstanceGetNameSpace inst = Some ns ->
  path_here klt ci = Some (klt', (Some cop, CMPI_RC_OK)) ->
  exists kl, ht_get klt' cn = Some kl /\ listed_keys print_g inst_at ci (newObjectPath ns cn) kl = Some cop.
Proof.
  intros Hh Hr Hc Hl Hcn Hns E. destruct (ht_get klt cn) as [kl|] eqn:Hk.
  - rewrite (path_known klt ci inst strs l ns cn kl Hh Hr Hc Hl Hcn Hns Hk) in E.
    destruct (listed_keys _ _ _ _ _) as [c|] eqn:El; [|done]. cbn in E. injection E as <- ->. by exists kl.
  - unfold __ift_getObjectPath in E. rewrite Hh, Hcn, Hns in E. cbn [mbind option_bind] in E.
    assert (Hn : ClInstanceGetPropertyCount inst = len l).
    { destruct Hr as [_ _ (ps & [Hu _] & HF & _)]. unfold ClInstanceGetPropertyCount. rewrite Hu. f_equal. exact (Forall2_length _ _ _ HF). }
    rewrite Hn, Nat2Z.id, (key_properties_none inst strs l _ Hr Hc Hl) in E by lia. cbn [mbind option_bind] in E. rewrite Hk in E.
    destruct (getConstClass ns (Some cn)) as [cc|]; [|done]. destruct (getKeyList _ _ cc) as [kl|]; [|done]. cbn [mbind option_bind] in E.
    destruct (listed_keys _ _ _ _ _) as [c|] eqn:El; [|done]. cbn in E. injection E as <- ->. exists kl.
    rewrite ht_get_put, same_key_refl. by split.
Qed.

(** C32: setting a filter leaves the path of the instance what it was, whatever the list of
    the filter is: the keys of the class that the instance has stay in it. *)
Theorem path_kept klt ci inst l ns cn pl klt' cop : hdl ci = Some inst -> plain_instance inst l ns cn ->
  path_here klt ci = Some (klt', (Some cop, CMPI_RC_OK)) ->
  exists ci', __ift_setPropertyFilter print_g inst_at getConstClass klt ci (Some pl) = Some (klt', ci', CMPI_RC_OK) /\
    filtered ci' = true /\ path_here klt' ci' = Some (klt', (Some cop, CMPI_RC_OK)).
Proof.
  intros Hh Hp E. destruct (filter_ok ci inst l ns cn (Some pl) (__make_key_list (Some cop)) Hh Hp)
    as (ci' & inst' & strs' & Ef & Hh' & Hr' & Hfl & _ & _ & Hcn' & Hns').
  destruct Hp as [[strs Hr] Hcn Hns _ _ Hc [Hl _]].
  destruct (path_made klt ci inst strs l ns cn klt' cop Hh Hr Hc ltac:(lia) Hcn Hns E) as (kl & Hk & Hlk).
  exists ci'. unfold __ift_setPropertyFilter. rewrite Hh, E. cbn [mbind option_bind]. rewrite Ef. cbn [mbind option_bind]. split_and!; [done|done|].
  assert (Hc' : Forall copied (project (Some pl) (__make_key_list (Some cop)) l)).
  { apply Forall_forall. intros e He%list_elem_of_In%List.filter_In. apply (proj1 (Forall_forall _ _) Hc), list_elem_of_In, He. }
  assert (Hl' : (length (project (Some pl) (__make_key_list (Some cop)) l) <= length l)%nat) by exact (List.filter_length_le _ _).
  rewrite (path_known klt' ci' inst' strs' _ ns cn kl Hh' Hr' Hc' ltac:(lia) Hcn' Hns' Hk).
  rewrite <- (listed_keys_cong ci ci'), Hlk; [done|]. apply Forall_forall. intros [n|] Hn; [|unfold __ift_getProperty; by rewrite Hh, Hh'].
  rewrite (lookup_project ci inst strs l ci' inst' strs' (Some pl) (__make_key_list (Some cop)) n Hh Hr Hh' Hr' Hc Hl).
  destruct (find_name n l) as [k|] eqn:Hf.
  - destruct (find_name_lookup _ _ _ Hf) as [[m [q v]] Hkl]. destruct (l !! k) as [e|] eqn:Ek; [|done]. injection Hkl as ->.
    destruct (proj1 (Forall_lookup _ _) Hc _ _ Ek) as [_ Hs]. destruct (survives_set v Hs) as (d & _ & Hd & _).
    pose proof (property_found ci inst l n k m q v d Hh (rr _ _ _ Hr) ltac:(lia) Hf Ek Hd) as Hg.
    destruct (listed_keys_found ci kl _ _ Hlk) as [_ Hfound]. by rewrite (has_key_listed (Some pl) cop n (Hfound n d Hn Hg)).
  - rewrite (property_missing ci inst l n Hh (rr _ _ _ Hr) Hf). by destruct (listed _ _ _).
Qed.
End values.

(** ** The buffer of the text *)

Definition buffer_ok (b : text_buffer) : Prop :=
  (allocated b = 0 /\ text b = []) \/ strlen (text b) + 1 < allocated b < 2 ^ 31.

Lemma grow_twice fuel n need m : grow fuel n need = Some m -> 0 <= n -> m <= Z.max n (2 * need).
Proof.
  revert n. induction fuel as [|fuel IH]; intros n; [done|]. cbn [grow]. destruct (Z.leb_spec n need); [|intros [= <-] _; lia].
  destruct (2 ^ 31 <=? n * 2); [done|]. intros E Hn. specialize (IH _ E). lia.
Qed.

Lemma add_text_ok b s : buffer_ok b -> strlen (text b) + strlen s + 1 < 2 ^ 30 ->
  exists b', add b s = Some b' /\ text b' = text b ++ s /\ strlen (text b') + 1 < allocated b' < 2 ^ 31 /\
    allocated b' <= Z.max (Z.max 1024 (allocated b)) (2 * (strlen (text b') + 1)).
Proof.
  intros Hb Hl. pose proof (strlen_nonneg s) as Hs. pose proof (strlen_nonneg (text b)) as Ht. unfold add.
  set (m := if allocated b =? 0 then 1024 else allocated b).
  assert (Hp : (if allocated b =? 0 then 0 else strlen (text b)) = strlen (text b)).
  { destruct Hb as [[-> ->]|Hb]; [done|]. by rewrite (proj2 (Z.eqb_neq _ _)) by lia. }
  rewrite Hp. assert (Hm : 0 < m < 2 ^ 31 /\ m <= Z.max 1024 (allocated b)).
  { unfold m. destruct (Z.eqb_spec (allocated b) 0); [lia|]. destruct Hb as [[? _]|Hb]; [done|]. lia. }
  set (need := strlen s + 1 + strlen (text b)).
  assert (Hg : exists m', (if m <=? need then grow 32 m need else Some m) = Some m' /\ need < m' < 2 ^ 31 /\ m' <= Z.max m (2 * need)).
  { destruct (Z.leb_spec m need); [|exists m; split; [done|lia]].
    destruct (grow_32 m need) as (m' & E & H1 & H2); [lia|lia|]. exists m'. pose proof (grow_twice _ _ _ _ E). split; [done|lia]. }
  destruct Hg as (m' & -> & H1 & H2). cbn [mbind option_bind]. rewrite (proj2 (Z.leb_le _ _)) by lia.
  eexists. split; [done|]. cbn [text allocated]. rewrite strlen_app. split; [done|]. lia.
Qed.

(** C36: however many texts are added, as long as they are less than 2^30 bytes, none is
    written beyond the buffer: it holds them all, one after the other, with their end.  It
    never becomes larger than the largest of twice what the text needs, the 1024 bytes a
    buffer starts with, and what was allocated before. *)
Theorem text_fits l : forall b, buffer_ok b -> strlen (text b) + strlen (concat l) + 1 < 2 ^ 30 ->
  exists b', add_all b l = Some b' /\ text b' = text b ++ concat l /\ buffer_ok b' /\
    allocated b' <= Z.max (Z.max 1024 (allocated b)) (2 * (strlen (text b') + 1)).
Proof.
  induction l as [|s l IH]; intros b Hb Hl.
  - exists b. cbn [add_all concat]. rewrite app_nil_r. split_and!; [done|done|done|lia].
  - cbn [concat] in *. rewrite strlen_app in Hl. pose proof (strlen_nonneg (concat l)) as H0.
    destruct (add_text_ok b s Hb ltac:(lia)) as (b1 & E1 & Et1 & Hb1 & Ha1). cbn [add_all]. rewrite E1. cbn [mbind option_bind].
    destruct (IH b1) as (b' & E & Et & Hb' & Ha); [by right|rewrite Et1, strlen_app; lia|]. exists b'.
    rewrite Et, Et1, app_assoc in *. split_and!; [done|done|done|]. rewrite !strlen_app in *. lia.
Qed.

(** ** Witnesses *)

(** An instance of the class [Size] with one property [Name]. *)
Definition wit_instance : ClInstance :=
  {| i_hdr := wit_hdr; i_quals := 0; i_className := 2; i_nameSpace := 0; i_qualifiers := clearClSection; i_properties := wit_section |}.
Definition wit_handle : native_instance := {| hdl := Some wit_instance; filtered := false; property_list := None; key_list := None |}.
Definition no_print (x : spec_float) : bytes := [].
Definition no_inst (hdr : ClObjectHdr) (i : Z) : option CMPIValue := None.
Definition no_class (ns cn : option bytes) : option ClClass := None.
Definition wit_keys : CharHashTable (list (bytes * key_names)) key_names := assoc_table true.
Definition wit_table : list (bytes * key_names) := [(cstr "size", [Some (cstr "NAME")])].
Definition wit_path : object_path :=
  {| nameSpace := None; hostName := None; className := cstr "Size";
     keys := [(cstr "NAME", {| d_type := CMPI_chars; d_array := false; d_state := 0; d_value := VChars (cstr "Size") |})] |}.

Lemma wit_plain : plain_instance no_print wit_instance wit_entries None (cstr "Size").
Proof.
  split; [exists wit_strings; exact wit_object|reflexivity|reflexivity|by repeat constructor| |by repeat constructor|by vm_compute].
  intros [|[|k]] n x Hk; [reflexivity|discriminate Hk..].
Qed.

Lemma wit_whole : whole wit_instance wit_strings [] wit_entries.
Proof.
  split; [exact wit_object|by split_and!|..].
  - split_and!; [by vm_compute..|]. repeat constructor; by vm_compute.
  - split; [exists 16; exact wit_hdr_ok|exact wit_strings_ok|by exists 16|by vm_compute].
  - split; [by eexists|by left].
  - by vm_compute.
Qed.

Lemma copies_read_witness : exists c m,
  __ift_clone wit_handle = Some (Some c) /\ getSerializedInstance wit_handle = Some m /\
  __ift_getProperty no_print no_inst c (Some (cstr "NAME"))
    = Some (Found {| d_type := CMPI_string; d_array := false; d_state := 0; d_value := VString (Some (cstr "Size")) |}) /\
  __ift_getProperty no_print no_inst (relocateSerializedInstance m) (Some (cstr "NAME"))
    = Some (Found {| d_type := CMPI_string; d_array := false; d_state := 0; d_value := VString (Some (cstr "Size")) |}).
Proof.
  destruct (copies_read no_print no_inst wit_handle wit_instance wit_strings [] wit_entries eq_refl wit_whole)
    as (c & m & Ec & (_ & _ & _ & Hc) & _ & _ & Em & (_ & _ & _ & Hm) & _).
  - done.
  - constructor; [by eexists|constructor].
  - exists c, m. split; [exact Ec|]. split; [exact Em|]. split; [rewrite Hc|rewrite Hm]; reflexivity.
Defined.

Lemma filter_projects_witness : exists ci' inst',
  __ift_internal_setPropertyFilter no_print no_inst no_class wit_handle (Some [cstr "Other"]) None = Some ci' /\ hdl ci' = Some inst' /\
  (exists strs, represents_instance inst' strs []) /\
  __ift_getProperty no_print no_inst ci' (Some (cstr "Name")) = Some (Missing CMPI_RC_ERR_NO_SUCH_PROPERTY).
Proof.
  destruct (filter_projects no_print no_inst no_class wit_handle wit_instance wit_entries None (cstr "Size") (Some [cstr "Other"]) None
    eq_refl wit_plain) as (ci' & inst' & E & Hh & Hr & Hg).
  exists ci', inst'. split_and!; [exact E|exact Hh|exact Hr|]. rewrite Hg. reflexivity.
Defined.

Lemma path_kept_witness : exists ci',
  __ift_setPropertyFilter no_print no_inst no_class (htab := wit_keys) wit_table wit_handle (Some [cstr "Other"])
    = Some (wit_table, ci', CMPI_RC_OK) /\
  filtered ci' = true /\
  __ift_getObjectPath no_print no_inst no_class (htab := wit_keys) wit_table ci' = Some (wit_table, (Some wit_path, CMPI_RC_OK)).
Proof.
  apply (path_kept no_print no_inst no_class (htab := wit_keys) wit_table wit_handle wit_instance wit_entries None (cstr "Size")
    [cstr "Other"] wit_table wit_path eq_refl wit_plain). vm_compute. reflexivity.
Defined.


Lemma text_fits_witness : exists b', add_all {| text := []; allocated := 0 |} [cstr "Instance of "; replicate 2000 65] = Some b' /\
  text b' = cstr "Instance of " ++ replicate 2000 65 /\ allocated b' <= 4026.
Proof.
  destruct (text_fits [cstr "Instance of "; replicate 2000 65] {| text := []; allocated := 0 |}) as (b' & E & Et & _ & Ha).
  - by left.
  - by vm_compute.
  - exists b'. split; [exact E|]. rewrite Et in Ha. split; [exact Et|].
    assert (El : strlen ([] ++ concat [cstr "Instance of "; replicate 2000 65]) = 2012) by reflexivity.
    cbn [text allocated] in Ha. rewrite El in Ha. lia.
Defined.
