(* ===== verification/HttpAdapter.v ===== *)
(** * The HTTP adapter (httpAdapter.c)

    A process handles the requests of one connection: it reads the header and the
    content, checks the credentials, passes the request on and writes the answer, in one
    piece or in chunks.

    What arrives on the connection is a list of what the calls of [select] and [read]
    meet; what is written is one list of bytes.  The request handler and the
    authentication plug-in are arguments; the rest of the broker is a state that only the
    handler changes.  The process works in a buffer of which the strings of the header are
    parts; they are values here, cut at their NULs.  The build is without SSL; the
    sending of the pieces by the library's buffer, the process control and the pauses for
    debuggers are left out.

    A function is a computation that returns, ends the process ([Exited]; what was written
    stays written), or has undefined behaviour. *)

From S2P Require Import Prelude CString Base64.

Inductive outcome (S A : Type) :=
| Done (a : A) (s : S)
| Exited (s : S)
| Undefined.
Arguments Done {S A} a s.
Arguments Exited {S A} s.
Arguments Undefined {S A}.

Definition action (S A : Type) : Type := S -> outcome S A.

#[export] Instance action_ret S : MRet (action S) := fun A a s => Done a s.
#[export] Instance action_bind S : MBind (action S) := fun A B f m s =>
  match m s with
  | Done a s' => f a s'
  | Exited s' => Exited s'
  | Undefined => Undefined
  end.

Definition undefined {S A} : action S A := fun _ => Undefined.
Definition exit_process {S A} : action S A := fun s => Exited s.
(** A value that must be there. *)
Definition given {S A} (x : option A) : action S A := match x with Some a => mret a | None => undefined end.

(** ** The connection *)

(** [Again]: a read that is interrupted ([EINTR], [EAGAIN]); [Broken]: any other error;
    [Silent]: nothing comes before [select] times out.  At the end of the list, and where
    no bytes are in an arrival, the other side has closed the connection. *)
Inductive arrival := Arrived (bs : bytes) | Again | Broken | Silent.

Inductive read_result := Got (bs : bytes) | Interrupted | Failed.

(** What the plug-in sets, besides its result. *)
Record AuthExtras := { ErrorDetail : option bytes; role : option bytes }.

Record process (B : Type) := {
  arrivals : list arrival; written : bytes; extras : AuthExtras; broker : B
}.
Arguments arrivals {B}. Arguments written {B}. Arguments extras {B}. Arguments broker {B}.
Arguments Build_process {B}.

Definition set_arrivals {B} (l : list arrival) (s : process B) : process B :=
  {| arrivals := l; written := written s; extras := extras s; broker := broker s |}.
Definition add_written {B} (bs : bytes) (s : process B) : process B :=
  {| arrivals := arrivals s; written := written s ++ bs; extras := extras s; broker := broker s |}.
Definition set_extras {B} (e : AuthExtras) (s : process B) : process B :=
  {| arrivals := arrivals s; written := written s; extras := e; broker := broker s |}.
Definition set_broker {B} (b : B) (s : process B) : process B :=
  {| arrivals := arrivals s; written := written s; extras := extras s; broker := b |}.

(** [false]: timed out. *)
Definition select {B} : action (process B) bool := fun s =>
  match arrivals s with
  | Silent :: l => Done false (set_arrivals l s)
  | _ => Done true s
  end.

(** At most [n] bytes; a read waits through silence. *)
Fixpoint read_from (l : list arrival) (n : nat) : read_result * list arrival :=
  match l with
  | [] => (Got [], [])
  | Silent :: l => read_from l n
  | Again :: l => (Interrupted, l)
  | Broken :: l => (Failed, l)
  | Arrived bs :: l => (Got (take n bs), match drop n bs with [] => l | r => Arrived r :: l end)
  end.
Definition commRead {B} (n : Z) : action (process B) read_result := fun s =>
  let '(r, l) := read_from (arrivals s) (Z.to_nat n) in Done r (set_arrivals l s).

Definition commWrite {B} (bs : bytes) : action (process B) unit := fun s => Done tt (add_written bs s).

(** More rounds of reading than can happen. *)
Definition cost (a : arrival) : nat := match a with Arrived bs => S (length bs) | _ => 1%nat end.
Definition rounds (l : list arrival) : nat := S (list_sum (cost <$> l)).

Definition CR : Z := 13.
Definition LF : Z := 10.
Definition crlf : bytes := [CR; LF].

(** ** Settings *)

Record settings := {
  keepaliveTimeout : Z; keepaliveMaxRequest : Z;
  (** [CHUNK_NEVER], [CHUNK_ALLOW], [CHUNK_FORCE] *)
  chunkMode : Z;
  doBa : bool; doUdsAuth : bool;
  (** the connection is a socket of the file system *)
  uds_peer : bool;
  (** [ALLOW_UPDATE_EXPIRED_PW] *)
  allow_update_expired_pw : bool;
  (** result and value of [getControlUNum] for [httpMaxContentLength] *)
  httpMaxContentLength : Z * Z
}.

Definition CHUNK_NEVER : Z := 0.
Definition CHUNK_FORCE : Z := 2.
Definition UINT_MAX : Z := 2 ^ 32 - 1.

Definition AUTH_PASS : Z := 1.
Definition AUTH_FAIL : Z := 0.
Definition AUTH_EXPIRED : Z := -1.
Definition AUTH_SERVTEMP : Z := -2.
Definition AUTH_SERVPERM : Z := -3.
Definition HCR_EXPIRED_PW : Z := 1.
Definition HCR_UPDATE_PW : Z := 2.

(** ** The buffer *)

Record Buffer := { data : bytes; size : Z; ptr : Z }.
Definition length_of (b : Buffer) : Z := strlen (data b).
Definition emptyBuf : Buffer := {| data := []; size := 0; ptr := 0 |}.

(** The NUL behind the data must fit too. *)
Definition add2buffer (b : Buffer) (str : bytes) : option Buffer :=
  let old := if size b =? 0 then [] else data b in
  let size := if size b =? 0 then strlen str + 500
              else if size b <=? strlen old + strlen str then strlen old + strlen str + 500
              else size b in
  if strlen old + strlen str <? size then Some {| data := old ++ str; size := size; ptr := ptr b |} else None.

(** Where a line ends, and the place behind its end. *)
Fixpoint line_end (l : bytes) : option (bytes * bytes) :=
  match l with
  | [] => None
  | c :: l' =>
      if (c =? LF) || (c =? CR)
      then Some ([], match l' with d :: l'' => if (c =? CR) && (d =? LF) then l'' else l' | [] => [] end)
      else '(line, rest) ← line_end l'; Some (c :: line, rest)
  end.

(** A line is a C string: it ends at a NUL in it. *)
Definition getNextHdr (b : Buffer) : option bytes * Buffer :=
  let rest := drop (Z.to_nat (ptr b)) (data b) in
  match line_end rest with
  | Some (line, rest') => (Some (until_nul line), {| data := data b; size := size b; ptr := length_of b - strlen rest' |})
  | None => (None, {| data := data b; size := size b; ptr := Z.max (ptr b) (length_of b) |})
  end.

Definition hdrBufsize : Z := 5000.
Definition hdrLimmit : Z := 5000.

(** [strstr] of the two ends of a header. *)
Definition header_ends (b : Buffer) : bool :=
  let s := until_nul (data b) in
  bool_decide (is_Some (strstr s (crlf ++ crlf))) || bool_decide (is_Some (strstr s [LF; LF])).

(** 0: the header is there, or nothing came; 2: too long; 3: error, time-out or end. *)
Fixpoint getHdrs_loop {B} (fuel : nat) (b : Buffer) (total : Z) : action (process B) (Z * Buffer) :=
  match fuel with
  | O => undefined
  | S fuel =>
      ready ← select;
      if negb ready then mret (3, b) else
      r ← commRead hdrBufsize;
      match r with
      | Interrupted => getHdrs_loop fuel b total
      | Failed => mret (3, b)
      | Got buf =>
          if (strlen buf =? 0) && (size b =? 0) then mret (0, b)
          else if (strlen buf =? 0) && negb (header_ends b) then mret (3, b)
          else
            b ← given (add2buffer b buf);
            let total := total + strlen buf in
            if header_ends b then mret (0, b)
            else if hdrLimmit <=? total then mret (2, b)
            else getHdrs_loop fuel b total
      end
  end.
Definition getHdrs {B} (b : Buffer) : action (process B) (Z * Buffer) :=
  fun s => getHdrs_loop (rounds (arrivals s)) b 0 s.

(** ** The content *)

(** The result ([-1]: timed out, [-2]: error or end), and what was read. *)
Fixpoint readData_loop {B} (fuel : nat) (length : Z) (into : bytes) : action (process B) (Z * bytes) :=
  match fuel with
  | O => undefined
  | S fuel =>
      if length <=? strlen into then mret (strlen into, into) else
      ready ← select;
      if negb ready then mret (-1, into) else
      r ← commRead (length - strlen into);
      match r with
      | Interrupted => readData_loop fuel length into
      | Failed => mret (-2, into)
      | Got [] => mret (-2, into)
      | Got bs => readData_loop fuel length (into ++ bs)
      end
  end.
Definition readData {B} (length : Z) : action (process B) (Z * bytes) :=
  fun s => readData_loop (rounds (arrivals s)) length [] s.

(** The content has room for 8 bytes more; a length that is negative as an [int] leaves
    it without a value. *)
Definition getPayload {B} (b : Buffer) (content_length : Z) : action (process B) (Z * bytes) :=
  let rest := drop (Z.to_nat (ptr b)) (data b) in
  let c := strlen rest in
  if content_length <? c then mret (-1, [])
  else
    let allocated := u32 (content_length + 8) in
    if allocated <=? content_length then undefined
    else if s32 (content_length - c) <? 0 then undefined
    else
      '(rc, more) ← readData (s32 (content_length - c));
      mret (rc, rest ++ more).

(** ** Answers *)

(** The text that [snprintf] leaves in a buffer of [n] bytes. *)
Definition snprintf (n : Z) (s : bytes) : bytes := take (Z.to_nat (n - 1)) s.

Definition server : bytes := cstr "Server: sfcHttpd" ++ crlf.
Definition clength : bytes := cstr "Content-Length: 0" ++ crlf.
Definition cclose : bytes := cstr "Connection: close" ++ crlf.

(** No further request is taken on this connection. *)
Definition closing (st : settings) (numRequest : Z) : bool :=
  (keepaliveTimeout st =? 0) || (keepaliveMaxRequest st <=? numRequest).

(** The protocol is that of the request; it is a null pointer when there is none. *)
Definition genError {B} (st : settings) (numRequest : Z) (protocol : option bytes) (status : Z) (title : bytes) (more : option bytes) :
    action (process B) unit :=
  protocol ← given protocol;
  _ ← commWrite (snprintf 1000 (protocol ++ cstr " " ++ print_dec status ++ cstr " " ++ title ++ crlf));
  _ ← commWrite (default [] more);
  _ ← commWrite server;
  _ ← commWrite clength;
  _ ← (if closing st numRequest then commWrite cclose else mret tt);
  commWrite crlf.

(** The pieces of an answer; those that are null pointers are left out. *)
Abbreviation segments := (list (option bytes)).
Record RespSegments := { resp_chunkedMode : Z; resp_rc : Z; resp_segments : segments }.

Definition segments_text (l : segments) : bytes := concat (default [] <$> l).

Definition head : bytes := cstr "HTTP/1.1 200 OK" ++ crlf.
Definition cont : bytes := cstr "Content-Type: application/xml; charset=" ++ [34] ++ cstr "utf-8" ++ [34] ++ crlf.
Definition cach : bytes := cstr "Cache-Control: no-cache" ++ crlf.
Definition op : bytes := cstr "CIMOperation: MethodResponse" ++ crlf.
Definition tenc : bytes := cstr "Transfer-encoding: chunked" ++ crlf.
Definition trls : bytes := cstr "Trailer: CIMError, CIMStatusCode, CIMStatusCodeDescription, SFCBErrorDetail" ++ crlf.

(** The length is an [int]. *)
Definition writeResponse {B} (st : settings) (numRequest : Z) (rs : segments) : action (process B) unit :=
  let len := s32 (strlen (segments_text rs)) in
  _ ← commWrite head;
  _ ← commWrite cont;
  _ ← commWrite (cstr "Content-Length: " ++ print_dec len ++ crlf);
  _ ← commWrite cach;
  _ ← commWrite op;
  _ ← (if closing st numRequest then commWrite cclose else mret tt);
  _ ← commWrite crlf;
  commWrite (segments_text rs).

(** ** Answers in chunks *)

Definition writeChunkHeaders {B} (st : settings) (numRequest : Z) : action (process B) unit :=
  _ ← commWrite head;
  _ ← commWrite cont;
  _ ← commWrite cach;
  _ ← commWrite op;
  _ ← commWrite tenc;
  _ ← commWrite trls;
  if closing st numRequest then commWrite cclose else mret tt.

(** What makes the pieces out of the response of a provider (cimRequest.c). *)
Inductive generator := genFirstChunkErrorResponse | genFirstChunkResponses | genChunkResponses | genLastChunkResponses.

(** A response as it is given to the chunk function: result code (1: no error), whether
    there are more chunks, and whether all providers are done. *)
Record BinResponse := { rh_rc : Z; moreChunks : bool; providers_done : bool; pieces : generator -> segments }.

Definition cimMsg : list bytes := cstr <$>
  ["ok"; "A general error occured that is not covered by a more specific error code";
   "Access to a CIM resource was not available to the client"; "The target namespace does not exist";
   "One or more parameter values passed to the method were invalid"; "The specified Class does not exist";
   "The requested object could not be found"; "The requested operation is not supported";
   "Operation cannot be carried out on this class since it has subclasses";
   "Operation cannot be carried out on this class since it has instances";
   "Operation cannot be carried out since the specified superclass does not exist";
   "Operation cannot be carried out because an object already exists"; "The specified Property does not exist";
   "The value supplied is incompatible with the type"; "The query language is not recognized or supported";
   "The query is not valid for the specified query language"; "The extrinsic Method could not be executed";
   "The specified extrinsic Method does not exist"]%string.

Definition getErrTrailer (rc : Z) (m : option bytes) : bytes :=
  match m with
  | Some (c :: m) => cstr "CIMStatusCodeDescription: " ++ (c :: m) ++ crlf
  | _ =>
      match (if (0 <? rc) && (rc <? 18) then cimMsg !! Z.to_nat rc else None) with
      | Some s => cstr "CIMStatusCodeDescription: " ++ s ++ crlf
      | None => cstr "CIMStatusCodeDescription: *Unknown*" ++ crlf
      end
  end.

(** [printf] with [%x]. *)
Definition hex_digit (d : Z) : Z := if d <? 10 then 48 + d else 87 + d.
Fixpoint uhex (fuel : nat) (v : Z) : bytes :=
  match fuel with
  | O => []
  | S fuel => if v <? 16 then [hex_digit v] else uhex fuel (v / 16) ++ [hex_digit (v mod 16)]
  end.
Definition print_hex (v : Z) : bytes := uhex (dec_fuel v) v.

(** A chunk of no bytes would be the last one. *)
Definition write_chunk {B} (rs : segments) : action (process B) unit :=
  let text := segments_text rs in
  let len := u32 (strlen text) in
  _ ← (if len =? 0 then mret tt else commWrite (crlf ++ print_hex len ++ crlf));
  commWrite text.

Definition write_trailers {B} (rc : Z) : action (process B) unit :=
  _ ← commWrite (crlf ++ cstr "0" ++ crlf);
  _ ← commWrite (cstr "CIMStatusCode: " ++ print_dec (rc - 1) ++ crlf);
  _ ← (if rc =? 1 then mret tt else commWrite (getErrTrailer (rc - 1) None));
  commWrite crlf.

(** Mode 1: nothing was written yet; returns the new mode. *)
Definition writeChunkResponse {B} (st : settings) (numRequest : Z) (mode : Z) (rh : BinResponse) : action (process B) Z :=
  if (mode =? 1) && negb (rh_rc rh =? 1) then
    _ ← writeResponse st numRequest (pieces rh genFirstChunkErrorResponse); mret mode
  else
    _ ← (if mode =? 1 then writeChunkHeaders st numRequest else mret tt);
    let more := moreChunks rh && ((mode =? 1) || (rh_rc rh =? 1)) in
    let kind := if mode =? 1 then genFirstChunkResponses
                else if moreChunks rh || negb (providers_done rh) then genChunkResponses else genLastChunkResponses in
    _ ← (if rh_rc rh =? 1 then write_chunk (pieces rh kind) else mret tt);
    _ ← (if negb more && providers_done rh then write_trailers (rh_rc rh) else mret tt);
    mret (if mode =? 1 then 2 else mode).

Fixpoint write_chunks {B} (st : settings) (numRequest : Z) (mode : Z) (l : list BinResponse) : action (process B) unit :=
  match l with
  | [] => mret tt
  | rh :: l => mode ← writeChunkResponse st numRequest mode rh; write_chunks st numRequest mode l
  end.

(** ** The header of a request *)

Record Headers := {
  httpHdr : bytes; path : bytes; protocol : bytes; authorization : bytes; content_length : Z;
  content_type : option bytes; host : option bytes; useragent : bytes; trailers : Z; discardInput : Z; hcrFlags : Z
}.
Definition set_authorization (x : bytes) (h : Headers) : Headers :=
  {| httpHdr := httpHdr h; path := path h; protocol := protocol h; authorization := x; content_length := content_length h; content_type := content_type h;
     host := host h; useragent := useragent h; trailers := trailers h; discardInput := discardInput h; hcrFlags := hcrFlags h |}.
Definition set_content_length (x : Z) (h : Headers) : Headers :=
  {| httpHdr := httpHdr h; path := path h; protocol := protocol h; authorization := authorization h; content_length := x; content_type := content_type h;
     host := host h; useragent := useragent h; trailers := trailers h; discardInput := discardInput h; hcrFlags := hcrFlags h |}.
Definition set_content_type (x : option bytes) (h : Headers) : Headers :=
  {| httpHdr := httpHdr h; path := path h; protocol := protocol h; authorization := authorization h; content_length := content_length h; content_type := x;
     host := host h; useragent := useragent h; trailers := trailers h; discardInput := discardInput h; hcrFlags := hcrFlags h |}.
Definition set_host (x : option bytes) (h : Headers) : Headers :=
  {| httpHdr := httpHdr h; path := path h; protocol := protocol h; authorization := authorization h; content_length := content_length h; content_type := content_type h;
     host := x; useragent := useragent h; trailers := trailers h; discardInput := discardInput h; hcrFlags := hcrFlags h |}.
Definition set_useragent (x : bytes) (h : Headers) : Headers :=
  {| httpHdr := httpHdr h; path := path h; protocol := protocol h; authorization := authorization h; content_length := content_length h; content_type := content_type h;
     host := host h; useragent := x; trailers := trailers h; discardInput := discardInput h; hcrFlags := hcrFlags h |}.
Definition set_trailers (x : Z) (h : Headers) : Headers :=
  {| httpHdr := httpHdr h; path := path h; protocol := protocol h; authorization := authorization h; content_length := content_length h; content_type := content_type h;
     host := host h; useragent := useragent h; trailers := x; discardInput := discardInput h; hcrFlags := hcrFlags h |}.
Definition set_discardInput (x : Z) (h : Headers) : Headers :=
  {| httpHdr := httpHdr h; path := path h; protocol := protocol h; authorization := authorization h; content_length := content_length h; content_type := content_type h;
     host := host h; useragent := useragent h; trailers := trailers h; discardInput := x; hcrFlags := hcrFlags h |}.
Definition set_hcrFlags (x : Z) (h : Headers) : Headers :=
  {| httpHdr := httpHdr h; path := path h; protocol := protocol h; authorization := authorization h; content_length := content_length h; content_type := content_type h;
     host := host h; useragent := useragent h; trailers := trailers h; discardInput := discardInput h; hcrFlags := x |}.

Definition blanks : bytes := [32; 9; CR; LF].
Definition is_blank (c : Z) : bool := existsb (Z.eqb c) blanks.
Definition is_tab (c : Z) : bool := (c =? 32) || (c =? 9).
Definition skip_tabs (s : bytes) : bytes := drop (strspn s is_tab) s.

(** Verb, path and protocol of the first line; else the protocol as it is left: what it
    was set to at first, or the null pointer that was not found. *)
Definition request_line (hdr : option bytes) : (bytes * bytes * bytes) + option bytes :=
  match hdr with
  | None => inr (Some (cstr "HTTP/1.1"))
  | Some tmp =>
      match strpbrk tmp blanks with
      | None => inr (Some (cstr "HTTP/1.1"))
      | Some at_blank =>
          let path := drop 1 at_blank in
          let path := drop (strspn path is_blank) path in
          match strpbrk path blanks with
          | None => inr None
          | Some p => inl (cut tmp at_blank, cut path p, drop 1 p)
          end
      end
  end.

Definition first_headers (verb path protocol : bytes) (discard : Z) : Headers :=
  {| httpHdr := verb; path := path; protocol := protocol; authorization := []; content_length := UINT_MAX;
     content_type := None; host := None; useragent := []; trailers := 0; discardInput := discard; hcrFlags := 0 |}.

(** [strtoul] with [errno]. *)
Definition strtoul_erange (s : bytes) : bool := 2 ^ 64 <=? snd (scan_number s).

Definition is_header (hdr : bytes) (name : bytes) : bool := strncasecmp hdr name (strlen name) =? 0.
Definition header_value (hdr : bytes) (name : bytes) : bytes := skip_tabs (drop (length name) hdr).

Section requests.
Context {B : Type} (st : settings).
Abbreviation act := (action (process B)).

(** An error answer to a request whose protocol is known. *)
Definition error_for (numRequest : Z) (h : Headers) (status : Z) (title : bytes) (more : option bytes) : act unit :=
  genError st numRequest (Some (protocol h)) status title more.
Definition fatal {A} (numRequest : Z) (h : Headers) (status : Z) (title : bytes) : act A :=
  _ ← error_for numRequest h status title None; exit_process.

Definition content_length_header (numRequest : Z) (h : Headers) (cp : bytes) : act Headers :=
  if at0 cp =? 45 then fatal numRequest h 400 (cstr "Negative Content-Length")
  else
    let clen := strtoull cp in
    if strtoul_erange cp then fatal numRequest h 400 (cstr "Error converting Content-Length to a decimal value")
    else
      let '(rc, maxLen) := httpMaxContentLength st in
      if negb (rc =? 0) || (maxLen =? 0) then fatal numRequest h 501 (cstr "Server misconfigured (httpMaxContentLength)")
      else if (UINT_MAX <=? clen) || (negb (maxLen =? 0) && (maxLen <? clen)) then
        fatal numRequest h 413 (cstr "Request Entity Too Large")
      else mret (set_content_length clen h).

(** An error that is answered once; the rest of the request is still read. *)
Definition discard_with (numRequest : Z) (h : Headers) (status : Z) (title : bytes) : act Headers :=
  if discardInput h =? 0 then _ ← error_for numRequest h status title None; mret (set_discardInput 2 h) else mret h.

Definition bad_host (host : bytes) : bool := bool_decide (is_Some (strchr host 47)) || (at0 host =? 46).

Definition header_line (numRequest : Z) (h : Headers) (hdr : bytes) : act Headers :=
  if is_header hdr (cstr "Authorization:") then mret (set_authorization (header_value hdr (cstr "Authorization:")) h)
  else if is_header hdr (cstr "Content-Length:") then content_length_header numRequest h (header_value hdr (cstr "Content-Length:"))
  else if is_header hdr (cstr "Content-Type:") then mret (set_content_type (Some (header_value hdr (cstr "Content-Type:"))) h)
  else if is_header hdr (cstr "Host:") then
    let host := header_value hdr (cstr "Host:") in
    let h := set_host (Some host) h in
    if bad_host host then discard_with numRequest h 400 (cstr "Bad Request") else mret h
  else if is_header hdr (cstr "User-Agent:") then mret (set_useragent (header_value hdr (cstr "User-Agent:")) h)
  else if is_header hdr (cstr "TE:") then
    mret (if is_header (header_value hdr (cstr "TE:")) (cstr "trailers") then set_trailers 1 h else h)
  else if is_header hdr (cstr "Expect:") then discard_with numRequest h 417 (cstr "Expectation Failed")
  else if allow_update_expired_pw st && is_header hdr (cstr "Pragma: UpdateExpiredPassword") then
    mret (set_hcrFlags (Z.lor (hcrFlags h) HCR_UPDATE_PW) h)
  else mret h.

(** Up to the empty line; each line takes a byte at least. *)
Fixpoint header_lines (fuel : nat) (numRequest : Z) (h : Headers) (b : Buffer) : act (Headers * Buffer) :=
  match fuel with
  | O => undefined
  | S fuel =>
      let '(hdr, b) := getNextHdr b in
      match hdr with
      | None | Some [] => mret (h, b)
      | Some hdr => h ← header_line numRequest h hdr; header_lines fuel numRequest h b
      end
  end.

(** ** Credentials *)

Definition get_extras {A} (f : AuthExtras -> A) : act A := fun s => Done (f (extras s)) s.

(** The plug-in gets the user, the password (a null pointer when there is no colon) and
    what it has set before; [None]: it could not be loaded. *)
Context (authenticate : option (bytes -> option bytes -> AuthExtras -> Z * AuthExtras)).

Definition split_credentials (auth : bytes) : bytes * option bytes :=
  match strchr auth 58 with
  | Some pw => (cut auth pw, Some (drop 1 pw))
  | None => (auth, None)
  end.

Definition ask_plugin (f : bytes -> option bytes -> AuthExtras -> Z * AuthExtras) (user : bytes) (pw : option bytes) : act Z :=
  fun s => let '(ret, e) := f user pw (extras s) in Done ret (set_extras e s).

(** The result and the principal. *)
Definition baValidate (cred : bytes) : act (Z * option bytes) :=
  if negb (is_header cred (cstr "basic ")) then mret (AUTH_FAIL, None)
  else
    auth ← given (decode64 (drop 6 cred));
    auth ← given auth;
    let '(user, pw) := split_credentials (until_nul auth) in
    match authenticate with
    | None => mret (AUTH_FAIL, None)
    | Some f =>
        ret ← ask_plugin f user pw;
        mret (if existsb (Z.eqb ret) [AUTH_PASS; AUTH_EXPIRED; AUTH_SERVTEMP; AUTH_SERVPERM] then ret else AUTH_FAIL, Some user)
    end.

Definition www_authenticate : bytes := cstr "WWW-Authenticate: Basic realm=" ++ [34] ++ cstr "cimom" ++ [34] ++ crlf.

(** [strcat] into the 300 bytes of [more]. *)
Definition strcat_more (more s : bytes) : option bytes := if strlen more + strlen s <? 300 then Some (more ++ s) else None.

(** The principal, the further header lines (or the text for an expired password), and
    what becomes of the request. *)
Definition check_credentials (numRequest : Z) (h : Headers) : act (Headers * option bytes * bytes) :=
  '(barc, principal) ← baValidate (authorization h);
  detail ← get_extras ErrorDetail;
  let more := match detail with Some d => snprintf 256 (cstr "SFCBErrorDetail: " ++ d ++ crlf) | None => [] end in
  let refuse (status : Z) (title more : bytes) : act (Headers * option bytes * bytes) :=
    _ ← error_for numRequest h status title (Some more); mret (set_discardInput 1 h, principal, more) in
  if barc =? AUTH_EXPIRED then
    if allow_update_expired_pw st then
      mret (set_hcrFlags (Z.lor (hcrFlags h) HCR_EXPIRED_PW) h, principal, snprintf 256 (default (cstr "Expired Password") detail))
    else more ← given (strcat_more more www_authenticate); refuse 401 (cstr "Unauthorized") more
  else if barc =? AUTH_PASS then mret (set_hcrFlags 0 h, principal, more)
  else if barc =? AUTH_SERVPERM then refuse 500 (cstr "Server Error") more
  else if barc =? AUTH_SERVTEMP then refuse 503 (cstr "Service Unavailable") more
  else more ← given (strcat_more more www_authenticate); refuse 401 (cstr "Unauthorized") more.

(** ** A request *)

Record CimRequestContext := {
  cimDoc : bytes; principal : option bytes; ctx_role : option bytes; ctx_host : option bytes; teTrailers : Z;
  cimDocLength : Z; contentType : option bytes; verb : bytes; ctx_path : bytes
}.

(** [handleCimRequest]: the chunks it writes on the way, and the answer. *)
Context (handleCimRequest : CimRequestContext -> Z -> bytes -> B -> B * list BinResponse * RespSegments).

Definition request_context (h : Headers) (principal role : option bytes) (content : bytes) : CimRequestContext :=
  {| cimDoc := content; principal := principal; ctx_role := role; ctx_host := host h;
     teTrailers := if chunkMode st =? CHUNK_NEVER then 0 else if chunkMode st =? CHUNK_FORCE then 1 else trailers h;
     cimDocLength := content_length h; contentType := content_type h; verb := httpHdr h; ctx_path := path h |}.

Definition call_handler (ctx : CimRequestContext) (flags : Z) (more : bytes) : act (list BinResponse * RespSegments) :=
  fun s => let '(b, chunks, rs) := handleCimRequest ctx flags more (broker s) in Done (chunks, rs) (set_broker b s).

Definition answer_request (numRequest : Z) (h : Headers) (principal : option bytes) (more content : bytes) : act unit :=
  role ← get_extras role;
  r ← call_handler (request_context h principal role content) (hcrFlags h) more;
  _ ← write_chunks st numRequest 1 (fst r);
  let rs := snd r in
  if resp_chunkedMode rs =? 0 then
    if resp_rc rs =? 1 then error_for numRequest h 400 (cstr "Bad Request, unrecognized content type") None
    else writeResponse st numRequest (resp_segments rs)
  else mret tt.

(** What was read, [rc] telling how: the first line and the other ones. *)
Definition parse_header (numRequest : Z) (rc : Z) (b : Buffer) : act (Headers * Buffer) :=
  let first_error := genError st numRequest (Some (cstr "HTTP/1.1")) 400 (cstr "Bad Request") None in
  _ ← (if rc =? 2 then first_error else if rc =? 3 then _ ← first_error; exit_process else mret tt);
  if size b =? 0 then exit_process
  else
    let '(hdr, b) := getNextHdr b in
    match request_line hdr with
    | inr protocol => _ ← genError st numRequest protocol 400 (cstr "Bad Request") None; exit_process
    | inl (verb, path, protocol) =>
        header_lines (S (length (data b))) numRequest (first_headers verb path protocol (if rc =? 2 then 2 else 0)) b
    end.

(** The header, up to where the content starts. *)
Definition read_header (numRequest : Z) : act (Headers * Buffer) :=
  '(rc, b) ← getHdrs emptyBuf; parse_header numRequest rc b.

(** The content and the answer.  0: the connection can go on; 1: leave. *)
Definition finish_request (numRequest : Z) (h : Headers) (b : Buffer) (principal : option bytes) (more : bytes) : act Z :=
  if content_length h =? UINT_MAX then
    _ ← (if discardInput h =? 0 then error_for numRequest h 411 (cstr "Length Required") None else mret tt); exit_process
  else
    '(rc, content) ← getPayload b (content_length h);
    if rc <? 0 then fatal numRequest h 400 (cstr "Bad Request")
    else if negb (discardInput h =? 0) then mret (discardInput h - 1)
    else _ ← answer_request numRequest h principal more content; mret 0.

Definition doHttpRequest (numRequest : Z) : act Z :=
  '(h, b) ← read_header numRequest;
  let authorized := (discardInput h =? 0) && doUdsAuth st && uds_peer st in
  '(h, principal, more) ← (if negb authorized && (discardInput h =? 0) && doBa st then check_credentials numRequest h
                           else mret (h, None, []));
  finish_request numRequest h b principal more.

(** ** A connection *)

(** [numRequest] counts up to [keepaliveMaxRequest]. *)
Fixpoint request_loop (fuel : nat) (numRequest : Z) : act unit :=
  match fuel with
  | O => undefined
  | S fuel =>
      let numRequest := numRequest + 1 in
      r ← doHttpRequest numRequest;
      if negb (r =? 0) then mret tt
      else if closing st numRequest then mret tt
      else ready ← select; if negb ready then mret tt else request_loop fuel numRequest
  end.
Definition handleHttpRequest : act unit := request_loop (S (Z.to_nat (keepaliveMaxRequest st))) 0.
End requests.
