(* ===== verification/HttpSpec.v ===== *)
(** * What the handler gets of a request

    A well-formed request that is accepted reaches the handler as it was sent, however its
    bytes arrive. *)

From S2P Require Import Prelude CString Base64 HttpAdapter.

(** ** Computations *)

Lemma bind_done {S A C} (m : action S A) (f : A -> action S C) s a s' : m s = Done a s' -> (m ≫= f) s = f a s'.
Proof. unfold mbind, action_bind. by intros ->. Qed.

Lemma given_some {S A} (x : option A) (a : A) (s : S) : x = Some a -> given x s = Done a s.
Proof. by intros ->. Qed.

(** ** The lines of a header *)

Definition line_text (l : bytes) : bytes := l ++ crlf.
Definition lines_text (ls : list bytes) : bytes := concat (line_text <$> ls).

(** No end of line and no NUL. *)
Definition plain_char (c : Z) : Prop := c <> 0 /\ c <> CR /\ c <> LF.
Definition plain_text (s : bytes) : Prop := Forall plain_char s.
Definition plain_line (l : bytes) : Prop := plain_text l /\ l <> [].

Lemma plain_until l : plain_text l -> until_nul l = l.
Proof. induction 1 as [|c l (Hc & _) _ IH]; [done|]. cbn. by rewrite (proj2 (Z.eqb_neq c 0)), IH. Qed.

Lemma line_end_plain l rest : plain_text l -> line_end (l ++ crlf ++ rest) = Some (l, rest).
Proof.
  induction 1 as [|c l (_ & Hr & Hf) _ IH]; [done|]. cbn [app line_end].
  rewrite (proj2 (Z.eqb_neq c LF)), (proj2 (Z.eqb_neq c CR)) by done. cbn [orb]. by rewrite IH.
Qed.

(** The next line of a buffer. *)
Lemma next_line b pre l rest : data b = pre ++ l ++ crlf ++ rest -> ptr b = strlen pre -> plain_text l ->
  exists b', getNextHdr b = (Some l, b') /\ data b' = (pre ++ l ++ crlf) ++ rest /\ ptr b' = strlen (pre ++ l ++ crlf) /\ size b' = size b.
Proof.
  intros Hd Hp Hl. unfold getNextHdr, length_of. rewrite Hp, Hd. unfold strlen at 1. rewrite Nat2Z.id, drop_app_length, line_end_plain by done.
  rewrite plain_until by done. eexists. split; [done|]. cbn [data ptr size]. split_and!; [by rewrite <- !app_assoc| |done].
  rewrite !strlen_app. lia.
Qed.

(** ** Where a header ends *)

Lemma strstr_app h needle : is_Some (strstr h needle) <-> exists a b, h = a ++ needle ++ b.
Proof.
  assert (Hp : forall p s, is_prefix p s = true <-> exists b, s = p ++ b).
  { induction p as [|a p IH]; intros s; [split; [by exists s|done]|]. destruct s as [|c s]; [split; [done|by intros [b ?]]|].
    cbn [is_prefix]. rewrite andb_true_iff, Z.eqb_eq, IH. split.
    - intros [-> [b ->]]. by exists b.
    - intros [b [= -> ->]]. split; [done|by exists b]. }
  induction h as [|c h IH]; cbn [strstr].
  - destruct (is_prefix needle []) eqn:E.
    + split; [|by eexists]. apply Hp in E as [b ->]. intros _. by exists [], b.
    + split; [by intros [? ?]|]. intros (a & b & H). destruct a; [|done].
      assert (is_prefix needle [] = true) by (apply Hp; by exists b). congruence.
  - destruct (is_prefix needle (c :: h)) eqn:E.
    + split; [|by eexists]. apply Hp in E as [b ->]. intros _. by exists [], b.
    + rewrite IH. split; intros (a & b & H).
      * exists (c :: a), b. by rewrite H.
      * destruct a as [|d a]; [|injection H as -> ->; by exists a, b].
        assert (is_prefix needle (c :: h) = true) by (apply Hp; by exists b). congruence.
Qed.

Definition header_text (ls : list bytes) : bytes := lines_text ls ++ crlf.

Lemma lines_text_cons l ls : lines_text (l :: ls) = l ++ crlf ++ lines_text ls.
Proof. unfold lines_text, line_text. cbn. by rewrite <- app_assoc. Qed.

(** A text of four or two characters in a header starts at the end of a line. *)
Lemma header_split c l rest a t : plain_text l -> (c = CR \/ c = LF) -> l ++ crlf ++ rest = a ++ c :: t ->
  (a = l /\ c = CR /\ t = LF :: rest) \/ (a = l ++ [CR] /\ c = LF /\ t = rest) \/ exists a', a = l ++ crlf ++ a' /\ rest = a' ++ c :: t.
Proof.
  intros Hl Hc. revert a. induction Hl as [|d l (_ & Hr & Hf) _ IH]; intros a E.
  - destruct a as [|x [|y a]]; cbn in E.
    + left. by injection E as <- <-.
    + right; left. by injection E as <- <- <-.
    + right; right. injection E as <- <- ->. by exists a.
  - destruct a as [|x a]; cbn in E; [by destruct Hc as [-> | ->]; injection E as ? _|].
    injection E as <- E. destruct (IH a E) as [(-> & -> & ->)|[(-> & -> & ->)|(a' & -> & ->)]]; [by left|by right; left|].
    right; right. by exists a'.
Qed.

Lemma header_text_start ls c t : Forall plain_line ls -> header_text ls = c :: t -> c <> LF /\ (c = CR -> ls = [] /\ t = [LF]).
Proof.
  intros Hls E. destruct ls as [|l ls]; [by injection E as <- <-|]. apply Forall_cons in Hls as [[Hl Hn] _].
  unfold header_text in E. rewrite lines_text_cons in E. destruct l as [|d l]; [done|]. apply Forall_cons in Hl as [(_ & Hr & Hf) _].
  by injection E as <- _.
Qed.

(** Only the end of the header is its end. *)
Lemma header_end_once ls : Forall plain_line ls ->
  (forall a d, header_text ls = a ++ (crlf ++ crlf) ++ d -> d = []) /\ (forall a d, header_text ls <> a ++ [LF; LF] ++ d).
Proof.
  induction ls as [|l ls IH]; intros Hls.
  - split; intros a d E.
    + apply (f_equal (@length Z)) in E. rewrite !length_app in E. cbn in E. lia.
    + destruct a as [|x a]; [done|]. apply (f_equal (@length Z)) in E. rewrite !length_app in E. cbn in E. lia.
  - pose proof Hls as Hls0. apply Forall_cons in Hls as [[Hl Hn] Hls]. destruct (IH Hls) as [IH1 IH2].
    assert (E0 : header_text (l :: ls) = l ++ crlf ++ header_text ls).
    { unfold header_text. by rewrite lines_text_cons, <- !app_assoc. }
    rewrite E0. split; intros a d E.
    + cbn [app crlf] in E. destruct (header_split CR l _ a _ Hl (or_introl eq_refl) E) as [(-> & _ & Ht)|[(_ & Hb & _)|(a' & -> & E')]].
      * injection Ht as Ht. symmetry in Ht. destruct (header_text_start ls CR _ Hls Ht) as [_ H]. by destruct (H eq_refl) as [_ [= ->]].
      * done.
      * by apply (IH1 a' d).
    + cbn [app] in E. destruct (header_split LF l _ a _ Hl (or_intror eq_refl) E) as [(_ & Hb & _)|[(-> & _ & Ht)|(a' & -> & E')]].
      * done.
      * symmetry in Ht. by destruct (header_text_start ls LF _ Hls Ht) as [H _].
      * by apply (IH2 a' d).
Qed.

Lemma header_nonzero ls : Forall plain_line ls -> Forall (fun c => c <> 0) (header_text ls).
Proof.
  intros H. unfold header_text. apply Forall_app. split; [|by repeat constructor]. induction H as [|l ls [Hl _] _ IH]; [constructor|].
  rewrite lines_text_cons. apply Forall_app. split; [|apply Forall_app; split; [by repeat constructor|exact IH]].
  eapply Forall_impl; [exact Hl|]. by intros c (? & _).
Qed.

Lemma header_last l ls : exists a, header_text (l :: ls) = a ++ crlf ++ crlf.
Proof.
  revert l. induction ls as [|l' ls IH]; intros l; unfold header_text in *; rewrite lines_text_cons.
  - exists l. cbn. by rewrite <- app_assoc.
  - destruct (IH l') as [a Ha]. exists (l ++ crlf ++ a). by rewrite <- !app_assoc, Ha.
Qed.

(** The end of a header is seen as soon as all of it is there, and not before. *)
Lemma header_seen l ls body d t b : Forall plain_line (l :: ls) -> header_text (l :: ls) ++ body = d ++ t -> data b = d ->
  header_ends b = (strlen (header_text (l :: ls)) <=? strlen d).
Proof.
  intros Hls E Hd. unfold header_ends. rewrite Hd. pose proof (header_nonzero _ Hls) as H0.
  destruct (header_end_once _ Hls) as [H1 H2]. destruct (header_last l ls) as [a Ha].
  set (H := header_text (l :: ls)) in *. apply app_eq_inv in E as [(x & -> & ->)|(x & -> & ->)].
  - assert (Hu : until_nul d = d).
    { apply Forall_app in H0 as [H0 _]. clear -H0. induction H0 as [|c d Hc _ IH]; [done|]. cbn. by rewrite (proj2 (Z.eqb_neq c 0)), IH. }
    rewrite Hu. destruct x as [|c x].
    + rewrite app_nil_r in *. rewrite Z.leb_refl. apply orb_true_iff. left. apply bool_decide_eq_true. apply strstr_app. exists a, [].
      by rewrite app_nil_r.
    + rewrite (proj2 (Z.leb_gt _ _)) by (autorewrite with strlen; pose proof (strlen_nonneg x); lia). apply orb_false_iff.
      split; apply bool_decide_eq_false; rewrite strstr_app; intros (u & v & E).
      * specialize (H1 u (v ++ c :: x)). rewrite E, <- !app_assoc in H1. specialize (H1 eq_refl). by destruct v.
      * apply (H2 u (v ++ c :: x)). by rewrite E, <- !app_assoc.
  - rewrite until_nul_app by done. rewrite strlen_app, (proj2 (Z.leb_le _ _)) by (pose proof (strlen_nonneg x); lia).
    apply orb_true_iff. left. apply bool_decide_eq_true, strstr_app. exists a, (until_nul x). by rewrite Ha, <- !app_assoc.
Qed.

(** ** What arrives *)

(** A text in pieces, with interrupted reads before them. *)
Inductive delivers : list arrival -> bytes -> Prop :=
| delivers_nil : delivers [] []
| delivers_again l t : t <> [] -> delivers l t -> delivers (Again :: l) t
| delivers_piece bs l t : bs <> [] -> delivers l t -> delivers (Arrived bs :: l) (bs ++ t).

Lemma delivered_all l : delivers l [] -> l = [].
Proof. intros H. inversion H as [| |bs l' t Hb _ E]; [done|done|]. by destruct bs. Qed.

Lemma rounds_cons a l : rounds (a :: l) = (cost a + rounds l)%nat.
Proof. unfold rounds. cbn [fmap list_fmap list_sum foldr]. unfold list_sum. cbn [foldr]. lia. Qed.

(** A read takes some of the text, or is interrupted. *)
Lemma read_delivered l t rest n : delivers l t -> t <> [] -> (0 < n)%nat -> exists l',
  (read_from (l ++ rest) n = (Interrupted, l' ++ rest) /\ delivers l' t /\ (rounds (l' ++ rest) < rounds (l ++ rest))%nat) \/
  (exists bs t', bs <> [] /\ t = bs ++ t' /\ (length bs <= n)%nat /\ read_from (l ++ rest) n = (Got bs, l' ++ rest) /\ delivers l' t' /\
     (rounds (l' ++ rest) < rounds (l ++ rest))%nat).
Proof.
  intros H Ht Hn. destruct H as [|l t _ H|bs l t Hb H]; [done| |].
  - exists l. left. split; [done|]. split; [exact H|]. cbn [app]. rewrite rounds_cons. cbn. lia.
  - destruct (drop n bs) as [|c r] eqn:E.
    + exists l. right. exists bs, t. cbn [app read_from]. rewrite E. assert (Hl : (length bs <= n)%nat).
      { apply (f_equal length) in E. rewrite length_drop in E. cbn in E. lia. }
      rewrite (take_ge bs n Hl). split_and!; try done. rewrite rounds_cons. cbn. lia.
    + exists (Arrived (c :: r) :: l). right. exists (take n bs), ((c :: r) ++ t). cbn [app read_from]. rewrite E.
      assert (Hl : (n < length bs)%nat).
      { apply (f_equal length) in E. rewrite length_drop in E. cbn in E. lia. }
      split_and!; try done.
      * intros Hx. apply (f_equal length) in Hx. rewrite length_take in Hx. cbn in Hx. lia.
      * change (c :: r ++ t) with ((c :: r) ++ t). by rewrite app_assoc, <- E, take_drop.
      * rewrite length_take. lia.
      * by apply (delivers_piece (c :: r)).
      * apply (f_equal length) in E. rewrite length_drop in E. cbn [length app] in *. rewrite !rounds_cons. cbn [cost length]. lia.
Qed.

Lemma not_silent l t rest {B} (s : process B) : delivers l t -> t <> [] -> arrivals s = l ++ rest -> select s = Done true s.
Proof. intros H Ht E. unfold select. rewrite E. by destruct H. Qed.

Lemma set_arrivals_twice {B} l l' (s : process B) : set_arrivals l (set_arrivals l' s) = set_arrivals l s.
Proof. done. Qed.

Lemma set_arrivals_same {B} (s : process B) : set_arrivals (arrivals s) s = s.
Proof. by destruct s. Qed.

(** ** Reading the header *)

Definition buffer_ok (b : Buffer) : Prop := (size b = 0 /\ data b = []) \/ strlen (data b) < size b.

Lemma add2buffer_ok b str : buffer_ok b ->
  exists b', add2buffer b str = Some b' /\ data b' = data b ++ str /\ ptr b' = ptr b /\ buffer_ok b' /\ 0 < size b'.
Proof.
  intros Hb. pose proof (strlen_nonneg str). pose proof (strlen_nonneg (data b)) as Hn. unfold add2buffer.
  assert (Hd : (if size b =? 0 then [] else data b) = data b).
  { destruct (Z.eqb_spec (size b) 0) as [E|E]; [|done]. destruct Hb as [[_ ->]|Hb]; [done|lia]. }
  rewrite Hd. match goal with |- context [_ <? ?n] => set (sz := n) end.
  assert (Hs : strlen (data b) + strlen str < sz).
  { unfold sz. destruct (Z.eqb_spec (size b) 0) as [E|E]; [destruct Hb as [[_ ->]|Hb]; [rewrite strlen_nil|]; lia|].
    destruct (Z.leb_spec (size b) (strlen (data b) + strlen str)); lia. }
  rewrite (proj2 (Z.ltb_lt _ _) Hs). eexists. split; [done|]. cbn [data ptr size]. split_and!; [done|done| |lia].
  right. cbn [data size]. by rewrite strlen_app.
Qed.

(** The header is read, with what came along of the content, whatever the pieces are. *)
Lemma getHdrs_delivered {B} l0 ls body rest (Hls : Forall plain_line (l0 :: ls)) (Hlen : strlen (header_text (l0 :: ls)) <= hdrLimmit) :
  forall fuel l t b total (s : process B), arrivals s = l ++ rest -> delivers l t -> (rounds (l ++ rest) <= fuel)%nat ->
  buffer_ok b -> header_text (l0 :: ls) ++ body = data b ++ t -> total = strlen (data b) -> header_ends b = false ->
  exists b' l' t', getHdrs_loop fuel b total s = Done (0, b') (set_arrivals (l' ++ rest) s) /\ delivers l' t' /\
    header_text (l0 :: ls) ++ body = data b' ++ t' /\ strlen (header_text (l0 :: ls)) <= strlen (data b') /\ ptr b' = ptr b /\ size b' <> 0.
Proof.
  induction fuel as [|fuel IH]; intros l t b total s Hs Hd Hf Hb Ht Htot Hends; [unfold rounds in Hf; lia|].
  pose proof (header_seen _ _ _ _ _ _ Hls Ht eq_refl) as Hseen. rewrite Hends in Hseen. symmetry in Hseen. apply Z.leb_gt in Hseen.
  assert (Hne : t <> []).
  { intros ->. apply (f_equal strlen) in Ht. rewrite !strlen_app, strlen_nil in Ht. pose proof (strlen_nonneg body). lia. }
  cbn [getHdrs_loop]. rewrite (bind_done _ _ _ _ _ (not_silent l t rest s Hd Hne Hs)). cbn [negb].
  destruct (read_delivered l t rest (Z.to_nat hdrBufsize) Hd Hne) as (l' & [(E & Hd' & Hr)|(bs & t' & Hbs & -> & _ & E & Hd' & Hr)]); [by vm_compute; lia| |].
  - rewrite (bind_done _ _ s Interrupted (set_arrivals (l' ++ rest) s)) by (unfold commRead; by rewrite Hs, E).
    destruct (IH l' t b total (set_arrivals (l' ++ rest) s) eq_refl Hd' ltac:(lia) Hb Ht Htot Hends) as (b' & l'' & t'' & E' & H').
    exists b', l'', t''. by rewrite E'.
  - rewrite (bind_done _ _ s (Got bs) (set_arrivals (l' ++ rest) s)) by (unfold commRead; by rewrite Hs, E).
    pose proof (strlen_nonempty bs Hbs) as Hpos. rewrite (proj2 (Z.eqb_neq _ _)) by lia. cbn [andb].
    destruct (add2buffer_ok b bs Hb) as (b1 & Eb & Hd1 & Hp1 & Hok1 & Hsz).
    rewrite (bind_done _ _ _ _ _ (given_some _ _ _ Eb)).
    assert (Ht1 : header_text (l0 :: ls) ++ body = data b1 ++ t') by (by rewrite Hd1, <- app_assoc).
    pose proof (header_seen _ _ _ _ _ _ Hls Ht1 eq_refl) as Hseen1.
    destruct (header_ends b1) eqn:Hends1.
    + exists b1, l', t'. symmetry in Hseen1. apply Z.leb_le in Hseen1. split_and!; try done; lia.
    + symmetry in Hseen1. apply Z.leb_gt in Hseen1. rewrite (proj2 (Z.leb_gt hdrLimmit (total + strlen bs))) by (rewrite Hd1, strlen_app in Hseen1; lia).
      destruct (IH l' t' b1 (total + strlen bs) (set_arrivals (l' ++ rest) s) eq_refl Hd' ltac:(lia) Hok1 Ht1) as (b' & l'' & t'' & E' & H' & H2 & H3 & Hp & Hsz').
      { rewrite Hd1, strlen_app. lia. }
      { done. }
      exists b', l'', t''. rewrite E'. split_and!; try done. by rewrite Hp.
Qed.

(** ** Reading the content *)

Lemma readData_delivered {B} rest n : forall fuel l t into (s : process B), arrivals s = l ++ rest -> delivers l t -> (rounds (l ++ rest) <= fuel)%nat ->
  strlen into + strlen t = n -> readData_loop fuel n into s = Done (n, into ++ t) (set_arrivals rest s).
Proof.
  induction fuel as [|fuel IH]; intros l t into s Hs Hd Hf Hn; [unfold rounds in Hf; lia|]. cbn [readData_loop].
  destruct t as [|c t].
  - rewrite strlen_nil in Hn. rewrite (proj2 (Z.leb_le _ _)) by lia. apply delivered_all in Hd as ->. cbn [app] in Hs.
    rewrite app_nil_r, <- Hs, set_arrivals_same. unfold mret, action_ret. do 2 f_equal. lia.
  - assert (Hne : c :: t <> []) by done. remember (c :: t) as u eqn:Eu. pose proof (strlen_nonempty u Hne) as Hpos.
    rewrite (proj2 (Z.leb_gt _ _)) by lia. rewrite (bind_done _ _ _ _ _ (not_silent l u rest s Hd Hne Hs)). cbn [negb].
    destruct (read_delivered l u rest (Z.to_nat (n - strlen into)) Hd Hne) as (l' & [(E & Hd' & Hr)|(bs & t' & Hbs & -> & _ & E & Hd' & Hr)]); [lia| |].
    + rewrite (bind_done _ _ s Interrupted (set_arrivals (l' ++ rest) s)) by (unfold commRead; by rewrite Hs, E).
      by rewrite (IH l' u into (set_arrivals (l' ++ rest) s) eq_refl Hd' ltac:(lia) Hn).
    + rewrite (bind_done _ _ s (Got bs) (set_arrivals (l' ++ rest) s)) by (unfold commRead; by rewrite Hs, E).
      destruct bs as [|b bs]; [done|]. rewrite strlen_app in Hn.
      rewrite (IH l' t' (into ++ b :: bs) (set_arrivals (l' ++ rest) s) eq_refl Hd' ltac:(lia)) by (rewrite strlen_app; lia).
      by rewrite <- app_assoc.
Qed.

(** The whole content, when it has the length that was announced. *)
Lemma getPayload_delivered {B} b l rest t content (s : process B) : arrivals s = l ++ rest -> delivers l t ->
  drop (Z.to_nat (ptr b)) (data b) ++ t = content -> strlen content < 2 ^ 31 ->
  exists rc, getPayload b (strlen content) s = Done (rc, content) (set_arrivals rest s) /\ 0 <= rc.
Proof.
  intros Hs Hd Hc Hlen. unfold getPayload. set (r := drop _ _) in *. pose proof (strlen_nonneg r) as Hr. pose proof (strlen_nonneg t) as Ht0.
  assert (El : strlen content = strlen r + strlen t) by (by rewrite <- Hc, strlen_app).
  rewrite (proj2 (Z.ltb_ge _ _)) by lia. rewrite (wrapu_small 32) by lia. rewrite (proj2 (Z.leb_gt _ _)) by lia.
  rewrite (wraps_small 32) by lia. rewrite (proj2 (Z.ltb_ge _ _)) by lia.
  exists (strlen content - strlen r). rewrite (bind_done _ _ s (strlen content - strlen r, t) (set_arrivals rest s)).
  - rewrite Hc. split; [done|lia].
  - unfold readData. rewrite Hs. apply (readData_delivered rest _ _ l t [] s Hs Hd); [lia|rewrite strlen_nil; lia].
Qed.

(** ** The fields of a header *)

Record http_request := { rq_verb : bytes; rq_path : bytes; rq_fields : list (bytes * bytes); rq_body : bytes }.

Definition field_line (f : bytes * bytes) : bytes := fst f ++ cstr ": " ++ snd f.
Definition first_line (r : http_request) : bytes := rq_verb r ++ cstr " " ++ rq_path r ++ cstr " HTTP/1.1".
Definition request_header (r : http_request) : bytes := header_text (first_line r :: (field_line <$> rq_fields r)).
Definition request_text (r : http_request) : bytes := request_header r ++ rq_body r.

Definition named (name : bytes) (f : bytes * bytes) : bool := strcasecmp (fst f) name =? 0.
(** The value of the last field of a name, in any case of its letters. *)
Definition last_field (name : bytes) (fs : list (bytes * bytes)) : option bytes :=
  foldl (fun v f => if named name f then Some (snd f) else v) None fs.

Definition word (s : bytes) : Prop := s <> [] /\ Forall (fun c => plain_char c /\ c <> 32 /\ c <> 9) s.

Record field_ok (st : settings) (body : bytes) (f : bytes * bytes) : Prop := {
  fo_name : plain_line (fst f) /\ Forall (fun c => c <> 58) (fst f);
  fo_value : plain_text (snd f) /\ is_tab (at0 (snd f)) = false;
  fo_length : named (cstr "Content-Length") f = true -> snd f = print_dec (strlen body);
  fo_host : named (cstr "Host") f = true -> bad_host (snd f) = false;
  fo_expect : named (cstr "Expect") f = false;
  fo_pragma : allow_update_expired_pw st = false \/ named (cstr "Pragma") f = false
}.

Record request_ok (st : settings) (r : http_request) : Prop := {
  ro_verb : word (rq_verb r);
  ro_path : word (rq_path r);
  ro_fields : Forall (field_ok st (rq_body r)) (rq_fields r);
  ro_length : is_Some (last_field (cstr "Content-Length") (rq_fields r));
  ro_header : strlen (request_header r) <= hdrLimmit;
  ro_body : strlen (rq_body r) < 2 ^ 31;
  ro_limit : exists maxLen, httpMaxContentLength st = (0, maxLen) /\ 0 < maxLen /\ strlen (rq_body r) <= maxLen
}.

Lemma nocase_eq a b : strcasecmp a b = 0 <-> tolower <$> a = tolower <$> b.
Proof. unfold strcasecmp. apply strcmp_eq. Qed.

Lemma tolower_colon c : tolower c = 58 <-> c = 58.
Proof. unfold tolower. destruct ((65 <=? c) && (c <=? 90)) eqn:E; [|done]. apply andb_true_iff in E as [H1%Z.leb_le H2%Z.leb_le]. lia. Qed.

Lemma no_colon n : Forall (fun c => c <> 58) n -> Forall (fun c => c <> 58) (tolower <$> n).
Proof. intros H. apply Forall_fmap. eapply Forall_impl; [exact H|]. intros c Hc. cbn. by rewrite tolower_colon. Qed.

(** The name of a line is what is before its first colon. *)
Lemma colon_split (a b u v : bytes) : Forall (fun c => c <> 58) a -> Forall (fun c => c <> 58) b -> a ++ 58 :: u = b ++ 58 :: v -> a = b /\ u = v.
Proof.
  intros Ha. revert b. induction Ha as [|c a Hc _ IH]; intros b Hb E; destruct Hb as [|d b Hd Hb]; cbn in E.
  - by injection E.
  - injection E as <- _. done.
  - injection E as -> _. done.
  - injection E as -> E. destruct (IH b Hb E) as [-> ->]. done.
Qed.

Lemma is_header_named nm f : Forall (fun c => c <> 58) nm -> Forall (fun c => c <> 58) (fst f) ->
  is_header (field_line f) (nm ++ [58]) = named nm f.
Proof.
  intros Hnm Hf. unfold is_header, named, strncasecmp. apply eq_true_iff_eq. rewrite !Z.eqb_eq, !nocase_eq.
  unfold strlen. rewrite Nat2Z.id, (take_ge (nm ++ [58])) by lia. unfold field_line. split; intros E.
  - change (cstr ": " ++ snd f) with (58 :: 32 :: snd f) in E.
    apply (f_equal (fun l => l ++ drop (length (nm ++ [58])) (tolower <$> (fst f ++ 58 :: 32 :: snd f)))) in E.
    rewrite fmap_take, take_drop, !fmap_app, !fmap_cons, <- app_assoc in E. cbn [app] in E.
    by apply colon_split in E as [-> _]; [|apply no_colon|apply no_colon].
  - assert (Hl : length (fst f) = length nm) by (apply (f_equal length) in E; by rewrite !length_fmap in E).
    assert (E0 : take (length (nm ++ [58])) (fst f ++ cstr ": " ++ snd f) = fst f ++ [58]).
    { rewrite length_app, <- Hl, <- length_app. change (cstr ": " ++ snd f) with ([58] ++ 32 :: snd f). rewrite app_assoc. apply take_app_length. }
    rewrite E0, !fmap_app. by rewrite E.
Qed.

Lemma header_value_field nm f : named nm f = true -> is_tab (at0 (snd f)) = false -> header_value (field_line f) (nm ++ [58]) = snd f.
Proof.
  intros Hn Ht. apply Z.eqb_eq, nocase_eq in Hn. assert (Hl : length (fst f) = length nm) by (apply (f_equal length) in Hn; by rewrite !length_fmap in Hn).
  unfold header_value, field_line. rewrite length_app, <- Hl. change (cstr ": " ++ snd f) with ([58] ++ 32 :: snd f).
  rewrite app_assoc, <- length_app, drop_app_length. unfold skip_tabs. cbn [strspn is_tab Z.eqb Pos.eqb orb]. destruct (snd f) as [|c v]; [done|].
  cbn [at0] in Ht. cbn [strspn]. by rewrite Ht.
Qed.

(** What the fields that were read have left. *)
Record described (r : http_request) (fs : list (bytes * bytes)) (h : Headers) : Prop := {
  de_line : httpHdr h = rq_verb r /\ path h = rq_path r /\ protocol h = cstr "HTTP/1.1";
  de_authorization : authorization h = default [] (last_field (cstr "Authorization") fs);
  de_length : content_length h = match last_field (cstr "Content-Length") fs with Some _ => strlen (rq_body r) | None => UINT_MAX end;
  de_type : content_type h = last_field (cstr "Content-Type") fs;
  de_host : host h = last_field (cstr "Host") fs;
  de_trailers : trailers h = if existsb (fun f => named (cstr "TE") f && is_header (snd f) (cstr "trailers")) fs then 1 else 0;
  de_flags : discardInput h = 0 /\ hcrFlags h = 0
}.

Lemma last_field_snoc nm fs f : last_field nm (fs ++ [f]) = if named nm f then Some (snd f) else last_field nm fs.
Proof. unfold last_field. by rewrite foldl_app. Qed.

(** One name is not another one. *)
Lemma named_other a b f : named a f = true -> bool_decide (tolower <$> a = tolower <$> b) = false -> named b f = false.
Proof.
  intros Ha Hab%bool_decide_eq_false. apply Z.eqb_eq, nocase_eq in Ha. apply Z.eqb_neq. rewrite nocase_eq. congruence.
Qed.

Lemma strtoull_print n : 0 <= n < 2 ^ 64 -> strtoull (print_dec n) = n /\ strtoul_erange (print_dec n) = false /\ (at0 (print_dec n) =? 45) = false.
Proof.
  intros Hn. destruct (print_dec_ok n) as (E & Hd & Hne); [lia|].
  assert (Hs : scan_number (print_dec n) = (false, n)) by (rewrite <- (app_nil_r (print_dec n)); by rewrite scan_number_digits, E).
  unfold strtoull, strtoul_erange. rewrite Hs. cbn [snd]. rewrite (proj2 (Z.leb_gt _ _)) by lia. split_and!; [done|done|].
  destruct (print_dec n) as [|c ds]; [done|]. apply Forall_cons in Hd as [Hc _]. cbn. apply Z.eqb_neq. lia.
Qed.

Section fields.
Context {B : Type} (st : settings) (r : http_request) (numRequest : Z) (s : process B).
Context (maxLen : Z) (Hmax : httpMaxContentLength st = (0, maxLen)) (Hpos : 0 < maxLen).
Context (Hbody : strlen (rq_body r) < 2 ^ 31) (Hfit : strlen (rq_body r) <= maxLen).

Lemma length_field h : content_length_header st numRequest h (print_dec (strlen (rq_body r))) s
  = Done (set_content_length (strlen (rq_body r)) h) s.
Proof.
  pose proof (strlen_nonneg (rq_body r)) as H0. destruct (strtoull_print (strlen (rq_body r))) as (E1 & E2 & E3); [lia|].
  unfold content_length_header. rewrite E3, E2, E1, Hmax. change (negb (0 =? 0)) with false. cbn [orb].
  rewrite (proj2 (Z.eqb_neq maxLen 0)) by lia. cbn [negb andb orb]. unfold UINT_MAX.
  rewrite (proj2 (Z.leb_gt _ _)), (proj2 (Z.ltb_ge _ _)) by lia. done.
Qed.

(** A name of the program, without its colon. *)
Ltac names :=
  change (cstr "Authorization:") with (cstr "Authorization" ++ [58]); change (cstr "Content-Length:") with (cstr "Content-Length" ++ [58]);
  change (cstr "Content-Type:") with (cstr "Content-Type" ++ [58]); change (cstr "Host:") with (cstr "Host" ++ [58]);
  change (cstr "User-Agent:") with (cstr "User-Agent" ++ [58]); change (cstr "TE:") with (cstr "TE" ++ [58]);
  change (cstr "Expect:") with (cstr "Expect" ++ [58]).

(** The field has the name [nm], and so no other one. *)
Ltac just H :=
  repeat match goal with
  | |- context [named ?b ?f] => rewrite (named_other _ b f H) by reflexivity
  end.

Lemma pragma_line f : field_ok st (rq_body r) f -> allow_update_expired_pw st && is_header (field_line f) (cstr "Pragma: UpdateExpiredPassword") = false.
Proof.
  intros [[_ Hn] _ _ _ _ Hp]. destruct Hp as [->|Hp]; [done|]. apply andb_false_iff. right.
  rewrite <- (is_header_named (cstr "Pragma") f) in Hp by (done || by repeat constructor).
  unfold is_header, strncasecmp in *. apply Z.eqb_neq in Hp. apply Z.eqb_neq. rewrite nocase_eq in *. intros E. apply Hp.
  apply (f_equal (take 7)) in E. by rewrite !fmap_take, !take_take in E; rewrite !fmap_take.
Qed.

Lemma field_read fs h f : field_ok st (rq_body r) f -> described r fs h ->
  exists h', header_line st numRequest h (field_line f) s = Done h' s /\ described r (fs ++ [f]) h'.
Proof.
  intros Hok [Hl Ha Hc Ht Hh Htr Hf]. pose proof (pragma_line f Hok) as Hpr. destruct Hok as [[_ Hn] [Hv Htab] Hlen Hhost Hex _].
  unfold header_line. names. rewrite !is_header_named by (done || by repeat constructor). rewrite Hpr, Hex.
  destruct (named (cstr "Authorization") f) eqn:E1.
  { rewrite header_value_field by done. eexists. split; [done|]. split; rewrite ?last_field_snoc, ?existsb_app; cbn -[cstr]; just E1; rewrite ?E1, ?orb_false_r; done. }
  destruct (named (cstr "Content-Length") f) eqn:E2.
  { rewrite header_value_field, Hlen by done. rewrite length_field. eexists. split; [done|].
    split; rewrite ?last_field_snoc, ?existsb_app; cbn -[cstr]; just E2; rewrite ?E2, ?orb_false_r; done. }
  destruct (named (cstr "Content-Type") f) eqn:E3.
  { rewrite header_value_field by done. eexists. split; [done|]. split; rewrite ?last_field_snoc, ?existsb_app; cbn -[cstr]; just E3; rewrite ?E3, ?orb_false_r; done. }
  destruct (named (cstr "Host") f) eqn:E4.
  { rewrite header_value_field, Hhost by done. eexists. split; [done|]. split; rewrite ?last_field_snoc, ?existsb_app; cbn -[cstr]; just E4; rewrite ?E4, ?orb_false_r; done. }
  destruct (named (cstr "User-Agent") f) eqn:E5.
  { rewrite header_value_field by done. eexists. split; [done|]. split; rewrite ?last_field_snoc, ?existsb_app; cbn -[cstr]; just E5; rewrite ?orb_false_r; done. }
  destruct (named (cstr "TE") f) eqn:E6.
  { rewrite header_value_field by done. destruct (is_header (snd f) (cstr "trailers")) eqn:Et; eexists; (split; [done|]); split;
      rewrite ?last_field_snoc, ?existsb_app; cbn -[cstr is_header named]; just E6; rewrite ?E6, ?Et; cbn [andb orb]; rewrite ?orb_true_r, ?orb_false_r; done. }
  eexists. split; [done|]. split; rewrite ?last_field_snoc, ?existsb_app; cbn -[cstr]; rewrite ?E1, ?E2, ?E3, ?E4, ?E6, ?orb_false_r; done.
Qed.
End fields.

Lemma word_blank w : word w -> Forall (fun c => existsb (Z.eqb c) blanks = false) w.
Proof.
  intros [_ H]. eapply Forall_impl; [exact H|]. intros c ((_ & Hr & Hf) & Hs & Ht). cbn.
  by rewrite !(proj2 (Z.eqb_neq _ _)).
Qed.

Lemma request_line_ok r : word (rq_verb r) -> word (rq_path r) ->
  request_line (Some (first_line r)) = inl (rq_verb r, rq_path r, cstr "HTTP/1.1").
Proof.
  intros Hv Hp. unfold request_line, first_line. change (cstr " " ++ rq_path r ++ cstr " HTTP/1.1") with (32 :: rq_path r ++ 32 :: cstr "HTTP/1.1").
  rewrite strpbrk_app by (by apply word_blank || done). rewrite cut_app. cbn [drop].
  assert (E : strspn (rq_path r ++ 32 :: cstr "HTTP/1.1") is_blank = 0%nat).
  { pose proof (word_blank _ Hp) as Hb. destruct Hp as [Hn _]. destruct (rq_path r) as [|c p]; [done|]. apply Forall_cons in Hb as [Hb _].
    cbn [app strspn]. unfold is_blank. by rewrite Hb. }
  rewrite drop_0, E, drop_0. rewrite strpbrk_app by (by apply word_blank || done). by rewrite cut_app.
Qed.

Lemma field_plain st body f : field_ok st body f -> plain_line (field_line f).
Proof.
  intros [[[Hp Hn] _] [Hv _] _ _ _ _]. unfold field_line. split; [|by destruct (fst f)].
  apply Forall_app. split; [done|]. apply Forall_app. split; [by repeat constructor|done].
Qed.

Lemma first_plain r : word (rq_verb r) -> word (rq_path r) -> plain_line (first_line r).
Proof.
  intros [Hn Hv] [_ Hp]. unfold first_line. split; [|by destruct (rq_verb r)].
  assert (Hw : forall w, Forall (fun c => plain_char c /\ c <> 32 /\ c <> 9) w -> plain_text w).
  { intros w H. eapply Forall_impl; [exact H|]. by intros c (? & _). }
  repeat (apply Forall_app; split); try (by apply Hw); by repeat constructor.
Qed.

Section header.
Context {B : Type} (st : settings) (r : http_request) (numRequest : Z).
Context (Hreq : request_ok st r).

Lemma fields_read : forall fs2 fs1 fuel b pre x h (s : process B), Forall (field_ok st (rq_body r)) fs2 ->
  data b = pre ++ lines_text (field_line <$> fs2) ++ crlf ++ x -> ptr b = strlen pre -> (length fs2 < fuel)%nat -> described r fs1 h ->
  exists h' b', header_lines st fuel numRequest h b s = Done (h', b') s /\ described r (fs1 ++ fs2) h' /\
    data b' = (pre ++ lines_text (field_line <$> fs2) ++ crlf) ++ x /\ ptr b' = strlen (pre ++ lines_text (field_line <$> fs2) ++ crlf).
Proof.
  induction fs2 as [|f fs2 IH]; intros fs1 fuel b pre x h s Hok Hd Hp Hf Hh; (destruct fuel as [|fuel]; [lia|]); cbn [header_lines].
  - destruct (next_line b pre [] x Hd Hp) as (b' & E & Hd' & Hp' & _); [constructor|]. rewrite E. exists h, b'.
    rewrite app_nil_r. by split_and!.
  - apply Forall_cons in Hok as [Hf1 Hok]. destruct (field_plain _ _ _ Hf1) as [Hpl Hne]. rewrite fmap_cons, lines_text_cons, <- !app_assoc in Hd.
    destruct (next_line b pre (field_line f) _ Hd Hp Hpl) as (b1 & E & Hd1 & Hp1 & _). rewrite E.
    destruct (field_line f) as [|c l] eqn:El; [done|]. rewrite <- El in *. clear Hne.
    destruct Hreq as [_ _ _ _ _ Hb (maxLen & Hmax & Hpos & Hfit)].
    destruct (field_read st r numRequest s maxLen Hmax Hpos Hb Hfit fs1 h f Hf1 Hh) as (h1 & Eh & Hh1).
    rewrite (bind_done _ _ _ _ _ Eh).
    destruct (IH (fs1 ++ [f]) fuel b1 (pre ++ field_line f ++ crlf) x h1 s Hok Hd1 Hp1) as (h' & b' & E' & Hh' & Hd' & Hp'); [cbn in Hf; lia|done|].
    exists h', b'. rewrite E'. rewrite fmap_cons, lines_text_cons. split_and!; [done|by rewrite <- app_assoc in Hh'| |].
    + rewrite Hd'. by rewrite <- !app_assoc.
    + rewrite Hp'. by rewrite <- !app_assoc.
Qed.

Lemma lines_length ls : (length ls <= length (lines_text ls))%nat.
Proof. induction ls as [|l ls IH]; [done|]. rewrite lines_text_cons, !length_app. cbn. lia. Qed.

(** The header of a request is read as its fields, however it arrives; what has come of
    the content is behind it. *)
Lemma read_header_delivered l rest (s : process B) : arrivals s = l ++ rest -> delivers l (request_text r) ->
  exists h b l' t', read_header st numRequest s = Done (h, b) (set_arrivals (l' ++ rest) s) /\
    described r (rq_fields r) h /\ delivers l' t' /\ drop (Z.to_nat (ptr b)) (data b) ++ t' = rq_body r.
Proof.
  intros Hs Hd. pose proof Hreq as Hreq'. destruct Hreq' as [Hv Hp Hfs _ Hlen _ _].
  assert (Hls : Forall plain_line (first_line r :: (field_line <$> rq_fields r))).
  { constructor; [by apply first_plain|]. apply Forall_fmap. eapply Forall_impl; [exact Hfs|]. intros f Hf. exact (field_plain _ _ _ Hf). }
  destruct (getHdrs_delivered (first_line r) (field_line <$> rq_fields r) (rq_body r) rest Hls Hlen (rounds (l ++ rest)) l (request_text r)
    emptyBuf 0 s Hs Hd) as (b & l' & t' & E & Hd' & Ht & Hle & Hpt & Hsz); [lia|by left|done|done|done|].
  unfold read_header. rewrite (bind_done _ _ s (0, b) (set_arrivals (l' ++ rest) s)) by (unfold getHdrs; by rewrite Hs).
  unfold parse_header. cbn [Z.eqb Pos.eqb]. rewrite (bind_done _ _ _ tt (set_arrivals (l' ++ rest) s)) by done.
  rewrite (proj2 (Z.eqb_neq _ _) Hsz).
  (* what the buffer holds *)
  assert (Hx : exists x, data b = request_header r ++ x /\ x ++ t' = rq_body r).
  { symmetry in Ht. apply app_eq_inv in Ht as [(x & E1 & E2)|(x & E1 & E2)].
    - by exists x.
    - exists []. unfold request_header. rewrite E1, strlen_app in Hle. destruct x as [|c x]; [|rewrite strlen_cons in Hle; pose proof (strlen_nonneg x); lia].
      rewrite !app_nil_r in *. split; [by rewrite E1|]. by rewrite E2. }
  destruct Hx as (x & Hdata & Hx).
  assert (Hfirst : data b = [] ++ first_line r ++ crlf ++ lines_text (field_line <$> rq_fields r) ++ crlf ++ x).
  { rewrite Hdata. unfold request_header, header_text. rewrite lines_text_cons. by rewrite <- !app_assoc. }
  destruct (next_line b [] (first_line r) _ Hfirst Hpt) as (b1 & En & Hd1 & Hp1 & _); [by apply first_plain|].
  rewrite En, request_line_ok by done.
  destruct (fields_read (rq_fields r) [] (S (length (data b1))) b1 ([] ++ first_line r ++ crlf) x (first_headers (rq_verb r) (rq_path r) (cstr "HTTP/1.1") 0)
    (set_arrivals (l' ++ rest) s) Hfs Hd1 Hp1) as (h & b2 & Eh & Hh & Hd2 & Hp2).
  { rewrite Hd1, !length_app. pose proof (lines_length (field_line <$> rq_fields r)) as Hll. rewrite length_fmap in Hll. lia. }
  { by split. }
  exists h, b2, l', t'. split; [exact Eh|]. split_and!; [done|done|]. rewrite Hd2, Hp2. unfold strlen. by rewrite Nat2Z.id, drop_app_length.
Qed.
End header.

(** ** Access *)

Definition plain_credentials (user pw : bytes) : Prop := c_string user /\ Forall (fun c => c <> 58) user /\ c_string pw.

(** What lets a request in, the principal it gets, the further header lines, and what the
    plug-in leaves. *)
Inductive accepted (st : settings) (authenticate : option (bytes -> option bytes -> AuthExtras -> Z * AuthExtras))
    (fs : list (bytes * bytes)) (e : AuthExtras) : option bytes -> bytes -> AuthExtras -> Prop :=
| open_access : doBa st = false -> accepted st authenticate fs e None [] e
| by_socket : doUdsAuth st = true -> uds_peer st = true -> accepted st authenticate fs e None [] e
| by_password user pw f e' : doBa st = true -> doUdsAuth st && uds_peer st = false -> plain_credentials user pw ->
    last_field (cstr "Authorization") fs = Some (cstr "Basic " ++ encode64_text (user ++ 58 :: pw)) ->
    authenticate = Some f -> f user (Some pw) e = (AUTH_PASS, e') -> ErrorDetail e' = None ->
    accepted st authenticate fs e (Some user) [] e'.

Lemma strchr_first s c rest : Forall (fun b => b <> c) s -> strchr (s ++ c :: rest) c = Some (c :: rest).
Proof.
  induction 1 as [|b s Hb _ IH]; cbn [app strchr]; [by rewrite Z.eqb_refl|]. by rewrite (proj2 (Z.eqb_neq b c)), IH.
Qed.

Lemma c_string_until s : c_string s -> until_nul s = s.
Proof. induction 1 as [|c s Hc _ IH]; [done|]. cbn. rewrite (proj2 (Z.eqb_neq c 0)) by lia. by rewrite IH. Qed.

Lemma decode_credentials user pw : plain_credentials user pw -> exists a,
  decode64 (encode64_text (user ++ 58 :: pw)) = Some (Some a) /\ split_credentials (until_nul a) = (user, Some pw).
Proof.
  intros (Hu & Hc & Hp). exists (user ++ 58 :: pw).
  assert (Hs : c_string (user ++ 58 :: pw)) by (apply Forall_app; split; [done|constructor; [done|exact Hp]]).
  pose proof (decode_encode_loop (user ++ 58 :: pw)) as E. split.
  - unfold decode64. destruct (encode64_text (user ++ 58 :: pw)) as [|c t].
    + exfalso. assert (Hb : Forall is_byte (user ++ 58 :: pw)) by (eapply Forall_impl; [exact Hs|]; unfold is_byte; intros; lia).
      specialize (E Hb). cbn in E. injection E as E. by destruct user.
    + rewrite E; [done|]. eapply Forall_impl; [exact Hs|]. unfold is_byte. intros. lia.
  - rewrite c_string_until by done. unfold split_credentials. rewrite strchr_first by done. by rewrite cut_app.
Qed.

Section access.
Context {B : Type} (st : settings) (numRequest : Z).
Context (authenticate : option (bytes -> option bytes -> AuthExtras -> Z * AuthExtras)).

Lemma password_accepted h user pw f e' (s : process B) : plain_credentials user pw ->
  authorization h = cstr "Basic " ++ encode64_text (user ++ 58 :: pw) -> authenticate = Some f ->
  f user (Some pw) (extras s) = (AUTH_PASS, e') -> ErrorDetail e' = None -> hcrFlags h = 0 ->
  check_credentials st authenticate numRequest h s = Done (set_hcrFlags 0 h, Some user, []) (set_extras e' s).
Proof.
  intros Hc Ha Hf Hpass Hde Hfl. destruct (decode_credentials user pw Hc) as (a & Ed & Es).
  unfold check_credentials. rewrite (bind_done _ _ s (AUTH_PASS, Some user) (set_extras e' s)).
  - rewrite (bind_done _ _ _ None (set_extras e' s)) by (unfold get_extras; cbn [set_extras extras]; by rewrite Hde). done.
  - unfold baValidate. rewrite Ha. change (is_header (cstr "Basic " ++ encode64_text (user ++ 58 :: pw)) (cstr "basic ")) with true.
    cbn [negb]. change (drop 6 (cstr "Basic " ++ encode64_text (user ++ 58 :: pw))) with (encode64_text (user ++ 58 :: pw)).
    rewrite (bind_done _ _ _ _ _ (given_some _ _ _ Ed)). rewrite (bind_done _ _ s a s) by done. rewrite Es, Hf.
    rewrite (bind_done _ _ s AUTH_PASS (set_extras e' s)); [done|]. unfold ask_plugin. by rewrite Hpass.
Qed.

(** The check lets an accepted request through. *)
Lemma access_granted r fs h p m e' (s : process B) : described r fs h -> accepted st authenticate fs (extras s) p m e' ->
  (if negb ((discardInput h =? 0) && doUdsAuth st && uds_peer st) && (discardInput h =? 0) && doBa st
   then check_credentials st authenticate numRequest h else mret (h, None, [])) s = Done (h, p, m) (set_extras e' s).
Proof.
  intros [_ Ha _ _ _ _ [Hd Hfl]] Hacc. rewrite Hd. cbn [Z.eqb andb]. destruct Hacc as [Hb|Hu Hp|user pw f e' Hb Hu Hc Hl Hf Hpass Hde].
  - rewrite Hb, andb_false_r. by destruct s.
  - rewrite Hu, Hp. by destruct s.
  - rewrite Hb, Hu. cbn [negb andb]. rewrite Hl in Ha. rewrite (password_accepted h user pw f e' s Hc Ha Hf Hpass Hde Hfl).
    do 3 f_equal. destruct h; cbn in *. by rewrite Hfl.
Qed.
End access.

(** ** A request from its bytes to the handler *)

Definition context_of (st : settings) (r : http_request) (p role : option bytes) : CimRequestContext :=
  {| cimDoc := rq_body r; principal := p; ctx_role := role; ctx_host := last_field (cstr "Host") (rq_fields r);
     teTrailers := if chunkMode st =? CHUNK_NEVER then 0 else if chunkMode st =? CHUNK_FORCE then 1
                   else if existsb (fun f => named (cstr "TE") f && is_header (snd f) (cstr "trailers")) (rq_fields r) then 1 else 0;
     cimDocLength := strlen (rq_body r); contentType := last_field (cstr "Content-Type") (rq_fields r);
     verb := rq_verb r; ctx_path := rq_path r |}.

(** An answer in one piece. *)
Definition response_text (st : settings) (numRequest : Z) (rs : segments) : bytes :=
  head ++ cont ++ (cstr "Content-Length: " ++ print_dec (s32 (strlen (segments_text rs))) ++ crlf) ++ cach ++ op ++
  (if closing st numRequest then cclose else []) ++ crlf ++ segments_text rs.

Section handling.
Context {B : Type} (st : settings).
Context (authenticate : option (bytes -> option bytes -> AuthExtras -> Z * AuthExtras)).
Context (handleCimRequest : CimRequestContext -> Z -> bytes -> B -> B * list BinResponse * RespSegments).

Lemma add_written_twice u v (s : process B) : add_written v (add_written u s) = add_written (u ++ v) s.
Proof. unfold add_written. cbn. by rewrite <- app_assoc. Qed.

Lemma writeResponse_text numRequest rs (s : process B) :
  writeResponse st numRequest rs s = Done tt (add_written (response_text st numRequest rs) s).
Proof.
  unfold writeResponse, response_text, commWrite, mbind, action_bind. cbv zeta beta. destruct (closing st numRequest).
  - by rewrite !add_written_twice, <- !app_assoc.
  - unfold mret, action_ret. by rewrite !add_written_twice, <- !app_assoc.
Qed.

Lemma request_handled r l rest p m e' numRequest (s : process B) : request_ok st r -> arrivals s = l ++ rest -> delivers l (request_text r) ->
  accepted st authenticate (rq_fields r) (extras s) p m e' ->
  exists h, described r (rq_fields r) h /\
    doHttpRequest st authenticate handleCimRequest numRequest s
    = (_ ← answer_request st handleCimRequest numRequest h p m (rq_body r); mret 0) (set_extras e' (set_arrivals rest s)).
Proof.
  intros Hok Hs Hd Hacc. destruct (read_header_delivered st r numRequest Hok l rest s Hs Hd) as (h & b & l1 & t1 & E & Hh & Hd1 & Hc).
  set (s1 := set_arrivals (l1 ++ rest) s) in *.
  assert (Hacc1 : accepted st authenticate (rq_fields r) (extras s1) p m e') by exact Hacc.
  pose proof (access_granted st numRequest authenticate r _ h p m e' s1 Hh Hacc1) as Hg.
  destruct (getPayload_delivered b l1 rest t1 (rq_body r) (set_extras e' s1) eq_refl Hd1 Hc (ro_body _ _ Hok)) as (rc & Ep & Hrc).
  exists h. split; [done|]. unfold doHttpRequest. rewrite (bind_done _ _ _ _ _ E). rewrite (bind_done _ _ _ _ _ Hg).
  unfold finish_request. pose proof Hh as [_ _ Hlen _ _ _ [Hdi _]]. destruct (ro_length _ _ Hok) as [v Hv]. rewrite Hv in Hlen. rewrite Hlen.
  pose proof (ro_body _ _ Hok). pose proof (strlen_nonneg (rq_body r)). unfold UINT_MAX. rewrite (proj2 (Z.eqb_neq _ _)) by lia.
  rewrite (bind_done _ _ _ _ _ Ep). rewrite (proj2 (Z.ltb_ge _ _)) by lia. rewrite Hdi. done.
Qed.

Lemma described_context r h p role : described r (rq_fields r) h -> is_Some (last_field (cstr "Content-Length") (rq_fields r)) ->
  request_context st h p role (rq_body r) = context_of st r p role /\ hcrFlags h = 0.
Proof.
  intros [(E1 & E2 & _) _ E3 E4 E5 E6 [_ E7]] [v Hv]. rewrite Hv in E3. unfold request_context, context_of.
  by rewrite E1, E2, E3, E4, E5, E6.
Qed.

End handling.

(** ** A request with a password, in two pieces *)

Definition wit_settings : settings :=
  {| keepaliveTimeout := 15; keepaliveMaxRequest := 10; chunkMode := 1; doBa := true; doUdsAuth := false; uds_peer := false;
     allow_update_expired_pw := false; httpMaxContentLength := (0, 100000000) |}.
Definition wit_plugin (user : bytes) (pw : option bytes) (e : AuthExtras) : Z * AuthExtras :=
  (if bool_decide (pw = Some (cstr "pw")) then AUTH_PASS else AUTH_FAIL, e).
Definition wit_handler (ctx : CimRequestContext) (flags : Z) (more : bytes) (b : list CimRequestContext) :
    list CimRequestContext * list BinResponse * RespSegments :=
  (ctx :: b, [], {| resp_chunkedMode := 0; resp_rc := 0; resp_segments := [Some (cstr "<CIM/>")] |}).
Definition wit_request : http_request :=
  {| rq_verb := cstr "POST"; rq_path := cstr "/cimom"; rq_body := cstr "<CIM>";
     rq_fields := [(cstr "Host", cstr "sfcb"); (cstr "content-length", cstr "5");
                   (cstr "Authorization", cstr "Basic " ++ encode64_text (cstr "ann:pw"))] |}.
Definition no_extras : AuthExtras := {| ErrorDetail := None; role := None |}.
Definition wit_process : process (list CimRequestContext) :=
  {| arrivals := [Arrived (take 20 (request_text wit_request)); Again; Arrived (drop 20 (request_text wit_request)); Silent];
     written := []; extras := no_extras; broker := [] |}.

Lemma wit_request_ok : request_ok wit_settings wit_request.
Proof.
  split.
  - split; [done|]. by repeat constructor.
  - split; [done|]. by repeat constructor.
  - repeat constructor; try done; by repeat constructor.
  - by eexists.
  - by vm_compute.
  - by vm_compute.
  - exists 100000000. split_and!; done.
Qed.
