(* ===== verification/HttpSafety.v ===== *)
(** * What the HTTP adapter never does

    Nothing is handled without the plug-in's consent; no buffer is left and every loop
    ends, whatever arrives, except for a request line without a protocol and for
    credentials that cannot be decoded; chunks are read back by a client. *)

From S2P Require Import Prelude CString Base64 HttpAdapter HttpSpec.

(** ** What a computation leaves alone *)

Section retains.
Context {B X : Type} (view : process B -> X).
Context (view_arrivals : forall l s, view (set_arrivals l s) = view s) (view_written : forall t s, view (add_written t s) = view s).

Definition retains {A} (m : action (process B) A) : Prop := forall s,
  match m s with Done _ s' | Exited s' => view s' = view s | Undefined => True end.

Lemma retains_ret {A} (a : A) : retains (mret a).
Proof. done. Qed.
Lemma retains_undefined {A} : retains (undefined (A := A)).
Proof. done. Qed.
Lemma retains_exit {A} : retains (exit_process (A := A)).
Proof. done. Qed.
Lemma retains_bind {A C} (m : action (process B) A) (f : A -> action (process B) C) : retains m -> (forall a, retains (f a)) -> retains (m ≫= f).
Proof.
  intros Hm Hf s. unfold mbind, action_bind. specialize (Hm s). destruct (m s) as [a s'|s'|]; [|done|done].
  specialize (Hf a s'). destruct (f a s'); congruence || done.
Qed.
Lemma retains_given {A} (x : option A) : retains (given x).
Proof. by destruct x. Qed.
Lemma retains_write t : retains (commWrite t).
Proof. intros s. apply view_written. Qed.
Lemma retains_select : retains select.
Proof. intros s. unfold select. destruct (arrivals s) as [|[] l]; done || apply view_arrivals. Qed.
Lemma retains_read n : retains (commRead n).
Proof. intros s. unfold commRead. destruct (read_from _ _) as [r l]. apply view_arrivals. Qed.

(** Through the structure of a computation. *)
Ltac keep :=
  repeat first
    [ apply retains_ret | apply retains_undefined | apply retains_exit | apply retains_given | apply retains_write | apply retains_select | apply retains_read
    | apply retains_bind; [|intros ?]
    | match goal with |- retains (if ?c then _ else _) => destruct c | |- retains (match ?x with _ => _ end) => destruct x end
    | progress cbv zeta | solve [eauto] ].

Lemma retains_hdrs fuel : forall b total, retains (getHdrs_loop fuel b total).
Proof. induction fuel as [|fuel IH]; intros b total; cbn [getHdrs_loop]; keep. Qed.
Lemma retains_data fuel : forall n into, retains (readData_loop fuel n into).
Proof. induction fuel as [|fuel IH]; intros n into; cbn [readData_loop]; keep. Qed.
Lemma retains_getHdrs b : retains (getHdrs b).
Proof. intros s. exact (retains_hdrs _ b 0 s). Qed.
Lemma retains_readData n : retains (readData n).
Proof. intros s. exact (retains_data _ n [] s). Qed.
Lemma retains_payload b n : retains (getPayload b n).
Proof. unfold getPayload. keep; apply retains_readData. Qed.

Context (st : settings) (numRequest : Z).

Lemma retains_genError p status title more : retains (genError st numRequest p status title more).
Proof. unfold genError. keep. Qed.
Lemma retains_error_for h status title more : retains (error_for st numRequest h status title more).
Proof. apply retains_genError. Qed.
Lemma retains_fatal {A} h status title : retains (fatal (A := A) st numRequest h status title).
Proof. unfold fatal. keep; apply retains_error_for. Qed.
Lemma retains_length h cp : retains (content_length_header st numRequest h cp).
Proof. unfold content_length_header. keep; apply retains_fatal. Qed.
Lemma retains_discard h status title : retains (discard_with st numRequest h status title).
Proof. unfold discard_with. keep; apply retains_error_for. Qed.
Lemma retains_header_line h hdr : retains (header_line st numRequest h hdr).
Proof. unfold header_line. keep; apply retains_length || apply retains_discard. Qed.
Lemma retains_header_lines fuel : forall h b, retains (header_lines st fuel numRequest h b).
Proof. induction fuel as [|fuel IH]; intros h b; cbn [header_lines]; keep; apply retains_header_line. Qed.
Lemma retains_read_header : retains (read_header st numRequest).
Proof. unfold read_header, parse_header. keep; apply retains_getHdrs || apply retains_genError || apply retains_header_lines. Qed.
Lemma retains_response rs : retains (writeResponse st numRequest rs).
Proof. unfold writeResponse. keep. Qed.
Lemma retains_chunk mode rh : retains (writeChunkResponse st numRequest mode rh).
Proof. unfold writeChunkResponse, writeChunkHeaders, write_chunk, write_trailers. keep; apply retains_response. Qed.
Lemma retains_chunks l : forall mode, retains (write_chunks st numRequest mode l).
Proof. induction l as [|rh l IH]; intros mode; cbn [write_chunks]; keep; apply retains_chunk. Qed.
End retains.

(** ** Nothing is handled without consent *)

(** The plug-in has let in the user of some credentials, or the user's password is
    expired and the handler is told so. *)
Definition consent (st : settings) (authenticate : option (bytes -> option bytes -> AuthExtras -> Z * AuthExtras))
    (cred : bytes) (e : AuthExtras) (p : option bytes) (flags : Z) : Prop :=
  exists f a user pw rc e', authenticate = Some f /\ is_header cred (cstr "basic ") = true /\
    decode64 (drop 6 cred) = Some (Some a) /\ split_credentials (until_nul a) = (user, pw) /\
    f user pw e = (rc, e') /\ p = Some user /\
    (rc = AUTH_PASS /\ flags = 0 \/ rc = AUTH_EXPIRED /\ allow_update_expired_pw st = true /\ Z.testbit flags 0 = true).

Section consent.
Context {B : Type} (st : settings) (numRequest : Z).
Context (authenticate : option (bytes -> option bytes -> AuthExtras -> Z * AuthExtras)).
Context (handleCimRequest : CimRequestContext -> Z -> bytes -> B -> B * list BinResponse * RespSegments).

Lemma done_inv {S A C} (m : action S A) (f : A -> action S C) s c s' : (m ≫= f) s = Done c s' ->
  exists a s1, m s = Done a s1 /\ f a s1 = Done c s'.
Proof. unfold mbind, action_bind. destruct (m s) as [a s1|s1|]; [|done|done]. by exists a, s1. Qed.

Lemma given_inv {S A} (x : option A) (s s' : S) a : given x s = Done a s' -> x = Some a /\ s' = s.
Proof. destruct x; [|done]. by intros [= <- <-]. Qed.

Lemma retains_done {X} (view : process B -> X) {A} (m : action (process B) A) a s s' : retains view m -> m s = Done a s' -> view s' = view s.
Proof. intros H E. specialize (H s). by rewrite E in H. Qed.

Lemma validate_asks cred (s s' : process B) rc p : baValidate authenticate cred s = Done (rc, p) s' ->
  broker s' = broker s /\ (rc = AUTH_FAIL \/ exists f a user pw e', authenticate = Some f /\ is_header cred (cstr "basic ") = true /\
    decode64 (drop 6 cred) = Some (Some a) /\ split_credentials (until_nul a) = (user, pw) /\ f user pw (extras s) = (rc, e') /\ p = Some user).
Proof.
  unfold baValidate. destruct (is_header cred (cstr "basic ")) eqn:Eb; cbn [negb]; [|intros [= <- _ <-]; by split; [|left]].
  intros (x & s1 & [Ex ->]%given_inv & H)%done_inv. apply done_inv in H as (a & s2 & [-> ->]%given_inv & H).
  destruct (split_credentials (until_nul a)) as [user pw] eqn:Es. destruct authenticate as [f|]; [|injection H as <- _ <-; by split; [|left]].
  apply done_inv in H as (r & s3 & Hr & H). unfold ask_plugin in Hr. destruct (f user pw (extras s)) as [r0 e'] eqn:Ef. injection Hr as <- <-.
  destruct (existsb _ _) eqn:El; injection H as <- <- <-; (split; [done|]); [right|by left].
  by exists f, a, user, pw, e'.
Qed.

Lemma refused_discards {A} h status title more (x : A) (s s' : process B) y :
  (_ ← error_for st numRequest h status title more; mret x) s = Done y s' -> y = x /\ broker s' = broker s.
Proof.
  intros (u & s1 & E & H)%done_inv. injection H as <- <-. split; [done|].
  by apply (retains_done (@broker B)) in E; [|apply retains_error_for].
Qed.

Lemma credentials_checked h (s s' : process B) h' p more : discardInput h = 0 ->
  check_credentials st authenticate numRequest h s = Done (h', p, more) s' ->
  broker s' = broker s /\ (discardInput h' <> 0 \/ consent st authenticate (authorization h) (extras s) p (hcrFlags h')).
Proof.
  intros Hd. unfold check_credentials. intros ([rc p0] & s1 & E1 & H)%done_inv. destruct (validate_asks _ _ _ _ _ E1) as [Hb1 Hask].
  apply done_inv in H as (detail & s2 & [= <- <-] & H).
  assert (Hrest : broker s' = broker s1 /\ (discardInput h' <> 0 \/
    (rc = AUTH_EXPIRED /\ allow_update_expired_pw st = true /\ p = p0 /\ h' = set_hcrFlags (Z.lor (hcrFlags h) HCR_EXPIRED_PW) h \/
     rc = AUTH_PASS /\ p = p0 /\ h' = set_hcrFlags 0 h))).
  { destruct (rc =? AUTH_EXPIRED) eqn:E2; [apply Z.eqb_eq in E2; destruct (allow_update_expired_pw st)|].
    - injection H as <- <- _ <-. split; [done|]. right; by left.
    - apply done_inv in H as (m & s3 & [_ ->]%given_inv & H). apply refused_discards in H as [[= -> -> ->] Hb]. split; [done|by left].
    - destruct (rc =? AUTH_PASS) eqn:E3; [apply Z.eqb_eq in E3; injection H as <- <- _ <-; split; [done|]; right; by right|].
      destruct (rc =? AUTH_SERVPERM); [apply refused_discards in H as [[= -> -> ->] Hb]; split; [done|by left]|].
      destruct (rc =? AUTH_SERVTEMP); [apply refused_discards in H as [[= -> -> ->] Hb]; split; [done|by left]|].
      apply done_inv in H as (m & s3 & [_ ->]%given_inv & H). apply refused_discards in H as [[= -> -> ->] Hb]. split; [done|by left]. }
  destruct Hrest as [Hb [Hx|Hx]]; (split; [congruence|]); [by left|right].
  destruct Hask as [->|(f & a & user & pw & e' & H1 & H2 & H3 & H4 & H5 & H6)]; [by destruct Hx as [(? & _)|(? & _)]|].
  exists f, a, user, pw, rc, e'. destruct Hx as [(Hrc & Hal & -> & ->)|(Hrc & -> & ->)]; split_and!; try done; [right|by left].
  split_and!; try done. cbn [set_hcrFlags hcrFlags]. rewrite Z.lor_spec. by rewrite orb_true_r.
Qed.

(** How a computation ends. *)
Definition ends {A} (m : action (process B) A) (s s' : process B) : Prop := (exists r, m s = Done r s') \/ m s = Exited s'.

Lemma ends_bind {A C} (m : action (process B) A) (f : A -> action (process B) C) s s' : ends (m ≫= f) s s' ->
  m s = Exited s' \/ exists a s1, m s = Done a s1 /\ ends (f a) s1 s'.
Proof.
  unfold ends, mbind, action_bind. destruct (m s) as [a s1|s1|].
  - intros H. right. by exists a, s1.
  - intros [[r H]|H]; [done|left; by injection H as ->].
  - by intros [[r H]|H].
Qed.

Lemma retains_ends {X} (view : process B -> X) {A} (m : action (process B) A) s s' : retains view m -> ends m s s' -> view s' = view s.
Proof. intros H [[r E]|E]; specialize (H s); by rewrite E in H. Qed.

Lemma retains_credentials h : retains (@broker B) (check_credentials st authenticate numRequest h).
Proof.
  assert (Hv : forall cred, retains (@broker B) (baValidate (B := B) authenticate cred)).
  { intros cred. unfold baValidate. destruct (negb _); [apply retains_ret|]. apply retains_bind; [apply retains_given|intros x]. apply retains_bind; [apply retains_given|intros a].
    destruct (split_credentials _) as [user pw]. destruct authenticate as [f|]; [|apply retains_ret]. apply retains_bind; [|intros; apply retains_ret].
    intros s. unfold ask_plugin. by destruct (f user pw (extras s)). }
  assert (Hr : forall status title m (x : Headers * option bytes * bytes), retains (@broker B) (_ ← error_for (B := B) st numRequest h status title (Some m); mret x)).
  { intros. apply retains_bind; [by apply retains_error_for|intros; apply retains_ret]. }
  unfold check_credentials. apply retains_bind; [apply Hv|intros [rc p]]. apply retains_bind; [by intros ?|intros detail]. cbv zeta.
  destruct (rc =? AUTH_EXPIRED); [destruct (allow_update_expired_pw st); [apply retains_ret|apply retains_bind; [apply retains_given|intros m; apply Hr]]|].
  destruct (rc =? AUTH_PASS); [apply retains_ret|]. destruct (rc =? AUTH_SERVPERM); [apply Hr|]. destruct (rc =? AUTH_SERVTEMP); [apply Hr|].
  apply retains_bind; [apply retains_given|intros m; apply Hr].
Qed.

Lemma finished_request h b p more s s' : ends (finish_request st handleCimRequest numRequest h b p more) s s' ->
  broker s' = broker s \/
  discardInput h = 0 /\ exists ctx mo, principal ctx = p /\ broker s' = (handleCimRequest ctx (hcrFlags h) mo (broker s)).1.1.
Proof.
  unfold finish_request. destruct (content_length h =? UINT_MAX).
  { intros H. left. refine (retains_ends (@broker B) _ _ _ _ H). apply retains_bind; [|intros; apply retains_exit]. destruct (_ =? _); [by apply retains_error_for|apply retains_ret]. }
  intros [E|([rc content] & s1 & E & H)]%ends_bind.
  { left. exact (retains_ends (@broker B) _ _ _ (retains_payload (@broker B) ltac:(done) b _) (or_intror E)). }
  pose proof (retains_done (@broker B) _ _ _ _ (retains_payload (@broker B) ltac:(done) b _) E) as Hb1.
  destruct (rc <? 0). { left. rewrite <- Hb1. refine (retains_ends (@broker B) _ _ _ _ H). by apply retains_fatal. }
  destruct (Z.eqb_spec (discardInput h) 0) as [Hd|Hd]; cbn [negb] in H; [|left; by destruct H as [[r [= _ <-]]|H]].
  right. split; [done|]. rewrite <- Hb1. apply ends_bind in H as [E2|(u & s2 & E2 & H)].
  all: assert (Ha : ends (answer_request st handleCimRequest numRequest h p more content) s1 s') by
    first [by right | left; exists u; destruct H as [[r [= _ <-]]|H]; [exact E2|done]].
  all: apply ends_bind in Ha as [Ea|(ro & s3 & [= <- <-] & Ha)]; [done|].
  all: exists (request_context st h p (role (extras s1)) content), more; split; [done|].
  all: apply ends_bind in Ha as [Ea|([chunks rs] & s4 & Ea & Ha)]; unfold call_handler in Ea;
    destruct (handleCimRequest _ _ _ _) as [[b' ch] rs'] eqn:Eh; [done|]; injection Ea as -> -> <-; cbn [fst].
  all: change b' with (broker (set_broker b' s1)); refine (retains_ends (@broker B) _ _ _ _ Ha).
  all: apply retains_bind; [by apply retains_chunks|intros _]; cbv zeta; destruct (_ =? _); [|apply retains_ret]; destruct (_ =? _); [by apply retains_error_for|by apply retains_response].
Qed.

(** C37: with basic authentication, and unless the request comes over a local socket that
    is trusted, the state of the broker changes only by one call of the handler, for a
    user whose credentials in the header of the request were accepted by the plug-in;
    with an expired password only where that is allowed, and the handler is told. *)
Theorem handled_authorized (s s' : process B) : doBa st = true -> doUdsAuth st && uds_peer st = false ->
  ends (doHttpRequest st authenticate handleCimRequest numRequest) s s' ->
  broker s' = broker s \/
  exists h b s1 ctx flags more, read_header st numRequest s = Done (h, b) s1 /\
    consent st authenticate (authorization h) (extras s) (principal ctx) flags /\
    broker s' = (handleCimRequest ctx flags more (broker s)).1.1.
Proof.
  intros Hba Huds Hout. apply ends_bind in Hout as [E|([h b] & s1 & E & Hout)].
  { left. exact (f_equal fst (retains_ends _ _ _ _ (retains_read_header (fun x : process B => (broker x, extras x)) ltac:(done) ltac:(done) st numRequest) (or_intror E))). }
  pose proof (retains_done _ _ _ _ _ (retains_read_header (fun x : process B => (broker x, extras x)) ltac:(done) ltac:(done) st numRequest) E) as [= Hb1 He1].
  cbv zeta in Hout. match type of Hout with context [if ?c then check_credentials _ _ _ _ else _] =>
    replace c with (discardInput h =? 0) in Hout by (by rewrite Hba, andb_true_r, <- (andb_assoc _ (doUdsAuth st)), Huds, andb_false_r) end.
  destruct (Z.eqb_spec (discardInput h) 0) as [Hd|Hd].
  - apply ends_bind in Hout as [E'|([[h' p] more] & s2 & E' & Hout)].
    { left. rewrite <- Hb1. exact (retains_ends _ _ _ _ (retains_credentials h) (or_intror E')). }
    destruct (credentials_checked h s1 s2 h' p more Hd E') as [Hb2 Hc]. apply finished_request in Hout as [Hb|(Hd' & ctx & mo & Hp & Hb)]; [left; congruence|].
    destruct Hc as [Hc|Hc]; [done|]. right. exists h, b, s1, ctx, (hcrFlags h'), mo. rewrite Hb, Hb2, Hb1, Hp, <- He1. by split_and!.
  - apply ends_bind in Hout as [[=]|([[h' p] more] & s2 & [= <- <- <- <-] & Hout)].
    apply finished_request in Hout as [Hb|(Hd' & _)]; [left; congruence|done].
Qed.
End consent.

(** ** Every request ends, within its buffers *)

Section ensures.
Context {B : Type}.

(** It does not end in undefined behaviour, and what it returns has a property. *)
Definition ensures {A} (m : action (process B) A) (P : A -> Prop) : Prop := forall s,
  match m s with Done a _ => P a | Exited _ => True | Undefined => False end.

Lemma ensures_ret {A} (a : A) (P : A -> Prop) : P a -> ensures (mret a) P.
Proof. by intros H s. Qed.
Lemma ensures_exit {A} (P : A -> Prop) : ensures exit_process P.
Proof. done. Qed.
Lemma ensures_bind {A C} (m : action (process B) A) (f : A -> action (process B) C) P Q :
  ensures m P -> (forall a, P a -> ensures (f a) Q) -> ensures (m ≫= f) Q.
Proof.
  intros Hm Hf s. unfold mbind, action_bind. specialize (Hm s). destruct (m s) as [a s'|s'|]; [|done|done]. exact (Hf a Hm s').
Qed.
Lemma ensures_any {A} (m : action (process B) A) (P : A -> Prop) : ensures m P -> ensures m (fun _ => True).
Proof. intros H s. specialize (H s). by destruct (m s). Qed.
Lemma ensures_given {A} (x : option A) : is_Some x -> ensures (given x) (fun a => x = Some a).
Proof. by intros [a ->] s. Qed.
Lemma ensures_write t : ensures (commWrite t) (fun _ => True).
Proof. done. Qed.
Lemma ensures_when (c : bool) t : ensures (if c then commWrite t else mret tt) (fun _ => True).
Proof. by destruct c. Qed.

(** A read that is not the end of the connection leaves less to read. *)
Lemma read_less l n r l' : read_from l n = (r, l') -> (0 < n)%nat -> r = Got [] \/ (rounds l' < rounds l)%nat.
Proof.
  revert r l'. induction l as [|a l IH]; intros r l' E Hn; cbn [read_from] in E; [injection E as <- _; by left|].
  rewrite rounds_cons. destruct a as [bs| | |]; cbn [cost].
  - injection E as <- <-. right. destruct (drop n bs) as [|c t] eqn:Ed; [lia|]. rewrite rounds_cons. cbn [cost].
    apply (f_equal length) in Ed. rewrite length_drop in Ed. cbn [length] in *. lia.
  - injection E as <- <-. right. lia.
  - injection E as <- <-. right. lia.
  - destruct (IH r l' E Hn) as [->|H']; [by left|right; lia].
Qed.

Lemma select_less (s : process B) : exists ready l, select s = Done ready (set_arrivals l s) /\ (rounds l <= rounds (arrivals s))%nat.
Proof.
  unfold select. destruct (arrivals s) as [|a l] eqn:E; [|destruct a].
  1-4: eexists true, (arrivals s); rewrite E; (split; [by rewrite <- E, set_arrivals_same|lia]).
  exists false, l. split; [done|]. rewrite rounds_cons. lia.
Qed.

Lemma getHdrs_defined fuel : forall b total (s : process B), (rounds (arrivals s) <= fuel)%nat -> buffer_ok b ->
  exists rc b' s', getHdrs_loop fuel b total s = Done (rc, b') s' /\ buffer_ok b' /\ ptr b' = ptr b.
Proof.
  induction fuel as [|fuel IH]; intros b total s Hf Hb; [unfold rounds in Hf; lia|]. cbn [getHdrs_loop].
  destruct (select_less s) as (ready & l & E & Hl). rewrite (bind_done _ _ _ _ _ E).
  destruct ready; cbn [negb]; [|by eexists _, _, _].
  destruct (read_from l (Z.to_nat hdrBufsize)) as [r l'] eqn:Er.
  rewrite (bind_done _ _ (set_arrivals l s) r (set_arrivals l' s)) by (unfold commRead; cbn [arrivals set_arrivals]; by rewrite Er).
  destruct (read_less _ _ _ _ Er) as [->|Hless]; [by vm_compute; lia| |].
  - (* the end *)
    change (strlen [] =? 0) with true. cbn [andb]. destruct (size b =? 0); [by eexists _, _, _|].
    destruct (header_ends b) eqn:Eh; cbn [negb]; [|by eexists _, _, _].
    destruct (add2buffer_ok b [] Hb) as (b' & Ea & Hd & Hp & Hok & _). rewrite (bind_done _ _ _ _ _ (given_some _ _ _ Ea)).
    assert (Eh' : header_ends b' = true) by (unfold header_ends in *; by rewrite Hd, app_nil_r). rewrite Eh'. by eexists _, _, _.
  - destruct r as [bs| |]; [| |by eexists _, _, _].
    + destruct ((strlen bs =? 0) && _); [by eexists _, _, _|]. destruct (_ && _); [by eexists _, _, _|].
      destruct (add2buffer_ok b bs Hb) as (b' & Ea & Hd & Hp & Hok & _). rewrite (bind_done _ _ _ _ _ (given_some _ _ _ Ea)).
      destruct (header_ends b'); [by eexists _, _, _|]. destruct (_ <=? _); [by eexists _, _, _|].
      destruct (IH b' (total + strlen bs) (set_arrivals l' s)) as (rc & b2 & s2 & E2 & Hok2 & Hp2); [cbn [arrivals set_arrivals]; lia|done|].
      exists rc, b2, s2. by rewrite E2, Hp2.
    + apply IH; [cbn [arrivals set_arrivals]; lia|done].
Qed.

Lemma readData_defined fuel n : forall into (s : process B), (rounds (arrivals s) <= fuel)%nat ->
  exists rc t s', readData_loop fuel n into s = Done (rc, t) s'.
Proof.
  induction fuel as [|fuel IH]; intros into s Hf; [unfold rounds in Hf; lia|]. cbn [readData_loop].
  destruct (Z.leb_spec n (strlen into)) as [Hn|Hn]; [by eexists _, _, _|].
  destruct (select_less s) as (ready & l & E & Hl). rewrite (bind_done _ _ _ _ _ E).
  destruct ready; cbn [negb]; [|by eexists _, _, _].
  destruct (read_from l (Z.to_nat (n - strlen into))) as [r l'] eqn:Er.
  rewrite (bind_done _ _ (set_arrivals l s) r (set_arrivals l' s)) by (unfold commRead; cbn [arrivals set_arrivals]; by rewrite Er).
  destruct (read_less _ _ _ _ Er) as [->|Hless]; [lia|by eexists _, _, _|].
  destruct r as [[|c bs]| |]; [by eexists _, _, _| | |by eexists _, _, _]; apply IH; cbn [arrivals set_arrivals]; lia.
Qed.

Lemma ensures_getHdrs : ensures (getHdrs emptyBuf) (fun x => ptr (snd x) = 0).
Proof.
  intros s. unfold getHdrs. destruct (getHdrs_defined (rounds (arrivals s)) emptyBuf 0 s) as (rc & b & s' & E & _ & Hp); [lia|by left|].
  by rewrite E.
Qed.

(** A content of less than 2^31 bytes stays within the memory allocated for it. *)
Lemma ensures_payload b n : 0 <= n < 2 ^ 31 -> ensures (getPayload b n) (fun _ => True).
Proof.
  intros Hn. unfold getPayload. set (r := drop _ _). pose proof (strlen_nonneg r). destruct (Z.ltb_spec n (strlen r)); [done|].
  rewrite (wrapu_small 32) by lia. rewrite (proj2 (Z.leb_gt _ _)) by lia. rewrite (wraps_small 32) by lia. rewrite (proj2 (Z.ltb_ge _ _)) by lia.
  apply (ensures_bind _ _ (fun _ => True)); [|by intros [rc more] _].
  intros s. unfold readData. destruct (readData_defined (rounds (arrivals s)) (n - strlen r) [] s) as (rc & t & s' & ->); [lia|done].
Qed.

Context (st : settings) (numRequest : Z).

Lemma ensures_genError p status title more : ensures (genError st numRequest (Some p) status title more) (fun _ => True).
Proof.
  unfold genError. apply (ensures_bind _ _ (fun _ => True)); [done|intros p' _].
  repeat (apply (ensures_bind _ _ (fun _ => True)); [apply ensures_write || apply ensures_when|intros _ _]). done.
Qed.
Lemma ensures_fatal {A} h status title (P : A -> Prop) : ensures (fatal st numRequest h status title) P.
Proof. unfold fatal. apply (ensures_bind _ _ (fun _ => True)); [apply ensures_genError|done]. Qed.

(** The length of a content that is read is within the limit. *)
Definition length_ok (h : Headers) : Prop :=
  content_length h = UINT_MAX \/ 0 <= content_length h <= snd (httpMaxContentLength st).

Lemma scan_nonneg s : 0 <= snd (scan_number s).
Proof.
  assert (Hd : forall t acc, 0 <= acc -> 0 <= fold_left (fun acc d => acc * 10 + (d - 48)) (take_digits t) acc).
  { induction t as [|c t IH]; intros acc Hacc; [done|]. cbn [take_digits]. destruct (isdigit c) eqn:E; [|done]. cbn [fold_left]. apply IH.
    unfold isdigit in E. apply andb_true_iff in E as [H1%Z.leb_le _]. lia. }
  unfold scan_number, digits_val. repeat case_match; cbn [snd]; by apply Hd.
Qed.

Lemma strtoull_nonneg s : 0 <= strtoull s.
Proof.
  unfold strtoull. pose proof (scan_nonneg s) as H. destruct (scan_number s) as [neg v]. cbn [snd] in H.
  destruct (2 ^ 64 <=? v); [done|]. destruct neg; [apply wrapu_bound; lia|done].
Qed.

Lemma ensures_length h cp : length_ok h -> ensures (content_length_header st numRequest h cp) length_ok.
Proof.
  intros Hh. unfold content_length_header. destruct (_ =? 45); [apply ensures_fatal|]. destruct (strtoul_erange cp); [apply ensures_fatal|].
  destruct (httpMaxContentLength st) as [rc maxLen] eqn:Em. destruct (negb (rc =? 0) || (maxLen =? 0)) eqn:E0; [apply ensures_fatal|].
  destruct ((UINT_MAX <=? strtoull cp) || _) eqn:Ec; [apply ensures_fatal|]. apply ensures_ret. right. rewrite Em. cbn [snd set_content_length content_length].
  split; [apply strtoull_nonneg|]. apply orb_false_iff in E0 as [_ E0]. apply orb_false_iff in Ec as [_ Ec]. rewrite E0 in Ec. cbn [negb andb] in Ec.
  by apply Z.ltb_ge in Ec.
Qed.

Lemma ensures_discard h status title : length_ok h -> ensures (discard_with st numRequest h status title) length_ok.
Proof.
  intros Hh. unfold discard_with. destruct (_ =? _); [|by apply ensures_ret].
  apply (ensures_bind _ _ (fun _ => True)); [apply ensures_genError|]. intros _ _. by apply ensures_ret.
Qed.

Lemma ensures_header_line h hdr : length_ok h -> ensures (header_line st numRequest h hdr) length_ok.
Proof.
  intros Hh. unfold header_line.
  repeat match goal with |- ensures (if ?c then _ else _) _ => destruct c end;
    first [by apply ensures_length | by apply ensures_discard | by apply ensures_ret | apply ensures_ret; by destruct (is_header _ _)].
Qed.

(** A line and its end are taken off what there is. *)
Lemma line_end_rest l line rest : line_end l = Some (line, rest) -> exists pre, l = pre ++ rest /\ pre <> [].
Proof.
  revert line. induction l as [|c l IH]; intros line; [done|]. cbn [line_end]. destruct ((c =? LF) || (c =? CR)) eqn:E.
  - destruct l as [|d l']; [intros [= _ <-]; by exists [c]|]. destruct (_ && _); intros [= _ <-]; [by exists [c; d]|by exists [c]].
  - destruct (line_end l) as [[line' rest']|]; [|done]. cbn [mbind option_bind]. intros [= _ <-].
    destruct (IH line' eq_refl) as (pre & -> & _). by exists (c :: pre).
Qed.

Lemma next_header_less b hdr b' : 0 <= ptr b -> getNextHdr b = (Some hdr, b') ->
  0 <= ptr b' /\ data b' = data b /\ (length (drop (Z.to_nat (ptr b')) (data b')) < length (drop (Z.to_nat (ptr b)) (data b)))%nat.
Proof.
  intros Hp. unfold getNextHdr. destruct (line_end _) as [[line rest]|] eqn:E; [|done]. intros [= _ <-]. cbn [ptr data].
  apply line_end_rest in E as (pre & E & Hne). rewrite E.
  assert (Hl : length (data b) = (length (take (Z.to_nat (ptr b)) (data b)) + (length pre + length rest))%nat).
  { rewrite <- (take_drop (Z.to_nat (ptr b)) (data b)) at 1. by rewrite E, !length_app. }
  unfold length_of, strlen. split_and!; [lia|done|]. rewrite length_drop, length_app. destruct pre as [|c pre]; [done|]. cbn [length] in *. lia.
Qed.

Lemma ensures_header_lines fuel : forall h b, length_ok h -> 0 <= ptr b -> (length (drop (Z.to_nat (ptr b)) (data b)) < fuel)%nat ->
  ensures (header_lines st fuel numRequest h b) (fun x => length_ok (fst x)).
Proof.
  induction fuel as [|fuel IH]; intros h b Hh Hp Hf; [lia|]. cbn [header_lines]. destruct (getNextHdr b) as [hdr b'] eqn:E.
  destruct hdr as [[|c hdr]|]; try by apply ensures_ret. destruct (next_header_less b _ b' Hp E) as (Hp' & _ & Hless).
  apply (ensures_bind _ _ length_ok); [by apply ensures_header_line|]. intros h' Hh'. apply IH; [done|done|lia].
Qed.

(** The first line of a request has no protocol: the error answer would print the null
    pointer for it. *)
Definition protocol_missing (s : process B) : Prop := exists rc b s1, getHdrs emptyBuf s = Done (rc, b) s1 /\ request_line (fst (getNextHdr b)) = inr None.

Lemma ensures_parse rc b : ptr b = 0 -> request_line (fst (getNextHdr b)) <> inr None ->
  ensures (parse_header st numRequest rc b) (fun x => length_ok (fst x)).
Proof.
  intros Hp Hr. unfold parse_header. apply (ensures_bind _ _ (fun _ => True)).
  { destruct (rc =? 2); [apply ensures_genError|]. destruct (rc =? 3); [|by apply ensures_ret].
    apply (ensures_bind _ _ (fun _ => True)); [apply ensures_genError|done]. }
  intros _ _. destruct (size b =? 0); [done|]. destruct (getNextHdr b) as [hdr b'] eqn:E. cbn [fst] in Hr.
  destruct (request_line hdr) as [[[verb path] protocol]|[protocol|]] eqn:Er; [| |done].
  - destruct hdr as [hdr|]; [|done]. destruct (next_header_less b hdr b' ltac:(lia) E) as (Hp' & Hd & _).
    apply ensures_header_lines; [by left|done|]. rewrite length_drop. lia.
  - apply (ensures_bind _ _ (fun _ => True)); [apply ensures_genError|done].
Qed.

(** Credentials for basic authentication that are empty, or not in base 64. *)
Definition undecodable (cred : bytes) : Prop := is_header cred (cstr "basic ") = true /\ forall a, decode64 (drop 6 cred) <> Some (Some a).

Lemma undecodable_or cred : undecodable cred \/ ~ undecodable cred.
Proof.
  unfold undecodable. destruct (is_header cred (cstr "basic ")); [|by right; intros [? _]].
  destruct (decode64 (drop 6 cred)) as [[a|]|]; [right; intros [_ H]; by apply (H a)|by left|by left].
Qed.

Context (authenticate : option (bytes -> option bytes -> AuthExtras -> Z * AuthExtras)).
Context (handleCimRequest : CimRequestContext -> Z -> bytes -> B -> B * list BinResponse * RespSegments).

(** What is put into the 300 bytes for header lines has room there. *)
Lemma strcat_fits d : exists more, strcat_more (match d with Some d => snprintf 256 (cstr "SFCBErrorDetail: " ++ d ++ crlf) | None => [] end) www_authenticate = Some more.
Proof.
  unfold strcat_more. rewrite (proj2 (Z.ltb_lt _ _)); [by eexists|]. change (strlen www_authenticate) with 39.
  destruct d as [d|]; [|done]. unfold snprintf, strlen. rewrite length_take. lia.
Qed.

Lemma ensures_credentials h : ~ undecodable (authorization h) -> content_length h = UINT_MAX \/ 0 <= content_length h < 2 ^ 31 ->
  ensures (check_credentials st authenticate numRequest h)
    (fun x => content_length x.1.1 = UINT_MAX \/ 0 <= content_length x.1.1 < 2 ^ 31).
Proof.
  intros Hu Hl. unfold check_credentials. apply (ensures_bind _ _ (fun _ => True)).
  - unfold baValidate. destruct (is_header _ _) eqn:Eb; cbn [negb]; [|by apply ensures_ret].
    destruct (decode64 (drop 6 (authorization h))) as [[a|]|] eqn:Ed.
    2,3: exfalso; apply Hu; split; [done|by rewrite Ed].
    intros s. rewrite (bind_done _ _ s (Some a) s), (bind_done _ _ s a s) by done.
    destruct (split_credentials _) as [user pw]. destruct authenticate as [f|]; [|done].
    unfold ask_plugin, mbind, action_bind. by destruct (f user pw (extras s)).
  - intros [rc p] _. apply (ensures_bind _ _ (fun _ => True)); [by intros s|]. intros d _. cbv zeta.
    destruct (strcat_fits d) as [more Em].
    assert (Hr : forall status title more', ensures (_ ← error_for st numRequest h status title (Some more'); mret (set_discardInput 1 h, p, more'))
      (fun x => content_length x.1.1 = UINT_MAX \/ 0 <= content_length x.1.1 < 2 ^ 31)).
    { intros. apply (ensures_bind _ _ (fun _ => True)); [apply ensures_genError|]. intros _ _. by apply ensures_ret. }
    assert (Hw : ensures (more0 ← given (strcat_more (match d with Some d => snprintf 256 (cstr "SFCBErrorDetail: " ++ d ++ crlf) | None => [] end) www_authenticate);
      _ ← error_for st numRequest h 401 (cstr "Unauthorized") (Some more0); mret (set_discardInput 1 h, p, more0))
      (fun x => content_length x.1.1 = UINT_MAX \/ 0 <= content_length x.1.1 < 2 ^ 31)).
    { apply (ensures_bind _ _ (fun _ => True)); [rewrite Em; by intros s|]. intros m _. apply Hr. }
    destruct (rc =? AUTH_EXPIRED); [destruct (allow_update_expired_pw st); [by apply ensures_ret|exact Hw]|].
    destruct (rc =? AUTH_PASS); [by apply ensures_ret|]. destruct (rc =? AUTH_SERVPERM); [apply Hr|]. destruct (rc =? AUTH_SERVTEMP); [apply Hr|exact Hw].
Qed.

Lemma ensures_response rs : ensures (writeResponse st numRequest rs) (fun _ => True).
Proof. intros s. by rewrite writeResponse_text. Qed.

Lemma ensures_chunk mode rh : ensures (writeChunkResponse st numRequest mode rh) (fun _ => True).
Proof.
  unfold writeChunkResponse. destruct (_ && negb _).
  - apply (ensures_bind _ _ (fun _ => True)); [apply ensures_response|done].
  - apply (ensures_bind _ _ (fun _ => True)).
    { destruct (mode =? 1); [|by apply ensures_ret]. intros s. unfold writeChunkHeaders. cbn. by destruct (closing st numRequest). }
    intros _ _. cbv zeta. apply (ensures_bind _ _ (fun _ => True)).
    { destruct (rh_rc rh =? 1); [|by apply ensures_ret]. intros s. unfold write_chunk. cbv zeta. by destruct (_ =? 0). }
    intros _ _. apply (ensures_bind _ _ (fun _ => True)); [|by intros _ _].
    destruct (_ && _); [|by apply ensures_ret]. intros s. unfold write_trailers. by destruct (rh_rc rh =? 1).
Qed.

Lemma ensures_finish h b p more : content_length h = UINT_MAX \/ 0 <= content_length h < 2 ^ 31 ->
  ensures (finish_request st handleCimRequest numRequest h b p more) (fun _ => True).
Proof.
  intros Hl. unfold finish_request. destruct (Z.eqb_spec (content_length h) UINT_MAX).
  { apply (ensures_bind _ _ (fun _ => True)); [|done]. destruct (_ =? 0); [apply ensures_genError|by apply ensures_ret]. }
  destruct Hl as [Hl|Hl]; [done|]. apply (ensures_bind _ _ (fun _ => True)); [by apply ensures_payload|]. intros [rc content] _.
  destruct (rc <? 0); [apply ensures_fatal|]. destruct (negb _); [by apply ensures_ret|]. apply (ensures_bind _ _ (fun _ => True)); [|by intros _ _].
  unfold answer_request. apply (ensures_bind _ _ (fun _ => True)); [by intros s|]. intros r _. apply (ensures_bind _ _ (fun _ => True)).
  { intros s. unfold call_handler. by destruct (handleCimRequest _ _ _ _) as [[b' ch] rs]. }
  intros [chunks rs] _. apply (ensures_bind _ _ (fun _ => True)).
  { cbn [fst]. generalize 1. induction chunks as [|rh l IH]; intros mode; cbn [write_chunks]; [by apply ensures_ret|].
    apply (ensures_bind _ _ (fun _ => True)); [apply ensures_chunk|]. intros m _. apply IH. }
  intros _ _. cbv zeta. destruct (_ =? 0); [|by apply ensures_ret]. destruct (_ =? 1); [apply ensures_genError|apply ensures_response].
Qed.

(** C39: whatever bytes, interruptions, errors and silences arrive, the handling of a
    request comes to an end within its buffers, with an answer, with the end of the
    process or for the next request; unless the first line has no protocol, or the
    credentials cannot be decoded. The greatest content length of the configuration is less
    than 2^31: it is compared as an unsigned number but read as an int. *)
Theorem request_defined (s : process B) : snd (httpMaxContentLength st) < 2 ^ 31 ->
  doHttpRequest st authenticate handleCimRequest numRequest s = Undefined ->
  (exists rc b s1, getHdrs emptyBuf s = Done (rc, b) s1 /\ request_line (fst (getNextHdr b)) = inr None) \/
  (doBa st = true /\ exists h b s1, read_header st numRequest s = Done (h, b) s1 /\ undecodable (authorization h)).
Proof.
  intros Hmax Hun. pose proof (ensures_getHdrs s) as Hg. destruct (getHdrs emptyBuf s) as [[rc b] s1|s1|] eqn:E; [| |done].
  2: { unfold doHttpRequest, read_header, mbind, action_bind in Hun. by rewrite E in Hun. }
  cbn [snd] in Hg. destruct (decide (request_line (fst (getNextHdr b)) = inr None)) as [Hr|Hr]; [left; by exists rc, b, s1|right].
  pose proof (ensures_parse rc b Hg Hr s1) as Hp. assert (Er : read_header st numRequest s = parse_header st numRequest rc b s1).
  { unfold read_header. by rewrite (bind_done _ _ _ _ _ E). }
  destruct (parse_header st numRequest rc b s1) as [[h b2] s2|s2|] eqn:Ep; [| |done].
  2: { unfold doHttpRequest, mbind, action_bind in Hun. by rewrite Er in Hun. }
  cbn [fst] in Hp. assert (Hl : content_length h = UINT_MAX \/ 0 <= content_length h < 2 ^ 31) by (destruct Hp; [by left|right; lia]).
  unfold doHttpRequest in Hun. rewrite (bind_done _ _ _ _ _ Er) in Hun. cbv zeta in Hun.
  destruct (negb _ && _ && doBa st) eqn:Ec.
  - apply andb_true_iff in Ec as [_ Hba]. split; [done|]. exists h, b2, s2. split; [done|].
    destruct (undecodable_or (authorization h)) as [Hu|Hu]; [done|]. exfalso.
    revert Hun. pose proof (ensures_bind _ (fun '(h, p, more) => finish_request st handleCimRequest numRequest h b2 p more) _ (fun _ => True) (ensures_credentials h Hu Hl)) as H.
    specialize (H ltac:(intros [[h' p] more] Hl'; by apply ensures_finish) s2). intros Hun. by rewrite Hun in H.
  - exfalso. pose proof (ensures_finish h b2 None [] Hl s2) as H. unfold mret, action_ret, mbind, action_bind in Hun. by rewrite Hun in H.
Qed.
End ensures.

(** ** Witnesses *)

(** A process to which [text] is sent. *)
Definition sent (text : bytes) : process (list CimRequestContext) :=
  {| arrivals := [Arrived text]; written := []; extras := no_extras; broker := [] |}.

(** A first line without a protocol: the error answer follows a null pointer. *)
Example no_protocol_undefined :
  doHttpRequest wit_settings (Some wit_plugin) wit_handler 1 (sent (cstr "GET /" ++ crlf ++ crlf)) = Undefined.
Proof. vm_compute. reflexivity. Qed.

(** Empty credentials: what was decoded is followed, and there is nothing. *)
Example empty_credentials_undefined :
  doHttpRequest wit_settings (Some wit_plugin) wit_handler 1 (sent (cstr "POST / HTTP/1.1" ++ crlf ++ cstr "Authorization: Basic " ++ crlf ++ crlf)) = Undefined.
Proof. vm_compute. reflexivity. Qed.

Definition wrong_password : bytes := request_text
  {| rq_verb := cstr "POST"; rq_path := cstr "/cimom"; rq_body := cstr "<CIM>";
     rq_fields := [(cstr "Content-Length", cstr "5"); (cstr "Authorization", cstr "Basic " ++ encode64_text (cstr "ann:no"))] |}.

Lemma handled_authorized_witness : exists s',
  ends (doHttpRequest wit_settings (Some wit_plugin) wit_handler 1) wit_process s' /\
  broker s' <> [] /\ exists h b s1 ctx flags more, read_header wit_settings 1 wit_process = Done (h, b) s1 /\
    consent wit_settings (Some wit_plugin) (authorization h) no_extras (principal ctx) flags /\
    broker s' = (wit_handler ctx flags more []).1.1.
Proof.
  assert (E : exists s', doHttpRequest wit_settings (Some wit_plugin) wit_handler 1 wit_process = Done 0 s' /\ broker s' <> []).
  { eexists. split; [vm_compute; reflexivity|]. discriminate. }
  destruct E as (s' & E & Hb). exists s'.
  assert (He : ends (doHttpRequest wit_settings (Some wit_plugin) wit_handler 1) wit_process s') by (left; by exists 0).
  split; [exact He|]. split; [exact Hb|].
  destruct (handled_authorized wit_settings 1 (Some wit_plugin) wit_handler wit_process s' eq_refl eq_refl He) as [H|H]; [|exact H].
  exfalso. apply Hb. exact H.
Defined.

Lemma request_defined_witness :
  (exists rc b s1, getHdrs emptyBuf (sent (cstr "GET /" ++ crlf ++ crlf)) = Done (rc, b) s1 /\ request_line (fst (getNextHdr b)) = inr None) \/
  (doBa wit_settings = true /\ exists h b s1, read_header wit_settings 1 (sent (cstr "GET /" ++ crlf ++ crlf)) = Done (h, b) s1 /\ undecodable (authorization h)).
Proof.
  apply (request_defined wit_settings 1 (Some wit_plugin) wit_handler (sent (cstr "GET /" ++ crlf ++ crlf))).
  - reflexivity.
  - vm_compute. reflexivity.
Defined.
