(* ===== verification/HttpChunks.v ===== *)
(** * Answers in chunks, as a client reads them

    A reader of the chunked transfer coding gets the texts of all responses, one after the
    other, and the trailer with the result. *)

From S2P Require Import Prelude CString HttpAdapter HttpSpec.

(** ** Hexadecimal numbers *)

Lemma hex_digit_value d : 0 <= d < 16 -> digit_value (hex_digit d) = d.
Proof.
  intros Hd. assert (E : forallb (fun n => digit_value (hex_digit (Z.of_nat n)) =? Z.of_nat n) (seq 0 16) = true) by reflexivity.
  rewrite forallb_forall in E. specialize (E (Z.to_nat d)). rewrite Z2Nat.id in E by lia. apply Z.eqb_eq, E, in_seq. lia.
Qed.

Lemma base_value_app base s t acc : Forall (fun b => digit_value b < base) s -> base_value base (s ++ t) acc = base_value base t (base_value base s acc).
Proof.
  intros H. revert acc. induction H as [|b s Hb _ IH]; intros acc; [done|]. cbn [app base_value]. by rewrite (proj2 (Z.ltb_lt _ _) Hb).
Qed.

Lemma uhex_ok fuel : forall v, 0 <= v < 16 ^ Z.of_nat fuel -> (0 < fuel)%nat ->
  Forall (fun b => digit_value b < 16) (uhex fuel v) /\ base_value 16 (uhex fuel v) 0 = v.
Proof.
  induction fuel as [|fuel IH]; intros v Hv Hf; [lia|]. cbn [uhex]. destruct (Z.ltb_spec v 16) as [Hs|Hs].
  - pose proof (hex_digit_value v ltac:(lia)) as E. split; [constructor; [lia|constructor]|]. cbn [base_value]. rewrite E, (proj2 (Z.ltb_lt _ _)) by lia. lia.
  - rewrite Nat2Z.inj_succ, Z.pow_succ_r in Hv by lia. assert (Hf0 : (0 < fuel)%nat).
    { destruct fuel; [|lia]. cbn in Hv. lia. }
    destruct (IH (v / 16)) as [IH1 IH2]; [split; [apply Z.div_pos; lia|apply Z.div_lt_upper_bound; lia]|done|].
    pose proof (Z.mod_pos_bound v 16 ltac:(lia)) as Hm. pose proof (hex_digit_value _ Hm) as E. split.
    + apply Forall_app. split; [done|]. constructor; [lia|constructor].
    + rewrite base_value_app, IH2 by done. cbn [base_value]. rewrite E, (proj2 (Z.ltb_lt _ _)) by lia. pose proof (Z.div_mod v 16). lia.
Qed.

Lemma print_hex_ok v : 0 <= v -> Forall (fun b => digit_value b < 16) (print_hex v) /\ base_value 16 (print_hex v) 0 = v.
Proof.
  intros Hv. apply uhex_ok; [|unfold dec_fuel; lia]. split; [done|]. unfold dec_fuel.
  destruct (decide (v = 0)) as [->|Hn]; [done|]. pose proof (Z.log2_spec v ltac:(lia)) as [_ Hl]. pose proof (Z.log2_nonneg v).
  rewrite Nat2Z.inj_succ, Z2Nat.id by done. eapply Z.lt_le_trans; [exact Hl|]. apply Z.pow_le_mono_l. lia.
Qed.

(** ** The reader *)

(** Behind the end of a line: a size, a line end, so many bytes, a line end; a size of
    0 ends the chunks, and the trailer follows. *)
Fixpoint read_chunks (fuel : nat) (s : bytes) : option (bytes * bytes) :=
  match fuel with
  | O => None
  | S fuel =>
      '(line, rest) ← line_end s;
      let n := base_value 16 line 0 in
      if n =? 0 then Some ([], rest)
      else
        let text := take (Z.to_nat n) rest in
        match drop (Z.to_nat n) rest with
        | 13 :: 10 :: rest' =>
            if strlen text =? n then '(more, trailer) ← read_chunks fuel rest'; Some (text ++ more, trailer) else None
        | _ => None
        end
  end.

(** ** What is sent *)

(** The text of a response; none when it is an error. *)
Definition response_text_of (first : bool) (rh : BinResponse) : bytes :=
  if rh_rc rh =? 1 then
    segments_text (pieces rh (if first then genFirstChunkResponses
                              else if moreChunks rh || negb (providers_done rh) then genChunkResponses else genLastChunkResponses))
  else [].
Fixpoint texts_of (first : bool) (l : list BinResponse) : bytes :=
  match l with [] => [] | rh :: l => response_text_of first rh ++ texts_of false l end.

(** Responses up to the last one of the last provider; an error is the last one. *)
Inductive complete : list BinResponse -> Prop :=
| complete_last rh : providers_done rh = true -> (rh_rc rh = 1 -> moreChunks rh = false) -> complete [rh]
| complete_more rh l : rh_rc rh = 1 -> (moreChunks rh = true \/ providers_done rh = false) -> complete l -> complete (rh :: l).

Definition result_of (l : list BinResponse) : Z := default 0 ((fun rh => rh_rc rh - 1) <$> last l).

(** The trailer: the status, and its description when it is an error. *)
Definition trailer_text (status : Z) : bytes :=
  (cstr "CIMStatusCode: " ++ print_dec status ++ crlf) ++ (if status =? 0 then [] else getErrTrailer status None) ++ crlf.

Definition chunk_text (text : bytes) : bytes := if strlen text =? 0 then [] else crlf ++ print_hex (strlen text) ++ crlf ++ text.
Definition chunk_end (status : Z) : bytes := crlf ++ cstr "0" ++ crlf ++ trailer_text status.
Fixpoint chunks_text (first : bool) (l : list BinResponse) : bytes :=
  match l with [] => [] | rh :: l => chunk_text (response_text_of first rh) ++ chunks_text false l end.

(** The header of the answer, up to the end of its last line. *)
Definition chunk_header (st : settings) (numRequest : Z) : bytes :=
  head ++ cont ++ cach ++ op ++ tenc ++ trls ++ (if closing st numRequest then cclose else []).

Definition small (rh : BinResponse) : Prop := forall g, strlen (segments_text (pieces rh g)) < 2 ^ 31.

Section chunks.
Context {B : Type} (st : settings) (numRequest : Z).

Lemma write_chunk_text rs (s : process B) : strlen (segments_text rs) < 2 ^ 31 ->
  write_chunk rs s = Done tt (add_written (chunk_text (segments_text rs)) s).
Proof.
  intros Hl. unfold write_chunk, chunk_text. pose proof (strlen_nonneg (segments_text rs)) as H0. cbv zeta. rewrite (wrapu_small 32) by lia.
  destruct (Z.eqb_spec (strlen (segments_text rs)) 0) as [E|E].
  - destruct (segments_text rs) as [|c t]; [done|]. rewrite strlen_cons in E. pose proof (strlen_nonneg t). lia.
  - unfold commWrite, mbind, action_bind. by rewrite add_written_twice, <- !app_assoc.
Qed.

Lemma write_trailers_text rc (s : process B) : write_trailers rc s = Done tt (add_written (chunk_end (rc - 1)) s).
Proof.
  unfold write_trailers, chunk_end, trailer_text, commWrite, mbind, action_bind.
  destruct (Z.eqb_spec rc 1) as [->|E].
  - unfold mret, action_ret. by rewrite !add_written_twice, <- !app_assoc.
  - rewrite (proj2 (Z.eqb_neq (rc - 1) 0)) by lia. by rewrite !add_written_twice, <- !app_assoc.
Qed.

Lemma write_headers_text (s : process B) : writeChunkHeaders st numRequest s = Done tt (add_written (chunk_header st numRequest) s).
Proof.
  unfold writeChunkHeaders, chunk_header, commWrite, mbind, action_bind, mret, action_ret.
  destruct (closing st numRequest); by rewrite !add_written_twice, <- ?app_assoc, ?app_nil_r.
Qed.

(** One response: the first one comes with the header of the answer, the last one with
    the trailer. *)
Lemma response_written (first : bool) rh (s : process B) : small rh -> (first = true -> rh_rc rh = 1) ->
  writeChunkResponse st numRequest (if first then 1 else 2) rh s =
  Done 2 (add_written ((if first then chunk_header st numRequest else []) ++ chunk_text (response_text_of first rh) ++
    (if negb (moreChunks rh && (rh_rc rh =? 1)) && providers_done rh then chunk_end (rh_rc rh - 1) else [])) s).
Proof.
  intros Hsm Hfirst. unfold writeChunkResponse, response_text_of.
  assert (Hm : ((if first then 1 else 2) =? 1) = first) by (by destruct first). rewrite Hm.
  assert (Hc : first && negb (rh_rc rh =? 1) = false) by (destruct first; [rewrite Hfirst by done|]; done). rewrite Hc.
  assert (Hmore : moreChunks rh && (first || (rh_rc rh =? 1)) = moreChunks rh && (rh_rc rh =? 1)) by (destruct first; [rewrite Hfirst by done|]; done).
  rewrite Hmore. cbv zeta. set (h := if first then chunk_header st numRequest else []).
  rewrite (bind_done _ _ s tt (add_written h s)).
  2: { unfold h. destruct first; [apply write_headers_text|]. unfold mret, action_ret. f_equal. destruct s. unfold add_written. cbn. by rewrite app_nil_r. }
  set (kind := if first then genFirstChunkResponses else _). set (text := if rh_rc rh =? 1 then segments_text (pieces rh kind) else []).
  rewrite (bind_done _ _ (add_written h s) tt (add_written (h ++ chunk_text text) s)).
  2: { unfold text. destruct (rh_rc rh =? 1); [rewrite write_chunk_text by apply Hsm; by rewrite add_written_twice|].
       unfold mret, action_ret, chunk_text. cbn. by rewrite app_nil_r. }
  destruct (negb _ && providers_done rh).
  - rewrite (bind_done _ _ _ _ _ (write_trailers_text _ _)), add_written_twice, <- app_assoc. unfold mret, action_ret. by destruct first.
  - rewrite app_nil_r. unfold mbind, action_bind, mret, action_ret. by destruct first.
Qed.

Lemma responses_written l : complete l -> forall (first : bool) (s : process B), Forall small l ->
  (first = true -> match l with rh :: _ => rh_rc rh = 1 | [] => True end) ->
  write_chunks st numRequest (if first then 1 else 2) l s =
  Done tt (add_written ((if first then chunk_header st numRequest else []) ++ chunks_text first l ++ chunk_end (result_of l)) s).
Proof.
  induction 1 as [rh Hd Hm|rh l Hrc Hm Hl IH]; intros first s Hsm Hf; apply Forall_cons in Hsm as [Hsm1 Hsm]; cbn [write_chunks chunks_text].
  - rewrite (bind_done _ _ _ _ _ (response_written first rh s Hsm1 Hf)). rewrite app_nil_r, Hd, andb_true_r.
    assert (Hn : negb (moreChunks rh && (rh_rc rh =? 1)) = true).
    { destruct (Z.eqb_spec (rh_rc rh) 1) as [E|E]; [by rewrite Hm|by rewrite andb_false_r]. }
    by rewrite Hn.
  - rewrite (bind_done _ _ _ _ _ (response_written first rh s Hsm1 Hf)). rewrite Hrc. change (1 =? 1) with true. rewrite andb_true_r.
    assert (Hn : negb (moreChunks rh) && providers_done rh = false) by (destruct Hm as [-> | ->]; [done|by rewrite andb_false_r]).
    rewrite Hn, app_nil_r, (IH false) by done. rewrite add_written_twice, <- !app_assoc.
    assert (Hr : result_of (rh :: l) = result_of l) by (by destruct Hl). by rewrite Hr.
Qed.

(** *** Reading it back *)

Lemma hex_line v rest : 0 <= v -> line_end (print_hex v ++ crlf ++ rest) = Some (print_hex v, rest).
Proof.
  intros Hv. destruct (print_hex_ok v Hv) as [H _]. apply line_end_plain. eapply Forall_impl; [exact H|]. cbn. intros c Hc.
  split_and!; intros ->; vm_compute in Hc; discriminate Hc.
Qed.

Lemma read_chunk fuel text rest : text <> [] ->
  read_chunks (S fuel) (print_hex (strlen text) ++ crlf ++ text ++ crlf ++ rest)
  = ('(more, trailer) ← read_chunks fuel rest; Some (text ++ more, trailer)).
Proof.
  intros Ht. pose proof (strlen_nonempty text Ht) as Hp. cbn [read_chunks]. rewrite hex_line by lia. cbn [mbind option_bind].
  destruct (print_hex_ok (strlen text)) as [_ E]; [lia|]. rewrite E, (proj2 (Z.eqb_neq _ _)) by lia.
  rewrite take_strlen, drop_strlen. cbn [crlf app]. by rewrite Z.eqb_refl.
Qed.

Lemma chunks_start first l status : exists rest, chunks_text first l ++ chunk_end status = crlf ++ rest.
Proof.
  revert first. induction l as [|rh l IH]; intros first; cbn [chunks_text]; [by eexists|]. unfold chunk_text. destruct (_ =? 0); [apply IH|].
  eexists. by rewrite <- !app_assoc.
Qed.

Lemma chunks_read l status : forall first rest fuel, chunks_text first l ++ chunk_end status = crlf ++ rest -> (length rest < fuel)%nat ->
  read_chunks fuel rest = Some (texts_of first l, trailer_text status).
Proof.
  induction l as [|rh l IH]; intros first rest fuel E Hf; (destruct fuel as [|fuel]; [lia|]).
  - cbn [chunks_text app] in E. unfold chunk_end in E. apply app_inv_head in E as <-. reflexivity.
  - cbn [chunks_text texts_of] in *. unfold chunk_text in E. destruct (Z.eqb_spec (strlen (response_text_of first rh)) 0) as [Ez|Ez].
    + assert (H0 : response_text_of first rh = []).
      { destruct (response_text_of first rh) as [|c t]; [done|]. rewrite strlen_cons in Ez. pose proof (strlen_nonneg t). lia. }
      rewrite H0. by apply (IH false rest (S fuel)).
    + destruct (chunks_start false l status) as [rest' Er]. rewrite <- !app_assoc, Er in E. apply app_inv_head in E as <-.
      rewrite read_chunk by (intros H0; by rewrite H0 in Ez). rewrite (IH false rest' fuel Er); [done|]. rewrite !length_app in Hf. cbn in Hf. lia.
Qed.
End chunks.

(** C40: an answer in chunks is read back: behind the header of the answer, a reader of the
    chunked transfer coding finds the texts of all responses, one after the other, empty
    ones too, and the trailer with the status of the last response. *)
Theorem chunks_received {B} st numRequest rh l (s : process B) : complete (rh :: l) -> rh_rc rh = 1 -> Forall small (rh :: l) ->
  exists body, write_chunks st numRequest 1 (rh :: l) s = Done tt (add_written (chunk_header st numRequest ++ crlf ++ body) s) /\
    read_chunks (S (length body)) body = Some (texts_of true (rh :: l), trailer_text (result_of (rh :: l))).
Proof.
  intros Hc Hrc Hs. destruct (chunks_start true (rh :: l) (result_of (rh :: l))) as [body E]. exists body. split.
  - pose proof (responses_written st numRequest (rh :: l) Hc true s Hs (fun _ => Hrc)) as H. by rewrite H, E.
  - apply (chunks_read _ _ true); [exact E|lia].
Qed.

(** *** Witness: a first chunk, one without a text, and an error at the end. *)

Definition wit_first : BinResponse :=
  {| rh_rc := 1; moreChunks := true; providers_done := false; pieces := fun g => match g with genFirstChunkResponses => [Some (cstr "<CIM>"); None] | _ => [] end |}.
Definition wit_error : BinResponse := {| rh_rc := 7; moreChunks := true; providers_done := true; pieces := fun _ => [] |}.

Lemma chunks_received_witness : exists body,
  write_chunks wit_settings 1 1 [wit_first; wit_first; wit_error] wit_process
    = Done tt (add_written (chunk_header wit_settings 1 ++ crlf ++ body) wit_process) /\
  read_chunks (S (length body)) body = Some (cstr "<CIM>", trailer_text 6).
Proof.
  refine (chunks_received wit_settings 1 wit_first [wit_first; wit_error] wit_process _ _ _).
  - apply complete_more; [reflexivity|by left|]. apply complete_more; [reflexivity|by left|]. apply complete_last; [reflexivity|discriminate].
  - reflexivity.
  - repeat constructor; intros []; vm_compute; reflexivity.
Defined.
