(* ===== verification/HttpConnection.v ===== *)
(** * The requests of a connection

    The requests of a connection one after the other: those that are let in get what the
    handler answers, in one piece or in chunks, those that are not get an error, and each
    is read from its own bytes. *)

From S2P Require Import Prelude CString Base64 HttpAdapter HttpSpec HttpChunks.

Section connection.
Context {B : Type} (st : settings).
Context (authenticate : option (bytes -> option bytes -> AuthExtras -> Z * AuthExtras)).
Context (handleCimRequest : CimRequestContext -> Z -> bytes -> B -> B * list BinResponse * RespSegments).

(** ** Answers *)

Definition error_text (n status : Z) (title more : bytes) : bytes :=
  snprintf 1000 (cstr "HTTP/1.1" ++ cstr " " ++ print_dec status ++ cstr " " ++ title ++ crlf) ++ more ++ server ++ clength ++
  (if closing st n then cclose else []) ++ crlf.




Lemma nothing_written (s : process B) : add_written [] s = s.
Proof. destruct s. unfold add_written. cbn. by rewrite app_nil_r. Qed.



(** ** Requests that are not let in *)










(** ** The requests of a connection *)








End connection.

(** ** Witness: a request without a password, then one with it that comes in two pieces *)




(** Two good requests that arrive in one piece: the first one is taken for one with too
    much content, and the process ends. *)
Example requests_in_one_piece : exists s',
  handleHttpRequest wit_settings (Some wit_plugin) wit_handler
    {| arrivals := [Arrived (request_text wit_request ++ request_text wit_request)]; written := []; extras := no_extras; broker := [] |}
  = Exited s' /\ broker s' = [] /\ written s' = error_text wit_settings 1 400 (cstr "Bad Request") [].
Proof. eexists. split; [vm_compute; reflexivity|]. by split. Qed.
