(* ===== verification/XmlScanner.v ===== *)
(** * The buffer of the CIM-XML scanner (cimXmlParser.c)

    The scanner works in a copy of the request: it overwrites the end of every
    attribute and text with a NUL and hands out pointers into the copy.  The model has
    the cells of the copy, [base], with the final NUL; pointers are offsets.

    A function is a computation on a state that returns, ends the process ([Exit],
    the [exit(1)] of [Throw]), or has undefined behaviour ([Undefined]: it leaves the
    copy or follows a null pointer). *)

From S2P Require Import Prelude CString.

Inductive outcome (S A : Type) :=
| Ret (a : A) (s : S)
| Exit
| Undefined.
Arguments Ret {S A} a s.
Arguments Exit {S A}.
Arguments Undefined {S A}.

Definition M (S A : Type) : Type := S -> outcome S A.

#[export] Instance M_ret S : MRet (M S) := fun A a s => Ret a s.
#[export] Instance M_bind S : MBind (M S) := fun A B f m s =>
  match m s with
  | Ret a s' => f a s'
  | Exit => Exit
  | Undefined => Undefined
  end.

(** ** The tokens *)

Inductive token :=
| XTOK_XML | XTOK_CIM | XTOK_MESSAGE | XTOK_SIMPLEREQ | XTOK_METHODCALL
| XTOK_GETINSTANCE | XTOK_GETCLASS | XTOK_ENUMCLASSNAMES | XTOK_ENUMCLASSES | XTOK_ENUMINSTANCENAMES
| XTOK_ENUMINSTANCES | XTOK_DELETEINSTANCE | XTOK_CREATEINSTANCE | XTOK_MODIFYINSTANCE | XTOK_ASSOCIATORNAMES
| XTOK_ASSOCIATORS | XTOK_REFERENCENAMES | XTOK_REFERENCES | XTOK_EXECQUERY | XTOK_CREATECLASS | XTOK_DELETECLASS
| XTOK_GETPROPERTY | XTOK_SETPROPERTY | XTOK_GETQUALIFIER | XTOK_SETQUALIFIER | XTOK_DELETEQUALIFIER | XTOK_ENUMQUALIFIERS
| XTOK_LOCALNAMESPACEPATH | XTOK_LOCALCLASSPATH | XTOK_LOCALINSTANCEPATH | XTOK_NAMESPACE | XTOK_NAMESPACEPATH
| XTOK_PARAMVALUE | XTOK_IP_CLASSNAME | XTOK_IP_INSTANCE | XTOK_IP_MODIFIEDINSTANCE | XTOK_IP_INSTANCENAME
| XTOK_IP_OBJECTNAME | XTOK_IP_LOCALONLY | XTOK_IP_INCLUDEQUALIFIERS | XTOK_IP_INCLUDECLASSORIGIN
| XTOK_IP_DEEPINHERITANCE | XTOK_IP_ASSOCCLASS | XTOK_IP_RESULTCLASS | XTOK_IP_ROLE | XTOK_IP_RESULTROLE
| XTOK_IP_PROPERTYLIST | XTOK_IP_QUERYLANG | XTOK_IP_QUERY | XTOK_IP_CLASS | XTOK_IP_QUALIFIERDECLARATION
| XTOK_IP_QUALIFIERNAME | XTOK_IP_PROPERTYNAME | XTOK_IP_NEWVALUE
| XTOK_CLASSNAME | XTOK_INSTANCENAME | XTOK_KEYBINDING | XTOK_INSTANCE | XTOK_CLASS | XTOK_KEYVALUE | XTOK_HOST
| XTOK_VALUE | XTOK_CDATA | XTOK_VALUEARRAY | XTOK_VALUEREFARRAY | XTOK_VALUENAMEDINSTANCE | XTOK_INSTANCEPATH
| XTOK_VALUEREFERENCE | XTOK_QUALIFIERDECLARATION | XTOK_QUALIFIER | XTOK_SCOPE | XTOK_PROPERTY | XTOK_PROPERTYARRAY
| XTOK_PROPERTYREFERENCE | XTOK_METHOD | XTOK_PARAM
| ZTOK_XML | ZTOK_CIM | ZTOK_MESSAGE | ZTOK_SIMPLEREQ | ZTOK_METHODCALL | ZTOK_IMETHODCALL | ZTOK_LOCALNAMESPACEPATH
| ZTOK_LOCALCLASSPATH | ZTOK_LOCALINSTANCEPATH | ZTOK_NAMESPACE | ZTOK_NAMESPACEPATH | ZTOK_PARAMVALUE | ZTOK_IPARAMVALUE
| ZTOK_CLASSNAME | ZTOK_INSTANCENAME | ZTOK_KEYBINDING | ZTOK_INSTANCE | ZTOK_CLASS | ZTOK_KEYVALUE | ZTOK_HOST
| ZTOK_VALUE | ZTOK_CDATA | ZTOK_VALUEARRAY | ZTOK_VALUEREFARRAY | ZTOK_VALUENAMEDINSTANCE | ZTOK_INSTANCEPATH
| ZTOK_VALUEREFERENCE | ZTOK_QUALIFIERDECLARATION | ZTOK_QUALIFIER | ZTOK_SCOPE | ZTOK_PROPERTY | ZTOK_PROPERTYARRAY
| ZTOK_PROPERTYREFERENCE | ZTOK_METHOD | ZTOK_PARAM | ZTOK_PARAMARRAY | ZTOK_PARAMREF | ZTOK_PARAMREFARRAY.

(** A pointer into the copy, or null; [Mangled] is one whose lowest two bytes were
    overwritten. *)
Inductive ptr := Null | At (p : Z) | Mangled.

Record XmlBuffer := { base : bytes; cur : Z; eTagFound : bool; etag : option token; nulledChar : Z }.

Definition newXmlBuffer (s : bytes) : XmlBuffer :=
  {| base := s ++ [0]; cur := 0; nulledChar := 0; eTagFound := false; etag := None |}.

Definition last (xb : XmlBuffer) : Z := strlen (base xb) - 1.
Definition set_cur (p : Z) (xb : XmlBuffer) : XmlBuffer :=
  {| base := base xb; cur := p; eTagFound := eTagFound xb; etag := etag xb; nulledChar := nulledChar xb |}.
Definition set_base (b : bytes) (xb : XmlBuffer) : XmlBuffer :=
  {| base := b; cur := cur xb; eTagFound := eTagFound xb; etag := etag xb; nulledChar := nulledChar xb |}.
Definition set_tag (f : bool) (t : option token) (xb : XmlBuffer) : XmlBuffer :=
  {| base := base xb; cur := cur xb; eTagFound := f; etag := t; nulledChar := nulledChar xb |}.
Definition set_nulled (c : Z) (xb : XmlBuffer) : XmlBuffer :=
  {| base := base xb; cur := cur xb; eTagFound := eTagFound xb; etag := etag xb; nulledChar := c |}.

(** ** Memory *)

Definition rest_at (b : bytes) (p : Z) : bytes := drop (Z.to_nat p) b.
Definition cell (b : bytes) (p : Z) : option Z := if p <? 0 then None else b !! Z.to_nat p.

Definition str_at (b : bytes) (p : Z) : bytes := until_nul (rest_at b p).

Definition in_buffer (xb : XmlBuffer) (p : Z) : bool := (0 <=? p) && (p <=? last xb).

Abbreviation scan := (M XmlBuffer).

Definition get {S} : M S S := fun s => Ret s s.
Definition modify {S} (f : S -> S) : M S unit := fun s => Ret () (f s).
Definition undefined {S A} : M S A := fun _ => Undefined.
Definition Throw {S A} : M S A := fun _ => Exit.

(** [*p] *)
Definition rd (p : Z) : scan Z :=
  xb ← get; match cell (base xb) p with Some c => mret c | None => undefined end.
(** [*p = c] *)
Definition wr (p c : Z) : scan unit :=
  xb ← get;
  if in_buffer xb p then modify (set_base (<[Z.to_nat p := c]> (base xb))) else undefined.
(** The C string [p] points at. *)
Definition rd_str (p : Z) : scan bytes :=
  xb ← get; if in_buffer xb p then mret (str_at (base xb) p) else undefined.

(** ** Characters and words *)

(** [char] is signed: the bytes from 128 up count as blanks. *)
Definition blank (c : Z) : bool := schar c <=? 32.

Definition skipWS : scan unit :=
  xb ← get;
  if in_buffer xb (cur xb) then
    modify (set_cur (cur xb + Z.of_nat (strspn (take (Z.to_nat (last xb - cur xb)) (rest_at (base xb) (cur xb))) blank)))
  else undefined.

Definition getChars (s : bytes) : scan bool :=
  xb ← get;
  t ← rd_str (cur xb);
  if strncmp t s (strlen s) =? 0 then modify (set_cur (cur xb + strlen s));; mret true else mret false.

(** The character read, 0 when it is another one. *)
Definition getChar (c : Z) : scan Z :=
  xb ← get;
  d ← rd (cur xb);
  if d =? c then modify (set_cur (cur xb + 1));; mret d else mret 0.

(** [None] when there is no tag. *)
Definition nextTag : scan (option Z) :=
  xb ← get;
  if negb (nulledChar xb =? 0) then modify (set_nulled 0);; mret (Some (cur xb + 1))
  else
    skipWS;;
    xb ← get;
    c ← rd (cur xb);
    mret (if c =? 60 then Some (cur xb + 1) else None).

Definition nextEquals (n t : bytes) : bool :=
  (strncmp n t (strlen t) =? 0) && negb (isalnum (at0 (drop (length t) n))).

Definition skipTag : scan Z :=
  xb ← get;
  if in_buffer xb (cur xb) then
    modify (set_cur (cur xb +
      Z.of_nat (strspn (take (Z.to_nat (last xb - cur xb)) (rest_at (base xb) (cur xb))) (fun c => negb (c =? 62))) + 1));;
    xb ← get;
    rd (cur xb)
  else undefined.

Definition getWord (w : bytes) (xCase : bool) : scan bool :=
  xb ← get;
  t ← rd_str (cur xb);
  if (if xCase then strncmp t w (strlen w) else strncasecmp t w (strlen w)) =? 0 then
    if isalnum (at0 (drop (length w) t)) then mret false
    else modify (set_cur (cur xb + strlen w));; mret true
  else mret false.

(** The cursor becomes a null pointer ([-1]) when the tag after a text is another one. *)
Definition tagEquals (t : bytes) : scan bool :=
  xb ← get;
  c ← rd (cur xb);
  let sz := c =? 0 in
  let start := if sz then -1 else cur xb in
  (if sz then modify (set_cur (cur xb + 1)) else mret ());;
  skipWS;;
  open ← (if sz then mret true else c ← getChar 60; mret (negb (c =? 0)));
  found ← (if open : bool then skipWS;; getWord t true else mret false);
  if found : bool then mret true else modify (set_cur start);; mret false.

(** ** Attributes *)

Fixpoint find_cell (l : bytes) (c : Z) : option nat :=
  match l with [] => None | b :: l => if b =? c then Some O else S <$> find_cell l c end.

(** The text between quotes; the closing quote is looked for in all of the copy. *)
Definition getValue : scan ptr :=
  skipWS;;
  d ← getChar 34;
  dlm ← (if d =? 0 then getChar 39 else mret d);
  if dlm =? 0 then mret Null
  else
    xb ← get;
    let start := cur xb in
    match find_cell (rest_at (base xb) start) dlm with
    | None => undefined
    | Some k =>
        wr (start + Z.of_nat k) 0;;
        modify (set_cur (start + Z.of_nat k + 1));;
        mret (At start)
    end.

Definition MAXATTR : Z := 32.

(** An attribute of the element, whether it was seen, and its value. *)
Definition attribute : Type := bytes * bool * ptr.

(** The attribute the cursor is at, if it is one of the element's. *)
Fixpoint set_attr (attrs : list attribute) : scan (option (list attribute)) :=
  match attrs with
  | [] => mret None
  | (a, seen, v) :: rest =>
      let next := r ← set_attr rest; mret ((fun rest => (a, seen, v) :: rest) <$> r) in
      found ← (if seen : bool then mret false else getWord a false);
      if found : bool then
        xb ← get;
        c ← rd (cur xb);
        if isalnum c then next
        else
          skipWS;;
          e ← getChar 61;
          if e =? 0 then Throw
          else v ← getValue; mret (Some ((a, true, v) :: rest))
      else next
  end.

(** Every attribute takes at least one cell, so the cells are fuel enough. *)
Fixpoint attr_loop (fuel : nat) (attrs : list attribute) : scan (list attribute) :=
  skipWS;;
  xb ← get;
  c ← rd (cur xb);
  if isalpha c then
    match fuel with
    | O => undefined
    | S fuel => r ← set_attr attrs; match r with Some attrs => attr_loop fuel attrs | None => Throw end
    end
  else mret attrs.

(** The values of the attributes, in the order of the elements. *)
Definition attrsOk (elm : list bytes) (tag : bytes) (t : token) : scan (list ptr) :=
  if MAXATTR <? Z.of_nat (length elm) then Throw
  else
    xb ← get;
    modify (set_tag false (etag xb));;
    attrs ← attr_loop (length (base xb)) ((fun a => (a, false, Null)) <$> elm);
    let values := snd <$> attrs in
    e ← getChars (cstr "/>");
    if e : bool then modify (set_tag true (Some t));; mret values
    else
      c ← getChar 62;
      if negb (c =? 0) then mret values
      else
        q ← getChars (cstr "?>");
        if (q : bool) && (strcmp tag (cstr "?xml") =? 0) then modify (set_tag true (Some t));; mret values
        else Throw.

(** ** Text *)

Definition xmlEscapeTab : list (bytes * Z) :=
  [(cstr "&apos;", 39); (cstr "&quot;", 34); (cstr "&amp;", 38); (cstr "&gt;", 62); (cstr "&lt;", 60)].
Definition MAX_UNESC_CHAR_LEN : Z := 10.

Definition isxdigit (c : Z) : bool := isdigit c || ((65 <=? c) && (c <=? 70)) || ((97 <=? c) && (c <=? 102)).
Definition xdigit_val (c : Z) : Z := if isdigit c then c - 48 else if c <=? 70 then c - 55 else c - 87.

(** [sscanf] with ["%d"] or ["%x"] into a variable that is 0: [None] when it returns 0.
    It returns [EOF] for an empty input, and the variable keeps its 0. *)
Definition sscanf_int (hex : bool) (s : bytes) : option Z :=
  match skip_space s with
  | [] => Some 0
  | c :: s' =>
      let '(neg, s1) := if c =? 45 then (true, s') else if c =? 43 then (false, s') else (false, c :: s') in
      let s2 := if hex && is_prefix (cstr "0x") (tolower <$> s1) then drop 2 s1 else s1 in
      let isd := if hex then isxdigit else isdigit in
      let ds := take (strspn s2 isd) s2 in
      if (length ds =? 0)%nat then None
      else
        let v := fold_left (fun acc d => acc * (if hex then 16 else 10) + xdigit_val d) ds 0 in
        Some (if neg : bool then - v else v)
  end.

Definition memmove (b : bytes) (dst src n : Z) : option bytes :=
  if (0 <=? n) && (0 <=? dst) && (0 <=? src) && (src + n <=? strlen b) && (dst + n <=? strlen b) then
    Some (take (Z.to_nat dst) b ++ take (Z.to_nat n) (rest_at b src) ++ drop (Z.to_nat (dst + n)) b)
  else None.

(** [c] in the place of the [n] cells at [buf], the cells up to [end_] moved up. *)
Definition put_char (b : bytes) (buf end_ c n : Z) : option (Z * bytes) :=
  b ← memmove (<[Z.to_nat buf := c]> b) (buf + 1) (buf + n) (end_ - buf - n + 1);
  Some (n - 1, b).

Fixpoint find_escape (tab : list (bytes * Z)) (s : bytes) : option (bytes * Z) :=
  match tab with
  | [] => None
  | (e, c) :: tab => if strncmp s e (strlen e) =? 0 then Some (e, c) else find_escape tab s
  end.

(** The number of cells the text has become shorter by. *)
Definition xmlUnescape (b : bytes) (buf end_ : Z) : option (Z * bytes) :=
  if strlen b <=? buf + 2 then None
  else
    let s := str_at b (buf + 2) in
    match strchr s 59 with
    | None => Some (0, b)
    | Some after =>
        let semi := 2 + strlen (cut s after) in
        let amp := match strchr s 38 with Some a => 2 + strlen (cut s a) <? semi | None => false end in
        if amp then Some (0, b)
        else if MAX_UNESC_CHAR_LEN <=? semi then Some (0, b)
        else
          c1 ← cell b (buf + 1);
          if c1 =? 35 then
            let escchar := cut s after in
            let hex := (at0 escchar =? 120) || (at0 escchar =? 88) in
            let diflen := strlen escchar + 3 in
            match sscanf_int hex (if hex then drop 1 escchar else escchar) with
            | None => Some (0, b)
            | Some v => put_char b buf end_ (u8 v) diflen
            end
          else
            let escchar := until_nul (take (Z.to_nat (semi + 1)) (rest_at b buf)) in
            match find_escape xmlEscapeTab escchar with
            | None => Some (0, b)
            | Some (e, c) => put_char b buf end_ c (strlen e)
            end
    end.

(** The text from [help] to [end_] unescaped, and its new end; [fuel] is its length. *)
Fixpoint unescape_loop (fuel : nat) (b : bytes) (help end_ : Z) : option (bytes * Z) :=
  if help <? end_ then
    match fuel with
    | O => None
    | S fuel =>
        c ← cell b help;
        if c =? 38 then
          '(k, b) ← xmlUnescape b help end_;
          unescape_loop fuel b (help + 1) (end_ - k)
        else unescape_loop fuel b (help + 1) end_
    end
  else Some (b, end_).

(** Blanks before [end_] overwritten with NULs, down to the first other character. *)
Fixpoint trim_end (fuel : nat) (b : bytes) (end_ : Z) : option (bytes * Z) :=
  match fuel with
  | O => None
  | S fuel =>
      c ← cell b (end_ - 1);
      if blank c then trim_end fuel (<[Z.to_nat (end_ - 1) := 0]> b) (end_ - 1) else Some (b, end_)
  end.

(** [trimws] is set from the configuration. *)
Definition getContent (trimws : bool) : scan ptr :=
  xb ← get;
  if eTagFound xb then mret Null
  else if negb (in_buffer xb (cur xb)) then undefined
  else
    let start := cur xb in
    let end_ := start +
      Z.of_nat (strspn (take (Z.to_nat (last xb - start)) (rest_at (base xb) start)) (fun c => negb (c =? 60))) in
    c ← rd end_;
    modify (set_cur end_);;
    modify (set_nulled c);;
    wr end_ 0;;
    xb ← get;
    let start1 := if trimws then start + Z.of_nat (strspn (str_at (base xb) start) blank) else start in
    match (if trimws then trim_end (S (Z.to_nat end_)) (base xb) end_ else Some (base xb, end_)) with
    | None => undefined
    | Some (b, end1) =>
        match unescape_loop (Z.to_nat (end1 - start1)) b start1 end1 with
        | None => undefined
        | Some (b, _) => modify (set_base b);; mret (At start1)
        end
    end.

(** * The scanner at a place in the buffer *)

(** Concatenations nested to the right. *)
Ltac app_norm := repeat first [rewrite <- app_assoc | progress cbn [app]].

(** ** Running computations *)

Lemma bind_ret {S A B} (m : M S A) (f : A -> M S B) s a s' : m s = Ret a s' -> (m ≫= f) s = f a s'.
Proof. intros H. unfold mbind, M_bind. by rewrite H. Qed.
Lemma bind_get {S B} (f : S -> M S B) s : (get ≫= f) s = f s s.
Proof. done. Qed.
Lemma bind_modify {S B} g (f : unit -> M S B) s : (modify g ≫= f) s = f () (g s).
Proof. done. Qed.
Lemma bind_mret {S A B} (a : A) (f : A -> M S B) s : (mret a ≫= f) s = f a s.
Proof. done. Qed.
Create Rewrite HintDb run.
#[export] Hint Rewrite @bind_get @bind_modify @bind_mret : run.

(** The cursor between [pre] and [post]. *)
Definition place (pre post : bytes) (f : bool) (t : option token) (n : Z) : XmlBuffer :=
  {| base := pre ++ post; cur := strlen pre; eTagFound := f; etag := t; nulledChar := n |}.

Lemma rest_at_app pre post : rest_at (pre ++ post) (strlen pre) = post.
Proof. unfold rest_at, strlen. rewrite Nat2Z.id. by rewrite drop_app_length. Qed.
Lemma rest_at_plus pre post k : 0 <= k -> rest_at (pre ++ post) (strlen pre + k) = drop (Z.to_nat k) post.
Proof.
  intros. unfold rest_at, strlen. rewrite Z2Nat.inj_add, Nat2Z.id by lia.
  rewrite <- drop_drop. by rewrite drop_app_length.
Qed.
Lemma cell_app pre c post : cell (pre ++ c :: post) (strlen pre) = Some c.
Proof.
  unfold cell, strlen. rewrite (proj2 (Z.ltb_ge _ _)) by lia. rewrite Nat2Z.id. by apply list_lookup_middle.
Qed.
Lemma cell_plus pre post k : 0 <= k -> cell (pre ++ post) (strlen pre + k) = post !! Z.to_nat k.
Proof.
  intros. unfold cell, strlen. rewrite (proj2 (Z.ltb_ge _ _)) by lia. rewrite Z2Nat.inj_add, Nat2Z.id by lia.
  rewrite lookup_app_r by lia. f_equal. lia.
Qed.
Lemma in_place pre post f t n k : 0 <= k < strlen post -> in_buffer (place pre post f t n) (strlen pre + k) = true.
Proof.
  intros. unfold in_buffer, last, place. cbn [base]. rewrite strlen_app. pose proof (strlen_nonneg pre).
  apply andb_true_intro. split; apply Z.leb_le; lia.
Qed.
Lemma in_place0 pre post f t n : post <> [] -> in_buffer (place pre post f t n) (strlen pre) = true.
Proof.
  intros H. replace (strlen pre) with (strlen pre + 0) by lia. apply in_place.
  destruct post; [done|]. rewrite strlen_cons. pose proof (strlen_nonneg post). lia.
Qed.

Lemma place_move pre s post f t n :
  set_cur (strlen pre + strlen s) (place pre (s ++ post) f t n) = place (pre ++ s) post f t n.
Proof. unfold set_cur, place. cbn. by rewrite <- app_assoc, strlen_app. Qed.
Lemma place_move1 pre c post f t n :
  set_cur (strlen pre + 1) (place pre (c :: post) f t n) = place (pre ++ [c]) post f t n.
Proof. exact (place_move pre [c] post f t n). Qed.

(** The blanks before the cursor's next character skipped. *)
Lemma skipWS_place pre ws c post f t n :
  Forall (fun c => blank c = true) ws -> blank c = false ->
  skipWS (place pre (ws ++ c :: post) f t n) = Ret () (place (pre ++ ws) (c :: post) f t n).
Proof.
  intros Hw Hc. unfold skipWS. rewrite bind_get. change (cur (place pre (ws ++ c :: post) f t n)) with (strlen pre).
  rewrite in_place0 by (by destruct ws). change (base (place pre (ws ++ c :: post) f t n)) with (pre ++ ws ++ c :: post).
  rewrite rest_at_app.
  assert (E : strspn (take (Z.to_nat (last (place pre (ws ++ c :: post) f t n) - strlen pre)) (ws ++ c :: post)) blank = length ws).
  { unfold last, place. cbn [base]. autorewrite with strlen.
    replace (Z.to_nat (strlen pre + (strlen ws + (1 + strlen post)) - 1 - strlen pre)) with (length ws + length post)%nat
      by (unfold strlen; lia).
    rewrite take_app_add. destruct post as [|d post]; cbn.
    - rewrite app_nil_r. rewrite <- (app_nil_r ws) at 1. rewrite strspn_through by done. cbn. lia.
    - by apply strspn_stop. }
  rewrite E. unfold modify. f_equal. fold (strlen ws). apply place_move.
Qed.

Lemma skipWS_place0 pre c post f t n : blank c = false ->
  skipWS (place pre (c :: post) f t n) = Ret () (place pre (c :: post) f t n).
Proof.
  intros Hc. pose proof (skipWS_place pre [] c post f t n ltac:(constructor) Hc) as H.
  by rewrite app_nil_r in H.
Qed.

Lemma rd_place pre c post f t n : rd (strlen pre) (place pre (c :: post) f t n) = Ret c (place pre (c :: post) f t n).
Proof. unfold rd. rewrite bind_get. cbn [base place]. by rewrite cell_app. Qed.

Lemma rd_str_place pre post f t n k : 0 <= k < strlen post ->
  rd_str (strlen pre + k) (place pre post f t n) = Ret (until_nul (drop (Z.to_nat k) post)) (place pre post f t n).
Proof.
  intros Hk. unfold rd_str. rewrite bind_get, in_place by done. cbn [base place]. unfold str_at.
  by rewrite rest_at_plus by lia.
Qed.
Lemma rd_str_place0 pre post f t n : post <> [] ->
  rd_str (strlen pre) (place pre post f t n) = Ret (until_nul post) (place pre post f t n).
Proof.
  intros Hp. replace (strlen pre) with (strlen pre + 0) by lia. rewrite rd_str_place; [done|].
  destruct post; [done|]. rewrite strlen_cons. pose proof (strlen_nonneg post). lia.
Qed.

Lemma getChar_yes pre c post f t n :
  getChar c (place pre (c :: post) f t n) = Ret c (place (pre ++ [c]) post f t n).
Proof.
  unfold getChar. rewrite bind_get. cbn [cur place]. rewrite (bind_ret _ _ _ _ _ (rd_place _ _ _ _ _ _)).
  rewrite Z.eqb_refl, bind_modify, <- place_move1. done.
Qed.
Lemma getChar_no pre c d post f t n : d <> c ->
  getChar c (place pre (d :: post) f t n) = Ret 0 (place pre (d :: post) f t n).
Proof.
  intros H. unfold getChar. rewrite bind_get. cbn [cur place]. rewrite (bind_ret _ _ _ _ _ (rd_place _ _ _ _ _ _)).
  by rewrite (proj2 (Z.eqb_neq d c)).
Qed.

Lemma getChars_yes pre s post f t n : Forall (fun c => c <> 0) s -> s ++ post <> [] ->
  getChars s (place pre (s ++ post) f t n) = Ret true (place (pre ++ s) post f t n).
Proof.
  intros Hs Hn. unfold getChars. rewrite bind_get. cbn [cur place].
  rewrite (bind_ret _ _ _ _ _ (rd_str_place0 _ _ _ _ _ Hn)), until_nul_app, strncmp_prefix by done.
  cbn [Z.eqb]. rewrite bind_modify, <- place_move. done.
Qed.
Lemma getChars_no pre s post f t n : post <> [] -> strncmp (until_nul post) s (strlen s) <> 0 ->
  getChars s (place pre post f t n) = Ret false (place pre post f t n).
Proof.
  intros Hn Hs. unfold getChars. rewrite bind_get. cbn [cur place].
  rewrite (bind_ret _ _ _ _ _ (rd_str_place0 _ _ _ _ _ Hn)). by rewrite (proj2 (Z.eqb_neq _ _) Hs).
Qed.

Lemma getWord_yes pre w c post f t n : Forall (fun c => c <> 0) w -> isalnum c = false -> 
  getWord w true (place pre (w ++ c :: post) f t n) = Ret true (place (pre ++ w) (c :: post) f t n).
Proof.
  intros Hw Hc. unfold getWord. rewrite bind_get. cbn [cur place].
  assert (Hn : w ++ c :: post <> []) by (by destruct w).
  rewrite (bind_ret _ _ _ _ _ (rd_str_place0 _ _ _ _ _ Hn)), until_nul_app, strncmp_prefix by done.
  cbn [Z.eqb]. rewrite drop_app_length.
  assert (E : isalnum (at0 (until_nul (c :: post))) = false).
  { cbn. by destruct (Z.eqb_spec c 0) as [->|_]. }
  rewrite E, bind_modify, <- place_move. done.
Qed.

(** The tag of an element, when it is the one looked for. *)
Lemma tagEquals_open pre w c post f t n : Forall (fun c => c <> 0) w -> blank (at0 (w ++ [c])) = false -> isalnum c = false ->
  tagEquals w (place pre (60 :: w ++ c :: post) f t n) = Ret true (place (pre ++ 60 :: w) (c :: post) f t n).
Proof.
  intros Hw Hb Hc. unfold tagEquals. rewrite bind_get. cbn [cur place].
  rewrite (bind_ret _ _ _ _ _ (rd_place _ _ _ _ _ _)). cbn [Z.eqb]. rewrite bind_mret.
  rewrite (bind_ret _ _ _ _ _ (skipWS_place0 pre 60 (w ++ c :: post) f t n eq_refl)).
  change (?f (if false then mret true else ?m) ?s) with (f m s).
  rewrite (bind_ret (getChar 60 ≫= _) _ _ true (place (pre ++ [60]) (w ++ c :: post) f t n)).
  2: { by rewrite (bind_ret _ _ _ _ _ (getChar_yes pre 60 _ f t n)). }
  assert (Hs : skipWS (place (pre ++ [60]) (w ++ c :: post) f t n) = Ret () (place (pre ++ [60]) (w ++ c :: post) f t n)).
  { destruct w; by apply skipWS_place0. }
  rewrite (bind_ret (skipWS;; _) _ _ true (place ((pre ++ [60]) ++ w) (c :: post) f t n)).
  2: { rewrite (bind_ret _ _ _ _ _ Hs). by apply getWord_yes. }
  by rewrite <- app_assoc.
Qed.

(** A tag without attributes. *)
Lemma attrsOk_none pre tag z post f t n :
  attrsOk [] tag z (place pre (62 :: post) f t n) = Ret [] (place (pre ++ [62]) post false t n).
Proof.
  unfold attrsOk. change (MAXATTR <? Z.of_nat (length (@nil bytes))) with false. cbv iota.
  rewrite bind_get. cbn [etag place]. rewrite bind_modify.
  change (set_tag false t _) with (place pre (62 :: post) false t n).
  assert (E : forall k, attr_loop k [] (place pre (62 :: post) false t n) = Ret [] (place pre (62 :: post) false t n)).
  { intros k. destruct k; cbn [attr_loop]; rewrite (bind_ret _ _ _ _ _ (skipWS_place0 pre 62 post false t n eq_refl)), bind_get;
      cbn [cur place]; by rewrite (bind_ret _ _ _ _ _ (rd_place _ _ _ _ _ _)). }
  rewrite (bind_ret _ _ _ _ _ (E _)).
  assert (Hn : strncmp (until_nul (62 :: post)) (cstr "/>") (strlen (cstr "/>")) <> 0) by done.
  rewrite (bind_ret _ _ _ _ _ (getChars_no pre (cstr "/>") (62 :: post) false t n ltac:(done) Hn)).
  by rewrite (bind_ret _ _ _ _ _ (getChar_yes _ _ _ _ _ _)).
Qed.

(** ** Text *)

(** A character as it is written in a text. *)
Definition escape_char (c : Z) : bytes :=
  match List.find (fun e => snd e =? c) xmlEscapeTab with Some (e, _) => e | None => [c] end.
Definition escape_all (s : bytes) : bytes := concat (escape_char <$> s).

Lemma escape_char_cases c :
  (exists e, escape_char c = 38 :: e /\ In (38 :: e, c) xmlEscapeTab) \/
  (escape_char c = [c] /\ c <> 38 /\ c <> 60).
Proof.
  unfold escape_char. cbn [List.find xmlEscapeTab snd].
  destruct (Z.eqb_spec 39 c) as [<-|]; [left; eexists; split; [reflexivity|by left]|].
  destruct (Z.eqb_spec 34 c) as [<-|]; [left; eexists; split; [reflexivity|by right; left]|].
  destruct (Z.eqb_spec 38 c) as [<-|]; [left; eexists; split; [reflexivity|by do 2 right; left]|].
  destruct (Z.eqb_spec 62 c) as [<-|]; [left; eexists; split; [reflexivity|by do 3 right; left]|].
  destruct (Z.eqb_spec 60 c) as [<-|]; [left; eexists; split; [reflexivity|by do 4 right; left]|].
  right. done.
Qed.

Lemma escape_all_cons c s : escape_all (c :: s) = escape_char c ++ escape_all s.
Proof. done. Qed.

Lemma escapes e c : In (38 :: e, c) xmlEscapeTab ->
  In (e, c) [([97; 112; 111; 115; 59], 39); ([113; 117; 111; 116; 59], 34); ([97; 109; 112; 59], 38);
             ([103; 116; 59], 62); ([108; 116; 59], 60)].
Proof.
  intros H. vm_compute in H.
  destruct H as [[= <- <-]|[[= <- <-]|[[= <- <-]|[[= <- <-]|[[= <- <-]|[]]]]]]; cbn [In]; tauto.
Qed.

(** The five escapes in turn. *)
Ltac each_escape H :=
  apply escapes in H; cbn [In] in H;
  destruct H as [[= <- <-]|[[= <- <-]|[[= <- <-]|[[= <- <-]|[[= <- <-]|[]]]]]].

(** An escaped text has no [<] and no NUL, and is as long as the text at least. *)
Lemma escape_all_plain s : Forall (fun c => c <> 0) s -> Forall (fun c => c <> 0 /\ c <> 60) (escape_all s).
Proof.
  induction 1 as [|c s Hc _ IH]; [constructor|]. rewrite escape_all_cons. apply Forall_app. split; [|done].
  destruct (escape_char_cases c) as [(e & E & Hin)|(E & _ & Hn)].
  - rewrite E. clear E. each_escape Hin; by repeat constructor.
  - rewrite E. by repeat constructor.
Qed.

(** The ends of the escaped text are blanks when the ends of the text are. *)
Lemma escape_char_blank c : blank c = false -> blank (at0 (escape_char c)) = false /\
  exists l d, escape_char c = l ++ [d] /\ blank d = false.
Proof.
  intros Hc. destruct (escape_char_cases c) as [(e & E & Hin)|(E & _ & Hn)]; rewrite E; clear E.
  - split; [done|]. each_escape Hin;
      match goal with |- context [?l = _ ++ _] => exists (List.removelast l), (List.last l 0) end; by split.
  - split; [done|]. exists [], c. by split.
Qed.

Lemma memmove_ok (x y z w : bytes) :
  memmove (x ++ y ++ z ++ w) (strlen x) (strlen x + strlen y) (strlen z) = Some (x ++ z ++ drop (length z) (y ++ z) ++ w).
Proof.
  unfold memmove. pose proof (strlen_nonneg x). pose proof (strlen_nonneg y). pose proof (strlen_nonneg z).
  pose proof (strlen_nonneg w). autorewrite with strlen.
  repeat match goal with |- context [?a <=? ?b] => rewrite (proj2 (Z.leb_le a b)) by lia end. cbn [andb]. do 2 f_equal.
  - by rewrite take_strlen.
  - f_equal.
    + rewrite rest_at_plus, drop_strlen by done. by rewrite take_strlen.
    + rewrite Z2Nat.inj_add by done. rewrite <- drop_drop, drop_strlen. unfold strlen. rewrite Nat2Z.id.
      rewrite (app_assoc y z w), drop_app_le by (rewrite length_app; lia). done.
Qed.

Lemma insert_strlen (x : bytes) c d post : <[Z.to_nat (strlen x) := c]> (x ++ d :: post) = x ++ c :: post.
Proof. unfold strlen. rewrite Nat2Z.id. rewrite <- (Nat.add_0_r (length x)). by rewrite insert_app_r. Qed.

Lemma escape_shape e c : In (38 :: e, c) xmlEscapeTab -> exists x p, e = x :: p ++ [59] /\ x <> 35 /\
  Forall (fun d => d <> 0 /\ d <> 38 /\ d <> 59) p /\ strlen p <= 4 /\
  forall t, find_escape xmlEscapeTab (until_nul (take (Z.to_nat (strlen p + 3)) (38 :: e ++ t))) = Some (38 :: e, c).
Proof.
  intros Hin. each_escape Hin; match goal with |- exists x p, ?a :: ?l = _ /\ _ => exists a, (List.removelast l) end;
    split_and!; try done; by repeat constructor.
Qed.

Lemma strchr_app (p u : bytes) c : Forall (fun d => d <> c) p -> strchr (p ++ u) c = strchr u c.
Proof. induction 1 as [|d p Hd _ IH]; [done|]. cbn. by rewrite (proj2 (Z.eqb_neq d c)). Qed.
Lemma strchr_length (u : bytes) c a : strchr u c = Some a -> (length a <= length u)%nat.
Proof.
  induction u as [|d u IH]; [done|]. cbn. destruct (d =? c); [by intros [= <-]|]. intros H%IH. cbn. lia.
Qed.

(** An ampersand behind the semicolon does not matter. *)
Lemma amp_later p u : Forall (fun d => d <> 38) p ->
  match strchr (p ++ 59 :: u) 38 with Some a => 2 + strlen (cut (p ++ 59 :: u) a) <? 2 + strlen p | None => false end = false.
Proof.
  intros Hp. rewrite strchr_app by done. cbn [strchr Z.eqb Pos.eqb]. destruct (strchr u 38) as [a|] eqn:Ha; [|done].
  apply strchr_length in Ha. apply Z.ltb_ge. unfold cut, strlen. rewrite length_take, length_app. cbn. lia.
Qed.

Lemma put_char_ok pre e r tl c k :
  strlen e = k - 1 ->
  put_char (pre ++ 38 :: e ++ r ++ 0 :: tl) (strlen pre) (strlen pre + k + strlen r) c k =
    Some (k - 1, pre ++ c :: r ++ 0 :: drop (length r + 1) (e ++ r ++ [0]) ++ tl).
Proof.
  intros He. unfold put_char. rewrite insert_strlen.
  pose proof (memmove_ok (pre ++ [c]) e (r ++ [0]) tl) as E. rewrite !strlen_app in E.
  change (strlen [c]) with 1 in E. change (strlen [0]) with 1 in E. rewrite <- !app_assoc in E. cbn [app] in E.
  replace (strlen pre + k + strlen r - strlen pre - k + 1) with (strlen r + 1) by lia.
  replace (strlen pre + k) with (strlen pre + 1 + strlen e) by lia. rewrite E. cbn [mbind option_bind].
  rewrite length_app. done.
Qed.

(** An escaped character is read back, whatever follows it; the cells it had too many keep
    a NUL at their end. *)
Lemma xmlUnescape_ok pre e c r tl : In (38 :: e, c) xmlEscapeTab ->
  exists junk, xmlUnescape (pre ++ 38 :: e ++ r ++ 0 :: tl) (strlen pre) (strlen pre + strlen (38 :: e) + strlen r) =
    Some (strlen e, pre ++ c :: r ++ 0 :: junk ++ 0 :: tl) /\ strlen junk = strlen e - 1.
Proof.
  intros Hin.
  assert (Hj : exists junk, drop (length r + 1) (e ++ r ++ [0]) = junk ++ [0] /\ strlen junk = strlen e - 1).
  { assert (He : (0 < length e)%nat) by (each_escape Hin; cbn; lia).
    exists (take (length e - 1) (drop (length r + 1) (e ++ r ++ [0]))).
    assert (L : length (drop (length r + 1) (e ++ r ++ [0])) = length e) by (rewrite length_drop, !length_app; cbn; lia).
    split; [|unfold strlen; rewrite length_take, L; lia].
    rewrite <- (take_drop (length e - 1) (drop (length r + 1) (e ++ r ++ [0]))) at 1. f_equal.
    rewrite drop_drop. rewrite app_assoc, drop_app_ge by (rewrite length_app; lia). rewrite length_app.
    by replace (length r + 1 + (length e - 1) - (length e + length r))%nat with O by lia. }
  destruct Hj as (junk & Hj & Hl). exists junk. split; [|done].
  assert (Hput : forall d, put_char (pre ++ 38 :: e ++ r ++ 0 :: tl) (strlen pre) (strlen pre + strlen (38 :: e) + strlen r) d
    (strlen (38 :: e)) = Some (strlen e, pre ++ d :: r ++ 0 :: junk ++ 0 :: tl)).
  { intros d. rewrite put_char_ok by (autorewrite with strlen; lia). rewrite Hj, <- app_assoc. cbn [app].
    do 2 f_equal. autorewrite with strlen. lia. }
  unfold xmlUnescape. pose proof (strlen_nonneg pre). pose proof (strlen_nonneg r). pose proof (strlen_nonneg tl).
  assert (E2 : str_at (pre ++ 38 :: e ++ r ++ 0 :: tl) (strlen pre + 2) = until_nul (drop 1 e ++ r ++ 0 :: tl)).
  { unfold str_at. rewrite rest_at_plus by lia. by each_escape Hin. }
  assert (E1 : cell (pre ++ 38 :: e ++ r ++ 0 :: tl) (strlen pre + 1) = Some (at0 e)).
  { rewrite cell_plus by lia. by each_escape Hin. }
  rewrite E1, E2, rest_at_app, (proj2 (Z.leb_gt _ _)).
  2: { autorewrite with strlen. each_escape Hin; autorewrite with strlen; lia. }
  destruct (escape_shape e c Hin) as (x & p & He & Hx & Hp & H4 & Hf).
  assert (E3 : drop 1 e ++ r ++ 0 :: tl = p ++ 59 :: r ++ 0 :: tl) by (rewrite He; change (drop 1 (x :: p ++ [59])) with (p ++ [59]); by rewrite <- app_assoc).
  assert (E4 : at0 e = x) by (by rewrite He).
  apply List.Forall_and_inv in Hp as [P0 Hp]. apply List.Forall_and_inv in Hp as [P38 P59].
  rewrite E3, E4, until_nul_app by done. cbn [until_nul Z.eqb].
  rewrite strchr_app by done. cbn [strchr Z.eqb Pos.eqb]. rewrite cut_app, amp_later by done.
  rewrite (proj2 (Z.leb_gt _ _)) by (unfold MAX_UNESC_CHAR_LEN; lia). cbn [mbind option_bind].
  rewrite (proj2 (Z.eqb_neq x 35)) by done. replace (2 + strlen p + 1) with (strlen p + 3) by lia.
  by rewrite Hf, Hput.
Qed.

(** An escaped text is read back in place; the cells it had too many are left behind it,
    with a NUL at both ends. *)
Lemma unescape_ok s fuel pre tl : Forall (fun c => c <> 0) s -> (length (escape_all s) <= fuel)%nat ->
  exists junk end_, unescape_loop fuel (pre ++ escape_all s ++ 0 :: tl) (strlen pre) (strlen pre + strlen (escape_all s)) =
    Some (pre ++ s ++ junk ++ 0 :: tl, end_) /\ strlen junk = strlen (escape_all s) - strlen s /\ at0 junk = 0.
Proof.
  intros Hs. revert fuel pre tl. induction Hs as [|c s Hc _ IH]; intros fuel pre tl Hf.
  { exists [], (strlen pre). destruct fuel; cbn [unescape_loop escape_all fmap concat app list_fmap]; rewrite strlen_nil, Z.add_0_r, Z.ltb_irrefl; by split_and!. }
  rewrite escape_all_cons in *. rewrite length_app in Hf. pose proof (strlen_nonneg (escape_all s)).
  destruct (escape_char_cases c) as [(e & E & Hin)|(E & Hn & _)]; rewrite E in *.
  - cbn [length] in Hf. destruct fuel as [|fuel]; [lia|]. cbn [unescape_loop]. rewrite (proj2 (Z.ltb_lt _ _)).
    2: { autorewrite with strlen. pose proof (strlen_nonneg e). lia. }
    cbn [app]. rewrite cell_app. cbn [mbind option_bind Z.eqb Pos.eqb].
    destruct (xmlUnescape_ok pre e c (escape_all s) tl Hin) as (junk & Hu & Hj).
    replace (strlen pre + strlen (38 :: e ++ escape_all s)) with (strlen pre + strlen (38 :: e) + strlen (escape_all s))
      by (autorewrite with strlen; lia).
    rewrite <- app_assoc, Hu. cbn [mbind option_bind].
    destruct (IH fuel (pre ++ [c]) (junk ++ 0 :: tl)) as (junk' & en & Hl & Hj' & H0); [lia|].
    exists (junk' ++ 0 :: junk), en. rewrite <- !app_assoc in Hl. cbn [app] in Hl.
    replace (strlen (pre ++ [c])) with (strlen pre + 1) in Hl by (autorewrite with strlen; lia).
    replace (strlen pre + strlen (38 :: e) + strlen (escape_all s) - strlen e) with (strlen pre + 1 + strlen (escape_all s))
      by (autorewrite with strlen; lia).
    rewrite Hl. split_and!.
    + do 2 f_equal. rewrite <- !app_assoc. done.
    + autorewrite with strlen in *. lia.
    + by destruct junk'.
  - cbn [length] in Hf. destruct fuel as [|fuel]; [lia|]. cbn [unescape_loop].
    rewrite (proj2 (Z.ltb_lt _ _)) by (autorewrite with strlen; lia).
    cbn [app]. rewrite cell_app. cbn [mbind option_bind]. rewrite (proj2 (Z.eqb_neq c 38)) by done.
    destruct (IH fuel (pre ++ [c]) tl) as (junk & en & Hl & Hj & H0); [lia|].
    exists junk, en. rewrite <- !app_assoc in Hl. cbn [app] in Hl.
    replace (strlen (pre ++ [c])) with (strlen pre + 1) in Hl by (autorewrite with strlen; lia).
    replace (strlen pre + strlen (c :: escape_all s)) with (strlen pre + 1 + strlen (escape_all s))
      by (autorewrite with strlen; lia).
    rewrite Hl. split_and!; [done| |done]. autorewrite with strlen in *. lia.
Qed.

(** A text that can be trimmed without a change. *)
Definition trimmed (s : bytes) : Prop :=
  s = [] \/ blank (at0 s) = false /\ exists l d, s = l ++ [d] /\ blank d = false.

Lemma escape_all_trimmed s : trimmed s -> trimmed (escape_all s).
Proof.
  intros [->|[Hb (l & d & Hl & Hd)]]; [by left|]. right. split.
  - destruct s as [|c s]; [by destruct l|]. rewrite escape_all_cons.
    apply escape_char_blank in Hb as [Hb _]. cbn in Hb |- *. by destruct (escape_char c) eqn:E; [destruct (escape_char_cases c) as [(? & ? & _)|(? & _)]; congruence|].
  - rewrite Hl. unfold escape_all. rewrite fmap_app, concat_app. cbn [fmap list_fmap concat]. rewrite app_nil_r.
    apply escape_char_blank in Hd as [_ (l' & d' & -> & Hd)]. exists (concat (escape_char <$> l) ++ l'), d'.
    split; [by rewrite app_assoc|done].
Qed.

Lemma trim_end_stop k pre d post : blank d = false ->
  trim_end (S k) (pre ++ d :: post) (strlen pre + 1) = Some (pre ++ d :: post, strlen pre + 1).
Proof.
  intros Hd. cbn [trim_end]. replace (strlen pre + 1 - 1) with (strlen pre) by lia. rewrite cell_app. cbn [mbind option_bind].
  by rewrite Hd.
Qed.

Lemma rd_ok p c xb : cell (base xb) p = Some c -> rd p xb = Ret c xb.
Proof. intros H. unfold rd. rewrite bind_get. by rewrite H. Qed.
Lemma wr_ok p c xb : in_buffer xb p = true -> wr p c xb = Ret () (set_base (<[Z.to_nat p := c]> (base xb)) xb).
Proof. intros H. unfold wr. rewrite bind_get. by rewrite H. Qed.

(** The text between two tags. *)
Lemma getContent_text trimws pre s post t n : Forall (fun c => c <> 0) s -> trimws = false \/ trimmed s ->
  exists junk, getContent trimws (place (pre ++ [62]) (escape_all s ++ 60 :: post) false t n) =
    Ret (At (strlen (pre ++ [62]))) (place ((pre ++ [62]) ++ s ++ junk) (0 :: post) false t 60) /\
    at0 junk = 0.
Proof.
  intros Hs Ht. pose proof (escape_all_plain s Hs) as Hp. apply List.Forall_and_inv in Hp as [Hp0 Hp60].
  set (e := escape_all s) in *. set (pr := pre ++ [62]) in *.
  unfold getContent. rewrite bind_get. cbn [eTagFound place cur base].
  assert (Hn : e ++ 60 :: post <> []) by (by destruct e).
  rewrite (in_place0 pr (e ++ 60 :: post) false t n Hn). cbn [negb].
  assert (E : strspn (take (Z.to_nat (last (place pr (e ++ 60 :: post) false t n) - strlen pr))
    (rest_at (pr ++ e ++ 60 :: post) (strlen pr))) (fun c => negb (c =? 60)) = length e).
  { rewrite rest_at_app. unfold last. cbn [base place]. rewrite !strlen_app, strlen_cons.
    replace (Z.to_nat _) with (length e + length post)%nat by (unfold strlen; lia). rewrite take_app_add.
    assert (Hall : Forall (fun c => negb (c =? 60) = true) e).
    { eapply Forall_impl; [exact Hp60|]. cbn. intros c Hc. by rewrite (proj2 (Z.eqb_neq c 60)). }
    destruct post as [|d post]; cbn [take].
    - rewrite app_nil_r, <- (app_nil_r e) at 1. rewrite strspn_through by done. cbn. lia.
    - by apply strspn_stop. }
  rewrite E. fold (strlen e). rewrite <- strlen_app. clear E.
  assert (Er : rd (strlen (pr ++ e)) (place pr (e ++ 60 :: post) false t n) = Ret 60 (place pr (e ++ 60 :: post) false t n)).
  { apply rd_ok. cbn [base place]. rewrite app_assoc. apply cell_app. }
  rewrite (bind_ret _ _ _ _ _ Er), !bind_modify. unfold set_cur, set_nulled. cbn [base cur eTagFound etag nulledChar place].
  set (xb := {| base := pr ++ e ++ 60 :: post; cur := strlen (pr ++ e); eTagFound := false; etag := t; nulledChar := 60 |}).
  assert (Ew : wr (strlen (pr ++ e)) 0 xb = Ret () (set_base (pr ++ e ++ 0 :: post) xb)).
  { rewrite wr_ok.
    - cbn [base xb]. by rewrite app_assoc, insert_strlen, <- app_assoc.
    - unfold in_buffer, last. cbn [base xb]. autorewrite with strlen. pose proof (strlen_nonneg pr).
      pose proof (strlen_nonneg e). pose proof (strlen_nonneg post). apply andb_true_intro. split; apply Z.leb_le; lia. }
  rewrite (bind_ret _ _ _ _ _ Ew), bind_get. cbn [base set_base xb].
  assert (Es : (if trimws then strlen pr + Z.of_nat (strspn (str_at (pr ++ e ++ 0 :: post) (strlen pr)) blank) else strlen pr) = strlen pr).
  { destruct trimws; [|done]. unfold str_at. rewrite rest_at_app, until_nul_end by done.
    destruct Ht as [|Ht]; [done|]. apply escape_all_trimmed in Ht. fold e in Ht. destruct Ht as [->|[Hb _]]; [cbn; lia|].
    destruct e as [|d e']; [cbn; lia|]. cbn in Hb |- *. rewrite Hb. lia. }
  rewrite Es.
  assert (Et : (if trimws then trim_end (S (Z.to_nat (strlen (pr ++ e)))) (pr ++ e ++ 0 :: post) (strlen (pr ++ e))
    else Some (pr ++ e ++ 0 :: post, strlen (pr ++ e))) = Some (pr ++ e ++ 0 :: post, strlen (pr ++ e))).
  { destruct trimws; [|done]. destruct Ht as [|Ht]; [done|]. apply escape_all_trimmed in Ht. fold e in Ht.
    assert (Hd : exists l d, pr ++ e = l ++ [d] /\ blank d = false).
    { destruct Ht as [->|[_ (l & d & -> & Hd)]].
      - exists pre, 62. by rewrite app_nil_r.
      - exists (pr ++ l), d. by rewrite app_assoc. }
    destruct Hd as (l & d & El & Hd). rewrite app_assoc, El, strlen_app, <- app_assoc. cbn [app].
    change (strlen [d]) with 1. by apply trim_end_stop. }
  rewrite Et, strlen_app.
  replace (strlen pr + strlen e - strlen pr) with (strlen e) by lia.
  destruct (unescape_ok s (Z.to_nat (strlen e)) pr post Hs) as (junk & en & Hu & Hj & H0).
  { unfold strlen. fold e. lia. }
  fold e in Hu, Hj. rewrite Hu. exists junk. split; [|done]. rewrite bind_modify. unfold set_base, place, xb. cbn.
  do 2 f_equal; [by rewrite <- !app_assoc|]. autorewrite with strlen. lia.
Qed.

(** ** Attributes *)

Lemma getWord_same pre b name c post f t n : Forall (fun d => d <> 0) name -> isalnum c = false ->
  strcasecmp name b = 0 ->
  getWord b false (place pre (name ++ c :: post) f t n) = Ret true (place (pre ++ name) (c :: post) f t n).
Proof.
  intros Hn Hc Hb. apply strcmp_eq in Hb. assert (L : length b = length name) by (by rewrite <- (length_fmap tolower b), <- Hb, length_fmap).
  unfold getWord. rewrite bind_get. cbn [cur place].
  assert (Hne : name ++ c :: post <> []) by (by destruct name).
  rewrite (bind_ret _ _ _ _ _ (rd_str_place0 _ _ _ _ _ Hne)), until_nul_app by done. cbn [negb].
  assert (Es : strncasecmp (name ++ until_nul (c :: post)) b (strlen b) = 0).
  { apply strcmp_eq. unfold strlen. rewrite Nat2Z.id, firstn_all, L, take_app_length. done. }
  rewrite Es. cbn [Z.eqb]. rewrite L, drop_app_length.
  assert (E : isalnum (at0 (until_nul (c :: post))) = false).
  { cbn. by destruct (Z.eqb_spec c 0) as [->|_]. }
  rewrite E, bind_modify. unfold strlen. rewrite <- place_move. unfold strlen. by rewrite L.
Qed.

Lemma tolower_alnum c : isalnum c = true -> tolower c <> 61.
Proof. unfold isalnum, isdigit, isalpha, tolower. case_zbool; cbn; lia. Qed.

Lemma getWord_other pre b name post f t n : Forall (fun d => isalnum d = true) name -> Forall (fun d => isalnum d = true) b ->
  strcasecmp name b <> 0 ->
  getWord b false (place pre (name ++ 61 :: post) f t n) = Ret false (place pre (name ++ 61 :: post) f t n).
Proof.
  intros Hn Hb Hne. unfold getWord. rewrite bind_get. cbn [cur place].
  assert (Hz : Forall (fun d => d <> 0) name) by (eapply Forall_impl; [exact Hn|]; by intros d Hd ->).
  assert (Hnil : name ++ 61 :: post <> []) by (by destruct name).
  rewrite (bind_ret _ _ _ _ _ (rd_str_place0 _ _ _ _ _ Hnil)), until_nul_app by done. cbn [until_nul Z.eqb].
  destruct (Z.eqb_spec (strncasecmp (name ++ 61 :: until_nul post) b (strlen b)) 0) as [E|]; [|done].
  apply strcmp_eq in E. unfold strlen in E. rewrite Nat2Z.id, firstn_all in E.
  destruct (decide (length b = length name)) as [L|L].
  { exfalso. apply Hne. apply strcmp_eq. rewrite L, take_app_length in E. done. }
  destruct (decide (length b < length name)%nat) as [L2|L2].
  - rewrite drop_app_le by lia. destruct (drop (length b) name) as [|d l] eqn:D.
    { apply (f_equal length) in D. rewrite length_drop in D. cbn in D. lia. }
    cbn [app at0]. assert (Hd : isalnum d = true); [|by rewrite Hd].
    apply (proj1 (Forall_forall _ _) (Forall_drop _ (length b) _ Hn)). rewrite D. by left.
  - exfalso. apply (f_equal (fun l => l !! length name)) in E. rewrite !list_lookup_fmap, lookup_take_lt in E by lia.
    rewrite (list_lookup_middle name _ 61 _ eq_refl) in E. cbn in E.
    destruct (b !! length name) as [d|] eqn:D; [|done]. injection E as E.
    apply (tolower_alnum d); [|by rewrite <- E]. apply (proj1 (Forall_forall _ _) Hb). by eapply list_elem_of_lookup_2.
Qed.

(** An attribute as it is written, and what is left of it. *)
Definition attr_text (a : bytes * bytes) : bytes := 32 :: fst a ++ 61 :: 34 :: snd a ++ [34].
Definition attr_cells (a : bytes * bytes) : bytes := 32 :: fst a ++ 61 :: 34 :: snd a ++ [0].
Definition attrs_text (l : list (bytes * bytes)) : bytes := concat (attr_text <$> l).
Definition attrs_cells (l : list (bytes * bytes)) : bytes := concat (attr_cells <$> l).

(** The value of an attribute at [p] given to the first one with its name. *)
Fixpoint set_named (st : list attribute) (name : bytes) (p : Z) : option (list attribute) :=
  match st with
  | [] => None
  | (b, seen, v) :: st =>
      if negb seen && (strcasecmp name b =? 0) then Some ((b, true, At p) :: st)
      else st ← set_named st name p; Some ((b, seen, v) :: st)
  end.
Fixpoint fill (st : list attribute) (p : Z) (l : list (bytes * bytes)) : option (list attribute) :=
  match l with
  | [] => Some st
  | a :: l => st ← set_named st (fst a) (p + strlen (fst a) + 3); fill st (p + strlen (attr_text a)) l
  end.

Definition word (s : bytes) : Prop := isalpha (at0 s) = true /\ Forall (fun d => isalnum d = true) s.

Lemma isalnum_blank c : isalnum c = true -> blank c = false.
Proof.
  intros H. assert (48 <= c <= 122) by (revert H; unfold isalnum, isdigit, isalpha; case_zbool; cbn; lia).
  unfold blank, schar. rewrite (proj2 (Z.ltb_lt c 128)) by lia. apply Z.leb_gt. lia.
Qed.
Lemma isalpha_alnum c : isalpha c = true -> isalnum c = true.
Proof. unfold isalnum. intros ->. apply orb_true_r. Qed.

Lemma find_cell_app (s post : bytes) c : Forall (fun d => d <> c) s -> find_cell (s ++ c :: post) c = Some (length s).
Proof.
  induction 1 as [|d s Hd _ IH]; cbn; [by rewrite Z.eqb_refl|]. rewrite (proj2 (Z.eqb_neq d c)) by done. by rewrite IH.
Qed.

Lemma getValue_place pre v post f t n : Forall (fun d => d <> 34) v ->
  getValue (place pre (34 :: v ++ 34 :: post) f t n) =
  Ret (At (strlen pre + 1)) (place (pre ++ 34 :: v ++ [0]) post f t n).
Proof.
  intros Hv. unfold getValue.
  rewrite (bind_ret _ _ _ _ _ (skipWS_place0 pre 34 _ f t n eq_refl)), (bind_ret _ _ _ _ _ (getChar_yes pre 34 _ f t n)).
  cbn [Z.eqb]. rewrite bind_mret. cbn [Z.eqb]. rewrite bind_get. cbn [cur base place]. rewrite rest_at_app.
  rewrite find_cell_app by done. fold (strlen v).
  assert (Hi : in_buffer (place (pre ++ [34]) (v ++ 34 :: post) f t n) (strlen (pre ++ [34]) + strlen v) = true).
  { apply in_place. autorewrite with strlen. pose proof (strlen_nonneg v). pose proof (strlen_nonneg post). lia. }
  rewrite (bind_ret _ _ _ _ _ (wr_ok _ 0 _ Hi)), bind_modify. cbn [base place]. rewrite <- strlen_app.
  rewrite (app_assoc (pre ++ [34]) v), insert_strlen. unfold mret, M_ret. f_equal; [f_equal; autorewrite with strlen; lia|].
  unfold set_cur, set_base, place. cbn. f_equal; [by app_norm|autorewrite with strlen; lia].
Qed.

Lemma set_attr_place st st' pre name v post f t n :
  word name -> Forall (fun a => Forall (fun d => isalnum d = true) (fst (fst a))) st -> Forall (fun d => d <> 34) v ->
  set_named st name (strlen pre + strlen name + 2) = Some st' ->
  set_attr st (place pre (name ++ 61 :: 34 :: v ++ 34 :: post) f t n) =
  Ret (Some st') (place (pre ++ name ++ 61 :: 34 :: v ++ [0]) post f t n).
Proof.
  intros [Ha Hn] Hst Hv. revert st'. induction Hst as [|[[b seen] w] st Hb _ IH]; intros st' Hs; [done|].
  cbn [fst] in Hb. cbn [set_named] in Hs. cbn [set_attr].
  assert (Hz : Forall (fun d => d <> 0) name) by (eapply Forall_impl; [exact Hn|]; by intros d Hd ->).
  assert (Hrec : seen = true \/ strcasecmp name b <> 0 ->
    (r ← set_attr st; mret ((fun rest => (b, seen, w) :: rest) <$> r)) (place pre (name ++ 61 :: 34 :: v ++ 34 :: post) f t n) =
    Ret (Some st') (place (pre ++ name ++ 61 :: 34 :: v ++ [0]) post f t n)).
  { intros Hor. destruct (set_named st name (strlen pre + strlen name + 2)) as [st1|] eqn:E.
    - rewrite (bind_ret _ _ _ _ _ (IH _ eq_refl)). 
      assert (Some st' = Some ((b, seen, w) :: st1)) as [= ->]; [|done].
      rewrite <- Hs. destruct Hor as [->|Hor]; [done|]. by rewrite (proj2 (Z.eqb_neq _ _) Hor), andb_false_r.
    - destruct Hor as [->|Hor]; [done|]. by rewrite (proj2 (Z.eqb_neq _ _) Hor), andb_false_r in Hs. }
  destruct seen.
  { rewrite bind_mret. apply Hrec. by left. }
  cbn [negb andb] in Hs. destruct (Z.eqb_spec (strcasecmp name b) 0) as [E|E].
  - injection Hs as <-. rewrite (bind_ret _ _ _ _ _ (getWord_same pre b name 61 (34 :: v ++ 34 :: post) f t n Hz eq_refl E)).
    rewrite bind_get. cbn [cur place]. rewrite (bind_ret _ _ _ _ _ (rd_place _ _ _ _ _ _)).
    change (isalnum 61) with false. cbv iota.
    rewrite (bind_ret _ _ _ _ _ (skipWS_place0 (pre ++ name) 61 (34 :: v ++ 34 :: post) f t n eq_refl)).
    rewrite (bind_ret _ _ _ _ _ (getChar_yes (pre ++ name) 61 (34 :: v ++ 34 :: post) f t n)). cbn [Z.eqb].
    rewrite (bind_ret _ _ _ _ _ (getValue_place ((pre ++ name) ++ [61]) v post f t n Hv)).
    unfold mret, M_ret. f_equal.
    + do 3 f_equal. f_equal. autorewrite with strlen. lia.
    + f_equal. by app_norm.
  - rewrite (bind_ret _ _ _ _ _ (getWord_other pre b name _ f t n Hn Hb E)). apply Hrec. by right.
Qed.

Definition alnum_names (st : list attribute) : Prop := Forall (fun a => Forall (fun d => isalnum d = true) (fst (fst a))) st.
(** Names are words, values have no quotes and no NULs. *)
Definition attrs_ok (l : list (bytes * bytes)) : Prop :=
  Forall (fun a => word (fst a) /\ Forall (fun d => d <> 34 /\ d <> 0) (snd a)) l.

Lemma set_named_names st st' name p : set_named st name p = Some st' -> alnum_names st -> alnum_names st'.
Proof.
  revert st'. induction st as [|[[b seen] v] st IH]; intros st' Hs H; [done|]. inversion H as [|? ? Hb Hst]; subst.
  cbn [set_named] in Hs. destruct (negb seen && (strcasecmp name b =? 0)).
  - injection Hs as <-. by constructor.
  - destruct (set_named st name p) as [st1|]; [|done]. injection Hs as <-. constructor; [done|]. by apply IH.
Qed.

Lemma attr_cells_length a : strlen (attr_cells a) = strlen (attr_text a).
Proof. unfold attr_cells, attr_text. autorewrite with strlen. lia. Qed.

Lemma attr_loop_ok l : forall fuel st st' pre c post f t n,
  (length l <= fuel)%nat -> attrs_ok l -> alnum_names st -> fill st (strlen pre) l = Some st' ->
  isalpha c = false -> blank c = false ->
  attr_loop fuel st (place pre (attrs_text l ++ c :: post) f t n) = Ret st' (place (pre ++ attrs_cells l) (c :: post) f t n).
Proof.
  induction l as [|[name v] l IH]; intros fuel st st' pre c post f t n Hf Hl Hst Hfill Ha Hc.
  - injection Hfill as <-. unfold attrs_text, attrs_cells. cbn [fmap list_fmap concat app]. rewrite app_nil_r.
    destruct fuel; cbn [attr_loop]; rewrite (bind_ret _ _ _ _ _ (skipWS_place0 pre c post f t n Hc)), bind_get; cbn [cur place];
      rewrite (bind_ret _ _ _ _ _ (rd_place _ _ _ _ _ _)), Ha; done.
  - inversion Hl as [|? ? [Hw Hv] Hl']; subst. cbn [fst snd] in *. cbn [fill fst] in Hfill.
    destruct (set_named st name (strlen pre + strlen name + 3)) as [st1|] eqn:E1; [|done]. cbn [mbind option_bind] in Hfill.
    destruct fuel as [|fuel]; [cbn in Hf; lia|]. cbn [attr_loop].
    destruct Hw as [Ha1 Hn1]. destruct name as [|d name]; [done|]. cbn [at0] in Ha1.
    assert (T : attrs_text ((d :: name, v) :: l) ++ c :: post = [32] ++ d :: name ++ 61 :: 34 :: v ++ 34 :: attrs_text l ++ c :: post).
    { unfold attrs_text. cbn [fmap list_fmap concat]. unfold attr_text at 1. cbn [fst snd]. by app_norm. }
    rewrite T. clear T.
    assert (Hd : blank d = false) by (by apply isalnum_blank, isalpha_alnum).
    rewrite (bind_ret _ _ _ _ _ (skipWS_place pre [32] d _ f t n ltac:(by repeat constructor) Hd)), bind_get. cbn [cur place].
    rewrite (bind_ret _ _ _ _ _ (rd_place _ _ _ _ _ _)), Ha1.
    pose proof (set_attr_place st st1 (pre ++ [32]) (d :: name) v (attrs_text l ++ c :: post) f t n (conj Ha1 Hn1) Hst
      (Forall_impl _ _ _ Hv (fun x H => proj1 H))) as Hs.
    rewrite <- app_comm_cons in Hs.
    rewrite (bind_ret _ _ _ _ _ (Hs ltac:(rewrite <- E1; f_equal; autorewrite with strlen; lia))).
    rewrite (IH fuel st1 st').
    + f_equal. f_equal. unfold attrs_cells. cbn [fmap list_fmap concat]. unfold attr_cells at 2. cbn [fst snd]. by app_norm.
    + cbn in Hf. lia.
    + done.
    + by eapply set_named_names.
    + rewrite <- Hfill. f_equal. unfold attr_text. cbn [fst snd]. autorewrite with strlen. lia.
    + done.
    + done.
Qed.

Lemma attrs_text_length l : (length l <= length (attrs_text l))%nat.
Proof.
  induction l as [|a l IH]; [done|]. change (attrs_text (a :: l)) with (attr_text a ++ attrs_text l).
  rewrite length_app. unfold attr_text. cbn [length]. lia.
Qed.

Definition unseen (elm : list bytes) : list attribute := (fun a => (a, false, Null)) <$> elm.

Lemma attrsOk_ok elm tag z l st pre post f t n e :
  (length elm <= 32)%nat -> Forall (fun a => Forall (fun d => isalnum d = true) a) elm -> attrs_ok l ->
  fill (unseen elm) (strlen pre) l = Some st ->
  attrsOk elm tag z (place pre (attrs_text l ++ (if e : bool then [47; 62] else [62]) ++ post) f t n) =
  Ret (snd <$> st) (place (pre ++ attrs_cells l ++ (if e then [47; 62] else [62])) post e (if e then Some z else t) n).
Proof.
  intros Hlen Helm Hl Hfill. unfold attrsOk. rewrite (proj2 (Z.ltb_ge _ _)) by (unfold MAXATTR; lia).
  rewrite bind_get, bind_modify. cbn [etag base place].
  assert (Hal : alnum_names (unseen elm)) by (unfold alnum_names, unseen; by rewrite Forall_fmap).
  assert (Hend : exists c post', (if e then [47; 62] else [62]) ++ post = c :: post' /\ isalpha c = false /\ blank c = false).
  { destruct e; eexists _, _; by split_and!. }
  destruct Hend as (c & post' & Hend & Ha & Hc). rewrite Hend.
  assert (Hfuel : (length l <= length (pre ++ attrs_text l ++ c :: post'))%nat).
  { rewrite !length_app. pose proof (attrs_text_length l). lia. }
  change (set_tag false t (place pre (attrs_text l ++ c :: post') f t n)) with (place pre (attrs_text l ++ c :: post') false t n).
  rewrite (bind_ret _ _ _ _ _ (attr_loop_ok l _ _ st pre c post' false t n Hfuel Hl Hal Hfill Ha Hc)), <- Hend.
  destruct e.
  - rewrite (bind_ret _ _ _ _ _ (getChars_yes (pre ++ attrs_cells l) (cstr "/>") post false t n ltac:(by repeat constructor) ltac:(done))).
    rewrite bind_modify. unfold mret, M_ret, set_tag, place. cbn. f_equal. f_equal; by app_norm.
  - assert (Hn : strncmp (until_nul ([62] ++ post)) (cstr "/>") (strlen (cstr "/>")) <> 0) by done.
    rewrite (bind_ret _ _ _ _ _ (getChars_no _ (cstr "/>") ([62] ++ post) false t n ltac:(done) Hn)).
    rewrite (bind_ret _ _ _ _ _ (getChar_yes (pre ++ attrs_cells l) 62 post false t n)). cbn [Z.eqb negb].
    unfold mret, M_ret. f_equal. f_equal. by app_norm.
Qed.
