(* ===== verification/XmlTokens.v ===== *)
(** * The tokens of a CIM-XML request (cimXmlParser.c)

    One function per element ([procCim] .. [procParamRefArray]), the table of the
    elements and [yylex], which finds the next tag and calls the function of its
    element.  The semantic value of a token holds pointers into the copy of the
    request; it is read by the grammar (cimXmlOps.y), which is not modelled. *)

From S2P Require Import Prelude CString CmpiData XmlScanner.

(** [(CMPIType) -1], a type, or a type with the bit [CMPI_ARRAY]. *)
Inductive xtype := InvalidType | Plain (t : CMPIType) | ArrayOf (t : CMPIType).
Definition or_array (t : xtype) : xtype := match t with Plain t => ArrayOf t | t => t end.

Record XtokQualifierDeclaration := {
  qd_name : ptr; qd_type : xtype; qd_arraySize : Z; qd_isarray : bool; qd_isarrayIsSet : bool;
  qd_overridable : bool; qd_tosubclass : bool; qd_toinstance : bool; qd_translatable : bool
}.
Record XtokQualifier := {
  xq_name : ptr; xq_type : xtype; xq_propagated : bool; xq_overridable : bool; xq_tosubclass : bool;
  xq_toinstance : bool; xq_translatable : bool
}.
Record XtokScope := {
  s_class : bool; s_association : bool; s_reference : bool; s_property : bool; s_method : bool;
  s_parameter : bool; s_indication : bool
}.
Record XtokProperty := {
  xp_name : ptr; xp_classOrigin : ptr; xp_propagated : bool; xp_referenceClass : ptr; xp_valueType : xtype
}.
Record XtokParam := {
  xa_pType : token; xa_name : ptr; xa_refClass : ptr; xa_arraySize : Z; xa_type : xtype
}.
Record XtokMethod := { xm_name : ptr; xm_classOrigin : ptr; xm_propagated : bool; xm_type : xtype }.

(** The member of the union [YYSTYPE] that a function fills. *)
Inductive YYSTYPE :=
| noValue
| xtokMessage (id : ptr)
| xtokMethodCall (method : ptr)
| xtokNameSpace (ns : ptr)
| xtokParamValue (name : ptr) (type : xtype)
| xtokClassName (name : ptr)
| xtokInstanceName (className : ptr)
| xtokInstance (className : ptr)
| xtokClass (className superClass : ptr)
| xtokKeyValue (valueType value : ptr)
| xtokHost (host : ptr)
| xtokValue (value : ptr)
| xtokQualifierDeclaration (q : XtokQualifierDeclaration)
| xtokQualifier (q : XtokQualifier)
| xtokScope (s : XtokScope)
| xtokProperty (p : XtokProperty)
| xtokMethod (m : XtokMethod)
| xtokParam (p : XtokParam).

(** The parts of [ParserControl] the scanner uses. *)
Record ParserControl := { xmb : XmlBuffer; r_id : ptr; r_iMethod : ptr; r_methodCall : bool }.
Definition set_xmb (xb : XmlBuffer) (p : ParserControl) : ParserControl :=
  {| xmb := xb; r_id := r_id p; r_iMethod := r_iMethod p; r_methodCall := r_methodCall p |}.
Definition set_id (i : ptr) (p : ParserControl) : ParserControl :=
  {| xmb := xmb p; r_id := i; r_iMethod := r_iMethod p; r_methodCall := r_methodCall p |}.
Definition set_iMethod (i : ptr) (p : ParserControl) : ParserControl :=
  {| xmb := xmb p; r_id := r_id p; r_iMethod := i; r_methodCall := r_methodCall p |}.
Definition set_methodCall (c : bool) (p : ParserControl) : ParserControl :=
  {| xmb := xmb p; r_id := r_id p; r_iMethod := r_iMethod p; r_methodCall := c |}.

Abbreviation parse := (M ParserControl).
Definition on_xmb {A} (m : scan A) : parse A := fun p =>
  match m (xmb p) with
  | Ret a xb => Ret a (set_xmb xb p)
  | Exit => Exit
  | Undefined => Undefined
  end.

(** A token and its value; the token [None] is the end of the input. *)
Definition lexed : Type := option token * YYSTYPE.

(** What a function does with the values of the attributes, when the tag is its own. *)
Definition element (tag : string) (elm : list string) (t : token) (k : list ptr -> parse lexed) : parse lexed :=
  e ← on_xmb (tagEquals (cstr tag));
  if e : bool then attr ← on_xmb (attrsOk (cstr <$> elm) (cstr tag) t); k attr
  else mret (None, noValue).

Definition attr (r : list ptr) (n : nat) : ptr := nth n r Null.

(** The string of a pointer; a null pointer must not be followed. *)
Definition chars (p : ptr) : parse bytes :=
  match p with At p => on_xmb (rd_str p) | _ => undefined end.

(** [attr && !strcasecmp(attr, "true")] with a default. *)
Definition truth (default : bool) (p : ptr) : parse bool :=
  match p with
  | Null => mret default
  | p => s ← chars p; mret (strcasecmp s (cstr "true") =? 0)
  end.

Definition types : list (bytes * CMPIType) :=
  [(cstr "boolean", CMPI_boolean); (cstr "string", CMPI_string); (cstr "char16", CMPI_char16);
   (cstr "uint8", CMPI_uint8); (cstr "sint8", CMPI_sint8); (cstr "uint16", CMPI_uint16); (cstr "sint16", CMPI_sint16);
   (cstr "uint32", CMPI_uint32); (cstr "sint32", CMPI_sint32); (cstr "uint64", CMPI_uint64); (cstr "sint64", CMPI_sint64);
   (cstr "datetime", CMPI_dateTime); (cstr "real32", CMPI_real32); (cstr "real64", CMPI_real64)].

Fixpoint find_type (l : list (bytes * CMPIType)) (s : bytes) : option CMPIType :=
  match l with
  | [] => None
  | (n, t) :: l => if strcasecmp s n =? 0 then Some t else find_type l s
  end.

(** The type an attribute names; [default] when it is missing or unknown. *)
Definition type_attr (default : xtype) (p : ptr) : parse xtype :=
  match p with
  | Null => mret default
  | p => s ← chars p; mret (match find_type types s with Some t => Plain t | None => default end)
  end.

(** ** Requests *)

Definition procCim : parse lexed :=
  element "CIM" ["CIMVERSION"; "DTDVERSION"]%string ZTOK_CIM (fun _ => mret (Some XTOK_CIM, noValue)).

Definition procMessage : parse lexed :=
  element "MESSAGE" ["ID"; "PROTOCOLVERSION"]%string ZTOK_MESSAGE (fun r =>
    modify (set_id (attr r 0));; mret (Some XTOK_MESSAGE, xtokMessage (attr r 0))).

Definition procSimplereq : parse lexed :=
  element "SIMPLEREQ" [] ZTOK_SIMPLEREQ (fun _ => mret (Some XTOK_SIMPLEREQ, noValue)).

Definition procMethodCall : parse lexed :=
  modify (set_methodCall true);;
  element "METHODCALL" ["NAME"]%string ZTOK_METHODCALL (fun r =>
    modify (set_iMethod (attr r 0));; mret (Some XTOK_METHODCALL, xtokMethodCall (attr r 0))).

Definition imethods : list (bytes * token) :=
  [(cstr "getInstance", XTOK_GETINSTANCE); (cstr "getClass", XTOK_GETCLASS);
   (cstr "enumerateClassNames", XTOK_ENUMCLASSNAMES); (cstr "enumerateClasses", XTOK_ENUMCLASSES);
   (cstr "enumerateInstanceNames", XTOK_ENUMINSTANCENAMES); (cstr "enumerateInstances", XTOK_ENUMINSTANCES);
   (cstr "deleteInstance", XTOK_DELETEINSTANCE); (cstr "createInstance", XTOK_CREATEINSTANCE);
   (cstr "modifyInstance", XTOK_MODIFYINSTANCE); (cstr "associatorNames", XTOK_ASSOCIATORNAMES);
   (cstr "associators", XTOK_ASSOCIATORS); (cstr "referenceNames", XTOK_REFERENCENAMES);
   (cstr "references", XTOK_REFERENCES); (cstr "execQuery", XTOK_EXECQUERY); (cstr "createClass", XTOK_CREATECLASS);
   (cstr "deleteClass", XTOK_DELETECLASS); (cstr "getProperty", XTOK_GETPROPERTY); (cstr "setProperty", XTOK_SETPROPERTY);
   (cstr "getQualifier", XTOK_GETQUALIFIER); (cstr "setQualifier", XTOK_SETQUALIFIER);
   (cstr "deleteQualifier", XTOK_DELETEQUALIFIER); (cstr "enumerateQualifiers", XTOK_ENUMQUALIFIERS)].

Fixpoint find_name (l : list (bytes * token)) (s : bytes) : option token :=
  match l with
  | [] => None
  | (n, t) :: l => if strcasecmp s n =? 0 then Some t else find_name l s
  end.

(** The name must be there.  The second test for [deleteClass], which leaves the parser by
    [longjmp], is never reached. *)
Definition procImethodCall : parse lexed :=
  modify (set_methodCall false);;
  element "IMETHODCALL" ["NAME"]%string ZTOK_IMETHODCALL (fun r =>
    modify (set_iMethod (attr r 0));;
    s ← chars (attr r 0);
    mret (find_name imethods s, noValue)).

Definition procLocalNameSpacePath : parse lexed :=
  element "LOCALNAMESPACEPATH" [] ZTOK_LOCALNAMESPACEPATH (fun _ => mret (Some XTOK_LOCALNAMESPACEPATH, noValue)).
Definition procLocalClassPath : parse lexed :=
  element "LOCALCLASSPATH" [] ZTOK_LOCALCLASSPATH (fun _ => mret (Some XTOK_LOCALCLASSPATH, noValue)).
Definition procLocalInstancePath : parse lexed :=
  element "LOCALINSTANCEPATH" [] ZTOK_LOCALINSTANCEPATH (fun _ => mret (Some XTOK_LOCALINSTANCEPATH, noValue)).
Definition procNameSpace : parse lexed :=
  element "NAMESPACE" ["NAME"]%string ZTOK_NAMESPACE (fun r => mret (Some XTOK_NAMESPACE, xtokNameSpace (attr r 0))).

(** The text of an embedded object unescaped in place, padded with blanks to its old
    length; [fuel] is its length. *)
Fixpoint unescape_pad (fuel : nat) (b : bytes) (help end_ : Z) : option bytes :=
  if help <? end_ then
    match fuel with
    | O => None
    | S fuel =>
        c ← cell b help;
        if c =? 38 then
          '(k, b) ← xmlUnescape b help end_;
          let end_ := end_ - k in
          unescape_pad fuel (take (Z.to_nat end_) b ++ replicate (Z.to_nat k) 32 ++ drop (Z.to_nat (end_ + k)) b)
            (help + 1) end_
        else unescape_pad fuel b (help + 1) end_
    end
  else Some b.

Definition unescape_embedded : scan unit :=
  xb ← get;
  s ← rd_str (cur xb);
  match strstr s (cstr "</PARAMVALUE") with
  | None => mret ()
  | Some e =>
      match unescape_pad (length s) (base xb) (cur xb) (cur xb + strlen (cut s e)) with
      | Some b => modify (set_base b)
      | None => undefined
      end
  end.

Definition is_embedded (p : ptr) : parse bool :=
  s ← chars p; mret ((strcasecmp s (cstr "instance") =? 0) || (strcasecmp s (cstr "object") =? 0)).

Definition procParamValue : parse lexed :=
  element "PARAMVALUE" ["NAME"; "PARAMTYPE"; "EmbeddedObject"]%string ZTOK_PARAMVALUE (fun r =>
    type ← match attr r 1 with
           | Null => mret (Plain CMPI_null)
           | p =>
               t ← type_attr (Plain CMPI_null) p;
               match t with
               | Plain CMPI_null =>
                   s ← chars p; mret (if strcasecmp s (cstr "reference") =? 0 then Plain CMPI_ref else t)
               | _ => mret t
               end
           end;
    match attr r 2 with
    | Null => mret (Some XTOK_PARAMVALUE, xtokParamValue (attr r 0) type)
    | p =>
        e ← is_embedded p;
        if e : bool then
          on_xmb unescape_embedded;; mret (Some XTOK_PARAMVALUE, xtokParamValue (attr r 0) (Plain CMPI_instance))
        else Throw
    end).

Definition iParms : list (bytes * token) :=
  [(cstr "classname", XTOK_IP_CLASSNAME); (cstr "newinstance", XTOK_IP_INSTANCE);
   (cstr "modifiedinstance", XTOK_IP_MODIFIEDINSTANCE); (cstr "instancename", XTOK_IP_INSTANCENAME);
   (cstr "objectname", XTOK_IP_OBJECTNAME); (cstr "localonly", XTOK_IP_LOCALONLY);
   (cstr "IncludeQualifiers", XTOK_IP_INCLUDEQUALIFIERS); (cstr "IncludeClassOrigin", XTOK_IP_INCLUDECLASSORIGIN);
   (cstr "deepInheritance", XTOK_IP_DEEPINHERITANCE); (cstr "assocclass", XTOK_IP_ASSOCCLASS);
   (cstr "resultclass", XTOK_IP_RESULTCLASS); (cstr "role", XTOK_IP_ROLE); (cstr "resultrole", XTOK_IP_RESULTROLE);
   (cstr "propertylist", XTOK_IP_PROPERTYLIST); (cstr "querylanguage", XTOK_IP_QUERYLANG); (cstr "query", XTOK_IP_QUERY);
   (cstr "newclass", XTOK_IP_CLASS); (cstr "qualifierdeclaration", XTOK_IP_QUALIFIERDECLARATION);
   (cstr "qualifiername", XTOK_IP_QUALIFIERNAME); (cstr "propertyname", XTOK_IP_PROPERTYNAME);
   (cstr "newValue", XTOK_IP_NEWVALUE)].

Definition procIParamValue : parse lexed :=
  element "IPARAMVALUE" ["NAME"]%string ZTOK_IPARAMVALUE (fun r =>
    s ← chars (attr r 0); mret (find_name iParms s, noValue)).

(** ** Classes and instances *)

Definition procClassName : parse lexed :=
  element "CLASSNAME" ["NAME"]%string ZTOK_CLASSNAME (fun r => mret (Some XTOK_CLASSNAME, xtokClassName (attr r 0))).
Definition procInstanceName : parse lexed :=
  element "INSTANCENAME" ["CLASSNAME"]%string ZTOK_INSTANCENAME (fun r =>
    mret (Some XTOK_INSTANCENAME, xtokInstanceName (attr r 0))).
Definition procKeyBinding : parse lexed :=
  element "KEYBINDING" ["NAME"]%string ZTOK_KEYBINDING (fun r =>
    mret (Some XTOK_KEYBINDING, xtokInstanceName (attr r 0))).
Definition procInstance : parse lexed :=
  element "INSTANCE" ["CLASSNAME"]%string ZTOK_INSTANCE (fun r => mret (Some XTOK_INSTANCE, xtokInstance (attr r 0))).
Definition procClass : parse lexed :=
  element "CLASS" ["NAME"; "SUPERCLASS"]%string ZTOK_CLASS (fun r =>
    mret (Some XTOK_CLASS, xtokClass (attr r 0) (attr r 1))).

Definition procXml : parse lexed :=
  element "?xml" ["version"; "encoding"; "standalone"]%string ZTOK_XML (fun _ => mret (Some XTOK_XML, noValue)).

(** ** Values *)

Definition procValueArray : parse lexed :=
  element "VALUE.ARRAY" [] ZTOK_VALUEARRAY (fun _ => mret (Some XTOK_VALUEARRAY, noValue)).
Definition procValueRefArray : parse lexed :=
  element "VALUE.REFARRAY" [] ZTOK_VALUEREFARRAY (fun _ => mret (Some XTOK_VALUEREFARRAY, noValue)).

(** The text of a CDATA section is overwritten where it begins, with the end of a tag,
    and behind its end, with the begin of an end tag. *)
Definition procCdata : parse lexed :=
  e ← on_xmb (tagEquals (cstr "![CDATA["));
  if e : bool then
    on_xmb (xb ← get; wr (cur xb) 62);;
    on_xmb (attrsOk [] (cstr "![CDATA[") ZTOK_CDATA);;
    p ← get;
    s ← on_xmb (rd_str (cur (xmb p)));
    match strstr s (cstr "]]>") with
    | Some v =>
        let at_ := cur (xmb p) + strlen (cut s v) in
        on_xmb (wr at_ 60);; on_xmb (wr (at_ + 1) 47);; mret (Some XTOK_CDATA, noValue)
    | None => mret (None, noValue)
    end
  else mret (None, noValue).

(** ** Definitions *)

Definition procQualifierDeclaration : parse lexed :=
  element "QUALIFIER.DECLARATION"
    ["NAME"; "TYPE"; "ISARRAY"; "ARRAYSIZE"; "OVERRIDABLE"; "TOSUBCLASS"; "TOINSTANCE"; "TRANSLATABLE"]%string
    ZTOK_QUALIFIERDECLARATION (fun r =>
    type ← type_attr InvalidType (attr r 1);
    isarray ← truth false (attr r 2);
    arraySize ← match attr r 3 with Null => mret 0 | p => s ← chars p; mret (u32 (atoi s)) end;
    overridable ← truth true (attr r 4);
    tosubclass ← truth true (attr r 5);
    toinstance ← truth false (attr r 6);
    translatable ← truth false (attr r 7);
    mret (Some XTOK_QUALIFIERDECLARATION, xtokQualifierDeclaration
      {| qd_name := attr r 0; qd_type := type; qd_arraySize := arraySize; qd_isarray := isarray;
         qd_isarrayIsSet := match attr r 2 with Null => false | _ => true end;
         qd_overridable := overridable; qd_tosubclass := tosubclass; qd_toinstance := toinstance;
         qd_translatable := translatable |})).

Definition procQualifier : parse lexed :=
  element "QUALIFIER"
    ["NAME"; "TYPE"; "PROPAGATED"; "OVERRIDABLE"; "TOSUBCLASS"; "TOINSTANCE"; "TRANSLATABLE"]%string
    ZTOK_QUALIFIER (fun r =>
    type ← type_attr InvalidType (attr r 1);
    propagated ← truth false (attr r 2);
    overridable ← truth false (attr r 3);
    tosubclass ← truth false (attr r 4);
    toinstance ← truth false (attr r 5);
    translatable ← truth false (attr r 6);
    mret (Some XTOK_QUALIFIER, xtokQualifier
      {| xq_name := attr r 0; xq_type := type; xq_propagated := propagated; xq_overridable := overridable;
         xq_tosubclass := tosubclass; xq_toinstance := toinstance; xq_translatable := translatable |})).

Definition procScope : parse lexed :=
  element "SCOPE" ["CLASS"; "ASSOCIATION"; "REFERENCE"; "PROPERTY"; "METHOD"; "PARAMETER"; "INDICATION"]%string
    ZTOK_SCOPE (fun r =>
    class ← truth false (attr r 0);
    association ← truth false (attr r 1);
    reference ← truth false (attr r 2);
    property ← truth false (attr r 3);
    method ← truth false (attr r 4);
    parameter ← truth false (attr r 5);
    indication ← truth false (attr r 6);
    mret (Some XTOK_SCOPE, xtokScope
      {| s_class := class; s_association := association; s_reference := reference; s_property := property;
         s_method := method; s_parameter := parameter; s_indication := indication |})).

(** An embedded object: the type goes to [xtokParamValue.type], which lies over the first
    two bytes of [xtokProperty.classOrigin]. *)
Definition embedded_origin (embedded origin : ptr) : parse ptr :=
  match embedded with
  | Null => mret origin
  | p => e ← is_embedded p; if e : bool then mret Mangled else Throw
  end.

Definition procProperty : parse lexed :=
  element "PROPERTY" ["NAME"; "TYPE"; "CLASSORIGIN"; "PROPAGATED"; "EmbeddedObject"]%string ZTOK_PROPERTY (fun r =>
    type ← type_attr InvalidType (attr r 1);
    propagated ← truth false (attr r 3);
    origin ← embedded_origin (attr r 4) (attr r 2);
    mret (Some XTOK_PROPERTY, xtokProperty
      {| xp_name := attr r 0; xp_classOrigin := origin; xp_propagated := propagated; xp_referenceClass := Null;
         xp_valueType := type |})).

Definition procPropertyArray : parse lexed :=
  element "PROPERTY.ARRAY" ["NAME"; "TYPE"; "CLASSORIGIN"; "PROPAGATED"; "ARRAYSIZE"; "EmbeddedObject"]%string
    ZTOK_PROPERTYARRAY (fun r =>
    type ← type_attr InvalidType (attr r 1);
    propagated ← truth false (attr r 3);
    origin ← embedded_origin (attr r 5) (attr r 2);
    mret (Some XTOK_PROPERTYARRAY, xtokProperty
      {| xp_name := attr r 0; xp_classOrigin := origin; xp_propagated := propagated; xp_referenceClass := Null;
         xp_valueType := or_array type |})).

Definition procPropertyReference : parse lexed :=
  element "PROPERTY.REFERENCE" ["NAME"; "REFERENCECLASS"; "CLASSORIGIN"; "PROPAGATED"]%string
    ZTOK_PROPERTYREFERENCE (fun r =>
    propagated ← truth false (attr r 3);
    mret (Some XTOK_PROPERTYREFERENCE, xtokProperty
      {| xp_name := attr r 0; xp_classOrigin := attr r 2; xp_propagated := propagated; xp_referenceClass := attr r 1;
         xp_valueType := Plain CMPI_ref |})).

Definition procMethod : parse lexed :=
  element "METHOD" ["NAME"; "TYPE"; "CLASSORIGIN"; "PROPAGATED"]%string ZTOK_METHOD (fun r =>
    type ← type_attr (Plain CMPI_null) (attr r 1);
    propagated ← truth false (attr r 3);
    mret (Some XTOK_METHOD, xtokMethod
      {| xm_name := attr r 0; xm_classOrigin := attr r 2; xm_propagated := propagated; xm_type := type |})).

Definition param (kind : token) (name refClass : ptr) (size : Z) (type : xtype) : lexed :=
  (Some XTOK_PARAM, xtokParam
    {| xa_pType := kind; xa_name := name; xa_refClass := refClass; xa_arraySize := size; xa_type := type |}).

(** The elements of all kinds of parameters end with [ZTOK_PARAM] when they are empty. *)
Definition procParam : parse lexed :=
  element "PARAMETER" ["NAME"; "TYPE"]%string ZTOK_PARAM (fun r =>
    type ← type_attr (Plain CMPI_null) (attr r 1);
    mret (param ZTOK_PARAM (attr r 0) Null 0 type)).

(** The array size must be there. *)
Definition procParamArray : parse lexed :=
  element "PARAMETER.ARRAY" ["NAME"; "TYPE"; "ARRAYSIZE"]%string ZTOK_PARAM (fun r =>
    type ← match attr r 1 with
           | Null => mret (Plain CMPI_null)
           | p => s ← chars p;
                  mret (match find_type types s with Some t => ArrayOf t | None => Plain CMPI_null end)
           end;
    s ← chars (attr r 2);
    mret (param ZTOK_PARAMARRAY (attr r 0) Null (atoi s) type)).

Definition procParamRef : parse lexed :=
  element "PARAMETER.REFERENCE" ["NAME"; "REFERENCECLASS"]%string ZTOK_PARAM (fun r =>
    mret (param ZTOK_PARAMREF (attr r 0) (attr r 1) 0 (Plain CMPI_ref))).

Definition procParamRefArray : parse lexed :=
  element "PARAMETER.REFARRAY" ["NAME"; "REFERENCECLASS"; "ARRAYSIZE"]%string ZTOK_PARAM (fun r =>
    s ← chars (attr r 2);
    mret (param ZTOK_PARAMREFARRAY (attr r 0) (attr r 1) (atoi s) (ArrayOf CMPI_ref))).

(** ** The scanner *)

Section scanner.
Context (trimws : bool).

Definition procKeyValue : parse lexed :=
  element "KEYVALUE" ["VALUETYPE"; "TYPE"]%string ZTOK_KEYVALUE (fun r =>
    val ← on_xmb (getContent trimws); mret (Some XTOK_KEYVALUE, xtokKeyValue (attr r 0) val)).
Definition procHost : parse lexed :=
  element "HOST" [] ZTOK_HOST (fun _ => v ← on_xmb (getContent trimws); mret (Some XTOK_HOST, xtokHost v)).
Definition procValue : parse lexed :=
  element "VALUE" [] ZTOK_VALUE (fun _ => v ← on_xmb (getContent trimws); mret (Some XTOK_VALUE, xtokValue v)).
Definition procValueNamedInstance : parse lexed :=
  element "VALUE.NAMEDINSTANCE" [] ZTOK_VALUENAMEDINSTANCE (fun _ =>
    v ← on_xmb (getContent trimws); mret (Some XTOK_VALUENAMEDINSTANCE, xtokValue v)).
Definition procInstancePath : parse lexed :=
  element "INSTANCEPATH" [] ZTOK_INSTANCEPATH (fun _ =>
    v ← on_xmb (getContent trimws); mret (Some XTOK_INSTANCEPATH, xtokValue v)).
Definition procNameSpacePath : parse lexed :=
  element "NAMESPACEPATH" [] ZTOK_NAMESPACEPATH (fun _ =>
    v ← on_xmb (getContent trimws); mret (Some XTOK_NAMESPACEPATH, xtokValue v)).
Definition procValueReference : parse lexed :=
  element "VALUE.REFERENCE" [] ZTOK_VALUEREFERENCE (fun _ =>
    v ← on_xmb (getContent trimws); mret (Some XTOK_VALUEREFERENCE, xtokValue v)).

Definition tags : list (string * parse lexed * token) :=
  [("CIM", procCim, ZTOK_CIM); ("MESSAGE", procMessage, ZTOK_MESSAGE); ("SIMPLEREQ", procSimplereq, ZTOK_SIMPLEREQ);
   ("IMETHODCALL", procImethodCall, ZTOK_IMETHODCALL); ("METHODCALL", procMethodCall, ZTOK_METHODCALL);
   ("LOCALNAMESPACEPATH", procLocalNameSpacePath, ZTOK_LOCALNAMESPACEPATH);
   ("LOCALINSTANCEPATH", procLocalInstancePath, ZTOK_LOCALINSTANCEPATH);
   ("LOCALCLASSPATH", procLocalClassPath, ZTOK_LOCALCLASSPATH); ("NAMESPACEPATH", procNameSpacePath, ZTOK_NAMESPACEPATH);
   ("NAMESPACE", procNameSpace, ZTOK_NAMESPACE); ("IPARAMVALUE", procIParamValue, ZTOK_IPARAMVALUE);
   ("PARAMVALUE", procParamValue, ZTOK_PARAMVALUE); ("CLASSNAME", procClassName, ZTOK_CLASSNAME);
   ("VALUE.ARRAY", procValueArray, ZTOK_VALUEARRAY);
   ("VALUE.NAMEDINSTANCE", procValueNamedInstance, ZTOK_VALUENAMEDINSTANCE);
   ("VALUE.REFERENCE", procValueReference, ZTOK_VALUEREFERENCE); ("VALUE.REFARRAY", procValueRefArray, ZTOK_VALUEREFARRAY);
   ("VALUE", procValue, ZTOK_VALUE); ("HOST", procHost, ZTOK_HOST); ("KEYVALUE", procKeyValue, ZTOK_KEYVALUE);
   ("KEYBINDING", procKeyBinding, ZTOK_KEYBINDING); ("INSTANCEPATH", procInstancePath, ZTOK_INSTANCEPATH);
   ("INSTANCENAME", procInstanceName, ZTOK_INSTANCENAME); ("INSTANCE", procInstance, ZTOK_INSTANCE);
   ("PROPERTY.REFERENCE", procPropertyReference, ZTOK_PROPERTYREFERENCE);
   ("PROPERTY.ARRAY", procPropertyArray, ZTOK_PROPERTYARRAY); ("PROPERTY", procProperty, ZTOK_PROPERTY);
   ("QUALIFIER.DECLARATION", procQualifierDeclaration, ZTOK_QUALIFIERDECLARATION);
   ("QUALIFIER", procQualifier, ZTOK_QUALIFIER); ("SCOPE", procScope, ZTOK_SCOPE);
   ("PARAMETER.ARRAY", procParamArray, ZTOK_PARAMARRAY); ("PARAMETER.REFERENCE", procParamRef, ZTOK_PARAMREF);
   ("PARAMETER.REFARRAY", procParamRefArray, ZTOK_PARAMREFARRAY); ("PARAMETER", procParam, ZTOK_PARAM);
   ("METHOD", procMethod, ZTOK_METHOD); ("CLASS", procClass, ZTOK_CLASS); ("?xml", procXml, ZTOK_XML);
   ("![CDATA[", procCdata, ZTOK_CDATA); ("", procCdata, ZTOK_CDATA)]%string.

(** The first entry of the table whose name the tag at [n] has. *)
Fixpoint find_tag (l : list (string * parse lexed * token)) (n : bytes) : option (parse lexed * token) :=
  match l with
  | [] => None
  | (t, f, z) :: l => if nextEquals n (cstr t) then Some (f, z) else find_tag l n
  end.

(** [fuel] bounds the comments; every one takes at least one cell. *)
Fixpoint yylex_loop (fuel : nat) : parse lexed :=
  next ← on_xmb nextTag;
  match next with
  | None => mret (None, noValue)
  | Some next =>
      p ← get;
      if eTagFound (xmb p) then
        on_xmb (modify (set_tag false (etag (xmb p))));; mret (etag (xmb p), noValue)
      else
        n ← on_xmb (rd_str next);
        if at0 n =? 47 then
          match find_tag tags (drop 1 n) with
          | Some (_, z) => on_xmb skipTag;; mret (Some z, noValue)
          | None => mret (None, noValue)
          end
        else
          c ← on_xmb (rd_str (cur (xmb p)));
          if strncmp c (cstr "<!--") 4 =? 0 then
            match fuel, strstr c (cstr "-->") with
            | S fuel, Some e => on_xmb (modify (set_cur (cur (xmb p) + strlen (cut c e) + 3)));; yylex_loop fuel
            | _, _ => undefined
            end
          else
            match find_tag tags n with
            | Some (f, _) => f
            | None => mret (None, noValue)
            end
  end.

Definition yylex : parse lexed :=
  p ← get; yylex_loop (length (base (xmb p))).

(** The tokens until the end of the input, at most [n]. *)
Fixpoint lex (n : nat) : parse (list lexed) :=
  match n with
  | O => mret []
  | S n => t ← yylex; match fst t with None => mret [] | Some _ => ts ← lex n; mret (t :: ts) end
  end.

End scanner.

Definition newParserControl (s : bytes) : ParserControl :=
  {| xmb := newXmlBuffer s; r_id := Null; r_iMethod := Null; r_methodCall := false |}.

(** * Scanning a document *)

(** The characters that end the name of an element. *)
Definition name_end (c : Z) : Prop := c = 32 \/ c = 47 \/ c = 62.

Ltac each_tag H :=
  repeat match type of H with
    | In _ (_ :: _) => destruct H as [H|H]; [injection H as <- <- <-|]
    | In _ [] => destruct H
    end.

(** Every element is found under its name, although some names begin others. *)
Lemma tag_found trimws nm f z c u : In (nm, f, z) (tags trimws) -> nm <> ""%string -> name_end c ->
  find_tag (tags trimws) (cstr nm ++ c :: u) = Some (f, z).
Proof.
  intros Hin Hnm Hc. unfold tags in Hin.
  each_tag Hin; try done; destruct Hc as [->|[->| ->]]; reflexivity.
Qed.

Definition blanks (ws : bytes) : Prop := Forall (fun c => blank c = true) ws.

Lemma nextTag_place pre ws post f t : blanks ws ->
  nextTag (place pre (ws ++ 60 :: post) f t 0) = Ret (Some (strlen (pre ++ ws) + 1)) (place (pre ++ ws) (60 :: post) f t 0).
Proof.
  intros Hw. unfold nextTag. rewrite bind_get. cbn [nulledChar place negb Z.eqb].
  rewrite (bind_ret _ _ _ _ _ (skipWS_place pre ws 60 post f t 0 Hw eq_refl)), bind_get. cbn [cur place].
  by rewrite (bind_ret _ _ _ _ _ (rd_place _ _ _ _ _ _)).
Qed.
Lemma nextTag_nulled pre post f t n : n <> 0 ->
  nextTag (place pre post f t n) = Ret (Some (strlen pre + 1)) (place pre post f t 0).
Proof. intros Hn. unfold nextTag. rewrite bind_get. cbn [nulledChar place]. by rewrite (proj2 (Z.eqb_neq n 0)). Qed.

Lemma skipTag_place pre s c post f t n : Forall (fun c => c <> 62) s ->
  skipTag (place pre (s ++ 62 :: c :: post) f t n) = Ret c (place (pre ++ s ++ [62]) (c :: post) f t n).
Proof.
  intros Hs. unfold skipTag. rewrite bind_get. cbn [cur base place].
  rewrite (in_place0 pre (s ++ 62 :: c :: post) f t n) by (by destruct s). rewrite rest_at_app.
  assert (E : strspn (take (Z.to_nat (last (place pre (s ++ 62 :: c :: post) f t n) - strlen pre)) (s ++ 62 :: c :: post))
    (fun c => negb (c =? 62)) = length s).
  { unfold last. cbn [base place]. autorewrite with strlen.
    replace (Z.to_nat _) with (length s + S (length post))%nat by (unfold strlen; lia). rewrite take_app_add. cbn [take].
    apply strspn_stop; [|done]. eapply Forall_impl; [exact Hs|]. cbn. intros d Hd. by rewrite (proj2 (Z.eqb_neq d 62)). }
  rewrite E, bind_modify. clear E.
  assert (Em : set_cur (strlen pre + (Z.of_nat (length s) + 1)) (place pre (s ++ 62 :: c :: post) f t n) =
    place (pre ++ s ++ [62]) (c :: post) f t n).
  { rewrite <- place_move. rewrite <- app_assoc. cbn [app]. f_equal. unfold strlen. rewrite length_app. cbn. lia. }
  replace (strlen pre + Z.of_nat (length s) + 1) with (strlen pre + (Z.of_nat (length s) + 1)) by lia.
  rewrite Em, bind_get. apply rd_place.
Qed.

Lemma on_xmb_ret {A} (m : scan A) p a xb : m (xmb p) = Ret a xb -> on_xmb m p = Ret a (set_xmb xb p).
Proof. intros H. unfold on_xmb. by rewrite H. Qed.
Lemma set_xmb_xmb p : set_xmb (xmb p) p = p.
Proof. by destruct p. Qed.

Definition at_place (p : ParserControl) pre post f t n : ParserControl := set_xmb (place pre post f t n) p.

Lemma on_xmb_place {A} (m : scan A) p pre post f t n a pre' post' f' t' n' :
  m (place pre post f t n) = Ret a (place pre' post' f' t' n') ->
  on_xmb m (at_place p pre post f t n) = Ret a (at_place p pre' post' f' t' n').
Proof. intros H. by rewrite (on_xmb_ret _ _ a (place pre' post' f' t' n')). Qed.

Lemma name_chars trimws nm f z : In (nm, f, z) (tags trimws) ->
  Forall (fun c => c <> 0 /\ c <> 62) (cstr nm) /\
  (nm <> ""%string -> at0 (cstr nm) <> 47 /\ blank (at0 (cstr nm)) = false /\
   forall c u, name_end c -> strncmp (60 :: until_nul (cstr nm ++ c :: u)) (cstr "<!--") 4 <> 0).
Proof.
  intros Hin. unfold tags in Hin.
  each_tag Hin; (split; [by repeat constructor|]); try done; intros _; (split; [done|split; [done|]]);
    intros c u Hc; destruct Hc as [->|[->| ->]]; vm_compute; done.
Qed.

Lemma until_nul_cons c u : c <> 0 -> until_nul (c :: u) = c :: until_nul u.
Proof. intros. cbn. by rewrite (proj2 (Z.eqb_neq c 0)). Qed.
Lemma name_end_nonzero c : name_end c -> c <> 0.
Proof. unfold name_end. lia. Qed.

(** At the tag of an element its function is called. *)
Lemma yylex_open trimws p pre ws nm f z c post t : blanks ws -> In (nm, f, z) (tags trimws) -> nm <> ""%string -> name_end c ->
  yylex trimws (at_place p pre (ws ++ 60 :: cstr nm ++ c :: post) false t 0) =
  f (at_place p (pre ++ ws) (60 :: cstr nm ++ c :: post) false t 0).
Proof.
  intros Hw Hin Hnm Hc. destruct (name_chars _ _ _ _ Hin) as [Hz Hn]. destruct (Hn Hnm) as (H47 & Hb & Hcom). clear Hn.
  apply List.Forall_and_inv in Hz as [Hz _]. pose proof (name_end_nonzero c Hc) as Hc0.
  unfold yylex. rewrite bind_get. set (k := length _). clearbody k.
  assert (E : forall q, until_nul (cstr nm ++ c :: q) = cstr nm ++ c :: until_nul q).
  { intros q. by rewrite until_nul_app, until_nul_cons. }
  destruct k; cbn [yylex_loop];
    rewrite (bind_ret _ _ _ _ _ (on_xmb_place _ p _ _ _ _ _ _ _ _ _ _ _ (nextTag_place pre ws _ false t Hw))), bind_get;
    cbn [eTagFound xmb at_place set_xmb place cur].
  all: assert (Hl : 0 <= 1 < strlen (60 :: cstr nm ++ c :: post))
    by (autorewrite with strlen; pose proof (strlen_nonneg (cstr nm)); pose proof (strlen_nonneg post); lia).
  all: rewrite (bind_ret _ _ _ _ _ (on_xmb_place _ p _ _ _ _ _ _ _ _ _ _ _
      (rd_str_place (pre ++ ws) (60 :: cstr nm ++ c :: post) false t 0 1 Hl))).
  all: change (drop (Z.to_nat 1) (60 :: cstr nm ++ c :: post)) with (cstr nm ++ c :: post).
  all: assert (H0 : at0 (until_nul (cstr nm ++ c :: post)) = at0 (cstr nm))
    by (rewrite E; destruct nm; [done|reflexivity]).
  all: rewrite H0, (proj2 (Z.eqb_neq _ _) H47).
  all: rewrite (bind_ret _ _ _ _ _ (on_xmb_place _ p _ _ _ _ _ _ _ _ _ _ _
      (rd_str_place0 (pre ++ ws) (60 :: cstr nm ++ c :: post) false t 0 ltac:(done)))).
  all: rewrite until_nul_cons by done; rewrite (proj2 (Z.eqb_neq _ _) (Hcom c post Hc)).
  all: by rewrite E, (tag_found trimws nm f z c).
Qed.

(** The end of the tag of an empty element, or of another one. *)
Definition tag_end (e : bool) : bytes := if e then [47; 62] else [62].

Lemma tag_rest l e post : exists c u, attrs_text l ++ tag_end e ++ post = c :: u /\ name_end c.
Proof. destruct l as [|a l]; [destruct e|]; eexists _, _; (split; [reflexivity|unfold name_end; tauto]). Qed.

(** The tag of an element with its attributes. *)
Lemma element_ok p nm elm z k l st pre post t e :
  Forall (fun c => c <> 0 /\ c <> 62) (cstr nm) -> blank (at0 (cstr nm)) = false -> nm <> ""%string ->
  (length elm <= 32)%nat -> Forall (fun a => Forall (fun d => isalnum d = true) a) (cstr <$> elm) -> attrs_ok l ->
  fill (unseen (cstr <$> elm)) (strlen (pre ++ 60 :: cstr nm)) l = Some st ->
  element nm elm z k (at_place p pre (60 :: cstr nm ++ attrs_text l ++ tag_end e ++ post) false t 0) =
  k (snd <$> st) (at_place p (pre ++ 60 :: cstr nm ++ attrs_cells l ++ tag_end e) post e (if e then Some z else t) 0).
Proof.
  intros Hnm Hb Hne Hlen Helm Hl Hfill. unfold element. destruct (tag_rest l e post) as (c & u & E & Hc). rewrite E.
  apply List.Forall_and_inv in Hnm as [Hz _].
  assert (Hb' : blank (at0 (cstr nm ++ [c])) = false) by (destruct nm; [done|exact Hb]).
  assert (Hc' : isalnum c = false) by (by destruct Hc as [->|[->| ->]]).
  rewrite (bind_ret _ _ _ _ _ (on_xmb_place _ p _ _ _ _ _ _ _ _ _ _ _ (tagEquals_open pre (cstr nm) c u false t 0 Hz Hb' Hc'))).
  rewrite <- E.
  assert (Hlen' : (length (cstr <$> elm) <= 32)%nat) by (by rewrite length_fmap).
  rewrite (bind_ret _ _ _ _ _ (on_xmb_place _ p _ _ _ _ _ _ _ _ _ _ _
    (attrsOk_ok (cstr <$> elm) (cstr nm) z l st (pre ++ 60 :: cstr nm) post false t 0 e Hlen' Helm Hl Hfill))).
  f_equal. f_equal. by app_norm.
Qed.

(** The end tag of an element; behind a text its first character was overwritten. *)
Lemma yylex_close trimws p pre nm f z d post t n : In (nm, f, z) (tags trimws) -> nm <> ""%string -> post <> [] ->
  n <> 0 /\ d <> 62 \/ n = 0 /\ d = 60 ->
  yylex trimws (at_place p pre (d :: 47 :: cstr nm ++ 62 :: post) false t n) =
  Ret (Some z, noValue) (at_place p (pre ++ d :: 47 :: cstr nm ++ [62]) post false t 0).
Proof.
  intros Hin Hnm Hpost Hd. destruct (name_chars _ _ _ _ Hin) as [Hz _]. apply List.Forall_and_inv in Hz as [Hz H62].
  unfold yylex. rewrite bind_get. set (k := length _). clearbody k.
  assert (Hnext : nextTag (place pre (d :: 47 :: cstr nm ++ 62 :: post) false t n) =
    Ret (Some (strlen pre + 1)) (place pre (d :: 47 :: cstr nm ++ 62 :: post) false t 0)).
  { destruct Hd as [[Hn _]|[-> ->]]; [by apply nextTag_nulled|].
    pose proof (nextTag_place pre [] (47 :: cstr nm ++ 62 :: post) false t (Forall_nil_2 _)) as H. by rewrite app_nil_r in H. }
  assert (Hl : 0 <= 1 < strlen (d :: 47 :: cstr nm ++ 62 :: post))
    by (autorewrite with strlen; pose proof (strlen_nonneg (cstr nm)); pose proof (strlen_nonneg post); lia).
  assert (Hs : skipTag (place pre (d :: 47 :: cstr nm ++ 62 :: post) false t 0) =
    Ret (at0 post) (place (pre ++ d :: 47 :: cstr nm ++ [62]) post false t 0)).
  { destruct post as [|c post]; [done|]. cbn [at0].
    pose proof (skipTag_place pre (d :: 47 :: cstr nm) c post false t 0) as E. cbn [app] in E. rewrite E; [by app_norm|].
    repeat constructor; [destruct Hd as [[_ ?]|[_ ->]]; done|done|done]. }
  assert (Hu : drop 1 (until_nul (47 :: cstr nm ++ 62 :: post)) = cstr nm ++ 62 :: until_nul post).
  { cbn. rewrite until_nul_app by done. done. }
  destruct k; cbn [yylex_loop];
    rewrite (bind_ret _ _ _ _ _ (on_xmb_place _ p _ _ _ _ _ _ _ _ _ _ _ Hnext)), bind_get; cbn [eTagFound xmb at_place set_xmb place];
    rewrite (bind_ret _ _ _ _ _ (on_xmb_place _ p _ _ _ _ _ _ _ _ _ _ _
      (rd_str_place pre (d :: 47 :: cstr nm ++ 62 :: post) false t 0 1 Hl)));
    change (drop (Z.to_nat 1) (d :: 47 :: cstr nm ++ 62 :: post)) with (47 :: cstr nm ++ 62 :: post);
    change (at0 (until_nul (47 :: cstr nm ++ 62 :: post))) with 47; cbn [Z.eqb Pos.eqb]; rewrite Hu;
    rewrite (tag_found trimws nm f z 62 _ Hin Hnm) by (unfold name_end; tauto);
    by rewrite (bind_ret _ _ _ _ _ (on_xmb_place _ p _ _ _ _ _ _ _ _ _ _ _ Hs)).
Qed.

(** Behind an empty element its end comes as a token of its own. *)
Lemma yylex_etag trimws p pre ws post z : blanks ws ->
  yylex trimws (at_place p pre (ws ++ 60 :: post) true (Some z) 0) =
  Ret (Some z, noValue) (at_place p (pre ++ ws) (60 :: post) false (Some z) 0).
Proof.
  intros Hw. unfold yylex. rewrite bind_get. set (k := length _). clearbody k.
  destruct k; cbn [yylex_loop];
    rewrite (bind_ret _ _ _ _ _ (on_xmb_place _ p _ _ _ _ _ _ _ _ _ _ _ (nextTag_place pre ws post true (Some z) Hw))), bind_get;
    done.
Qed.

(** Blanks before a tag do not matter. *)
Lemma yylex_blanks trimws p pre ws post f t : blanks ws ->
  yylex trimws (at_place p pre (ws ++ 60 :: post) f t 0) = yylex trimws (at_place p (pre ++ ws) (60 :: post) f t 0).
Proof.
  intros Hw. unfold yylex. rewrite !bind_get.
  replace (length (base (xmb (at_place p pre (ws ++ 60 :: post) f t 0)))) with (length (base (xmb (at_place p (pre ++ ws) (60 :: post) f t 0))))
    by (cbn; by rewrite <- app_assoc).
  set (k := length _). clearbody k.
  pose proof (nextTag_place (pre ++ ws) [] post f t (Forall_nil_2 _)) as H0. rewrite app_nil_r in H0.
  destruct k; cbn [yylex_loop];
    rewrite (bind_ret _ _ _ _ _ (on_xmb_place _ p _ _ _ _ _ _ _ _ _ _ _ (nextTag_place pre ws post f t Hw)));
    by rewrite (bind_ret _ _ _ _ _ (on_xmb_place _ p _ _ _ _ _ _ _ _ _ _ _ H0)).
Qed.

(** ** Texts of pointers *)

(** [p] points at the string [s] in the cells [b], or is null for [None]. *)
Definition ptr_text (b : bytes) (p : ptr) (s : option bytes) : Prop :=
  match p, s with Null, None => True | At p, Some s => 0 <= p /\ str_at b p = s | _, _ => False end.

(** The texts of the attributes of an element, by their names. *)
Fixpoint text_named (st : list (bytes * option bytes)) (a : bytes * bytes) : option (list (bytes * option bytes)) :=
  match st with
  | [] => None
  | (b, v) :: st =>
      if bool_decide (v = None) && (strcasecmp (fst a) b =? 0) then Some ((b, Some (snd a)) :: st)
      else st ← text_named st a; Some ((b, v) :: st)
  end.
Fixpoint texts_named (st : list (bytes * option bytes)) (l : list (bytes * bytes)) : option (list (bytes * option bytes)) :=
  match l with [] => Some st | a :: l => st ← text_named st a; texts_named st l end.

Definition attr_rel (b : bytes) (a : attribute) (e : bytes * option bytes) : Prop :=
  fst (fst a) = fst e /\ (snd (fst a) = true <-> snd e <> None) /\ ptr_text b (snd a) (snd e).

Lemma str_at_text pre s x : Forall (fun c => c <> 0) s -> str_at (pre ++ s ++ 0 :: x) (strlen pre) = s.
Proof. intros Hs. unfold str_at. rewrite rest_at_app. by apply until_nul_end. Qed.

Lemma set_named_rel b st ste a ste' p : Forall2 (attr_rel b) st ste -> text_named ste a = Some ste' ->
  0 <= p /\ str_at b p = snd a -> exists st', set_named st (fst a) p = Some st' /\ Forall2 (attr_rel b) st' ste'.
Proof.
  intros H Ht Hp. revert ste' Ht. induction H as [|[[n seen] v] [n' t] st ste (En & Es & Ev) Hr IH]; intros ste' Ht; [done|].
  cbn in En, Es, Ev. subst n'. cbn [text_named set_named] in *.
  assert (E : negb seen = bool_decide (t = None)).
  { case_bool_decide as Hn; destruct seen; try done; exfalso.
    - by apply (proj1 Es).
    - by specialize (proj2 Es Hn). }
  rewrite E. destruct (bool_decide (t = None) && _).
  - injection Ht as <-. eexists. split; [done|]. constructor; [by split_and!|done].
  - destruct (text_named ste a) as [ste1|]; [|done]. injection Ht as <-. destruct (IH _ eq_refl) as (st1 & -> & H1).
    eexists. split; [done|]. constructor; [by split_and!|done].
Qed.

Lemma fill_rel l : forall b st ste ste' pre x, attrs_ok l -> b = pre ++ attrs_cells l ++ x ->
  Forall2 (attr_rel b) st ste -> texts_named ste l = Some ste' ->
  exists st', fill st (strlen pre) l = Some st' /\ Forall2 (attr_rel b) st' ste'.
Proof.
  induction l as [|[n v] l IH]; intros b st ste ste' pre x Hl Hb Hst Ht.
  { injection Ht as <-. by exists st. }
  inversion Hl as [|? ? [_ Hv] Hl']; subst. apply List.Forall_and_inv in Hv as [_ Hv]. cbn [texts_named] in Ht.
  destruct (text_named ste (n, v)) as [ste1|] eqn:E1; [|done]. cbn [mbind option_bind] in Ht. cbn [fill].
  set (b := pre ++ attrs_cells ((n, v) :: l) ++ x) in *.
  assert (Hs : 0 <= strlen pre + strlen n + 3 /\ str_at b (strlen pre + strlen n + 3) = v).
  { split; [pose proof (strlen_nonneg pre); pose proof (strlen_nonneg n); lia|].
    replace (strlen pre + strlen n + 3) with (strlen (pre ++ 32 :: n ++ [61; 34])) by (autorewrite with strlen; lia).
    unfold b, attrs_cells. cbn [fmap list_fmap concat]. unfold attr_cells at 1. cbn [fst snd].
    etransitivity; [|exact (str_at_text (pre ++ 32 :: n ++ [61; 34]) v (concat (attr_cells <$> l) ++ x) Hv)].
    f_equal. by app_norm. }
  destruct (set_named_rel b st ste (n, v) ste1 _ Hst E1 Hs) as (st1 & Es1 & H1). cbn [fst] in Es1 |- *. rewrite Es1. cbn [mbind option_bind].
  destruct (IH b st1 ste1 ste' (pre ++ attr_cells (n, v)) x Hl') as (st' & E & H'); [|done|done|].
  - unfold b, attrs_cells. cbn [fmap list_fmap concat]. by app_norm.
  - exists st'. split; [|done]. rewrite <- E. f_equal. by rewrite strlen_app, attr_cells_length.
Qed.

(** The function behind the tag of an element gets the texts of its attributes. *)
Lemma element_texts p nm elm z k l ste pre post t e :
  Forall (fun c => c <> 0 /\ c <> 62) (cstr nm) -> blank (at0 (cstr nm)) = false -> nm <> ""%string ->
  (length elm <= 32)%nat -> Forall (fun a => Forall (fun d => isalnum d = true) a) (cstr <$> elm) -> attrs_ok l ->
  texts_named ((fun a => (a, None)) <$> (cstr <$> elm)) l = Some ste ->
  exists ptrs cells,
    element nm elm z k (at_place p pre (60 :: cstr nm ++ attrs_text l ++ tag_end e ++ post) false t 0) =
      k ptrs (at_place p (pre ++ 60 :: cells ++ tag_end e) post e (if e then Some z else t) 0) /\
    forall x, Forall2 (ptr_text (pre ++ 60 :: cells ++ x)) ptrs (snd <$> ste).
Proof.
  intros Hnm Hb Hne Hlen Helm Hl Ht.
  assert (Hu : forall b, Forall2 (attr_rel b) (unseen (cstr <$> elm)) ((fun a => (a, None)) <$> (cstr <$> elm))).
  { intros b. unfold unseen. apply Forall2_fmap_2. generalize (cstr <$> elm). clear. intros l0.
    induction l0 as [|a l0 IH]; [constructor|]. constructor; [|exact IH].
    split; [done|]. split; [|done]. split; [done|by intros []]. }
  set (cells := cstr nm ++ attrs_cells l).
  assert (Hf : forall x, exists st, fill (unseen (cstr <$> elm)) (strlen (pre ++ 60 :: cstr nm)) l = Some st /\
    Forall2 (attr_rel (pre ++ 60 :: cells ++ x)) st ste).
  { intros x. eapply fill_rel; [done| |apply Hu|done]. instantiate (1 := x). unfold cells. by app_norm. }
  destruct (Hf []) as (st & Hst & _). exists (snd <$> st), cells. split.
  - rewrite (element_ok p nm elm z k l st pre post t e Hnm Hb Hne Hlen Helm Hl Hst).
    unfold cells. by rewrite <- app_assoc.
  - intros x. destruct (Hf x) as (st' & Hst' & Hr). rewrite Hst in Hst'. injection Hst' as <-.
    apply Forall2_fmap. eapply Forall2_impl; [exact Hr|]. by intros a e' (_ & _ & H).
Qed.
