(* ===== verification/XmlFrame.v ===== *)
(** * Progress and memory of the scanner

    What a call of [yylex] leaves as it was: every token takes at least one character or
    is the end of an empty element, and the cells up to the cursor are never written
    again, so the pointers handed out stay valid. *)

From S2P Require Import Prelude CString CmpiData XmlScanner XmlTokens.

(** The cells before [c] are the same. *)
Definition same_before (c : Z) (b b' : bytes) : Prop :=
  length b' = length b /\ take (Z.to_nat c) b' = take (Z.to_nat c) b.

#[export] Instance same_before_preorder c : PreOrder (same_before c).
Proof. split; [by split|]. intros x y z [H1 H2] [H3 H4]. split; congruence. Qed.

Lemma same_before_le c d b b' : d <= c -> same_before c b b' -> same_before d b b'.
Proof.
  intros Hd [Hl Ht]. split; [done|].
  replace (Z.to_nat d) with (Z.to_nat d `min` Z.to_nat c)%nat by lia. by rewrite <- !take_take, Ht.
Qed.

Lemma same_before_insert c p x b : c <= p -> same_before c b (<[Z.to_nat p := x]> b).
Proof. intros H. split; [apply length_insert|]. apply take_insert_ge. lia. Qed.

(** A computation that begins at [c] or behind it moves the cursor [d] cells forward at
    least and writes no cell before [c]. *)
Definition keeps {A} (d : Z) (m : scan A) : Prop := forall c xb a xb',
  0 <= c <= cur xb -> m xb = Ret a xb' -> cur xb + d <= cur xb' /\ same_before c (base xb) (base xb').

Create HintDb frame discriminated.
#[export] Hint Constants Opaque : frame.

Lemma keeps_le {A} d d' (m : scan A) : d' <= d -> keeps d m -> keeps d' m.
Proof. intros Hd H c xb a xb' Hc E. destruct (H c xb a xb' Hc E). split; [lia|done]. Qed.

Lemma keeps_ret {A} (a : A) : keeps 0 (mret a).
Proof. intros c xb a' xb' Hc [= <- <-]. split; [lia|done]. Qed.

Lemma bind_inv {S A B} (m : M S A) (f : A -> M S B) s b s' :
  (m ≫= f) s = Ret b s' -> exists a s1, m s = Ret a s1 /\ f a s1 = Ret b s'.
Proof. unfold mbind, M_bind. destruct (m s) as [a s1| |]; try done. intros H. by exists a, s1. Qed.

Lemma keeps_bind {A B} d1 d2 (m : scan A) (f : A -> scan B) :
  keeps d1 m -> 0 <= d1 -> (forall a, keeps d2 (f a)) -> keeps (d1 + d2) (m ≫= f).
Proof.
  intros Hm Hd Hf c xb b xb' Hc E. apply bind_inv in E as (a & xb1 & E1 & E2).
  destruct (Hm c xb a xb1 Hc E1) as [H1 H2]. destruct (Hf a c xb1 b xb' ltac:(lia) E2) as [H3 H4].
  split; [lia|by transitivity (base xb1)].
Qed.
Lemma keeps_bind0 {A B} (m : scan A) (f : A -> scan B) :
  keeps 0 m -> (forall a, keeps 0 (f a)) -> keeps 0 (m ≫= f).
Proof. intros. change 0 with (0 + 0). by apply keeps_bind. Qed.

Lemma keeps_get {A} d (f : XmlBuffer -> scan A) : (forall xb, keeps d (f xb)) -> keeps d (get ≫= f).
Proof. intros H c xb a xb' Hc E. rewrite bind_get in E. by eapply H. Qed.

Lemma keeps_undefined {A} d : keeps d (undefined : scan A).
Proof. by intros c xb a xb' Hc. Qed.
Lemma keeps_throw {A} d : keeps d (Throw : scan A).
Proof. by intros c xb a xb' Hc. Qed.

Lemma rd_inv p xb c xb' : rd p xb = Ret c xb' -> xb' = xb /\ cell (base xb) p = Some c.
Proof. unfold rd. rewrite bind_get. destruct (cell (base xb) p) as [d|]; [by intros [= <- <-]|done]. Qed.
Lemma rd_str_inv p xb s xb' : rd_str p xb = Ret s xb' -> xb' = xb /\ in_buffer xb p = true /\ s = str_at (base xb) p.
Proof. unfold rd_str. rewrite bind_get. destruct (in_buffer xb p); [by intros [= <- <-]|done]. Qed.
Lemma wr_inv p x xb u xb' : wr p x xb = Ret u xb' -> xb' = set_base (<[Z.to_nat p := x]> (base xb)) xb.
Proof. unfold wr. rewrite bind_get. destruct (in_buffer xb p); [by intros [= <- <-]|done]. Qed.

Lemma keeps_rd p : keeps 0 (rd p).
Proof. intros c xb a xb' Hc [-> _]%rd_inv. split; [lia|done]. Qed.
Lemma keeps_rd_str p : keeps 0 (rd_str p).
Proof. intros c xb a xb' Hc [-> _]%rd_str_inv. split; [lia|done]. Qed.

Lemma keeps_skipWS : keeps 0 skipWS.
Proof.
  intros c xb a xb' Hc E. unfold skipWS in E. rewrite bind_get in E.
  destruct (in_buffer xb (cur xb)); [|done]. injection E as <- <-. cbn. split; [lia|done].
Qed.

Lemma keeps_getChar x : keeps 0 (getChar x).
Proof.
  intros c xb a xb' Hc E. unfold getChar in E. rewrite bind_get in E. apply bind_inv in E as (d & xb1 & E1 & E2).
  apply rd_inv in E1 as [-> _]. destruct (d =? x).
  - rewrite bind_modify in E2. injection E2 as <- <-. cbn. split; [lia|done].
  - injection E2 as <- <-. split; [lia|done].
Qed.
Lemma getChar_inv x xb a xb' : getChar x xb = Ret a xb' -> a <> 0 ->
  a = x /\ xb' = set_cur (cur xb + 1) xb /\ cell (base xb) (cur xb) = Some x.
Proof.
  intros E Ha. unfold getChar in E. rewrite bind_get in E. apply bind_inv in E as (d & xb1 & E1 & E2).
  apply rd_inv in E1 as [-> Hc]. destruct (Z.eqb_spec d x) as [->|].
  - rewrite bind_modify in E2. injection E2 as <- <-. done.
  - injection E2 as <- <-. done.
Qed.

Lemma keeps_getChars s : keeps 0 (getChars s).
Proof.
  intros c xb a xb' Hc E. unfold getChars in E. rewrite bind_get in E. apply bind_inv in E as (d & xb1 & E1 & E2).
  apply rd_str_inv in E1 as (-> & _). destruct (_ =? 0).
  - rewrite bind_modify in E2. injection E2 as <- <-. cbn. pose proof (strlen_nonneg s). split; [lia|done].
  - injection E2 as <- <-. split; [lia|done].
Qed.
Lemma getChars_inv s xb xb' : getChars s xb = Ret true xb' -> xb' = set_cur (cur xb + strlen s) xb.
Proof.
  intros E. unfold getChars in E. rewrite bind_get in E. apply bind_inv in E as (d & xb1 & E1 & E2).
  apply rd_str_inv in E1 as (-> & _). destruct (_ =? 0).
  - rewrite bind_modify in E2. by injection E2 as <-.
  - done.
Qed.

Lemma keeps_getWord w x : keeps 0 (getWord w x).
Proof.
  intros c xb a xb' Hc E. unfold getWord in E. rewrite bind_get in E. apply bind_inv in E as (d & xb1 & E1 & E2).
  apply rd_str_inv in E1 as (-> & _). destruct (_ =? 0); [destruct (isalnum _)|].
  - injection E2 as <- <-. split; [lia|done].
  - rewrite bind_modify in E2. injection E2 as <- <-. cbn. pose proof (strlen_nonneg w). split; [lia|done].
  - injection E2 as <- <-. split; [lia|done].
Qed.

Lemma keeps_getValue : keeps 0 getValue.
Proof.
  intros c xb a xb' Hc E. unfold getValue in E. apply bind_inv in E as (u & xb1 & E1 & E).
  destruct (keeps_skipWS c _ _ _ Hc E1) as [H1 S1]. apply bind_inv in E as (d & xb2 & E2 & E).
  destruct (keeps_getChar 34 c xb1 d xb2 ltac:(lia) E2) as [H2 S2]. apply bind_inv in E as (e & xb3 & E3 & E).
  assert (H3 : cur xb2 <= cur xb3 /\ same_before c (base xb2) (base xb3)).
  { destruct (d =? 0); [|injection E3 as <- <-; split; [lia|done]]. destruct (keeps_getChar 39 c xb2 e xb3 ltac:(lia) E3) as [? ?]. split; [lia|done]. }
  destruct H3 as [H3 S3].
  assert (S : same_before c (base xb) (base xb3)) by (etransitivity; [exact S1|etransitivity; [exact S2|exact S3]]).
  destruct (e =? 0); [injection E as <- <-; split; [lia|done]|].
  rewrite bind_get in E. destruct (find_cell _ _) as [k|]; [|done].
  apply bind_inv in E as ([] & xb4 & E4 & E). apply wr_inv in E4 as ->. rewrite bind_modify in E. injection E as <- <-.
  cbn [cur base set_cur set_base]. split; [lia|]. transitivity (base xb3); [done|]. apply same_before_insert. lia.
Qed.

#[export] Hint Resolve keeps_ret keeps_undefined keeps_throw keeps_rd keeps_rd_str keeps_skipWS keeps_getChar keeps_getChars
  keeps_getWord keeps_getValue : frame.

(** The compositional cases. *)
Ltac keeps :=
  repeat match goal with
    | |- keeps _ (get ≫= _) => apply keeps_get; intros ?
    | |- keeps _ (_ ≫= _) => apply keeps_bind0; [|intros ?]
    | |- keeps _ (match ?x with _ => _ end) => destruct x
    | |- keeps _ _ => solve [auto with frame]
    end.

Lemma keeps_set_attr st : keeps 0 (set_attr st).
Proof. induction st as [|[[a seen] v] st IH]; cbn [set_attr]; keeps. Qed.
#[export] Hint Resolve keeps_set_attr : frame.

Lemma keeps_attr_loop fuel st : keeps 0 (attr_loop fuel st).
Proof. revert st. induction fuel as [|fuel IH]; intros st; cbn [attr_loop]; keeps. Qed.
#[export] Hint Resolve keeps_attr_loop : frame.

Lemma keeps_modify f : (forall xb, cur xb <= cur (f xb) /\ base (f xb) = base xb) -> keeps 0 (modify f).
Proof.
  intros Hf c xb a xb' Hc [= <- <-]. destruct (Hf xb) as [H1 H2]. rewrite H2. split; [lia|done].
Qed.

(** Behind a tag that is not the one of an empty element comes the text. *)
Lemma attrsOk_frame elm tag z c xb r xb' : 0 <= c <= cur xb -> attrsOk elm tag z xb = Ret r xb' ->
  cur xb + 1 <= cur xb' /\ same_before c (base xb) (base xb') /\
  (eTagFound xb' = false -> cell (base xb') (cur xb' - 1) = Some 62).
Proof.
  intros Hc E. unfold attrsOk in E. destruct (MAXATTR <? _); [done|]. rewrite bind_get, bind_modify in E.
  apply bind_inv in E as (st & xb1 & E1 & E). set (xb0 := set_tag false (etag xb) xb) in *.
  assert (Hc0 : 0 <= c <= cur xb0) by exact Hc. destruct (keeps_attr_loop _ _ c _ _ _ Hc0 E1) as [H1 S1].
  change (cur xb0) with (cur xb) in *. change (base xb0) with (base xb) in *.
  apply bind_inv in E as (e & xb2 & E2 & E). destruct e.
  { apply getChars_inv in E2 as ->. rewrite bind_modify in E. injection E as <- <-. cbn [cur base eTagFound set_cur set_tag].
    autorewrite with strlen. split_and!; [lia|done|done]. }
  assert (Hc1 : 0 <= c <= cur xb1) by lia. destruct (keeps_getChars _ c _ _ _ Hc1 E2) as [H2 S2].
  apply bind_inv in E as (d & xb3 & E3 & E). assert (Hc2 : 0 <= c <= cur xb2) by lia.
  destruct (Z.eqb_spec d 0) as [->|Hd]; cbn [negb] in E.
  - destruct (keeps_getChar 62 c _ _ _ Hc2 E3) as [H3 S3]. apply bind_inv in E as (q & xb4 & E4 & E).
    destruct q; [|done]. destruct (_ =? 0); cbn [andb] in E; [|done].
    apply getChars_inv in E4 as ->. rewrite bind_modify in E. injection E as <- <-. cbn [cur base eTagFound set_cur set_tag].
    autorewrite with strlen. split_and!; [lia| |done].
    etransitivity; [exact S1|etransitivity; [exact S2|exact S3]].
  - destruct (getChar_inv _ _ _ _ E3 Hd) as (-> & -> & Hcell). injection E as <- <-. cbn [cur base eTagFound set_cur].
    split_and!; [lia|by etransitivity|]. intros _. by replace (cur xb2 + 1 - 1) with (cur xb2) by lia.
Qed.

Lemma memmove_frame c b dst src n b' : c <= dst -> memmove b dst src n = Some b' -> same_before c b b'.
Proof.
  intros Hc E. unfold memmove in E.
  destruct (Z.leb_spec 0 n); [|done]. destruct (Z.leb_spec 0 dst); [|done]. destruct (Z.leb_spec 0 src); [|done].
  destruct (Z.leb_spec (src + n) (strlen b)); [|done]. destruct (Z.leb_spec (dst + n) (strlen b)); [|done].
  injection E as <-. unfold strlen in *. split.
  - rewrite !length_app, length_take, length_take, length_drop. unfold rest_at. rewrite length_drop. lia.
  - rewrite take_app_le by (rewrite length_take; lia). rewrite take_take. f_equal. lia.
Qed.

Lemma find_escape_in tab s e c : find_escape tab s = Some (e, c) -> In (e, c) tab.
Proof.
  induction tab as [|[e' c'] tab IH]; [done|]. cbn [find_escape]. destruct (_ =? 0).
  - intros [= -> ->]. by left.
  - intros H. right. by apply IH.
Qed.

Lemma put_char_frame b buf end_ c n k b' : 0 <= buf -> 1 <= n -> put_char b buf end_ c n = Some (k, b') ->
  same_before buf b b' /\ k = n - 1 /\ k <= end_ - buf /\ end_ < strlen b.
Proof.
  intros Hb Hn H. unfold put_char in H. destruct (memmove _ _ _ _) as [b1|] eqn:Em; [|done]. injection H as <- <-. split_and!.
  - transitivity (<[Z.to_nat buf := c]> b); [apply same_before_insert; lia|]. eapply memmove_frame; [|exact Em]. lia.
  - done.
  - unfold memmove in Em. destruct (Z.leb_spec 0 (end_ - buf - n + 1)); [lia|done].
  - unfold memmove in Em. do 3 (destruct (_ <=? _); [|done]). cbn [andb] in Em.
    destruct (Z.leb_spec (buf + n + (end_ - buf - n + 1)) (strlen (<[Z.to_nat buf := c]> b))) as [Hl|]; [|done].
    unfold strlen in *. rewrite length_insert in Hl. lia.
Qed.

Lemma xmlUnescape_frame b buf end_ k b' : 0 <= buf -> xmlUnescape b buf end_ = Some (k, b') ->
  same_before buf b b' /\ 0 <= k /\ (k = 0 \/ k <= end_ - buf /\ end_ < strlen b).
Proof.
  intros Hbuf E. unfold xmlUnescape in E.
  assert (Same : Some (0, b) = Some (k, b') -> same_before buf b b' /\ 0 <= k /\ (k = 0 \/ k <= end_ - buf /\ end_ < strlen b)).
  { intros [= <- <-]. split; [done|]. split; [done|by left]. }
  destruct (strlen b <=? buf + 2); [done|]. destruct (strchr _ 59) as [after|]; [|by apply Same].
  destruct (match strchr _ 38 with Some _ => _ | None => _ end); [by apply Same|].
  destruct (MAX_UNESC_CHAR_LEN <=? _); [by apply Same|].
  destruct (cell b (buf + 1)) as [c1|]; [|done]. cbn [mbind option_bind] in E. destruct (c1 =? 35).
  - destruct (sscanf_int _ _) as [v|]; [|by apply Same]. set (e := cut _ _) in *. pose proof (strlen_nonneg e).
    apply put_char_frame in E as (S & -> & Hk & He); [|done|lia]. split; [done|]. split; [lia|by right].
  - destruct (find_escape _ _) as [[e c]|] eqn:Hf; [|by apply Same].
    assert (1 <= strlen e) by (apply find_escape_in in Hf; cbn [In xmlEscapeTab] in Hf; decompose [or] Hf; by simplify_eq).
    apply put_char_frame in E as (S & -> & Hk & He); [|done|lia]. split; [done|]. split; [lia|by right].
Qed.

Lemma unescape_loop_frame fuel : forall b help end_ b' e', 0 <= help ->
  unescape_loop fuel b help end_ = Some (b', e') -> same_before help b b'.
Proof.
  induction fuel as [|fuel IH]; intros b help end_ b' e' Hh E; cbn [unescape_loop] in E.
  { destruct (help <? end_); [done|]. by injection E as <- <-. }
  destruct (help <? end_); [|by injection E as <- <-].
  destruct (cell b help) as [c|]; [|done]. cbn [mbind option_bind] in E. destruct (c =? 38).
  - destruct (xmlUnescape b help end_) as [[k b1]|] eqn:Eu; [|done]. cbn [mbind option_bind] in E.
    apply xmlUnescape_frame in Eu as [Eu _]; [|done]. apply IH in E; [|lia].
    transitivity b1; [done|]. eapply same_before_le; [|exact E]. lia.
  - apply IH in E; [|lia]. eapply same_before_le; [|exact E]. lia.
Qed.

Lemma cell_same_before c b b' p : same_before c b b' -> p < c -> cell b' p = cell b p.
Proof.
  intros [_ H] Hp. unfold cell. destruct (Z.ltb_spec p 0); [done|].
  rewrite <- (lookup_take_lt b' (Z.to_nat c)), <- (lookup_take_lt b (Z.to_nat c)) by lia. by rewrite H.
Qed.

(** Blanks are not trimmed beyond the end of the tag. *)
Lemma trim_end_frame s fuel : forall b end_ b' e', 0 <= s <= end_ -> cell b (s - 1) = Some 62 ->
  trim_end fuel b end_ = Some (b', e') -> same_before s b b'.
Proof.
  induction fuel as [|fuel IH]; intros b end_ b' e' Hs H62 E; cbn [trim_end] in E; [done|].
  destruct (cell b (end_ - 1)) as [c|] eqn:Ec; [|done]. cbn [mbind option_bind] in E.
  destruct (blank c) eqn:Hb; [|by injection E as <- <-].
  assert (s <> end_). { intros ->. rewrite H62 in Ec. by injection Ec as <-. }
  pose proof (same_before_insert s (end_ - 1) 0 b ltac:(lia)) as Hi.
  transitivity (<[Z.to_nat (end_ - 1) := 0]> b); [done|]. apply IH in E; [done|lia|].
  rewrite (cell_same_before s b); [done|done|lia].
Qed.

Lemma getContent_frame trimws c xb r xb' : 0 <= c <= cur xb ->
  (eTagFound xb = false -> cell (base xb) (cur xb - 1) = Some 62) -> getContent trimws xb = Ret r xb' ->
  cur xb <= cur xb' /\ same_before c (base xb) (base xb') /\ eTagFound xb' = eTagFound xb.
Proof.
  intros Hc H62 E. unfold getContent in E. rewrite bind_get in E. destruct (eTagFound xb) eqn:Ht.
  { injection E as <- <-. split_and!; [lia|done|done]. }
  destruct (in_buffer xb (cur xb)) eqn:Hi; [|done]. cbn [negb] in E.
  set (end_ := cur xb + _) in *. assert (He : cur xb <= end_) by (unfold end_; lia). clearbody end_.
  apply bind_inv in E as (d & xb1 & E1 & E). apply rd_inv in E1 as [-> _]. rewrite !bind_modify in E.
  apply bind_inv in E as (u & xb2 & E2 & E). apply wr_inv in E2 as ->. rewrite bind_get in E.
  cbn [base set_base set_nulled set_cur] in E. set (b0 := <[Z.to_nat end_ := 0]> (base xb)) in *.
  assert (S0 : same_before (cur xb) (base xb) b0) by (apply same_before_insert; lia).
  destruct (if trimws then trim_end _ b0 end_ else Some (b0, end_)) as [[b1 end1]|] eqn:Etrim; [|done].
  assert (S1 : same_before (cur xb) b0 b1).
  { destruct trimws; [|by injection Etrim as <- <-]. eapply trim_end_frame; [|  |exact Etrim]; [lia|].
    rewrite (cell_same_before (cur xb) (base xb)); [by apply H62|done|lia]. }
  set (start1 := if trimws then (_ : Z) else _) in E. assert (Hst : cur xb <= start1) by (unfold start1; destruct trimws; lia).
  clearbody start1. destruct (unescape_loop _ b1 start1 end1) as [[b2 e2]|] eqn:Eu; [|done].
  rewrite bind_modify in E. injection E as <- <-. cbn [cur base eTagFound set_base set_nulled set_cur].
  split_and!; [lia| |done]. apply unescape_loop_frame in Eu; [|lia].
  transitivity b0; [eapply same_before_le; [|exact S0]; lia|].
  transitivity b1; [eapply same_before_le; [|exact S1]; lia|eapply same_before_le; [|exact Eu]; lia].
Qed.

(** ** The functions of the elements *)

(** What holds when a call at [c] returns a token. *)
Definition advanced (c : Z) (p p' : ParserControl) : Prop :=
  cur (xmb p) <= cur (xmb p') /\ same_before c (base (xmb p)) (base (xmb p')).

#[export] Instance advanced_preorder c : PreOrder (advanced c).
Proof.
  split; [intros p; split; [lia|done]|]. intros p q r [H1 H2] [H3 H4]. split; [lia|by transitivity (base (xmb q))].
Qed.

(** The rest of a function behind the tag, when it returns a token. *)
Definition element_keeps (k : parse lexed) : Prop := forall c p z v p',
  0 <= c <= cur (xmb p) -> (eTagFound (xmb p) = false -> cell (base (xmb p)) (cur (xmb p) - 1) = Some 62) ->
  k p = Ret (Some z, v) p' -> advanced c p p'.

Lemma on_xmb_inv {A} (m : scan A) p a p' : on_xmb m p = Ret a p' -> exists xb, m (xmb p) = Ret a xb /\ p' = set_xmb xb p.
Proof. unfold on_xmb. destruct (m (xmb p)) as [a' xb| |]; [|done|done]. intros [= <- <-]. by exists xb. Qed.

Lemma set_xmb_same p : set_xmb (xmb p) p = p.
Proof. by destruct p. Qed.

Lemma skipWS_inv xb u xb' : skipWS xb = Ret u xb' -> base xb' = base xb /\ cur xb <= cur xb'.
Proof.
  intros E. unfold skipWS in E. rewrite bind_get in E.
  destruct (in_buffer xb (cur xb)); [|done]. injection E as <- <-. cbn. split; [done|lia].
Qed.

Lemma tagEquals_frame tag c xb xb' : 0 <= c <= cur xb + 1 -> 0 <= cur xb -> tagEquals tag xb = Ret true xb' ->
  cur xb + 1 <= cur xb' /\ same_before c (base xb) (base xb').
Proof.
  intros Hc H0 E. unfold tagEquals in E. rewrite bind_get in E. apply bind_inv in E as (d & xb1 & E1 & E).
  apply rd_inv in E1 as [-> _]. destruct (d =? 0).
  - rewrite bind_modify in E. apply bind_inv in E as (u & xb2 & E2 & E). apply skipWS_inv in E2 as [B2 C2].
    rewrite bind_mret in E. apply bind_inv in E as (f & xb3 & E3 & E). cbn [cur base set_cur] in *.
    apply bind_inv in E3 as (u' & xb4 & E4 & E3). apply skipWS_inv in E4 as [B4 C4].
    assert (Hx : 0 <= c <= cur xb4) by lia. destruct (keeps_getWord _ _ c _ _ _ Hx E3) as [C3 S3].
    destruct f; [|done]. injection E as <-. rewrite B4, B2 in S3. split; [lia|done].
  - rewrite bind_mret in E. apply bind_inv in E as (u & xb2 & E2 & E). apply skipWS_inv in E2 as [B2 C2].
    apply bind_inv in E as (open & xb3 & E3 & E). apply bind_inv in E3 as (e & xb4 & E4 & E3). injection E3 as <- <-.
    apply bind_inv in E as (f & xb5 & E5 & E). destruct (Z.eqb_spec e 0) as [->|He]; cbn [negb] in E5.
    { injection E5 as <- <-. done. }
    destruct (getChar_inv _ _ _ _ E4 He) as (-> & -> & _). apply bind_inv in E5 as (u' & xb6 & E6 & E5).
    apply skipWS_inv in E6 as [B6 C6]. cbn [cur base set_cur] in *.
    assert (Hx : 0 <= c <= cur xb6) by lia. destruct (keeps_getWord _ _ c _ _ _ Hx E5) as [C5 S5].
    destruct f; [|done]. injection E as <-. rewrite B6, B2 in S5. split; [lia|done].
Qed.

(** A function of an element advances when its rest does. *)
Lemma element_frame tag elm z k c p tok v p' : 0 <= c <= cur (xmb p) + 1 -> 0 <= cur (xmb p) ->
  (forall r, element_keeps (k r)) -> element tag elm z k p = Ret (Some tok, v) p' ->
  cur (xmb p) + 1 <= cur (xmb p') /\ same_before c (base (xmb p)) (base (xmb p')).
Proof.
  intros Hc H0 Hk E. unfold element in E. apply bind_inv in E as (f & p1 & E1 & E).
  apply on_xmb_inv in E1 as (xb1 & E1 & ->). destruct f; [|done].
  apply (tagEquals_frame _ c) in E1 as [C1 S1]; [|done|done].
  apply bind_inv in E as (r & p2 & E2 & E). apply on_xmb_inv in E2 as (xb2 & E2 & ->). cbn [xmb set_xmb] in E2.
  assert (Hx : 0 <= c <= cur xb1) by lia. destruct (attrsOk_frame _ _ _ c _ _ _ Hx E2) as (C2 & S2 & H62).
  apply (Hk r c) in E as [C3 S3]; [|cbn; lia|exact H62]. cbn [xmb set_xmb] in C3, S3. split; [lia|].
  etransitivity; [exact S1|etransitivity; [exact S2|exact S3]].
Qed.

(** Computations that leave the buffer as it is. *)
Definition reads_only {A} (m : parse A) : Prop := forall p a p', m p = Ret a p' -> xmb p' = xmb p.

Lemma ro_ret {A} (a : A) : reads_only (mret a).
Proof. by intros p b p' [= <- <-]. Qed.
Lemma ro_bind {A B} (m : parse A) (f : A -> parse B) : reads_only m -> (forall a, reads_only (f a)) -> reads_only (m ≫= f).
Proof. intros Hm Hf p b p' E. apply bind_inv in E as (a & p1 & E1 & E2). by rewrite (Hf _ _ _ _ E2), (Hm _ _ _ E1). Qed.
Lemma ro_throw {A} : reads_only (Throw : parse A).
Proof. by intros p a p'. Qed.
Lemma ro_chars p : reads_only (chars p).
Proof.
  destruct p; cbn [chars]; [by intros p a p'| |by intros p' a p'']. intros q a q' E.
  apply on_xmb_inv in E as (xb & E & ->). by apply rd_str_inv in E as [-> _].
Qed.
Lemma ro_set_id i : reads_only (modify (set_id i)).
Proof. by intros p a p' [= <- <-]. Qed.
Lemma ro_set_iMethod i : reads_only (modify (set_iMethod i)).
Proof. by intros p a p' [= <- <-]. Qed.
#[export] Hint Resolve ro_ret ro_throw ro_chars ro_set_id ro_set_iMethod : frame.

Ltac reads_only :=
  repeat match goal with
    | |- reads_only (_ ≫= _) => apply ro_bind; [|intros ?]
    | |- reads_only (match ?x with _ => _ end) => destruct x
    | |- reads_only _ => solve [auto with frame]
    end.

Lemma ro_truth d p : reads_only (truth d p).
Proof. unfold truth. reads_only. Qed.
Lemma ro_type_attr d p : reads_only (type_attr d p).
Proof. unfold type_attr. reads_only. Qed.
Lemma ro_embedded_origin e o : reads_only (embedded_origin e o).
Proof. unfold embedded_origin, is_embedded. reads_only. Qed.
#[export] Hint Resolve ro_truth ro_type_attr ro_embedded_origin : frame.

Lemma ro_keeps k : reads_only k -> element_keeps k.
Proof. intros H c p z v p' Hc _ E. apply H in E. unfold advanced. rewrite E. split; [lia|done]. Qed.

(** The rest that reads the text. *)
Lemma content_keeps trimws (f : ptr -> lexed) : element_keeps (v ← on_xmb (getContent trimws); mret (f v)).
Proof.
  intros c p z v p' Hc H62 E. apply bind_inv in E as (a & p1 & E1 & E). injection E as _ <-.
  apply on_xmb_inv in E1 as (xb & E1 & ->). destruct (getContent_frame trimws c _ _ _ Hc H62 E1) as (C & S & _). by split.
Qed.

Lemma unescape_pad_frame fuel : forall b help end_ b', 0 <= help -> unescape_pad fuel b help end_ = Some b' ->
  same_before help b b'.
Proof.
  induction fuel as [|fuel IH]; intros b help end_ b' Hh E; cbn [unescape_pad] in E.
  { destruct (help <? end_); [done|]. by injection E as <-. }
  destruct (Z.ltb_spec help end_); [|by injection E as <-].
  destruct (cell b help) as [c|] eqn:Hc; [|done]. cbn [mbind option_bind] in E. destruct (c =? 38).
  - destruct (xmlUnescape b help end_) as [[k b1]|] eqn:Eu; [|done]. cbn [mbind option_bind] in E.
    apply xmlUnescape_frame in Eu as ([L1 T1] & Hk & Hor); [|done]. apply IH in E; [|lia].
    transitivity b1; [by split|]. eapply same_before_le in E; [|instantiate (1 := help); lia].
    etransitivity; [|exact E]. unfold strlen in *. split.
    + rewrite !length_app, length_take, length_replicate, length_drop. destruct Hor as [-> | [? ?]]; lia.
    + destruct Hor as [-> |[? ?]]; [|rewrite take_app_le by (rewrite length_take; lia); rewrite take_take; f_equal; lia].
      rewrite Z.sub_0_r, Z.add_0_r. change (replicate (Z.to_nat 0) 32) with (@nil Z). cbn [app]. by rewrite take_drop.
  - apply IH in E; [|lia]. eapply same_before_le; [|exact E]. lia.
Qed.

Lemma unescape_embedded_keeps : keeps 0 unescape_embedded.
Proof.
  intros c xb a xb' Hc E. unfold unescape_embedded in E. rewrite bind_get in E.
  apply bind_inv in E as (s & xb1 & E1 & E). apply rd_str_inv in E1 as (-> & _ & _).
  destruct (strstr _ _) as [e|]; [|injection E as <- <-; split; [lia|done]].
  destruct (unescape_pad _ _ _ _) as [b|] eqn:Eu; [|done]. injection E as <- <-. cbn [cur base set_base].
  split; [lia|]. apply unescape_pad_frame in Eu; [|lia]. eapply same_before_le; [|exact Eu]. lia.
Qed.

(** Parts of a function that keep what was written, in any order. *)
Definition pkeeps {A} (m : parse A) : Prop := forall c p a p', 0 <= c <= cur (xmb p) -> m p = Ret a p' -> advanced c p p'.

Lemma pkeeps_ro {A} (m : parse A) : reads_only m -> pkeeps m.
Proof. intros H c p a p' Hc E. apply H in E. unfold advanced. rewrite E. split; [lia|done]. Qed.
Lemma pkeeps_bind {A B} (m : parse A) (f : A -> parse B) : pkeeps m -> (forall a, pkeeps (f a)) -> pkeeps (m ≫= f).
Proof.
  intros Hm Hf c p b p' Hc E. apply bind_inv in E as (a & p1 & E1 & E2). apply (Hm c) in E1; [|done].
  apply (Hf a c) in E2; [|destruct E1; lia]. by transitivity p1.
Qed.
Lemma pkeeps_on_xmb {A} (m : scan A) : keeps 0 m -> pkeeps (on_xmb m).
Proof.
  intros Hm c p a p' Hc E. apply on_xmb_inv in E as (xb & E & ->). destruct (Hm c _ _ _ Hc E) as [C S].
  split; [cbn; lia|exact S].
Qed.
Lemma pkeeps_element (k : parse lexed) : pkeeps k -> element_keeps k.
Proof. intros H c p z v p' Hc _ E. by apply (H c) in E. Qed.

Lemma paramvalue_frame c p tok v p' : 0 <= c <= cur (xmb p) + 1 -> 0 <= cur (xmb p) ->
  procParamValue p = Ret (Some tok, v) p' ->
  cur (xmb p) + 1 <= cur (xmb p') /\ same_before c (base (xmb p)) (base (xmb p')).
Proof.
  intros Hc H0 E. unfold procParamValue in E. apply (element_frame _ _ _ _ c) in E; [done|done|done|].
  intros r. apply pkeeps_element. apply pkeeps_bind; [apply pkeeps_ro; unfold type_attr; reads_only|]. intros type.
  destruct (attr r 2); [apply pkeeps_ro; reads_only| |]; unfold is_embedded;
    (apply pkeeps_bind; [apply pkeeps_ro; reads_only|]; intros [|]; [|apply pkeeps_ro; reads_only]);
    (apply pkeeps_bind; [apply pkeeps_on_xmb, unescape_embedded_keeps|intros _; apply pkeeps_ro; reads_only]).
Qed.

Lemma cdata_frame c p tok v p' : 0 <= c <= cur (xmb p) + 1 -> 0 <= cur (xmb p) ->
  procCdata p = Ret (Some tok, v) p' ->
  cur (xmb p) + 1 <= cur (xmb p') /\ same_before c (base (xmb p)) (base (xmb p')).
Proof.
  intros Hc H0 E. unfold procCdata in E. apply bind_inv in E as (f & p1 & E1 & E).
  apply on_xmb_inv in E1 as (xb1 & E1 & ->). destruct f; [|done].
  apply (tagEquals_frame _ c) in E1 as [C1 S1]; [|done|done].
  apply bind_inv in E as (u & p2 & E2 & E). apply on_xmb_inv in E2 as (xb2 & E2 & ->). cbn [xmb set_xmb] in E2.
  rewrite bind_get in E2. apply wr_inv in E2 as ->.
  apply bind_inv in E as (r & p3 & E3 & E). apply on_xmb_inv in E3 as (xb3 & E3 & ->). cbn [xmb set_xmb] in E3.
  assert (Hx : 0 <= c <= cur (set_base (<[Z.to_nat (cur xb1):=62]> (base xb1)) xb1)) by (cbn; lia).
  destruct (attrsOk_frame _ _ _ c _ _ _ Hx E3) as (C3 & S3 & _). cbn [cur base set_base] in C3, S3.
  rewrite bind_get in E. apply bind_inv in E as (s & p4 & E4 & E). apply on_xmb_inv in E4 as (xb4 & E4 & ->).
  apply rd_str_inv in E4 as (-> & _ & _). cbn [xmb set_xmb] in E. destruct (strstr s (cstr "]]>")) as [e|]; [|done].
  set (w := cur xb3 + strlen (cut s e)) in *. assert (Hw : cur xb3 <= w) by (unfold w; pose proof (strlen_nonneg (cut s e)); lia).
  clearbody w. apply bind_inv in E as (u1 & p5 & E5 & E). apply on_xmb_inv in E5 as (xb5 & E5 & ->). apply wr_inv in E5 as ->.
  apply bind_inv in E as (u2 & p6 & E6 & E). apply on_xmb_inv in E6 as (xb6 & E6 & ->). apply wr_inv in E6 as ->.
  injection E as _ _ <-. cbn [xmb set_xmb cur base set_base]. split; [lia|].
  transitivity (base xb1); [exact S1|]. transitivity (<[Z.to_nat (cur xb1):=62]> (base xb1)); [apply same_before_insert; lia|].
  transitivity (base xb3); [exact S3|]. transitivity (<[Z.to_nat w:=60]> (base xb3)); apply same_before_insert; lia.
Qed.

(** Every function of the table takes at least one character for its token, and writes
    behind that character only. *)
Lemma proc_frame trimws nm f z c p tok v p' : In (nm, f, z) (tags trimws) ->
  0 <= c <= cur (xmb p) + 1 -> 0 <= cur (xmb p) -> f p = Ret (Some tok, v) p' ->
  cur (xmb p) + 1 <= cur (xmb p') /\ same_before c (base (xmb p)) (base (xmb p')).
Proof.
  intros Hin Hc H0 E. unfold tags in Hin.
  each_tag Hin; try (by eapply cdata_frame); try (by eapply paramvalue_frame);
    (match type of E with ?g _ = _ => try unfold g in E end; try rewrite bind_modify in E;
    apply (element_frame _ _ _ _ c) in E; [done|done|done|]; intros r;
    first [apply content_keeps | apply ro_keeps; reads_only]).
Qed.

(** ** [yylex] *)

Lemma nextTag_inv xb n xb' : nextTag xb = Ret n xb' ->
  base xb' = base xb /\ cur xb <= cur xb' /\ eTagFound xb' = eTagFound xb /\ (n = None \/ n = Some (cur xb' + 1)).
Proof.
  intros E. unfold nextTag in E. rewrite bind_get in E. destruct (negb _).
  { rewrite bind_modify in E. injection E as <- <-. cbn. split_and!; first [done|lia|by right]. }
  apply bind_inv in E as (u & xb1 & E1 & E). rewrite bind_get in E. apply bind_inv in E as (c & xb2 & E2 & E).
  apply rd_inv in E2 as [-> _]. injection E as <- <-.
  assert (Ht : eTagFound xb1 = eTagFound xb).
  { unfold skipWS in E1. rewrite bind_get in E1. destruct (in_buffer _ _); [|done]. by injection E1 as <- <-. }
  apply skipWS_inv in E1 as [B C]. split_and!; try done. destruct (c =? 60); [by right|by left].
Qed.

Lemma skipTag_inv xb c xb' : skipTag xb = Ret c xb' -> base xb' = base xb /\ cur xb + 1 <= cur xb' /\ eTagFound xb' = eTagFound xb.
Proof.
  intros E. unfold skipTag in E. rewrite bind_get in E. destruct (in_buffer xb (cur xb)); [|done].
  rewrite bind_modify, bind_get in E. apply rd_inv in E as [-> _]. cbn. split_and!; [done|lia|done].
Qed.

Lemma find_tag_in trimws n f z : find_tag (tags trimws) n = Some (f, z) -> exists nm, In (nm, f, z) (tags trimws).
Proof.
  induction (tags trimws) as [|[[t f'] z'] l IH]; [done|]. cbn [find_tag]. destruct (nextEquals n (cstr t)).
  - intros [= -> ->]. exists t. by left.
  - intros [nm H]%IH. exists nm. by right.
Qed.

(** What a token takes: a character, or the end of an empty element that was pending. *)
Definition took (p p' : ParserControl) : Prop :=
  cur (xmb p) <= last (xmb p) /\ cur (xmb p) + 1 <= cur (xmb p') \/
  cur (xmb p) <= cur (xmb p') /\ eTagFound (xmb p) = true /\ eTagFound (xmb p') = false.

Lemma in_buffer_last xb n : in_buffer xb n = true -> n <= last xb.
Proof. unfold in_buffer. intros [_ H%Z.leb_le]%andb_true_iff. done. Qed.

Lemma yylex_loop_frame trimws fuel : forall p tok v p', 0 <= cur (xmb p) ->
  yylex_loop trimws fuel p = Ret (Some tok, v) p' ->
  took p p' /\ same_before (cur (xmb p) + 1) (base (xmb p)) (base (xmb p')).
Proof.
  induction fuel as [|fuel IH]; intros p tok v p' H0 E; cbn [yylex_loop] in E.
  all: apply bind_inv in E as (n & p1 & E1 & E); apply on_xmb_inv in E1 as (xb1 & E1 & ->).
  all: (apply nextTag_inv in E1 as (B1 & C1 & T1 & [-> | ->]); [done|]); rewrite bind_get in E; cbn [xmb set_xmb] in E.
  all: assert (L1 : last xb1 = last (xmb p)) by (unfold last; by rewrite B1).
  all: destruct (eTagFound xb1) eqn:Ht; [unfold set_xmb in E; cbn in E; injection E as Ez <- <-; cbn; rewrite B1; split; [by right|done]|].
  all: apply bind_inv in E as (s & p2 & E2 & E); apply on_xmb_inv in E2 as (xb2 & E2 & ->);
    apply rd_str_inv in E2 as (-> & Hin & _); apply in_buffer_last in Hin; cbn [xmb set_xmb] in *.
  all: destruct (at0 s =? 47).
  1, 3: destruct (find_tag (tags trimws) (drop 1 s)) as [[f z]|]; [|done];
    apply bind_inv in E as (c & p3 & E3 & E); apply on_xmb_inv in E3 as (xb3 & E3 & ->);
    apply skipTag_inv in E3 as (B3 & C3 & _); injection E as _ _ <-; unfold took; cbn [xmb set_xmb] in *; rewrite B3, B1;
    split; [left; lia|done].
  all: apply bind_inv in E as (c & p3 & E3 & E); apply on_xmb_inv in E3 as (xb3 & E3 & ->);
    apply rd_str_inv in E3 as (-> & _ & _); cbn [xmb set_xmb] in *; destruct (strncmp c (cstr "<!--") 4 =? 0).
  2, 4: destruct (find_tag (tags trimws) s) as [[f z]|] eqn:Hf; [|done]; apply find_tag_in in Hf as [nm Hf];
    (apply (proc_frame trimws nm f z (cur (xmb p) + 1)) in E as [C S]; [|done|cbn; lia|cbn; lia]);
    unfold took; cbn [xmb set_xmb] in *; rewrite B1 in S; split; [left; lia|done].
  - done.
  - destruct (strstr c (cstr "-->")) as [e|]; [|done].
    apply bind_inv in E as (u & p4 & E4 & E). injection E4 as _ <-. pose proof (strlen_nonneg (cut c e)).
    apply IH in E as [Ht' S]; [|cbn [xmb set_xmb cur set_cur]; lia].
    unfold took in *. cbn [xmb set_xmb cur base set_cur] in *. rewrite B1 in S.
    split; [|eapply same_before_le; [|exact S]; lia]. left. destruct Ht' as [[_ C]|[C _]]; lia.
Qed.

Lemma yylex_frame trimws p tok v p' : 0 <= cur (xmb p) -> yylex trimws p = Ret (Some tok, v) p' ->
  took p p' /\ same_before (cur (xmb p) + 1) (base (xmb p)) (base (xmb p')).
Proof. unfold yylex. rewrite bind_get. apply yylex_loop_frame. Qed.

(** The tokens that are still to come. *)
Definition remaining (p : ParserControl) : Z :=
  2 * Z.max 0 (last (xmb p) + 1 - cur (xmb p)) + (if eTagFound (xmb p) then 1 else 0).

Lemma same_before_last c xb xb' : same_before c (base xb) (base xb') -> last xb' = last xb.
Proof. intros [H _]. unfold last, strlen. by rewrite H. Qed.

Lemma took_remaining c p p' : took p p' -> same_before c (base (xmb p)) (base (xmb p')) -> remaining p' + 1 <= remaining p.
Proof.
  intros Ht S. apply same_before_last in S. unfold remaining. rewrite S.
  destruct Ht as [[? ?]|(? & -> & ->)]; [|lia]. destruct (eTagFound (xmb p)), (eTagFound (xmb p')); lia.
Qed.

(** The fuel of [yylex_loop] is enough: with more it does the same. *)
Lemma yylex_loop_enough trimws k1 : forall k2 p, 0 <= cur (xmb p) ->
  last (xmb p) + 1 - cur (xmb p) <= Z.of_nat k1 -> last (xmb p) + 1 - cur (xmb p) <= Z.of_nat k2 ->
  yylex_loop trimws k1 p = yylex_loop trimws k2 p.
Proof.
  induction k1 as [|k1 IH]; intros k2 p H0 H1 H2; (destruct k2 as [|k2]; [|]); cbn [yylex_loop]; try reflexivity.
  all: unfold mbind, M_bind; destruct (on_xmb nextTag p) as [n p1| |] eqn:E1; try reflexivity;
    apply on_xmb_inv in E1 as (xb1 & E1 & ->); apply nextTag_inv in E1 as (B1 & C1 & _ & [-> | ->]); [reflexivity|];
    cbn [get]; destruct (eTagFound _); [reflexivity|];
    match goal with |- context [on_xmb (rd_str ?n) ?p] => destruct (on_xmb (rd_str n) p) as [u p2| |] eqn:E2 end;
    try reflexivity; apply on_xmb_inv in E2 as (xb2 & E2 & ->); apply rd_str_inv in E2 as (-> & Hin & _);
    apply in_buffer_last in Hin; assert (L1 : last xb1 = last (xmb p)) by (unfold last; by rewrite B1); cbn [xmb set_xmb] in *.
  1, 2: exfalso; lia.
  destruct (at0 u =? 47); [reflexivity|].
  match goal with |- context [on_xmb (rd_str ?n) ?p] => destruct (on_xmb (rd_str n) p) as [c p3| |] eqn:E3 end; try reflexivity.
  apply on_xmb_inv in E3 as (xb3 & E3 & ->); apply rd_str_inv in E3 as (-> & _ & _). cbn [xmb set_xmb] in *.
  destruct (strncmp c (cstr "<!--") 4 =? 0); [|reflexivity]. destruct (strstr c (cstr "-->")) as [e|]; [|reflexivity].
  cbn. pose proof (strlen_nonneg (cut c e)). apply IH; unfold last in *; cbn; lia.
Qed.

Lemma yylex_enough trimws p k : 0 <= cur (xmb p) -> (length (base (xmb p)) <= k)%nat ->
  yylex_loop trimws k p = yylex trimws p.
Proof.
  intros H0 Hk. unfold yylex. rewrite bind_get. apply yylex_loop_enough; [done| |]; unfold last, strlen; lia.
Qed.

(** C18: the scanner comes to an end: the fuel of a token is enough, and however long the
    grammar goes on asking for tokens, it gets at most two for every character that is
    left (one is the end of an empty element).  [n] is any number of calls. *)
Theorem lex_terminates trimws p : 0 <= cur (xmb p) ->
  (forall k, (length (base (xmb p)) <= k)%nat -> yylex_loop trimws k p = yylex trimws p) /\
  (forall n ts p', lex trimws n p = Ret ts p' -> Z.of_nat (length ts) <= remaining p).
Proof.
  intros H0. split; [by intros; apply yylex_enough|]. intros n. revert p H0.
  induction n as [|n IH]; intros p H0 ts p' E; cbn [lex] in E.
  { injection E as <- _. unfold remaining. cbn. destruct (eTagFound (xmb p)); lia. }
  apply bind_inv in E as ([[tok|] v] & p1 & E1 & E); cbn [fst] in E.
  - apply bind_inv in E as (ts1 & p2 & E2 & E). injection E as <- <-.
    apply yylex_frame in E1 as [Ht S]; [|done]. pose proof (took_remaining _ _ _ Ht S).
    apply IH in E2; [cbn; lia|]. destruct Ht as [[? ?]|[? _]]; lia.
  - injection E as <- _. unfold remaining. cbn. destruct (eTagFound (xmb p)); lia.
Qed.

Definition wit_control : ParserControl := newParserControl (cstr "<VALUE>a&lt;b</VALUE>").

Lemma lex_terminates_witness : 0 <= cur (xmb wit_control) /\ yylex_loop true 100 wit_control = yylex true wit_control /\
  exists ts p', lex true 5 wit_control = Ret ts p' /\ Z.of_nat (length ts) <= remaining wit_control.
Proof.
  assert (H0 : 0 <= cur (xmb wit_control)) by (vm_compute; discriminate).
  destruct (lex_terminates true wit_control H0) as [T1 T2]. split; [exact H0|]. split.
  - apply T1. vm_compute. repeat constructor.
  - eexists _, _. split; [vm_compute; reflexivity|]. eapply (T2 5%nat). vm_compute. reflexivity.
Defined.

(** what the scanner has passed stays as it is: the tokens that come later change no
    character up to the cursor, where the texts lie that it has handed out. *)
Theorem lex_keeps_texts trimws n p ts p' : 0 <= cur (xmb p) ->
  lex trimws n p = Ret ts p' -> length ts = n ->
  same_before (cur (xmb p) + 1) (base (xmb p)) (base (xmb p')).
Proof.
  revert p ts. induction n as [|n IH]; intros p ts H0 E Hn; cbn [lex] in E.
  { by injection E as _ <-. }
  apply bind_inv in E as ([[tok|] v] & p1 & E1 & E); cbn [fst] in E; [|injection E as <- _; done].
  apply bind_inv in E as (ts1 & p2 & E2 & E). injection E as <- <-. injection Hn as Hn.
  apply yylex_frame in E1 as [Ht S]; [|done]. assert (cur (xmb p) <= cur (xmb p1)) by (destruct Ht as [[? ?]|[? _]]; lia).
  apply IH in E2; [|lia|done]. transitivity (base (xmb p1)); [done|]. eapply same_before_le; [|exact E2]. lia.
Qed.

Lemma lex_keeps_texts_witness : exists ts p', lex true 2 wit_control = Ret ts p' /\ length ts = 2%nat /\
  same_before 1 (base (xmb wit_control)) (base (xmb p')).
Proof.
  eexists _, _. split; [vm_compute; reflexivity|]. split; [vm_compute; reflexivity|].
  eapply (lex_keeps_texts true 2 wit_control); [vm_compute; discriminate|vm_compute; reflexivity|vm_compute; reflexivity].
Defined.
