(* ===== verification/XmlGen.v ===== *)
(** * Printing CIM-XML (cimXmlGen.c)

    Instances, object paths, classes and qualifier declarations as the XML of a response.
    The objects are given as trees: what the accessors of the CMPI objects return one
    after the other.  A printed text is what is appended to the string buffer; [None]
    is the [abort] for a type that cannot be printed, or a null object. *)

From Stdlib Require Import Floats.SpecFloat.
From S2P Require Import Prelude CString CmpiData XmlScanner XmlTokens.

(** ** Escaping *)

Definition escaped (c : Z) : bytes :=
  if c =? 62 then cstr "&gt;"
  else if c =? 60 then cstr "&lt;"
  else if c =? 38 then cstr "&amp;"
  else if c =? 34 then cstr "&quot;"
  else if c =? 39 then cstr "&apos;"
  else [c].

(** The length of the CDATA section that begins here, if there is one. *)
Definition cdata_length (s : bytes) : option nat :=
  if (at0 s =? 60) && (at0 (drop 1 s) =? 33) && (11 <? strlen s) && (strncmp s (cstr "<![CDATA[") 9 =? 0) then
    end_ ← strstr s (cstr "]]>"); Some (length (cut s end_) + 3)%nat
  else None.

(** A CDATA section is copied as it is; [fuel] is the length. *)
Fixpoint escape_loop (fuel : nat) (s : bytes) : bytes :=
  match fuel, s with
  | S fuel, c :: s' =>
      match cdata_length s with
      | Some n => take n s ++ escape_loop fuel (drop n s)
      | None => escaped c ++ escape_loop fuel s'
      end
  | _, _ => []
  end.
Definition XMLEscape (s : bytes) : bytes := escape_loop (length s) s.

(** ** Types *)

Definition dataType (t : CMPIType) : option bytes :=
  match t with
  | CMPI_chars | CMPI_string => Some (cstr "string")
  | CMPI_sint64 => Some (cstr "sint64")
  | CMPI_uint64 => Some (cstr "uint64")
  | CMPI_sint32 => Some (cstr "sint32")
  | CMPI_uint32 => Some (cstr "uint32")
  | CMPI_sint16 => Some (cstr "sint16")
  | CMPI_uint16 => Some (cstr "uint16")
  | CMPI_uint8 => Some (cstr "uint8")
  | CMPI_sint8 => Some (cstr "sint8")
  | CMPI_boolean => Some (cstr "boolean")
  | CMPI_char16 => Some (cstr "char16")
  | CMPI_real32 => Some (cstr "real32")
  | CMPI_real64 => Some (cstr "real64")
  | CMPI_dateTime => Some (cstr "datetime")
  | CMPI_ref => Some (cstr "*")
  | CMPI_instance => Some (cstr "%")
  | _ => None
  end.

Definition keyType (t : CMPIType) : option bytes :=
  match t with
  | CMPI_chars | CMPI_string | CMPI_dateTime => Some (cstr "string")
  | CMPI_sint64 | CMPI_uint64 | CMPI_sint32 | CMPI_uint32 | CMPI_sint16 | CMPI_uint16 | CMPI_uint8 | CMPI_sint8 =>
      Some (cstr "numeric")
  | CMPI_boolean => Some (cstr "boolean")
  | CMPI_ref => Some (cstr "*")
  | _ => None
  end.

Definition guessType (val : option bytes) : CMPIType :=
  match val with
  | None => CMPI_null
  | Some v =>
      let c := at0 v in
      if (((c =? 45) || (c =? 43)) && (1 <? strlen v)) || isdigit c then
        if forallb isdigit (drop 1 v) then if isdigit c then CMPI_uint64 else CMPI_sint64 else CMPI_string
      else if strcasecmp v (cstr "true") =? 0 then CMPI_boolean
      else if strcasecmp v (cstr "false") =? 0 then CMPI_boolean
      else CMPI_string
  end.

(** ** The objects *)

Inductive XData := XD (type : CMPIType) (array : bool) (state : Z) (value : XValue)
with XValue :=
| XWord (w : Z)
| XReal (d : spec_float)
| XChars (s : option bytes)
| XString (hdl : option bytes)
| XDate (s : option bytes)
| XRef (p : option XPath)
| XInst (i : option XInstance)
| XArray (items : option (list XData))
with XPath := XP (hostName nameSpace : option bytes) (className : bytes) (keys : list (bytes * XData))
with XInstance := XI (className : bytes) (quals : Z) (properties : list (bytes * bool * XData)).

Definition nl : bytes := [10].
Definition dq : bytes := [34].

Definition nonempty (s : option bytes) : bool := match s with Some (_ :: _) => true | _ => false end.

Fixpoint split_path (fuel : nat) (ns : bytes) : list bytes :=
  match fuel, strchr ns 47 with
  | S fuel, Some r => cut ns r :: split_path fuel (drop 1 r)
  | _, _ => [ns]
  end.

Definition lnsPath2xml (nameSpace : option bytes) : bytes :=
  match nameSpace with
  | Some ((_ :: _) as ns) =>
      cstr "<LOCALNAMESPACEPATH>" ++ nl ++
      concat ((fun n => cstr "<NAMESPACE NAME=" ++ dq ++ n ++ dq ++ cstr "/>" ++ nl) <$> split_path (length ns) ns) ++
      cstr "</LOCALNAMESPACEPATH>" ++ nl
  | _ => []
  end.

Section printing.
(** The text of a real number, and the name of this host for the host name of the request. *)
Context (print_real : CMPIType -> spec_float -> bytes) (getCustomHostname : option bytes -> bytes).

Definition nsPath2xml (hostName nameSpace : option bytes) (httpHost : option bytes) : bytes :=
  cstr "<NAMESPACEPATH>" ++ nl ++ cstr "<HOST>" ++
  (match hostName with Some ((_ :: _) as h) => h | _ => getCustomHostname httpHost end) ++
  cstr "</HOST>" ++ nl ++ lnsPath2xml nameSpace ++ cstr "</NAMESPACEPATH>" ++ nl.

Definition qualifier_text (name : string) : bytes :=
  cstr "<QUALIFIER NAME=" ++ dq ++ cstr name ++ dq ++ cstr " TYPE=" ++ dq ++ cstr "boolean" ++ dq ++ cstr ">" ++ nl ++
  cstr "<VALUE>TRUE</VALUE>" ++ nl ++ cstr "</QUALIFIER>" ++ nl.

(** The bits of a class, and of a property shifted by 8. *)
Definition quals2xml (quals : Z) : bytes :=
  (if Z.testbit quals 0 then qualifier_text "Abstract" else []) ++
  (if Z.testbit quals 1 then qualifier_text "Association" else []) ++
  (if Z.testbit quals 2 then qualifier_text "Indication" else []) ++
  (if Z.testbit quals 8 then qualifier_text "Key" else []) ++
  (if Z.testbit quals 11 then qualifier_text "EmbeddedObject" else []).

(** The texts of the items of a list, one after the other. *)
Definition all {A} (f : A -> option bytes) : list A -> option bytes :=
  fix go l := match l with [] => Some [] | a :: l => x ← f a; y ← go l; Some (x ++ y) end.

(** The bits and length of an integer type. *)
Definition int_text (t : CMPIType) (w : Z) : option bytes :=
  match t with
  | CMPI_uint8 => Some (print_dec (u8 w))
  | CMPI_uint16 => Some (print_dec (u16 w))
  | CMPI_uint32 => Some (print_dec (u32 w))
  | CMPI_uint64 => Some (print_dec (u64 w))
  | CMPI_sint8 => Some (print_dec (s8 w))
  | CMPI_sint16 => Some (print_dec (s16 w))
  | CMPI_sint32 => Some (print_dec (s32 w))
  | CMPI_sint64 => Some (print_dec (s64 w))
  | CMPI_boolean => Some (if u8 w =? 0 then cstr "FALSE" else cstr "TRUE")
  | CMPI_char16 => Some [u8 w]
  | _ => None
  end.

(** The text of a value that is not an embedded instance. *)
Definition scalar_text (t : CMPIType) (v : XValue) : option bytes :=
  match t, v with
  | (CMPI_real32 | CMPI_real64), XReal d => Some (print_real t d)
  | CMPI_chars, XChars s => Some (match s with Some s => XMLEscape s | None => [] end)
  | CMPI_string, XString s => Some (match s with Some s => XMLEscape s | None => [] end)
  | CMPI_dateTime, XDate (Some s) => if strlen s <? 25 then None else Some (take 25 s)
  | CMPI_dateTime, XDate None => Some []
  | _, XWord w => int_text t w
  | _, _ => None
  end.

(** The functions below are given the two that print what a value refers to: the name of a
    path, [rn], and an instance without its qualifiers, [ri]. *)

Definition value_with (ri : XInstance -> option bytes) (d : XData) (wv : bool) : option bytes :=
  match d with
  | XD type array state v =>
      if array then Some (cstr "**[]**")
      else
        text ← match type, v with
               | CMPI_instance, XInst (Some i) => b ← ri i; Some (cstr "<![CDATA[" ++ b ++ cstr "]]>")
               | _, _ => scalar_text type v
               end;
        Some (if wv then cstr "<VALUE>" ++ text ++ cstr "</VALUE>" ++ nl else text)
  end.

Definition refValue_with (rn : XPath -> option bytes) (p : option XPath) : option bytes :=
  text ← match p with
         | None => Some []
         | Some (XP hn ns cn keys as p) =>
             name ← rn p;
             Some (if nonempty ns then
                     if nonempty hn then
                       cstr "<INSTANCEPATH>" ++ nl ++ nsPath2xml hn ns None ++ name ++ cstr "</INSTANCEPATH>" ++ nl
                     else cstr "<LOCALINSTANCEPATH>" ++ nl ++ lnsPath2xml ns ++ name ++ cstr "</LOCALINSTANCEPATH>" ++ nl
                   else name)
         end;
  Some (cstr "<VALUE.REFERENCE>" ++ nl ++ text ++ cstr "</VALUE.REFERENCE>" ++ nl).

Definition keyBinding_with (ri : XInstance -> option bytes) (rn : XPath -> option bytes) (name : bytes) (d : XData) : option bytes :=
  match d with
  | XD type array state v =>
      t ← (if array then None else keyType type);
      text ← match v with
             | XRef (Some p) => match type with CMPI_ref => refValue_with rn (Some p) | _ => None end
             | _ =>
                 text ← value_with ri d false;
                 Some (cstr "<KEYVALUE VALUETYPE=" ++ dq ++ t ++ dq ++ cstr ">" ++ text ++ cstr "</KEYVALUE>" ++ nl)
             end;
      Some (cstr "<KEYBINDING NAME=" ++ dq ++ name ++ dq ++ cstr ">" ++ nl ++ text ++ cstr "</KEYBINDING>" ++ nl)
  end.

Definition data_with (ri : XInstance -> option bytes) (rn : XPath -> option bytes) (d : XData) (name : bytes)
    (refName : option bytes) (bTag eTag qsb : bytes) (inst param : bool) : option bytes :=
  match d with
  | XD type array state v =>
      if array then
        t ← match type with
            | CMPI_ref => Some (cstr "reference")
            | CMPI_instance | CMPI_class => Some (cstr "string" ++ dq ++ cstr " EmbeddedObject=" ++ dq ++ cstr "object")
            | _ => dataType type
            end;
        let tag := match type with CMPI_ref => cstr "VALUE.REFARRAY" | _ => cstr "VALUE.ARRAY" end in
        let item i :=
          match i with
          | XD ty ar st w =>
              if is_null st then Some []
              else match ty, ar, w with CMPI_ref, false, XRef p => refValue_with rn p | _, _, _ => value_with ri i true end
          end in
        values ← match v with
                 | XArray items =>
                     if state =? 0 then
                       text ← match items with Some l => all item l | None => Some [] end;
                       Some (cstr "<" ++ tag ++ cstr ">" ++ nl ++ text ++ cstr "</" ++ tag ++ cstr ">" ++ nl)
                     else Some []
                 | _ => None
                 end;
        Some (bTag ++ name ++ (if param then dq ++ cstr " PARAMTYPE=" ++ dq else dq ++ cstr " TYPE=" ++ dq) ++
              t ++ dq ++ cstr ">" ++ nl ++ qsb ++ values ++ eTag)
      else
        match type with
        | CMPI_ref =>
            ref ← match v with
                  | XRef (Some p) => if inst then refValue_with rn (Some p) else Some []
                  | XRef None => Some []
                  | _ => if inst then None else Some []
                  end;
            Some (bTag ++ name ++
                  (if param then dq ++ cstr " PARAMTYPE=" ++ dq ++ cstr "reference"
                   else match refName with Some r => dq ++ cstr " REFERENCECLASS=" ++ dq ++ r | None => [] end) ++
                  dq ++ cstr ">" ++ nl ++ qsb ++ ref ++ eTag)
        | CMPI_instance =>
            text ← match v with
                   | XInst (Some i) =>
                       b ← ri i;
                       Some (cstr "<VALUE>" ++ cstr "<![CDATA[" ++ b ++ cstr "]]>" ++ cstr "</VALUE>" ++ nl)
                   | XInst None => Some []
                   | _ => None
                   end;
            Some (bTag ++ name ++ dq ++ cstr " EmbeddedObject=" ++ dq ++ cstr "object" ++
                  (if param then dq ++ cstr " PARAMTYPE=" else dq ++ cstr " TYPE=") ++ dq ++ cstr "string" ++ dq ++
                  cstr ">" ++ nl ++ text ++ eTag)
        | _ =>
            t ← dataType type;
            text ← (if state =? 0 then value_with ri d true else Some []);
            Some (bTag ++ name ++ (if param then dq ++ cstr " PARAMTYPE=" ++ dq else dq ++ cstr " TYPE=" ++ dq) ++
                  t ++ dq ++ cstr ">" ++ nl ++ qsb ++ text ++ eTag)
        end
  end.

(** A property of an instance. *)
Definition property_with (ri : XInstance -> option bytes) (rn : XPath -> option bytes) (name : bytes) (d : XData) : option bytes :=
  match d with
  | XD type array state v =>
      if array then
        data_with ri rn d name None (cstr "<PROPERTY.ARRAY NAME=" ++ dq) (cstr "</PROPERTY.ARRAY>" ++ nl) [] true false
      else
        match type with
        | CMPI_ref =>
            data_with ri rn d name None (cstr "<PROPERTY.REFERENCE NAME=" ++ dq) (cstr "</PROPERTY.REFERENCE>" ++ nl) [] true false
        | _ => data_with ri rn d name None (cstr "<PROPERTY NAME=" ++ dq) (cstr "</PROPERTY>" ++ nl) [] true false
        end
  end.

Fixpoint instanceName2xml (p : XPath) : option bytes :=
  match p with
  | XP hn ns cn keys =>
      text ← all (fun k => let '(n, d) := k in keyBinding_with plain_instance2xml instanceName2xml n d) keys;
      Some (cstr "<INSTANCENAME CLASSNAME=" ++ dq ++ cn ++ dq ++ cstr ">" ++ nl ++ text ++ cstr "</INSTANCENAME>" ++ nl)
  end
with plain_instance2xml (i : XInstance) : option bytes :=
  match i with
  | XI cn quals properties =>
      text ← all (fun p => let '(n, filtered, d) := p in
        if filtered : bool then Some [] else property_with plain_instance2xml instanceName2xml n d) properties;
      Some (cstr "<INSTANCE CLASSNAME=" ++ dq ++ cn ++ dq ++ cstr ">" ++ nl ++ text ++ cstr "</INSTANCE>" ++ nl)
  end.

Definition value2xml : XData -> bool -> option bytes := value_with plain_instance2xml.
Definition refValue2xml : option XPath -> option bytes := refValue_with instanceName2xml.
Definition keyBinding2xml : bytes -> XData -> option bytes := keyBinding_with plain_instance2xml instanceName2xml.
Definition data2xml : XData -> bytes -> option bytes -> bytes -> bytes -> bytes -> bool -> bool -> option bytes :=
  data_with plain_instance2xml instanceName2xml.
Definition property2xml : bytes -> XData -> option bytes := property_with plain_instance2xml instanceName2xml.

Definition instance2xml (i : XInstance) (includeQualifiers : bool) : option bytes :=
  match i with
  | XI cn quals properties =>
      text ← all (fun p => let '(n, filtered, d) := p in if filtered : bool then Some [] else property2xml n d) properties;
      Some (cstr "<INSTANCE CLASSNAME=" ++ dq ++ cn ++ dq ++ cstr ">" ++ nl ++
            (if includeQualifiers then quals2xml quals else []) ++ text ++ cstr "</INSTANCE>" ++ nl)
  end.

Definition args2xml (args : list (bytes * XData)) : option bytes :=
  all (fun a => let '(n, d) := a in
    data2xml d n None (cstr "<PARAMVALUE NAME=" ++ dq) (cstr "</PARAMVALUE>" ++ nl) [] true true) args.

(** ** Classes *)

Record XParameter := {
  xp_pname : bytes; xp_type : CMPIType; xp_array : bool; xp_arraySize : Z; xp_refName : option bytes;
  xp_qualifiers : list (bytes * XData)
}.
Record XMethod := { xm_mname : bytes; xm_mtype : CMPIType; xm_qualifiers : list (bytes * XData); xm_parameters : list XParameter }.
Record XProperty := {
  xr_name : bytes; xr_data : XData; xr_quals : Z; xr_refName : option bytes; xr_qualifiers : list (bytes * XData)
}.
Record XClass := {
  xc_name : bytes; xc_super : option bytes; xc_quals : Z; xc_qualifiers : list (bytes * XData);
  xc_properties : list XProperty; xc_methods : list XMethod
}.

Definition qualifiers2xml (includeQualifiers : bool) (l : list (bytes * XData)) : option bytes :=
  if includeQualifiers then
    all (fun q => let '(n, d) := q in
      data2xml d n None (cstr "<QUALIFIER NAME=" ++ dq) (cstr "</QUALIFIER>" ++ nl) [] false false) l
  else Some [].

Definition attribute_text (name : string) (v : bytes) : bytes := dq ++ cstr " " ++ cstr name ++ cstr "=" ++ dq ++ v.

Definition param2xml (p : XParameter) (includeQualifiers : bool) : option bytes :=
  qsb ← qualifiers2xml includeQualifiers (xp_qualifiers p);
  let ref := match xp_refName p with Some r => attribute_text "REFERENCECLASS" r | None => [] end in
  match xp_type p, xp_array p with
  | CMPI_ref, false =>
      Some (cstr "<PARAMETER.REFERENCE NAME=" ++ dq ++ xp_pname p ++ ref ++ dq ++ cstr ">" ++ nl ++ qsb ++
            cstr "</PARAMETER.REFERENCE>" ++ nl)
  | CMPI_ref, true =>
      Some (cstr "<PARAMETER.REFARRAY NAME=" ++ dq ++ xp_pname p ++ ref ++ dq ++ cstr ">" ++ qsb ++
            cstr "</PARAMETER.REFARRAY>" ++ nl)
  | t, true =>
      ty ← dataType t;
      Some (cstr "<PARAMETER.ARRAY NAME=" ++ dq ++ xp_pname p ++
            (if xp_arraySize p =? 0 then [] else attribute_text "ARRAYSIZE" (print_dec (s32 (xp_arraySize p)))) ++
            attribute_text "TYPE" ty ++ dq ++ cstr ">" ++ nl ++ qsb ++ cstr "</PARAMETER.ARRAY>" ++ nl)
  | t, false =>
      ty ← dataType t;
      Some (cstr "<PARAMETER NAME=" ++ dq ++ xp_pname p ++ attribute_text "TYPE" ty ++ dq ++ cstr ">" ++ nl ++ qsb ++
            cstr "</PARAMETER>" ++ nl)
  end.

Definition method2xml (m : XMethod) (qsb : bytes) : option bytes :=
  ty ← dataType (xm_mtype m);
  Some (cstr "<METHOD NAME=" ++ dq ++ xm_mname m ++ attribute_text "TYPE" ty ++ dq ++ cstr ">" ++ nl ++ qsb ++
        cstr "</METHOD>" ++ nl).

Definition cls2xml (c : XClass) (includeQualifiers : bool) : option bytes :=
  quals ← qualifiers2xml includeQualifiers (xc_qualifiers c);
  props ← all (fun p =>
    q ← qualifiers2xml includeQualifiers (xr_qualifiers p);
    let qsb := (if includeQualifiers then quals2xml (Z.shiftl (xr_quals p) 8) else []) ++ q in
    match xr_data p with
    | XD _ true _ _ =>
        data2xml (xr_data p) (xr_name p) None (cstr "<PROPERTY.ARRAY NAME=" ++ dq) (cstr "</PROPERTY.ARRAY>" ++ nl) qsb false false
    | XD CMPI_ref false _ _ =>
        data2xml (xr_data p) (xr_name p) (xr_refName p) (cstr "<PROPERTY.REFERENCE NAME=" ++ dq)
          (cstr "</PROPERTY.REFERENCE>" ++ nl) qsb false false
    | _ => data2xml (xr_data p) (xr_name p) None (cstr "<PROPERTY NAME=" ++ dq) (cstr "</PROPERTY>" ++ nl) qsb false false
    end) (xc_properties c);
  meths ← all (fun m =>
    q ← qualifiers2xml includeQualifiers (xm_qualifiers m);
    p ← all (fun p => param2xml p includeQualifiers) (xm_parameters m);
    method2xml m (q ++ p)) (xc_methods c);
  Some (cstr "<CLASS NAME=" ++ dq ++ xc_name c ++
        (match xc_super c with Some s => attribute_text "SUPERCLASS" s | None => [] end) ++ dq ++ cstr ">" ++ nl ++
        (if includeQualifiers then quals2xml (xc_quals c) else []) ++ quals ++ props ++ meths ++ cstr "</CLASS>" ++ nl).

(** ** Enumerations *)

Definition className2xml (p : XPath) : bytes :=
  let '(XP _ _ cn _) := p in cstr "<CLASSNAME NAME=" ++ dq ++ cn ++ dq ++ cstr "/>" ++ nl.

Inductive xml_as := XML_asClassName | XML_asObjectPath | XML_asObj | XML_other.
Inductive enum_item := EnumRef (p : XPath) | EnumClass (c : XClass) | EnumInst (path : XPath) (i : XInstance).

Definition wrapped (tag : string) (text : bytes) : bytes :=
  cstr "<" ++ cstr tag ++ cstr ">" ++ nl ++ text ++ cstr "</" ++ cstr tag ++ cstr ">" ++ nl.

(** The path of an instance with its host and name space. *)
Definition instance_path (p : XPath) (httpHost : option bytes) : option bytes :=
  let '(XP hn ns _ _) := p in
  name ← instanceName2xml p; Some (wrapped "INSTANCEPATH" (nsPath2xml hn ns httpHost ++ name)).

Definition item2xml (as_ : xml_as) (includeQualifiers : bool) (httpHost : option bytes) (i : enum_item) : option bytes :=
  match i with
  | EnumRef p =>
      match as_ with
      | XML_asClassName => Some (className2xml p)
      | XML_asObjectPath => text ← instance_path p httpHost; Some (wrapped "OBJECTPATH" text)
      | _ => instanceName2xml p
      end
  | EnumClass c => cls2xml c includeQualifiers
  | EnumInst p inst =>
      text ← instance2xml inst includeQualifiers;
      match as_ with
      | XML_asObj => path ← instance_path p httpHost; Some (wrapped "VALUE.OBJECTWITHPATH" (path ++ text))
      | _ => name ← instanceName2xml p; Some (wrapped "VALUE.NAMEDINSTANCE" (name ++ text))
      end
  end.
Definition enum2xml (l : list enum_item) (as_ : xml_as) (includeQualifiers : bool) (httpHost : option bytes) : option bytes :=
  all (item2xml as_ includeQualifiers httpHost) l.

(** ** Qualifier declarations *)

Record XQualifierDecl := {
  xd_name : bytes; xd_type : CMPIType; xd_array : bool; xd_arraySize : Z; xd_flavor : Z; xd_scope : Z;
  xd_data : option XData
}.

Definition flag_text (name : string) (v : string) : bytes := cstr " " ++ cstr name ++ cstr "=" ++ dq ++ cstr v ++ dq.

(** The data of a declaration has the state [CMPI_goodValue]. *)
Definition qualifierDeclaration2xml (q : XQualifierDecl) : option bytes :=
  ty ← (if bool_decide (xd_type q = CMPI_null) && negb (xd_array q) then Some [] else
          t ← dataType (xd_type q); Some (cstr " TYPE=" ++ dq ++ t ++ dq));
  value ← match xd_data q with
          | None => Some []
          | Some (XD _ true _ (XArray (Some l))) =>
              text ← all (fun d => value2xml d true) l;
              Some (wrapped "VALUE.ARRAY" text)
          | Some (XD _ true _ _) => None
          | Some d => value2xml d true
          end;
  Some (cstr "<QUALIFIER.DECLARATION NAME=" ++ dq ++ xd_name q ++ dq ++ ty ++
        (match xd_data q with None => flag_text "ISARRAY" (if xd_array q then "true" else "false") | Some _ => [] end) ++
        (if xd_arraySize q =? 0 then [] else cstr " ARRAYSIZE=" ++ dq ++ print_dec (s32 (xd_arraySize q)) ++ dq) ++
        flag_text "OVERRIDABLE" (if Z.testbit (xd_flavor q) 0 then "true" else "false") ++
        flag_text "TOSUBCLASS" (if Z.testbit (xd_flavor q) 1 then "true" else "false") ++
        (if Z.testbit (xd_flavor q) 2 then flag_text "TOINSTANCE" "true" else []) ++
        (if Z.testbit (xd_flavor q) 3 then flag_text "TRANSLATABLE" "true" else []) ++ cstr ">" ++ nl ++
        (if xd_scope q =? 0 then []
         else
           cstr "<SCOPE" ++
           concat ((fun '(b, n) => if Z.testbit (xd_scope q) b then flag_text n "true" else []) <$>
             [(0, "CLASS"); (1, "ASSOCIATION"); (2, "REFERENCE"); (3, "PROPERTY"); (4, "METHOD"); (5, "PARAMETER");
              (6, "INDICATION")]%string) ++
           cstr "></SCOPE>" ++ nl) ++
        value ++ cstr "</QUALIFIER.DECLARATION>" ++ nl).

Definition qualiEnum2xml (l : list XQualifierDecl) : option bytes := all qualifierDeclaration2xml l.

End printing.
