(* ===== verification/XmlRoundTrip.v ===== *)
(** * Printed objects are scanned again (cimXmlGen.c, cimXmlParser.c)

    What [XmlGen] prints of an instance and of an object path is read by [XmlTokens] as
    the tokens of the same names, types and values. *)

From Stdlib Require Import Floats.SpecFloat.
From S2P Require Import Prelude CString CmpiData XmlScanner XmlTokens XmlGen.

(** ** Escaping *)

Lemma escaped_char c : escaped c = escape_char c.
Proof.
  unfold escaped, escape_char. cbn [List.find xmlEscapeTab snd]. rewrite !(Z.eqb_sym _ c).
  destruct (Z.eqb_spec c 62) as [->|]; [done|]. destruct (Z.eqb_spec c 60) as [->|]; [done|].
  destruct (Z.eqb_spec c 38) as [->|]; [done|]. destruct (Z.eqb_spec c 34) as [->|]; [done|].
  by destruct (Z.eqb_spec c 39).
Qed.

Lemma strncmp_is_prefix s t k : strncmp s t (Z.of_nat k) = 0 -> length t = k -> is_prefix t s = true.
Proof.
  unfold strncmp. rewrite Nat2Z.id. intros H%strcmp_eq <-. rewrite firstn_all in H. apply is_prefix_spec.
  exists (drop (length t) s). rewrite <- H at 1. by rewrite take_drop.
Qed.

Lemma no_cdata c s : strstr (c :: s) (cstr "<![CDATA[") = None ->
  cdata_length (c :: s) = None /\ strstr s (cstr "<![CDATA[") = None.
Proof.
  intros H. cbn [strstr] in H. destruct (is_prefix (cstr "<![CDATA[") (c :: s)) eqn:Hp; [done|]. split; [|done].
  unfold cdata_length. destruct (strncmp (c :: s) (cstr "<![CDATA[") 9 =? 0) eqn:E; [|by rewrite andb_false_r].
  apply Z.eqb_eq in E. apply (strncmp_is_prefix _ _ 9) in E; [congruence|done].
Qed.

(** Without a CDATA section every character is escaped by itself. *)
Lemma XMLEscape_all s : strstr s (cstr "<![CDATA[") = None -> XMLEscape s = escape_all s.
Proof.
  intros H. unfold XMLEscape. remember (length s) as n eqn:Hn. revert s Hn H.
  induction n as [|n IH]; intros [|c s] Hn H; try done. cbn [escape_loop]. destruct (no_cdata c s H) as [-> H'].
  rewrite IH by (done || by injection Hn). by rewrite escaped_char.
Qed.

(** The buffer of six bytes for every character is large enough. *)
Lemma escape_loop_length n s : strlen (escape_loop n s) <= 6 * strlen s.
Proof.
  revert s. induction n as [|n IH]; intros s; [unfold strlen; cbn; lia|]. destruct s as [|c s]; [done|]. cbn [escape_loop].
  destruct (cdata_length (c :: s)) as [k|].
  - rewrite strlen_app. specialize (IH (drop k (c :: s))). unfold strlen in *. rewrite length_take, length_drop in *.
    cbn [length] in *. lia.
  - rewrite strlen_app, strlen_cons. specialize (IH s). pose proof (strlen_nonneg s).
    assert (strlen (escaped c) <= 6) by (unfold escaped; repeat (destruct (_ =? _); [done|]); done). lia.
Qed.

(** ** Sequences of tokens *)

(** What the grammar gets with a token: the texts, and the type for a property. *)
Definition event : Type := token * list (option bytes) * option xtype.

Definition value_ptrs (v : YYSTYPE) : list ptr :=
  match v with
  | noValue => []
  | xtokMessage p | xtokMethodCall p | xtokNameSpace p | xtokClassName p | xtokInstanceName p | xtokInstance p
  | xtokHost p | xtokValue p => [p]
  | xtokParamValue p _ => [p]
  | xtokClass p q | xtokKeyValue p q => [p; q]
  | xtokQualifierDeclaration q => [qd_name q]
  | xtokQualifier q => [xq_name q]
  | xtokScope _ => []
  | xtokProperty p => [xp_name p; xp_classOrigin p; xp_referenceClass p]
  | xtokMethod m => [xm_name m; xm_classOrigin m]
  | xtokParam p => [xa_name p; xa_refClass p]
  end.
Definition value_type (v : YYSTYPE) : option xtype :=
  match v with
  | xtokParamValue _ t => Some t
  | xtokProperty p => Some (xp_valueType p)
  | xtokMethod m => Some (xm_type m)
  | _ => None
  end.

(** A token whose texts are read in the cells [b]. *)
Definition shown (b : bytes) (t : lexed) (e : event) : Prop :=
  let '(tok, texts, ty) := e in
  fst t = Some tok /\ Forall2 (ptr_text b) (value_ptrs (snd t)) texts /\ value_type (snd t) = ty.

Section round_trip.
Context (trimws : bool).

Fixpoint yields (s : ParserControl) (ts : list lexed) (s' : ParserControl) : Prop :=
  match ts with
  | [] => s = s'
  | t :: ts => exists s1, yylex trimws s = Ret t s1 /\ yields s1 ts s'
  end.

Lemma yields_app s ts s1 ts' s2 : yields s ts s1 -> yields s1 ts' s2 -> yields s (ts ++ ts') s2.
Proof.
  revert s. induction ts as [|t ts IH]; intros s; cbn [yields app]; [by intros ->|].
  intros (s3 & E & H) H'. exists s3. split; [done|]. by apply IH.
Qed.

(** The text is scanned as these events, wherever it stands. *)
Definition scans (text : bytes) (es : list event) : Prop := forall ws post t p pre, blanks ws -> post <> [] ->
  exists ts ws' more t', blanks ws' /\
    yields (at_place p pre (ws ++ text ++ post) false t 0) ts (at_place p (pre ++ more) (ws' ++ post) false t' 0) /\
    forall x, Forall2 (shown (pre ++ more ++ x)) ts es.

Lemma scans_nil : scans [] [].
Proof.
  intros ws post t p pre Hw _. exists [], ws, [], t. split; [done|]. split; [by rewrite app_nil_r|]. constructor.
Qed.

Lemma scans_app a b es es' : scans a es -> scans b es' -> scans (a ++ b) (es ++ es').
Proof.
  intros Ha Hb ws post t p pre Hw Hp.
  destruct (Ha ws (b ++ post) t p pre Hw ltac:(by destruct b)) as (ts & ws1 & m1 & t1 & Hw1 & Y1 & S1).
  destruct (Hb ws1 post t1 p (pre ++ m1) Hw1 Hp) as (ts' & ws2 & m2 & t2 & Hw2 & Y2 & S2).
  exists (ts ++ ts'), ws2, (m1 ++ m2), t2. split; [done|]. split.
  - replace ((a ++ b) ++ post) with (a ++ b ++ post) by (by app_norm).
    rewrite (app_assoc pre m1 m2). eapply yields_app; [exact Y1|exact Y2].
  - intros x. replace (pre ++ (m1 ++ m2) ++ x) with (pre ++ m1 ++ m2 ++ x) by (by app_norm). apply Forall2_app; [done|].
    specialize (S2 x). by rewrite <- app_assoc in S2.
Qed.

Lemma scans_blanks a ws es : blanks ws -> scans a es -> scans (a ++ ws) es.
Proof.
  intros Hb Ha ws0 post t p pre Hw Hp.
  destruct (Ha ws0 (ws ++ post) t p pre Hw ltac:(by destruct ws)) as (ts & ws1 & m1 & t1 & Hw1 & Y1 & S1).
  exists ts, (ws1 ++ ws), m1, t1. split; [by apply Forall_app|]. split; [|done].
  replace ((a ++ ws) ++ post) with (a ++ ws ++ post) by (by app_norm).
  replace ((ws1 ++ ws) ++ post) with (ws1 ++ ws ++ post) by (by app_norm). done.
Qed.

(** ** Elements *)

(** The tag of an element with its attributes, and its end. *)
Definition start_tag (nm : string) (l : list (bytes * bytes)) : bytes := 60 :: cstr nm ++ attrs_text l ++ [62].
Definition end_tag (nm : string) : bytes := 60 :: 47 :: cstr nm ++ [62].

(** The function [k] of an element makes of its attributes with these texts a token with the
    value [v], and leaves the buffer alone. *)
Definition makes (k : list ptr -> parse lexed) (texts : list (option bytes)) (ev : event) : Prop :=
  forall p pre post t ptrs, (forall x, Forall2 (ptr_text (pre ++ x)) ptrs texts) -> post <> [] ->
  exists tv, k ptrs (at_place p pre post false t 0) = Ret tv (at_place p pre post false t 0) /\
    forall x, shown (pre ++ x) tv ev.

Definition attribute_names (elm : list string) : list (bytes * option bytes) := (fun a => (a, None)) <$> (cstr <$> elm).

Lemma words_alnum (elm : list string) : forallb (fun a => forallb isalnum (cstr a)) elm = true ->
  Forall (fun a => Forall (fun d => isalnum d = true) a) (cstr <$> elm).
Proof.
  intros H. apply Forall_fmap, Forall_forall. intros a Ha. rewrite forallb_forall in H.
  apply Forall_forall. intros d Hd. specialize (H a (proj1 (list_elem_of_In _ _) Ha)). rewrite forallb_forall in H.
  by apply H, list_elem_of_In.
Qed.

(** An element around other ones. *)
Lemma scans_element nm elm z k l ste ev body es :
  In (nm, element nm elm z k, z) (tags trimws) -> nm <> ""%string -> forallb (fun a => forallb isalnum (cstr a)) elm = true ->
  (length elm <= 32)%nat -> attrs_ok l -> texts_named (attribute_names elm) l = Some ste -> makes k (snd <$> ste) ev ->
  scans body es -> scans (start_tag nm l ++ body ++ end_tag nm) (ev :: es ++ [(z, [], None)]).
Proof.
  intros Hin Hnm Hal Hlen Hl Ht Hk Hbody ws post t p pre Hw Hp.
  destruct (name_chars _ _ _ _ Hin) as [Hz Hn]. destruct (Hn Hnm) as (_ & Hb & _).
  destruct (element_texts p nm elm z k l ste (pre ++ ws) (body ++ end_tag nm ++ post) t false Hz Hb Hnm Hlen
    (words_alnum _ Hal) Hl Ht) as (ptrs & cells0 & E & Hptr0). set (cells := cells0 ++ tag_end false) in *.
  assert (Hptr : forall x, Forall2 (ptr_text ((pre ++ ws) ++ 60 :: cells ++ x)) ptrs (snd <$> ste)).
  { intros x. unfold cells. specialize (Hptr0 (tag_end false ++ x)). revert Hptr0. by app_norm. }
  destruct (tag_rest l false (body ++ end_tag nm ++ post)) as (c & u & Ec & Hc).
  assert (E1 : yylex trimws (at_place p pre (ws ++ (start_tag nm l ++ body ++ end_tag nm) ++ post) false t 0) =
    k ptrs (at_place p ((pre ++ ws) ++ 60 :: cells) (body ++ end_tag nm ++ post) false t 0)).
  { rewrite <- E. replace ((start_tag nm l ++ body ++ end_tag nm) ++ post) with (60 :: cstr nm ++ c :: u).
    - rewrite (yylex_open trimws p pre ws nm _ z c u t Hw Hin Hnm Hc). by rewrite <- Ec.
    - rewrite <- Ec. unfold start_tag. cbn [tag_end]. by app_norm. }
  destruct (Hk p ((pre ++ ws) ++ 60 :: cells) (body ++ end_tag nm ++ post) t ptrs) as (tv & Ek & Sk);
    [by intros x; specialize (Hptr x); rewrite <- app_assoc|by destruct body|].
  set (pre1 := (pre ++ ws) ++ 60 :: cells) in *.
  destruct (Hbody [] (end_tag nm ++ post) t p pre1) as (ts & ws1 & m & t1 & Hw1 & Y & S); [constructor|done|]. cbn [app] in Y.
  exists (tv :: ts ++ [(Some z, noValue)]), [], (ws ++ 60 :: cells ++ m ++ ws1 ++ end_tag nm), t1. split; [constructor|]. split.
  - exists (at_place p pre1 (body ++ end_tag nm ++ post) false t 0). split; [by rewrite E1|].
    eapply yields_app; [exact Y|]. eexists. split; [|reflexivity].
    assert (E2 : end_tag nm ++ post = 60 :: 47 :: cstr nm ++ 62 :: post) by (unfold end_tag; by app_norm).
    rewrite E2, yylex_blanks by done.
    rewrite (yylex_close trimws p ((pre1 ++ m) ++ ws1) nm _ z 60 post t1 0 Hin Hnm Hp) by (by right).
    unfold pre1, end_tag. cbn [app]. do 2 f_equal. by app_norm.
  - intros x. constructor; [|apply Forall2_app; [|by repeat constructor]].
    + specialize (Sk (m ++ ws1 ++ end_tag nm ++ x)). unfold pre1 in Sk. revert Sk. by app_norm.
    + specialize (S (ws1 ++ end_tag nm ++ x)). unfold pre1 in S. revert S. by app_norm.
Qed.

(** A text that is read as it was written. *)
Definition readable (s : bytes) : Prop := Forall (fun c => c <> 0) s /\ (trimws = false \/ trimmed s).

(** An element around a text. *)
Lemma scans_text nm elm z tok val l ste out s :
  In (nm, element nm elm z (fun r => v ← on_xmb (getContent trimws); mret (Some tok, val r v)), z) (tags trimws) ->
  nm <> ""%string -> forallb (fun a => forallb isalnum (cstr a)) elm = true -> (length elm <= 32)%nat -> attrs_ok l ->
  texts_named (attribute_names elm) l = Some ste ->
  (forall b ptrs v, Forall2 (ptr_text b) ptrs (snd <$> ste) -> ptr_text b v (Some s) ->
     shown b (Some tok, val ptrs v) (tok, out, None)) ->
  readable s ->
  scans (start_tag nm l ++ escape_all s ++ end_tag nm) [(tok, out, None); (z, [], None)].
Proof.
  intros Hin Hnm Hal Hlen Hl Ht Hval [Hs0 Hs] ws post t p pre Hw Hp.
  destruct (name_chars _ _ _ _ Hin) as [Hz Hn]. destruct (Hn Hnm) as (_ & Hb & _).
  set (k := fun r => v ← on_xmb (getContent trimws); mret (Some tok, val r v)) in *.
  destruct (element_texts p nm elm z k l ste (pre ++ ws) (escape_all s ++ end_tag nm ++ post) t false Hz Hb Hnm Hlen
    (words_alnum _ Hal) Hl Ht) as (ptrs & cells & E & Hptr).
  destruct (tag_rest l false (escape_all s ++ end_tag nm ++ post)) as (c & u & Ec & Hc).
  set (pre1 := (pre ++ ws) ++ 60 :: cells) in *.
  destruct (getContent_text trimws pre1 s (47 :: cstr nm ++ 62 :: post) t 0 Hs0 Hs) as (junk & Eg & Hj).
  set (pre2 := (pre1 ++ [62]) ++ s ++ junk) in *.
  assert (E1 : yylex trimws (at_place p pre (ws ++ (start_tag nm l ++ escape_all s ++ end_tag nm) ++ post) false t 0) =
    Ret (Some tok, val ptrs (At (strlen (pre1 ++ [62])))) (at_place p pre2 (0 :: 47 :: cstr nm ++ 62 :: post) false t 60)).
  { replace ((start_tag nm l ++ escape_all s ++ end_tag nm) ++ post) with (60 :: cstr nm ++ c :: u).
    - rewrite (yylex_open trimws p pre ws nm _ z c u t Hw Hin Hnm Hc), <- Ec, E. unfold k.
      replace ((pre ++ ws) ++ 60 :: cells ++ tag_end false) with (pre1 ++ [62]) by (unfold pre1; by app_norm).
      replace (end_tag nm ++ post) with (60 :: 47 :: cstr nm ++ 62 :: post) by (unfold end_tag; by app_norm).
      by rewrite (bind_ret _ _ _ _ _ (on_xmb_place _ p _ _ _ _ _ _ _ _ _ _ _ Eg)).
    - rewrite <- Ec. unfold start_tag. cbn [tag_end]. by app_norm. }
  exists [(Some tok, val ptrs (At (strlen (pre1 ++ [62])))); (Some z, noValue)], [],
    (ws ++ 60 :: cells ++ 62 :: s ++ junk ++ 0 :: 47 :: cstr nm ++ [62]), t. split; [constructor|]. split.
  - eexists. split; [exact E1|]. eexists. split; [|reflexivity].
    rewrite (yylex_close trimws p pre2 nm _ z 0 post t 60 Hin Hnm Hp) by (by left).
    unfold pre2, pre1. cbn [app]. do 2 f_equal. by app_norm.
  - intros x. set (b := pre ++ _ ++ x).
    assert (Eb : b = pre1 ++ 62 :: s ++ junk ++ 0 :: 47 :: cstr nm ++ 62 :: x) by (unfold b, pre1; by app_norm).
    constructor; [|by repeat constructor]. apply Hval.
    + rewrite Eb. unfold pre1. specialize (Hptr (62 :: s ++ junk ++ 0 :: 47 :: cstr nm ++ 62 :: x)).
      revert Hptr. by app_norm.
    + cbn [ptr_text]. split; [apply strlen_nonneg|]. destruct junk as [|j junk].
      * etransitivity; [|exact (str_at_text (pre1 ++ [62]) s (47 :: cstr nm ++ 62 :: x) Hs0)]. rewrite Eb. f_equal. by app_norm.
      * cbn [at0] in Hj. subst j.
        etransitivity; [|exact (str_at_text (pre1 ++ [62]) s (junk ++ 0 :: 47 :: cstr nm ++ 62 :: x) Hs0)].
        rewrite Eb. f_equal. by app_norm.
Qed.

Lemma scans_lead ws a es : blanks ws -> scans a es -> scans (ws ++ a) es.
Proof.
  intros Hb Ha ws0 post t p pre Hw Hp.
  destruct (Ha (ws0 ++ ws) post t p pre) as (ts & ws1 & m & t1 & H); [by apply Forall_app|done|].
  exists ts, ws1, m, t1. replace (ws0 ++ (ws ++ a) ++ post) with ((ws0 ++ ws) ++ a ++ post) by (by app_norm). done.
Qed.

Lemma blanks_nl : blanks nl.
Proof. by repeat constructor. Qed.

Ltac in_tags := unfold tags; repeat first [left; reflexivity | right].

(** ** Values *)


Lemma scans_keyvalue ty s : Forall (fun d => d <> 34 /\ d <> 0) ty -> readable s ->
  scans (cstr "<KEYVALUE VALUETYPE=" ++ dq ++ ty ++ dq ++ cstr ">" ++ escape_all s ++ cstr "</KEYVALUE>" ++ nl)
    [(XTOK_KEYVALUE, [Some ty; Some s], None); (ZTOK_KEYVALUE, [], None)].
Proof.
  intros Ht Hs.
  assert (E : cstr "<KEYVALUE VALUETYPE=" ++ dq ++ ty ++ dq ++ cstr ">" ++ escape_all s ++ cstr "</KEYVALUE>" ++ nl =
    (start_tag "KEYVALUE" [(cstr "VALUETYPE", ty)] ++ escape_all s ++ end_tag "KEYVALUE") ++ nl).
  { unfold start_tag, attrs_text, attr_text, end_tag. cbn [fmap list_fmap concat fst snd]. rewrite app_nil_r. by app_norm. }
  rewrite E. apply scans_blanks; [apply blanks_nl|].
  apply (scans_text "KEYVALUE" ["VALUETYPE"; "TYPE"]%string ZTOK_KEYVALUE XTOK_KEYVALUE (fun r v => xtokKeyValue (attr r 0) v)
    [(cstr "VALUETYPE", ty)] [(cstr "VALUETYPE", Some ty); (cstr "TYPE", None)]); try done.
  - in_tags.
  - cbn. lia.
  - constructor; [|constructor]. split; [|done]. split; [done|by repeat constructor].
  - intros b ptrs v Hp Hv. cbn [fmap list_fmap snd] in Hp. inversion Hp as [|p0 ? ps ? H0]; subst.
    split_and!; [done| |done]. cbn [value_ptrs snd attr nth]. constructor; [done|]. by repeat constructor.
Qed.

(** ** Elements that only pass their attributes on *)

Lemma makes_simple tok n rest (val : ptr -> YYSTYPE) :
  (forall b p s, ptr_text b p (Some s) -> shown b (Some tok, val p) (tok, [Some s], None)) ->
  makes (fun r => mret (Some tok, val (attr r 0))) (Some n :: rest) (tok, [Some n], None).
Proof.
  intros Hv p pre post t ptrs Hp _. exists (Some tok, val (attr ptrs 0)). split; [done|]. intros x. specialize (Hp x).
  inversion Hp as [|p0 ? ps ? H0]; subst. by apply Hv.
Qed.





(** A value of the attributes of an element. *)
Definition quotable (s : bytes) : Prop := Forall (fun d => d <> 34 /\ d <> 0) s.





(** An element whose one attribute is its name. *)
Lemma scans_named nm a tok z val n body es :
  In (nm, element nm [a] z (fun r => mret (Some tok, val (attr r 0))), z) (tags trimws) -> nm <> ""%string ->
  forallb isalnum (cstr a) = true -> isalpha (at0 (cstr a)) = true ->
  (forall b p s, ptr_text b p (Some s) -> shown b (Some tok, val p) (tok, [Some s], None)) ->
  quotable n -> scans body es ->
  scans ((60 :: cstr nm) ++ (32 :: cstr a ++ [61]) ++ dq ++ n ++ dq ++ cstr ">" ++ nl ++ body ++
         (60 :: 47 :: cstr nm ++ [62]) ++ nl)
    ((tok, [Some n], None) :: es ++ [(z, [], None)]).
Proof.
  intros Hin Hnm Hal Ha Hv Hn Hb.
  match goal with |- scans ?txt _ => assert (E : txt = (start_tag nm [(cstr a, n)] ++ (nl ++ body) ++ end_tag nm) ++ nl) end.
  { unfold start_tag, attrs_text, attr_text, end_tag, dq. cbn [fmap list_fmap concat fst snd]. rewrite app_nil_r. by app_norm. }
  rewrite E. apply scans_blanks; [apply blanks_nl|].
  eapply (scans_element nm [a] z _ [(cstr a, n)] [(cstr a, Some n)]); [exact Hin|done| |cbn; lia| | | |].
  - cbn [forallb]. by rewrite Hal.
  - constructor; [|constructor]. split; [|exact Hn]. split; [done|]. apply Forall_forall. intros d Hd.
    rewrite forallb_forall in Hal. by apply Hal, list_elem_of_In.
  - cbn. unfold strcasecmp. by rewrite strcmp_refl.
  - by apply makes_simple.
  - apply scans_lead; [apply blanks_nl|done].
Qed.

(** The arguments of [scans_named] for an element of the table. *)
Ltac by_name nm a tok z val :=
  eapply (scans_named nm a tok z val); [in_tags|done|done|done| |done|done];
  intros ? ? ? ?; (split; [done|]); (split; [by repeat constructor|done]).


Lemma scans_instanceName cn body es : quotable cn -> scans body es ->
  scans (cstr "<INSTANCENAME CLASSNAME=" ++ dq ++ cn ++ dq ++ cstr ">" ++ nl ++ body ++ cstr "</INSTANCENAME>" ++ nl)
    ((XTOK_INSTANCENAME, [Some cn], None) :: es ++ [(ZTOK_INSTANCENAME, [], None)]).
Proof.
  intros Hn Hb. by_name "INSTANCENAME"%string "CLASSNAME"%string XTOK_INSTANCENAME ZTOK_INSTANCENAME xtokInstanceName.
Qed.

Lemma scans_keyBinding n body es : quotable n -> scans body es ->
  scans (cstr "<KEYBINDING NAME=" ++ dq ++ n ++ dq ++ cstr ">" ++ nl ++ body ++ cstr "</KEYBINDING>" ++ nl)
    ((XTOK_KEYBINDING, [Some n], None) :: es ++ [(ZTOK_KEYBINDING, [], None)]).
Proof. intros Hn Hb. by_name "KEYBINDING"%string "NAME"%string XTOK_KEYBINDING ZTOK_KEYBINDING xtokInstanceName. Qed.

(** ** Objects *)

Definition special (c : Z) : bool := existsb (Z.eqb c) [62; 60; 38; 34; 39].

Lemma escape_all_id s : Forall (fun c => special c = false) s -> escape_all s = s.
Proof.
  induction 1 as [|c s Hc _ IH]; [done|]. rewrite escape_all_cons, IH. destruct (escape_char_cases c) as [(e & E & Hin)|(-> & _)]; [|done].
  exfalso. each_escape Hin; by vm_compute in Hc.
Qed.

Lemma print_dec_chars v : Forall (fun c => c = 45 \/ 48 <= c <= 57) (print_dec v) /\ print_dec v <> [].
Proof.
  assert (P : forall u, 0 <= u -> Forall (fun c => c = 45 \/ 48 <= c <= 57) (print_dec u) /\ print_dec u <> []).
  { intros u Hu. destruct (print_dec_ok u Hu) as (_ & Hd & Hne). split; [|done]. eapply Forall_impl; [exact Hd|]. cbn. lia. }
  destruct (Z_lt_le_dec v 0) as [Hv|Hv]; [|by apply P]. destruct (P (- v) ltac:(lia)) as [Hd Hne].
  unfold print_dec in *. rewrite (proj2 (Z.ltb_lt v 0)) by done. rewrite (proj2 (Z.ltb_ge (- v) 0)) in Hd by lia.
  split; [|done]. constructor; [by left|done].
Qed.

(** Characters that no trimming and no escaping changes. *)
Definition plain_char (c : Z) : Prop := c <> 0 /\ blank c = false /\ special c = false.

Lemma plain_readable s : Forall plain_char s -> readable s /\ escape_all s = s.
Proof.
  intros H. split; [split|].
  - eapply Forall_impl; [exact H|]. by intros c (? & _).
  - right. destruct s as [|c s]; [by left|]. right. split; [by inversion H as [|? ? (_ & ? & _)]|].
    destruct (exists_last (l := c :: s) ltac:(done)) as (l & d & E). exists l, d. split; [done|]. rewrite E in H.
    apply Forall_app in H as [_ H]. by inversion H as [|? ? (_ & ? & _)].
  - apply escape_all_id. eapply Forall_impl; [exact H|]. by intros c (_ & _ & ?).
Qed.

Lemma digit_plain c : c = 45 \/ 48 <= c <= 57 -> plain_char c.
Proof.
  intros Hc. assert (45 <= c <= 57) by lia. split; [lia|]. split.
  - unfold blank, schar. rewrite (proj2 (Z.ltb_lt c 128)) by lia. apply Z.leb_gt. lia.
  - unfold special. cbn. rewrite !(proj2 (Z.eqb_neq c _)) by lia. done.
Qed.

Lemma int_readable t w s : int_text t w = Some s -> t <> CMPI_char16 -> readable s /\ escape_all s = s.
Proof.
  intros E Ht. apply plain_readable.
  destruct t; try done; cbn [int_text] in E; injection E as <-;
    try (eapply Forall_impl; [apply print_dec_chars|]; by intros; apply digit_plain).
  destruct (u8 w =? 0); repeat (constructor; [by vm_compute|]); constructor.
Qed.

Lemma plain_escape s : Forall plain_char s -> strstr s (cstr "<![CDATA[") = None.
Proof.
  induction 1 as [|c s (_ & _ & Hc) _ IH]; [done|]. cbn [strstr]. destruct (is_prefix _ _) eqn:E; [|exact IH].
  apply is_prefix_spec in E as [r E]. injection E as -> _. by vm_compute in Hc.
Qed.

Context (print_real : CMPIType -> spec_float -> bytes) (getCustomHostname : option bytes -> bytes).

(** The text of a value that the scanner reads as it is: a text or a date without blanks at
    its ends when the scanner trims, without the begin of a CDATA section and, for a date and
    a character, which are not escaped, without the characters of tags; an integer; a
    boolean; a real number that is printed with digits, signs and letters. *)
Inductive prints : CMPIType -> XValue -> bytes -> Prop :=
| prints_chars s : strstr s (cstr "<![CDATA[") = None -> readable s -> prints CMPI_chars (XChars (Some s)) s
| prints_string s : strstr s (cstr "<![CDATA[") = None -> readable s -> prints CMPI_string (XString (Some s)) s
| prints_no_chars : prints CMPI_chars (XChars None) []
| prints_no_string : prints CMPI_string (XString None) []
| prints_date s : strlen s = 25 -> Forall (fun c => special c = false) s -> readable s -> prints CMPI_dateTime (XDate (Some s)) s
| prints_no_date : prints CMPI_dateTime (XDate None) []
| prints_integer t w s : int_text t w = Some s -> t <> CMPI_char16 -> prints t (XWord w) s
| prints_char w : plain_char (u8 w) -> prints CMPI_char16 (XWord w) [u8 w]
| prints_real t d : t = CMPI_real32 \/ t = CMPI_real64 -> Forall plain_char (print_real t d) ->
    prints t (XReal d) (print_real t d).

Lemma prints_text t v s : prints t v s -> scalar_text print_real t v = Some (escape_all s) /\ readable s.
Proof.
  destruct 1 as [s Hc Hr|s Hc Hr| | |s Hl Hsp Hr| |t w s E Ht|w Hw|t d Ht Hd].
  - split; [|done]. cbn [scalar_text]. by rewrite XMLEscape_all.
  - split; [|done]. cbn [scalar_text]. by rewrite XMLEscape_all.
  - split; [done|by apply plain_readable].
  - split; [done|by apply plain_readable].
  - split; [|done]. cbn [scalar_text]. rewrite Hl. cbn [Z.ltb Z.compare Pos.compare Pos.compare_cont].
    rewrite escape_all_id by done. rewrite firstn_all2; [done|]. unfold strlen in Hl. lia.
  - split; [done|by apply plain_readable].
  - destruct (int_readable t w s E Ht) as [Hr ->]. split; [|done]. by destruct t.
  - destruct (plain_readable [u8 w]) as [Hr ->]; [by constructor|]. by split.
  - destruct (plain_readable _ Hd) as [Hr ->]. split; [|done]. by destruct Ht as [->| ->].
Qed.











(** The texts of a list are scanned one after the other. *)
Lemma scans_all {A} (f : A -> option bytes) (R : A -> list event -> Prop) l evs :
  (forall a es, R a es -> exists text, f a = Some text /\ scans text es) -> Forall2 R l evs ->
  exists text, all f l = Some text /\ scans text (concat evs).
Proof.
  intros Hf. induction 1 as [|a es l evs Ha _ IH]; [exists []; split; [done|apply scans_nil]|].
  destruct (Hf a es Ha) as (x & Ex & Sx). destruct IH as (y & Ey & Sy). exists (x ++ y). split.
  - cbn [all]. rewrite Ex. cbn [mbind option_bind]. fold (all f). by rewrite Ey.
  - by apply scans_app.
Qed.



Inductive key_scanned : bytes * XData -> list event -> Prop :=
| key_value n t ty v s st : quotable n -> keyType t = Some ty -> prints t v s ->
    key_scanned (n, XD t false st v)
      [(XTOK_KEYBINDING, [Some n], None); (XTOK_KEYVALUE, [Some ty; Some s], None); (ZTOK_KEYVALUE, [], None);
       (ZTOK_KEYBINDING, [], None)].

Lemma key_ok k evs : key_scanned k evs ->
  exists text, (let '(n, d) := k in keyBinding2xml print_real getCustomHostname n d) = Some text /\ scans text evs.
Proof.
  destruct 1 as [n t ty v s st Hn Ht Hp]. destruct (prints_text t v s Hp) as [E Hr].
  assert (Hq : quotable ty) by (unfold quotable; destruct t; try done; injection Ht as <-; by repeat constructor).
  assert (Ek : keyBinding2xml print_real getCustomHostname n (XD t false st v) =
    Some (cstr "<KEYBINDING NAME=" ++ dq ++ n ++ dq ++ cstr ">" ++ nl ++
      (cstr "<KEYVALUE VALUETYPE=" ++ dq ++ ty ++ dq ++ cstr ">" ++ escape_all s ++ cstr "</KEYVALUE>" ++ nl) ++
      cstr "</KEYBINDING>" ++ nl)).
  { unfold keyBinding2xml, keyBinding_with, value_with. rewrite Ht. cbn [mbind option_bind].
    destruct Hp as [| | | | | |t w s Ew Hc| |t d [->| ->]]; rewrite ?E; try done. destruct t; by rewrite ?E. }
  rewrite Ek. eexists. split; [reflexivity|].
  apply (scans_keyBinding n _ [(XTOK_KEYVALUE, [Some ty; Some s], None); (ZTOK_KEYVALUE, [], None)] Hn).
  by apply scans_keyvalue.
Qed.

(** what is printed of an object path is scanned as the tokens of its class and its
    keys, with the same names and values; the type is [string], [numeric] or [boolean]. *)
Theorem path_scanned hn ns cn keys evs : quotable cn -> Forall2 key_scanned keys evs ->
  exists text, instanceName2xml print_real getCustomHostname (XP hn ns cn keys) = Some text /\
    scans text ((XTOK_INSTANCENAME, [Some cn], None) :: concat evs ++ [(ZTOK_INSTANCENAME, [], None)]).
Proof.
  intros Hcn Hk. destruct (scans_all _ _ _ _ key_ok Hk) as (text & E & S). cbn [instanceName2xml].
  change (all _ keys) with (all (fun k => let '(n, d) := k in keyBinding2xml print_real getCustomHostname n d) keys).
  rewrite E. cbn [mbind option_bind]. eexists. split; [reflexivity|]. by apply scans_instanceName.
Qed.
End round_trip.

Definition wit_real (t : CMPIType) (d : spec_float) : bytes := cstr "1.5e+00".
Definition wit_host (httpHost : option bytes) : bytes := cstr "localhost".

(** A readable text of characters that stay as they are. *)
Lemma prints_plain trimws s : strstr s (cstr "<![CDATA[") = None -> Forall plain_char s ->
  prints trimws wit_real CMPI_string (XString (Some s)) s.
Proof. intros Hc Hs. constructor; [done|]. by apply plain_readable. Qed.

Ltac quoted_bytes := unfold quotable; repeat (constructor; [split; vm_compute; discriminate|]); constructor.
Ltac plain_text := repeat (constructor; [split_and!; vm_compute; congruence|]); constructor.




Lemma path_scanned_witness :
  exists evs text, instanceName2xml wit_real wit_host (XP None (Some (cstr "root")) (cstr "C")
      [(cstr "S", XD CMPI_string false 0 (XString (Some (cstr "x")))); (cstr "N", XD CMPI_sint16 false 0 (XWord (-5)))]) =
    Some text /\ scans true text evs.
Proof.
  assert (P : Forall2 (key_scanned true wit_real)
    [(cstr "S", XD CMPI_string false 0 (XString (Some (cstr "x")))); (cstr "N", XD CMPI_sint16 false 0 (XWord (-5)))]
    [[(XTOK_KEYBINDING, [Some (cstr "S")], None); (XTOK_KEYVALUE, [Some (cstr "string"); Some (cstr "x")], None);
      (ZTOK_KEYVALUE, [], None); (ZTOK_KEYBINDING, [], None)];
     [(XTOK_KEYBINDING, [Some (cstr "N")], None); (XTOK_KEYVALUE, [Some (cstr "numeric"); Some (cstr "-5")], None);
      (ZTOK_KEYVALUE, [], None); (ZTOK_KEYBINDING, [], None)]]).
  { constructor; [apply key_value; [quoted_bytes|reflexivity|]; apply prints_plain; [vm_compute; reflexivity|plain_text]|].
    constructor; [apply key_value; [quoted_bytes|reflexivity|]; apply prints_integer; [vm_compute; reflexivity|discriminate]|constructor]. }
  assert (Q : quotable (cstr "C")) by quoted_bytes.
  eexists. exact (path_scanned true wit_real wit_host None (Some (cstr "root")) (cstr "C") _ _ Q P).
Defined.
